(* ===== verification/_CoqProject ===== *)
-Q . S2P
Prelude.v
PyText.v
PyBytes.v
PyFloat.v
PyFloatExact.v
ModbusCodec.v
ModbusRtu.v
ModbusDatatypes.v
ModbusPlanner.v
PyDict.v
ModbusScheduler.v
Connectivity.v
Pipeline.v
PyTime.v
Alarms.v
RingBuffer.v
Backlog.v
ColdStore.v
Assets.v
Dispatcher.v
ModbusPolling.v
SparkplugWire.v
SparkplugPayload.v
SparkplugConnector.v
Supervisor.v
AuditLog.v
WriteRouter.v
Config.v
HotReload.v
MainPipeline.v
FleetDb.v
FleetRegistry.v
FleetPush.v
FleetAuth.v
FleetManager.v
ModbusTransports.v
ApiAuth.v
RestApi.v
PyCsv.v
SchemaForms.v
WebUi.v
ConfigUi.v
FleetAgent.v
Sntp.v
SystemTags.v
SnmpDriver.v
EtherNetIpDriver.v
GenericMqtt.v
InboundDrivers.v
Notifications.v
LogBuffer.v
Diagnostics.v
FieldDrivers.v
NorthboundServers.v
AppMain.v
Certificates.v
FleetMigrations.v
FleetProcess.v
CliClient.v
ConfigWatch.v
PollLoop.v
StatusRoutes.v
SecretKey.v
InboundConnect.v
AgentMib.v
FleetDashboard.v
Observability.v
GroupTasks.v
