(* ===== verification/Prelude.v ===== *)
(** * xEdge: verification of an IIoT edge gateway

    xEdge (src/xedge) reads tags from field devices through protocol drivers,
    normalises and filters them, buffers them in memory and on disk, and
    delivers them northbound; write-back commands travel the other way.  This
    library models the gateway's own logic and proves the properties that make
    each part correct.

    ** How the program's parts interact

    A driver supervisor runs one task per configured driver instance.  A Modbus
    driver plans its tags into read requests, sends them through a request
    scheduler, encodes and decodes the protocol and puts tag updates on one
    queue.  The pipeline consumer takes each update, scales it, runs the alarm
    engine, records the latest value, applies the deadband and pushes it into
    the ring buffer of its stream; samples evicted from a full ring go to a
    SQLite cold store unless the asset layer suppresses them.  The northbound
    dispatcher drains the rings, publishes over MQTT/Sparkplug B and replays the
    cold store after a reconnect.  MQTT commands and the REST API write through
    one router that asks the supervisor and records the attempt in a
    hash-chained audit log.  A config engine loads, merges and validates the
    configuration; on a change a reconciliation restarts the affected drivers.
    The REST API authenticates users, limits request rates and operates on all
    of these.  A fleet manager keeps a multi-tenant device registry in a
    database; a fleet agent on each gateway enrols, sends heartbeats and applies
    the configurations pushed to it; certificates of the manager's authority
    identify both ends.  An SNTP client watches the clock, and system tags report
    every instance's health like any other tag.  Web pages show and edit the same
    configuration the API serves, a diagnostics socket runs support commands for
    a browser or a command line client, alarm changes are announced by e-mail and
    trap, and an OPC UA server, an SNMP agent and an MQTT broker offer the latest
    values to clients on site.  The entry point starts these parts as the
    configuration asks and takes them down in the opposite order.

    ** Files

    Language and libraries:
    - Prelude: exceptions as values ([res], the [let*] notation), the state and
      error monad ([SR], [let!]), slices, machine ranges, stable sort,
      permutation solver, HTTP refusals, tactics and hint databases.
    - PyText: Python strings (partition, strip, int).
    - PyBytes: struct.pack/unpack of integers, byte order.
    - PyFloat: Python floats as IEEE binary64 ([spec_float]), struct codes d and
      f, int/float comparison and conversion.  PyFloatExact: sums, scalings and
      quotients that binary64 computes exactly.
    - PyDict: insertion-ordered dictionaries and JSON values.
    - PyTime: datetime and timedelta in integer microseconds.
    - PyCsv: the csv module's reader and writer in the default dialect.

    Southbound (src/xedge/drivers):
    - ModbusCodec, ModbusRtu, ModbusDatatypes: drivers/modbus/codec.py,
      rtu_codec.py, datatypes.py.
    - ModbusPlanner: planner.py; ModbusScheduler: scheduler.py as a state machine
      over its suspension points; ModbusPolling: polling.py (reads with retries
      and per-tag fallback, write-back) against an abstract transport class;
      ModbusTransports: tcp.py, rtu_over_tcp.py, serial.py and bus_manager.py,
      the instances of that class; PollLoop: the tasks of polling.py's run.
    - SnmpDriver: snmp/client.py and asn1types.py.  EtherNetIpDriver:
      ethernet_ip/client.py.  InboundDrivers: loopback/driver.py,
      mqtt_subscriber/client.py, snmp/receiver.py, a Module each.
      InboundConnect: the connections of the last two.  GroupTasks: the [run]
      the polling drivers share, their group tasks over the event loop.
    - FieldDrivers: bacnet/client.py, bacnet/mstp_client.py and opcua/client.py, a
      Module each.
    - Connectivity: core/connectivity.py.

    Core (src/xedge/core):
    - Pipeline: drivers/base.py types, core/pipeline.py (normalisation, deadband).
    - Alarms: alarms.py.  Assets: assets.py.
    - Supervisor: supervisor.py; the supervising task is a machine whose program
      counter names the pending await, statuses are shared heap objects.
    - WriteRouter: write_router.py over Supervisor and AuditLog.
    - Config: config.py.  HotReload: driver_config.py, hot_reload.py;
      ConfigWatch: the watch loop of hot_reload.py.
    - MainPipeline: main.py (registry, pipeline consumer, backpressure retry,
      start-up), store/latest_values.py.  SystemTags: system_tags.py.
    - Sntp: sntp.py.  Notifications: smtp.py, snmp_notify.py, watchdog.py.
    - AppMain: the rest of main.py, from the configuration to the parts that run,
      start-up and shutdown as sequences of actions.

    Storage and northbound:
    - RingBuffer: store/ring_buffer.py.  ColdStore: store/sqlite_store.py.
      Backlog: the [BacklogStore] class, the contract the dispatcher is proved
      against and the cold store implements.
    - Dispatcher: northbound/dispatcher.py as a machine interleaved with its
      environment.
    - SparkplugWire, SparkplugPayload, SparkplugConnector: northbound/sparkplug/*,
      northbound/mqtt.py.  GenericMqtt: northbound/generic_mqtt.py.
    - AuditLog: observability/audit_log.py.  LogBuffer: observability/logging.py.
      Observability: its levels, tracing.py and otel_metrics.py, a Module each.
    - NorthboundServers: northbound/opcua_server.py, snmp_agent.py and
      mqtt_broker.py, a Module each.  AgentMib: the MIB of snmp_agent.py and what
      a poll of it reads.

    API and fleet management:
    - ApiAuth: api/permissions.py, auth.py, rate_limit.py.  SecretKey: the key
      file of auth.py.  RestApi:
      api/server.py, its handlers over the states of the other components.
      StatusRoutes: its status routes.  Diagnostics: api/diagnostics.py.
      CliClient: cli/client.py.
    - SchemaForms: api/schema_forms.py and tag_bulk.py.  WebUi: api/ui.py.
      ConfigUi: api/config_ui.py.
    - Certificates: security/*.py and api/tls.py.
    - FleetDb: the tables of fleet/db_models.py with their constraints and
      transactions.  FleetRegistry and FleetPush: fleet/registry.py.  FleetAuth:
      fleet/auth.py.  FleetManager: fleet/manager_app.py and
      manager_device_app.py.  FleetAgent: fleet/agent.py, and its exchanges with
      the manager.  FleetMigrations: fleet/migrations/versions.  FleetProcess:
      fleet/manager_cli.py, and enrolment with the authority of Certificates.
      FleetDashboard: the file server of manager_app.py.

    ** What the theorems show

    - Codecs (ModbusCodec, ModbusRtu, ModbusDatatypes, SparkplugPayload): decoders
      invert encoders, accept only encodings, reject corrupted frames; no
      well-formed input raises.
    - Planner: the plan covers every tag once, places it at its address, sends
      only encodable requests, reads no address outside the tags' gaps, and
      merges whenever it may.
    - Scheduler: priority order, progress, and what [stop] does to callers.
    - Polling: a failing block never spoils the updates of good tags; a write
      reads back; no request for a poll on demand is lost.
    - Connectivity, deadband and alarms: the state kept and the flags raised
      follow declarative conditions on the history; only redundant samples are
      suppressed.
    - Ring buffer and cold store: refinement of FIFO queues; alarm streams never
      evict.  Dispatcher: every sample stays accounted for in every
      interleaving, and replay delivers the backlog.
    - Supervisor and router: RUNNING means connected, instances are isolated,
      failed drivers restart with bounded backoff, writes are audited.
    - Config: layering of overlays, retention of versions, all-or-nothing reload,
      reconciliation of instances, and a watch loop that passes over versions
      that fail validation and catches up with the file.  Audit log: appends
      keep the chain verifiable, and equal final hashes mean equal logs unless
      two strings hashed for these very logs collide.
    - Transports: whatever the framing and connection mode, an acceptable read
      returns what the device holds; the serial port follows the drivers.
    - Other drivers: every readable tag is reported once per cycle, Good or Bad,
      with counters and connectivity following; no group task outlives its run;
      the MQTT subscriber subscribes to every tag again after each reconnection,
      and the trap receiver never listens without sound credentials.  Generic
      MQTT: a batch goes out whole and in order, or fails as a whole.
    - API: unauthorised requests change nothing, successful changes leave one
      audit entry, signing in succeeds exactly for a matching password outside a
      lockout and the first account is made once; session tokens, lockout and
      rate limit equal declarative conditions; sessions survive a restart.
    - Fleet: tenants cannot touch or observe each other's rows, join tokens are
      redeemed once, pushes are numbered and delivered in order, and a pushed
      configuration reaches the device and its verdict the manager; the dashboard
      serves no file outside its directory.
    - Web pages: a page saves what the API would, writes the configuration at most
      once and only after its checks, shows no secret; tags exported as CSV import
      unchanged.
    - Notifications: each alarm change is announced once and in order, credentials
      leave only over TLS.  Diagnostics: every known
      command that is answered is audited once, under its own name.
    - Servers: the OPC UA nodes mirror the latest values, a poll of the SNMP agent
      reads the supervisor and the alarm counts, the broker admits exactly the
      configured users.  Observability: a scrape shows the live counters, and the
      log level governs the loggers first used under it.
    - Process: when the entry point returns, what it started was stopped and the
      store closed last.
    - Certificates: the authority grants the name its caller chose and never the
      one a request claims; key pairs survive restarts; an enrolled device trusts
      the manager and the manager the device.  Migrations: downgrading undoes
      upgrading, and the revisions produce the schema the models declare.  A fresh
      manager can be logged into with the password it wrote.
    - SNTP: an echoed timestamp decodes exactly; the status reports the history.
      System tags: every tick publishes every tag of every instance.
    - Lemmas named Example are concrete runs; several exhibit behaviour at odds
      with the code's documentation.

    ** Modelling choices

    - Exceptions are the constructors of [exn]; rendered messages, log lines and
      tracing spans are dropped.  Strings are byte strings (ASCII, or UTF-8 where
      a file says so).
    - Concurrency is interleaving at awaits: between two suspension points a
      coroutine runs alone, as asyncio guarantees.
    - Fuel appears only where a loop is not structural: varint digits
      ([varint_fuel], one unit per bit), fields of a message and secret
      substitution (one unit per byte); each comes with the lemma or the
      definition that makes the bound sufficient ([varint_fuel_enough],
      [fold_fields_more]; the string's own length).  The fuel of FleetDashboard's
      [walk] is the system's limit on links, and exhausting it is its error.
    - Code outside src is a parameter: the MQTT library and broker answers, the
      Modbus device memory, SHA-256 and canonical JSON text, the JSON Schema
      check, the YAML parser, environment and secret files, decimal text
      conversions, bcrypt, HMAC and SHA-256 of tokens, X.509 and TLS, the
      database's commit, the SNMP, CIP, BACnet, OPC UA, broker, mail and HTTP
      libraries.  Each theorem that relies on one states what it needs.
    - Fleet transactions read a snapshot and write on commit, as PostgreSQL does
      at READ COMMITTED; theorems are about transactions one at a time, and
      Examples show what overlapping ones do.  Requests of one API run one at a
      time and read the clock once.
    - Timeouts and lost messages are outcomes an oracle chooses.
    - Cancelling a driver's await is assumed to raise CancelledError there.

    ** Not modelled

    Bytes below the socket and serial interfaces and the options set on them,
    SQLite failures, the timing of asyncio's timers, HTML templates and the text
    of pages, the OpenTelemetry SDK and structlog's own processors, argument
    parsing, signal handlers, Alembic's own bookkeeping and environment file: each
    is input or output, or a call into a library with no decision of the
    program's.  The construction of the web application objects (create_app,
    create_config_ui_router and the like) registers the handlers that are
    modelled one by one; the route table itself belongs to FastAPI.  The
    frontend is not Python. *)

From Stdlib Require Export ZArith Lia String.
From stdpp Require Export base tactics option list strings gmap sorting.
#[global] Set Default Goal Selector "!".
#[global] Open Scope Z_scope.
#[global] Arguments Nat.div : simpl never.
#[global] Arguments Nat.modulo : simpl never.
#[global] Arguments Z.of_nat : simpl never.
#[global] Arguments Z.to_nat : simpl never.
#[global] Arguments Z.pow : simpl never.
#[global] Arguments Z.mul : simpl never.
#[global] Arguments Z.div : simpl never.
#[global] Arguments Z.modulo : simpl never.

(** ** Python exceptions and the error monad

    Every fallible function of the sources returns [res A]: either a value or
    the exception it raises.  Exceptions keep the data their handlers look at
    (the Modbus exception response) and drop the rendered message. *)
Inductive exn : Type :=
  | ValueError
  | StructError
  | IndexError
  | KeyError
  | TypeError
  | OverflowError
  | ZeroDivisionError
  | UnicodeDecodeError
  | TimeoutError
  | OSError
  | RuntimeError
  | IncompleteReadError
  | ModbusFramingError
  | ModbusRtuFramingError
  | ModbusDataTypeError
  | ModbusException (function_code exception_code : Z)
  | ModbusDriverStateError
  | SerialBusManagerStateError
  | SchedulerStoppedError
  | RingBufferBackpressureError
  | ProtobufDecodeError
  | ConfigValidationError
  | SecretResolutionError
  | FileNotFoundError
  | AuthError
  | SntpProtocolError
  | DeviceTenantConflictError
  | TagBulkParseError
  | CsvError
  | JSONDecodeError
  | YAMLError
  | ConfigNotFoundError
  | AttributeError
  | ConnectionError
  | PermissionError
  | IntegrityError
  | StaleDataError
  | DBAPIError
  | MultipleResultsFound
  | InvalidCsrError
  | ProgrammingError
  | CliError
  | WebSocketException
  | AssertionError
  | DriverConnectionError
  | SnmpConfigError
  | SnmpDriverStateError
  | PySnmpError
  | CommError
  | PycommError
  | EtherNetIpDriverStateError
  | LoopbackDriverStateError
  | MqttSubscriberStateError
  | SnmpTrapReceiverStateError
  | BacnetDriverStateError
  | ErrorRejectAbortNack
  | BacnetMstpDriverStateError
  | BacnetMstpRequestError
  | OpcUaDriverStateError
  | UaError
  | OpcUaServerStateError
  | MqttBrokerStateError
  | SnmpAgentStateError
  | InconsistentValueError
  | DiagnosticCommandError
  | HTTPException (status_code : Z).

#[export] Instance exn_eq_dec : EqDecision exn.
Proof. solve_decision. Defined.

Inductive res (A : Type) : Type :=
  | Ok (a : A)
  | Raise (e : exn).
Arguments Ok {A} a.
Arguments Raise {A} e.

#[export] Instance res_eq_dec {A} `{EqDecision A} : EqDecision (res A).
Proof. solve_decision. Defined.

Definition rbind {A B} (m : res A) (k : A -> res B) : res B :=
  match m with Ok a => k a | Raise e => Raise e end.

Definition rmap {A B} (f : A -> B) (m : res A) : res B :=
  match m with Ok a => Ok (f a) | Raise e => Raise e end.

(** [guard_raise c e k]: the Python shape [if c: raise e] followed by [k]. *)
Definition guard_raise {A} (c : bool) (e : exn) (k : res A) : res A :=
  if c then Raise e else k.

Declare Scope py_scope.
Delimit Scope py_scope with py.
Notation "'let*' x := m 'in' k" := (rbind m (fun x => k))
  (at level 10, x pattern, m at level 100, k at level 200) : py_scope.
Notation "'raise_if' c 'with' e ; k" := (guard_raise c e k)
  (at level 10, c at level 100, e at level 9, k at level 200) : py_scope.
#[global] Open Scope py_scope.

Definition is_ok {A} (m : res A) : bool := match m with Ok _ => true | Raise _ => false end.

Lemma rbind_ok {A B} (m : res A) (k : A -> res B) b :
  rbind m k = Ok b <-> exists a, m = Ok a /\ k a = Ok b.
Proof. destruct m; simpl; naive_solver. Qed.

Lemma guard_raise_ok {A} c e (k : res A) a :
  guard_raise c e k = Ok a <-> c = false /\ k = Ok a.
Proof. destruct c; simpl; naive_solver. Qed.

(** [mapM_res]: a Python list comprehension whose element expression may raise. *)
Fixpoint mapM_res {A B} (f : A -> res B) (l : list A) : res (list B) :=
  match l with
  | [] => Ok []
  | x :: xs => let* y := f x in let* ys := mapM_res f xs in Ok (y :: ys)
  end.

(** ** Tactics and hint databases of the development *)

Create HintDb xedge discriminated.

(** Split conjunctions in the hypotheses and turn boolean tests of the code
    into the propositions they decide. *)
Ltac bool_simpl :=
  repeat match goal with
  | H : _ && _ = true |- _ => apply andb_true_iff in H; destruct H
  | H : _ || _ = false |- _ => apply orb_false_iff in H; destruct H
  | H : negb _ = true |- _ => apply negb_true_iff in H
  | H : negb _ = false |- _ => apply negb_false_iff in H
  | H : (_ <=? _) = true |- _ => apply Z.leb_le in H
  | H : (_ <=? _) = false |- _ => apply Z.leb_gt in H
  | H : (_ <? _) = true |- _ => apply Z.ltb_lt in H
  | H : (_ <? _) = false |- _ => apply Z.ltb_ge in H
  | H : (_ =? _) = true |- _ => apply Z.eqb_eq in H
  | H : (_ =? _) = false |- _ => apply Z.eqb_neq in H
  | H : bool_decide _ = true |- _ => apply bool_decide_eq_true in H
  | H : bool_decide _ = false |- _ => apply bool_decide_eq_false in H
  end.

(** Invert the successful runs of monadic code found in the hypotheses. *)
Ltac inv_ok :=
  repeat match goal with
  | H : rbind _ _ = Ok _ |- _ => apply rbind_ok in H; destruct H as (? & ? & H)
  | H : guard_raise _ _ _ = Ok _ |- _ => apply guard_raise_ok in H; destruct H as [? H]
  | H : Ok _ = Ok _ |- _ => injection H as H; subst
  | H : Raise _ = Ok _ |- _ => discriminate H
  | H : Ok _ = Raise _ |- _ => discriminate H
  end; simplify_eq; bool_simpl.

(** ** Python lists, slices and integer helpers *)

Definition zlen {A} (l : list A) : Z := Z.of_nat (length l).

(** [l[a:b]] for [0 <= a]: out-of-range bounds are clipped, an empty range
    gives the empty list. *)
Definition slice {A} (l : list A) (a b : Z) : list A :=
  take (Z.to_nat (b - a)) (drop (Z.to_nat a) l).

(** [l[i]] for a non-negative index; out of range raises. *)
Definition index {A} (l : list A) (i : Z) : res A :=
  if i <? 0 then Raise IndexError else
  match l !! Z.to_nat i with Some x => Ok x | None => Raise IndexError end.

Lemma zlen_nonneg {A} (l : list A) : 0 <= zlen l.
Proof. unfold zlen; lia. Qed.
Lemma zlen_app {A} (l k : list A) : zlen (l ++ k) = zlen l + zlen k.
Proof. unfold zlen; rewrite length_app; lia. Qed.
Lemma zlen_cons {A} (x : A) l : zlen (x :: l) = 1 + zlen l.
Proof. unfold zlen; simpl; lia. Qed.
Lemma zlen_nil {A} : zlen (@nil A) = 0.
Proof. reflexivity. Qed.
Create HintDb zlen.
#[export] Hint Rewrite @zlen_app @zlen_cons @zlen_nil : zlen.

Lemma slice_length {A} (l : list A) a b :
  0 <= a -> a <= b -> b <= zlen l -> zlen (slice l a b) = b - a.
Proof. unfold zlen, slice. rewrite length_take, length_drop. lia. Qed.

Lemma slice_app_r {A} (h t : list A) n :
  0 <= n -> n <= zlen t -> slice (h ++ t) (zlen h) (zlen h + n) = take (Z.to_nat n) t.
Proof.
  intros. unfold slice, zlen. rewrite Nat2Z.id, drop_app_length. f_equal; lia.
Qed.

Lemma index_ok {A} (l : list A) i x :
  index l i = Ok x <-> 0 <= i /\ l !! Z.to_nat i = Some x.
Proof.
  unfold index. destruct (Z.ltb_spec i 0); [split; [done|lia]|].
  destruct (l !! Z.to_nat i) eqn:E; naive_solver.
Qed.

(** Range predicates of machine integers. *)
Definition in_u (w : Z) (z : Z) : Prop := 0 <= z < 2 ^ w.
Definition in_s (w : Z) (z : Z) : Prop := - 2 ^ (w - 1) <= z < 2 ^ (w - 1).
Abbreviation u8 := (in_u 8).
Abbreviation u16 := (in_u 16).
Definition in_ub (w : Z) (z : Z) : bool := (0 <=? z) && (z <? 2 ^ w).
Definition in_sb (w : Z) (z : Z) : bool := (- 2 ^ (w - 1) <=? z) && (z <? 2 ^ (w - 1)).

Lemma in_ub_spec w z : in_ub w z = true <-> in_u w z.
Proof. unfold in_ub, in_u. rewrite andb_true_iff, Z.leb_le, Z.ltb_lt. done. Qed.
Lemma in_sb_spec w z : in_sb w z = true <-> in_s w z.
Proof. unfold in_sb, in_s. rewrite andb_true_iff, Z.leb_le, Z.ltb_lt. done. Qed.

(** A bit test as a remainder, the bridge between masks and arithmetic. *)
Lemma land_pow2_ones z w : 0 <= w -> Z.land z (2 ^ w - 1) = z mod 2 ^ w.
Proof. intros. replace (2 ^ w - 1) with (Z.ones w) by (rewrite Z.ones_equiv; lia). by apply Z.land_ones. Qed.

(** [sum(len(x) for x in xs)]-style folds are not needed below; [count_if] is
    the length of a filtered comprehension. *)
Definition count_if {A} (f : A -> bool) (l : list A) : Z := zlen (List.filter f l).

(** A comprehension that raises nowhere is a pointwise relation. *)
Lemma mapM_res_ok {A B} (f : A -> res B) l k :
  mapM_res f l = Ok k <-> Forall2 (fun x y => f x = Ok y) l k.
Proof.
  revert k; induction l as [|x xs IH]; intros k; simpl.
  - split; [intros [= <-]; constructor|by inversion 1].
  - split.
    + intros H. inv_ok. constructor; [done|]. by apply IH.
    + inversion 1 as [|? y ? ys Hy Hys]; subst. rewrite Hy. simpl.
      apply IH in Hys. rewrite Hys. done.
Qed.

Lemma mapM_res_seq {B} (f : nat -> res B) n k :
  length k = n -> (forall i y, k !! i = Some y -> f i = Ok y) -> mapM_res f (seq 0 n) = Ok k.
Proof.
  intros L H. apply mapM_res_ok, Forall2_same_length_lookup. split; [by rewrite length_seq|].
  intros i x y Hx Hy. apply lookup_seq in Hx as [-> _]. by apply H.
Qed.

Lemma land_shiftl1 x k : 0 <= k -> negb (Z.land x (Z.shiftl 1 k) =? 0) = Z.testbit x k.
Proof.
  intros Hk. rewrite Z.shiftl_1_l.
  destruct (Z.testbit x k) eqn:T.
  - apply negb_true_iff, Z.eqb_neq. intros E.
    apply (f_equal (fun z => Z.testbit z k)) in E.
    rewrite Z.land_spec, Z.bits_0, T, Z.pow2_bits_true in E by lia. done.
  - apply negb_false_iff, Z.eqb_eq, Z.bits_inj'. intros n Hn.
    rewrite Z.land_spec, Z.bits_0.
    destruct (decide (n = k)) as [->|]; [by rewrite T|].
    by rewrite Z.pow2_bits_false, andb_false_r by lia.
Qed.

Lemma testbit_high w z n : in_u w z -> w <= n -> 0 <= w -> Z.testbit z n = false.
Proof. unfold in_u. intros. rewrite <- (Z.mod_small z (2 ^ w)) by lia. apply Z.mod_pow2_bits_high. lia. Qed.
Lemma high_bits_range w z : 0 <= w -> (forall n, w <= n -> Z.testbit z n = false) -> in_u w z.
Proof.
  unfold in_u. intros Hw Hz. assert (z = z mod 2 ^ w) as ->; [|by apply Z.mod_pos_bound, Z.pow_pos_nonneg].
  apply Z.bits_inj'. intros n Hn. destruct (Z.ltb_spec n w) as [L|L].
  - by rewrite Z.mod_pow2_bits_low.
  - by rewrite Z.mod_pow2_bits_high, Hz.
Qed.
Lemma lxor_range w a b : 0 <= w -> in_u w a -> in_u w b -> in_u w (Z.lxor a b).
Proof. intros. apply high_bits_range; [done|]. intros. by rewrite Z.lxor_spec, !(testbit_high w). Qed.
Lemma lor_range w a b : 0 <= w -> in_u w a -> in_u w b -> in_u w (Z.lor a b).
Proof. intros. apply high_bits_range; [done|]. intros. by rewrite Z.lor_spec, !(testbit_high w). Qed.

Lemma lxor_cancel_r a b c : Z.lxor a c = Z.lxor b c -> a = b.
Proof.
  intros H. apply (f_equal (fun z => Z.lxor z c)) in H.
  by rewrite !Z.lxor_assoc, Z.lxor_nilpotent, !Z.lxor_0_r in H.
Qed.

(** Length of the run of results equal to [b] at the end of a history. *)
Fixpoint leading (b : bool) (l : list bool) : Z :=
  match l with [] => 0 | x :: t => if Bool.eqb x b then 1 + leading b t else 0 end.
Definition trailing (b : bool) (h : list bool) : Z := leading b (rev h).

Lemma trailing_snoc b h x : trailing b (h ++ [x]) = if Bool.eqb x b then 1 + trailing b h else 0.
Proof. unfold trailing. by rewrite rev_app_distr. Qed.

(** ** [sorted(xs, key=...)]: a stable sort by a boolean order on the elements *)
Section StableSort.
Context {A : Type} (leb : A -> A -> bool).
Fixpoint sort_insert (x : A) (l : list A) : list A :=
  match l with
  | [] => [x]
  | y :: t => if leb x y then x :: y :: t else y :: sort_insert x t
  end.
Definition py_sorted (l : list A) : list A := foldr sort_insert [] l.

Lemma sort_insert_perm x l : sort_insert x l ≡ₚ x :: l.
Proof.
  induction l as [|y t IH]; simpl; [done|]. destruct (leb x y); [done|].
  rewrite IH. by rewrite Permutation_swap.
Qed.
Lemma py_sorted_perm l : py_sorted l ≡ₚ l.
Proof. induction l as [|x t IH]; simpl; [done|]. by rewrite sort_insert_perm, IH. Qed.

Context (leb_total : forall x y, leb x y = false -> leb y x = true).
Lemma sort_insert_sorted x l : Sorted leb l -> Sorted leb (sort_insert x l).
Proof.
  induction 1 as [|y t Ht IH Hy]; simpl; [by repeat constructor|].
  destruct (leb x y) eqn:E; [constructor; [by constructor|constructor; by rewrite E]|].
  constructor; [done|]. apply leb_total in E.
  destruct t as [|z t]; simpl; [constructor; by rewrite E|].
  destruct (leb x z); constructor; [by rewrite E|]. by inversion Hy.
Qed.
Lemma py_sorted_sorted l : Sorted leb (py_sorted l).
Proof. induction l; simpl; [constructor|]. by apply sort_insert_sorted. Qed.
Lemma py_sorted_strongly l :
  (forall x y z, leb x y = true -> leb y z = true -> leb x z = true) -> StronglySorted leb (py_sorted l).
Proof.
  intros T. apply Sorted_StronglySorted; [|apply py_sorted_sorted].
  intros x y z H1 H2. apply Is_true_true in H1, H2. apply Is_true_true. eauto.
Qed.
End StableSort.

Lemma elem_of_list_filter {A} (f : A -> bool) x (l : list A) : x ∈ List.filter f l <-> x ∈ l /\ f x = true.
Proof. by rewrite !list_elem_of_In, List.filter_In. Qed.
Lemma StronglySorted_list_filter {A} (R : A -> A -> Prop) (f : A -> bool) (l : list A) :
  StronglySorted R l -> StronglySorted R (List.filter f l).
Proof.
  induction 1 as [|x t S IH F]; simpl; [constructor|]. destruct (f x); [|done]. constructor; [done|].
  rewrite Forall_forall in *. intros y [Hy _]%elem_of_list_filter. by apply F.
Qed.

Lemma prefix_snoc_inv {A} (p l : list A) x :
  p `prefix_of` l ++ [x] -> p `prefix_of` l \/ p = l ++ [x].
Proof.
  intros [k E]. destruct k as [|y k _] using rev_ind; [right; by rewrite E, app_nil_r|].
  left. rewrite app_assoc in E. apply app_inj_tail in E as [-> _]. by exists k.
Qed.

(** Cancelling the common part of a queue whose head left and whose tail grew. *)
Lemma perm_swap_end {A} (a b c : list A) x y : a ++ x :: c ≡ₚ b ++ c ++ [y] -> x :: a ≡ₚ y :: b.
Proof.
  intros H. apply (Permutation_app_inv_r c). simpl. rewrite <- (Permutation_middle a c x) in H.
  rewrite H, (Permutation_app_comm c [y]), app_assoc, (Permutation_app_comm b [y]). done.
Qed.
Lemma perm_add_end {A} (a b c : list A) y : a ++ c ≡ₚ b ++ c ++ [y] -> a ≡ₚ y :: b.
Proof.
  intros H. apply (Permutation_app_inv_r c). rewrite H, (Permutation_app_comm c [y]), app_assoc, (Permutation_app_comm b [y]). done.
Qed.

Lemma filter_nil_forall {A} (f : A -> bool) (l : list A) : (forall x, x ∈ l -> f x = false) -> List.filter f l = [].
Proof. induction l as [|x t IH]; intros H; simpl; [done|]. rewrite H by (by left). apply IH. intros; apply H; by right. Qed.
Lemma filter_all_forall {A} (f : A -> bool) (l : list A) : (forall x, x ∈ l -> f x = true) -> List.filter f l = l.
Proof. induction l as [|x t IH]; intros H; simpl; [done|]. rewrite H by (by left). f_equal. apply IH. intros; apply H; by right. Qed.

Lemma filter_split_perm {A} (f : A -> bool) (l : list A) :
  l ≡ₚ List.filter f l ++ List.filter (fun x => negb (f x)) l.
Proof.
  induction l as [|x t IH]; simpl; [done|]. destruct (f x); simpl.
  - by rewrite <- IH.
  - by rewrite <- Permutation_middle, <- IH.
Qed.

Lemma exists_elem_cons {A} (P : A -> Prop) x (l : list A) :
  (exists y, y ∈ x :: l /\ P y) <-> P x \/ exists y, y ∈ l /\ P y.
Proof.
  split; [intros (y & [->|H]%elem_of_cons & HP); eauto|].
  intros [H|(y & H & HP)]; [exists x|exists y]; split; auto; [by left|by right].
Qed.
Lemma exists_elem_nil {A} (P : A -> Prop) : (exists y, y ∈ @nil A /\ P y) <-> False.
Proof. split; [intros (y & H & _); by apply elem_of_nil in H|done]. Qed.

(** ** Permutations of concatenations

    [solve_perm] proves [a1 ++ ... ++ an ≡ₚ b1 ++ ... ++ bn] when the two sides
    have the same pieces, moving each piece of the left to the front of the
    right. *)
Section PermSolver.
Context {A : Type}.
Implicit Types x y t l : list A.
Lemma perm_here x t : x ++ t ≡ₚ x ++ t.
Proof. done. Qed.
Lemma perm_last x : x ≡ₚ x ++ [].
Proof. by rewrite app_nil_r. Qed.
Lemma perm_later x y t l : t ≡ₚ x ++ l -> y ++ t ≡ₚ x ++ y ++ l.
Proof. intros ->. apply Permutation_app_swap_app. Qed.
Lemma perm_step x t l b : b ≡ₚ x ++ l -> t ≡ₚ l -> x ++ t ≡ₚ b.
Proof. by intros -> ->. Qed.
Lemma perm_end x b : b ≡ₚ x ++ [] -> x ≡ₚ b.
Proof. rewrite app_nil_r. by intros ->. Qed.
Lemma cons_as_app a l : l <> [] -> a :: l = [a] ++ l.
Proof. done. Qed.
End PermSolver.
Ltac find_piece := solve [repeat first [apply perm_here | apply perm_last | apply perm_later]].
Ltac solve_perm :=
  rewrite <- ?app_assoc, ?app_nil_l, ?app_nil_r;
  repeat (eapply perm_step; [find_piece|]);
  first [done | eapply perm_end; find_piece].

(** ** State and errors

    [SR S A]: a Python method on an object with state [S] that returns an [A]
    or raises; a raise keeps the mutations made before it. *)
Definition SR (S A : Type) : Type := S -> S * res A.
Definition sret {S A} (a : A) : SR S A := fun s => (s, Ok a).
Definition sraise {S A} (e : exn) : SR S A := fun s => (s, Raise e).
Definition sbind {S A B} (m : SR S A) (k : A -> SR S B) : SR S B :=
  fun s => match m s with (s', Ok a) => k a s' | (s', Raise e) => (s', Raise e) end.
Definition slift {S A} (r : res A) : SR S A := fun s => (s, r).
Definition sget {S A} (f : S -> A) : SR S A := fun s => (s, Ok (f s)).
Definition smodify {S} (f : S -> S) : SR S unit := fun s => (f s, Ok tt).
(** [try m except: handler]; the handler re-raises what it does not catch. *)
Definition scatch {S A} (m : SR S A) (h : exn -> SR S A) : SR S A :=
  fun s => match m s with (s', Ok a) => (s', Ok a) | (s', Raise e) => h e s' end.
Notation "'let!' x := m 'in' k" := (sbind m (fun x => k))
  (at level 10, x pattern, m at level 100, k at level 200) : py_scope.

Fixpoint smapM {S A B} (f : A -> SR S B) (l : list A) : SR S (list B) :=
  match l with
  | [] => sret []
  | x :: t => let! y := f x in let! ys := smapM f t in sret (y :: ys)
  end.

(** [raise HTTPException(code)], [except e: raise HTTPException(code)], and a
    refusal when there is nothing or a check fails. *)
Definition http {S A} (code : Z) : SR S A := sraise (HTTPException code).
Definition translate {S A} (e : exn) (code : Z) (m : SR S A) : SR S A :=
  scatch m (fun e' => if decide (e' = e) then http code else sraise e').
Definition some_or {S A} (code : Z) (o : option A) : SR S A := match o with Some a => sret a | None => http code end.
Definition ensure {S} (code : Z) (b : bool) : SR S unit := if b then sret tt else http code.

Lemma sbind_ok {S A B} (m : SR S A) (k : A -> SR S B) s s' a : m s = (s', Ok a) -> sbind m k s = k a s'.
Proof. unfold sbind. by intros ->. Qed.
Lemma sbind_inv {S A B} (m : SR S A) (k : A -> SR S B) s s' b :
  sbind m k s = (s', Ok b) -> exists s1 a, m s = (s1, Ok a) /\ k a s1 = (s', Ok b).
Proof. unfold sbind. destruct (m s) as [s1 [a|e]]; [eauto|done]. Qed.
