(* ===== verification/PyText.v ===== *)
(** * Python strings

    A [str] is its UTF-8 bytes; the operations here work on single ASCII
    separators. *)

From Stdlib Require Import Ascii.
From S2P Require Import Prelude.
Local Open Scope string_scope.
Local Open Scope Z_scope.

Fixpoint is_ascii (s : string) : bool :=
  match s with EmptyString => true | String c t => (Z.of_nat (nat_of_ascii c) <? 128) && is_ascii t end.
(** [hmac.compare_digest] on [str]: both must be ASCII. *)
Definition compare_digest (a b : string) : res bool :=
  raise_if negb (is_ascii a && is_ascii b) with TypeError; Ok (String.eqb a b).

(** [s.count(c)] *)
Fixpoint count_char (c : ascii) (s : string) : nat :=
  match s with EmptyString => 0 | String d t => if Ascii.eqb c d then S (count_char c t) else count_char c t end.
(** [s.partition(c)] and [s.rpartition(c)], [None] when [c] does not occur. *)
Fixpoint partition (c : ascii) (s : string) : option (string * string) :=
  match s with
  | EmptyString => None
  | String d t => if Ascii.eqb c d then Some ("", t) else prod_map (String d) id <$> partition c t
  end.
Fixpoint rpartition (c : ascii) (s : string) : option (string * string) :=
  match s with
  | EmptyString => None
  | String d t =>
      match rpartition c t with
      | Some (a, b) => Some (String d a, b)
      | None => if Ascii.eqb c d then Some ("", t) else None
      end
  end.
(** [s.startswith(prefix)], then [s[len(prefix):]] *)
Fixpoint strip_prefix (prefix s : string) : option string :=
  match prefix, s with
  | EmptyString, _ => Some s
  | String a p, String b t => if Ascii.eqb a b then strip_prefix p t else None
  | _, EmptyString => None
  end.

(** [s.strip()] of an ASCII string *)
Definition is_space (c : ascii) : bool :=
  let n := Z.of_nat (nat_of_ascii c) in ((9 <=? n) && (n <=? 13)) || ((28 <=? n) && (n <=? 32)).
Fixpoint lstrip (s : string) : string :=
  match s with EmptyString => s | String c t => if is_space c then lstrip t else s end.
Fixpoint rstrip (s : string) : string :=
  match s with
  | EmptyString => s
  | String c t => match rstrip t with EmptyString => if is_space c then "" else String c "" | t' => String c t' end
  end.
Definition strip (s : string) : string := rstrip (lstrip s).

(** [len(s)] of a text in UTF-8: the bytes that do not continue a character. *)
Definition continues (c : ascii) : bool := let n := Z.of_nat (nat_of_ascii c) in (128 <=? n) && (n <? 192).
Fixpoint code_points (s : string) : Z :=
  match s with EmptyString => 0 | String c t => (if continues c then 0 else 1) + code_points t end.

(** [int(s)] of an ASCII string: blanks, a sign, digits with single
    underscores between them, at most 4300 of them. *)
Definition digit (c : ascii) : option Z :=
  let n := Z.of_nat (nat_of_ascii c) in if (48 <=? n) && (n <=? 57) then Some (n - 48) else None.
Fixpoint int_digits (s : string) (acc count : Z) (after_digit : bool) : res Z :=
  match s with
  | EmptyString => raise_if negb after_digit || (4300 <? count) with ValueError; Ok acc
  | String c t =>
      if Ascii.eqb c "_" then raise_if negb after_digit with ValueError; int_digits t acc count false
      else match digit c with Some d => int_digits t (10 * acc + d) (count + 1) true | None => Raise ValueError end
  end.
Definition int_text (s : string) : res Z :=
  match strip s with
  | String "-" t => rmap Z.opp (int_digits t 0 0 false)
  | String "+" t => int_digits t 0 0 false
  | t => int_digits t 0 0 false
  end.

Lemma append_assoc (a b c : string) : (a ++ b ++ c = (a ++ b) ++ c)%string.
Proof. induction a as [|d a IH]; [done|exact (f_equal (String d) IH)]. Qed.
Lemma count_char_app c a b : count_char c (a ++ b) = (count_char c a + count_char c b)%nat.
Proof. induction a as [|d a IH]; simpl; [done|]. rewrite IH. by destruct (Ascii.eqb c d). Qed.
Lemma partition_none c s : count_char c s = 0%nat -> partition c s = None.
Proof. induction s as [|d s IH]; simpl; [done|]. destruct (Ascii.eqb c d); [done|]. intros H. by rewrite IH. Qed.
Lemma rpartition_none c s : count_char c s = 0%nat -> rpartition c s = None.
Proof. induction s as [|d s IH]; simpl; [done|]. destruct (Ascii.eqb c d); [done|]. intros H. by rewrite IH. Qed.
Lemma partition_none_inv c s : partition c s = None -> count_char c s = 0%nat.
Proof.
  induction s as [|d s IH]; simpl; [done|]. destruct (Ascii.eqb c d); [done|]. destruct (partition c s); [done|]. auto.
Qed.
Lemma rpartition_none_inv c s : rpartition c s = None -> count_char c s = 0%nat.
Proof.
  induction s as [|d s IH]; simpl; [done|]. destruct (rpartition c s) as [[? ?]|]; [done|]. destruct (Ascii.eqb c d); [done|]. auto.
Qed.
Lemma partition_app c a b : count_char c a = 0%nat -> partition c (a ++ String c b) = Some (a, b).
Proof.
  induction a as [|d a IH]; simpl; [by rewrite Ascii.eqb_refl|]. destruct (Ascii.eqb c d); [done|]. intros H. by rewrite IH.
Qed.
Lemma rpartition_app c a b : count_char c b = 0%nat -> rpartition c (a ++ String c b) = Some (a, b).
Proof.
  intros H. induction a as [|d a IH]; simpl; [by rewrite rpartition_none, Ascii.eqb_refl|]. by rewrite IH.
Qed.
Lemma partition_some c s a b : partition c s = Some (a, b) -> s = a ++ String c b /\ count_char c a = 0%nat.
Proof.
  revert a b; induction s as [|d s IH]; intros a b; simpl; [done|]. destruct (Ascii.eqb_spec c d) as [->|N].
  - by intros [= <- <-].
  - destruct (partition c s) as [[x y]|]; [|done]. simpl. intros [= <- <-]. destruct (IH x y eq_refl) as [-> C].
    simpl. split; [done|]. destruct (Ascii.eqb_spec c d); [done|exact C].
Qed.
Lemma rpartition_some c s a b : rpartition c s = Some (a, b) -> s = a ++ String c b /\ count_char c b = 0%nat.
Proof.
  revert a b; induction s as [|d s IH]; intros a b; simpl; [done|]. destruct (rpartition c s) as [[x y]|] eqn:R.
  - intros [= <- <-]. by destruct (IH x y eq_refl) as [-> C].
  - destruct (Ascii.eqb_spec c d) as [->|N]; [|done]. intros [= <- <-]. split; [done|].
    by apply rpartition_none_inv.
Qed.
