(* ===== verification/PyBytes.v ===== *)
(** * Bytes and [struct]: the fixed-width integer codecs the protocols use

    Python [bytes] are lists of integers in 0..255.  [struct.pack] raises
    [struct.error] for a value outside the format's range and [struct.unpack]
    for a buffer of the wrong size; both are modelled for the integer formats
    the sources use ([B H h I i Q q], either byte order). *)

From S2P Require Import Prelude.

Definition bytes_ok (bs : list Z) : Prop := Forall u8 bs.

Fixpoint le_bytes (n : nat) (z : Z) : list Z :=
  match n with O => [] | S m => z mod 256 :: le_bytes m (z / 256) end.
Fixpoint le_Z (bs : list Z) : Z :=
  match bs with [] => 0 | b :: t => b + 256 * le_Z t end.
Definition be_bytes (n : nat) (z : Z) : list Z := rev (le_bytes n z).
Definition be_Z (bs : list Z) : Z := le_Z (rev bs).

(** Two's complement reading of an unsigned [w]-bit value. *)
Definition to_signed (w z : Z) : Z := if z <? 2 ^ (w - 1) then z else z - 2 ^ w.

(** [struct] integer formats: the byte width and the signedness. *)
Record ifmt := IFmt { fmt_size : nat; fmt_signed : bool }.
Definition fmt_bits (f : ifmt) : Z := 8 * Z.of_nat (fmt_size f).
Definition fmt_B := IFmt 1 false.
Definition fmt_H := IFmt 2 false.
Definition fmt_h := IFmt 2 true.
Definition fmt_I := IFmt 4 false.
Definition fmt_i := IFmt 4 true.
Definition fmt_Q := IFmt 8 false.
Definition fmt_q := IFmt 8 true.

Definition fmt_in_range (f : ifmt) (z : Z) : bool :=
  if fmt_signed f then in_sb (fmt_bits f) z else in_ub (fmt_bits f) z.

Inductive endian := BigEndian | LittleEndian.
#[export] Instance endian_eq_dec : EqDecision endian.
Proof. solve_decision. Defined.

Definition pack_int (en : endian) (f : ifmt) (z : Z) : res (list Z) :=
  if fmt_in_range f z then
    Ok (match en with
        | BigEndian => be_bytes (fmt_size f) (z mod 2 ^ fmt_bits f)
        | LittleEndian => le_bytes (fmt_size f) (z mod 2 ^ fmt_bits f)
        end)
  else Raise StructError.

Definition unpack_int (en : endian) (f : ifmt) (bs : list Z) : res Z :=
  if Nat.eqb (length bs) (fmt_size f) then
    let u := match en with BigEndian => be_Z bs | LittleEndian => le_Z bs end in
    Ok (if fmt_signed f then to_signed (fmt_bits f) u else u)
  else Raise StructError.

(** [struct.pack(">XYZ", x, y, z)]: the fields of a big-endian format in
    order; the first field out of range raises. *)
Fixpoint pack_be (fields : list (ifmt * Z)) : res (list Z) :=
  match fields with
  | [] => Ok []
  | (f, z) :: t => let* b := pack_int BigEndian f z in let* r := pack_be t in Ok (b ++ r)
  end.

(** [struct.unpack(">XYZ", data)]: the buffer must have exactly the size of
    the format. *)
Definition fmts_size (fs : list ifmt) : nat := fold_right (fun f n => (fmt_size f + n)%nat) 0%nat fs.
Fixpoint unpack_fields (fs : list ifmt) (bs : list Z) : res (list Z) :=
  match fs with
  | [] => Ok []
  | f :: t =>
      let* z := unpack_int BigEndian f (take (fmt_size f) bs) in
      let* zs := unpack_fields t (drop (fmt_size f) bs) in Ok (z :: zs)
  end.
Definition unpack_be (fs : list ifmt) (bs : list Z) : res (list Z) :=
  if Nat.eqb (length bs) (fmts_size fs) then unpack_fields fs bs else Raise StructError.

(** ** Lemmas *)

Lemma le_bytes_length n z : length (le_bytes n z) = n.
Proof. revert z; induction n; intros; simpl; auto. Qed.
Lemma be_bytes_length n z : length (be_bytes n z) = n.
Proof. unfold be_bytes. by rewrite length_rev, le_bytes_length. Qed.
Lemma le_bytes_ok n z : bytes_ok (le_bytes n z).
Proof.
  revert z; induction n; intros; simpl; constructor; [|apply IHn].
  unfold in_u. pose proof (Z.mod_pos_bound z 256); lia.
Qed.
Lemma bytes_ok_rev bs : bytes_ok bs -> bytes_ok (rev bs).
Proof. unfold bytes_ok. intros. by apply Forall_rev. Qed.
Lemma be_bytes_ok n z : bytes_ok (be_bytes n z).
Proof. apply bytes_ok_rev, le_bytes_ok. Qed.

Lemma pow256_S n : 2 ^ (8 * Z.of_nat (S n)) = 256 * 2 ^ (8 * Z.of_nat n).
Proof. replace (8 * Z.of_nat (S n)) with (8 + 8 * Z.of_nat n) by lia. by rewrite Z.pow_add_r by lia. Qed.

Lemma le_Z_bytes n z : le_Z (le_bytes n z) = z mod 2 ^ (8 * Z.of_nat n).
Proof.
  revert z; induction n as [|n IH]; intros z; cbn [le_bytes le_Z].
  - simpl. by rewrite Z.mod_1_r.
  - rewrite IH, pow256_S.
    pose proof (Z.pow_pos_nonneg 2 (8 * Z.of_nat n)).
    rewrite Z.rem_mul_r by lia. lia.
Qed.

Lemma le_Z_bound bs : bytes_ok bs -> 0 <= le_Z bs < 2 ^ (8 * Z.of_nat (length bs)).
Proof.
  induction 1 as [|b t Hb Ht IH]; cbn [le_Z length]; [simpl; lia|].
  rewrite pow256_S. unfold in_u in Hb. change (2 ^ 8) with 256 in Hb. lia.
Qed.

Lemma le_bytes_Z bs : bytes_ok bs -> le_bytes (length bs) (le_Z bs) = bs.
Proof.
  induction 1 as [|b t Hb Ht IH]; cbn [le_Z length le_bytes]; [done|].
  unfold in_u in Hb. change (2 ^ 8) with 256 in Hb. f_equal.
  - rewrite Z.mul_comm, Z.mod_add by lia. by apply Z.mod_small.
  - rewrite (Z.mul_comm 256), Z.div_add, Z.div_small by lia. exact IH.
Qed.

Lemma be_Z_bytes n z : be_Z (be_bytes n z) = z mod 2 ^ (8 * Z.of_nat n).
Proof. unfold be_Z, be_bytes. by rewrite rev_involutive, le_Z_bytes. Qed.
Lemma be_Z_bound bs : bytes_ok bs -> 0 <= be_Z bs < 2 ^ (8 * Z.of_nat (length bs)).
Proof. intros. unfold be_Z. rewrite <- length_rev. by apply le_Z_bound, bytes_ok_rev. Qed.
Lemma be_bytes_Z bs : bytes_ok bs -> be_bytes (length bs) (be_Z bs) = bs.
Proof.
  intros. unfold be_Z, be_bytes. rewrite <- (length_rev bs), le_bytes_Z by (by apply bytes_ok_rev).
  apply rev_involutive.
Qed.

Lemma to_signed_mod w z : 0 < w -> in_s w z -> to_signed w (z mod 2 ^ w) = z.
Proof.
  unfold in_s, to_signed. intros Hw Hz.
  assert (2 ^ w = 2 * 2 ^ (w - 1)) as E.
  { rewrite <- Z.pow_succ_r by lia. f_equal; lia. }
  pose proof (Z.pow_pos_nonneg 2 (w - 1)).
  destruct (Z.le_gt_cases 0 z).
  - rewrite Z.mod_small by lia. destruct (Z.ltb_spec z (2 ^ (w - 1))); lia.
  - replace (z mod 2 ^ w) with (z + 2 ^ w).
    + destruct (Z.ltb_spec (z + 2 ^ w) (2 ^ (w - 1))); lia.
    + symmetry. rewrite <- (Z.mod_add z 1) by lia. rewrite Z.mul_1_l. apply Z.mod_small. lia.
Qed.

Lemma fmt_in_range_signed f z :
  fmt_in_range f z = true ->
  (if fmt_signed f then in_s (fmt_bits f) z else in_u (fmt_bits f) z).
Proof. unfold fmt_in_range. destruct (fmt_signed f); [apply in_sb_spec|apply in_ub_spec]. Qed.

(** Unpacking a packed integer gives it back, in either byte order. *)
Lemma unpack_pack_int en f z bs :
  (0 < fmt_size f)%nat -> pack_int en f z = Ok bs -> unpack_int en f bs = Ok z.
Proof.
  unfold pack_int, unpack_int. intros Hs.
  destruct (fmt_in_range f z) eqn:R; [|done]. intros [= <-].
  apply fmt_in_range_signed in R.
  assert (length (match en with
    | BigEndian => be_bytes (fmt_size f) (z mod 2 ^ fmt_bits f)
    | LittleEndian => le_bytes (fmt_size f) (z mod 2 ^ fmt_bits f) end) = fmt_size f) as ->
    by (destruct en; [apply be_bytes_length|apply le_bytes_length]).
  rewrite Nat.eqb_refl. f_equal.
  assert (match en with
    | BigEndian => be_Z (match en with
        | BigEndian => be_bytes (fmt_size f) (z mod 2 ^ fmt_bits f)
        | LittleEndian => le_bytes (fmt_size f) (z mod 2 ^ fmt_bits f) end)
    | LittleEndian => le_Z (match en with
        | BigEndian => be_bytes (fmt_size f) (z mod 2 ^ fmt_bits f)
        | LittleEndian => le_bytes (fmt_size f) (z mod 2 ^ fmt_bits f) end) end
    = z mod 2 ^ fmt_bits f) as ->.
  { destruct en; [rewrite be_Z_bytes|rewrite le_Z_bytes];
      fold (fmt_bits f); apply Z.mod_mod; apply Z.pow_nonzero; unfold fmt_bits; lia. }
  destruct (fmt_signed f).
  - apply to_signed_mod; [unfold fmt_bits; lia|done].
  - apply Z.mod_small. exact R.
Qed.

Lemma pack_int_length en f z bs : pack_int en f z = Ok bs -> length bs = fmt_size f.
Proof.
  unfold pack_int. destruct (fmt_in_range f z); [|done]. intros [= <-].
  destruct en; [apply be_bytes_length|apply le_bytes_length].
Qed.

Lemma pack_int_bytes en f z bs : pack_int en f z = Ok bs -> bytes_ok bs.
Proof.
  unfold pack_int. destruct (fmt_in_range f z); [|done]. intros [= <-].
  destruct en; [apply be_bytes_ok|apply le_bytes_ok].
Qed.

Lemma pack_int_ok en f z : is_ok (pack_int en f z) = fmt_in_range f z.
Proof. unfold pack_int. by destruct (fmt_in_range f z). Qed.

Lemma pack_be_length fields bs :
  pack_be fields = Ok bs -> length bs = fmts_size (map fst fields).
Proof.
  revert bs; induction fields as [|[f z] t IH]; intros bs H; simpl in H; inv_ok; [done|].
  rewrite length_app. erewrite pack_int_length, IH by eauto. done.
Qed.

Lemma pack_be_bytes fields bs : pack_be fields = Ok bs -> bytes_ok bs.
Proof.
  revert bs; induction fields as [|[f z] t IH]; intros bs H; simpl in H; inv_ok; [constructor|].
  apply Forall_app; split; [by eapply pack_int_bytes|by eapply IH].
Qed.

(** A packed big-endian record unpacks to its fields. *)
Lemma unpack_pack_be fields bs :
  Forall (fun fz => (0 < fmt_size (fst fz))%nat) fields ->
  pack_be fields = Ok bs -> unpack_be (map fst fields) bs = Ok (map snd fields).
Proof.
  intros Hf H. unfold unpack_be. rewrite (pack_be_length _ _ H), Nat.eqb_refl.
  revert bs H; induction Hf as [|[f z] t Hs Ht IH]; intros bs H; simpl in H; inv_ok; [done|].
  match goal with H : pack_int _ _ _ = Ok ?b |- _ =>
    pose proof (pack_int_length _ _ _ _ H) as L; pose proof (unpack_pack_int _ f _ _ Hs H) as U end.
  cbn [map fst snd unpack_fields].
  rewrite take_app_length', drop_app_length' by done. rewrite U. simpl.
  erewrite IH by eauto. done.
Qed.

Lemma pack_be_app fs gs x y :
  pack_be fs = Ok x -> pack_be gs = Ok y -> pack_be (fs ++ gs) = Ok (x ++ y).
Proof.
  revert x; induction fs as [|[f z] t IH]; intros x Hf Hg; cbn [pack_be app] in *; inv_ok; [done|].
  match goal with H : pack_int _ _ _ = Ok _ |- _ => rewrite H end. simpl.
  erewrite IH by eauto. simpl. by rewrite app_assoc.
Qed.

Lemma pack_be_ok fields :
  Forall (fun fz => fmt_in_range (fst fz) (snd fz) = true) fields ->
  exists bs, pack_be fields = Ok bs.
Proof.
  induction 1 as [|[f z] t H _ [bs IH]]; simpl; [by eexists|].
  simpl in H. unfold pack_int. rewrite H. simpl. rewrite IH. by eexists.
Qed.

(** [ljust]-style bit packing shared by the coil codecs: bit [i mod 8] of byte
    [i / 8], least significant bit first. *)
Definition bit_at (bs : list Z) (i : nat) : bool :=
  Z.testbit (nth (i / 8) bs 0) (Z.of_nat (i mod 8)).
