(* ===== verification/PyFloat.v ===== *)
(** * Python [float]: IEEE-754 binary64, executable

    A Python float is the Standard Library's [spec_float] at precision 53 and
    exponent bound 1024; every operation is the correctly rounded one, so the
    definitions below compute bit for bit what CPython computes (NaN payloads
    excepted: [spec_float] has one NaN).  The file also has [struct]'s [f] and
    [d] formats. *)

From Stdlib Require Import Floats.SpecFloat.
From S2P Require Import Prelude PyBytes.

Abbreviation pfloat := spec_float.
#[export] Instance spec_float_eq_dec : EqDecision spec_float.
Proof. solve_decision. Defined.

Definition prec64 : Z := 53.
Definition emax64 : Z := 1024.
Definition fadd (x y : pfloat) : pfloat := SFadd prec64 emax64 x y.
Definition fsub (x y : pfloat) : pfloat := SFsub prec64 emax64 x y.
Definition fmul (x y : pfloat) : pfloat := SFmul prec64 emax64 x y.
Definition fabs (x : pfloat) : pfloat := SFabs x.
Definition feqb (x y : pfloat) : bool := SFeqb x y.
Definition fltb (x y : pfloat) : bool := SFltb x y.
Definition fleb (x y : pfloat) : bool := SFleb x y.
Definition fzero : pfloat := S754_zero false.

(** [x / y]: Python raises on a zero divisor instead of returning an infinity. *)
Definition fdiv (x y : pfloat) : res pfloat :=
  match y with
  | S754_zero _ => Raise ZeroDivisionError
  | _ => Ok (SFdiv prec64 emax64 x y)
  end.

(** [float(z)] for an int: correctly rounded, [OverflowError] when too large. *)
Definition float_of_Z_raw (z : Z) : pfloat := binary_normalize prec64 emax64 z 0 false.
Definition float_of_Z (z : Z) : res pfloat :=
  match float_of_Z_raw z with
  | S754_infinity _ => Raise OverflowError
  | f => Ok f
  end.

(** [n / d] on ints, [d] positive: the correctly rounded quotient. *)
Definition int_truediv (n : Z) (d : positive) : pfloat :=
  match n with
  | Z0 => S754_zero false
  | Zpos m => SFdiv prec64 emax64 (S754_finite false m 0) (S754_finite false d 0)
  | Zneg m => SFdiv prec64 emax64 (S754_finite true m 0) (S754_finite false d 0)
  end.

(** [int(f)]: truncation. *)
Definition trunc (f : pfloat) : res Z :=
  match f with
  | S754_zero _ => Ok 0
  | S754_infinity _ => Raise OverflowError
  | S754_nan => Raise ValueError
  | S754_finite s m e =>
      let a := if 0 <=? e then Zpos m * 2 ^ e else Zpos m / 2 ^ (- e) in
      Ok (if s then - a else a)
  end.

(** [round(f)] with one argument: nearest integer, ties to even. *)
Definition round_int (f : pfloat) : res Z :=
  match f with
  | S754_zero _ => Ok 0
  | S754_infinity _ => Raise OverflowError
  | S754_nan => Raise ValueError
  | S754_finite s m e =>
      let a := if 0 <=? e then Zpos m * 2 ^ e else
        let q := Zpos m / 2 ^ (- e) in
        let r := Zpos m mod 2 ^ (- e) in
        match (2 * r) ?= 2 ^ (- e) with
        | Lt => q | Gt => q + 1 | Eq => if Z.even q then q else q + 1
        end in
      Ok (if s then - a else a)
  end.

(** [z == f] for an int and a float: Python compares the exact values. *)
Definition int_float_eqb (z : Z) (f : pfloat) : bool :=
  match f with
  | S754_zero _ => z =? 0
  | S754_infinity _ | S754_nan => false
  | S754_finite s m e =>
      let v := if s then Zneg m else Zpos m in
      if 0 <=? e then z =? v * 2 ^ e else z * 2 ^ (- e) =? v
  end.

(** ** Interchange formats: [struct] codes [f] (23,8) and [d] (52,11) *)

Section Interchange.
Context (mw ew : Z).
Definition ix_prec : Z := mw + 1.
Definition ix_emax : Z := 2 ^ (ew - 1).
Definition ix_emin : Z := emin ix_prec ix_emax.

Definition sign_bit (s : bool) : Z := if s then 2 ^ (mw + ew) else 0.

Definition float_to_bits (f : pfloat) : Z :=
  match f with
  | S754_zero s => sign_bit s
  | S754_infinity s => sign_bit s + (2 ^ ew - 1) * 2 ^ mw
  | S754_nan => (2 ^ ew - 1) * 2 ^ mw + 2 ^ (mw - 1)
  | S754_finite s m e => sign_bit s + (e - ix_emin) * 2 ^ mw + Zpos m
  end.

Definition float_of_bits (b : Z) : pfloat :=
  let s := 2 ^ (mw + ew) <=? b in
  let ex := (b / 2 ^ mw) mod 2 ^ ew in
  let frac := b mod 2 ^ mw in
  if ex =? 2 ^ ew - 1 then (if frac =? 0 then S754_infinity s else S754_nan)
  else if ex =? 0 then
    match frac with Zpos m => S754_finite s m ix_emin | _ => S754_zero s end
  else
    match frac + 2 ^ mw with Zpos m => S754_finite s m (ex - 1 + ix_emin) | _ => S754_nan end.
End Interchange.

(** [struct.pack(">d", f)] / [struct.unpack(">d", b)] *)
Definition pack_d (en : endian) (f : pfloat) : list Z :=
  match en with
  | BigEndian => be_bytes 8 (float_to_bits 52 11 f)
  | LittleEndian => le_bytes 8 (float_to_bits 52 11 f)
  end.
Definition unpack_d (en : endian) (bs : list Z) : res pfloat :=
  if Nat.eqb (length bs) 8 then
    Ok (float_of_bits 52 11 (match en with BigEndian => be_Z bs | LittleEndian => le_Z bs end))
  else Raise StructError.

(** Narrowing to binary32; a finite value that overflows raises OverflowError
    (not [struct.error]), as CPython's [PyFloat_Pack4] does. *)
Definition narrow32 (f : pfloat) : res pfloat :=
  match f with
  | S754_finite s m e =>
      match binary_round 24 128 s m e with
      | S754_infinity _ => Raise OverflowError
      | g => Ok g
      end
  | _ => Ok f
  end.
Definition widen32 (f : pfloat) : pfloat :=
  match f with S754_finite s m e => binary_round prec64 emax64 s m e | _ => f end.

Definition pack_f (en : endian) (f : pfloat) : res (list Z) :=
  let* g := narrow32 f in
  Ok (match en with
      | BigEndian => be_bytes 4 (float_to_bits 23 8 g)
      | LittleEndian => le_bytes 4 (float_to_bits 23 8 g)
      end).
Definition unpack_f (en : endian) (bs : list Z) : res pfloat :=
  if Nat.eqb (length bs) 4 then
    Ok (widen32 (float_of_bits 23 8 (match en with BigEndian => be_Z bs | LittleEndian => le_Z bs end)))
  else Raise StructError.

(** ** Round trip of the interchange format *)

Lemma digits2_pos_bounds m :
  2 ^ (Zpos (digits2_pos m) - 1) <= Zpos m < 2 ^ Zpos (digits2_pos m).
Proof.
  assert (forall k, 2 ^ (Zpos (Pos.succ k) - 1) = 2 ^ Zpos k) as E1 by (intros; f_equal; lia).
  assert (forall k, 2 ^ Zpos (Pos.succ k) = 2 * 2 ^ Zpos k) as E2.
  { intros. rewrite Pos2Z.inj_succ, Z.pow_succ_r by lia. done. }
  assert (forall k, 2 ^ Zpos k = 2 * 2 ^ (Zpos k - 1)) as E3.
  { intros. rewrite <- Z.pow_succ_r by lia. f_equal; lia. }
  induction m as [p IH|p IH|]; cbn [digits2_pos]; [| |done];
    rewrite E1, E2; specialize (E3 (digits2_pos p)); lia.
Qed.

Section InterchangeProofs.
Context (mw ew : Z) (Hmw : 1 <= mw) (Hew : 2 <= ew).

Lemma bounded_split m e :
  bounded (ix_prec mw) (ix_emax ew) m e = true ->
  ix_emin mw ew <= e /\ e - ix_emin mw ew <= 2 ^ ew - 3 /\
  ((Zpos m < 2 ^ mw /\ e = ix_emin mw ew) \/ 2 ^ mw <= Zpos m < 2 * 2 ^ mw).
Proof.
  unfold bounded, canonical_mantissa, fexp. intros H. bool_simpl.
  pose proof (digits2_pos_bounds m) as D. fold (ix_emin mw ew) in *.
  set (d := Zpos (digits2_pos m)) in *.
  assert (ix_emin mw ew = 3 - ix_emax ew - ix_prec mw) as Ee by done.
  assert (2 ^ ew = 2 * ix_emax ew) as E2.
  { unfold ix_emax. rewrite <- Z.pow_succ_r by lia. f_equal; lia. }
  assert (2 * 2 ^ mw = 2 ^ (mw + 1)) as E3 by (rewrite Z.pow_add_r by lia; lia).
  assert (0 < d) by (subst d; lia).
  unfold ix_prec in *.
  split; [lia|]. split; [lia|].
  destruct (Z.eq_dec d (mw + 1)) as [Ed|Nd].
  - right. rewrite E3, <- Ed. replace mw with (d - 1) at 1 by lia. lia.
  - left. split; [|lia]. eapply Z.lt_le_trans; [apply D|]. apply Z.pow_le_mono_r; lia.
Qed.

Lemma bits_parts s x y :
  0 <= x < 2 ^ ew -> 0 <= y < 2 ^ mw ->
  let b := sign_bit mw ew s + x * 2 ^ mw + y in
  0 <= b < 2 * 2 ^ (mw + ew) /\
  (2 ^ (mw + ew) <=? b) = s /\ (b / 2 ^ mw) mod 2 ^ ew = x /\ b mod 2 ^ mw = y.
Proof.
  intros Hx Hy b. assert (0 < 2 ^ mw) by (apply Z.pow_pos_nonneg; lia).
  assert (0 < 2 ^ ew) by (apply Z.pow_pos_nonneg; lia).
  assert (2 ^ (mw + ew) = 2 ^ ew * 2 ^ mw) as E by (rewrite Z.pow_add_r by lia; lia).
  assert (0 <= x * 2 ^ mw + y < 2 ^ ew * 2 ^ mw) by nia.
  assert (b = ((if s then 2 ^ ew else 0) + x) * 2 ^ mw + y) as Eb.
  { subst b. unfold sign_bit. rewrite E. destruct s; ring. }
  split; [subst b; unfold sign_bit; rewrite E; destruct s; lia|]. split.
  { subst b. unfold sign_bit. rewrite E. destruct s; lia. }
  split.
  - rewrite Eb, Z.div_add_l, (Z.div_small y), Z.add_0_r by lia.
    destruct s; [|by rewrite Z.add_0_l, Z.mod_small].
    rewrite Z.add_comm, <- (Z.mul_1_l (2 ^ ew)) at 1. rewrite Z.mod_add by lia. by apply Z.mod_small.
  - rewrite Eb, Z.add_comm, Z.mod_add by lia. by apply Z.mod_small.
Qed.

Lemma float_to_bits_range f :
  valid_binary (ix_prec mw) (ix_emax ew) f = true ->
  0 <= float_to_bits mw ew f < 2 * 2 ^ (mw + ew).
Proof.
  assert (0 < 2 ^ mw) by (apply Z.pow_pos_nonneg; lia).
  assert (4 <= 2 ^ ew) by (change 4 with (2 ^ 2); apply Z.pow_le_mono_r; lia).
  assert (2 ^ mw = 2 * 2 ^ (mw - 1)) by (rewrite <- Z.pow_succ_r by lia; f_equal; lia).
  destruct f as [s|s| |s m e]; cbn [float_to_bits valid_binary]; intros V.
  - destruct (bits_parts s 0 0) as [P _]; lia.
  - destruct (bits_parts s (2 ^ ew - 1) 0) as [P _]; lia.
  - destruct (bits_parts false (2 ^ ew - 1) (2 ^ (mw - 1))) as [P _]; unfold sign_bit in *; lia.
  - apply bounded_split in V as (V1 & V2 & [[V3 ->]|V3]).
    + destruct (bits_parts s 0 (Zpos m)) as [P _]; lia.
    + destruct (bits_parts s (e - ix_emin mw ew + 1) (Zpos m - 2 ^ mw)) as [P _]; lia.
Qed.

Lemma float_bits_roundtrip f :
  valid_binary (ix_prec mw) (ix_emax ew) f = true ->
  float_of_bits mw ew (float_to_bits mw ew f) = f.
Proof.
  assert (0 < 2 ^ mw) by (apply Z.pow_pos_nonneg; lia).
  assert (4 <= 2 ^ ew) by (change 4 with (2 ^ 2); apply Z.pow_le_mono_r; lia).
  assert (2 ^ mw = 2 * 2 ^ (mw - 1)) by (rewrite <- Z.pow_succ_r by lia; f_equal; lia).
  intros V. unfold float_of_bits.
  destruct f as [s|s| |s m e]; cbn [float_to_bits valid_binary] in *.
  - destruct (bits_parts s 0 0) as (_ & P1 & P2 & P3); [lia..|].
    rewrite Z.mul_0_l, !Z.add_0_r in *. rewrite P1, P2, P3.
    replace (0 =? 2 ^ ew - 1) with false by lia. done.
  - destruct (bits_parts s (2 ^ ew - 1) 0) as (_ & P1 & P2 & P3); [lia..|].
    rewrite !Z.add_0_r in *. rewrite P1, P2, P3, Z.eqb_refl. done.
  - destruct (bits_parts false (2 ^ ew - 1) (2 ^ (mw - 1))) as (_ & P1 & P2 & P3); [lia..|].
    unfold sign_bit in *. rewrite Z.add_0_l in *. rewrite P1, P2, P3, Z.eqb_refl.
    replace (2 ^ (mw - 1) =? 0) with false by lia. done.
  - apply bounded_split in V as (V1 & V2 & [[V3 ->]|V3]).
    + rewrite Z.sub_diag in *. destruct (bits_parts s 0 (Zpos m)) as (_ & P1 & P2 & P3); [lia..|].
      rewrite P1, P2, P3. replace (0 =? 2 ^ ew - 1) with false by lia. done.
    + replace (sign_bit mw ew s + (e - ix_emin mw ew) * 2 ^ mw + Zpos m)
        with (sign_bit mw ew s + (e - ix_emin mw ew + 1) * 2 ^ mw + (Zpos m - 2 ^ mw)) by ring.
      destruct (bits_parts s (e - ix_emin mw ew + 1) (Zpos m - 2 ^ mw)) as (_ & P1 & P2 & P3); [lia..|].
      rewrite P1, P2, P3.
      replace (_ =? 2 ^ ew - 1) with false by lia. replace (_ =? 0) with false by lia.
      replace (Zpos m - 2 ^ mw + 2 ^ mw) with (Zpos m) by lia. f_equal. lia.
Qed.
End InterchangeProofs.

(** A binary64 value survives [struct.pack]/[struct.unpack] with code [d]. *)
Lemma unpack_pack_d en f :
  valid_binary prec64 emax64 f = true -> unpack_d en (pack_d en f) = Ok f.
Proof.
  intros V. unfold unpack_d, pack_d.
  pose proof (float_to_bits_range 52 11 ltac:(lia) ltac:(lia) f V) as R.
  pose proof (float_bits_roundtrip 52 11 ltac:(lia) ltac:(lia) f V) as E.
  destruct en; rewrite ?be_bytes_length, ?le_bytes_length, ?be_Z_bytes, ?le_Z_bytes; simpl;
    rewrite Z.mod_small, E; try done; exact R.
Qed.

Lemma pack_d_length en f : length (pack_d en f) = 8%nat.
Proof. destruct en; [apply be_bytes_length|apply le_bytes_length]. Qed.

Example one_and_a_half_bits : pack_d BigEndian (S754_finite false 6755399441055744 (-52)) = [63; 248; 0; 0; 0; 0; 0; 0].
Proof. vm_compute. reflexivity. Qed.

Example pack_f_overflow : pack_f BigEndian (float_of_Z_raw (10 ^ 39)) = Raise OverflowError.
Proof. vm_compute. reflexivity. Qed.

(** [n / d] on two ints. *)
Definition int_div (n d : Z) : res pfloat :=
  match d with
  | Z0 => Raise ZeroDivisionError
  | Zpos p => Ok (int_truediv n p)
  | Zneg p => Ok (int_truediv (- n) p)
  end.

(** ** Python numbers *)

(** A Python [int | float]. *)
Inductive num := NInt (z : Z) | NFloat (f : pfloat).
#[export] Instance num_eq_dec : EqDecision num.
Proof. solve_decision. Defined.

(** [float(value)] / [int(value)] on an [int | float]. *)
Definition num_float (v : num) : res pfloat :=
  match v with NInt z => float_of_Z z | NFloat f => Ok f end.
Definition num_int (v : num) : res Z :=
  match v with NInt z => Ok z | NFloat f => trunc f end.

(** Exact comparison of an int with a float, as Python's rich comparisons do:
    [None] when the float is NaN. *)
Definition int_float_compare (z : Z) (f : pfloat) : option comparison :=
  match f with
  | S754_zero _ => Some (z ?= 0)
  | S754_infinity s => Some (if s then Gt else Lt)
  | S754_nan => None
  | S754_finite s m e =>
      let v := if s then Zneg m else Zpos m in
      Some (if 0 <=? e then z ?= v * 2 ^ e else z * 2 ^ (- e) ?= v)
  end.

(** [f >= n], [f <= n], [f > n] for a float on the left. *)
Definition float_ge_num (f : pfloat) (n : num) : bool :=
  match n with
  | NFloat g => fleb g f
  | NInt z => match int_float_compare z f with Some Gt | None => false | _ => true end
  end.
Definition float_le_num (f : pfloat) (n : num) : bool :=
  match n with
  | NFloat g => fleb f g
  | NInt z => match int_float_compare z f with Some Lt | None => false | _ => true end
  end.
Definition float_gt_num (f : pfloat) (n : num) : bool :=
  match n with
  | NFloat g => fltb g f
  | NInt z => match int_float_compare z f with Some Lt => true | _ => false end
  end.

Lemma int_float_eqb_compare z f : int_float_eqb z f = true <-> int_float_compare z f = Some Eq.
Proof.
  unfold int_float_eqb, int_float_compare. destruct f as [s|s| |s m e]; try done.
  - rewrite Z.eqb_eq, <- Z.compare_eq_iff. split; [by intros ->|by intros [= ->]].
  - by destruct s.
  - destruct (0 <=? e); rewrite Z.eqb_eq, <- Z.compare_eq_iff; (split; [by intros ->|by intros [= ->]]).
Qed.

Lemma nan_incomparable n :
  float_ge_num S754_nan n = false /\ float_le_num S754_nan n = false /\ float_gt_num S754_nan n = false.
Proof. destruct n as [z|f]; [done|]. unfold float_ge_num, float_le_num, float_gt_num, fleb, fltb, SFleb, SFltb. by destruct f. Qed.

(** ** Integers below 2^53 are exact floats *)

Lemma iter_xO_Z m k : Zpos (Pos.iter xO m k) = Zpos m * 2 ^ Zpos k.
Proof.
  induction k as [|k IH] using Pos.peano_ind; [simpl; change (2 ^ 1) with 2; lia|].
  rewrite Pos.iter_succ, Pos2Z.inj_succ, Z.pow_succ_r by lia. rewrite Pos2Z.inj_xO, IH. lia.
Qed.
Lemma iter_xO_digits m k : Zpos (digits2_pos (Pos.iter xO m k)) = Zpos (digits2_pos m) + Zpos k.
Proof.
  induction k as [|k IH] using Pos.peano_ind; [simpl; lia|].
  rewrite Pos.iter_succ. cbn [digits2_pos]. lia.
Qed.

(** Rounding a representable mantissa is exact. *)
Lemma binary_round_aux_exact s m e :
  fexp prec64 emax64 (Zpos (digits2_pos m) + e) = e -> e <= emax64 - prec64 ->
  binary_round_aux prec64 emax64 s (Zpos m) e loc_Exact = S754_finite s m e.
Proof.
  intros F L. unfold binary_round_aux, shr_fexp, Zdigits2. rewrite F, Z.sub_diag. simpl.
  rewrite F, Z.sub_diag. simpl. by rewrite (proj2 (Z.leb_le _ _) L).
Qed.

Lemma float_of_pos_exact s p :
  Zpos (digits2_pos p) <= prec64 ->
  exists m e, binary_round prec64 emax64 s p 0 = S754_finite s m e /\ e <= 0 /\ Zpos m = Zpos p * 2 ^ (- e).
Proof.
  intros D. unfold binary_round, shl_align. rewrite Z.add_0_r.
  assert (fexp prec64 emax64 (Zpos (digits2_pos p)) = Zpos (digits2_pos p) - prec64) as F
    by (unfold fexp, emin, prec64, emax64 in *; lia).
  rewrite F, Z.sub_0_r. destruct (Zpos (digits2_pos p) - prec64) as [|k|k] eqn:E; [|lia|].
  - exists p, 0. rewrite binary_round_aux_exact; [change (2 ^ (- 0)) with 1; repeat split; lia| |by vm_compute].
    rewrite Z.add_0_r. lia.
  - exists (Pos.iter xO p k), (Zneg k). rewrite binary_round_aux_exact; [| |unfold prec64, emax64; lia].
    + split; [done|]. split; [lia|]. apply iter_xO_Z.
    + rewrite iter_xO_digits. unfold fexp, emin, prec64, emax64 in *. lia.
Qed.

Lemma digits2_small p w : Zpos p < 2 ^ w -> 0 <= w -> Zpos (digits2_pos p) <= w.
Proof.
  intros H Hw. pose proof (digits2_pos_bounds p) as [B _].
  destruct (Z.le_gt_cases (Zpos (digits2_pos p)) w); [done|].
  assert (2 ^ w <= 2 ^ (Zpos (digits2_pos p) - 1)) by (apply Z.pow_le_mono_r; lia). lia.
Qed.

(** The magnitude of a rounded exact float is the integer. *)
Lemma round_exact s m e p :
  e <= 0 -> Zpos m = Zpos p * 2 ^ (- e) -> round_int (S754_finite s m e) = Ok (if s then Zneg p else Zpos p).
Proof.
  intros He Hm. unfold round_int. assert (0 < 2 ^ (- e)) as P by (apply Z.pow_pos_nonneg; lia).
  rewrite Hm, Z.div_mul, Z.mod_mul by lia. rewrite Z.mul_0_r.
  destruct (Z.leb_spec 0 e) as [L|L].
  - assert (e = 0) as -> by lia. change (2 ^ (- 0)) with 1. change (2 ^ 0) with 1. rewrite !Z.mul_1_r. by destruct s.
  - replace (0 ?= 2 ^ (- e)) with Lt by (symmetry; by apply Z.compare_lt_iff). by destruct s.
Qed.

Lemma float_of_Z_exact z :
  - 2 ^ 53 < z < 2 ^ 53 -> exists f, float_of_Z z = Ok f /\ round_int f = Ok z.
Proof.
  intros H. unfold float_of_Z, float_of_Z_raw, binary_normalize. destruct z as [|p|p].
  - by eexists.
  - destruct (float_of_pos_exact false p) as (m & e & -> & He & Hm); [apply digits2_small; unfold prec64; lia|].
    eexists. split; [done|]. by rewrite (round_exact false m e p).
  - destruct (float_of_pos_exact true p) as (m & e & -> & He & Hm); [apply digits2_small; unfold prec64; lia|].
    eexists. split; [done|]. by rewrite (round_exact true m e p).
Qed.
