(* ===== verification/PyFloatExact.v ===== *)
(** * Exact binary64 arithmetic

    Operations whose mathematical result is a binary64 number return it.  The
    value of a finite float is counted in units of 2^-1074, the smallest
    subnormal. *)

From Stdlib Require Import Floats.SpecFloat.
From S2P Require Import Prelude PyFloat.

Definition funits (f : pfloat) : option Z :=
  match f with
  | S754_zero _ => Some 0
  | S754_finite s m e => Some (cond_Zopp s (Zpos m) * 2 ^ (e + 1074))
  | _ => None
  end.
Abbreviation valid f := (valid_binary prec64 emax64 f = true).

Lemma bounded64 m e :
  bounded prec64 emax64 m e = true <-> fexp prec64 emax64 (Zpos (digits2_pos m) + e) = e /\ e <= 971.
Proof. unfold bounded, canonical_mantissa. rewrite andb_true_iff, Z.eqb_eq, Z.leb_le. done. Qed.
Lemma fexp64 d : fexp prec64 emax64 d = Z.max (d - 53) (- 1074).
Proof. reflexivity. Qed.

(** ** Shifting out zero bits loses nothing *)
Lemma iter_pos_iter {A} (f : A -> A) p x : SpecFloat.iter_pos f p x = Pos.iter f x p.
Proof.
  revert x. induction p as [p IH|p IH|]; intros x; cbn [SpecFloat.iter_pos Pos.iter]; [|by rewrite !IH|done].
  rewrite !IH. by rewrite <- !Pos.iter_swap.
Qed.
Lemma shr_zeros m p :
  SpecFloat.iter_pos shr_1 p (Build_shr_record (Zpos (Pos.iter xO m p)) false false) = Build_shr_record (Zpos m) false false.
Proof.
  rewrite iter_pos_iter. revert m. induction p as [|p IH] using Pos.peano_ind; intros m; [done|].
  rewrite Pos.iter_succ_r, Pos.iter_succ. simpl. apply IH.
Qed.
Lemma shift_pos m n : 0 <= n -> exists p, Zpos p = Zpos m * 2 ^ n /\ Zpos (digits2_pos p) = Zpos (digits2_pos m) + n /\
  forall e s, bounded prec64 emax64 m (e + n) = true -> binary_round_aux prec64 emax64 s (Zpos p) e loc_Exact = S754_finite s m (e + n).
Proof.
  intros N. assert (n = 0 \/ exists q, n = Zpos q) as [->|[q ->]] by (destruct n; [by left|right; eauto|lia]).
  - exists m. split; [change (2 ^ 0) with 1; lia|split; [lia|]]. intros e s [F L]%bounded64.
    rewrite Z.add_0_r in *. by apply binary_round_aux_exact.
  - exists (Pos.iter xO m q). split; [apply iter_xO_Z|split; [apply iter_xO_digits|]]. intros e s [F L]%bounded64.
    unfold binary_round_aux, shr_fexp, Zdigits2. rewrite iter_xO_digits.
    replace (Zpos (digits2_pos m) + Zpos q + e) with (Zpos (digits2_pos m) + (e + Zpos q)) by lia.
    rewrite F. replace (e + Zpos q - e) with (Zpos q) by lia. cbn [shr shr_record_of_loc]. rewrite shr_zeros.
    cbn [loc_of_shr_record round_nearest_even shr_m]. rewrite F, Z.sub_diag. cbn [shr shr_record_of_loc shr_m].
    change (emax64 - prec64) with 971. by rewrite (proj2 (Z.leb_le _ _) L).
Qed.
Lemma round_aux_zeros m n e s M :
  0 <= n -> bounded prec64 emax64 m (e + n) = true -> Zpos M = Zpos m * 2 ^ n ->
  binary_round_aux prec64 emax64 s (Zpos M) e loc_Exact = S754_finite s m (e + n).
Proof. intros N B E. destruct (shift_pos m n N) as (p & P & _ & R). replace M with p by lia. auto. Qed.

(** ** Every integer below 2^53, times a power of two in range, is a float *)
Lemma canonical_form p k :
  Zpos p < 2 ^ 53 -> - 1074 <= k <= 971 ->
  exists e m, bounded prec64 emax64 m e = true /\ - 1074 <= e <= k /\ Zpos m = Zpos p * 2 ^ (k - e) /\
    Zpos (digits2_pos m) = Zpos (digits2_pos p) + (k - e).
Proof.
  intros P K. assert (Zpos (digits2_pos p) <= 53) as D by (by apply digits2_small).
  set (e := Z.max (Zpos (digits2_pos p) + k - 53) (- 1074)). destruct (shift_pos p (k - e)) as (m & M & Dm & _); [lia|].
  exists e, m. split; [|split; [lia|done]]. apply bounded64. rewrite fexp64, Dm. lia.
Qed.
Lemma digits2_shift p p0 n : 0 <= n -> Zpos p = Zpos p0 * 2 ^ n -> Zpos (digits2_pos p) = Zpos (digits2_pos p0) + n.
Proof. intros N E. destruct (shift_pos p0 n N) as (q & Q & D & _). by replace p with q by lia. Qed.
Lemma binary_round_exact s p k p0 n :
  0 <= n -> Zpos p = Zpos p0 * 2 ^ n -> Zpos p0 < 2 ^ 53 -> - 1074 <= k -> k + n <= 971 ->
  exists e m, binary_round prec64 emax64 s p k = S754_finite s m e /\ bounded prec64 emax64 m e = true /\
    - 1074 <= e <= k + n /\ Zpos m = Zpos p0 * 2 ^ (k + n - e).
Proof.
  intros N Ep P K1 K2. destruct (canonical_form p0 (k + n) P) as (e & m & B & E & M & D); [lia|]. exists e, m. split; [|done].
  unfold binary_round, shl_align. pose proof (proj1 (bounded64 m e) B) as [F L]. pose proof (digits2_shift p p0 n N Ep) as Dp.
  replace (Zpos (digits2_pos p) + k) with (Zpos (digits2_pos m) + e) by lia. rewrite F.
  destruct (Z.le_gt_cases e k) as [Le|Gt].
  - assert (Zpos (fst (match e - k with Zneg d => (Pos.iter xO p d, e) | _ => (p, k) end)) = Zpos m /\
            snd (match e - k with Zneg d => (Pos.iter xO p d, e) | _ => (p, k) end) = e) as [A1 A2].
    { rewrite M. replace (k + n - e) with (n + (k - e)) by lia. rewrite Z.pow_add_r, Z.mul_assoc, <- Ep by lia.
      destruct (e - k) as [|q|q] eqn:Q; [|lia|]; simpl.
      - replace (k - e) with 0 by lia. change (2 ^ 0) with 1. lia.
      - rewrite iter_xO_Z. by replace (k - e) with (Zpos q) by lia. }
    destruct (match e - k with Zneg d => _ | _ => _ end) as [mz ez]. simpl in A1, A2. subst ez. injection A1 as ->.
    rewrite (round_aux_zeros m 0 e); [by rewrite Z.add_0_r|lia|by rewrite Z.add_0_r|change (2 ^ 0) with 1; lia].
  - replace (match e - k with Zneg d => _ | _ => _ end) with (p, k) by (destruct (e - k) eqn:Q; [done|done|lia]).
    rewrite (round_aux_zeros m (e - k) k); [f_equal; lia|lia|by replace (k + (e - k)) with e by lia|].
    rewrite Ep, M. replace n with ((k + n - e) + (e - k)) at 1 by lia. rewrite Z.pow_add_r by lia. ring.
Qed.
Lemma normalize_exact M k b M0 n :
  0 <= n -> M = M0 * 2 ^ n -> - 2 ^ 53 < M0 < 2 ^ 53 -> - 1074 <= k -> k + n <= 971 ->
  valid (binary_normalize prec64 emax64 M k b) /\ funits (binary_normalize prec64 emax64 M k b) = Some (M * 2 ^ (k + 1074)).
Proof.
  intros N E HM K1 K2. assert (0 < 2 ^ n) by (apply Z.pow_pos_nonneg; lia).
  destruct M as [|p|p]; simpl; [done| |]; [set (s := false)|set (s := true)];
    (destruct M0 as [|p0|p0]; [lia|first [nia|idtac]..]);
    destruct (binary_round_exact s p k p0 n) as (e & m & -> & B & Ee & Em); try lia; (split; [exact B|]); simpl; f_equal;
    rewrite Em; [rewrite E|change (Zneg p) with (- Zpos p); replace (Zpos p) with (Zpos p0 * 2 ^ n) by lia];
    replace (2 ^ (k + n - e)) with (2 ^ (k + n - e)) by done;
    assert (2 ^ (k + n - e) * 2 ^ (e + 1074) = 2 ^ n * 2 ^ (k + 1074)) as X by (rewrite <- !Z.pow_add_r by lia; f_equal; lia);
    [rewrite <- Z.mul_assoc, X|rewrite Z.mul_opp_l, <- Z.mul_assoc, X]; ring.
Qed.

(** ** Sums *)
Lemma pow_split a b : 0 <= a <= b -> 2 ^ b = 2 ^ (b - a) * 2 ^ a.
Proof. intros. rewrite <- Z.pow_add_r by lia. f_equal. lia. Qed.
Lemma shl_align_value m e e' : e' <= e -> Zpos (fst (shl_align m e e')) = Zpos m * 2 ^ (e - e').
Proof.
  intros L. unfold shl_align. destruct (e' - e) as [|q|q] eqn:Q; [|lia|]; simpl.
  - replace (e - e') with 0 by lia. change (2 ^ 0) with 1. lia.
  - rewrite iter_xO_Z. by replace (e - e') with (Zpos q) by lia.
Qed.
Lemma valid_range s m e : valid (S754_finite s m e) -> - 1074 <= e <= 971.
Proof. simpl. intros [F L]%bounded64. rewrite fexp64 in F. lia. Qed.
Lemma fadd_exact x y a b D j :
  valid x -> valid y -> funits x = Some a -> funits y = Some b ->
  a + b = D * 2 ^ j -> 0 <= j <= 2045 -> - 2 ^ 53 < D < 2 ^ 53 ->
  valid (fadd x y) /\ funits (fadd x y) = Some (a + b).
Proof.
  intros Vx Vy Ux Uy E J HD.
  destruct x as [sx| | |sx mx ex], y as [sy| | |sy my ey]; try done; simpl in Ux, Uy; injection Ux as <-; injection Uy as <-.
  - by destruct sx, sy.
  - split; [done|]. by rewrite Z.add_0_l.
  - split; [done|]. by rewrite Z.add_0_r.
  - apply valid_range in Vx, Vy. cbn [fadd SFadd]. set (ez := Z.min ex ey). unfold fadd, SFadd. fold ez.
    rewrite !shl_align_value by lia.
    set (M := cond_Zopp sx (Zpos mx * 2 ^ (ex - ez)) + cond_Zopp sy (Zpos my * 2 ^ (ey - ez))).
    assert (cond_Zopp sx (Zpos mx) * 2 ^ (ex + 1074) + cond_Zopp sy (Zpos my) * 2 ^ (ey + 1074) = M * 2 ^ (ez + 1074)) as EM.
    { subst M. replace (ex + 1074) with ((ex - ez) + (ez + 1074)) by lia. replace (ey + 1074) with ((ey - ez) + (ez + 1074)) by lia.
      rewrite (Z.pow_add_r 2 (ex - ez)), (Z.pow_add_r 2 (ey - ez)) by lia. destruct sx, sy; unfold cond_Zopp; ring. }
    rewrite EM. rewrite EM in E. destruct (Z.le_gt_cases (ez + 1074) j) as [L|L].
    + apply (normalize_exact M ez false D (j - (ez + 1074))); try lia.
      rewrite (pow_split (ez + 1074) j), Z.mul_assoc in E by lia.
      apply Z.mul_cancel_r in E; [done|]. apply Z.pow_nonzero; lia.
    + apply (normalize_exact M ez false M 0); try lia.
      rewrite (pow_split j (ez + 1074)), Z.mul_assoc in E by lia.
      apply Z.mul_cancel_r in E; [|apply Z.pow_nonzero; lia]. assert (0 < 2 ^ (ez + 1074 - j)) by (apply Z.pow_pos_nonneg; lia). nia.
Qed.
Definition fopp (x : pfloat) : pfloat := SFopp x.
Lemma fsub_exact x y a b D j :
  valid x -> valid y -> funits x = Some a -> funits y = Some b ->
  a - b = D * 2 ^ j -> 0 <= j <= 2045 -> - 2 ^ 53 < D < 2 ^ 53 ->
  valid (fsub x y) /\ funits (fsub x y) = Some (a - b).
Proof.
  intros Vx Vy Ux Uy E J HD. assert (funits (fopp y) = Some (- b)) as Uo.
  { destruct y as [sy| | |sy my ey]; try done; simpl in *; injection Uy as <-; [done|]. f_equal. destruct sy; unfold cond_Zopp; cbn [negb]; ring. }
  assert (fsub x y = fadd x (fopp y)) as ->.
  { destruct x as [sx| | |sx mx ex], y as [sy| | |sy my ey]; try done; by destruct sx, sy. }
  apply (fadd_exact x (fopp y) a (- b) D j); try done. by destruct y.
Qed.

(** ** Scaling by a power of two *)
Definition two32 : pfloat := float_of_Z_raw (2 ^ 32).
Lemma normal_digits s m e : valid (S754_finite s m e) -> - 1074 < e -> Zpos (digits2_pos m) = 53.
Proof. simpl. intros [F L]%bounded64 G. rewrite fexp64 in F. lia. Qed.
Lemma fmul_two32 s m e :
  valid (S754_finite s m e) -> - 1074 < e -> e <= 939 -> fmul (S754_finite s m e) two32 = S754_finite s m (e + 32).
Proof.
  intros V G L. pose proof (normal_digits _ _ _ V G) as D. change two32 with (S754_finite false 4503599627370496 (-20)).
  unfold fmul, SFmul. rewrite xorb_false_r. rewrite (round_aux_zeros m 52); [f_equal; lia|lia| |].
  - apply bounded64. rewrite fexp64, D. lia.
  - rewrite Pos2Z.inj_mul. reflexivity.
Qed.
(** [n / 2**32] for a 32-bit [n] is exact. *)
Lemma truediv_two32 n :
  0 <= n < 2 ^ 32 -> valid (int_truediv n (2 ^ 32)) /\ funits (int_truediv n (2 ^ 32)) = Some (n * 2 ^ 1042).
Proof.
  intros N. destruct n as [|p|p]; [done| |lia]. assert (1 <= Zpos (digits2_pos p) <= 32) as D by (split; [lia|apply digits2_small; lia]).
  destruct (canonical_form p (-32)) as (e & m & B & E & M & Dm); [lia..|].
  assert (e = Zpos (digits2_pos p) - 85) as Ee.
  { pose proof (proj1 (bounded64 m e) B) as [F _]. rewrite fexp64, Dm in F. lia. }
  assert (int_truediv (Zpos p) (2 ^ 32) = S754_finite false m e) as ->.
  { unfold int_truediv, SFdiv, SFdiv_core_binary. cbn [Zdigits2]. change (Zpos (digits2_pos (2 ^ 32))) with 33.
    rewrite !Z.add_0_r, fexp64. replace (Z.min _ _) with (e - 1) by lia. replace (0 - 0 - (e - 1)) with (1 - e) by lia.
    destruct (1 - e) as [|q|q] eqn:Q; [lia| |lia]. rewrite <- Q, Z.shiftl_mul_pow2 by lia.
    assert (Zpos p * 2 ^ (1 - e) = (Zpos m * 2) * Zpos (2 ^ 32)) as X.
    { change (Zpos (2 ^ 32)) with (2 ^ 32). rewrite M. replace (1 - e) with ((-32 - e) + 33) by lia. rewrite Z.pow_add_r by lia.
      change (2 ^ 33) with (2 * 2 ^ 32). ring. }
    rewrite X. pose proof (Z_div_mod_full (Zpos m * 2 * Zpos (2 ^ 32)) (Zpos (2 ^ 32))) as DM.
    rewrite (surjective_pairing (Z.div_eucl _ _)). change (Z.div_eucl ?a ?b).1 with (a / b). change (Z.div_eucl ?a ?b).2 with (a mod b).
    rewrite Z.div_mul, Z.mod_mul by lia. change (new_location _ 0) with loc_Exact.
    change (Zpos m * 2) with (Zpos (m * 2)). rewrite (round_aux_zeros m 1); [f_equal; lia|lia| |].
    - by replace (e - 1 + 1) with e by lia.
    - rewrite Pos2Z.inj_mul. reflexivity. }
  split; [exact B|]. cbn [funits cond_Zopp]. f_equal. rewrite M, <- Z.mul_assoc, <- Z.pow_add_r by lia. do 2 f_equal. lia.
Qed.

(** ** Integers and truncation *)
Lemma float_of_Z_units z : - 2 ^ 53 < z < 2 ^ 53 ->
  exists f, float_of_Z z = Ok f /\ float_of_Z_raw z = f /\ valid f /\ funits f = Some (z * 2 ^ 1074).
Proof.
  intros Hz. destruct (normalize_exact z 0 false z 0) as [V U]; try lia. exists (float_of_Z_raw z).
  unfold float_of_Z, float_of_Z_raw in *. split; [by destruct (binary_normalize _ _ _ _ _)|]. done.
Qed.
Lemma trunc_units f z : valid f -> funits f = Some z -> 0 <= z -> trunc f = Ok (z / 2 ^ 1074).
Proof.
  intros V U P. destruct f as [| | |s m e]; try done; simpl in U; injection U as <-; [done|]. apply valid_range in V.
  assert (0 < 2 ^ (e + 1074)) by (apply Z.pow_pos_nonneg; lia). destruct s; [simpl in P; nia|]. cbn [trunc cond_Zopp]. f_equal.
  destruct (Z.leb_spec 0 e).
  - rewrite Z.pow_add_r, Z.mul_assoc, Z.div_mul by lia. done.
  - rewrite (pow_split (e + 1074) 1074) by lia. replace (1074 - (e + 1074)) with (- e) by lia. rewrite Z.div_mul_cancel_r; [done|..]; lia.
Qed.
