(* ===== verification/ModbusCodec.v ===== *)
(** * Modbus MBAP and PDU codec (src/xedge/drivers/modbus/codec.py)

    Pure encode/decode functions over byte lists.  Every [struct] error, index
    error and guard of the source is a [Raise]. *)

From S2P Require Import Prelude PyBytes.

Definition MBAP_HEADER_LENGTH : Z := 7.
Definition PROTOCOL_IDENTIFIER_MODBUS : Z := 0x0000.
Definition EXCEPTION_RESPONSE_FLAG : Z := 0x80.

Inductive FunctionCode :=
  | READ_COILS | READ_DISCRETE_INPUTS | READ_HOLDING_REGISTERS | READ_INPUT_REGISTERS
  | WRITE_SINGLE_COIL | WRITE_SINGLE_REGISTER | WRITE_MULTIPLE_COILS | WRITE_MULTIPLE_REGISTERS.
#[export] Instance FunctionCode_eq_dec : EqDecision FunctionCode.
Proof. solve_decision. Defined.

Definition fc_value (fc : FunctionCode) : Z :=
  match fc with
  | READ_COILS => 0x01 | READ_DISCRETE_INPUTS => 0x02
  | READ_HOLDING_REGISTERS => 0x03 | READ_INPUT_REGISTERS => 0x04
  | WRITE_SINGLE_COIL => 0x05 | WRITE_SINGLE_REGISTER => 0x06
  | WRITE_MULTIPLE_COILS => 0x0F | WRITE_MULTIPLE_REGISTERS => 0x10
  end.

Inductive ExceptionCode :=
  | ILLEGAL_FUNCTION | ILLEGAL_DATA_ADDRESS | ILLEGAL_DATA_VALUE | SLAVE_DEVICE_FAILURE
  | ACKNOWLEDGE | SLAVE_DEVICE_BUSY | MEMORY_PARITY_ERROR | GATEWAY_PATH_UNAVAILABLE
  | GATEWAY_TARGET_DEVICE_FAILED_TO_RESPOND.

(** [ExceptionCode(n)]: [None] where the enum constructor raises ValueError. *)
Definition ExceptionCode_of (n : Z) : option ExceptionCode :=
  match n with
  | 0x01 => Some ILLEGAL_FUNCTION
  | 0x02 => Some ILLEGAL_DATA_ADDRESS
  | 0x03 => Some ILLEGAL_DATA_VALUE
  | 0x04 => Some SLAVE_DEVICE_FAILURE
  | 0x05 => Some ACKNOWLEDGE
  | 0x06 => Some SLAVE_DEVICE_BUSY
  | 0x08 => Some MEMORY_PARITY_ERROR
  | 0x0A => Some GATEWAY_PATH_UNAVAILABLE
  | 0x0B => Some GATEWAY_TARGET_DEVICE_FAILED_TO_RESPOND
  | _ => None
  end.

Definition is_bit_function (fc : FunctionCode) : bool :=
  bool_decide (fc = READ_COILS \/ fc = READ_DISCRETE_INPUTS).
Definition is_register_function (fc : FunctionCode) : bool :=
  bool_decide (fc = READ_HOLDING_REGISTERS \/ fc = READ_INPUT_REGISTERS).

Definition MAX_READ_BITS : Z := 2000.
Definition MAX_READ_REGISTERS : Z := 125.
Definition MAX_WRITE_COILS : Z := 1968.

Definition max_read_quantity (fc : FunctionCode) : Z :=
  if is_bit_function fc then MAX_READ_BITS else MAX_READ_REGISTERS.

Definition encode_mbap (transaction_id unit_id : Z) (pdu : list Z) : res (list Z) :=
  let length := zlen pdu + 1 in
  let* header := pack_be [(fmt_H, transaction_id); (fmt_H, PROTOCOL_IDENTIFIER_MODBUS);
                          (fmt_H, length); (fmt_B, unit_id)] in
  Ok (header ++ pdu).

Definition decode_mbap (frame : list Z) : res (Z * Z * list Z) :=
  raise_if zlen frame <? MBAP_HEADER_LENGTH with ModbusFramingError;
  let* fields := unpack_be [fmt_H; fmt_H; fmt_H; fmt_B] (slice frame 0 MBAP_HEADER_LENGTH) in
  match fields with
  | [transaction_id; protocol_id; length; unit_id] =>
      raise_if negb (protocol_id =? PROTOCOL_IDENTIFIER_MODBUS) with ModbusFramingError;
      let pdu := slice frame MBAP_HEADER_LENGTH (MBAP_HEADER_LENGTH + length - 1) in
      raise_if negb (zlen pdu =? length - 1) with ModbusFramingError;
      Ok (transaction_id, unit_id, pdu)
  | _ => Raise StructError
  end.

Definition frame_remainder_length (mbap_header : list Z) : res Z :=
  raise_if negb (zlen mbap_header =? MBAP_HEADER_LENGTH) with ModbusFramingError;
  let* length := unpack_int BigEndian fmt_H (slice mbap_header 4 6) in
  Ok (length - 1).

(** [not 0 <= address <= 0xFFFF] *)
Definition bad_address (address : Z) : bool := negb ((0 <=? address) && (address <=? 0xFFFF)).

Definition encode_read_request (fc : FunctionCode) (address quantity : Z) : res (list Z) :=
  raise_if bad_address address with ValueError;
  let limit := max_read_quantity fc in
  raise_if negb ((1 <=? quantity) && (quantity <=? limit)) with ValueError;
  raise_if 0xFFFF <? address + quantity - 1 with ValueError;
  pack_be [(fmt_B, fc_value fc); (fmt_H, address); (fmt_H, quantity)].

Definition check_exception (pdu : list Z) : res unit :=
  let* function_code := index pdu 0 in
  if Z.land function_code EXCEPTION_RESPONSE_FLAG =? 0 then Ok tt
  else
    let* exception_code := index pdu 1 in
    Raise (ModbusException (Z.land function_code (Z.lnot EXCEPTION_RESPONSE_FLAG)) exception_code).

(** [bool(data[i // 8] & (1 << (i % 8)))] *)
Definition data_bit (data : list Z) (i : nat) : res bool :=
  let* b := index data (Z.of_nat (i / 8)) in
  Ok (negb (Z.land b (Z.shiftl 1 (Z.of_nat (i mod 8))) =? 0)).

Definition decode_bits_response (pdu : list Z) (quantity : Z) : res (list bool) :=
  let* _ := check_exception pdu in
  let* byte_count := index pdu 1 in
  let data := slice pdu 2 (2 + byte_count) in
  mapM_res (data_bit data) (seq 0 (Z.to_nat quantity)).

Definition decode_registers_response (pdu : list Z) : res (list Z) :=
  let* _ := check_exception pdu in
  let* byte_count := index pdu 1 in
  let data := slice pdu 2 (2 + byte_count) in
  let count := byte_count / 2 in
  unpack_be (replicate (Z.to_nat count) fmt_H) data.

Definition encode_write_single_coil (address : Z) (value : bool) : res (list Z) :=
  raise_if bad_address address with ValueError;
  pack_be [(fmt_B, fc_value WRITE_SINGLE_COIL); (fmt_H, address);
           (fmt_H, if value then 0xFF00 else 0x0000)].

Definition encode_write_single_register (address value : Z) : res (list Z) :=
  raise_if bad_address address with ValueError;
  raise_if bad_address value with ValueError;
  pack_be [(fmt_B, fc_value WRITE_SINGLE_REGISTER); (fmt_H, address); (fmt_H, value)].

Definition encode_write_multiple_registers (address : Z) (values : list Z) : res (list Z) :=
  raise_if bad_address address with ValueError;
  raise_if negb ((1 <=? zlen values) && (zlen values <=? 123)) with ValueError;
  let byte_count := zlen values * 2 in
  pack_be ([(fmt_B, fc_value WRITE_MULTIPLE_REGISTERS); (fmt_H, address);
            (fmt_H, zlen values); (fmt_B, byte_count)] ++ map (fun v => (fmt_H, v)) values).

(** The [for i, bit in enumerate(values)] loop over the [bytearray]. *)
Fixpoint pack_coils (i : nat) (values : list bool) (packed : list Z) : list Z :=
  match values with
  | [] => packed
  | bit :: t =>
      pack_coils (S i) t
        (if bit : bool
         then alter (fun b => Z.lor b (Z.shiftl 1 (Z.of_nat (i mod 8)))) (i / 8)%nat packed
         else packed)
  end.

Definition encode_write_multiple_coils (address : Z) (values : list bool) : res (list Z) :=
  raise_if bad_address address with ValueError;
  raise_if negb ((1 <=? zlen values) && (zlen values <=? MAX_WRITE_COILS)) with ValueError;
  let byte_count := - ((- zlen values) / 8) in
  let packed := pack_coils 0 values (replicate (Z.to_nat byte_count) 0) in
  let* head := pack_be [(fmt_B, fc_value WRITE_MULTIPLE_COILS); (fmt_H, address);
                        (fmt_H, zlen values); (fmt_B, byte_count)] in
  Ok (head ++ packed).

Definition decode_echo (pdu : list Z) : res (Z * Z) :=
  let* _ := check_exception pdu in
  let* fields := unpack_be [fmt_H; fmt_H] (slice pdu 1 5) in
  match fields with [a; b] => Ok (a, b) | _ => Raise StructError end.
Definition decode_write_single_response (pdu : list Z) : res (Z * Z) := decode_echo pdu.
Definition decode_write_multiple_response (pdu : list Z) : res (Z * Z) := decode_echo pdu.

(** ** MBAP framing *)

Lemma slice_0 {A} (l : list A) n : slice l 0 n = take (Z.to_nat n) l.
Proof. unfold slice. by rewrite Z.sub_0_r, drop_0. Qed.

Lemma slice_header {A} (h t : list A) n : zlen h = n -> slice (h ++ t) 0 n = h.
Proof. intros <-. rewrite slice_0. unfold zlen. rewrite Nat2Z.id. apply take_app_length. Qed.

Lemma slice_rest {A} (h t : list A) n m :
  zlen h = n -> m = n + zlen t -> slice (h ++ t) n m = t.
Proof.
  intros <- ->. rewrite slice_app_r by (pose proof (zlen_nonneg t); lia).
  unfold zlen. rewrite Nat2Z.id. apply firstn_all.
Qed.

Lemma mbap_header_spec t u (pdu h : list Z) :
  pack_be [(fmt_H, t); (fmt_H, PROTOCOL_IDENTIFIER_MODBUS); (fmt_H, zlen pdu + 1); (fmt_B, u)] = Ok h ->
  zlen h = 7 /\ unpack_be [fmt_H; fmt_H; fmt_H; fmt_B] h = Ok [t; 0; zlen pdu + 1; u].
Proof.
  intros H. pose proof (pack_be_length _ _ H) as L. unfold zlen. split; [simpl in L; lia|].
  apply unpack_pack_be in H; [exact H|]. repeat constructor; simpl; lia.
Qed.

Lemma encode_decode_mbap t u pdu frame :
  encode_mbap t u pdu = Ok frame -> decode_mbap frame = Ok (t, u, pdu).
Proof.
  unfold encode_mbap. intros H. inv_ok.
  match goal with H : pack_be _ = Ok _ |- _ => apply mbap_header_spec in H as [L U] end.
  unfold decode_mbap, MBAP_HEADER_LENGTH.
  rewrite zlen_app, L, slice_header, U by done. pose proof (zlen_nonneg pdu).
  destruct (Z.ltb_spec (7 + zlen pdu) 7); [lia|]. simpl.
  rewrite slice_rest by lia. replace (zlen pdu =? zlen pdu + 1 - 1) with true by lia. done.
Qed.

Lemma fields4_inv fs bs (l : list Z) :
  unpack_be fs bs = Ok l -> length l = length fs.
Proof.
  unfold unpack_be. destruct (Nat.eqb _ _); [|done].
  revert bs l; induction fs; intros bs l H; simpl in H; inv_ok; simpl; eauto.
Qed.

Lemma pack_unpack_int f bs z :
  fmt_signed f = false -> bytes_ok bs ->
  unpack_int BigEndian f bs = Ok z -> pack_int BigEndian f z = Ok bs.
Proof.
  intros Hs Hb. unfold unpack_int, pack_int. destruct (Nat.eqb_spec (length bs) (fmt_size f)) as [L|]; [|done].
  rewrite Hs. intros [= <-].
  pose proof (be_Z_bound _ Hb) as B. rewrite L in B.
  assert (in_ub (fmt_bits f) (be_Z bs) = true) as R by (apply in_ub_spec; exact B).
  unfold fmt_in_range. rewrite Hs, R. do 2 f_equal. rewrite Z.mod_small by exact B.
  rewrite <- L. by apply be_bytes_Z.
Qed.

(** Re-packing what was unpacked gives the buffer back. *)
Lemma pack_unpack_be fs bs zs :
  Forall (fun f => fmt_signed f = false) fs -> bytes_ok bs ->
  unpack_be fs bs = Ok zs -> pack_be (zip fs zs) = Ok bs.
Proof.
  unfold unpack_be. intros Hs Hb.
  destruct (Nat.eqb_spec (length bs) (fmts_size fs)) as [L|]; [|done].
  revert bs zs Hb L; induction Hs as [|f t Hf Ht IH]; intros bs zs Hb L H; simpl in H, L; inv_ok.
  - destruct bs; [done|discriminate L].
  - simpl. rewrite <- (take_drop (fmt_size f) bs) in Hb. apply Forall_app in Hb as [Hb1 Hb2].
    match goal with H : unpack_int _ _ _ = Ok _ |- _ =>
      rewrite (pack_unpack_int _ _ _ Hf Hb1 H) end. simpl.
    match goal with H : unpack_fields _ _ = Ok _ |- _ =>
      rewrite (IH _ _ Hb2 ltac:(rewrite length_drop; lia) H) end. simpl. by rewrite take_drop.
Qed.

Lemma decode_mbap_frame frame t u pdu :
  bytes_ok frame -> decode_mbap frame = Ok (t, u, pdu) ->
  exists rest f, encode_mbap t u pdu = Ok f /\ frame = f ++ rest.
Proof.
  unfold decode_mbap, MBAP_HEADER_LENGTH. intros Hb H. inv_ok.
  match goal with H : unpack_be _ _ = Ok ?x |- _ =>
    pose proof (fields4_inv _ _ _ H) as L; rename H into U; rename x into fields end.
  destruct fields as [|t' [|p [|len [|u' [|]]]]]; try discriminate L.
  inv_ok. unfold PROTOCOL_IDENTIFIER_MODBUS in *. subst.
  rewrite slice_0 in U. set (hd := take (Z.to_nat 7) frame) in *.
  assert (frame = hd ++ drop 7 frame) as E by (symmetry; apply take_drop).
  set (pdu' := slice frame 7 (7 + len - 1)) in *.
  exists (drop (Z.to_nat (len - 1)) (drop 7 frame)), (hd ++ pdu').
  rewrite E in Hb. apply Forall_app in Hb as [Hh _].
  apply pack_unpack_be in U; [|repeat constructor|exact Hh]. split.
  - unfold encode_mbap. simpl zip in U. replace (zlen pdu' + 1) with len by lia.
    unfold PROTOCOL_IDENTIFIER_MODBUS. rewrite U. done.
  - rewrite E at 1. rewrite <- app_assoc. f_equal. unfold pdu', slice.
    replace (7 + len - 1 - 7) with (len - 1) by lia. by rewrite take_drop.
Qed.

Lemma mbap_frame_ok t u (pdu : list Z) :
  u16 t -> u8 u -> zlen pdu <= 65534 ->
  exists frame, encode_mbap t u pdu = Ok frame /\ decode_mbap frame = Ok (t, u, pdu) /\
    frame_remainder_length (take 7 frame) = Ok (zlen pdu).
Proof.
  intros Ht Hu Hl. pose proof (zlen_nonneg pdu).
  destruct (pack_be_ok [(fmt_H, t); (fmt_H, PROTOCOL_IDENTIFIER_MODBUS); (fmt_H, zlen pdu + 1); (fmt_B, u)])
    as [h Hh].
  { repeat constructor; apply in_ub_spec; simpl; unfold in_u, fmt_bits in *; simpl; lia. }
  assert (encode_mbap t u pdu = Ok (h ++ pdu)) as E by (unfold encode_mbap; by rewrite Hh).
  exists (h ++ pdu). split; [done|]. split; [by apply encode_decode_mbap|].
  pose proof (mbap_header_spec _ _ _ _ Hh) as [L U].
  assert (length h = 7%nat) as L' by (unfold zlen in L; lia).
  unfold frame_remainder_length. rewrite <- L', take_app_length, L. simpl.
  do 8 (destruct h as [|? h]; try discriminate L'). clear -U.
  unfold unpack_be in U. simpl in U. injection U as U. unfold slice, unpack_int. simpl. f_equal. lia.
Qed.

(** MBAP framing round trip.  For every transaction id and unit id in their
    16- and 8-bit ranges and every PDU the 16-bit length field can describe,
    [encode_mbap] succeeds, [decode_mbap] of the frame gives back exactly the
    three parts, and the 7-byte header alone tells a stream reader how many
    bytes of PDU follow. *)
Theorem mbap_roundtrip t u (pdu : list Z) :
  u16 t -> u8 u -> zlen pdu <= 65534 ->
  exists frame, encode_mbap t u pdu = Ok frame /\ decode_mbap frame = Ok (t, u, pdu) /\
    frame_remainder_length (take 7 frame) = Ok (zlen pdu).
Proof. apply mbap_frame_ok. Qed.

Lemma mbap_roundtrip_witness :
  exists frame, encode_mbap 7 17 [3; 0; 10; 0; 2] = Ok frame /\
    decode_mbap frame = Ok (7, 17, [3; 0; 10; 0; 2]) /\
    frame_remainder_length (take 7 frame) = Ok (zlen [3; 0; 10; 0; 2]).
Proof. apply mbap_roundtrip; unfold in_u, zlen; simpl; lia. Defined.

(** what [decode_mbap] accepts is exactly an encoded frame: the accepted
    bytes are [encode_mbap] of the returned transaction id, unit id and PDU,
    followed by at most trailing bytes that were not part of the frame. *)
Theorem decode_mbap_sound frame t u pdu :
  bytes_ok frame -> decode_mbap frame = Ok (t, u, pdu) ->
  exists rest f, encode_mbap t u pdu = Ok f /\ frame = f ++ rest.
Proof. apply decode_mbap_frame. Qed.

Lemma decode_mbap_sound_witness :
  exists rest f, encode_mbap 1 17 [3; 2; 0; 5] = Ok f /\
    [0; 1; 0; 0; 0; 5; 17; 3; 2; 0; 5; 99] = f ++ rest.
Proof.
  apply decode_mbap_sound; [repeat constructor; unfold in_u; simpl; lia|vm_compute; reflexivity].
Defined.

(** ** Read requests *)

Definition read_request_ok (fc : FunctionCode) (address quantity : Z) : Prop :=
  0 <= address /\ 1 <= quantity <= max_read_quantity fc /\ address + quantity <= 0x10000.

Lemma max_read_quantity_bound fc : 125 <= max_read_quantity fc <= 2000.
Proof. unfold max_read_quantity, MAX_READ_BITS, MAX_READ_REGISTERS. destruct (is_bit_function fc); lia. Qed.

Lemma bad_address_false a : bad_address a = false <-> u16 a.
Proof. unfold bad_address, in_u. rewrite negb_false_iff, andb_true_iff, Z.leb_le, Z.leb_le. lia. Qed.

Lemma fc_value_range fc : 1 <= fc_value fc <= 16.
Proof. destruct fc; simpl; lia. Qed.

(** Bytes of register or packed-bit data a device returns for a read. *)
Definition response_data_bytes (fc : FunctionCode) (quantity : Z) : Z :=
  if is_bit_function fc then - ((- quantity) / 8) else 2 * quantity.

Lemma encode_read_request_inv fc address quantity pdu :
  encode_read_request fc address quantity = Ok pdu ->
  read_request_ok fc address quantity /\
  pack_be [(fmt_B, fc_value fc); (fmt_H, address); (fmt_H, quantity)] = Ok pdu.
Proof.
  unfold encode_read_request, read_request_ok. intros H. inv_ok.
  match goal with H : bad_address _ = false |- _ => apply bad_address_false in H end.
  unfold in_u in *. split; [lia|done].
Qed.

Lemma encode_read_request_accepts fc address quantity :
  read_request_ok fc address quantity -> is_ok (encode_read_request fc address quantity) = true.
Proof.
  pose proof (max_read_quantity_bound fc) as B. pose proof (fc_value_range fc) as F.
  unfold read_request_ok. intros (Ha & Hq & Hs).
  unfold encode_read_request, guard_raise.
  replace (bad_address address) with false
    by (symmetry; apply bad_address_false; unfold in_u; lia).
  replace (negb ((1 <=? quantity) && (quantity <=? max_read_quantity fc))) with false by lia.
  replace (0xFFFF <? address + quantity - 1) with false by lia.
  edestruct pack_be_ok as [bs ->]; [|done].
  repeat constructor; apply in_ub_spec; simpl; unfold in_u, fmt_bits; simpl; lia.
Qed.

(** [encode_read_request] accepts exactly the requests that stay inside the
    16-bit address space and the per-function quantity ceiling; an accepted
    request is the 5-byte PDU of its three fields, and its normal response
    (function code, byte count, data) fits the 253-byte PDU ceiling with a
    byte count that fits its one-byte field. *)
Theorem encode_read_request_spec fc address quantity :
  (is_ok (encode_read_request fc address quantity) = true <-> read_request_ok fc address quantity) /\
  (forall pdu, encode_read_request fc address quantity = Ok pdu ->
     unpack_be [fmt_B; fmt_H; fmt_H] pdu = Ok [fc_value fc; address; quantity] /\
     zlen pdu = 5 /\ 0 < response_data_bytes fc quantity <= 250 /\
     2 + response_data_bytes fc quantity <= 253).
Proof.
  split; [split; [|apply encode_read_request_accepts]|].
  - destruct (encode_read_request fc address quantity) as [pdu|] eqn:E; [|done].
    intros _. by destruct (encode_read_request_inv _ _ _ _ E).
  - intros pdu H. destruct (encode_read_request_inv _ _ _ _ H) as [(Ha & Hq & Hs) P].
    split; [by apply unpack_pack_be in P; [|repeat constructor; simpl; lia]|].
    split; [unfold zlen; rewrite (pack_be_length _ _ P); done|].
    unfold response_data_bytes, max_read_quantity, MAX_READ_BITS, MAX_READ_REGISTERS in *.
    destruct (is_bit_function fc); [|lia].
    pose proof (Z.div_mod (- quantity) 8). pose proof (Z.mod_pos_bound (- quantity) 8). lia.
Qed.

(** ** Coil packing *)

Lemma pack_coils_length i vs p : length (pack_coils i vs p) = length p.
Proof. revert i p; induction vs as [|b t IH]; intros; simpl; [done|]. rewrite IH. destruct b; by rewrite ?length_alter. Qed.

Lemma nth_lookup_default (l : list Z) i : nth i l 0 = default 0 (l !! i).
Proof. revert i; induction l; intros [|i]; simpl; auto. Qed.

Lemma bit_at_alter p i j :
  (i / 8 < length p)%nat ->
  bit_at (alter (fun b => Z.lor b (Z.shiftl 1 (Z.of_nat (i mod 8)))) (i / 8)%nat p) j
  = bit_at p j || bool_decide (i = j).
Proof.
  intros Hi. unfold bit_at. rewrite !nth_lookup_default.
  pose proof (Nat.div_mod_eq i 8). pose proof (Nat.div_mod_eq j 8).
  destruct (decide (i / 8 = j / 8)%nat) as [E|E].
  - rewrite <- E. rewrite list_lookup_alter_eq.
    destruct (lookup_lt_is_Some_2 _ _ Hi) as [x Hx]. rewrite Hx.
    cbn [fmap option_fmap option_map default from_option id].
    rewrite Z.lor_spec, Z.shiftl_1_l, Z.pow2_bits_eqb by lia. f_equal.
    destruct (decide (i = j)) as [->|N]; [rewrite bool_decide_true by done; apply Z.eqb_refl|].
    rewrite bool_decide_false by done. apply Z.eqb_neq. lia.
  - rewrite list_lookup_alter_ne by done.
    rewrite bool_decide_false, orb_false_r by (intros ->; done). done.
Qed.

Lemma bit_at_pack_coils vs : forall i p j,
  ((i + length vs + 7) / 8 <= length p)%nat ->
  bit_at (pack_coils i vs p) j
  = bit_at p j || (if decide (i <= j)%nat then default false (vs !! (j - i)%nat) else false).
Proof.
  induction vs as [|b t IH]; intros i p j Hp; cbn [pack_coils].
  - destruct (decide _); simpl; by rewrite orb_false_r.
  - assert (i / 8 < length p)%nat as Hi.
    { eapply Nat.lt_le_trans; [|exact Hp]. simpl.
      replace (i + S (length t) + 7)%nat with (i + length t + 1 * 8)%nat by lia.
      rewrite Nat.div_add by lia.
      pose proof (Nat.Div0.div_le_mono i (i + length t) 8). lia. }
    rewrite IH.
    2:{ replace (S i + length t + 7)%nat with (i + length (b :: t) + 7)%nat by (simpl; lia).
        destruct b; rewrite ?length_alter; done. }
    assert (bit_at (if b then alter (fun x => Z.lor x (Z.shiftl 1 (Z.of_nat (i mod 8)))) (i / 8)%nat p else p) j
      = bit_at p j || (b && bool_decide (i = j))) as ->.
    { destruct b; [by rewrite bit_at_alter|by rewrite orb_false_r]. }
    rewrite <- orb_assoc. f_equal.
    destruct (decide (i = j)) as [<-|N].
    + rewrite bool_decide_true, (decide_False (P := (S i <= i)%nat)), decide_True, Nat.sub_diag by lia.
      destruct b; done.
    + rewrite bool_decide_false, andb_false_r by done. simpl.
      destruct (decide (i <= j)%nat); [|by rewrite decide_False by lia].
      rewrite decide_True by lia.
      replace (j - i)%nat with (S (j - S i)) by lia. done.
Qed.

Lemma bit_at_zeros n j : bit_at (replicate n 0) j = false.
Proof.
  unfold bit_at. rewrite nth_lookup_default.
  destruct (replicate n 0 !! (j / 8)%nat) eqn:E; [apply lookup_replicate in E as [-> _]|]; apply Z.bits_0.
Qed.

Lemma ceil8_nat n : Z.to_nat (- ((- Z.of_nat n) / 8)) = ((n + 7) / 8)%nat.
Proof.
  pose proof (Nat.div_mod_eq (n + 7) 8). pose proof (Nat.mod_upper_bound (n + 7) 8).
  pose proof (Z.div_mod (- Z.of_nat n) 8). pose proof (Z.mod_pos_bound (- Z.of_nat n) 8). lia.
Qed.

Lemma data_bit_spec data i :
  (i / 8 < length data)%nat -> data_bit data i = Ok (bit_at data i).
Proof.
  intros H. unfold data_bit, index, bit_at. destruct (Z.ltb_spec (Z.of_nat (i / 8)) 0); [lia|].
  rewrite Nat2Z.id. destruct (lookup_lt_is_Some_2 _ _ H) as [x Hx]. rewrite Hx. simpl.
  rewrite land_shiftl1 by lia. by rewrite nth_lookup_default, Hx.
Qed.

Lemma unpack_bits_pack_coils vs :
  mapM_res (data_bit (pack_coils 0 vs (replicate ((length vs + 7) / 8) 0))) (seq 0 (length vs)) = Ok vs.
Proof.
  apply mapM_res_seq; [done|]. intros i y Hy. pose proof (lookup_lt_Some _ _ _ Hy) as L.
  rewrite data_bit_spec.
  - rewrite bit_at_pack_coils, bit_at_zeros, decide_True, Nat.sub_0_r, Hy by (rewrite ?length_replicate; simpl; lia). done.
  - rewrite pack_coils_length, length_replicate.
    pose proof (Nat.div_mod_eq (length vs + 7) 8). pose proof (Nat.mod_upper_bound (length vs + 7) 8).
    pose proof (Nat.div_mod_eq i 8). lia.
Qed.

Lemma check_exception_normal fc (rest : list Z) :
  0 <= fc < 128 -> check_exception (fc :: rest) = Ok tt.
Proof.
  intros H. unfold check_exception, index, EXCEPTION_RESPONSE_FLAG. simpl.
  replace (Z.land fc 128 =? 0) with true; [done|]. symmetry. apply Z.eqb_eq, Z.bits_inj'.
  intros n Hn. rewrite Z.land_spec, Z.bits_0. change 128 with (2 ^ 7).
  destruct (decide (n = 7)) as [->|]; [|rewrite Z.pow2_bits_false, andb_false_r; [done|lia]].
  rewrite Z.testbit_eqb by lia. change (2 ^ 7) with 128.
  rewrite Z.div_small by lia. done.
Qed.

(** The response PDU of a read: function code, byte count, data. *)
Definition read_response (fc : FunctionCode) (data : list Z) : list Z :=
  fc_value fc :: zlen data :: data.

Lemma read_response_parts fc data :
  check_exception (read_response fc data) = Ok tt /\
  index (read_response fc data) 1 = Ok (zlen data) /\
  slice (read_response fc data) 2 (2 + zlen data) = data.
Proof.
  pose proof (fc_value_range fc). unfold read_response. split; [apply check_exception_normal; lia|].
  split; [done|]. unfold slice. replace (2 + zlen data - 2) with (zlen data) by lia.
  unfold zlen. rewrite Nat2Z.id. simpl. change (Z.to_nat 2) with 2%nat. simpl. apply firstn_all.
Qed.

(** the FC15 request and the FC01/FC02 response share one bit layout: an
    accepted [encode_write_multiple_coils] request carries the address, the
    count, the byte count [ceil(n/8)] and a data field which, returned in a
    coil read response, [decode_bits_response] decodes to exactly the written
    values, for every list of 1 to 1968 coils. *)
Theorem coils_roundtrip address values :
  u16 address -> 1 <= zlen values <= 1968 ->
  exists head packed, encode_write_multiple_coils address values = Ok (head ++ packed) /\
    unpack_be [fmt_B; fmt_H; fmt_H; fmt_B] head = Ok [15; address; zlen values; zlen packed] /\
    zlen packed = - ((- zlen values) / 8) /\
    decode_bits_response (read_response READ_COILS packed) (zlen values) = Ok values.
Proof.
  intros Ha Hv. set (packed := pack_coils 0 values (replicate ((length values + 7) / 8) 0)).
  assert (zlen packed = - ((- zlen values) / 8)) as L.
  { unfold packed, zlen. rewrite pack_coils_length, length_replicate, <- ceil8_nat.
    rewrite Z2Nat.id; [done|]. pose proof (Z.div_mod (- zlen values) 8).
    pose proof (Z.mod_pos_bound (- zlen values) 8). unfold zlen in *. lia. }
  assert (0 < - ((- zlen values) / 8) <= 246) as Lb.
  { pose proof (Z.div_mod (- zlen values) 8). pose proof (Z.mod_pos_bound (- zlen values) 8). lia. }
  destruct (pack_be_ok [(fmt_B, fc_value WRITE_MULTIPLE_COILS); (fmt_H, address);
    (fmt_H, zlen values); (fmt_B, - ((- zlen values) / 8))]) as [head Hh].
  { unfold in_u in Ha. repeat constructor; apply in_ub_spec; simpl; unfold in_u, fmt_bits; simpl; lia. }
  exists head, packed. split.
  { unfold encode_write_multiple_coils, guard_raise, MAX_WRITE_COILS.
    rewrite (proj2 (bad_address_false address) Ha).
    replace (negb _) with false by lia. rewrite Hh. simpl. unfold packed.
    unfold zlen. rewrite ceil8_nat. done. }
  split; [rewrite L; by apply unpack_pack_be in Hh; [|repeat constructor; simpl; lia]|].
  split; [done|]. unfold decode_bits_response.
  destruct (read_response_parts READ_COILS packed) as (-> & -> & E). simpl. rewrite E.
  unfold zlen. rewrite Nat2Z.id. apply unpack_bits_pack_coils.
Qed.

Lemma coils_roundtrip_witness :
  exists head packed,
    encode_write_multiple_coils 19 [true; false; true; true; false; false; true; true; true; false] =
      Ok (head ++ packed) /\
    unpack_be [fmt_B; fmt_H; fmt_H; fmt_B] head = Ok [15; 19; 10; zlen packed] /\
    zlen packed = - ((- zlen [true; false; true; true; false; false; true; true; true; false]) / 8) /\
    decode_bits_response (read_response READ_COILS packed) 10 =
      Ok [true; false; true; true; false; false; true; true; true; false].
Proof.
  apply (coils_roundtrip 19 [true; false; true; true; false; false; true; true; true; false]);
    unfold in_u, zlen; simpl; lia.
Defined.

Lemma unpack_pack_words regs bs :
  pack_be (map (fun v => (fmt_H, v)) regs) = Ok bs ->
  zlen bs = 2 * zlen regs /\ unpack_be (replicate (length regs) fmt_H) bs = Ok regs.
Proof.
  intros H. assert (map fst (map (fun v => (fmt_H, v)) regs) = replicate (length regs) fmt_H) as F.
  { clear H. induction regs; simpl; [done|]. by rewrite IHregs. }
  split.
  - unfold zlen. rewrite (pack_be_length _ _ H), F. clear. induction (length regs); [done|]. simpl. lia.
  - apply unpack_pack_be in H.
    + rewrite F, map_map in H. simpl in H. by rewrite map_id in H.
    + clear. induction regs; constructor; simpl; auto; lia.
Qed.

Lemma pack_words_ok regs :
  Forall u16 regs -> exists bs, pack_be (map (fun v => (fmt_H, v)) regs) = Ok bs.
Proof.
  intros H. apply pack_be_ok. induction H; simpl; constructor; auto.
  apply in_ub_spec. simpl. done.
Qed.

(** register data round trip.  Any 1 to 123 unsigned 16-bit registers are
    accepted by [encode_write_multiple_registers] with a correct header, and
    the same data field in an FC03 response decodes back to exactly those
    registers. *)
Theorem registers_roundtrip address regs :
  u16 address -> 1 <= zlen regs <= 123 -> Forall u16 regs ->
  exists head data, encode_write_multiple_registers address regs = Ok (head ++ data) /\
    unpack_be [fmt_B; fmt_H; fmt_H; fmt_B] head = Ok [16; address; zlen regs; zlen data] /\
    decode_registers_response (read_response READ_HOLDING_REGISTERS data) = Ok regs.
Proof.
  intros Ha Hr Hu. destruct (pack_words_ok _ Hu) as [data Hd].
  destruct (unpack_pack_words _ _ Hd) as [L U].
  destruct (pack_be_ok [(fmt_B, fc_value WRITE_MULTIPLE_REGISTERS); (fmt_H, address);
    (fmt_H, zlen regs); (fmt_B, zlen regs * 2)]) as [head Hh].
  { unfold in_u in Ha. repeat constructor; apply in_ub_spec; simpl; unfold in_u, fmt_bits; simpl; lia. }
  exists head, data. split.
  { unfold encode_write_multiple_registers, guard_raise.
    rewrite (proj2 (bad_address_false address) Ha). replace (negb _) with false by lia.
    by apply pack_be_app. }
  split; [rewrite L, Z.mul_comm; by apply unpack_pack_be in Hh; [|repeat constructor; simpl; lia]|].
  unfold decode_registers_response.
  destruct (read_response_parts READ_HOLDING_REGISTERS data) as (-> & -> & E). simpl. rewrite E.
  rewrite L, Z.mul_comm, Z.div_mul by lia. unfold zlen. rewrite Nat2Z.id. exact U.
Qed.

Lemma registers_roundtrip_witness :
  exists head data, encode_write_multiple_registers 100 [0; 65535; 4660] = Ok (head ++ data) /\
    unpack_be [fmt_B; fmt_H; fmt_H; fmt_B] head = Ok [16; 100; 3; zlen data] /\
    decode_registers_response (read_response READ_HOLDING_REGISTERS data) = Ok [0; 65535; 4660].
Proof.
  apply (registers_roundtrip 100 [0; 65535; 4660]);
    [unfold in_u; lia|unfold zlen; simpl; lia|repeat constructor; lia].
Defined.

(** every response decoder turns a Modbus exception response (function code
    with the 0x80 flag, exception code) into [ModbusException] with the flag
    stripped, before it looks at any data. *)
Theorem exception_response_raises fc code rest quantity :
  0 <= fc < 128 ->
  let pdu := Z.lor fc 0x80 :: code :: rest in
  decode_bits_response pdu quantity = Raise (ModbusException fc code) /\
  decode_registers_response pdu = Raise (ModbusException fc code) /\
  decode_write_single_response pdu = Raise (ModbusException fc code) /\
  decode_write_multiple_response pdu = Raise (ModbusException fc code).
Proof.
  intros Hfc pdu. assert (check_exception pdu = Raise (ModbusException fc code)) as E.
  { unfold check_exception, pdu, index, EXCEPTION_RESPONSE_FLAG. simpl.
    rewrite Z.land_lor_distr_l. replace (Z.land fc 128) with 0.
    - simpl. f_equal. f_equal. rewrite Z.land_lor_distr_l. change (Z.land 128 (Z.lnot 128)) with 0.
      rewrite Z.lor_0_r. rewrite <- Z.ldiff_land.
      apply Z.bits_inj'. intros n Hn. rewrite Z.ldiff_spec. change 128 with (2 ^ 7).
      destruct (decide (n = 7)) as [->|]; [|rewrite Z.pow2_bits_false, andb_true_r by lia; done].
      rewrite Z.testbit_eqb by lia. change (2 ^ 7) with 128. rewrite Z.div_small by lia. done.
    - pose proof (check_exception_normal fc [] Hfc) as N. unfold check_exception, index in N. simpl in N.
      unfold EXCEPTION_RESPONSE_FLAG in N. destruct (Z.eqb_spec (Z.land fc 128) 0); [done|].
      discriminate N. }
  unfold decode_bits_response, decode_registers_response, decode_write_single_response,
    decode_write_multiple_response, decode_echo. rewrite E. done.
Qed.

Lemma exception_response_raises_witness :
  decode_bits_response [Z.lor 1 0x80; 2] 8 = Raise (ModbusException 1 2) /\
  decode_registers_response [Z.lor 1 0x80; 2] = Raise (ModbusException 1 2) /\
  decode_write_single_response [Z.lor 1 0x80; 2] = Raise (ModbusException 1 2) /\
  decode_write_multiple_response [Z.lor 1 0x80; 2] = Raise (ModbusException 1 2).
Proof. apply (exception_response_raises 1 2 [] 8). lia. Defined.
