(* ===== verification/ModbusRtu.v ===== *)
(** * Modbus RTU framing (src/xedge/drivers/modbus/rtu_codec.py)

    CRC-16/MODBUS as the source computes it (bit by bit), and the
    address/PDU/CRC frame.  The theorems show that framing round-trips and
    that the CRC check rejects every frame with one corrupted byte. *)

From S2P Require Import Prelude PyBytes PyFloat.

Definition CRC_POLYNOMIAL : Z := 0xA001.
Definition CRC_INITIAL : Z := 0xFFFF.
Definition MIN_RTU_FRAME_LENGTH : Z := 4.

(** One iteration of the inner [for _ in range(8)] loop. *)
Definition crc_step (crc : Z) : Z :=
  if Z.land crc 1 =? 0 then Z.shiftr crc 1 else Z.lxor (Z.shiftr crc 1) CRC_POLYNOMIAL.

(** One iteration of the outer loop. *)
Definition crc_byte (crc byte : Z) : Z := Nat.iter 8 crc_step (Z.lxor crc byte).

Definition compute_crc16 (data : list Z) : Z := fold_left crc_byte data CRC_INITIAL.

Definition encode_rtu_frame (address : Z) (pdu : list Z) : res (list Z) :=
  raise_if negb ((0 <=? address) && (address <=? 255)) with ValueError;
  let body := [address] ++ pdu in
  let crc := compute_crc16 body in
  Ok (body ++ [Z.land crc 0xFF; Z.land (Z.shiftr crc 8) 0xFF]).

Definition decode_rtu_frame (frame : list Z) : res (Z * list Z) :=
  raise_if zlen frame <? MIN_RTU_FRAME_LENGTH with ModbusRtuFramingError;
  let n := (length frame - 2)%nat in
  let body := take n frame in
  let received_crc_bytes := drop n frame in
  let* lo := index received_crc_bytes 0 in
  let* hi := index received_crc_bytes 1 in
  let received_crc := Z.lor lo (Z.shiftl hi 8) in
  let computed_crc := compute_crc16 body in
  raise_if negb (received_crc =? computed_crc) with ModbusRtuFramingError;
  let* address := index body 0 in
  Ok (address, drop 1 body).

Definition inter_frame_delay_seconds (baud_rate : Z) : res pfloat :=
  if 19200 <=? baud_rate then Ok (int_truediv 175 100000)
  else
    let* character_time_seconds := int_div 11 baud_rate in
    Ok (fmul character_time_seconds (int_truediv 7 2)).

(** ** The CRC register *)

Lemma crc_step_range c : u16 c -> u16 (crc_step c).
Proof.
  intros H. assert (u16 (Z.shiftr c 1)) as R.
  { unfold in_u in *. rewrite Z.shiftr_div_pow2 by lia. split; [apply Z.div_pos; lia|].
    apply Z.div_lt_upper_bound; lia. }
  unfold crc_step. destruct (Z.land c 1 =? 0); [done|].
  apply lxor_range; [lia|done|]. unfold in_u, CRC_POLYNOMIAL. lia.
Qed.

Lemma crc_step_top c : u16 c -> Z.testbit (crc_step c) 15 = negb (Z.land c 1 =? 0).
Proof.
  intros H. assert (Z.testbit (Z.shiftr c 1) 15 = false) as T.
  { rewrite Z.shiftr_spec by lia. by apply (testbit_high 16). }
  unfold crc_step. destruct (Z.land c 1 =? 0); [done|]. rewrite Z.lxor_spec, T. done.
Qed.

Lemma crc_step_inj c d : u16 c -> u16 d -> crc_step c = crc_step d -> c = d.
Proof.
  intros Hc Hd E. pose proof (crc_step_top c Hc) as Tc. pose proof (crc_step_top d Hd) as Td.
  rewrite <- E, Tc in Td. apply (f_equal negb) in Td. rewrite !negb_involutive in Td.
  assert (Z.shiftr c 1 = Z.shiftr d 1) as Es.
  { unfold crc_step in E. rewrite Td in E. destruct (Z.land d 1 =? 0); [done|].
    by apply lxor_cancel_r in E. }
  change 1 with (2 ^ 1 - 1) in Td at 1 2. rewrite !land_pow2_ones in Td by lia.
  rewrite !Z.shiftr_div_pow2 in Es by lia. change (2 ^ 1) with 2 in *.
  pose proof (Z.div_mod c 2). pose proof (Z.div_mod d 2).
  pose proof (Z.mod_pos_bound c 2). pose proof (Z.mod_pos_bound d 2). lia.
Qed.

Lemma crc_iter_range n c : u16 c -> u16 (Nat.iter n crc_step c).
Proof. intros. induction n; simpl; [done|]. by apply crc_step_range. Qed.

Lemma crc_iter_inj n c d :
  u16 c -> u16 d -> Nat.iter n crc_step c = Nat.iter n crc_step d -> c = d.
Proof.
  intros Hc Hd. induction n as [|n IH]; simpl; [done|]. intros E.
  apply IH, crc_step_inj; [by apply crc_iter_range..|done].
Qed.

Lemma u8_u16 b : u8 b -> u16 b.
Proof. unfold in_u. intros. change (2 ^ 8) with 256 in *. change (2 ^ 16) with 65536. lia. Qed.
#[export] Hint Resolve u8_u16 : xedge.

Lemma crc_byte_range c b : u16 c -> u8 b -> u16 (crc_byte c b).
Proof. intros. apply crc_iter_range, lxor_range; auto with xedge. lia. Qed.

(** Feeding the same byte keeps different registers different, and feeding
    different bytes to one register makes them different. *)
Lemma crc_byte_inj c d b : u16 c -> u16 d -> u8 b -> crc_byte c b = crc_byte d b -> c = d.
Proof.
  intros Hc Hd Hb E. apply crc_iter_inj in E; [by apply lxor_cancel_r in E|apply lxor_range..];
    auto with xedge; lia.
Qed.
Lemma crc_byte_inj_data c b b' : u16 c -> u8 b -> u8 b' -> crc_byte c b = crc_byte c b' -> b = b'.
Proof.
  intros Hc Hb Hb' E. apply crc_iter_inj in E; [|apply lxor_range; auto with xedge; lia..].
  rewrite (Z.lxor_comm c b), (Z.lxor_comm c b') in E. by apply lxor_cancel_r in E.
Qed.

Lemma crc_fold_range data c : u16 c -> bytes_ok data -> u16 (fold_left crc_byte data c).
Proof. intros Hc Hd. revert c Hc; induction Hd; intros; simpl; [done|]. by apply IHHd, crc_byte_range. Qed.

Lemma compute_crc16_range data : bytes_ok data -> u16 (compute_crc16 data).
Proof. apply crc_fold_range. unfold in_u, CRC_INITIAL. lia. Qed.

Lemma crc_fold_inj data c d :
  u16 c -> u16 d -> bytes_ok data ->
  fold_left crc_byte data c = fold_left crc_byte data d -> c = d.
Proof.
  intros Hc Hd Hb. revert c d Hc Hd; induction Hb as [|b t H Ht IH]; intros c d Hc Hd E; [done|].
  simpl in E. apply IH in E; [|by apply crc_byte_range..]. by eapply crc_byte_inj.
Qed.

(** Changing one byte of the data changes the CRC. *)
Lemma crc_one_byte data i b x :
  bytes_ok data -> u8 b -> data !! i = Some x -> b <> x ->
  compute_crc16 (<[i := b]> data) <> compute_crc16 data.
Proof.
  intros Hd Hb Hx Hne E. pose proof (lookup_lt_Some _ _ _ Hx) as Li.
  rewrite insert_take_drop in E by done. unfold compute_crc16 in E.
  rewrite <- (take_drop_middle data i x Hx) in E at 3. rewrite !fold_left_app in E. cbn [fold_left] in E.
  rewrite <- (take_drop_middle data i x Hx) in Hd. apply Forall_app in Hd as [H1 H2].
  apply Forall_cons in H2 as [Hx8 H2].
  assert (u16 CRC_INITIAL) by (unfold in_u, CRC_INITIAL; lia).
  apply crc_fold_inj in E; [|by apply crc_byte_range; [apply crc_fold_range|]..|done].
  apply crc_byte_inj_data in E; [done|by apply crc_fold_range|done..].
Qed.

Lemma crc_bytes_join crc :
  u16 crc -> Z.lor (Z.land crc 255) (Z.shiftl (Z.land (Z.shiftr crc 8) 255) 8) = crc.
Proof.
  intros H. apply Z.bits_inj'. intros n Hn.
  rewrite Z.lor_spec. change 255 with (Z.ones 8). rewrite Z.land_spec, Z.shiftl_spec by lia.
  destruct (Z.ltb_spec n 8).
  - rewrite (Z.testbit_neg_r _ (n - 8)), orb_false_r by lia.
    rewrite Z.ones_spec_low, andb_true_r by lia. done.
  - rewrite Z.ones_spec_high, andb_false_r, Z.land_spec, Z.shiftr_spec by lia. simpl.
    replace (n - 8 + 8) with n by lia.
    destruct (Z.ltb_spec n 16).
    + rewrite Z.ones_spec_low, andb_true_r by lia. done.
    + rewrite (testbit_high 16 crc) by (done || lia). done.
Qed.

Lemma lor_bytes lo hi : u8 lo -> u8 hi -> Z.lor lo (Z.shiftl hi 8) = lo + 256 * hi.
Proof.
  intros Hl Hh. replace (lo + 256 * hi) with (Z.shiftl hi 8 + lo)
    by (rewrite Z.shiftl_mul_pow2 by lia; lia).
  apply Z.bits_inj'. intros n Hn. rewrite Z.lor_spec.
  destruct (Z.ltb_spec n 8).
  - rewrite Z.shiftl_spec_low, orb_false_r by lia. symmetry.
    rewrite Z.shiftl_mul_pow2 by lia. rewrite <- (Z.mod_pow2_bits_low _ 8 n) by lia.
    rewrite Z.add_comm, Z.mod_add by lia. by rewrite Z.mod_pow2_bits_low by lia.
  - rewrite Z.shiftl_spec, (testbit_high 8 lo), orb_false_l by (done || lia).
    symmetry. replace n with ((n - 8) + 8) at 1 by lia. rewrite <- Z.div_pow2_bits by lia.
    unfold in_u in Hl. rewrite Z.shiftl_mul_pow2, Z.div_add_l, (Z.div_small lo), Z.add_0_r by lia.
    done.
Qed.

(** ** Frames *)

Definition crc_lo (crc : Z) : Z := Z.land crc 0xFF.
Definition crc_hi (crc : Z) : Z := Z.land (Z.shiftr crc 8) 0xFF.

Lemma land_255_u8 z : u8 (Z.land z 255).
Proof. change 255 with (2 ^ 8 - 1). rewrite land_pow2_ones by lia. unfold in_u. apply Z.mod_pos_bound. lia. Qed.

(** Decoding any well-sized split [body ++ [lo; hi]] compares the two CRCs. *)
Lemma decode_rtu_split body lo hi :
  (2 <= length body)%nat ->
  decode_rtu_frame (body ++ [lo; hi]) =
    if Z.lor lo (Z.shiftl hi 8) =? compute_crc16 body
    then (let* a := index body 0 in Ok (a, drop 1 body)) else Raise ModbusRtuFramingError.
Proof.
  intros L. unfold decode_rtu_frame, guard_raise, MIN_RTU_FRAME_LENGTH.
  replace (zlen (body ++ [lo; hi]) <? 4) with false by (autorewrite with zlen; unfold zlen; lia).
  replace (length (body ++ [lo; hi]) - 2)%nat with (length body) by (rewrite length_app; simpl; lia).
  rewrite take_app_length, drop_app_length. simpl. by destruct (_ =? _).
Qed.

Lemma encode_rtu_shape a pdu frame :
  encode_rtu_frame a pdu = Ok frame ->
  0 <= a <= 255 /\
  frame = (a :: pdu) ++ [crc_lo (compute_crc16 (a :: pdu)); crc_hi (compute_crc16 (a :: pdu))].
Proof. unfold encode_rtu_frame. intros H. inv_ok. split; [lia|done]. Qed.

Lemma rtu_frame_ok a pdu :
  u8 a -> bytes_ok pdu -> pdu <> [] ->
  exists frame, encode_rtu_frame a pdu = Ok frame /\ zlen frame = zlen pdu + 3 /\
    decode_rtu_frame frame = Ok (a, pdu).
Proof.
  intros Ha Hp Hne.
  exists ((a :: pdu) ++ [crc_lo (compute_crc16 (a :: pdu)); crc_hi (compute_crc16 (a :: pdu))]).
  split; [unfold encode_rtu_frame, guard_raise; unfold in_u in Ha;
          by replace (negb ((0 <=? a) && (a <=? 255))) with false by lia|].
  split; [autorewrite with zlen; lia|].
  rewrite decode_rtu_split by (destruct pdu; [done|simpl; lia]).
  unfold crc_lo, crc_hi.
  rewrite crc_bytes_join by (by apply compute_crc16_range; constructor). by rewrite Z.eqb_refl.
Qed.

(** RTU framing round trip: for every unit address 0..255 and every
    non-empty PDU, [encode_rtu_frame] succeeds with a frame three bytes longer
    than the PDU and [decode_rtu_frame] accepts it and returns the address and
    the PDU. *)
Theorem rtu_roundtrip a pdu :
  u8 a -> bytes_ok pdu -> pdu <> [] ->
  exists frame, encode_rtu_frame a pdu = Ok frame /\ zlen frame = zlen pdu + 3 /\
    decode_rtu_frame frame = Ok (a, pdu).
Proof. apply rtu_frame_ok. Qed.

Lemma rtu_roundtrip_witness :
  exists frame, encode_rtu_frame 17 [3; 0; 107; 0; 3] = Ok frame /\ zlen frame = 5 + 3 /\
    decode_rtu_frame frame = Ok (17, [3; 0; 107; 0; 3]).
Proof. apply (rtu_roundtrip 17 [3; 0; 107; 0; 3]); [unfold in_u; lia|repeat constructor; lia|done]. Defined.

(** CRC error detection: if any single byte of an encoded RTU frame (unit
    address, PDU or CRC) is replaced by a different byte value, whatever its
    position and however many bits differ, [decode_rtu_frame] raises
    [ModbusRtuFramingError] and never delivers the corrupted PDU. *)
Theorem rtu_corrupted_byte_rejected a pdu frame i x b :
  encode_rtu_frame a pdu = Ok frame -> bytes_ok pdu -> pdu <> [] ->
  frame !! i = Some x -> u8 b -> b <> x ->
  decode_rtu_frame (<[i := b]> frame) = Raise ModbusRtuFramingError.
Proof.
  intros E Hp Hne Hx Hb Hbx. apply encode_rtu_shape in E as [Ha ->].
  set (body := a :: pdu) in *. set (crc := compute_crc16 body) in *.
  assert (2 <= length body)%nat as L by (subst body; destruct pdu; [done|simpl; lia]).
  assert (bytes_ok body) as Hbody by (constructor; [unfold in_u; lia|done]).
  pose proof (compute_crc16_range _ Hbody) as Hcrc. fold crc in Hcrc.
  assert (compute_crc16 body = crc) as Ecrc by done. clearbody crc body.
  destruct (decide (i < length body)%nat) as [Hi|Hi].
  - rewrite insert_app_l by done. rewrite lookup_app_l in Hx by done.
    rewrite decode_rtu_split by (by rewrite length_insert).
    unfold crc_lo, crc_hi. rewrite crc_bytes_join by done.
    pose proof (crc_one_byte _ _ _ _ Hbody Hb Hx Hbx).
    destruct (Z.eqb_spec crc (compute_crc16 (<[i:=b]> body))); [congruence|done].
  - rewrite insert_app_r_alt by lia. rewrite lookup_app_r in Hx by lia.
    pose proof (land_255_u8 crc) as Hlo. pose proof (land_255_u8 (Z.shiftr crc 8)) as Hhi.
    pose proof (crc_bytes_join crc Hcrc) as J. rewrite lor_bytes in J by done.
    destruct (i - length body)%nat as [|[|k]] eqn:Ei; [| |done]; simpl in Hx |- *;
      injection Hx as <-; rewrite decode_rtu_split by done; unfold crc_lo, crc_hi in *;
      rewrite lor_bytes, Ecrc by done.
    + destruct (Z.eqb_spec (b + 256 * Z.land (Z.shiftr crc 8) 255) crc); [lia|done].
    + destruct (Z.eqb_spec (Z.land crc 255 + 256 * b) crc); [lia|done].
Qed.

Lemma rtu_corrupted_byte_rejected_witness :
  decode_rtu_frame (<[2%nat := 1]> [17; 3; 0; 107; 0; 3; 118; 135]) = Raise ModbusRtuFramingError.
Proof.
  apply (rtu_corrupted_byte_rejected 17 [3; 0; 107; 0; 3] _ 2 0);
    [vm_compute; reflexivity|repeat constructor; lia|done|reflexivity|unfold in_u; lia|lia].
Defined.
