(* ===== verification/ModbusDatatypes.v ===== *)
(** * Multi-register Modbus data types (src/xedge/drivers/modbus/datatypes.py)

    Combining 16-bit registers into one value and splitting a value back, for
    the eight data types and the four word/byte orders. *)

From Stdlib Require Import Floats.SpecFloat.
From S2P Require Import Prelude PyBytes PyFloat.
Local Open Scope string_scope.
Local Open Scope list_scope.
Local Open Scope Z_scope.

Definition DEFAULT_DATA_TYPE : string := "uint16".
Definition DEFAULT_WORD_ORDER : string := "big".
Definition DEFAULT_BYTE_ORDER : string := "big".

(** A struct format character: an integer format, [f] or [d]. *)
Inductive type_fmt := TInt (f : ifmt) | TF32 | TF64.

(** [_TYPE_SPEC.get(data_type)] *)
Definition TYPE_SPEC (data_type : string) : option (type_fmt * nat) :=
  if String.eqb data_type "uint16" then Some (TInt fmt_H, 1%nat)
  else if String.eqb data_type "int16" then Some (TInt fmt_h, 1%nat)
  else if String.eqb data_type "uint32" then Some (TInt fmt_I, 2%nat)
  else if String.eqb data_type "int32" then Some (TInt fmt_i, 2%nat)
  else if String.eqb data_type "float32" then Some (TF32, 2%nat)
  else if String.eqb data_type "uint64" then Some (TInt fmt_Q, 4%nat)
  else if String.eqb data_type "int64" then Some (TInt fmt_q, 4%nat)
  else if String.eqb data_type "float64" then Some (TF64, 4%nat)
  else None.

Definition register_count (data_type : string) : res Z :=
  match TYPE_SPEC data_type with
  | None => Raise ModbusDataTypeError
  | Some (_, n) => Ok (Z.of_nat n)
  end.

Definition is_float (data_type : string) : bool :=
  String.eqb data_type "float32" || String.eqb data_type "float64".

Definition order_endian (byte_order : string) : endian :=
  if String.eqb byte_order "big" then BigEndian else LittleEndian.

(** [b"".join(struct.pack(..., word & 0xFFFF) for word in words)] *)
Fixpoint pack_words (en : endian) (words : list Z) : res (list Z) :=
  match words with
  | [] => Ok []
  | w :: t =>
      let* b := pack_int en fmt_H (Z.land w 0xFFFF) in
      let* r := pack_words en t in Ok (b ++ r)
  end.

(** [[struct.unpack(..., raw[i:i+2])[0] for i in range(0, count * 2, 2)]] *)
Fixpoint unpack_words (en : endian) (count : nat) (raw : list Z) : res (list Z) :=
  match count with
  | O => Ok []
  | S n =>
      let* w := unpack_int en fmt_H (take 2 raw) in
      let* ws := unpack_words en n (drop 2 raw) in Ok (w :: ws)
  end.

Definition unpack_value (f : type_fmt) (raw : list Z) : res num :=
  match f with
  | TInt i => rmap NInt (unpack_int BigEndian i raw)
  | TF32 => rmap NFloat (unpack_f BigEndian raw)
  | TF64 => rmap NFloat (unpack_d BigEndian raw)
  end.

Definition decode (registers : list Z) (data_type word_order byte_order : string) : res num :=
  match TYPE_SPEC data_type with
  | None => Raise ModbusDataTypeError
  | Some (format_char, count) =>
      raise_if zlen registers <? Z.of_nat count with ModbusDataTypeError;
      let words := take count registers in
      let words := if String.eqb word_order "little" then rev words else words in
      let* raw := pack_words (order_endian byte_order) words in
      unpack_value format_char raw
  end.

(** [struct.pack(f">{format_char}", coerced)] *)
Definition pack_value (f : type_fmt) (data_type : string) (value : num) : res (list Z) :=
  match f with
  | TInt i => let* z := num_int value in pack_int BigEndian i z
  | TF32 => let* x := num_float value in pack_f BigEndian x
  | TF64 => let* x := num_float value in Ok (pack_d BigEndian x)
  end.

(** [except struct.error as exc: raise ModbusDataTypeError]: only [struct.error]
    is translated. *)
Definition struct_error_as_type_error {A} (m : res A) : res A :=
  match m with Raise StructError => Raise ModbusDataTypeError | _ => m end.

Definition encode (value : num) (data_type word_order byte_order : string) : res (list Z) :=
  match TYPE_SPEC data_type with
  | None => Raise ModbusDataTypeError
  | Some (format_char, count) =>
      let* raw := struct_error_as_type_error (pack_value format_char data_type value) in
      let* words := unpack_words (order_endian byte_order) count raw in
      Ok (if String.eqb word_order "little" then rev words else words)
  end.

(** ** Lemmas *)

Lemma unpack_int_u16 en bs w :
  bytes_ok bs -> unpack_int en fmt_H bs = Ok w -> u16 w /\ pack_int en fmt_H w = Ok bs.
Proof.
  intros Hb. unfold unpack_int. destruct (Nat.eqb_spec (length bs) (fmt_size fmt_H)) as [L|]; [|done].
  simpl. intros [= <-].
  assert (u16 (match en with BigEndian => be_Z bs | LittleEndian => le_Z bs end)) as R.
  { destruct en; [pose proof (be_Z_bound _ Hb) as B|pose proof (le_Z_bound _ Hb) as B];
      rewrite L in B; exact B. }
  split; [done|]. unfold pack_int. rewrite (proj2 (in_ub_spec _ _) R : fmt_in_range fmt_H _ = true).
  do 2 f_equal. rewrite Z.mod_small by exact R.
  destruct en; rewrite <- L; [by apply be_bytes_Z|by apply le_bytes_Z].
Qed.

Lemma land_ffff w : u16 w -> Z.land w 0xFFFF = w.
Proof. intros H. change 0xFFFF with (2 ^ 16 - 1). rewrite land_pow2_ones by lia. by apply Z.mod_small. Qed.

(** Splitting raw bytes into words and joining them again is the identity. *)
Lemma words_roundtrip en count raw :
  length raw = (2 * count)%nat -> bytes_ok raw ->
  exists ws, unpack_words en count raw = Ok ws /\ length ws = count /\ Forall u16 ws /\
    pack_words en ws = Ok raw.
Proof.
  revert raw; induction count as [|n IH]; intros raw L Hb.
  - exists []. destruct raw; [|discriminate L]. repeat split; constructor.
  - destruct raw as [|a [|b t]]; [simpl in L; lia..|].
    destruct (IH t) as (ws & E1 & E2 & E3 & E4); [simpl in L; lia|by do 2 apply Forall_cons in Hb as [_ Hb]|].
    assert (bytes_ok [a; b]) as Hab.
    { apply Forall_cons in Hb as [Ha Hb]. apply Forall_cons in Hb as [Hb' _]. repeat constructor; apply Ha || apply Hb'. }
    destruct (unpack_int en fmt_H [a; b]) as [w|] eqn:U; [|by destruct en].
    destruct (unpack_int_u16 _ _ _ Hab U) as [Hw Pw].
    exists (w :: ws). cbn [unpack_words pack_words]. change (take 2 (a :: b :: t)) with [a; b]. change (drop 2 (a :: b :: t)) with t. rewrite U, E1, land_ffff, Pw, E4 by done.
    simpl. repeat split; [by rewrite E2|by constructor].
Qed.

Lemma word_order_involutive (word_order : string) (ws : list Z) (n : nat) :
  length ws = n ->
  let o := fun l : list Z => if String.eqb word_order "little" then rev l else l in
  o (take n (o ws)) = ws.
Proof.
  intros L o. unfold o. destruct (String.eqb word_order "little").
  - rewrite <- L, <- (length_rev ws), firstn_all. apply rev_involutive.
  - rewrite <- L. apply firstn_all.
Qed.

(** Whatever bytes [struct.pack] produced for the value come back to the final
    [struct.unpack], for every word and byte order and any trailing registers. *)
Lemma encode_decode_raw fmt count data_type word_order byte_order v raw :
  TYPE_SPEC data_type = Some (fmt, count) ->
  pack_value fmt data_type v = Ok raw -> length raw = (2 * count)%nat -> bytes_ok raw ->
  exists regs, encode v data_type word_order byte_order = Ok regs /\
    length regs = count /\ Forall u16 regs /\
    forall extra, decode (regs ++ extra) data_type word_order byte_order = unpack_value fmt raw.
Proof.
  intros Hs Hp L Hb.
  destruct (words_roundtrip (order_endian byte_order) count raw L Hb) as (ws & U & Lw & Hw & P).
  exists (if String.eqb word_order "little" then rev ws else ws).
  assert (length (if String.eqb word_order "little" then rev ws else ws) = count) as Lr
    by (destruct (String.eqb word_order "little"); by rewrite ?length_rev).
  split; [unfold encode; rewrite Hs, Hp; simpl; by rewrite U|].
  split; [done|]. split; [destruct (String.eqb word_order "little"); [by apply Forall_rev|done]|].
  intros extra. unfold decode, guard_raise. rewrite Hs.
  unfold zlen. rewrite length_app, Lr. destruct (Z.ltb_spec (Z.of_nat (count + length extra)) (Z.of_nat count)); [lia|].
  rewrite take_app_le by lia.
  pose proof (word_order_involutive word_order ws count Lw) as W. cbv zeta in W. rewrite W, P. done.
Qed.

Lemma TYPE_SPEC_size data_type fmt count :
  TYPE_SPEC data_type = Some (fmt, count) ->
  match fmt with TInt i => fmt_size i | TF32 => 4%nat | TF64 => 8%nat end = (2 * count)%nat /\
  (0 < count)%nat.
Proof. unfold TYPE_SPEC. repeat case_match; intros; simplify_eq; simpl; lia. Qed.

Lemma TYPE_SPEC_int_not_float data_type f count : TYPE_SPEC data_type = Some (TInt f, count) -> is_float data_type = false.
Proof.
  intros H. unfold is_float. destruct (String.eqb data_type "float32") eqn:E1.
  { apply String.eqb_eq in E1. by subst. }
  destruct (String.eqb data_type "float64") eqn:E2; [|done]. apply String.eqb_eq in E2. by subst.
Qed.

Lemma pack_words_total en ws : exists raw, pack_words en ws = Ok raw /\ length raw = (2 * length ws)%nat.
Proof.
  induction ws as [|w ws (raw & E & L)]; [by exists []|]. cbn [pack_words].
  assert (is_ok (pack_int en fmt_H (Z.land w 0xFFFF)) = true) as Ho.
  { rewrite pack_int_ok. apply in_ub_spec. change 0xFFFF with (2 ^ 16 - 1). rewrite land_pow2_ones by lia.
    unfold in_u. change (fmt_bits fmt_H) with 16. apply Z.mod_pos_bound. lia. }
  destruct (pack_int en fmt_H (Z.land w 0xFFFF)) as [b|] eqn:P; [|done]. rewrite E. simpl.
  exists (b ++ raw). split; [done|]. rewrite length_app, L, (pack_int_length _ _ _ _ P). simpl. lia.
Qed.

(** [decode] never raises on enough registers of a known type. *)
Lemma decode_total data_type fmt count word_order byte_order regs :
  TYPE_SPEC data_type = Some (fmt, count) -> (count <= length regs)%nat ->
  is_ok (decode regs data_type word_order byte_order) = true.
Proof.
  intros Hs L. unfold decode, guard_raise. rewrite Hs.
  rewrite (proj2 (Z.ltb_ge _ _)) by (unfold zlen; lia).
  set (ws := if String.eqb word_order "little" then rev (take count regs) else take count regs).
  assert (length ws = count) as Lw.
  { unfold ws. destruct (String.eqb word_order "little"); rewrite ?length_rev, length_take; lia. }
  destruct (pack_words_total (order_endian byte_order) ws) as (raw & -> & Lr). simpl.
  destruct (TYPE_SPEC_size _ _ _ Hs) as [Hsz _]. rewrite Lw, <- Hsz in Lr.
  destruct fmt as [i| |]; simpl.
  - unfold unpack_int. rewrite (proj2 (Nat.eqb_eq _ _) Lr). by destruct (fmt_signed i).
  - unfold unpack_f. by rewrite (proj2 (Nat.eqb_eq _ _) Lr).
  - unfold unpack_d. by rewrite (proj2 (Nat.eqb_eq _ _) Lr).
Qed.

Lemma int_encode_decode data_type f count word_order byte_order z :
  TYPE_SPEC data_type = Some (TInt f, count) -> fmt_in_range f z = true ->
  exists regs, encode (NInt z) data_type word_order byte_order = Ok regs /\
    register_count data_type = Ok (zlen regs) /\ Forall u16 regs /\
    forall extra, decode (regs ++ extra) data_type word_order byte_order = Ok (NInt z).
Proof.
  intros Hs Hr. destruct (TYPE_SPEC_size _ _ _ Hs) as [Hsz Hc].
  destruct (pack_int BigEndian f z) as [raw|] eqn:P; [|by unfold pack_int in P; rewrite Hr in P].
  destruct (encode_decode_raw (TInt f) count data_type word_order byte_order (NInt z) raw)
    as (regs & E & L & Hu & D); [done|exact P|by rewrite (pack_int_length _ _ _ _ P)|by eapply pack_int_bytes|].
  exists regs. split; [done|]. split; [unfold register_count, zlen; by rewrite Hs, L|]. split; [done|].
  intros extra. rewrite D. simpl. rewrite (unpack_pack_int _ f _ _ ltac:(lia) P). done.
Qed.

(** integer data types round-trip: for each of the six integer types, each
    word order and byte order, and each value in the type's range, [encode]
    gives exactly [register_count] unsigned 16-bit registers and [decode] of
    them, also followed by unrelated trailing registers, returns the value. *)
Theorem int_datatype_roundtrip data_type f count word_order byte_order z :
  TYPE_SPEC data_type = Some (TInt f, count) -> fmt_in_range f z = true ->
  exists regs, encode (NInt z) data_type word_order byte_order = Ok regs /\
    register_count data_type = Ok (zlen regs) /\ Forall u16 regs /\
    forall extra, decode (regs ++ extra) data_type word_order byte_order = Ok (NInt z).
Proof. apply int_encode_decode. Qed.

Lemma int_datatype_roundtrip_witness :
  exists regs, encode (NInt (-2)) "int32" "little" "big" = Ok regs /\
    register_count "int32" = Ok (zlen regs) /\ Forall u16 regs /\
    forall extra, decode (regs ++ extra) "int32" "little" "big" = Ok (NInt (-2)).
Proof. apply (int_datatype_roundtrip "int32" fmt_i 2); vm_compute; reflexivity. Defined.

(** float64 round-trips bit for bit: every binary64 value (infinities, NaN,
    signed zeros and subnormals included) written through [encode] as four
    registers in any word and byte order is read back by [decode] unchanged. *)
Theorem float64_datatype_roundtrip word_order byte_order f :
  valid_binary prec64 emax64 f = true ->
  exists regs, encode (NFloat f) "float64" word_order byte_order = Ok regs /\
    length regs = 4%nat /\ Forall u16 regs /\
    forall extra, decode (regs ++ extra) "float64" word_order byte_order = Ok (NFloat f).
Proof.
  intros V.
  destruct (encode_decode_raw TF64 4 "float64" word_order byte_order (NFloat f) (pack_d BigEndian f))
    as (regs & E & L & Hu & D); [done|done|apply pack_d_length|apply be_bytes_ok|].
  exists regs. split; [done|]. split; [done|]. split; [done|].
  intros extra. rewrite D. cbn [unpack_value]. by rewrite unpack_pack_d.
Qed.

Lemma float64_datatype_roundtrip_witness :
  exists regs, encode (NFloat (S754_finite true 6755399441055744 (-52))) "float64" "little" "little" = Ok regs /\
    length regs = 4%nat /\ Forall u16 regs /\
    forall extra, decode (regs ++ extra) "float64" "little" "little"
      = Ok (NFloat (S754_finite true 6755399441055744 (-52))).
Proof. apply float64_datatype_roundtrip. vm_compute. reflexivity. Defined.

(** which errors [encode] raises on a value that does not fit: an integer
    outside an integer type's range is a [ModbusDataTypeError] (what the write
    path catches), but a finite float too large for float32 escapes as
    [OverflowError], which is not a [ModbusDataTypeError]. *)
Theorem encode_range_errors data_type f count word_order byte_order z x :
  (TYPE_SPEC data_type = Some (TInt f, count) -> fmt_in_range f z = false ->
     encode (NInt z) data_type word_order byte_order = Raise ModbusDataTypeError) /\
  (narrow32 x = Raise OverflowError ->
     encode (NFloat x) "float32" word_order byte_order = Raise OverflowError).
Proof.
  split.
  - intros Hs Hr. unfold encode. rewrite Hs. simpl. unfold pack_int. by rewrite Hr.
  - intros Hx. unfold encode. simpl. unfold pack_f. by rewrite Hx.
Qed.

Lemma encode_range_errors_witness :
  encode (NInt 70000) "uint16" "big" "big" = Raise ModbusDataTypeError /\
  encode (NFloat (float_of_Z_raw (10 ^ 39))) "float32" "big" "big" = Raise OverflowError.
Proof.
  split.
  - apply (encode_range_errors "uint16" fmt_H 1 "big" "big" 70000 fzero); vm_compute; reflexivity.
  - apply (encode_range_errors "uint16" fmt_H 1 "big" "big" 0 (float_of_Z_raw (10 ^ 39))); vm_compute; reflexivity.
Defined.
