(* ===== verification/ModbusPlanner.v ===== *)
(** * Read-request batching planner (src/xedge/drivers/modbus/planner.py)

    Tags in, read blocks out.  The greedy loop of [_plan_one_function_code] is
    [coalesce]; [groups] is the partition of the sorted tags it computes, and
    the theorems about blocks are proved on that partition. *)

From S2P Require Import Prelude PyBytes PyFloat ModbusCodec ModbusDatatypes.
Local Open Scope string_scope.
Local Open Scope list_scope.
Local Open Scope Z_scope.

(** The optional [scaling] sub-dict of a tag. *)
Record RawScaling := { raw_scale : option num; raw_offset : option num }.

(** One entry of a tag group's [tags] list: the keys the Modbus driver reads,
    [option] where the source uses [tag.get]. *)
Record ModbusTag := {
  tag_name : string;
  tag_function_code : string;
  tag_address : Z;
  tag_data_type : option string;
  tag_word_order : option string;
  tag_byte_order : option string;
  tag_access_opt : option string;
  tag_scaling : option RawScaling
}.

Record PlannedTag := { pt_tag : ModbusTag; pt_offset : Z; pt_span : Z }.

Record ReadBlock := {
  rb_function_code : FunctionCode;
  rb_address : Z;
  rb_quantity : Z;
  rb_tags : list PlannedTag
}.

Definition is_batched (b : ReadBlock) : bool := 1 <? zlen (rb_tags b).

Definition DEFAULT_MAX_BLOCK_GAP : Z := 0.

Definition tag_span (tag : ModbusTag) (fc : FunctionCode) : res Z :=
  if is_bit_function fc then Ok 1
  else register_count (default DEFAULT_DATA_TYPE (tag_data_type tag)).

(** An [(address, span, tag)] triple of the sorted [spans] list. *)
Record entry := { e_addr : Z; e_span : Z; e_tag : ModbusTag }.
Definition e_end (e : entry) : Z := e_addr e + e_span e.

(** [key=lambda entry: (entry[0], entry[1])] *)
Definition entry_leb (x y : entry) : bool :=
  (e_addr x <? e_addr y) || ((e_addr x =? e_addr y) && (e_span x <=? e_span y)).

Definition build_block (fc : FunctionCode) (start end_ : Z) (entries : list entry) : ReadBlock :=
  {| rb_function_code := fc; rb_address := start; rb_quantity := end_ - start;
     rb_tags := map (fun e => {| pt_tag := e_tag e; pt_offset := e_addr e - start;
                                 pt_span := e_span e |}) entries |}.

Definition is_nil {A} (l : list A) : bool := match l with [] => true | _ => false end.

(** The [for address, span, tag in spans] loop with its final flush. *)
Fixpoint coalesce (fc : FunctionCode) (limit max_block_gap : Z)
    (start end_ : Z) (current : list entry) (spans : list entry) : list ReadBlock :=
  match spans with
  | [] => if is_nil current then [] else [build_block fc start end_ current]
  | e :: rest =>
      let candidate_end := Z.max end_ (e_end e) in
      let gap := e_addr e - end_ in
      let fits := (candidate_end - start <=? limit) && (is_nil current || (gap <=? max_block_gap)) in
      if negb (is_nil current) && negb fits then
        build_block fc start end_ current
          :: coalesce fc limit max_block_gap (e_addr e) (e_end e) [e] rest
      else
        coalesce fc limit max_block_gap (if is_nil current then e_addr e else start)
          candidate_end (current ++ [e]) rest
  end.

Definition make_entry (fc : FunctionCode) (tag : ModbusTag) : res entry :=
  let* span := tag_span tag fc in
  Ok {| e_addr := tag_address tag; e_span := span; e_tag := tag |}.

Definition plan_one_function_code (tags : list ModbusTag) (fc : FunctionCode)
    (limit max_block_gap : Z) : res (list ReadBlock) :=
  let* entries := mapM_res (make_entry fc) tags in
  let spans := py_sorted entry_leb entries in
  match spans with
  | [] => Raise IndexError
  | e :: _ => Ok (coalesce fc limit max_block_gap (e_addr e) (e_addr e) [] spans)
  end.

(** [by_function.setdefault(function_code, []).append(tag)] *)
Fixpoint group_append (fc : FunctionCode) (tag : ModbusTag)
    (d : list (FunctionCode * list ModbusTag)) : list (FunctionCode * list ModbusTag) :=
  match d with
  | [] => [(fc, [tag])]
  | (k, l) :: t => if decide (k = fc) then (k, l ++ [tag]) :: t else (k, l) :: group_append fc tag t
  end.

Fixpoint partition_by_function (by_name : string -> option FunctionCode) (tags : list ModbusTag)
    (d : list (FunctionCode * list ModbusTag)) : res (list (FunctionCode * list ModbusTag)) :=
  match tags with
  | [] => Ok d
  | tag :: rest =>
      match by_name (tag_function_code tag) with
      | None => Raise KeyError
      | Some fc => partition_by_function by_name rest (group_append fc tag d)
      end
  end.

Definition block_limit (fc : FunctionCode) (max_block_size : option Z) : Z :=
  let limit := max_read_quantity fc in
  match max_block_size with None => limit | Some n => Z.min limit (Z.max 1 n) end.

Definition fc_leb (x y : FunctionCode * list ModbusTag) : bool := fc_value x.1 <=? fc_value y.1.

Definition plan_read_blocks (tags : list ModbusTag) (by_name : string -> option FunctionCode)
    (max_block_size : option Z) (max_block_gap : Z) : res (list ReadBlock) :=
  let* by_function := partition_by_function by_name tags [] in
  let* blocks := mapM_res (fun kv => plan_one_function_code kv.2 kv.1
                             (block_limit kv.1 max_block_size) max_block_gap)
                          (py_sorted fc_leb by_function) in
  Ok (concat blocks).

(** ** The greedy partition *)

Definition group_start (g : list entry) : Z := match g with e :: _ => e_addr e | [] => 0 end.
Definition group_end (g : list entry) : Z :=
  match g with [] => 0 | e :: t => foldr (fun x m => Z.max (e_end x) m) (e_end e) t end.

Definition group_fits (limit gap : Z) (g : list entry) (e : entry) : bool :=
  (Z.max (group_end g) (e_end e) - group_start g <=? limit) && (e_addr e - group_end g <=? gap).

Fixpoint groups (limit gap : Z) (cur : list entry) (spans : list entry) : list (list entry) :=
  match spans with
  | [] => [cur]
  | e :: rest =>
      if group_fits limit gap cur e then groups limit gap (cur ++ [e]) rest
      else cur :: groups limit gap [e] rest
  end.

Definition block_of (fc : FunctionCode) (g : list entry) : ReadBlock :=
  build_block fc (group_start g) (group_end g) g.

Lemma group_end_snoc g e : g <> [] -> group_end (g ++ [e]) = Z.max (group_end g) (e_end e).
Proof.
  destruct g as [|x t]; [done|]. intros _. simpl. induction t as [|y t IH]; simpl; [lia|].
  rewrite IH. lia.
Qed.
Lemma group_start_snoc g e : g <> [] -> group_start (g ++ [e]) = group_start g.
Proof. by destruct g. Qed.

Lemma coalesce_groups fc limit gap cur spans :
  cur <> [] ->
  coalesce fc limit gap (group_start cur) (group_end cur) cur spans
    = map (block_of fc) (groups limit gap cur spans).
Proof.
  revert cur; induction spans as [|e rest IH]; intros cur Hc; cbn [coalesce groups].
  - destruct cur; [done|]. done.
  - assert (is_nil cur = false) as -> by (by destruct cur). cbn [negb andb orb].
    fold (group_fits limit gap cur e). destruct (group_fits limit gap cur e); cbn [negb map].
    + rewrite <- IH by (by destruct cur). by rewrite group_end_snoc, group_start_snoc.
    + f_equal. by rewrite <- IH.
Qed.

Lemma coalesce_first fc limit gap e rest :
  coalesce fc limit gap (e_addr e) (e_addr e) [] (e :: rest) =
  coalesce fc limit gap (e_addr e) (Z.max (e_addr e) (e_end e)) [e] rest.
Proof. done. Qed.

Lemma groups_concat limit gap cur spans : concat (groups limit gap cur spans) = cur ++ spans.
Proof.
  revert cur; induction spans as [|e rest IH]; intros cur; cbn [groups]; [simpl; by rewrite app_nil_r|].
  destruct (group_fits limit gap cur e); simpl; rewrite IH; by rewrite <- ?app_assoc.
Qed.

Lemma group_end_ge g e : e ∈ g -> e_end e <= group_end g.
Proof.
  destruct g as [|x t]; [by inversion 1|]. simpl. revert x; induction t as [|y t IH]; intros x He; simpl.
  - apply list_elem_of_singleton in He as ->. lia.
  - apply elem_of_cons in He as [->|He]; [|apply elem_of_cons in He as [->|He]]; [|lia|].
    + specialize (IH x ltac:(by left)). lia.
    + specialize (IH x ltac:(by right)). lia.
Qed.

Lemma group_end_elem g : g <> [] -> exists e, e ∈ g /\ group_end g = e_end e.
Proof.
  destruct g as [|x t]; [done|]. intros _. simpl. induction t as [|y t (e & He & E)]; simpl.
  - exists x. split; [by left|done].
  - destruct (Z.max_spec (e_end y) (foldr (fun x m => Z.max (e_end x) m) (e_end x) t)) as [[_ ->]|[_ ->]].
    + exists e. split; [|done]. apply elem_of_cons in He as [->|He]; [by left|by right; right].
    + exists y. split; [by right; left|done].
Qed.

(** An invariant of the current group, kept by every accepted tag, holds of
    every group of the partition. *)
Lemma groups_Forall (Q : entry -> Prop) (P : list entry -> Prop) limit gap cur spans :
  (forall e, Q e -> P [e]) ->
  (forall g e, g <> [] -> P g -> Q e -> group_fits limit gap g e = true -> P (g ++ [e])) ->
  cur <> [] -> P cur -> Forall Q spans -> Forall P (groups limit gap cur spans).
Proof.
  intros H1 H2 Hc Hp Hq. revert cur Hc Hp; induction Hq as [|e rest He Hr IH]; intros cur Hc Hp; simpl.
  - by repeat constructor.
  - destruct (group_fits limit gap cur e) eqn:F.
    + apply IH; [by destruct cur|]. by apply H2.
    + constructor; [done|]. apply IH; [done|]. by apply H1.
Qed.

Lemma group_fits_true limit gap g e :
  group_fits limit gap g e = true <->
  Z.max (group_end g) (e_end e) - group_start g <= limit /\ e_addr e - group_end g <= gap.
Proof. unfold group_fits. rewrite andb_true_iff, !Z.leb_le. done. Qed.

(** Width: a group of several tags stays within the limit. *)
Definition group_width_ok (limit : Z) (g : list entry) : Prop :=
  g <> [] /\ (length g = 1%nat \/ group_end g - group_start g <= limit).

Lemma groups_width limit gap cur spans :
  group_width_ok limit cur -> Forall (group_width_ok limit) (groups limit gap cur spans).
Proof.
  intros [Hc Hw]. apply (groups_Forall (fun _ => True)); [by split; [|left]| |done|by split|by apply Forall_true].
  intros g e Hg _ _ F. apply group_fits_true in F as [F _]. split; [by destruct g|].
  right. by rewrite group_end_snoc, group_start_snoc.
Qed.

(** Density: with no gap allowed every address of the group belongs to a tag. *)
Definition group_dense (g : list entry) : Prop :=
  forall a, group_start g <= a < group_end g -> exists e, e ∈ g /\ e_addr e <= a < e_end e.

Lemma groups_dense limit gap cur spans :
  gap <= 0 -> cur <> [] -> group_dense cur -> Forall group_dense (groups limit gap cur spans).
Proof.
  intros Hgap Hc Hd. apply (groups_Forall (fun _ => True)); [| |done|done|by apply Forall_true].
  - intros e _ a Ha. exists e. split; [by left|exact Ha].
  - intros g e Hg Dg _ F a. apply group_fits_true in F as [_ F].
    rewrite group_end_snoc, group_start_snoc by done. intros Ha.
    destruct (Z.lt_ge_cases a (group_end g)).
    + destruct (Dg a ltac:(lia)) as (x & Hx & Hxa). exists x. split; [by apply elem_of_app; left|done].
    + exists e. split; [apply elem_of_app; right; by left|]. lia.
Qed.

(** The address order of the sorted list. *)
Definition addr_sorted (l : list entry) : Prop := StronglySorted (fun x y => e_addr x <= e_addr y) l.

Lemma addr_sorted_head g e : addr_sorted g -> e ∈ g -> group_start g <= e_addr e.
Proof.
  destruct g as [|x t]; [by inversion 2|]. inversion 1; subst. intros He. simpl.
  apply elem_of_cons in He as [->|He]; [lia|].
  by eapply Forall_forall in H3.
Qed.

Lemma addr_sorted_app l1 l2 :
  addr_sorted (l1 ++ l2) ->
  addr_sorted l1 /\ addr_sorted l2 /\ forall x y, x ∈ l1 -> y ∈ l2 -> e_addr x <= e_addr y.
Proof.
  unfold addr_sorted. intros H. split; [by eapply StronglySorted_app_1_l|].
  split; [by eapply StronglySorted_app_1_r|]. intros x y Hx Hy.
  by eapply StronglySorted_app_1_elem_of in H.
Qed.

Lemma groups_sorted gs : addr_sorted (concat gs) -> Forall addr_sorted gs.
Proof.
  induction gs as [|g t IH]; simpl; [constructor|]. intros H.
  apply addr_sorted_app in H as (H1 & H2 & _). constructor; auto.
Qed.

Lemma entry_leb_total x y : entry_leb x y = false -> entry_leb y x = true.
Proof. unfold entry_leb. lia. Qed.
Lemma entry_leb_trans x y z : entry_leb x y = true -> entry_leb y z = true -> entry_leb x z = true.
Proof. unfold entry_leb. lia. Qed.

Lemma sorted_entries_addr l : addr_sorted (py_sorted entry_leb l).
Proof.
  unfold addr_sorted.
  assert (StronglySorted entry_leb (py_sorted entry_leb l)) as S
    by (apply py_sorted_strongly; [apply entry_leb_total|apply entry_leb_trans]).
  induction S as [|x t S IH F]; constructor; [done|]. eapply Forall_impl; [exact F|].
  intros y Hy. simpl in Hy. apply Is_true_true in Hy. unfold entry_leb in Hy. lia.
Qed.

Lemma register_count_range dt n : register_count dt = Ok n -> 1 <= n <= 4.
Proof.
  unfold register_count. destruct (TYPE_SPEC dt) as [[f k]|] eqn:E; [|done]. intros [= <-].
  revert E. unfold TYPE_SPEC. repeat case_match; intros; simplify_eq; lia.
Qed.
Lemma tag_span_range tag fc n : tag_span tag fc = Ok n -> 1 <= n <= 4.
Proof.
  unfold tag_span. destruct (is_bit_function fc); [intros [= <-]; lia|apply register_count_range].
Qed.

Definition entry_of (fc : FunctionCode) (e : entry) : Prop :=
  e_addr e = tag_address (e_tag e) /\ tag_span (e_tag e) fc = Ok (e_span e).

Lemma make_entries_spec fc tags entries :
  mapM_res (make_entry fc) tags = Ok entries ->
  map e_tag entries = tags /\ Forall (entry_of fc) entries.
Proof.
  intros H. apply mapM_res_ok in H. induction H as [|t e ts es He _ [IH1 IH2]]; [by split|].
  unfold make_entry in He. inv_ok. simpl. split; [by f_equal|]. by constructor.
Qed.

Lemma entry_of_end fc e : entry_of fc e -> e_addr e < e_end e.
Proof. intros [_ H]. apply tag_span_range in H. unfold e_end. lia. Qed.

(** The plan for one function code is the greedy partition of the sorted tags. *)
Lemma plan_one_groups tags fc limit gap blocks :
  plan_one_function_code tags fc limit gap = Ok blocks ->
  exists gs, blocks = map (block_of fc) gs /\ map e_tag (concat gs) ≡ₚ tags /\
    Forall (entry_of fc) (concat gs) /\ addr_sorted (concat gs) /\
    Forall (group_width_ok limit) gs /\ (gap <= 0 -> Forall group_dense gs) /\
    exists e rest, gs = groups limit gap [e] rest.
Proof.
  unfold plan_one_function_code. intros H. inv_ok.
  match goal with H : mapM_res _ _ = Ok ?x |- _ => rename x into entries; apply make_entries_spec in H as [Ht He] end.
  pose proof (sorted_entries_addr entries) as Hs. pose proof (py_sorted_perm entry_leb entries) as Hp.
  destruct (py_sorted entry_leb entries) as [|e rest] eqn:E; [done|]. injection H as <-.
  exists (groups limit gap [e] rest). rewrite groups_concat. simpl app.
  assert (Forall (entry_of fc) (e :: rest)) as He' by (by rewrite Hp).
  pose proof (entry_of_end fc e (Forall_inv He')).
  split.
  { refine (eq_trans (coalesce_first fc limit gap e rest) _). rewrite Z.max_r by lia.
    by apply (coalesce_groups fc limit gap [e] rest). }
  split; [by rewrite Hp, Ht|]. split; [done|]. split; [done|].
  split; [apply groups_width; by split; [|left]|]. split; [|by eexists _, _].
  intros. apply groups_dense; [done|done|]. intros a Ha. exists e. split; [by left|exact Ha].
Qed.

(** ** Partition by function code *)

Lemma group_append_concat fc tag d :
  concat (map snd (group_append fc tag d)) ≡ₚ concat (map snd d) ++ [tag].
Proof.
  induction d as [|[k l] t IH]; simpl; [done|]. destruct (decide (k = fc)); simpl.
  - rewrite <- !app_assoc. f_equiv. by rewrite Permutation_app_comm.
  - by rewrite IH, app_assoc.
Qed.

Lemma partition_concat by_name tags d d' :
  partition_by_function by_name tags d = Ok d' ->
  concat (map snd d') ≡ₚ concat (map snd d) ++ tags.
Proof.
  revert d; induction tags as [|t ts IH]; intros d H; simpl in H; [inv_ok; by rewrite app_nil_r|].
  destruct (by_name (tag_function_code t)) as [fc|]; [|done].
  apply IH in H. by rewrite H, group_append_concat, <- app_assoc.
Qed.

Definition keyed (by_name : string -> option FunctionCode) (kv : FunctionCode * list ModbusTag) : Prop :=
  Forall (fun t => by_name (tag_function_code t) = Some kv.1) kv.2.

Lemma group_append_keyed by_name fc tag d :
  by_name (tag_function_code tag) = Some fc -> Forall (keyed by_name) d ->
  Forall (keyed by_name) (group_append fc tag d).
Proof.
  intros Hf. induction 1 as [|[k l] t H Ht IH]; simpl; [by repeat constructor|].
  destruct (decide (k = fc)) as [->|]; constructor; auto.
  unfold keyed in *. simpl in *. apply Forall_app. split; [done|by repeat constructor].
Qed.

Lemma partition_keyed by_name tags d d' :
  Forall (keyed by_name) d -> partition_by_function by_name tags d = Ok d' -> Forall (keyed by_name) d'.
Proof.
  revert d; induction tags as [|t ts IH]; intros d Hd H; simpl in H; [inv_ok; done|].
  destruct (by_name (tag_function_code t)) as [fc|] eqn:E; [|done].
  eapply IH; [|exact H]. by apply group_append_keyed.
Qed.

Definition block_tag_list (b : ReadBlock) : list ModbusTag := map pt_tag (rb_tags b).

(** Every block of a plan comes from the plan of one function code whose tags
    all carry that function code. *)
Lemma plan_blocks_inv tags by_name mbs gap blocks :
  plan_read_blocks tags by_name mbs gap = Ok blocks ->
  exists parts : list (FunctionCode * list ModbusTag * list ReadBlock),
    blocks = concat (map snd parts) /\
    concat (map (fun p => p.1.2) parts) ≡ₚ tags /\
    Forall (fun p => keyed by_name p.1 /\
      plan_one_function_code p.1.2 p.1.1 (block_limit p.1.1 mbs) gap = Ok p.2) parts.
Proof.
  unfold plan_read_blocks. intros H. inv_ok.
  match goal with H : partition_by_function _ _ _ = Ok ?x |- _ => rename x into d;
    pose proof (partition_concat _ _ _ _ H) as Hc; pose proof (partition_keyed _ _ _ _ (Forall_nil_2 _) H) as Hk end.
  match goal with H : mapM_res _ _ = Ok ?x |- _ => rename x into bss; apply mapM_res_ok in H; rename H into Hm end.
  pose proof (py_sorted_perm fc_leb d) as Hp. rewrite <- Hp in Hk. simpl in Hc. rewrite <- Hp in Hc.
  revert Hc Hk. generalize (py_sorted fc_leb d) Hm. clear. intros s Hm Hc Hk.
  exists (zip s bss). split; [|split].
  - f_equal. clear -Hm. induction Hm; simpl; [done|]. by f_equal.
  - rewrite <- Hc. match goal with |- ?a ≡ₚ ?b => assert (a = b) as ->; [|done] end. f_equal. clear -Hm. induction Hm; simpl; [done|]. by f_equal.
  - clear Hc. induction Hm as [|kv bs s' bss' H1 H2 IH]; simpl; [constructor|].
    apply Forall_cons in Hk as [Hk1 Hk2]. constructor; [by split|by apply IH].
Qed.

Lemma block_of_tags fc g : block_tag_list (block_of fc g) = map e_tag g.
Proof. unfold block_tag_list, block_of, build_block. simpl. by rewrite map_map. Qed.

Lemma plan_tags_perm tags by_name mbs gap blocks :
  plan_read_blocks tags by_name mbs gap = Ok blocks -> concat (map block_tag_list blocks) ≡ₚ tags.
Proof.
  intros H. apply plan_blocks_inv in H as (parts & -> & <- & Hf).
  induction Hf as [|[[fc ts] bs] parts [_ Hp] Hf IH]; simpl; [done|].
  rewrite map_app, concat_app. f_equiv; [|exact IH].
  simpl in Hp. apply plan_one_groups in Hp as (gs & -> & Ht & _). rewrite <- Ht, map_map. simpl.
  clear. induction gs as [|g gs IH]; simpl; [done|]. by rewrite block_of_tags, map_app, IH.
Qed.

(** nothing is dropped or read twice: the tags of a plan's blocks are a
    permutation of the configured tags. *)
Theorem plan_covers_tags tags by_name mbs gap blocks :
  plan_read_blocks tags by_name mbs gap = Ok blocks ->
  concat (map block_tag_list blocks) ≡ₚ tags.
Proof. apply plan_tags_perm. Qed.

Definition demo_tag (n : string) (fc : string) (a : Z) (dt : option string) : ModbusTag :=
  {| tag_name := n; tag_function_code := fc; tag_address := a; tag_data_type := dt;
     tag_word_order := None; tag_byte_order := None; tag_access_opt := None; tag_scaling := None |}.
Definition demo_names (s : string) : option FunctionCode :=
  if String.eqb s "read_coils" then Some READ_COILS
  else if String.eqb s "read_holding_registers" then Some READ_HOLDING_REGISTERS else None.
Definition demo_tags : list ModbusTag :=
  [demo_tag "a" "read_holding_registers" 10 (Some "float32");
   demo_tag "b" "read_coils" 3 None; demo_tag "c" "read_holding_registers" 12 None].
Definition demo_plan : list ReadBlock := Eval vm_compute in
  match plan_read_blocks demo_tags demo_names None 0 with Ok b => b | Raise _ => [] end.

Lemma plan_covers_tags_witness : concat (map block_tag_list demo_plan) ≡ₚ demo_tags.
Proof. apply (plan_covers_tags demo_tags demo_names None 0). vm_compute. reflexivity. Defined.

(** Where a tag's value sits in its block's response. *)
Definition placed_in (b : ReadBlock) (p : PlannedTag) : Prop :=
  tag_span (pt_tag p) (rb_function_code b) = Ok (pt_span p) /\
  rb_address b + pt_offset p = tag_address (pt_tag p) /\
  0 <= pt_offset p /\ pt_offset p + pt_span p <= rb_quantity b.

Lemma block_of_placed fc g :
  Forall (entry_of fc) g -> addr_sorted g -> Forall (placed_in (block_of fc g)) (rb_tags (block_of fc g)).
Proof.
  intros He Hs. unfold block_of, build_block at 2. simpl. apply Forall_map, Forall_forall. intros e Hin.
  pose proof (addr_sorted_head g e Hs Hin). pose proof (group_end_ge g e Hin).
  eapply Forall_forall in He; [|exact Hin]. destruct He as [Ha Hsp].
  unfold placed_in, block_of, build_block, e_end in *. simpl. rewrite <- Ha. split; [done|]. lia.
Qed.

Lemma Forall_concat_groups {A} (P : A -> Prop) (ls : list (list A)) :
  Forall P (concat ls) -> Forall (Forall P) ls.
Proof. by rewrite Forall_concat. Qed.

Lemma plan_one_blocks tags fc limit gap blocks :
  plan_one_function_code tags fc limit gap = Ok blocks ->
  Forall (fun b => rb_function_code b = fc /\ Forall (placed_in b) (rb_tags b) /\ rb_tags b <> [] /\
    (is_batched b = true -> rb_quantity b <= limit)) blocks.
Proof.
  intros H. apply plan_one_groups in H as (gs & -> & _ & He & Hs & Hw & _).
  apply Forall_concat_groups in He. apply groups_sorted in Hs.
  apply Forall_map, Forall_forall. intros g Hg.
  eapply Forall_forall in He; [|exact Hg]. eapply Forall_forall in Hs; [|exact Hg].
  eapply Forall_forall in Hw as [Hne Hw]; [|exact Hg]. simpl.
  split; [done|]. split; [by apply block_of_placed|]. split; [by destruct g|].
  unfold is_batched, block_of, build_block, zlen. simpl. rewrite length_map. intros. lia.
Qed.

Lemma plan_tags_placed tags by_name mbs gap blocks :
  plan_read_blocks tags by_name mbs gap = Ok blocks ->
  Forall (fun b => rb_tags b <> [] /\ Forall (fun p => placed_in b p /\
     by_name (tag_function_code (pt_tag p)) = Some (rb_function_code b)) (rb_tags b)) blocks.
Proof.
  intros H. apply plan_blocks_inv in H as (parts & -> & _ & Hf).
  apply Forall_concat, Forall_map. eapply Forall_impl; [exact Hf|].
  intros [[fc ts] bs] [Hk Hp]. simpl in *.
  pose proof (plan_one_blocks _ _ _ _ _ Hp) as Hb.
  apply plan_one_groups in Hp as (gs & -> & Ht & _). apply Forall_forall. intros b Hin.
  eapply Forall_forall in Hb as (Hfc & Hpl & Hne & _); [|exact Hin]. split; [done|].
  apply Forall_forall. intros p Hp. eapply Forall_forall in Hpl; [|exact Hp]. split; [done|].
  rewrite Hfc. unfold keyed in Hk. simpl in Hk. rewrite <- Ht in Hk.
  apply list_elem_of_fmap in Hin as (g & -> & Hg).
  apply list_elem_of_fmap in Hp as (e & -> & He). simpl.
  eapply Forall_forall in Hk; [exact Hk|]. apply list_elem_of_fmap. exists e. split; [done|].
  apply list_elem_of_In, in_concat. exists g. by split; apply list_elem_of_In.
Qed.

(** C3: every planned tag can be decoded from its block: for each block, each
    tag has the block's function code, its offset is its configured address
    relative to the block, and its registers lie inside the block's quantity. *)
Theorem plan_placement tags by_name mbs gap blocks :
  plan_read_blocks tags by_name mbs gap = Ok blocks ->
  Forall (fun b => rb_tags b <> [] /\ Forall (fun p => placed_in b p /\
     by_name (tag_function_code (pt_tag p)) = Some (rb_function_code b)) (rb_tags b)) blocks.
Proof. apply plan_tags_placed. Qed.

(** A block of one tag asks for exactly that tag's addresses. *)
Lemma plan_single_exact tags by_name mbs gap blocks :
  plan_read_blocks tags by_name mbs gap = Ok blocks ->
  Forall (fun b => forall p, rb_tags b = [p] ->
    rb_address b = tag_address (pt_tag p) /\ rb_quantity b = pt_span p) blocks.
Proof.
  intros H. apply plan_blocks_inv in H as (parts & -> & _ & Hf).
  apply Forall_concat, Forall_map. eapply Forall_impl; [exact Hf|]. intros [[fc ts] bs] [_ Hp]. simpl in *.
  apply plan_one_groups in Hp as (gs & -> & _ & He & _). apply Forall_concat_groups in He.
  rewrite Forall_map. eapply Forall_impl; [exact He|]. intros g Hg p Ep.
  destruct g as [|e [|e' t]]; try discriminate Ep. injection Ep as <-.
  apply Forall_cons in Hg as [[Ha _] _]. simpl. unfold e_end. split; [done|lia].
Qed.

Lemma plan_placement_witness :
  Forall (fun b => rb_tags b <> [] /\ Forall (fun p => placed_in b p /\
     demo_names (tag_function_code (pt_tag p)) = Some (rb_function_code b)) (rb_tags b)) demo_plan.
Proof. apply (plan_placement demo_tags demo_names None 0). vm_compute. reflexivity. Defined.

(** Every configured tag lies inside the device's 16-bit address space. *)
Definition tag_addressable (by_name : string -> option FunctionCode) (t : ModbusTag) : Prop :=
  0 <= tag_address t /\
  forall fc n, by_name (tag_function_code t) = Some fc -> tag_span t fc = Ok n -> tag_address t + n <= 0x10000.

Lemma block_limit_range fc mbs : 1 <= block_limit fc mbs <= max_read_quantity fc.
Proof. pose proof (max_read_quantity_bound fc). unfold block_limit. destruct mbs; lia. Qed.

Lemma block_of_request fc limit g :
  g <> [] -> addr_sorted g -> Forall (entry_of fc) g -> group_width_ok limit g ->
  limit <= max_read_quantity fc ->
  Forall (fun e => 0 <= e_addr e /\ e_end e <= 0x10000) g ->
  read_request_ok fc (rb_address (block_of fc g)) (rb_quantity (block_of fc g)).
Proof.
  intros Hne Hs He [_ Hw] Hl Ha. destruct g as [|x t] eqn:Eg; [done|]. rewrite <- Eg in *.
  assert (x ∈ g) as Hx by (subst; by left).
  pose proof (group_end_ge g x Hx) as G. destruct (group_end_elem g Hne) as (y & Hy & Ey).
  rewrite Forall_forall in He, Ha. pose proof (entry_of_end fc x (He x Hx)).
  pose proof (Ha x Hx). pose proof (Ha y Hy). pose proof (max_read_quantity_bound fc).
  assert (group_start g = e_addr x) as S by (by subst).
  unfold block_of, build_block, read_request_ok. simpl. rewrite S in *. split; [lia|]. split; [|lia].
  destruct Hw as [Hw|Hw]; [|lia].
  assert (y = x) as ->.
  { subst g. destruct t; [|done]. by apply list_elem_of_singleton in Hy. }
  destruct (He x Hx) as [_ Hsp]. apply tag_span_range in Hsp. unfold e_end in *. lia.
Qed.

Lemma plan_requests_ok tags by_name mbs gap blocks :
  plan_read_blocks tags by_name mbs gap = Ok blocks ->
  Forall (tag_addressable by_name) tags ->
  Forall (fun b => read_request_ok (rb_function_code b) (rb_address b) (rb_quantity b) /\
    (is_batched b = true -> rb_quantity b <= block_limit (rb_function_code b) mbs)) blocks.
Proof.
  intros H Ht. apply plan_blocks_inv in H as (parts & -> & Hperm & Hf). rewrite <- Hperm in Ht.
  rewrite Forall_concat, Forall_map in Ht. apply Forall_concat, Forall_map.
  apply Forall_forall. intros [[fc ts] bs] Hin. rewrite Forall_forall in Hf, Ht.
  destruct (Hf _ Hin) as [Hk Hp]. specialize (Ht _ Hin). simpl in *.
  pose proof (plan_one_blocks _ _ _ _ _ Hp) as Hb.
  apply plan_one_groups in Hp as (gs & -> & Hts & He & Hs & Hw & _).
  assert (Forall (fun e => 0 <= e_addr e /\ e_end e <= 0x10000) (concat gs)) as Ha.
  { unfold keyed in Hk. simpl in Hk. rewrite <- Hts, Forall_map in Hk. rewrite <- Hts, Forall_map in Ht.
    rewrite Forall_forall in *. intros e Hx. destruct (He e Hx) as [E1 E2]. destruct (Ht e Hx) as [A1 A2].
    unfold e_end. rewrite E1. split; [done|]. by eapply A2; [apply Hk|]. }
  apply Forall_concat_groups in He, Ha. apply groups_sorted in Hs.
  rewrite Forall_map in Hb |- *. rewrite Forall_forall in *. intros g Hg.
  destruct (Hb g Hg) as (Hfc & _ & Hne & Hlim). rewrite Hfc.
  assert (read_request_ok fc (rb_address (block_of fc g)) (rb_quantity (block_of fc g))) as R.
  { apply (block_of_request fc (block_limit fc mbs)); auto; [by intros ->|].
    pose proof (block_limit_range fc mbs). lia. }
  by split.
Qed.

(** C40: a plan never produces a request the codec refuses or the protocol
    forbids: if every tag lies inside the 16-bit address space then each block
    encodes to a read request, its quantity is at most the function's protocol
    ceiling, and a block of several tags also respects the configured
    [max_block_size]. *)
Theorem plan_requests_encodable tags by_name mbs gap blocks :
  plan_read_blocks tags by_name mbs gap = Ok blocks ->
  Forall (tag_addressable by_name) tags ->
  Forall (fun b =>
    is_ok (encode_read_request (rb_function_code b) (rb_address b) (rb_quantity b)) = true /\
    rb_quantity b <= max_read_quantity (rb_function_code b) /\
    (is_batched b = true -> rb_quantity b <= block_limit (rb_function_code b) mbs)) blocks.
Proof.
  intros H Ht. eapply Forall_impl; [by eapply plan_requests_ok|]. intros b [R L]. simpl in *.
  split; [by apply encode_read_request_accepts|]. split; [|done]. by destruct R as (_ & [_ ?] & _).
Qed.

Lemma plan_requests_encodable_witness :
  Forall (fun b =>
    is_ok (encode_read_request (rb_function_code b) (rb_address b) (rb_quantity b)) = true /\
    rb_quantity b <= max_read_quantity (rb_function_code b) /\
    (is_batched b = true -> rb_quantity b <= block_limit (rb_function_code b) None)) demo_plan.
Proof.
  apply (plan_requests_encodable demo_tags demo_names None 0); [vm_compute; reflexivity|].
  repeat constructor; try (vm_compute; discriminate); intros fc n _ Hn; apply tag_span_range in Hn; simpl; lia.
Defined.

(** with the default gap of 0 a plan never reads an address nobody asked
    for: every address of every block belongs to one of the block's tags. *)
Theorem plan_reads_only_tag_addresses tags by_name mbs gap blocks :
  plan_read_blocks tags by_name mbs gap = Ok blocks -> gap <= DEFAULT_MAX_BLOCK_GAP ->
  Forall (fun b => forall a, rb_address b <= a < rb_address b + rb_quantity b ->
    exists p, p ∈ rb_tags b /\ tag_address (pt_tag p) <= a < tag_address (pt_tag p) + pt_span p) blocks.
Proof.
  intros H Hgap. apply plan_blocks_inv in H as (parts & -> & _ & Hf).
  apply Forall_concat, Forall_map. eapply Forall_impl; [exact Hf|].
  intros [[fc ts] bs] [_ Hp]. simpl in *.
  apply plan_one_groups in Hp as (gs & -> & _ & He & _ & _ & Hd & _). specialize (Hd Hgap).
  apply Forall_concat_groups in He. rewrite Forall_map. rewrite Forall_forall in *. intros g Hg a Ha.
  simpl in Ha. destruct (Hd g Hg a ltac:(lia)) as (e & Hin & Hr).
  pose proof (He g Hg) as Hg'. rewrite Forall_forall in Hg'. destruct (Hg' e Hin) as [E _].
  exists {| pt_tag := e_tag e; pt_offset := e_addr e - group_start g; pt_span := e_span e |}.
  split; [apply list_elem_of_fmap; by exists e|]. simpl. by rewrite <- E.
Qed.

Lemma plan_reads_only_tag_addresses_witness :
  Forall (fun b => forall a, rb_address b <= a < rb_address b + rb_quantity b ->
    exists p, p ∈ rb_tags b /\ tag_address (pt_tag p) <= a < tag_address (pt_tag p) + pt_span p) demo_plan.
Proof.
  apply (plan_reads_only_tag_addresses demo_tags demo_names None 0); [vm_compute; reflexivity|vm_compute; discriminate].
Defined.

(** ** Fewest requests

    Any other way of splitting the tags into reads that obey the same limits
    needs at least as many requests: the first tags of the greedy groups are
    pairwise impossible to put into one allowed read. *)

Section Minimality.
Context (limit gap : Z) (all : list entry).
Hypothesis gap_nonneg : 0 <= gap.

(** [h] and the later [h'] cannot share a read. *)
Definition apart (h h' : entry) : Prop :=
  e_addr h + limit < e_end h' \/
  (e_addr h < e_addr h' /\ forall x, x ∈ all -> e_addr x < e_addr h' -> e_end x + gap < e_addr h').

Definition group_heads (gs : list (list entry)) : list entry := omap head gs.

Definition cur_ok (pre cur : list entry) : Prop :=
  (forall x, x ∈ pre -> e_end x <= group_end cur) /\ group_end cur - group_start cur <= limit.

Lemma cur_ok_new pre cur e :
  cur_ok pre cur -> e_addr e < e_end e -> e_span e <= limit -> group_fits limit gap cur e = false ->
  cur_ok (pre ++ cur) [e].
Proof.
  intros [Hp Hw] He Hs F. unfold group_fits in F. unfold e_end in *. simpl.
  assert (group_end cur <= e_addr e + e_span e) as G by lia.
  split; [|simpl; unfold e_end; lia]. intros x [Hx|Hx]%elem_of_app; simpl; unfold e_end.
  - specialize (Hp x Hx). lia.
  - pose proof (group_end_ge cur x Hx). unfold e_end in *. lia.
Qed.

Lemma boundary_apart pre cur e rest h :
  all = (pre ++ cur) ++ e :: rest -> addr_sorted all -> cur <> [] -> cur_ok pre cur ->
  (forall x, x ∈ all -> e_addr x < e_end x) ->
  group_fits limit gap cur e = false -> e_addr h <= group_start cur -> apart h e.
Proof.
  intros Hall Hs Hne [Hp Hw] Hpos F Hh. unfold apart.
  destruct (Z.ltb_spec (e_addr h + limit) (e_end e)); [by left|]. right.
  unfold group_fits in F. assert (group_end cur + gap < e_addr e) as G by lia.
  destruct cur as [|c t] eqn:Ec; [done|]. rewrite <- Ec in *.
  assert (c ∈ cur) as Hc by (subst cur; by left).
  pose proof (group_end_ge cur c Hc). pose proof (Hpos c ltac:(rewrite Hall; set_solver)).
  assert (group_start cur = e_addr c) by (by subst cur). split; [lia|].
  intros x Hx Hlt. rewrite Hall in Hx, Hs. apply addr_sorted_app in Hs as (_ & Hs & _).
  apply elem_of_app in Hx as [Hx|Hx].
  - apply elem_of_app in Hx as [Hx|Hx]; [specialize (Hp x Hx)|pose proof (group_end_ge cur x Hx)]; lia.
  - pose proof (addr_sorted_head _ x Hs Hx). simpl in *. lia.
Qed.

Lemma heads_apart pre cur spans :
  all = (pre ++ cur) ++ spans -> addr_sorted all -> cur <> [] -> cur_ok pre cur ->
  (forall x, x ∈ all -> e_addr x < e_end x /\ e_span x <= limit) ->
  exists c t tl, cur = c :: t /\ group_heads (groups limit gap cur spans) = c :: tl /\
    (forall h, e_addr h <= group_start cur -> Forall (apart h) tl) /\ StronglySorted apart tl.
Proof.
  intros Hall Hs Hne Hok Hpos. revert pre cur Hall Hne Hok.
  induction spans as [|e rest IH]; intros pre cur Hall Hne Hok; simpl.
  { destruct cur as [|c t]; [done|]. exists c, t, []. repeat split; constructor. }
  destruct (group_fits limit gap cur e) eqn:F.
  - destruct (IH pre (cur ++ [e])) as (c & t & tl & E & H1 & H2 & H3).
    + by rewrite Hall, <- !app_assoc.
    + by destruct cur.
    + destruct Hok as [Hp Hw]. unfold cur_ok. rewrite group_end_snoc, group_start_snoc by done.
      apply group_fits_true in F as [F _]. split; [|done]. intros x Hx. specialize (Hp x Hx). lia.
    + destruct cur as [|c' t']; [done|]. injection E as <- _. exists c', t', tl.
      rewrite group_start_snoc in H2 by done. done.
  - assert (e ∈ all) as He by (rewrite Hall; set_solver). destruct (Hpos e He) as [He1 He2].
    destruct (IH (pre ++ cur) [e]) as (c & t & tl & E & H1 & H2 & H3).
    + by rewrite Hall, <- !app_assoc.
    + done.
    + by apply cur_ok_new.
    + injection E as <- <-. destruct cur as [|c' t'] eqn:Ec; [done|]. rewrite <- Ec in *.
      exists c', t', (e :: tl). split; [done|]. split; [subst cur; simpl; by rewrite H1|]. split.
      * intros h Hh. assert (e_addr c' <= e_addr e) as Hce.
        { pose proof Hs as Hs'. rewrite Hall in Hs'. apply addr_sorted_app in Hs' as (_ & _ & Hs').
          apply Hs'; [subst cur; set_solver|by left]. }
        constructor; [|apply H2; simpl; subst cur; simpl in Hh; lia].
        eapply boundary_apart; eauto. intros x Hx. by apply Hpos.
      * constructor; [done|]. apply H2. simpl. lia.
Qed.

Lemma apart_pigeonhole (hs : list entry) (Q : list (list entry)) :
  StronglySorted apart hs -> (forall h, h ∈ hs -> exists g, g ∈ Q /\ h ∈ g) ->
  (forall g h h', g ∈ Q -> h ∈ g -> h' ∈ g -> ~ apart h h') -> (length hs <= length Q)%nat.
Proof.
  intros S. revert Q; induction S as [|h t S IH F]; intros Q Hin Hq; simpl; [lia|].
  destruct (Hin h ltac:(by left)) as (g & Hg & Hh).
  apply elem_of_Permutation in Hg as [Q' HQ]. rewrite HQ. simpl. apply le_n_S, IH.
  - intros h' Hh'. destruct (Hin h' ltac:(by right)) as (g' & Hg' & Hhg).
    rewrite HQ in Hg'. apply elem_of_cons in Hg' as [->|Hg']; [|by exists g'].
    rewrite Forall_forall in F. exfalso. apply (Hq g h h'); [|done|done|by apply F].
    rewrite HQ. by left.
  - intros g' h1 h2 Hg'. apply Hq. rewrite HQ. by right.
Qed.
End Minimality.

(** A read the limits allow: it is at most [limit] wide, and every tag after
    the first starts within [gap] of the end of an earlier tag. *)
Definition allowed_read (fc : FunctionCode) (limit gap : Z) (es : list entry) : Prop :=
  Forall (entry_of fc) es /\
  (forall x y, x ∈ es -> y ∈ es -> e_end x - e_addr y <= limit) /\
  (forall x y, x ∈ es -> y ∈ es -> e_addr y < e_addr x ->
     exists z, z ∈ es /\ e_addr z < e_addr x /\ e_addr x - e_end z <= gap).

Lemma entry_of_inj fc x y : entry_of fc x -> entry_of fc y -> e_tag x = e_tag y -> x = y.
Proof. destruct x, y. unfold entry_of. simpl. intros [? E1] [? E2] ->. rewrite E1 in E2. congruence. Qed.

Lemma allowed_read_not_apart fc limit gap all es h h' :
  allowed_read fc limit gap es -> (forall x, x ∈ es -> x ∈ all) -> h ∈ es -> h' ∈ es ->
  ~ apart limit gap all h h'.
Proof.
  intros (_ & Hw & Hg) Hin H1 H2 [A|[A1 A2]].
  - specialize (Hw h' h H2 H1). lia.
  - destruct (Hg h' h H2 H1 A1) as (z & Hz & Z1 & Z2). specialize (A2 z (Hin z Hz) Z1). lia.
Qed.

Lemma elem_of_concat_iff {A} (x : A) (ls : list (list A)) : x ∈ concat ls <-> exists g, g ∈ ls /\ x ∈ g.
Proof. rewrite list_elem_of_In, in_concat. split; intros (g & ? & ?); exists g; by rewrite ?list_elem_of_In in *. Qed.

Lemma group_heads_length limit gap cur spans :
  cur <> [] -> length (group_heads (groups limit gap cur spans)) = length (groups limit gap cur spans).
Proof.
  revert cur; induction spans as [|e rest IH]; intros cur Hc; simpl.
  - by destruct cur.
  - destruct (group_fits limit gap cur e); [apply IH; by destruct cur|].
    destruct cur; [done|]. simpl. f_equal. by apply IH.
Qed.

Lemma group_heads_elem h gs : h ∈ group_heads gs -> h ∈ concat gs.
Proof.
  unfold group_heads. rewrite list_elem_of_omap. intros (g & Hg & Hh).
  apply elem_of_concat_iff. exists g. split; [done|]. destruct g; [done|]. injection Hh as <-. by left.
Qed.

(** the plan of a function code uses the fewest read requests: with a
    non-negative gap and a limit no tag exceeds on its own, every other split
    [Q] of the same tags into reads that obey the limit and the gap has at
    least as many reads as the plan has blocks. *)
Theorem plan_one_minimal tags fc limit gap blocks (Q : list (list entry)) :
  plan_one_function_code tags fc limit gap = Ok blocks ->
  0 <= gap ->
  Forall (fun t => forall n, tag_span t fc = Ok n -> n <= limit) tags ->
  map e_tag (concat Q) ≡ₚ tags -> Forall (allowed_read fc limit gap) Q ->
  (length blocks <= length Q)%nat.
Proof.
  intros H Hgap Hsp HQ Hal. apply plan_one_groups in H as (gs & -> & Ht & He & Hs & _ & _ & e & rest & E).
  rewrite length_map. assert (concat gs = e :: rest) as Hc by (by rewrite E, groups_concat).
  rewrite Hc in *. rewrite Forall_forall in Hal. rewrite Forall_forall in He.
  assert (forall x, x ∈ concat Q <-> x ∈ e :: rest) as Hmem.
  { intros x. assert (forall y, y ∈ concat Q -> entry_of fc y) as He'.
    { intros y (g & Hg & Hy)%elem_of_concat_iff. destruct (Hal g Hg) as [Hf _]. rewrite Forall_forall in Hf. auto. }
    assert (forall t, t ∈ map e_tag (concat Q) <-> t ∈ map e_tag (e :: rest)) as Hm by (intros t; by rewrite HQ, Ht).
    specialize (Hm (e_tag x)). rewrite !list_elem_of_fmap in Hm. split; intros Hx.
    - destruct (proj1 Hm) as (y & Ey & Hy); [by exists x|]. by rewrite (entry_of_inj fc x y); auto.
    - destruct (proj2 Hm) as (y & Ey & Hy); [by exists x|]. by rewrite (entry_of_inj fc x y); auto. }
  assert (forall x, x ∈ e :: rest -> e_addr x < e_end x /\ e_span x <= limit) as Hpos.
  { intros x Hx. split; [by eapply entry_of_end, He|]. rewrite <- Ht, Forall_map, Forall_forall in Hsp.
    apply (Hsp x Hx). by apply He. }
  destruct (heads_apart limit gap (e :: rest) Hgap [] [e] rest) as (c & t & tl & Ec & H1 & H2 & H3); [done..| |done|].
  { split; [by inversion 1|]. destruct (Hpos e ltac:(by left)). simpl. unfold e_end. lia. }
  injection Ec as <- <-.
  rewrite E, <- (group_heads_length limit gap [e] rest) by done.
  apply (apart_pigeonhole limit gap (e :: rest)).
  - rewrite H1. constructor; [done|]. apply H2. simpl. lia.
  - intros h Hh. apply elem_of_concat_iff, Hmem. rewrite <- E in Hh. apply group_heads_elem in Hh. by rewrite Hc in Hh.
  - intros g h h' Hg. apply (allowed_read_not_apart fc); [by apply Hal|].
    intros x Hx. apply Hmem, elem_of_concat_iff. by exists g.
Qed.

Definition demo_entry (n : string) (a : Z) (dt : option string) (k : Z) : entry :=
  {| e_addr := a; e_span := k; e_tag := demo_tag n "read_holding_registers" a dt |}.

Lemma plan_one_minimal_witness :
  (length [block_of READ_HOLDING_REGISTERS [demo_entry "a" 10 (Some "float32") 2; demo_entry "c" 12 None 1]] <=
   length [[demo_entry "c" 12 None 1]; [demo_entry "a" 10 (Some "float32") 2]])%nat.
Proof.
  apply (plan_one_minimal [demo_tag "a" "read_holding_registers" 10 (Some "float32");
                           demo_tag "c" "read_holding_registers" 12 None] READ_HOLDING_REGISTERS 125 0).
  - vm_compute. reflexivity.
  - lia.
  - repeat constructor; intros n Hn; apply tag_span_range in Hn; lia.
  - simpl. apply Permutation_swap.
  - repeat constructor; intros x y ->%list_elem_of_singleton ->%list_elem_of_singleton; vm_compute; discriminate.
Defined.
