(* ===== verification/PyDict.v ===== *)
(** * Python dictionaries with string keys and JSON values

    A [dict] keeps its insertion order, which the sources observe (draining
    streams, iterating rules, printing): it is an association list in which a
    key occurs once. *)

From S2P Require Import Prelude PyFloat.

Section Dict.
Context {A : Type}.
Definition dict := list (string * A).

(** [d.get(k)] *)
Fixpoint dict_get (k : string) (d : dict) : option A :=
  match d with [] => None | (k', v) :: t => if decide (k = k') then Some v else dict_get k t end.
Definition dict_mem (k : string) (d : dict) : bool :=
  match dict_get k d with Some _ => true | None => false end.
(** [d[k] = v]: in place for a present key, at the end for a new one. *)
Fixpoint dict_set (k : string) (v : A) (d : dict) : dict :=
  match d with
  | [] => [(k, v)]
  | (k', v') :: t => if decide (k = k') then (k', v) :: t else (k', v') :: dict_set k v t
  end.
(** [d.pop(k, None)] *)
Fixpoint dict_del (k : string) (d : dict) : dict :=
  match d with [] => [] | (k', v') :: t => if decide (k = k') then t else (k', v') :: dict_del k t end.
Definition dict_keys (d : dict) : list string := map fst d.
Definition dict_values (d : dict) : list A := map snd d.
Definition dict_wf (d : dict) : Prop := NoDup (dict_keys d).

Lemma dict_get_set_eq k v d : dict_get k (dict_set k v d) = Some v.
Proof. induction d as [|[k' v'] t IH]; simpl; [by rewrite decide_True|]. repeat (case_decide; simpl); done. Qed.
Lemma dict_get_set_ne k k' v d : k <> k' -> dict_get k (dict_set k' v d) = dict_get k d.
Proof.
  intros N. induction d as [|[j w] t IH]; simpl; [by rewrite decide_False|].
  case_decide; simpl; subst; [by rewrite !decide_False|]. by rewrite IH.
Qed.
Lemma dict_get_set k k' v d : dict_get k (dict_set k' v d) = if decide (k = k') then Some v else dict_get k d.
Proof. case_decide; subst; [apply dict_get_set_eq|by apply dict_get_set_ne]. Qed.

Lemma dict_keys_set_present k v d : is_Some (dict_get k d) -> dict_keys (dict_set k v d) = dict_keys d.
Proof.
  induction d as [|[j w] t IH]; simpl; [by intros []|]. case_decide; simpl; [done|]. intros G. f_equal. by apply IH.
Qed.
Lemma dict_keys_set_absent k v d : dict_get k d = None -> dict_keys (dict_set k v d) = dict_keys d ++ [k].
Proof.
  induction d as [|[j w] t IH]; simpl; [done|]. case_decide; simpl; [done|]. intros G. f_equal. by apply IH.
Qed.
Lemma dict_get_elem k d : is_Some (dict_get k d) <-> k ∈ dict_keys d.
Proof.
  induction d as [|[j w] t IH]; simpl; [split; [by intros []|by inversion 1]|].
  case_decide as D; subst; [split; [by left|by eexists]|]. rewrite IH. set_solver.
Qed.
Lemma dict_get_none k d : dict_get k d = None <-> k ∉ dict_keys d.
Proof. rewrite <- dict_get_elem, <- eq_None_not_Some. done. Qed.
Lemma dict_wf_set k v d : dict_wf d -> dict_wf (dict_set k v d).
Proof.
  unfold dict_wf. intros W. destruct (dict_get k d) eqn:E.
  - rewrite dict_keys_set_present; [done|]. by eexists.
  - rewrite dict_keys_set_absent by done. apply NoDup_app. split; [done|]. split; [|apply NoDup_singleton].
    intros x Hx ->%list_elem_of_singleton. by apply dict_get_none in E.
Qed.
Lemma dict_wf_nil : dict_wf [].
Proof. constructor. Qed.
Lemma dict_get_in k v d : dict_get k d = Some v -> (k, v) ∈ d.
Proof.
  induction d as [|[j w] t IH]; simpl; [done|]. case_decide; [intros [= ->]; subst; by left|]. right. auto.
Qed.
Lemma dict_get_wf k v d : dict_wf d -> dict_get k d = Some v <-> (k, v) ∈ d.
Proof.
  intros W. split; [apply dict_get_in|]. induction d as [|[j w] t IH]; simpl; [by inversion 1|].
  apply NoDup_cons in W as [N W]. intros [[= -> ->]|H]%elem_of_cons; [by rewrite decide_True|].
  rewrite decide_False; [by apply IH|]. intros ->. apply N. apply list_elem_of_fmap. by exists (j, v).
Qed.
Lemma dict_get_del k k' d :
  dict_wf d -> dict_get k (dict_del k' d) = if decide (k = k') then None else dict_get k d.
Proof.
  unfold dict_wf. induction d as [|[j w] t IH]; simpl; [by case_decide|]. intros [N W]%NoDup_cons.
  repeat (case_decide; simpl; subst); try done; try (by rewrite IH, ?decide_True, ?decide_False by done).
  by apply dict_get_none.
Qed.
Lemma dict_keys_del_subseteq k k' d : k' ∈ dict_keys (dict_del k d) -> k' ∈ dict_keys d.
Proof.
  induction d as [|[j w] t IH]; simpl; [done|]. case_decide; [by right|]. simpl.
  intros [->|E]%elem_of_cons; [by left|right; by apply IH].
Qed.
Lemma dict_wf_del k d : dict_wf d -> dict_wf (dict_del k d).
Proof.
  unfold dict_wf. induction d as [|[j w] t IH]; simpl; [done|]. intros [N W]%NoDup_cons. case_decide; [done|].
  simpl. apply NoDup_cons. split; [|by apply IH]. by intros E%dict_keys_del_subseteq.
Qed.
End Dict.
Arguments dict : clear implicits.
#[export] Hint Resolve dict_wf_nil dict_wf_set dict_wf_del : xedge.

(** ** JSON and YAML values *)

Inductive json : Type :=
  | JNull
  | JBool (b : bool)
  | JNum (n : num)
  | JStr (s : string)
  | JList (l : list json)
  | JDict (d : list (string * json)).

(** Python truth value. *)
Definition truthy (j : json) : bool :=
  match j with
  | JNull => false
  | JBool b => b
  | JNum (NInt z) => negb (z =? 0)
  | JNum (NFloat f) => negb (feqb f fzero)
  | JStr s => negb (String.eqb s EmptyString)
  | JList l => negb (bool_decide (length l = 0%nat))
  | JDict d => negb (bool_decide (length d = 0%nat))
  end.
