(* ===== verification/ModbusScheduler.v ===== *)
(** * Write-priority request scheduler (src/xedge/drivers/modbus/scheduler.py)

    One priority queue and one consumer task.  Every segment of the source
    between two suspension points is one event of [step]; an event that the
    current state does not enable gives [None].  The heap of
    [asyncio.PriorityQueue] is its contract: a list kept sorted by
    [(priority, sequence)], from which [get] takes the head.  A request's
    future is named by its sequence number, both being created by [submit].
    Overlapping calls of [stop] are not modelled. *)

From S2P Require Import Prelude.

Module RequestPriority.
Definition WRITE : Z := 0.
Definition READ : Z := 10.
End RequestPriority.

Record QueuedRequest := { priority : Z; sequence : nat }.

#[export] Instance QueuedRequest_eq_dec : EqDecision QueuedRequest.
Proof. solve_decision. Defined.

(** The generated ordering of the dataclass, [coro_factory] and [future]
    excluded. *)
Definition request_leb (x y : QueuedRequest) : bool :=
  (priority x <? priority y) || ((priority x =? priority y) && (Nat.leb (sequence x) (sequence y))).

Section Scheduler.
Context {V : Type}.

Inductive fut := Pending | Cancelled | Done (r : res V).

(** [_consumer_task]: absent, waiting in [queue.get], awaiting the request's
    coroutine, cancelled by [stop] but not finished yet, finished. *)
Inductive consumer :=
  | CNone
  | CIdle
  | CRunning (item : QueuedRequest)
  | CCancelling (item : option QueuedRequest)
  | CEnded.

Record sched := {
  queue : list QueuedRequest;
  counter : nat;
  consumer_task : consumer;
  futures : gmap nat fut;
  (** bookkeeping only: requests whose coroutine was cancelled under them *)
  lost : list nat
}.

Definition init : sched :=
  {| queue := []; counter := 0; consumer_task := CNone; futures := ∅; lost := [] |}.

Definition set_consumer (c : consumer) (s : sched) : sched :=
  {| queue := queue s; counter := counter s; consumer_task := c; futures := futures s; lost := lost s |}.

(** [if not future.done(): future.set_result/set_exception] *)
Definition resolve (r : res V) (f : fut) : fut :=
  match f with Pending => Done r | _ => f end.

Definition start (s : sched) : sched :=
  match consumer_task s with CNone => set_consumer CIdle s | _ => s end.

(** [submit] up to its [await future]. *)
Definition submit (prio : Z) (s : sched) : sched :=
  let item := {| priority := prio; sequence := counter s |} in
  {| queue := sort_insert request_leb item (queue s); counter := S (counter s);
     consumer_task := consumer_task s;
     futures := <[counter s := Pending]> (futures s); lost := lost s |}.

(** The [while not self._queue.empty()] loop of [stop]. *)
Fixpoint fail_all (q : list QueuedRequest) (fs : gmap nat fut) : gmap nat fut :=
  match q with
  | [] => fs
  | item :: rest => fail_all rest (alter (resolve (Raise SchedulerStoppedError)) (sequence item) fs)
  end.

Definition stop_drain (s : sched) : sched :=
  {| queue := []; counter := counter s; consumer_task := CNone;
     futures := fail_all (queue s) (futures s); lost := lost s |}.

(** [stop] up to [await self._consumer_task]; with no consumer it drains at once. *)
Definition stop (s : sched) : option sched :=
  match consumer_task s with
  | CNone => Some (stop_drain s)
  | CIdle => Some (set_consumer (CCancelling None) s)
  | CRunning item => Some (set_consumer (CCancelling (Some item)) s)
  | CCancelling _ | CEnded => None
  end.

(** [_run]: take the next request; a request whose caller gave up is skipped. *)
Definition run_get (s : sched) : option sched :=
  match consumer_task s, queue s with
  | CIdle, item :: rest =>
      let s' := {| queue := rest; counter := counter s; consumer_task := CIdle;
                   futures := futures s; lost := lost s |} in
      match futures s !! sequence item with
      | Some Cancelled => Some s'
      | _ => Some (set_consumer (CRunning item) s')
      end
  | _, _ => None
  end.

(** [_run]: the awaited coroutine returned or raised an [Exception]. *)
Definition run_finish (r : res V) (s : sched) : option sched :=
  match consumer_task s with
  | CRunning item =>
      Some {| queue := queue s; counter := counter s; consumer_task := CIdle;
              futures := alter (resolve r) (sequence item) (futures s); lost := lost s |}
  | _ => None
  end.

(** [_run]: the [CancelledError] of [stop] ends the task.  It is not an
    [Exception], so the handler that would resolve the future is skipped. *)
Definition run_cancelled (s : sched) : option sched :=
  match consumer_task s with
  | CCancelling oi =>
      Some {| queue := queue s; counter := counter s; consumer_task := CEnded; futures := futures s;
              lost := match oi with Some item => sequence item :: lost s | None => lost s end |}
  | _ => None
  end.

Definition stop_finish (s : sched) : option sched :=
  match consumer_task s with CEnded => Some (stop_drain s) | _ => None end.

(** The task awaiting [submit] is cancelled, which cancels its future. *)
Definition caller_cancelled (k : nat) (s : sched) : option sched :=
  match futures s !! k with
  | Some Pending =>
      Some {| queue := queue s; counter := counter s; consumer_task := consumer_task s;
              futures := <[k := Cancelled]> (futures s); lost := lost s |}
  | _ => None
  end.

Inductive event :=
  | EStart | ESubmit (prio : Z) | ERunGet | ERunFinish (r : res V) | ECallerCancelled (k : nat)
  | EStop | ERunCancelled | EStopFinish.

Definition step (s : sched) (e : event) : option sched :=
  match e with
  | EStart => Some (start s)
  | ESubmit p => Some (submit p s)
  | ERunGet => run_get s
  | ERunFinish r => run_finish r s
  | ECallerCancelled k => caller_cancelled k s
  | EStop => stop s
  | ERunCancelled => run_cancelled s
  | EStopFinish => stop_finish s
  end.

Fixpoint run_events (s : sched) (es : list event) : option sched :=
  match es with
  | [] => Some s
  | e :: t => match step s e with Some s' => run_events s' t | None => None end
  end.

Inductive reachable : sched -> Prop :=
  | reach_init : reachable init
  | reach_step s e s' : reachable s -> step s e = Some s' -> reachable s'.

Lemma run_events_reachable s es s' : reachable s -> run_events s es = Some s' -> reachable s'.
Proof.
  revert s; induction es as [|e t IH]; intros s R H; simpl in H; [by simplify_eq|].
  destruct (step s e) eqn:E; [|done]. eapply IH; [by econstructor|done].
Qed.

(** ** Invariant *)

Definition in_flight (c : consumer) : list nat :=
  match c with
  | CRunning i | CCancelling (Some i) => [sequence i]
  | _ => []
  end.

Definition request_lt (x y : QueuedRequest) : Prop :=
  priority x < priority y \/ (priority x = priority y /\ (sequence x < sequence y)%nat).

Definition ids (s : sched) : list nat := map sequence (queue s) ++ in_flight (consumer_task s).

Record inv (s : sched) : Prop := {
  inv_sorted : StronglySorted request_lt (queue s);
  inv_nodup : NoDup (ids s ++ lost s);
  inv_fresh : forall k, k ∈ ids s ++ lost s -> (k < counter s)%nat;
  inv_dom : forall k, is_Some (futures s !! k) <-> (k < counter s)%nat;
  inv_unserved : forall k r, futures s !! k = Some (Done r) -> k ∉ ids s;
  inv_pending : forall k, futures s !! k = Some Pending -> k ∈ ids s ++ lost s
}.

Lemma sort_insert_lt x l :
  StronglySorted request_lt l -> (forall y, y ∈ l -> sequence y <> sequence x) ->
  StronglySorted request_lt (sort_insert request_leb x l).
Proof.
  induction 1 as [|y t S IH F]; intros Hx; simpl; [by repeat constructor|].
  pose proof (Hx y ltac:(by left)) as Hy.
  destruct (request_leb x y) eqn:E; unfold request_leb in E.
  - apply orb_true_iff in E. rewrite andb_true_iff, Z.ltb_lt, Z.eqb_eq, Nat.leb_le in E.
    assert (request_lt x y) as H by (unfold request_lt; lia). constructor; [by constructor|].
    constructor; [done|]. eapply Forall_impl; [exact F|]. unfold request_lt in *. intros z Hz. lia.
  - apply orb_false_iff in E. rewrite andb_false_iff, Z.ltb_ge, Z.eqb_neq, Nat.leb_gt in E.
    assert (request_lt y x) by (unfold request_lt; lia). constructor; [apply IH; intros; apply Hx; by right|].
    apply Forall_forall. intros z Hz. rewrite sort_insert_perm in Hz.
    apply elem_of_cons in Hz as [->|Hz]; [done|]. by eapply Forall_forall in F.
Qed.

Lemma fail_all_lookup q fs k :
  fail_all q fs !! k =
  if decide (k ∈ map sequence q) then resolve (Raise SchedulerStoppedError) <$> fs !! k else fs !! k.
Proof.
  revert fs; induction q as [|i t IH]; intros fs; cbn [fail_all map].
  - case_decide as D; [by apply elem_of_nil in D|done].
  - rewrite IH. destruct (decide (k = sequence i)) as [->|N].
    + rewrite lookup_alter_eq. case_decide as D1; case_decide as D2; [|destruct D2; by left|done|destruct D2; by left].
      by destruct (fs !! sequence i) as [[]|].
    + rewrite lookup_alter_ne by done. case_decide as D1; case_decide as D2; [done| | |done].
      * destruct D2. by right.
      * by apply elem_of_cons in D2 as [?|?].
Qed.

(** A step that creates no request keeps the bookkeeping part of the
    invariant; what remains concerns the futures. *)
Lemma inv_update s s' :
  inv s -> StronglySorted request_lt (queue s') -> ids s' ++ lost s' ⊆+ ids s ++ lost s ->
  counter s' = counter s -> (forall k, is_Some (futures s' !! k) <-> is_Some (futures s !! k)) ->
  (forall k r, futures s' !! k = Some (Done r) -> k ∉ ids s') ->
  (forall k, futures s' !! k = Some Pending -> k ∈ ids s' ++ lost s') -> inv s'.
Proof.
  intros I Hs Hsub Hc Hd Hu Hp. constructor; auto.
  - apply submseteq_Permutation in Hsub as [k Hk]. pose proof (inv_nodup s I) as N. rewrite Hk in N.
    by apply NoDup_app in N as [N _].
  - intros k Hk. rewrite Hc. apply (inv_fresh s I). by eapply elem_of_submseteq.
  - intros k. rewrite Hd, Hc. apply (inv_dom s I).
Qed.

(** Futures left alone. *)
Lemma inv_same_futures s s' :
  inv s -> StronglySorted request_lt (queue s') -> counter s' = counter s -> futures s' = futures s ->
  ids s' ++ lost s' ≡ₚ ids s ++ lost s -> (forall k, k ∈ ids s' -> k ∈ ids s) -> inv s'.
Proof.
  intros I Hs Hc Hf Hp Hi. apply (inv_update s); auto.
  - by rewrite Hp.
  - by rewrite Hf.
  - intros k r Hk Hin. rewrite Hf in Hk. by eapply (inv_unserved s I), Hi.
  - intros k Hk. rewrite Hf in Hk. rewrite Hp. by apply (inv_pending s I).
Qed.

Lemma inv_set_consumer c s :
  inv s -> in_flight c = in_flight (consumer_task s) -> inv (set_consumer c s).
Proof.
  intros I E. assert (ids (set_consumer c s) = ids s) as Ei by (unfold ids; simpl; by rewrite E).
  apply (inv_same_futures s); simpl; rewrite ?Ei; auto. apply (inv_sorted s I).
Qed.

Lemma inv_submit p s : inv s -> inv (submit p s).
Proof.
  intros I. assert (ids (submit p s) ≡ₚ counter s :: ids s) as E.
  { unfold ids, submit. simpl. by rewrite sort_insert_perm. }
  assert (counter s ∉ ids s ++ lost s) as Hn by (intros H; apply (inv_fresh s I) in H; lia).
  constructor.
  - simpl. apply sort_insert_lt; [apply (inv_sorted s I)|]. intros y Hy Ey. apply Hn. simpl in Ey. rewrite <- Ey.
    apply elem_of_app; left. apply elem_of_app; left. apply list_elem_of_fmap. by exists y.
  - simpl. rewrite E. simpl. constructor; [done|]. apply (inv_nodup s I).
  - intros k. rewrite E. simpl. intros [->|H]%elem_of_cons; [lia|]. apply (inv_fresh s I) in H. lia.
  - intros k. simpl. pose proof (inv_dom s I k). destruct (decide (k = counter s)) as [->|].
    + rewrite lookup_insert_eq. split; [lia|by eexists].
    + rewrite lookup_insert_ne by done. rewrite H. lia.
  - intros k r. simpl. rewrite E. destruct (decide (k = counter s)) as [->|]; [by rewrite lookup_insert_eq|].
    rewrite lookup_insert_ne by done. intros H%(inv_unserved s I). set_solver.
  - intros k. simpl. rewrite E. destruct (decide (k = counter s)) as [->|]; [by left|].
    rewrite lookup_insert_ne by done. intros H%(inv_pending s I). by right.
Qed.

Lemma inv_stop_drain s : inv s -> in_flight (consumer_task s) = [] -> inv (stop_drain s).
Proof.
  intros I E. apply (inv_update s); simpl; auto.
  - constructor.
  - unfold ids. simpl. by apply submseteq_inserts_l.
  - intros k. rewrite fail_all_lookup. case_decide; [|done]. by rewrite fmap_is_Some.
  - intros k r _. unfold ids. simpl. set_solver.
  - intros k. rewrite fail_all_lookup. unfold ids. simpl. case_decide as D.
    + destruct (futures s !! k) as [[]|]; done.
    + intros H%(inv_pending s I). unfold ids in H. rewrite E, app_nil_r in H. set_solver.
Qed.

Lemma inv_run_get s s' : inv s -> run_get s = Some s' -> inv s'.
Proof.
  unfold run_get. intros I H. destruct (consumer_task s) eqn:C; try done.
  destruct (queue s) as [|item rest] eqn:Q; [done|].
  pose proof (inv_sorted s I) as S. rewrite Q in S. apply StronglySorted_inv in S as [S _].
  assert (ids s = sequence item :: map sequence rest) as E.
  { unfold ids. by rewrite Q, C, app_nil_r. }
  assert (futures s !! sequence item = Some Cancelled \/ futures s !! sequence item <> Some Cancelled) as [F|F]
    by (destruct (futures s !! sequence item) as [[]|]; auto; by right).
  - rewrite F in H. injection H as <-. apply (inv_update s); simpl; auto.
    + unfold ids at 1. simpl. rewrite app_nil_r, E. simpl. by apply submseteq_cons.
    + intros k r Hk%(inv_unserved s I). rewrite E in Hk. unfold ids. simpl. rewrite app_nil_r. set_solver.
    + intros k Hk. pose proof (inv_pending s I k Hk) as Hi. rewrite E in Hi. unfold ids. simpl.
      rewrite app_nil_r. simpl in Hi. apply elem_of_cons in Hi as [->|]; [congruence|done].
  - assert (s' = set_consumer (CRunning item) {| queue := rest; counter := counter s; consumer_task := CIdle;
       futures := futures s; lost := lost s |}) as ->
      by (destruct (futures s !! sequence item) as [[]|]; congruence).
    assert (ids (set_consumer (CRunning item) {| queue := rest; counter := counter s; consumer_task := CIdle;
       futures := futures s; lost := lost s |}) ≡ₚ ids s) as Ei.
    { rewrite E. unfold ids. simpl. by rewrite Permutation_app_comm. }
    apply (inv_same_futures s); simpl; auto; [by rewrite Ei|intros k; by rewrite Ei].
Qed.

Lemma inv_run_finish r s s' : inv s -> run_finish r s = Some s' -> inv s'.
Proof.
  unfold run_finish. intros I H. destruct (consumer_task s) as [| |item| |] eqn:C; try done. injection H as <-.
  assert (ids s = map sequence (queue s) ++ [sequence item]) as E by (unfold ids; by rewrite C).
  pose proof (inv_nodup s I) as N. rewrite E, <- app_assoc in N.
  apply NoDup_app in N as (_ & N & _). assert (sequence item ∉ map sequence (queue s)) as Hi.
  { intros Hin. apply (N _ Hin). set_solver. }
  apply (inv_update s); simpl; auto.
  - apply (inv_sorted s I).
  - rewrite E. unfold ids. simpl. rewrite app_nil_r, <- app_assoc. simpl. apply submseteq_app; [done|]. by apply submseteq_cons.
  - intros k. destruct (decide (k = sequence item)) as [->|]; [rewrite lookup_alter_eq; by rewrite fmap_is_Some|].
    by rewrite lookup_alter_ne.
  - intros k r'. unfold ids. simpl. rewrite app_nil_r. destruct (decide (k = sequence item)) as [->|]; [done|].
    rewrite lookup_alter_ne by done. intros Hk%(inv_unserved s I). rewrite E in Hk. set_solver.
  - intros k. unfold ids. simpl. rewrite app_nil_r. destruct (decide (k = sequence item)) as [->|].
    + rewrite lookup_alter_eq. by destruct (futures s !! sequence item) as [[]|].
    + rewrite lookup_alter_ne by done. intros Hk%(inv_pending s I). rewrite E in Hk. set_solver.
Qed.

Lemma inv_run_cancelled s s' : inv s -> run_cancelled s = Some s' -> inv s'.
Proof.
  unfold run_cancelled. intros I H. destruct (consumer_task s) as [| | |oi|] eqn:C; try done. injection H as <-.
  apply (inv_same_futures s); simpl; auto.
  - apply (inv_sorted s I).
  - unfold ids. simpl. rewrite C, app_nil_r. destruct oi; simpl; [by rewrite <- app_assoc|by rewrite app_nil_r].
  - unfold ids. simpl. rewrite C. set_solver.
Qed.

Lemma inv_caller_cancelled k s s' : inv s -> caller_cancelled k s = Some s' -> inv s'.
Proof.
  unfold caller_cancelled. intros I H. destruct (futures s !! k) as [[]|] eqn:F; try done. injection H as <-.
  apply (inv_update s); simpl; auto.
  - apply (inv_sorted s I).
  - intros j. destruct (decide (j = k)) as [->|]; [rewrite lookup_insert_eq, F|by rewrite lookup_insert_ne].
    split; intros _; by eexists.
  - intros j r. destruct (decide (j = k)) as [->|]; [by rewrite lookup_insert_eq|].
    rewrite lookup_insert_ne by done. apply (inv_unserved s I).
  - intros j. destruct (decide (j = k)) as [->|]; [by rewrite lookup_insert_eq|].
    rewrite lookup_insert_ne by done. apply (inv_pending s I).
Qed.

Lemma inv_stop s s' : inv s -> stop s = Some s' -> inv s'.
Proof.
  unfold stop. intros I H. destruct (consumer_task s) eqn:C; try done; injection H as <-.
  - apply inv_stop_drain; [done|by rewrite C].
  - apply inv_set_consumer; [done|by rewrite C].
  - apply inv_set_consumer; [done|by rewrite C].
Qed.

Lemma inv_step s e s' : inv s -> step s e = Some s' -> inv s'.
Proof.
  intros I. destruct e; simpl.
  - intros [= <-]. unfold start. destruct (consumer_task s) eqn:C; try done.
    apply inv_set_consumer; [done|by rewrite C].
  - intros [= <-]. by apply inv_submit.
  - by apply inv_run_get.
  - by apply inv_run_finish.
  - by apply inv_caller_cancelled.
  - by apply inv_stop.
  - by apply inv_run_cancelled.
  - unfold stop_finish. destruct (consumer_task s) eqn:C; try done. intros [= <-].
    apply inv_stop_drain; [done|by rewrite C].
Qed.

Lemma reachable_inv s : reachable s -> inv s.
Proof.
  induction 1 as [|s e s' _ I E]; [|by eapply inv_step].
  constructor; unfold ids; simpl; try (by constructor); try set_solver.
  intros k. rewrite lookup_empty. split; [by intros []|lia].
Qed.

(** ** Serving the queue *)

Definition is_cancelled (o : option fut) : bool := match o with Some Cancelled => true | _ => false end.

(** The consumer loop run for [n] requests, [outcome] standing for what each
    request's coroutine returns or raises; also the requests it executed. *)
Fixpoint serve (outcome : QueuedRequest -> res V) (n : nat) (s : sched) : option (sched * list QueuedRequest) :=
  match n with
  | O => Some (s, [])
  | S m =>
      match run_get s with
      | None => None
      | Some s1 =>
          match consumer_task s1 with
          | CRunning item =>
              match run_finish (outcome item) s1 with
              | None => None
              | Some s2 =>
                  match serve outcome m s2 with Some (s3, log) => Some (s3, item :: log) | None => None end
              end
          | _ => serve outcome m s1
          end
      end
  end.

Definition live_requests (s : sched) : list QueuedRequest :=
  List.filter (fun i => negb (is_cancelled (futures s !! sequence i))) (queue s).

Lemma filter_futures_ext q (fs fs' : gmap nat fut) :
  (forall i, i ∈ q -> fs' !! sequence i = fs !! sequence i) ->
  List.filter (fun i => negb (is_cancelled (fs' !! sequence i))) q =
  List.filter (fun i => negb (is_cancelled (fs !! sequence i))) q.
Proof.
  induction q as [|i t IH]; intros H; simpl; [done|]. rewrite (H i) by (by left).
  rewrite IH by (intros; apply H; by right). done.
Qed.

(** One turn of the loop. *)
Lemma serve_cancelled outcome m s item rest :
  consumer_task s = CIdle -> queue s = item :: rest -> futures s !! sequence item = Some Cancelled ->
  serve outcome (S m) s = serve outcome m {| queue := rest; counter := counter s; consumer_task := CIdle;
                                             futures := futures s; lost := lost s |}.
Proof. intros C Q F. cbn [serve]. unfold run_get. by rewrite C, Q, F. Qed.

Definition served (outcome : QueuedRequest -> res V) (item : QueuedRequest) (rest : list QueuedRequest) (s : sched) : sched :=
  {| queue := rest; counter := counter s; consumer_task := CIdle;
     futures := alter (resolve (outcome item)) (sequence item) (futures s); lost := lost s |}.

Lemma serve_live outcome m s item rest :
  consumer_task s = CIdle -> queue s = item :: rest -> is_cancelled (futures s !! sequence item) = false ->
  serve outcome (S m) s =
  match serve outcome m (served outcome item rest s) with Some (s3, log) => Some (s3, item :: log) | None => None end.
Proof.
  intros C Q F. cbn [serve]. unfold run_get. rewrite C, Q.
  destruct (futures s !! sequence item) as [[]|]; done.
Qed.

Lemma inv_served outcome s item rest :
  inv s -> consumer_task s = CIdle -> queue s = item :: rest ->
  is_cancelled (futures s !! sequence item) = false -> inv (served outcome item rest s).
Proof.
  intros I C Q F.
  set (s1 := set_consumer (CRunning item) {| queue := rest; counter := counter s; consumer_task := CIdle;
              futures := futures s; lost := lost s |}).
  apply (inv_run_finish (outcome item) s1); [|done]. apply (inv_run_get s); [done|].
  unfold run_get. rewrite C, Q. by destruct (futures s !! sequence item) as [[]|].
Qed.

Lemma serve_spec outcome s :
  inv s -> consumer_task s = CIdle ->
  exists s', serve outcome (length (queue s)) s = Some (s', live_requests s) /\
    queue s' = [] /\ consumer_task s' = CIdle /\ counter s' = counter s /\
    (forall i, i ∈ queue s -> futures s !! sequence i = Some Pending ->
       futures s' !! sequence i = Some (Done (outcome i))) /\
    (forall k, k ∉ ids s -> futures s' !! k = futures s !! k).
Proof.
  remember (queue s) as q eqn:Q. revert s Q. induction q as [|item rest IH]; intros s Q I C.
  { exists s. unfold live_requests. rewrite <- Q. repeat split; auto. by inversion 1. }
  symmetry in Q. assert (ids s = map sequence (item :: rest)) as Ei by (unfold ids; by rewrite Q, C, app_nil_r).
  assert (forall i, i ∈ rest -> sequence item <> sequence i) as Hne.
  { pose proof (inv_nodup s I) as N. rewrite Ei in N. simpl in N. apply NoDup_cons in N as [N _].
    intros i Hi E. apply N. rewrite E. apply elem_of_app; left. apply list_elem_of_fmap. by exists i. }
  unfold live_requests. rewrite Q. cbn [length List.filter].
  destruct (is_cancelled (futures s !! sequence item)) eqn:F; cbn [negb].
  - assert (futures s !! sequence item = Some Cancelled) as Fi by (by destruct (futures s !! sequence item) as [[]|]).
    rewrite (serve_cancelled _ _ _ _ _ C Q Fi).
    destruct (IH {| queue := rest; counter := counter s; consumer_task := CIdle; futures := futures s;
                    lost := lost s |}) as (s' & E & Hq & Hc & Hn & Hd & Ho); [done| |done|].
    { apply (inv_run_get s); [done|]. unfold run_get. by rewrite C, Q, Fi. }
    exists s'. split; [exact E|]. split; [done|]. split; [done|]. split; [done|]. split.
    + intros i [->|Hi]%elem_of_cons Hp; [congruence|]. by apply Hd.
    + intros k Hk. apply Ho. unfold ids. simpl. rewrite app_nil_r. rewrite Ei in Hk. set_solver.
  - rewrite (serve_live _ _ _ _ _ C Q F).
    destruct (IH (served outcome item rest s)) as (s' & E & Hq & Hc & Hn & Hd & Ho);
      [done|by apply inv_served|done|].
    assert (ids (served outcome item rest s) = map sequence rest) as Ei2 by (unfold ids; simpl; by rewrite app_nil_r).
    exists s'. rewrite E. split; [|split; [done|split; [done|split; [done|split]]]].
    + do 2 f_equal. f_equal. apply filter_futures_ext. intros i Hi. simpl. by rewrite lookup_alter_ne by auto.
    + intros i [->|Hi]%elem_of_cons Hp.
      * rewrite Ho; [simpl; by rewrite lookup_alter_eq, Hp|]. rewrite Ei2. intros (j & Ej & Hj)%list_elem_of_fmap.
        by apply (Hne j).
      * apply Hd; [done|]. simpl. rewrite lookup_alter_ne by auto. done.
    + intros k Hk. rewrite Ei in Hk. simpl in Hk. rewrite Ho by (rewrite Ei2; set_solver).
      simpl. rewrite lookup_alter_ne; [done|]. set_solver.
Qed.
End Scheduler.
Arguments event : clear implicits.
Arguments sched : clear implicits.

(** writes cut ahead, same-priority requests stay in submission order:
    whenever the consumer starts a request, every request still queued has a
    larger priority number, or the same one and was submitted later; so a read
    never starts while a write is queued. *)
Theorem scheduler_starts_least {V} (s s' : sched V) item :
  reachable s -> run_get s = Some s' -> consumer_task s' = CRunning item ->
  forall j, j ∈ queue s' ->
    request_lt item j /\ (priority item = RequestPriority.READ -> priority j <> RequestPriority.WRITE).
Proof.
  intros R H C j Hj. pose proof (inv_sorted s (reachable_inv s R)) as S. unfold run_get in H.
  destruct (consumer_task s) eqn:Cs; try done. destruct (queue s) as [|i rest]; [done|].
  assert (item = i /\ queue s' = rest) as [-> Eq].
  { destruct (futures s !! sequence i) as [[]|]; injection H as <-; simpl in C; by simplify_eq. }
  rewrite Eq in Hj. apply StronglySorted_inv in S as [_ S]. rewrite Forall_forall in S. specialize (S j Hj).
  split; [done|]. unfold request_lt, RequestPriority.READ, RequestPriority.WRITE in *. lia.
Qed.

Definition demo_events : list (event Z) :=
  [EStart; ESubmit RequestPriority.READ; ESubmit RequestPriority.WRITE].
Definition demo_state : sched Z := default init (run_events init demo_events).
Definition demo_next : sched Z := default init (run_get demo_state).

Lemma demo_state_reachable : reachable demo_state.
Proof. apply (run_events_reachable init demo_events); [constructor|reflexivity]. Qed.

Lemma scheduler_starts_least_witness :
  consumer_task demo_next = CRunning {| priority := 0; sequence := 1 |} /\
  forall j, j ∈ queue demo_next -> request_lt {| priority := 0; sequence := 1 |} j /\
    (0 = RequestPriority.READ -> priority j <> RequestPriority.WRITE).
Proof.
  split; [reflexivity|].
  apply (scheduler_starts_least demo_state demo_next {| priority := 0; sequence := 1 |});
    [apply demo_state_reachable|reflexivity|reflexivity].
Defined.

(** C27: liveness of the consumer loop: from any reachable state with an idle
    consumer, as many turns as there are queued requests empty the queue; the
    requests executed are exactly the queued ones whose caller still waits, in
    [(priority, sequence)] order, and each caller gets the outcome of its own
    coroutine. *)
Theorem scheduler_serves_queue {V} (outcome : QueuedRequest -> res V) (s : sched V) :
  reachable s -> consumer_task s = CIdle ->
  exists s', serve outcome (length (queue s)) s = Some (s', live_requests s) /\
    queue s' = [] /\ consumer_task s' = CIdle /\
    StronglySorted request_lt (live_requests s) /\
    (forall i, i ∈ queue s -> futures s !! sequence i = Some Pending ->
       futures s' !! sequence i = Some (Done (outcome i))) /\
    (forall k, k ∉ ids s -> futures s' !! k = futures s !! k).
Proof.
  intros R C. apply reachable_inv in R as I. destruct (serve_spec outcome s I C) as (s' & E & Q & C' & _ & Hd & Ho).
  exists s'. repeat split; auto. apply StronglySorted_list_filter, (inv_sorted s I).
Qed.

Lemma scheduler_serves_queue_witness :
  exists s', serve (fun i => Ok (priority i)) 2 demo_state = Some (s', live_requests demo_state) /\
    queue s' = [] /\ consumer_task s' = CIdle /\
    StronglySorted request_lt (live_requests demo_state) /\
    (forall i, i ∈ queue demo_state -> futures demo_state !! sequence i = Some Pending ->
       futures s' !! sequence i = Some (Done (Ok (priority i)))) /\
    (forall k, k ∉ ids demo_state -> futures s' !! k = futures demo_state !! k).
Proof.
  apply (scheduler_serves_queue (fun i => Ok (priority i)) demo_state); [apply demo_state_reachable|reflexivity].
Defined.

(** when [stop] completes the queue is empty, no consumer is left, every
    request that was still queued has failed with [SchedulerStoppedError]
    unless its caller had given up, and the only futures still pending are
    those of requests in flight when a consumer was cancelled. *)
Theorem scheduler_stop_fails_queued {V} (s s' : sched V) :
  reachable s -> stop_finish s = Some s' \/ (consumer_task s = CNone /\ stop s = Some s') ->
  queue s' = [] /\ consumer_task s' = CNone /\
  (forall i, i ∈ queue s -> futures s' !! sequence i = Some (Done (Raise SchedulerStoppedError)) \/
                            futures s' !! sequence i = Some Cancelled) /\
  (forall k, futures s' !! k = Some Pending -> k ∈ lost s).
Proof.
  intros R H. assert (s' = stop_drain s /\ in_flight (consumer_task s) = []) as [-> E].
  { unfold stop, stop_finish in H. destruct H as [H|[C H]]; [|rewrite C in *; by injection H as <-].
    destruct (consumer_task s); try done. by injection H as <-. }
  apply reachable_inv in R as I. split; [done|]. split; [done|]. split.
  - intros i Hi. simpl. rewrite fail_all_lookup. assert (sequence i ∈ map sequence (queue s)) as Hs
      by (apply list_elem_of_fmap; by exists i).
    assert (sequence i ∈ ids s) as Hin by (apply elem_of_app; by left).
    rewrite decide_True by done. destruct (proj2 (inv_dom s I (sequence i))) as [f Hf].
    { apply (inv_fresh s I). apply elem_of_app. by left. }
    rewrite Hf. destruct f as [| |r]; simpl; auto. by apply (inv_unserved s I) in Hf.
  - intros k Hk. assert (inv (stop_drain s)) as I' by (by apply inv_stop_drain).
    by apply (inv_pending _ I') in Hk.
Qed.

Definition stopping_state : sched Z := default init (run_events init (demo_events ++ [EStop; ERunCancelled])).
Lemma scheduler_stop_fails_queued_witness :
  queue (stop_drain stopping_state) = [] /\ consumer_task (stop_drain stopping_state) = CNone /\
  (forall i, i ∈ queue stopping_state ->
     futures (stop_drain stopping_state) !! sequence i = Some (Done (Raise SchedulerStoppedError)) \/
     futures (stop_drain stopping_state) !! sequence i = Some Cancelled) /\
  (forall k, futures (stop_drain stopping_state) !! k = Some Pending -> k ∈ lost stopping_state).
Proof.
  apply (scheduler_stop_fails_queued stopping_state); [|by left].
  apply (run_events_reachable init (demo_events ++ [EStop; ERunCancelled])); [constructor|reflexivity].
Defined.

(** a request that was in flight when [stop] cancelled the consumer is
    never answered: from then on its future stays pending through every
    further event of the scheduler, its own caller giving up apart.  (The
    documentation of [SchedulerStoppedError] promises the opposite.) *)
Theorem scheduler_in_flight_request_lost {V} (s : sched V) e s' k :
  reachable s -> k ∈ lost s -> futures s !! k = Some Pending ->
  step s e = Some s' -> e <> ECallerCancelled k ->
  futures s' !! k = Some Pending /\ k ∈ lost s'.
Proof.
  intros R Hl Hp Hs He. apply reachable_inv in R as I.
  assert (k ∉ ids s) as Hn.
  { intros Hin. pose proof (inv_nodup s I) as N. apply NoDup_app in N as (_ & N & _). by apply (N k). }
  assert (k < counter s)%nat as Hc by (apply (inv_fresh s I), elem_of_app; by right).
  assert (futures (stop_drain s) !! k = Some Pending) as Hd.
  { simpl. rewrite fail_all_lookup, decide_False; [done|]. intros Hin. apply Hn, elem_of_app. by left. }
  destruct e; simpl in Hs.
  - injection Hs as <-. unfold start. by destruct (consumer_task s).
  - injection Hs as <-. simpl. by rewrite lookup_insert_ne by lia.
  - unfold run_get in Hs. destruct (consumer_task s); try done. destruct (queue s) as [|i t]; [done|].
    by destruct (futures s !! sequence i) as [[]|]; injection Hs as <-.
  - unfold run_finish in Hs. unfold ids in Hn. destruct (consumer_task s) as [| |i| |]; try done. injection Hs as <-. simpl in *.
    rewrite lookup_alter_ne; [done|]. set_solver.
  - unfold caller_cancelled in Hs. destruct (futures s !! k0) as [[]|]; try done. injection Hs as <-. simpl.
    rewrite lookup_insert_ne; [done|congruence].
  - unfold stop in Hs. destruct (consumer_task s); try done; by injection Hs as <-.
  - unfold run_cancelled in Hs. destruct (consumer_task s) as [| | |oi|]; try done. injection Hs as <-. simpl.
    split; [done|]. destruct oi; [by right|done].
  - unfold stop_finish in Hs. destruct (consumer_task s); try done. by injection Hs as <-.
Qed.

Definition lost_events : list (event Z) := [EStart; ESubmit RequestPriority.WRITE; ERunGet; EStop; ERunCancelled].
Definition lost_state : sched Z := default init (run_events init lost_events).

Lemma scheduler_in_flight_request_lost_witness :
  futures (stop_drain lost_state) !! 0%nat = Some Pending /\ 0%nat ∈ lost (stop_drain lost_state).
Proof.
  apply (scheduler_in_flight_request_lost lost_state EStopFinish); [|by left|reflexivity|reflexivity|discriminate].
  apply (run_events_reachable init lost_events); [constructor|reflexivity].
Defined.
