(* ===== verification/Connectivity.v ===== *)
(** * Connectivity state machine (src/xedge/core/connectivity.py)

    The tracker shared by drivers, gateways and assets.  A timestamp is an
    integer; [clock] is what [datetime.now(UTC)] returns during a call. *)

From S2P Require Import Prelude.

Inductive ConnectivityState := UNKNOWN | CONNECTED | DEGRADED | NOT_CONNECTED.

#[export] Instance ConnectivityState_eq_dec : EqDecision ConnectivityState.
Proof. solve_decision. Defined.

Definition DEFAULT_FAILURE_THRESHOLD : Z := 3.
Definition DEFAULT_RECOVERY_THRESHOLD : Z := 3.

Record ConnectivityTracker := {
  failure_threshold : Z;
  recovery_threshold : Z;
  state : ConnectivityState;
  consecutive_failures : Z;
  consecutive_successes : Z;
  last_failure_reason : option string;
  changed_at : Z
}.

(** [ConnectivityTracker.__init__] *)
Definition make_tracker (clock : Z) (failure_threshold recovery_threshold : Z) : res ConnectivityTracker :=
  raise_if failure_threshold <? 1 with ValueError;
  raise_if recovery_threshold <? 1 with ValueError;
  Ok {| failure_threshold := failure_threshold; recovery_threshold := recovery_threshold;
        state := UNKNOWN; consecutive_failures := 0; consecutive_successes := 0;
        last_failure_reason := None; changed_at := clock |}.

Definition transition (clock : Z) (new_state : ConnectivityState) (now : option Z)
    (t : ConnectivityTracker) : ConnectivityTracker :=
  if decide (new_state = state t) then t
  else {| failure_threshold := failure_threshold t; recovery_threshold := recovery_threshold t;
          state := new_state; consecutive_failures := consecutive_failures t;
          consecutive_successes := consecutive_successes t;
          last_failure_reason := last_failure_reason t;
          changed_at := default clock now |}.

Definition record_success (clock : Z) (now : option Z) (t : ConnectivityTracker) : ConnectivityTracker :=
  let t := {| failure_threshold := failure_threshold t; recovery_threshold := recovery_threshold t;
              state := state t; consecutive_failures := 0;
              consecutive_successes := consecutive_successes t + 1;
              last_failure_reason := last_failure_reason t; changed_at := changed_at t |} in
  match state t with
  | UNKNOWN | DEGRADED => transition clock CONNECTED now t
  | NOT_CONNECTED =>
      if recovery_threshold t <=? consecutive_successes t then transition clock CONNECTED now t else t
  | CONNECTED => t
  end.

Definition record_failure (clock : Z) (now : option Z) (reason : option string)
    (t : ConnectivityTracker) : ConnectivityTracker :=
  let t := {| failure_threshold := failure_threshold t; recovery_threshold := recovery_threshold t;
              state := state t; consecutive_failures := consecutive_failures t + 1;
              consecutive_successes := 0;
              last_failure_reason := reason; changed_at := changed_at t |} in
  match state t with
  | NOT_CONNECTED => t
  | _ =>
      if failure_threshold t <=? consecutive_failures t then transition clock NOT_CONNECTED now t
      else transition clock DEGRADED now t
  end.

(** ** Histories *)

(** One recorded result: [None] a success, [Some reason] a failure. *)
Record observation := { obs_clock : Z; obs_now : option Z; obs_failure : option (option string) }.
Definition obs_ok (o : observation) : bool := match obs_failure o with None => true | Some _ => false end.

Definition observe (t : ConnectivityTracker) (o : observation) : ConnectivityTracker :=
  match obs_failure o with
  | None => record_success (obs_clock o) (obs_now o) t
  | Some reason => record_failure (obs_clock o) (obs_now o) reason t
  end.

(** A history leaves the device down: at some point it had failed [ft] times in
    a row, and no [rt] successes in a row came since. *)
Definition down (ft rt : Z) (h : list bool) : Prop :=
  exists h1 h2, h = h1 ++ h2 /\ ft <= trailing false h1 /\
    forall p, p `prefix_of` h2 -> trailing true (h1 ++ p) < rt.

Lemma down_snoc_failure ft rt h :
  1 <= rt -> down ft rt (h ++ [false]) <-> down ft rt h \/ ft <= trailing false h + 1.
Proof.
  intros Hrt. split.
  - intros (h1 & h2 & E & Hf & Hp). destruct h2 as [|x h2 _] using rev_ind.
    + rewrite app_nil_r in E. subst h1. right. rewrite trailing_snoc in Hf. simpl in Hf. lia.
    + rewrite app_assoc in E. apply app_inj_tail in E as [-> <-]. left. exists h1, h2.
      repeat split; auto. intros p Hpre. apply Hp. by apply prefix_app_r.
  - intros [(h1 & h2 & -> & Hf & Hp)|H].
    + exists h1, (h2 ++ [false]). split; [by rewrite app_assoc|]. split; [done|].
      intros p Hpre. apply prefix_snoc_inv in Hpre as [Hpre| ->]; [by apply Hp|].
      rewrite app_assoc, trailing_snoc. simpl. lia.
    + exists (h ++ [false]), []. rewrite app_nil_r, trailing_snoc. simpl. repeat split; [lia|].
      intros p ->%prefix_nil_inv. rewrite app_nil_r, trailing_snoc. simpl. lia.
Qed.

Lemma down_snoc_success ft rt h :
  1 <= ft -> down ft rt (h ++ [true]) <-> down ft rt h /\ trailing true h + 1 < rt.
Proof.
  intros Hft. split.
  - intros (h1 & h2 & E & Hf & Hp). destruct h2 as [|x h2 _] using rev_ind.
    + rewrite app_nil_r in E. subst h1. rewrite trailing_snoc in Hf. simpl in Hf. lia.
    + rewrite app_assoc in E. apply app_inj_tail in E as [-> <-]. split.
      * exists h1, h2. repeat split; auto. intros p Hpre. apply Hp. by apply prefix_app_r.
      * specialize (Hp (h2 ++ [true]) ltac:(done)). rewrite app_assoc, trailing_snoc in Hp. simpl in Hp. lia.
  - intros [(h1 & h2 & -> & Hf & Hp) Ht]. exists h1, (h2 ++ [true]). split; [by rewrite app_assoc|].
    split; [done|]. intros p Hpre. apply prefix_snoc_inv in Hpre as [Hpre| ->]; [by apply Hp|].
    rewrite app_assoc, trailing_snoc. simpl. lia.
Qed.

(** What a tracker knows about the history it has seen. *)
Record tracks (ft rt : Z) (h : list bool) (t : ConnectivityTracker) : Prop := {
  tr_ft : failure_threshold t = ft;
  tr_rt : recovery_threshold t = rt;
  tr_fail : consecutive_failures t = trailing false h;
  tr_succ : consecutive_successes t = trailing true h;
  tr_down : state t = NOT_CONNECTED <-> down ft rt h;
  tr_unknown : state t = UNKNOWN <-> h = [];
  tr_connected : state t = CONNECTED -> last h = Some true;
  tr_degraded : state t = DEGRADED -> last h = Some false
}.

Lemma transition_fields clock s now t :
  failure_threshold (transition clock s now t) = failure_threshold t /\
  recovery_threshold (transition clock s now t) = recovery_threshold t /\
  consecutive_failures (transition clock s now t) = consecutive_failures t /\
  consecutive_successes (transition clock s now t) = consecutive_successes t /\
  state (transition clock s now t) = s.
Proof. unfold transition. case_decide; simpl; auto. Qed.

Lemma observe_fields t o :
  failure_threshold (observe t o) = failure_threshold t /\
  recovery_threshold (observe t o) = recovery_threshold t /\
  consecutive_failures (observe t o) = (if obs_ok o then 0 else consecutive_failures t + 1) /\
  consecutive_successes (observe t o) = (if obs_ok o then consecutive_successes t + 1 else 0) /\
  state (observe t o) =
    if obs_ok o then
      match state t with
      | NOT_CONNECTED => if recovery_threshold t <=? consecutive_successes t + 1 then CONNECTED else NOT_CONNECTED
      | _ => CONNECTED
      end
    else
      match state t with
      | NOT_CONNECTED => NOT_CONNECTED
      | _ => if failure_threshold t <=? consecutive_failures t + 1 then NOT_CONNECTED else DEGRADED
      end.
Proof.
  unfold observe, obs_ok. destruct (obs_failure o) as [reason|]; unfold record_failure, record_success; simpl;
    destruct (state t) eqn:S; simpl; repeat case_match; try apply transition_fields; auto.
Qed.

Lemma tracks_observe ft rt h t o :
  1 <= ft -> 1 <= rt -> tracks ft rt h t -> tracks ft rt (h ++ [obs_ok o]) (observe t o).
Proof.
  intros Hft Hrt [F R CF CS D U C G]. destruct (observe_fields t o) as (E1 & E2 & E3 & E4 & E5).
  assert (h ++ [obs_ok o] <> []) as Hne by (by destruct h).
  constructor; [congruence|congruence| | | | | |];
    rewrite ?E3, ?E4, ?E5, ?trailing_snoc, ?last_snoc; destruct (obs_ok o); simpl; try lia; try done.
  - rewrite down_snoc_success, <- D by done. rewrite CS, R.
    destruct (state t) eqn:S; [naive_solver..|].
    destruct (Z.leb_spec rt (trailing true h + 1)); intuition (try done; lia).
  - rewrite down_snoc_failure, <- D by done. rewrite CF, F.
    destruct (state t) eqn:S; [| | |naive_solver];
    destruct (Z.leb_spec ft (trailing false h + 1)); intuition (try done; lia).
  - destruct (state t); [| | |case_match]; naive_solver.
  - destruct (state t); try case_match; naive_solver.
  - destruct (state t); try case_match; naive_solver.
  - destruct (state t); try case_match; naive_solver.
Qed.

Lemma tracks_run ft rt clock t0 obs :
  make_tracker clock ft rt = Ok t0 -> tracks ft rt (map obs_ok obs) (fold_left observe obs t0).
Proof.
  unfold make_tracker. intros H. inv_ok.
  induction obs as [|o obs IH] using rev_ind.
  - constructor; simpl; try done. split; [done|]. intros (h1 & h2 & E & Hf & _).
    apply eq_sym, app_nil in E as [-> ->]. unfold trailing in Hf. simpl in Hf. lia.
  - rewrite fold_left_app, map_app. simpl. by apply tracks_observe.
Qed.

(** C28: the state is a function of the history, with asymmetric hysteresis: a
    tracker is [NOT_CONNECTED] exactly when the device once failed
    [failure_threshold] times in a row and has not since succeeded
    [recovery_threshold] times in a row; otherwise it is [UNKNOWN] before the
    first result, [CONNECTED] if the last result was a success and [DEGRADED]
    if it was a failure. *)
Theorem connectivity_state_of_history clock ft rt t0 obs :
  make_tracker clock ft rt = Ok t0 ->
  let t := fold_left observe obs t0 in
  let h := map obs_ok obs in
  (state t = NOT_CONNECTED <-> down ft rt h) /\
  (state t = UNKNOWN <-> h = []) /\
  (state t = CONNECTED <-> ~ down ft rt h /\ last h = Some true) /\
  (state t = DEGRADED <-> ~ down ft rt h /\ last h = Some false).
Proof.
  intros H t h. destruct (tracks_run ft rt clock t0 obs H) as [_ _ _ _ D U C G].
  fold t h in D, U, C, G. split; [done|]. split; [done|]. rewrite <- D.
  destruct (state t) eqn:S; try (pose proof (proj1 U eq_refl) as E; rewrite E); naive_solver.
Qed.

Definition demo_obs (b : bool) : observation :=
  {| obs_clock := 7; obs_now := None; obs_failure := if b then None else Some None |}.
Definition demo_tracker : ConnectivityTracker :=
  {| failure_threshold := 2; recovery_threshold := 3; state := UNKNOWN; consecutive_failures := 0;
     consecutive_successes := 0; last_failure_reason := None; changed_at := 0 |}.

Lemma connectivity_state_of_history_witness :
  let t := fold_left observe (map demo_obs [true; false; false; true; true]) demo_tracker in
  state t = NOT_CONNECTED /\ down 2 3 [true; false; false; true; true].
Proof.
  split; [reflexivity|].
  apply (connectivity_state_of_history 0 2 3 demo_tracker (map demo_obs [true; false; false; true; true]));
    reflexivity.
Defined.
