(* ===== verification/Pipeline.v ===== *)
(** * Tag pipeline (src/xedge/drivers/base.py, src/xedge/core/pipeline.py)

    The data every driver emits and every later stage consumes, the
    normalisation of an update into a [UnifiedTag], and the stateful deadband
    filter.  A [datetime] is its number of microseconds since the epoch. *)

From Stdlib Require Import Floats.SpecFloat.
From S2P Require Import Prelude PyBytes PyFloat PyDict.
Local Open Scope string_scope.
Local Open Scope list_scope.
Local Open Scope Z_scope.

(** ** Driver framework types *)

(** [TagValue = bool | int | float | str | bytes] *)
Inductive TagValue := VBool (b : bool) | VInt (z : Z) | VFloat (f : pfloat) | VStr (s : string) | VBytes (bs : list Z).
#[export] Instance TagValue_eq_dec : EqDecision TagValue.
Proof. solve_decision. Defined.

Inductive Quality := GOOD | UNCERTAIN | BAD.
#[export] Instance Quality_eq_dec : EqDecision Quality.
Proof. solve_decision. Defined.

Record TagUpdate := {
  tu_tag_id : string;
  tu_timestamp : Z;
  tu_value : TagValue;
  tu_quality : Quality;
  tu_source_driver : string;
  tu_source_address : string;
  tu_source_timestamp : option Z;
  tu_metadata : dict json
}.

(** How many updates have a quality. *)
Definition quality_count (q : Quality) (us : list TagUpdate) : Z := count_if (fun u => bool_decide (tu_quality u = q)) us.
Lemma quality_count_cons q u us : quality_count q (u :: us) = (if bool_decide (tu_quality u = q) then 1 else 0) + quality_count q us.
Proof. unfold quality_count, count_if. simpl. destruct (bool_decide _); autorewrite with zlen; lia. Qed.
Lemma quality_count_app q us1 us2 : quality_count q (us1 ++ us2) = quality_count q us1 + quality_count q us2.
Proof. unfold quality_count, count_if. by rewrite List.filter_app, zlen_app. Qed.

Record WriteResult := { wr_success : bool; wr_tag_id : string; wr_error : option exn }.

Record DriverMetrics := {
  tag_read_count : Z;
  error_count : Z;
  reconnect_count : Z;
  last_successful_read : option Z
}.

(** ** Pipeline types *)

Record UnifiedTag := {
  tag_id : string;
  timestamp : Z;
  value : TagValue;
  data_type : string;
  quality : Quality;
  source_driver : string;
  source_address : string;
  engineering_unit : option string;
  is_alarm : bool;
  metadata : dict json
}.

Record ScalingConfig := { scale : num; offset : num }.
Record DeadbandConfig := { kind : string; db_value : num }.
Record TagPipelineConfig := {
  pc_scaling : option ScalingConfig;
  pc_deadband : option DeadbandConfig;
  pc_engineering_unit : option string
}.

(** [_DATA_TYPE_NAMES.get(type(value), "UNKNOWN")]; every [TagValue] is listed. *)
Definition data_type_name (v : TagValue) : string :=
  match v with
  | VBool _ => "BOOL" | VInt _ => "INT64" | VFloat _ => "FLOAT64" | VStr _ => "STRING" | VBytes _ => "BYTES"
  end.

Definition is_scalable (v : TagValue) : bool :=
  match v with VInt _ | VFloat _ => true | _ => false end.

(** [float(value)] of a scalable value. *)
Definition value_float (v : TagValue) : res pfloat :=
  match v with
  | VInt z => float_of_Z z
  | VFloat f => Ok f
  | VBool b => Ok (if b then float_of_Z_raw 1 else fzero)
  | _ => Raise ValueError
  end.

Definition normalize (update : TagUpdate) (config : option TagPipelineConfig) : res UnifiedTag :=
  let '(ts, md) :=
    match tu_source_timestamp update with
    | Some ts => (ts, tu_metadata update)
    | None => (tu_timestamp update, dict_set "timestamp_estimated" (JBool true) (tu_metadata update))
    end in
  let unit := match config with Some c => pc_engineering_unit c | None => None end in
  let* v :=
    match config with
    | Some {| pc_scaling := Some sc |} =>
        if is_scalable (tu_value update) then
          let* x := value_float (tu_value update) in
          let* s := num_float (scale sc) in
          let* o := num_float (offset sc) in
          Ok (VFloat (fadd (fmul x s) o))
        else Ok (tu_value update)
    | _ => Ok (tu_value update)
    end in
  Ok {| tag_id := tu_tag_id update; timestamp := ts; value := v; data_type := data_type_name v;
        quality := tu_quality update; source_driver := tu_source_driver update;
        source_address := tu_source_address update; engineering_unit := unit;
        is_alarm := false; metadata := md |}.

(** Python [==] on tag values: bool, int and float compare by numeric value. *)
Definition bool_int (b : bool) : Z := if b then 1 else 0.
Definition value_eqb (x y : TagValue) : bool :=
  match x, y with
  | VBool a, VBool b => Bool.eqb a b
  | VBool a, VInt b | VInt b, VBool a => bool_int a =? b
  | VBool a, VFloat f | VFloat f, VBool a => int_float_eqb (bool_int a) f
  | VInt a, VInt b => a =? b
  | VInt a, VFloat f | VFloat f, VInt a => int_float_eqb a f
  | VFloat f, VFloat g => feqb f g
  | VStr a, VStr b => String.eqb a b
  | VBytes a, VBytes b => bool_decide (a = b)
  | _, _ => false
  end.

(** ** Deadband filter *)

Abbreviation published := (TagValue * Quality * bool)%type.

(** [DeadbandFilter._should_publish] *)
Definition should_publish_static (tag : UnifiedTag) (prior : option published)
    (deadband : option DeadbandConfig) : res bool :=
  match prior with
  | None => Ok true
  | Some (prior_value, prior_quality, prior_is_alarm) =>
      if negb (bool_decide (prior_quality = quality tag)) || negb (Bool.eqb prior_is_alarm (is_alarm tag))
      then Ok true
      else match deadband with
      | None => Ok (negb (value_eqb (value tag) prior_value))
      | Some db =>
          if negb (is_scalable (value tag)) || negb (is_scalable prior_value)
          then Ok (negb (value_eqb (value tag) prior_value))
          else
            let* x := value_float (value tag) in
            let* p := value_float prior_value in
            let diff := fabs (fsub x p) in
            if String.eqb (kind db) "absolute" then Ok (float_ge_num diff (db_value db))
            else
              let span := fabs p in
              if feqb span fzero then Ok (negb (feqb diff fzero))
              else
                let* q := fdiv diff span in
                Ok (float_ge_num (fmul q (float_of_Z_raw 100)) (db_value db))
      end
  end.

(** [DeadbandFilter]: its [_last_published] dict. *)
Abbreviation DeadbandFilter := (gmap string published).

Definition should_publish (flt : DeadbandFilter) (tag : UnifiedTag) (deadband : option DeadbandConfig)
    : res (bool * DeadbandFilter) :=
  let prior := flt !! tag_id tag in
  let* publish := should_publish_static tag prior deadband in
  Ok (publish, if publish then <[tag_id tag := (value tag, quality tag, is_alarm tag)]> flt else flt).

(** ** Per-tag configuration lookup *)

Record RawDeadband := { rdb_type : string; rdb_value : num }.
Record RawPipelineScaling := { rps_scale : option num; rps_offset : option num }.
Record RawTag := { rt_id : string; rt_scaling : option RawPipelineScaling; rt_engineering_unit : option string }.
Record RawGroup := { rg_deadband : option RawDeadband; rg_tags : option (list RawTag) }.
Record RawDriver := { rd_id : option string; rd_tag_groups : option (list RawGroup) }.

(** [if scaling_raw]: an empty mapping counts as absent. *)
Definition make_scaling (raw : option RawPipelineScaling) : option ScalingConfig :=
  match raw with
  | None | Some {| rps_scale := None; rps_offset := None |} => None
  | Some r => Some {| scale := default (NFloat (float_of_Z_raw 1)) (rps_scale r);
                      offset := default (NFloat fzero) (rps_offset r) |}
  end.

(** [f"{instance_id}/{tag['id']}"], with [None] printed as Python prints it. *)
Definition full_tag_id (instance_id : option string) (tid : string) : string :=
  default "None" instance_id +:+ "/" +:+ tid.

Definition add_tag_config (instance_id : option string) (deadband : option DeadbandConfig)
    (configs : dict TagPipelineConfig) (tag : RawTag) : dict TagPipelineConfig :=
  dict_set (full_tag_id instance_id (rt_id tag))
    {| pc_scaling := make_scaling (rt_scaling tag); pc_deadband := deadband;
       pc_engineering_unit := rt_engineering_unit tag |} configs.

Definition add_group_configs (instance_id : option string) (configs : dict TagPipelineConfig)
    (group : RawGroup) : dict TagPipelineConfig :=
  let deadband := match rg_deadband group with
                  | Some r => Some {| kind := rdb_type r; db_value := rdb_value r |} | None => None end in
  fold_left (add_tag_config instance_id deadband) (default [] (rg_tags group)) configs.

Definition build_tag_pipeline_configs (drivers : list RawDriver) : dict TagPipelineConfig :=
  fold_left (fun configs driver =>
    fold_left (add_group_configs (rd_id driver)) (default [] (rd_tag_groups driver)) configs) drivers [].

(** ** The filter over a stream of samples *)

Section Stream.
Context (cfg : string -> option DeadbandConfig).

(** Samples with the filter's answers. *)
Definition history := list (UnifiedTag * bool).

Fixpoint run_filter (flt : DeadbandFilter) (tags : list UnifiedTag) : res (history * DeadbandFilter) :=
  match tags with
  | [] => Ok ([], flt)
  | t :: rest =>
      let* (p, flt1) := should_publish flt t (cfg (tag_id t)) in
      let* (h, flt2) := run_filter flt1 rest in
      Ok ((t, p) :: h, flt2)
  end.

(** The last sample of [id] that was let through. *)
Definition last_published (id : string) (h : history) : option UnifiedTag :=
  fst <$> last (List.filter (fun e => bool_decide (tag_id e.1 = id) && e.2) h).

Definition summary (t : UnifiedTag) : published := (value t, quality t, is_alarm t).

Lemma last_published_snoc id h t p :
  last_published id (h ++ [(t, p)]) =
  if bool_decide (tag_id t = id) && p then Some t else last_published id h.
Proof.
  unfold last_published. rewrite List.filter_app. simpl.
  destruct (bool_decide (tag_id t = id) && p); simpl; [by rewrite last_snoc|by rewrite app_nil_r].
Qed.

Lemma run_filter_app flt l1 l2 h flt' :
  run_filter flt (l1 ++ l2) = Ok (h, flt') <->
  exists h1 h2 flt1, h = h1 ++ h2 /\ run_filter flt l1 = Ok (h1, flt1) /\ run_filter flt1 l2 = Ok (h2, flt').
Proof.
  revert flt h; induction l1 as [|t l1 IH]; intros flt h; simpl.
  - split; [intros H; by exists [], h, flt|]. by intros (? & ? & ? & -> & [= <- <-] & ?).
  - split.
    + intros H. inv_ok. destruct x as [p f1]. inv_ok. destruct x as [h1 f2]. inv_ok.
      match goal with H : run_filter _ _ = Ok _ |- _ => apply IH in H as (ha & hb & fa & -> & Ha & Hb) end.
      exists ((t, p) :: ha), hb, fa. split; [done|]. split; [|done].
      match goal with H : should_publish _ _ _ = _ |- _ => rewrite H end. simpl. by rewrite Ha.
    + intros (ha & hb & fa & -> & Ha & Hb). inv_ok. destruct x as [p f1]. inv_ok. destruct x as [h1 f2]. inv_ok.
      match goal with H : should_publish _ _ _ = _ |- _ => rewrite H end. simpl.
      assert (run_filter f1 (l1 ++ l2) = Ok (h1 ++ hb, flt')) as ->; [|done].
      apply IH. by exists h1, hb, fa.
Qed.

Lemma run_filter_snoc flt l t h flt' :
  run_filter flt (l ++ [t]) = Ok (h, flt') ->
  exists h1 p flt1, h = h1 ++ [(t, p)] /\ run_filter flt l = Ok (h1, flt1) /\
    should_publish flt1 t (cfg (tag_id t)) = Ok (p, flt').
Proof.
  intros (h1 & h2 & flt1 & -> & H1 & H2)%run_filter_app. simpl in H2. inv_ok.
  destruct x as [p f]. inv_ok. by exists h1, p, flt1.
Qed.

(** What the filter remembers is what was last let through. *)
Lemma filter_remembers l h flt :
  run_filter ∅ l = Ok (h, flt) -> forall id, flt !! id = summary <$> last_published id h.
Proof.
  revert h flt; induction l as [|t l IH] using rev_ind; intros h flt H id.
  - simpl in H. by inv_ok.
  - apply run_filter_snoc in H as (h1 & p & f1 & -> & H1 & H2). specialize (IH _ _ H1).
    unfold should_publish in H2. inv_ok. rewrite last_published_snoc.
    destruct p; simpl; [|by rewrite andb_false_r].
    rewrite andb_true_r. case_bool_decide; subst; [by rewrite lookup_insert_eq|].
    by rewrite lookup_insert_ne.
Qed.

Lemma should_publish_frame flt t db p flt' :
  should_publish flt t db = Ok (p, flt') ->
  (exists v, flt' !! tag_id t = Some (v, quality t, is_alarm t)) /\
  (forall id, id <> tag_id t -> flt' !! id = flt !! id).
Proof.
  unfold should_publish. intros H. inv_ok. destruct p.
  - split; [exists (value t); by rewrite lookup_insert_eq|]. intros id Hid. by rewrite lookup_insert_ne.
  - split; [|done]. match goal with H : should_publish_static _ _ _ = _ |- _ => rename H into S end.
    destruct (flt !! tag_id t) as [[[v q] a]|]; [|done]. unfold should_publish_static in S.
    destruct (_ || _) eqn:E; [done|]. bool_simpl. exists v. subst. do 2 f_equal.
    by apply Bool.eqb_prop.
Qed.

Lemma run_filter_other flt l h flt' id :
  run_filter flt l = Ok (h, flt') -> Forall (fun t => tag_id t <> id) l -> flt' !! id = flt !! id.
Proof.
  revert flt h; induction l as [|t l IH]; intros flt h H F; simpl in H; [by inv_ok|].
  apply Forall_cons in F as [Ht F]. inv_ok. destruct x as [p f1]. inv_ok. destruct x as [h1 f2]. inv_ok.
  erewrite IH by done. match goal with H : should_publish _ _ _ = _ |- _ => apply should_publish_frame in H as [_ ->] end; [done|congruence].
Qed.

Lemma run_filter_samples flt l h flt' : run_filter flt l = Ok (h, flt') -> map fst h = l.
Proof.
  revert flt h; induction l as [|t l IH]; intros flt h H; simpl in H; [by inv_ok|].
  inv_ok. destruct x as [p f1]. inv_ok. destruct x as [h1 f2]. inv_ok. simpl. f_equal. eauto.
Qed.
End Stream.

(** [new] is not significant after [old] under a deadband. *)
Definition within_deadband (db : option DeadbandConfig) (old new : TagValue) : Prop :=
  match db with
  | Some {| kind := k; db_value := d |} =>
      if is_scalable new && is_scalable old then
        exists x p, value_float new = Ok x /\ value_float old = Ok p /\
          let diff := fabs (fsub x p) in
          if String.eqb k "absolute" then float_ge_num diff d = false
          else if feqb (fabs p) fzero then feqb diff fzero = true
          else exists q, fdiv diff (fabs p) = Ok q /\ float_ge_num (fmul q (float_of_Z_raw 100)) d = false
      else value_eqb new old = true
  | None => value_eqb new old = true
  end.

Lemma should_publish_static_false tag old q a db :
  should_publish_static tag (Some (old, q, a)) db = Ok false ->
  q = quality tag /\ a = is_alarm tag /\ within_deadband db old (value tag).
Proof.
  unfold should_publish_static, within_deadband. destruct (_ || _) eqn:E; [done|]. bool_simpl.
  match goal with H : Bool.eqb _ _ = true |- _ => apply Bool.eqb_prop in H as <- end. subst.
  destruct db as [[k d]|]; [|intros [= H]; by apply negb_false_iff in H]. simpl.
  destruct (is_scalable (value tag)); simpl; [|intros [= H]; by apply negb_false_iff in H].
  destruct (is_scalable old); simpl; [|intros [= H]; by apply negb_false_iff in H].
  intros H. inv_ok. split; [done|]. split; [done|]. exists x, x0. split; [done|]. split; [done|].
  destruct (String.eqb k "absolute"); [by injection H|].
  destruct (feqb (fabs x0) fzero); [injection H as H; by apply negb_false_iff in H|].
  inv_ok. by exists x1.
Qed.

(** what the filter suppresses is redundant: a suppressed sample has a
    predecessor of the same tag that was published, the latest published one,
    with the same quality and alarm flag, and the new value lies within the
    tag's deadband of that published value. *)
Theorem deadband_suppresses_redundant cfg tags h flt pre t rest :
  run_filter cfg ∅ tags = Ok (h, flt) -> h = pre ++ (t, false) :: rest ->
  exists s, last_published (tag_id t) pre = Some s /\
    quality s = quality t /\ is_alarm s = is_alarm t /\
    within_deadband (cfg (tag_id t)) (value s) (value t).
Proof.
  intros H ->. pose proof (run_filter_samples _ _ _ _ _ H) as <-. rewrite map_app in H. simpl in H.
  change (fst (t, false) :: ?l) with ([t] ++ l) in H. rewrite cons_middle, app_assoc in H.
  apply run_filter_app in H as (h1 & h2 & f1 & E & H1 & _).
  pose proof (run_filter_samples _ _ _ _ _ H1) as M.
  apply run_filter_snoc in H1 as (h0 & p & f0 & -> & H0 & Hp).
  assert (h0 = pre /\ p = false) as [-> ->].
  { pose proof (run_filter_samples _ _ _ _ _ H0) as M0. rewrite <- app_assoc in E. simpl in E.
    apply app_inj_1 in E as [-> E]; [by injection E as <- _|].
    apply (f_equal length) in M0. by rewrite !length_map in M0. }
  pose proof (filter_remembers _ _ _ _ H0 (tag_id t)) as R. unfold should_publish in Hp. inv_ok.
  rewrite R in *. destruct (last_published (tag_id t) pre) as [s|]; [|done].
  match goal with H : should_publish_static _ _ _ = _ |- _ => apply should_publish_static_false in H as (E1 & E2 & E3) end.
  exists s. done.
Qed.

Definition demo_sample (v : TagValue) (q : Quality) (al : bool) : UnifiedTag :=
  {| tag_id := "d/t"; timestamp := 0; value := v; data_type := data_type_name v; quality := q;
     source_driver := "d"; source_address := "0"; engineering_unit := None; is_alarm := al; metadata := [] |}.
Definition demo_cfg (_ : string) : option DeadbandConfig := Some {| kind := "absolute"; db_value := NInt 5 |}.

Lemma deadband_suppresses_redundant_witness :
  exists s, last_published "d/t" [(demo_sample (VInt 10) GOOD false, true)] = Some s /\
    quality s = GOOD /\ is_alarm s = false /\
    within_deadband (Some {| kind := "absolute"; db_value := NInt 5 |}) (value s) (VInt 13).
Proof.
  eapply (deadband_suppresses_redundant demo_cfg [demo_sample (VInt 10) GOOD false; demo_sample (VInt 13) GOOD false]
    _ _ _ (demo_sample (VInt 13) GOOD false) []).
  - vm_compute. reflexivity.
  - reflexivity.
Defined.

(** quality changes and alarm transitions are never swallowed: of two
    consecutive samples of a tag that differ in quality or in the alarm flag,
    the second is published, whatever the values and the deadband. *)
Theorem deadband_transitions_published cfg tags h flt h1 a pa mid b pb h2 :
  run_filter cfg ∅ tags = Ok (h, flt) ->
  h = h1 ++ (a, pa) :: mid ++ (b, pb) :: h2 ->
  tag_id b = tag_id a -> Forall (fun e => tag_id e.1 <> tag_id a) mid ->
  quality a <> quality b \/ is_alarm a <> is_alarm b ->
  pb = true.
Proof.
  intros H -> Hid Hmid Hd. pose proof (run_filter_samples _ _ _ _ _ H) as <-.
  rewrite map_app in H. simpl in H. rewrite map_app in H. simpl in H.
  apply run_filter_app in H as (g1 & g2 & f1 & E & H1 & H). simpl in H.
  inv_ok. destruct x as [p f2]. inv_ok. destruct x as [g3 f3]. inv_ok.
  match goal with H : run_filter _ f2 _ = _ |- _ => apply run_filter_app in H as (g4 & g5 & f4 & -> & H2 & H3) end.
  simpl in H3. inv_ok. destruct x as [p' f5]. inv_ok. destruct x as [g6 f6]. inv_ok.
  pose proof (run_filter_samples _ _ _ _ _ H1) as M1. pose proof (run_filter_samples _ _ _ _ _ H2) as M2.
  apply app_inj_1 in E as [-> E]; [|apply (f_equal length) in M1; by rewrite !length_map in M1].
  injection E as <- E. apply app_inj_1 in E as [-> E]; [|apply (f_equal length) in M2; by rewrite !length_map in M2].
  injection E as <- _.
  match goal with H : should_publish f1 a _ = _ |- _ => apply should_publish_frame in H as [[v Hv] _] end.
  apply (run_filter_other _ _ _ _ _ (tag_id a)) in H2; [|by rewrite Forall_map]. rewrite Hv in H2.
  match goal with H : should_publish f4 b _ = _ |- _ => unfold should_publish in H; rewrite Hid, H2 in H; rename H into S end.
  inv_ok. match goal with H : should_publish_static _ _ _ = _ |- _ => rename H into S end.
  destruct pb; [done|]. apply should_publish_static_false in S as (E1 & E2 & _). by destruct Hd.
Qed.

Definition demo_second : bool :=
  match run_filter demo_cfg ∅ [demo_sample (VInt 10) GOOD false; demo_sample (VInt 10) BAD false] with
  | Ok ([_; (_, p)], _) => p | _ => false
  end.
Lemma deadband_transitions_published_witness : demo_second = true.
Proof.
  eapply (deadband_transitions_published demo_cfg
    [demo_sample (VInt 10) GOOD false; demo_sample (VInt 10) BAD false] _ _ []
    (demo_sample (VInt 10) GOOD false) _ [] (demo_sample (VInt 10) BAD false) demo_second []).
  - vm_compute. reflexivity.
  - reflexivity.
  - reflexivity.
  - constructor.
  - left. discriminate.
Defined.

Lemma fsub_nan_r x : fsub x S754_nan = S754_nan.
Proof. by destruct x. Qed.
Lemma fdiv_nan : fdiv S754_nan S754_nan = Ok S754_nan.
Proof. reflexivity. Qed.

Lemma nan_prior_suppresses tag db x :
  is_scalable (value tag) = true -> value_float (value tag) = Ok x ->
  should_publish_static tag (Some (VFloat S754_nan, quality tag, is_alarm tag)) (Some db) = Ok false.
Proof.
  intros S V. unfold should_publish_static. rewrite bool_decide_true, Bool.eqb_reflx by done. simpl.
  rewrite S, V. simpl. rewrite fsub_nan_r. destruct (String.eqb (kind db) "absolute"); simpl.
  - by rewrite (proj1 (nan_incomparable _)).
  - by rewrite (proj1 (nan_incomparable _)).
Qed.

(** a published NaN silences a tag that has a deadband: from then on every
    numeric sample with the same quality and alarm flag is suppressed, however
    far it moves. *)
Theorem deadband_nan_sticks cfg flt tags id q al db :
  cfg id = Some db -> flt !! id = Some (VFloat S754_nan, q, al) ->
  Forall (fun t => tag_id t = id /\ quality t = q /\ is_alarm t = al /\ is_scalable (value t) = true /\
                   is_ok (value_float (value t)) = true) tags ->
  run_filter cfg flt tags = Ok (map (fun t => (t, false)) tags, flt).
Proof.
  intros Hc Hf. induction 1 as [|t tags (<- & <- & <- & Hs & Hv) _ IH]; [done|]. simpl.
  destruct (value_float (value t)) as [x|] eqn:V; [|done].
  unfold should_publish. rewrite Hf, Hc, (nan_prior_suppresses t db x Hs V). simpl. by rewrite IH.
Qed.

Lemma deadband_nan_sticks_witness :
  run_filter demo_cfg {["d/t" := (VFloat S754_nan, GOOD, false)]} [demo_sample (VInt 1000000) GOOD false] =
  Ok ([(demo_sample (VInt 1000000) GOOD false, false)], {["d/t" := (VFloat S754_nan, GOOD, false)]}).
Proof.
  apply (deadband_nan_sticks demo_cfg _ [demo_sample (VInt 1000000) GOOD false] "d/t" GOOD false
    {| kind := "absolute"; db_value := NInt 5 |}); [reflexivity|reflexivity|].
  repeat constructor.
Defined.
