(* ===== verification/PyTime.v ===== *)
(** * Python [datetime] and [timedelta] arithmetic

    A [datetime] is an integer number of microseconds since the Unix epoch, a
    [timedelta] an integer number of microseconds: both types have exactly that
    resolution. *)

From Stdlib Require Import Floats.SpecFloat.
From S2P Require Import Prelude PyBytes PyFloat.

Definition us_per_second : Z := 1000000.
Definition us_per_day : Z := 86400 * us_per_second.

(** [datetime.min] and [datetime.max] (UTC). *)
Definition datetime_min : Z := - 62135596800 * us_per_second.
Definition datetime_max : Z := 253402300800 * us_per_second - 1.
Definition timedelta_max_days : Z := 999999999.

Definition check_timedelta (us : Z) : res Z :=
  let days := us / us_per_day in
  raise_if (days <? - timedelta_max_days) || (timedelta_max_days <? days) with OverflowError; Ok us.

(** [timedelta(seconds=s)]: the integral part exactly, the fractional part
    scaled in binary64 and rounded half to even. *)
Definition timedelta_seconds (s : num) : res Z :=
  match s with
  | NInt z => check_timedelta (z * us_per_second)
  | NFloat f =>
      let* whole := trunc f in
      let frac := fsub f (float_of_Z_raw whole) in
      let* us := round_int (fmul frac (float_of_Z_raw us_per_second)) in
      check_timedelta (whole * us_per_second + us)
  end.

(** [datetime + timedelta]; subtraction adds the negated delta. *)
Definition datetime_add (t d : Z) : res Z :=
  let r := t + d in
  raise_if (r <? datetime_min) || (datetime_max <? r) with OverflowError; Ok r.

(** [(t1 - t2).total_seconds()] *)
Definition total_seconds (us : Z) : pfloat := int_truediv us 1000000.

(** [datetime.fromtimestamp(f, tz=UTC)] *)
Definition from_timestamp (f : pfloat) : res Z :=
  let* whole := trunc f in
  let* us := round_int (fmul (fsub f (float_of_Z_raw whole)) (float_of_Z_raw us_per_second)) in
  let r := whole * us_per_second + us in
  raise_if (r <? datetime_min) || (datetime_max <? r) with ValueError; Ok r.

(** [t.isoformat()] of a UTC [datetime]: the proleptic Gregorian date of a day
    count, fields padded to their width, microseconds only when there are any. *)
Definition civil_date (days : Z) : Z * Z * Z :=
  let z := days + 719468 in
  let era := z / 146097 in
  let doe := z mod 146097 in
  let yoe := (doe - doe / 1460 + doe / 36524 - doe / 146096) / 365 in
  let doy := doe - (365 * yoe + yoe / 4 - yoe / 100) in
  let mp := (5 * doy + 2) / 153 in
  let month := if mp <? 10 then mp + 3 else mp - 9 in
  (yoe + era * 400 + (if month <=? 2 then 1 else 0), month, doy - (153 * mp + 2) / 5 + 1).
Fixpoint padded (width : nat) (z : Z) (acc : string) : string :=
  match width with
  | O => acc
  | S w => padded w (z / 10) (String (Ascii.ascii_of_nat (48 + Z.to_nat (z mod 10))) acc)
  end.
Definition isoformat (t : Z) : string :=
  let '(year, month, day) := civil_date (t / us_per_day) in
  let us := t mod us_per_day in
  let secs := us / us_per_second in
  (padded 4 year "" ++ "-" ++ padded 2 month "" ++ "-" ++ padded 2 day "" ++ "T" ++
   padded 2 (secs / 3600) "" ++ ":" ++ padded 2 (secs / 60 mod 60) "" ++ ":" ++ padded 2 (secs mod 60) "" ++
   (if (us mod us_per_second =? 0)%Z then "" else "." ++ padded 6 (us mod us_per_second) "") ++ "+00:00")%string.
Example isoformat_leap_day : isoformat (1709164799 * us_per_second + 5) = "2024-02-28T23:59:59.000005+00:00"%string.
Proof. vm_compute. reflexivity. Qed.
Example isoformat_limits :
  (isoformat datetime_min, isoformat datetime_max) = ("0001-01-01T00:00:00+00:00", "9999-12-31T23:59:59.999999+00:00")%string.
Proof. vm_compute. reflexivity. Qed.

Example timedelta_half : timedelta_seconds (NFloat (S754_finite false 6755399441055744 (-52))) = Ok 1500000.
Proof. vm_compute. reflexivity. Qed.
