(* ===== verification/Alarms.v ===== *)
(** * Alarm engine (src/xedge/core/alarms.py)

    Threshold and rate-of-change detection with acknowledgement and shelving.
    An operation takes the engine and returns the engine it leaves behind with
    its result, so that what a raising call has already changed stays
    changed. *)

From Stdlib Require Import Floats.SpecFloat.
From S2P Require Import Prelude PyBytes PyFloat PyDict PyTime Pipeline.
Local Open Scope string_scope.
Local Open Scope list_scope.
Local Open Scope Z_scope.

Definition ALARM_STREAM_KEY_SUFFIX : string := "::alarm".

Record AlarmRule := {
  ar_tag_id : string;
  high : option num;
  high_high : option num;
  low : option num;
  low_low : option num;
  rate_of_change_per_second : option num
}.

Inductive AlarmState := NORMAL | ACTIVE | ACTIVE_ACKED.
#[export] Instance AlarmState_eq_dec : EqDecision AlarmState.
Proof. solve_decision. Defined.

Record AlarmStatus := {
  as_state : AlarmState;
  as_condition : option string;
  active_since : option Z;
  acknowledged_by : option string;
  acknowledged_at : option Z;
  shelved_until : option Z;
  last_value : option TagValue;
  last_rate_per_second : option pfloat
}.

Definition fresh_status : AlarmStatus :=
  {| as_state := NORMAL; as_condition := None; active_since := None; acknowledged_by := None;
     acknowledged_at := None; shelved_until := None; last_value := None; last_rate_per_second := None |}.

Definition set_last_value (v : TagValue) (s : AlarmStatus) : AlarmStatus :=
  {| as_state := as_state s; as_condition := as_condition s; active_since := active_since s;
     acknowledged_by := acknowledged_by s; acknowledged_at := acknowledged_at s;
     shelved_until := shelved_until s; last_value := Some v; last_rate_per_second := last_rate_per_second s |}.
Definition set_rate (r : pfloat) (s : AlarmStatus) : AlarmStatus :=
  {| as_state := as_state s; as_condition := as_condition s; active_since := active_since s;
     acknowledged_by := acknowledged_by s; acknowledged_at := acknowledged_at s;
     shelved_until := shelved_until s; last_value := last_value s; last_rate_per_second := Some r |}.
Definition set_shelved (u : option Z) (s : AlarmStatus) : AlarmStatus :=
  {| as_state := as_state s; as_condition := as_condition s; active_since := active_since s;
     acknowledged_by := acknowledged_by s; acknowledged_at := acknowledged_at s;
     shelved_until := u; last_value := last_value s; last_rate_per_second := last_rate_per_second s |}.

(** The branch of [evaluate] on the detected condition. *)
Definition apply_condition (condition : option string) (ts : Z) (s : AlarmStatus) : AlarmStatus :=
  match condition with
  | Some c =>
      let activate := bool_decide (as_state s = NORMAL) in
      {| as_state := if activate then ACTIVE else as_state s;
         as_condition := Some c;
         active_since := if activate then Some ts else active_since s;
         acknowledged_by := if activate then None else acknowledged_by s;
         acknowledged_at := if activate then None else acknowledged_at s;
         shelved_until := shelved_until s; last_value := last_value s;
         last_rate_per_second := last_rate_per_second s |}
  | None =>
      {| as_state := NORMAL; as_condition := None; active_since := None;
         acknowledged_by := acknowledged_by s; acknowledged_at := acknowledged_at s;
         shelved_until := shelved_until s; last_value := last_value s;
         last_rate_per_second := last_rate_per_second s |}
  end.

Record AlarmEngine := {
  rules : gmap string AlarmRule;
  status : gmap string AlarmStatus;
  last_sample : gmap string (pfloat * Z)
}.

Definition make_engine (rs : gmap string AlarmRule) : AlarmEngine :=
  {| rules := rs; status := ∅; last_sample := ∅ |}.
Definition has_rule (e : AlarmEngine) (tid : string) : bool := bool_decide (is_Some (rules e !! tid)).

Definition put_status (tid : string) (s : AlarmStatus) (e : AlarmEngine) : AlarmEngine :=
  {| rules := rules e; status := <[tid := s]> (status e); last_sample := last_sample e |}.
Definition put_sample (tid : string) (p : pfloat * Z) (e : AlarmEngine) : AlarmEngine :=
  {| rules := rules e; status := status e; last_sample := <[tid := p]> (last_sample e) |}.

(** [_check_rate_of_change]: the engine and status it leaves, and its result. *)
Definition check_rate_of_change (e : AlarmEngine) (rule : AlarmRule) (tag : UnifiedTag) (s : AlarmStatus)
    : AlarmEngine * AlarmStatus * res (option string) :=
  if negb (is_scalable (value tag)) then (e, s, Ok None)
  else match value_float (value tag) with
  | Raise ex => (e, s, Raise ex)
  | Ok v =>
      let prior := last_sample e !! tag_id tag in
      let e := put_sample (tag_id tag) (v, timestamp tag) e in
      match prior with
      | None => (e, s, Ok None)
      | Some (prior_value, prior_timestamp) =>
          let elapsed_seconds := total_seconds (timestamp tag - prior_timestamp) in
          if fleb elapsed_seconds fzero then (e, s, Ok None)
          else match fdiv (fabs (fsub v prior_value)) elapsed_seconds with
          | Raise ex => (e, s, Raise ex)
          | Ok rate =>
              let s := set_rate rate s in
              match rate_of_change_per_second rule with
              | Some limit => if float_gt_num rate limit then (e, s, Ok (Some "rate_of_change")) else (e, s, Ok None)
              | None => (e, s, Ok None)
              end
          end
      end
  end.

(** The threshold cascade, worst first. *)
Definition threshold_condition (rule : AlarmRule) (v : pfloat) : option string :=
  let reaches (o : option num) := match o with Some t => float_ge_num v t | None => false end in
  let falls_to (o : option num) := match o with Some t => float_le_num v t | None => false end in
  if reaches (high_high rule) then Some "high_high"
  else if falls_to (low_low rule) then Some "low_low"
  else if reaches (high rule) then Some "high"
  else if falls_to (low rule) then Some "low"
  else None.

Definition check_conditions (e : AlarmEngine) (rule : AlarmRule) (tag : UnifiedTag) (s : AlarmStatus)
    : AlarmEngine * AlarmStatus * res (option string) :=
  let '(e, s, rate_condition) :=
    match rate_of_change_per_second rule with
    | Some _ => check_rate_of_change e rule tag s
    | None => (e, s, Ok None)
    end in
  match rate_condition with
  | Raise ex => (e, s, Raise ex)
  | Ok rate_condition =>
      if negb (is_scalable (value tag)) then (e, s, Ok rate_condition)
      else match value_float (value tag) with
      | Raise ex => (e, s, Raise ex)
      | Ok v =>
          (e, s, Ok (match threshold_condition rule v with Some c => Some c | None => rate_condition end))
      end
  end.

Definition set_is_alarm (b : bool) (t : UnifiedTag) : UnifiedTag :=
  {| tag_id := tag_id t; timestamp := timestamp t; value := value t; data_type := data_type t;
     quality := quality t; source_driver := source_driver t; source_address := source_address t;
     engineering_unit := engineering_unit t; is_alarm := b; metadata := metadata t |}.

Definition is_shelved (s : AlarmStatus) (ts : Z) : bool :=
  match shelved_until s with Some u => ts <? u | None => false end.

Definition evaluate (e : AlarmEngine) (tag : UnifiedTag) : AlarmEngine * res UnifiedTag :=
  match rules e !! tag_id tag with
  | None => (e, Ok tag)
  | Some rule =>
      let s := set_last_value (value tag) (default fresh_status (status e !! tag_id tag)) in
      let '(e, s, condition) := check_conditions e rule tag s in
      match condition with
      | Raise ex => (put_status (tag_id tag) s e, Raise ex)
      | Ok condition =>
          let s := apply_condition condition (timestamp tag) s in
          let shelved := is_shelved s (timestamp tag) in
          let alarm := negb (bool_decide (as_state s = NORMAL)) && negb shelved in
          (put_status (tag_id tag) s e, Ok (set_is_alarm alarm tag))
      end
  end.

Definition acknowledge (now : Z) (e : AlarmEngine) (tid actor : string) : AlarmEngine * bool :=
  match status e !! tid with
  | Some s =>
      if decide (as_state s = ACTIVE) then
        (put_status tid {| as_state := ACTIVE_ACKED; as_condition := as_condition s;
                           active_since := active_since s; acknowledged_by := Some actor;
                           acknowledged_at := Some now; shelved_until := shelved_until s;
                           last_value := last_value s; last_rate_per_second := last_rate_per_second s |} e, true)
      else (e, false)
  | None => (e, false)
  end.

(** [setdefault] happens before the [timedelta] is built, which may raise. *)
Definition shelve (now : Z) (e : AlarmEngine) (tid : string) (duration_seconds : num) : AlarmEngine * res unit :=
  let s := default fresh_status (status e !! tid) in
  let e := put_status tid s e in
  match (let* d := timedelta_seconds duration_seconds in datetime_add now d) with
  | Ok until => (put_status tid (set_shelved (Some until) s) e, Ok tt)
  | Raise ex => (e, Raise ex)
  end.

Definition unshelve (e : AlarmEngine) (tid : string) : AlarmEngine * bool :=
  match status e !! tid with
  | Some s =>
      match shelved_until s with
      | Some _ => (put_status tid (set_shelved None s) e, true)
      | None => (e, false)
      end
  | None => (e, false)
  end.

(** One entry of the [alarms.rules] list; [tag_id] is required by the schema. *)
Definition build_alarm_rules (rules_config : list AlarmRule) : gmap string AlarmRule :=
  fold_left (fun rs r => <[ar_tag_id r := r]> rs) rules_config ∅.

(** ** The engine as a state machine *)

Inductive alarm_op :=
  | OpEvaluate (tag : UnifiedTag)
  | OpAcknowledge (now : Z) (tid actor : string)
  | OpShelve (now : Z) (tid : string) (duration : num)
  | OpUnshelve (tid : string).

Definition alarm_step (e : AlarmEngine) (op : alarm_op) : AlarmEngine :=
  match op with
  | OpEvaluate tag => (evaluate e tag).1
  | OpAcknowledge now tid actor => (acknowledge now e tid actor).1
  | OpShelve now tid d => (shelve now e tid d).1
  | OpUnshelve tid => (unshelve e tid).1
  end.

Record status_ok (s : AlarmStatus) : Prop := {
  ok_condition : as_state s = NORMAL <-> as_condition s = None;
  ok_since : as_state s = NORMAL <-> active_since s = None;
  ok_active : as_state s = ACTIVE -> acknowledged_by s = None /\ acknowledged_at s = None;
  ok_acked : as_state s = ACTIVE_ACKED -> is_Some (acknowledged_by s) /\ is_Some (acknowledged_at s)
}.

Definition engine_ok (rs : gmap string AlarmRule) (e : AlarmEngine) : Prop :=
  rules e = rs /\ (forall tid s, status e !! tid = Some s -> status_ok s) /\
  (forall tid s, status e !! tid = Some s -> as_state s <> NORMAL -> is_Some (rules e !! tid)).

Lemma fresh_status_ok : status_ok fresh_status.
Proof. by constructor. Qed.
Lemma set_last_value_ok v s : status_ok s -> status_ok (set_last_value v s).
Proof. by intros []. Qed.
Lemma set_rate_ok v s : status_ok s -> status_ok (set_rate v s).
Proof. by intros []. Qed.
Lemma set_shelved_ok v s : status_ok s -> status_ok (set_shelved v s).
Proof. by intros []. Qed.
Lemma apply_condition_ok c ts s : status_ok s -> status_ok (apply_condition c ts s).
Proof. intros [H1 H2 H3 H4]. destruct c as [c|]; [|by constructor]. constructor; simpl; case_bool_decide; naive_solver. Qed.
#[export] Hint Resolve fresh_status_ok set_last_value_ok set_rate_ok set_shelved_ok apply_condition_ok : xedge.

Lemma engine_status_ok rs e tid : engine_ok rs e -> status_ok (default fresh_status (status e !! tid)).
Proof. intros (_ & H & _). destruct (status e !! tid) eqn:E; simpl; eauto with xedge. Qed.

Lemma put_status_ok rs e tid s :
  engine_ok rs e -> status_ok s -> (as_state s <> NORMAL -> is_Some (rules e !! tid)) ->
  engine_ok rs (put_status tid s e).
Proof.
  intros (H1 & H2 & H3) Hs Hr. split; [done|]. simpl.
  split; intros t s'; (destruct (decide (t = tid)) as [->|]; [rewrite lookup_insert_eq; by intros [= <-]|]);
    rewrite lookup_insert_ne by done; eauto.
Qed.

(** [check_conditions] touches the samples and the rate of the status only. *)
Lemma check_conditions_frame e rule tag s e' s' c :
  check_conditions e rule tag s = (e', s', c) ->
  rules e' = rules e /\ status e' = status e /\ shelved_until s' = shelved_until s /\
  as_state s' = as_state s /\ (status_ok s -> status_ok s').
Proof.
  unfold check_conditions, check_rate_of_change.
  destruct (rate_of_change_per_second rule) as [lim|]; simpl; repeat case_match; intros; simplify_eq; eauto 10 with xedge.
Qed.

Lemma evaluate_ok rs e tag : engine_ok rs e -> engine_ok rs (evaluate e tag).1.
Proof.
  intros I. unfold evaluate. destruct (rules e !! tag_id tag) as [rule|] eqn:R; [|done].
  destruct (check_conditions _ _ _ _) as [[e' s'] c] eqn:C.
  pose proof (set_last_value_ok (value tag) _ (engine_status_ok rs e (tag_id tag) I)) as S.
  apply check_conditions_frame in C as (E1 & E2 & _ & _ & Hs).
  assert (engine_ok rs e') as I' by (unfold engine_ok in *; by rewrite E1, E2).
  assert (is_Some (rules e' !! tag_id tag)) by (rewrite E1, R; by eexists).
  destruct c; simpl; apply put_status_ok; auto with xedge.
Qed.

Lemma alarm_step_ok rs e op : engine_ok rs e -> engine_ok rs (alarm_step e op).
Proof.
  intros I. pose proof I as (H1 & H2 & H3). destruct op as [tag|now tid actor|now tid d|tid]; simpl.
  - by apply evaluate_ok.
  - unfold acknowledge. destruct (status e !! tid) as [s|] eqn:S; [|done].
    case_decide as D; [|done]. simpl. specialize (H2 _ _ S). destruct H2 as [A1 A2 A3 A4].
    apply put_status_ok; [done| |intros _; apply (H3 _ _ S); congruence].
    rewrite D in *. constructor; simpl; naive_solver.
  - unfold shelve. assert (forall u, as_state (set_shelved u (default fresh_status (status e !! tid))) <> NORMAL ->
      is_Some (rules e !! tid)) as Hr.
    { intros u. destruct (status e !! tid) eqn:S; simpl; [|done]. intros. by eapply H3. }
    assert (engine_ok rs (put_status tid (default fresh_status (status e !! tid)) e)) as I'.
    { apply put_status_ok; [done|by eapply engine_status_ok|]. exact (Hr None). }
    destruct (_ : res Z); simpl; [|done].
    apply put_status_ok; [done| |apply Hr]. apply set_shelved_ok. by eapply engine_status_ok.
  - unfold unshelve. destruct (status e !! tid) as [s|] eqn:S; [|done].
    destruct (shelved_until s); [|done]. simpl. apply put_status_ok; [done|eauto with xedge|].
    intros. by eapply H3.
Qed.

Lemma engine_ok_run rs ops : engine_ok rs (fold_left alarm_step ops (make_engine rs)).
Proof.
  induction ops as [|op ops IH] using rev_ind; [by repeat split|].
  rewrite fold_left_app. simpl. by apply alarm_step_ok.
Qed.

(** the alarm status is consistent after any sequence of evaluations,
    acknowledgements, shelvings and unshelvings: an alarm is in a non-normal
    state exactly when it has a condition and an activation time, an active one
    carries no acknowledgement left over from an earlier episode, an
    acknowledged one names who acknowledged it and when, and only tags with a
    rule can alarm. *)
Theorem alarm_status_invariant rs ops tid s :
  status (fold_left alarm_step ops (make_engine rs)) !! tid = Some s ->
  status_ok s /\ (as_state s <> NORMAL -> is_Some (rs !! tid)).
Proof.
  intros H. destruct (engine_ok_run rs ops) as (E & H2 & H3). split; [by eapply H2|].
  intros N. rewrite <- E. by eapply H3.
Qed.

Definition demo_rule : AlarmRule :=
  {| ar_tag_id := "d/t"; high := Some (NInt 100); high_high := None; low := None; low_low := None;
     rate_of_change_per_second := Some (NInt 1) |}.
Definition demo_ops : list alarm_op :=
  [OpEvaluate (demo_sample (VInt 150) GOOD false); OpAcknowledge 7 "d/t" "ann"].
Definition demo_acked : AlarmStatus :=
  {| as_state := ACTIVE_ACKED; as_condition := Some "high"; active_since := Some 0;
     acknowledged_by := Some "ann"; acknowledged_at := Some 7; shelved_until := None;
     last_value := Some (VInt 150); last_rate_per_second := None |}.

Lemma alarm_status_invariant_witness :
  status_ok demo_acked /\ (as_state demo_acked <> NORMAL -> is_Some (({["d/t" := demo_rule]} : gmap string AlarmRule) !! "d/t")).
Proof. apply (alarm_status_invariant {["d/t" := demo_rule]} demo_ops). vm_compute. reflexivity. Defined.

(** ** What is reported *)






(** *** The samples of a tag *)




Definition sampled (v ts : Z) : UnifiedTag :=
  {| tag_id := "d/t"; timestamp := ts; value := VInt v; data_type := "INT64"; quality := GOOD; source_driver := "d"; source_address := "0";
     engineering_unit := None; is_alarm := false; metadata := [] |}.

(** The first sample after a gap is compared with the last one before it: for a
    tag sampled every second, a jump from 0 to 7200 over an hour without samples
    trips a rate of 1 per second. *)
Example rate_trips_after_gap :
  let rule := {| ar_tag_id := "d/t"; high := None; high_high := None; low := None; low_low := None;
                 rate_of_change_per_second := Some (NInt 1) |} in
  let e := fold_left alarm_step [OpEvaluate (sampled 0 0); OpEvaluate (sampled 0 us_per_second)] (make_engine {["d/t" := rule]}) in
  rmap is_alarm (evaluate e (sampled 7200 (3601 * us_per_second))).2 = Ok true.
Proof. vm_compute. reflexivity. Qed.
