(* ===== verification/RingBuffer.v ===== *)
(** * Hot tier: bounded FIFO ring buffers (src/xedge/store/ring_buffer.py)

    The eviction callback is an argument: it acts on a state [S] of its own
    (the cold store, in the running system) and may raise.  An operation
    returns the buffer and callback state it leaves behind with its result. *)

From S2P Require Import Prelude PyBytes PyFloat PyDict Pipeline.

Definition DEFAULT_MAX_DEPTH : Z := 10000.

Record RingBufferMetrics := { m_depth : Z; m_max_depth : Z; m_evicted_count : Z }.

Record RingBuffer := {
  max_depth : Z;
  is_alarm_stream : bool;
  buffer : list UnifiedTag;
  evicted_count : Z
}.

Definition make_buffer (depth : Z) (alarm : bool) : RingBuffer :=
  {| max_depth := depth; is_alarm_stream := alarm; buffer := []; evicted_count := 0 |}.

Definition with_buffer (b : RingBuffer) (l : list UnifiedTag) (n : Z) : RingBuffer :=
  {| max_depth := max_depth b; is_alarm_stream := is_alarm_stream b; buffer := l; evicted_count := n |}.

Section Buffers.
Context {S : Type}.

(** [RingBuffer.push]; [None] for a buffer without [on_evict]. *)
Definition push (on_evict : option (UnifiedTag -> S -> S * res unit)) (b : RingBuffer) (tag : UnifiedTag) (st : S)
    : RingBuffer * S * res unit :=
  if max_depth b <=? zlen (buffer b) then
    if is_alarm_stream b then (b, st, Raise RingBufferBackpressureError)
    else match buffer b with
    | [] => (b, st, Raise IndexError)
    | evicted :: rest =>
        let b := with_buffer b rest (evicted_count b + 1) in
        let '(st, r) := match on_evict with Some f => f evicted st | None => (st, Ok tt) end in
        match r with
        | Raise e => (b, st, Raise e)
        | Ok _ => (with_buffer b (buffer b ++ [tag]) (evicted_count b), st, Ok tt)
        end
    end
  else (with_buffer b (buffer b ++ [tag]) (evicted_count b), st, Ok tt).
End Buffers.

(** [RingBuffer.drain]: what is returned and what stays. *)
Definition drain (b : RingBuffer) (max_items : option Z) : list UnifiedTag * RingBuffer :=
  let count := match max_items with None => zlen (buffer b) | Some n => Z.min n (zlen (buffer b)) end in
  (take (Z.to_nat count) (buffer b), with_buffer b (drop (Z.to_nat count) (buffer b)) (evicted_count b)).

Definition buffer_metrics (b : RingBuffer) : RingBufferMetrics :=
  {| m_depth := zlen (buffer b); m_max_depth := max_depth b; m_evicted_count := evicted_count b |}.

(** [RingBufferManager]: its [_buffers] dict in insertion order. *)
Record RingBufferManager := { mgr_max_depth : Z; buffers : dict RingBuffer }.

Definition make_manager (depth : Z) : RingBufferManager := {| mgr_max_depth := depth; buffers := [] |}.
Definition with_buffers (m : RingBufferManager) (d : dict RingBuffer) : RingBufferManager :=
  {| mgr_max_depth := mgr_max_depth m; buffers := d |}.

Section Manager.
Context {S : Type}.

Definition mgr_push (on_evict : option (string -> UnifiedTag -> S -> S * res unit)) (m : RingBufferManager)
    (stream_key : string) (tag : UnifiedTag) (alarm : bool) (st : S) : RingBufferManager * S * res unit :=
  let b := match dict_get stream_key (buffers m) with
           | Some b => b
           | None => make_buffer (mgr_max_depth m) alarm
           end in
  let cb := match on_evict with Some f => Some (f stream_key) | None => None end in
  let '(b, st, r) := push cb b tag st in
  (with_buffers m (dict_set stream_key b (buffers m)), st, r).
End Manager.

Definition mgr_drain (m : RingBufferManager) (stream_key : string) (max_items : option Z)
    : list UnifiedTag * RingBufferManager :=
  match dict_get stream_key (buffers m) with
  | None => ([], m)
  | Some b => let '(out, b) := drain b max_items in
              (out, with_buffers m (dict_set stream_key b (buffers m)))
  end.

(** [drain_all]: every stream, in insertion order. *)
Fixpoint drain_values (d : dict RingBuffer) (max_items : option Z) : list UnifiedTag * dict RingBuffer :=
  match d with
  | [] => ([], [])
  | (k, b) :: t =>
      let '(out, b') := drain b max_items in
      let '(outs, t') := drain_values t max_items in
      (out ++ outs, (k, b') :: t')
  end.
Definition drain_all (m : RingBufferManager) (max_items_per_stream : option Z)
    : list UnifiedTag * RingBufferManager :=
  let '(out, d) := drain_values (buffers m) max_items_per_stream in (out, with_buffers m d).

Definition stream_keys (m : RingBufferManager) : list string := dict_keys (buffers m).
Definition mgr_metrics (m : RingBufferManager) (stream_key : string) : option RingBufferMetrics :=
  buffer_metrics <$> dict_get stream_key (buffers m).

(** ** Traces of one buffer

    The abstract queue: samples leave in the order they were accepted, either
    by eviction or by draining. *)

Inductive buf_op := BPush (tag : UnifiedTag) | BDrain (max_items : option Z).

Record trace := {
  tr_buf : RingBuffer;
  tr_accepted : list UnifiedTag;
  tr_removed : list UnifiedTag;
  tr_evicted : list UnifiedTag
}.

Definition log_evict (t : UnifiedTag) (l : list UnifiedTag) : list UnifiedTag * res unit := (l ++ [t], Ok tt).

Definition trace_step (t : trace) (op : buf_op) : trace :=
  match op with
  | BPush tag =>
      let '(b, ev, r) := push (Some log_evict) (tr_buf t) tag [] in
      {| tr_buf := b;
         tr_accepted := if is_ok r then tr_accepted t ++ [tag] else tr_accepted t;
         tr_removed := tr_removed t ++ ev; tr_evicted := tr_evicted t ++ ev |}
  | BDrain n =>
      let '(out, b) := drain (tr_buf t) n in
      {| tr_buf := b; tr_accepted := tr_accepted t; tr_removed := tr_removed t ++ out; tr_evicted := tr_evicted t |}
  end.

Definition run_trace (depth : Z) (alarm : bool) (ops : list buf_op) : trace :=
  fold_left trace_step ops
    {| tr_buf := make_buffer depth alarm; tr_accepted := []; tr_removed := []; tr_evicted := [] |}.

Record trace_ok (depth : Z) (alarm : bool) (t : trace) : Prop := {
  to_depth : max_depth (tr_buf t) = depth;
  to_alarm : is_alarm_stream (tr_buf t) = alarm;
  to_fifo : tr_removed t ++ buffer (tr_buf t) = tr_accepted t;
  to_bound : zlen (buffer (tr_buf t)) <= depth;
  to_count : evicted_count (tr_buf t) = zlen (tr_evicted t);
  to_no_evict : alarm = true -> tr_evicted t = []
}.

Lemma trace_step_ok depth alarm t op : 1 <= depth -> trace_ok depth alarm t -> trace_ok depth alarm (trace_step t op).
Proof.
  intros Hd [D A F B C N]. destruct op as [tag|n]; unfold trace_step.
  - unfold push. rewrite D, A. destruct (Z.leb_spec depth (zlen (buffer (tr_buf t)))) as [L|L].
    + destruct alarm.
      * constructor; simpl; rewrite ?app_nil_r; auto.
      * destruct (buffer (tr_buf t)) as [|x rest] eqn:E; [rewrite zlen_nil in L; lia|].
        rewrite zlen_cons in *. constructor; simpl; auto; try done.
        -- rewrite <- F, <- !app_assoc. done.
        -- autorewrite with zlen. lia.
        -- autorewrite with zlen. lia.
    + constructor; simpl; rewrite ?app_nil_r; auto.
      * by rewrite <- F, app_assoc.
      * autorewrite with zlen. lia.
  - unfold drain. set (k := match n with None => _ | Some _ => _ end).
    constructor; simpl; auto.
    + by rewrite <- app_assoc, take_drop.
    + unfold zlen in *. rewrite length_drop. lia.
Qed.

Lemma run_trace_ok depth alarm ops : 1 <= depth -> trace_ok depth alarm (run_trace depth alarm ops).
Proof.
  intros Hd. unfold run_trace. induction ops as [|op ops IH] using rev_ind.
  - constructor; simpl; auto. rewrite zlen_nil. lia.
  - rewrite fold_left_app. simpl. by apply trace_step_ok.
Qed.

(** C9: the ring buffer is a bounded FIFO that loses nothing silently: after
    any sequence of pushes and drains the samples that left (evicted or
    drained, in the order they left) followed by those still held are exactly
    the accepted ones in order, the depth never exceeds [max_depth], and
    [evicted_count] counts the samples handed to the eviction callback; an
    alarm stream never evicts. *)
Theorem ring_buffer_fifo depth alarm ops :
  1 <= depth ->
  let t := run_trace depth alarm ops in
  tr_removed t ++ buffer (tr_buf t) = tr_accepted t /\
  zlen (buffer (tr_buf t)) <= depth /\
  evicted_count (tr_buf t) = zlen (tr_evicted t) /\
  (alarm = true -> tr_evicted t = []).
Proof. intros Hd t. destruct (run_trace_ok depth alarm ops Hd). auto. Qed.

Definition demo_tag_n (n : Z) : UnifiedTag := demo_sample (VInt n) GOOD false.
Lemma ring_buffer_fifo_witness :
  let t := run_trace 2 false [BPush (demo_tag_n 1); BPush (demo_tag_n 2); BPush (demo_tag_n 3); BDrain (Some 1)] in
  tr_removed t = [demo_tag_n 1; demo_tag_n 2] /\
  tr_removed t ++ buffer (tr_buf t) = tr_accepted t /\ zlen (buffer (tr_buf t)) <= 2 /\
  evicted_count (tr_buf t) = zlen (tr_evicted t) /\ (false = true -> tr_evicted t = []).
Proof.
  split; [reflexivity|].
  apply (ring_buffer_fifo 2 false [BPush (demo_tag_n 1); BPush (demo_tag_n 2); BPush (demo_tag_n 3); BDrain (Some 1)]).
  lia.
Defined.

(** ** The manager as a bag of samples, for clients *)

(** All samples held, stream by stream. *)
Definition held (m : RingBufferManager) : list UnifiedTag := concat (map buffer (dict_values (buffers m))).

Definition mgr_ok (m : RingBufferManager) : Prop :=
  dict_wf (buffers m) /\ Forall (fun kb => max_depth kb.2 = mgr_max_depth m /\
    zlen (buffer kb.2) <= mgr_max_depth m) (buffers m).

Lemma drain_values_all d :
  (drain_values d None).1 = concat (map buffer (map snd d)) /\
  concat (map buffer (map snd (drain_values d None).2)) = [] /\
  map fst (drain_values d None).2 = map fst d /\
  Forall2 (fun x y => max_depth x.2 = max_depth y.2) (drain_values d None).2 d.
Proof.
  induction d as [|[k b] t (IH1 & IH2 & IH3 & IH4)]; simpl; [done|].
  destruct (drain_values t None) as [o t'] eqn:E. simpl in *.
  unfold zlen. rewrite Nat2Z.id, firstn_all, drop_all, IH1, IH2, IH3. repeat split; auto.
Qed.

Lemma drain_all_held m : (drain_all m None).1 = held m /\ held (drain_all m None).2 = [].
Proof.
  unfold drain_all, held. destruct (drain_values (buffers m) None) as [o d] eqn:E. simpl.
  pose proof (drain_values_all (buffers m)) as (H1 & H2 & _). rewrite E in H1, H2. done.
Qed.

Lemma drain_all_ok m : 0 <= mgr_max_depth m -> mgr_ok m -> mgr_ok (drain_all m None).2.
Proof.
  intros Hd [W F]. unfold drain_all. destruct (drain_values (buffers m) None) as [o d] eqn:E. simpl.
  pose proof (drain_values_all (buffers m)) as (_ & H2 & H3 & H4). rewrite E in H2, H3, H4. simpl in *.
  split; [unfold dict_wf, dict_keys in *; simpl; by rewrite H3|]. simpl. clear E W H3.
  revert F H2. induction H4 as [|x y d' d0 Hx H4 IH]; intros F H2; [constructor|].
  apply Forall_cons in F as [[F1 F2] F]. simpl in H2. apply app_nil in H2 as [N1 N2].
  constructor; [|by apply IH]. rewrite N1, Hx, F1. split; [done|]. by rewrite zlen_nil.
Qed.

Lemma held_set d k b :
  concat (map buffer (map snd (dict_set k b d))) ++ default [] (buffer <$> dict_get k d) ≡ₚ
  concat (map buffer (map snd d)) ++ buffer b.
Proof.
  induction d as [|[j c] t IH]; simpl; [by rewrite !app_nil_r|]. case_decide; simpl.
  - rewrite <- !app_assoc. rewrite (Permutation_app_comm (buffer c)), app_assoc, (Permutation_app_comm (buffer b)). done.
  - by rewrite <- !app_assoc, IH.
Qed.

(** A push whose callback cannot fail keeps every sample: it is held, or the
    evicted one was given to the callback. *)
Lemma mgr_push_cases {S} (f : string -> UnifiedTag -> S -> S * res unit) m key tag alarm st m' st' r :
  1 <= mgr_max_depth m -> mgr_ok m ->
  mgr_push (Some f) m key tag alarm st = (m', st', r) ->
  (r = Ok tt /\ st' = st /\ held m' ≡ₚ tag :: held m /\ mgr_ok m') \/
  (exists ev, ev ∈ held m /\ f key ev st = (st', r) /\
     (r = Ok tt -> ev :: held m' ≡ₚ tag :: held m /\ mgr_ok m')) \/
  (r = Raise RingBufferBackpressureError /\ st' = st /\ held m' ≡ₚ held m /\ mgr_ok m').
Proof.
  intros Hd [W F]. unfold mgr_push.
  set (b := match dict_get key (buffers m) with Some b => b | None => _ end).
  assert (max_depth b = mgr_max_depth m /\ zlen (buffer b) <= mgr_max_depth m) as [Hb1 Hb2].
  { unfold b. destruct (dict_get key (buffers m)) as [b0|] eqn:G; [|by simpl; rewrite zlen_nil; lia].
    apply dict_get_in in G. rewrite Forall_forall in F. by apply (F _ G). }
  assert (buffer b = default [] (buffer <$> dict_get key (buffers m))) as Eb.
  { unfold b. by destruct (dict_get key (buffers m)). }
  assert (forall ev, ev ∈ buffer b -> ev ∈ held m) as Hin.
  { intros ev Hev. rewrite Eb in Hev. destruct (dict_get key (buffers m)) as [b0|] eqn:G; [|by inversion Hev].
    unfold held, dict_values. apply list_elem_of_In, in_concat. exists (buffer b0).
    split; [|by apply list_elem_of_In]. apply in_map, in_map_iff. exists (key, b0).
    split; [done|]. by apply list_elem_of_In, dict_get_in. }
  assert (forall l n, zlen l <= mgr_max_depth m ->
    mgr_ok (with_buffers m (dict_set key (with_buffer b l n) (buffers m)))) as Hok.
  { intros l n Hl. split; [by apply dict_wf_set|]. simpl. apply Forall_forall. intros [k c] Hkc.
    apply dict_get_wf in Hkc; [|by apply dict_wf_set]. rewrite dict_get_set in Hkc.
    case_decide; [injection Hkc as <-; by simpl|]. apply dict_get_in in Hkc. rewrite Forall_forall in F.
    by apply (F _ Hkc). }
  assert (forall l n, held (with_buffers m (dict_set key (with_buffer b l n) (buffers m))) ++ buffer b ≡ₚ held m ++ l) as Hh.
  { intros l n. unfold held, dict_values. simpl. rewrite Eb.
    pose proof (held_set (buffers m) key (with_buffer b l n)) as P. exact P. }
  unfold push. rewrite Hb1. destruct (Z.leb_spec (mgr_max_depth m) (zlen (buffer b))) as [L|L].
  - destruct (is_alarm_stream b) eqn:A.
    + intros [= <- <- <-]. right; right. split; [done|]. split; [done|].
      assert (b = with_buffer b (buffer b) (evicted_count b)) as E by (by destruct b). split.
      * rewrite E. specialize (Hh (buffer b) (evicted_count b)). by apply Permutation_app_inv_r in Hh.
      * rewrite E. by apply Hok.
    + destruct (buffer b) as [|ev rest] eqn:B; [rewrite zlen_nil in L; lia|].
      destruct (f key ev st) as [st1 [[]|ex]] eqn:Ef; intros [= <- <- <-]; right; left; exists ev.
      * split; [apply Hin; by left|split; [done|intros _]].
        simpl. rewrite zlen_cons in Hb2. split; [|apply Hok; autorewrite with zlen; lia].
           specialize (Hh (rest ++ [tag]) (evicted_count b + 1)).
           by apply perm_swap_end in Hh.
      * split; [apply Hin; by left|done].
  - intros [= <- <- <-]. left. split; [done|]. split; [done|]. split.
    + specialize (Hh (buffer b ++ [tag]) (evicted_count b)).
      by apply perm_add_end in Hh.
    + apply Hok. autorewrite with zlen. lia.
Qed.
