(* ===== verification/Backlog.v ===== *)
(** * What the northbound side needs from a store-and-forward tier

    The contract between the cold store and its clients (the ring buffers'
    eviction callback and the dispatcher's replay).  The dispatcher's theorems
    are proved against this class; src/xedge/store/sqlite_store.py is its
    instance (ColdStore.v). *)

From S2P Require Import Prelude PyBytes PyFloat PyDict Pipeline.

Class BacklogStore (S : Type) := {
  (** operations *)
  bl_append : string -> UnifiedTag -> S -> S * res unit;
  bl_peek : string -> Z -> S -> S * res (list (Z * UnifiedTag));
  bl_delete : string -> list Z -> S -> S;
  bl_purge : string -> Z -> S -> S * res Z;
  bl_keys : S -> list string;
  (** abstract view *)
  bl_ok : S -> Prop;
  bl_storable : UnifiedTag -> Prop;
  bl_stored : S -> list UnifiedTag;
  bl_peeked : S -> string -> list (Z * UnifiedTag) -> Prop;
  bl_empty : S -> string -> Prop;
  bl_covers : S -> list string -> Prop;
  (** laws *)
  bl_append_law s k t :
    bl_ok s -> bl_storable t ->
    exists s', bl_append k t s = (s', Ok tt) /\ bl_ok s' /\ bl_stored s' ≡ₚ t :: bl_stored s /\
      (forall k' l, bl_peeked s k' l -> bl_peeked s' k' l);
  bl_peek_law s k n :
    bl_ok s ->
    exists s' l, bl_peek k n s = (s', Ok l) /\ bl_ok s' /\ bl_stored s' ≡ₚ bl_stored s /\ bl_peeked s' k l /\
      bl_stored s ≡ₚ map snd l ++ bl_stored (bl_delete k (map fst l) s') /\
      (1 <= n -> l = [] -> bl_empty s' k) /\
      (forall k', bl_empty s k' -> bl_empty s' k') /\
      (forall ks, bl_covers s ks -> k ∈ ks -> bl_covers s' ks);
  bl_delete_law s k l :
    bl_ok s -> bl_peeked s k l ->
    bl_ok (bl_delete k (map fst l) s) /\
    bl_stored s ⊆+ map snd l ++ bl_stored (bl_delete k (map fst l) s) /\
    (forall k', bl_empty s k' -> bl_empty (bl_delete k (map fst l) s) k') /\
    (forall ks, bl_covers s ks -> bl_covers (bl_delete k (map fst l) s) ks);
  bl_purge_law s k c s' r :
    bl_ok s -> bl_purge k c s = (s', r) ->
    bl_ok s' /\ (exists ex, bl_stored s ≡ₚ ex ++ bl_stored s') /\
    (forall k' l, bl_peeked s k' l -> bl_peeked s' k' l);
  bl_keys_law s : bl_ok s -> bl_covers s (bl_keys s);
  bl_covers_law s ks : bl_covers s ks -> (forall k, k ∈ ks -> bl_empty s k) -> bl_stored s = []
}.
