(* ===== verification/ColdStore.v ===== *)
(** * Cold tier: SQLite store-and-forward (src/xedge/store/sqlite_store.py)

    A database file is its [samples] rows in id order, the next value of its
    AUTOINCREMENT counter and the stream key of its [meta] table.  The
    [value_json] column is kept as the syntax tree of its text: a JSON scalar
    or a base64 string.  SQLite itself never fails in the model. *)

From Stdlib Require Import Floats.SpecFloat Ascii.
From S2P Require Import Prelude PyBytes PyFloat PyDict PyTime Pipeline Alarms Backlog.
Local Open Scope string_scope.
Local Open Scope list_scope.
Local Open Scope Z_scope.

(** [c.isalnum() or c in "-_."] on an ASCII character. *)
Definition safe_char (c : Ascii.ascii) : bool :=
  let n := Z.of_nat (Ascii.nat_of_ascii c) in
  ((48 <=? n) && (n <=? 57)) || ((65 <=? n) && (n <=? 90)) || ((97 <=? n) && (n <=? 122)) ||
  (n =? 45) || (n =? 95) || (n =? 46).
Fixpoint safe_filename (stream_key : string) : string :=
  match stream_key with
  | EmptyString => EmptyString
  | String c t => String (if safe_char c then c else "_"%char) (safe_filename t)
  end.

Inductive value_text := TBool (b : bool) | TInt (z : Z) | TFloat (f : pfloat) | TStr (s : string) | TBase64 (bs : list Z).

Definition encode_value (v : TagValue) (dt : string) : res value_text :=
  if String.eqb dt "BYTES" then
    match v with VBytes bs => Ok (TBase64 bs) | _ => Raise TypeError end
  else match v with
  | VBool b => Ok (TBool b) | VInt z => Ok (TInt z) | VFloat f => Ok (TFloat f) | VStr s => Ok (TStr s)
  | VBytes _ => Raise TypeError
  end.

Definition decode_value (t : value_text) (dt : string) : res TagValue :=
  if String.eqb dt "BYTES" then
    match t with TBase64 bs => Ok (VBytes bs) | _ => Raise ValueError end
  else match t with
  | TBool b => Ok (VBool b) | TInt z => Ok (VInt z) | TFloat f => Ok (VFloat f) | TStr s => Ok (VStr s)
  | TBase64 _ => Raise ValueError
  end.

Definition quality_value (q : Quality) : string :=
  match q with GOOD => "Good" | UNCERTAIN => "Uncertain" | BAD => "Bad" end.
Definition quality_of (s : string) : res Quality :=
  if String.eqb s "Good" then Ok GOOD else if String.eqb s "Uncertain" then Ok UNCERTAIN
  else if String.eqb s "Bad" then Ok BAD else Raise ValueError.

Record sample_row := {
  r_tag_id : string;
  r_timestamp_ns : Z;
  r_value_json : value_text;
  r_data_type : string;
  r_quality : string;
  r_source_driver : string;
  r_source_address : string;
  r_engineering_unit : option string;
  r_is_alarm : Z;
  r_metadata_json : dict json
}.

Definition billion : Z := 1000000000.

(** [int(t.timestamp() * 1_000_000_000)] *)
Definition timestamp_ns (t : Z) : res Z := trunc (fmul (total_seconds t) (float_of_Z_raw billion)).
(** [datetime.fromtimestamp(ns / 1_000_000_000, tz=UTC)] *)
Definition datetime_of_ns (ns : Z) : res Z := let* f := int_div ns billion in from_timestamp f.

Definition tag_to_row (t : UnifiedTag) : res sample_row :=
  let* ns := timestamp_ns (timestamp t) in
  let* v := encode_value (value t) (data_type t) in
  Ok {| r_tag_id := tag_id t; r_timestamp_ns := ns; r_value_json := v; r_data_type := data_type t;
        r_quality := quality_value (quality t); r_source_driver := source_driver t;
        r_source_address := source_address t; r_engineering_unit := engineering_unit t;
        r_is_alarm := bool_int (is_alarm t); r_metadata_json := metadata t |}.

Definition row_to_tag (r : sample_row) : res UnifiedTag :=
  let* ts := datetime_of_ns (r_timestamp_ns r) in
  let* v := decode_value (r_value_json r) (r_data_type r) in
  let* q := quality_of (r_quality r) in
  Ok {| tag_id := r_tag_id r; timestamp := ts; value := v; data_type := r_data_type r; quality := q;
        source_driver := r_source_driver r; source_address := r_source_address r;
        engineering_unit := r_engineering_unit r; is_alarm := negb (r_is_alarm r =? 0);
        metadata := r_metadata_json r |}.

Record database := {
  rows : list (Z * sample_row);
  next_id : Z;
  meta_stream_key : option string
}.
Definition new_database : database := {| rows := []; next_id := 1; meta_stream_key := None |}.

Record SqliteColdStore := {
  files : gmap string database;
  connections : list string
}.
Definition empty_store : SqliteColdStore := {| files := ∅; connections := [] |}.

Definition put_db (f : string) (d : database) (s : SqliteColdStore) : SqliteColdStore :=
  {| files := <[f := d]> (files s); connections := connections s |}.
Definition set_rows (rs : list (Z * sample_row)) (d : database) : database :=
  {| rows := rs; next_id := next_id d; meta_stream_key := meta_stream_key d |}.

(** [_connection]: open on first use, [INSERT OR IGNORE] the stream key. *)
Definition connection (stream_key : string) (s : SqliteColdStore) : SqliteColdStore * database :=
  let f := safe_filename stream_key in
  let d := default new_database (files s !! f) in
  if decide (stream_key ∈ connections s) then (s, d)
  else
    let d := {| rows := rows d; next_id := next_id d;
                meta_stream_key := match meta_stream_key d with Some k => Some k | None => Some stream_key end |} in
    ({| files := <[f := d]> (files s); connections := connections s ++ [stream_key] |}, d).

Definition append (stream_key : string) (tag : UnifiedTag) (s : SqliteColdStore) : SqliteColdStore * res unit :=
  let '(s, d) := connection stream_key s in
  match tag_to_row tag with
  | Raise e => (s, Raise e)
  | Ok r =>
      (put_db (safe_filename stream_key)
         {| rows := rows d ++ [(next_id d, r)]; next_id := next_id d + 1;
            meta_stream_key := meta_stream_key d |} s, Ok tt)
  end.

Definition count (stream_key : string) (s : SqliteColdStore) : SqliteColdStore * Z :=
  let '(s, d) := connection stream_key s in (s, zlen (rows d)).

(** [LIMIT ?]: SQLite reads a negative limit as no limit. *)
Definition sql_limit {A} (n : Z) (l : list A) : list A := if n <? 0 then l else take (Z.to_nat n) l.

Definition decode_rows (rs : list (Z * sample_row)) : res (list (Z * UnifiedTag)) :=
  mapM_res (fun ir => let* t := row_to_tag ir.2 in Ok (ir.1, t)) rs.

Definition peek (stream_key : string) (max_items : Z) (s : SqliteColdStore)
    : SqliteColdStore * res (list (Z * UnifiedTag)) :=
  let '(s, d) := connection stream_key s in (s, decode_rows (sql_limit max_items (rows d))).

Definition delete_ids (stream_key : string) (ids : list Z) (s : SqliteColdStore) : SqliteColdStore :=
  match ids with
  | [] => s
  | _ =>
      let '(s, d) := connection stream_key s in
      put_db (safe_filename stream_key)
        (set_rows (List.filter (fun ir => negb (bool_decide (ir.1 ∈ ids))) (rows d)) d) s
  end.

Definition drain (stream_key : string) (max_items : Z) (s : SqliteColdStore)
    : SqliteColdStore * res (list UnifiedTag) :=
  let '(s, r) := peek stream_key max_items s in
  match r with
  | Raise e => (s, Raise e)
  | Ok [] => (s, Ok [])
  | Ok rows => (delete_ids stream_key (map fst rows) s, Ok (map snd rows))
  end.

Definition purge_older_than (stream_key : string) (cutoff : Z) (s : SqliteColdStore) : SqliteColdStore * res Z :=
  let '(s, d) := connection stream_key s in
  match timestamp_ns cutoff with
  | Raise e => (s, Raise e)
  | Ok cutoff_ns =>
      let kept := List.filter (fun ir => negb (r_timestamp_ns ir.2 <? cutoff_ns)) (rows d) in
      (put_db (safe_filename stream_key) (set_rows kept d) s, Ok (zlen (rows d) - zlen kept))
  end.

Definition close (s : SqliteColdStore) : SqliteColdStore := {| files := files s; connections := [] |}.

(** [sorted(...)] of a set of strings. *)
Definition sorted_strings (l : list string) : list string := py_sorted String.leb (remove_dups l).

(** [stream_keys]: the open connections and every database's recorded key. *)
Definition stream_keys (s : SqliteColdStore) : list string :=
  sorted_strings (connections s ++ omap (fun fd => meta_stream_key fd.2) (map_to_list (files s))).

Definition str_endswith (s suffix : string) : bool :=
  let n := String.length s in let m := String.length suffix in
  (m <=? n)%nat && String.eqb (String.substring (n - m) m s) suffix.

(** One round of [purge_loop] after its sleep. *)
Fixpoint purge_streams (keys : list string) (normal_cutoff alarm_cutoff : Z) (s : SqliteColdStore)
    : SqliteColdStore * res unit :=
  match keys with
  | [] => (s, Ok tt)
  | k :: ks =>
      let cutoff := if str_endswith k ALARM_STREAM_KEY_SUFFIX then alarm_cutoff else normal_cutoff in
      match purge_older_than k cutoff s with
      | (s, Ok _) => purge_streams ks normal_cutoff alarm_cutoff s
      | (s, Raise e) => (s, Raise e)
      end
  end.
Definition purge_round (now : Z) (keys : list string) (retention : num) (alarm_retention : option num)
    (s : SqliteColdStore) : SqliteColdStore * res unit :=
  match (let* d := timedelta_seconds retention in
         let* c := datetime_add now (- d) in
         let* da := timedelta_seconds (default retention alarm_retention) in
         let* ca := datetime_add now (- da) in Ok (c, ca)) with
  | Raise e => (s, Raise e)
  | Ok (normal_cutoff, alarm_cutoff) => purge_streams keys normal_cutoff alarm_cutoff s
  end.

(** ** Rows *)

(** Timestamps that survive the float conversions of the row format, and a
    data type that matches the value, as [normalize] produces. *)
Definition timestamp_storable (t : Z) : Prop := (let* ns := timestamp_ns t in datetime_of_ns ns) = Ok t.
Definition storable (t : UnifiedTag) : Prop :=
  data_type t = data_type_name (value t) /\ timestamp_storable (timestamp t).

Lemma value_text_roundtrip v :
  exists x, encode_value v (data_type_name v) = Ok x /\ decode_value x (data_type_name v) = Ok v.
Proof. destruct v; unfold encode_value, decode_value; simpl; eexists; split; reflexivity. Qed.

Lemma storable_row t : storable t -> exists r, tag_to_row t = Ok r /\ row_to_tag r = Ok t.
Proof.
  intros [D T]. unfold timestamp_storable in T. unfold tag_to_row.
  destruct (timestamp_ns (timestamp t)) as [ns|] eqn:E; [|done]. simpl in *.
  destruct (value_text_roundtrip (value t)) as (x & E1 & E2). rewrite D, E1. simpl.
  eexists. split; [reflexivity|]. unfold row_to_tag. simpl. rewrite T, E2. simpl.
  destruct t as [? ? ? ? q ? ? ? a ?]; simpl in *. subst. by destruct q, a.
Qed.

(** ** Well-formed stores *)

Definition row_decodes (ir : Z * sample_row) : Prop := is_ok (row_to_tag ir.2) = true.

Record db_ok (f : string) (d : database) : Prop := {
  db_sorted : StronglySorted (fun x y : Z * sample_row => x.1 < y.1) (rows d);
  db_next : Forall (fun ir => ir.1 < next_id d) (rows d);
  db_rows : Forall row_decodes (rows d);
  db_meta : exists k, meta_stream_key d = Some k /\ safe_filename k = f
}.

Definition store_ok (s : SqliteColdStore) : Prop :=
  (forall f d, files s !! f = Some d -> db_ok f d) /\
  (forall k, k ∈ connections s -> is_Some (files s !! safe_filename k)).

Definition row_tag (ir : Z * sample_row) : option UnifiedTag :=
  match row_to_tag ir.2 with Ok t => Some t | Raise _ => None end.
Definition db_tags (d : database) : list UnifiedTag := omap row_tag (rows d).
(** The abstract queue of a stream (of its database file). *)
Definition contents (s : SqliteColdStore) (stream_key : string) : list UnifiedTag :=
  default [] (db_tags <$> files s !! safe_filename stream_key).

Lemma empty_store_ok : store_ok empty_store.
Proof. split; simpl; [intros f d; by rewrite lookup_empty|set_solver]. Qed.

Lemma connection_spec k s s' d :
  store_ok s -> connection k s = (s', d) ->
  store_ok s' /\ files s' !! safe_filename k = Some d /\ db_ok (safe_filename k) d /\ k ∈ connections s' /\
  rows d = rows (default new_database (files s !! safe_filename k)) /\
  (forall f, f <> safe_filename k -> files s' !! f = files s !! f).
Proof.
  intros [H1 H2]. unfold connection. case_decide as C.
  - intros [= <- <-]. destruct (H2 k C) as [d E]. rewrite E. simpl. split; [done|]. split; [done|]. split; [by apply H1|]. done.
  - intros [= <- <-]. simpl. rewrite lookup_insert_eq.
    set (d := {| rows := _ |}). assert (db_ok (safe_filename k) d) as Hd.
    { unfold d. destruct (files s !! safe_filename k) as [d0|] eqn:E; simpl.
      - destruct (H1 _ _ E) as [A1 A2 A3 (k0 & A4 & A5)]. constructor; auto. rewrite A4. by exists k0.
      - constructor; simpl; try constructor. by exists k. }
    split; [split; simpl|].
    + intros f d'. destruct (decide (f = safe_filename k)) as [->|]; [rewrite lookup_insert_eq; by intros [= <-]|].
      rewrite lookup_insert_ne by done. apply H1.
    + intros k' [Hk|Hk]%elem_of_app.
      * destruct (decide (safe_filename k' = safe_filename k)) as [->|]; [rewrite lookup_insert_eq; by eexists|].
        rewrite lookup_insert_ne by done. by apply H2.
      * apply list_elem_of_singleton in Hk as ->. rewrite lookup_insert_eq. by eexists.
    + split; [done|]. split; [done|]. split; [apply elem_of_app; right; by left|]. split; [done|].
      intros f Hf. by rewrite lookup_insert_ne.
Qed.

(** Putting a well-formed database back under an open stream. *)
Lemma put_db_ok k d s :
  store_ok s -> k ∈ connections s -> db_ok (safe_filename k) d -> store_ok (put_db (safe_filename k) d s).
Proof.
  intros [H1 H2] Hk Hd. split; simpl.
  - intros f d'. destruct (decide (f = safe_filename k)) as [->|]; [rewrite lookup_insert_eq; by intros [= <-]|].
    rewrite lookup_insert_ne by done. apply H1.
  - intros k' Hk'. destruct (decide (safe_filename k' = safe_filename k)) as [->|]; [rewrite lookup_insert_eq; by eexists|].
    rewrite lookup_insert_ne by done. by apply H2.
Qed.

Lemma db_ok_filter f d (P : Z * sample_row -> bool) : db_ok f d -> db_ok f (set_rows (List.filter P (rows d)) d).
Proof.
  intros [A1 A2 A3 A4]. constructor; simpl; auto; [by apply StronglySorted_list_filter| |];
    rewrite Forall_forall in *; intros x [Hx _]%elem_of_list_filter; auto.
Qed.

Lemma db_ok_append f d r t :
  db_ok f d -> row_to_tag r = Ok t ->
  db_ok f {| rows := rows d ++ [(next_id d, r)]; next_id := next_id d + 1; meta_stream_key := meta_stream_key d |}.
Proof.
  intros [A1 A2 A3 A4] E. constructor; simpl; auto.
  - apply StronglySorted_app. repeat split; [|done|by repeat constructor].
    intros x y Hx ->%list_elem_of_singleton. rewrite Forall_forall in A2. by apply A2.
  - apply Forall_app. split; [eapply Forall_impl; [exact A2|]; simpl; intros; lia|repeat constructor; simpl; lia].
  - apply Forall_app. split; [done|]. repeat constructor. unfold row_decodes. simpl. by rewrite E.
Qed.

Lemma contents_put k d s : contents (put_db (safe_filename k) d s) k = db_tags d.
Proof. unfold contents. simpl. by rewrite lookup_insert_eq. Qed.
Lemma contents_ext s s' k :
  files s' !! safe_filename k = files s !! safe_filename k -> contents s' k = contents s k.
Proof. unfold contents. by intros ->. Qed.

Lemma contents_connection k s s' d :
  store_ok s -> connection k s = (s', d) -> contents s k = db_tags d.
Proof.
  intros Hs C. apply connection_spec in C as (_ & _ & _ & _ & R & _); [|done].
  unfold contents, db_tags. rewrite R. by destruct (files s !! safe_filename k).
Qed.

(** ** Operations on well-formed stores *)

Lemma append_row_spec k tag r s :
  store_ok s -> tag_to_row tag = Ok r -> row_to_tag r = Ok tag ->
  exists s', append k tag s = (s', Ok tt) /\ store_ok s' /\ contents s' k = contents s k ++ [tag] /\
    (forall f, f <> safe_filename k -> files s' !! f = files s !! f).
Proof.
  intros Hs E Hr. unfold append. destruct (connection k s) as [s1 d] eqn:C.
  pose proof (contents_connection _ _ _ _ Hs C) as Hc.
  apply connection_spec in C as (Hs1 & _ & Hd & Hk & _ & Ho); [|done].
  rewrite E. eexists. split; [reflexivity|].
  split; [apply put_db_ok; auto; by eapply db_ok_append|]. split.
  - rewrite contents_put, Hc. unfold db_tags. simpl. rewrite omap_app. simpl. unfold row_tag at 2. simpl. by rewrite Hr.
  - intros f Hf. simpl. rewrite lookup_insert_ne by done. by apply Ho.
Qed.
Lemma append_spec k tag s :
  store_ok s -> storable tag ->
  exists s', append k tag s = (s', Ok tt) /\ store_ok s' /\ contents s' k = contents s k ++ [tag] /\
    (forall f, f <> safe_filename k -> files s' !! f = files s !! f).
Proof. intros Hs Ht. destruct (storable_row tag Ht) as (r & E & Hr). by eapply append_row_spec. Qed.

Lemma decode_rows_ok rs :
  Forall row_decodes rs -> exists l, decode_rows rs = Ok l /\ map fst l = map fst rs /\ map snd l = omap row_tag rs.
Proof.
  unfold decode_rows. induction 1 as [|[i r] rs Hr _ (l & E & E1 & E2)]; [by exists []|].
  cbn [mapM_res]. rewrite E. unfold row_decodes in Hr. simpl in *. unfold row_tag at 1. simpl.
  destruct (row_to_tag r) as [t|]; [|done]. simpl. eexists. split; [reflexivity|]. simpl. by rewrite E1, E2.
Qed.

Lemma sql_limit_split {A} n (l : list A) : exists m, sql_limit n l = take m l.
Proof. unfold sql_limit. destruct (n <? 0); [exists (length l); by rewrite firstn_all|by eexists]. Qed.

(** Deleting the ids of the first rows leaves the others. *)
Lemma delete_prefix (rs : list (Z * sample_row)) m :
  StronglySorted (fun x y : Z * sample_row => x.1 < y.1) rs ->
  List.filter (fun ir => negb (bool_decide (ir.1 ∈ map fst (take m rs)))) rs = drop m rs.
Proof.
  intros S. revert m. assert (forall m, List.filter (fun ir => negb (bool_decide (ir.1 ∈ map fst (take m rs)))) rs
    = List.filter (fun ir => negb (bool_decide (ir.1 ∈ map fst (take m rs)))) (take m rs ++ drop m rs)) as E0
    by (intros m; by rewrite take_drop).
  intros m. rewrite E0, List.filter_app.
  assert (forall a b, StronglySorted (fun x y : Z * sample_row => x.1 < y.1) (a ++ b) ->
    List.filter (fun ir => negb (bool_decide (ir.1 ∈ map fst a))) a = [] /\
    List.filter (fun ir => negb (bool_decide (ir.1 ∈ map fst a))) b = b) as K.
  { intros a b Sab. split.
    - apply filter_nil_forall. intros x Hx. apply negb_false_iff, bool_decide_eq_true.
      apply list_elem_of_fmap. by exists x.
    - apply filter_all_forall. intros x Hx. apply negb_true_iff, bool_decide_eq_false. intros (y & E & Hy)%list_elem_of_fmap.
      pose proof (StronglySorted_app_1_elem_of _ _ _ _ _ Sab Hy Hx) as L. simpl in L. lia. }
  rewrite <- (take_drop m rs) in S. destruct (K _ _ S) as [-> ->]. done.
Qed.

Lemma peek_spec k n s :
  store_ok s ->
  exists s' m d l, peek k n s = (s', Ok l) /\ store_ok s' /\ files s' !! safe_filename k = Some d /\
    k ∈ connections s' /\ m = length l /\ sql_limit n (rows d) = take m (rows d) /\ map fst l = map fst (take m (rows d)) /\
    map snd l = take m (contents s k) /\ contents s' k = contents s k /\ contents s k = db_tags d /\
    (forall f, f <> safe_filename k -> files s' !! f = files s !! f).
Proof.
  intros Hs. unfold peek. destruct (connection k s) as [s' d] eqn:C.
  pose proof (contents_connection _ _ _ _ Hs C) as Hc.
  apply connection_spec in C as (Hs' & Hf & Hd & Hk & _ & Ho); [|done].
  destruct (sql_limit_split n (rows d)) as [m0 Em0].
  set (m := length (take m0 (rows d))). assert (take m0 (rows d) = take m (rows d)) as Em.
  { unfold m. rewrite length_take. destruct (decide (m0 <= length (rows d))%nat).
    - by rewrite Nat.min_l. - rewrite Nat.min_r by lia. by rewrite firstn_all, take_ge by lia. }
  destruct (decode_rows_ok (take m (rows d))) as (l & E & E1 & E2).
  { apply Forall_take, (db_rows _ _ Hd). }
  exists s', m, d, l. rewrite Em0, Em, E. split; [done|]. split; [done|]. split; [done|]. split; [done|].
  split.
  { apply (f_equal length) in E1. rewrite !length_map in E1. rewrite E1, <- Em. done. }
  split; [done|]. split; [done|]. split; [|split; [|done]].
  - rewrite E2, Hc. unfold db_tags. pose proof (db_rows _ _ Hd) as R. revert R. generalize (rows d) m. clear.
    intros rs. induction rs as [|[i r] rs IH]; intros [|m] R; simpl; try done.
    apply Forall_cons in R as [R1 R2]. unfold row_decodes, row_tag in *. simpl in *.
    destruct (row_to_tag r); [|done]. simpl. f_equal. by apply IH.
  - unfold contents at 1. by rewrite Hf, Hc.
Qed.

Lemma omap_row_tag_take m rs : Forall row_decodes rs -> omap row_tag (take m rs) = take m (omap row_tag rs).
Proof.
  revert m; induction rs as [|[i r] rs IH]; intros [|m] R; simpl; try done.
  apply Forall_cons in R as [R1 R2]. unfold row_decodes, row_tag in *. simpl in *.
  destruct (row_to_tag r); [|done]. simpl. f_equal. by apply IH.
Qed.
Lemma omap_row_tag_drop m rs : Forall row_decodes rs -> omap row_tag (drop m rs) = drop m (omap row_tag rs).
Proof.
  revert m; induction rs as [|[i r] rs IH]; intros [|m] R; simpl; try done.
  apply Forall_cons in R as [R1 R2]. unfold row_decodes, row_tag in *. simpl in *.
  destruct (row_to_tag r); [|done]. simpl. by apply IH.
Qed.

(** Confirming what was just peeked. *)
Lemma delete_peeked k s d (l : list (Z * UnifiedTag)) m :
  store_ok s -> k ∈ connections s -> files s !! safe_filename k = Some d ->
  map fst l = map fst (take m (rows d)) ->
  let s' := delete_ids k (map fst l) s in
  store_ok s' /\ contents s' k = drop m (contents s k) /\
  (forall f, f <> safe_filename k -> files s' !! f = files s !! f).
Proof.
  intros Hs Hk Hf Hl s'. pose proof (proj1 Hs _ _ Hf) as Hd. subst s'. rewrite Hl.
  assert (contents s k = db_tags d) as Hc by (unfold contents; by rewrite Hf).
  unfold delete_ids. destruct (map fst (take m (rows d))) as [|i0 ids] eqn:E.
  - split; [done|]. split; [|done]. apply map_eq_nil in E. rewrite Hc. unfold db_tags.
    rewrite <- omap_row_tag_drop by apply (db_rows _ _ Hd). rewrite <- (take_drop m (rows d)) at 1. by rewrite E.
  - unfold connection. rewrite decide_True by done. rewrite Hf. simpl. rewrite <- E.
    split; [|split].
    + apply put_db_ok; auto. by apply db_ok_filter.
    + rewrite contents_put. unfold db_tags. simpl.
      rewrite delete_prefix by apply (db_sorted _ _ Hd). rewrite Hc. apply omap_row_tag_drop, (db_rows _ _ Hd).
    + intros f Hne. simpl. by rewrite lookup_insert_ne.
Qed.

Lemma drain_spec k n s :
  store_ok s -> 0 <= n ->
  exists s', drain k n s = (s', Ok (take (Z.to_nat n) (contents s k))) /\ store_ok s' /\
    contents s' k = drop (Z.to_nat n) (contents s k) /\
    (forall f, f <> safe_filename k -> files s' !! f = files s !! f).
Proof.
  intros Hs Hn. unfold drain. destruct (peek_spec k n s Hs) as (s1 & m & d & l & -> & Hs1 & Hf & Hk & Em & El & Hl1 & Hl2 & Hc & Hcd & Ho).
  assert (take m (contents s k) = take (Z.to_nat n) (contents s k) /\
          drop m (contents s k) = drop (Z.to_nat n) (contents s k)) as [Et Ed].
  { unfold sql_limit in El. rewrite (proj2 (Z.ltb_ge n 0)) in El by lia.
    rewrite Hcd. unfold db_tags. pose proof (db_rows _ _ (proj1 Hs1 _ _ Hf)) as R.
    rewrite <- !omap_row_tag_take, <- !omap_row_tag_drop by done. rewrite El. split; [done|]. f_equal.
    apply (f_equal length) in El. rewrite !length_take in El.
    apply list_eq. intros i. rewrite !lookup_drop.
    destruct (decide (Z.to_nat n <= length (rows d))%nat) as [Hle|Hgt].
    - assert (length l = length (take m (rows d))) as Hll
        by (apply (f_equal length) in Hl1; by rewrite !length_map in Hl1).
      rewrite length_take in Hll. f_equal. lia.
    - assert (length l = length (take m (rows d))) as Hll
        by (apply (f_equal length) in Hl1; by rewrite !length_map in Hl1).
      rewrite length_take in Hll. rewrite !lookup_ge_None_2 by lia. done. }
  pose proof (delete_peeked k s1 d l m Hs1 Hk Hf Hl1) as (Hs2 & Hc2 & Ho2).
  destruct l as [|x l'] eqn:E.
  - exists s1. simpl in Em. subst m. rewrite <- Et, <- Ed. simpl. rewrite take_0. split; [done|]. split; [done|].
    split; [by rewrite Hc, drop_0|done].
  - exists (delete_ids k (map fst (x :: l')) s1). rewrite <- Et, <- Ed. split; [by rewrite Hl2|].
    split; [done|]. split; [by rewrite Hc2, Hc|]. intros f Hf'. by rewrite Ho2, Ho.
Qed.

(** C26: each stream's database is a FIFO queue that survives closing and
    reopening: appending adds a sample at the end and reads it back unchanged,
    [peek] returns the oldest samples without removing them, and [drain]
    removes and returns exactly the oldest ones; other databases are
    untouched. *)
Theorem cold_store_fifo s k tag n :
  store_ok s -> storable tag -> 0 <= n ->
  (exists s', append k tag s = (s', Ok tt) /\ store_ok s' /\ contents s' k = contents s k ++ [tag] /\
     contents (close s') k = contents s k ++ [tag] /\
     (forall f, f <> safe_filename k -> files s' !! f = files s !! f)) /\
  (exists s' l, peek k n s = (s', Ok l) /\ store_ok s' /\ map snd l = take (length l) (contents s k) /\
     contents s' k = contents s k) /\
  (exists s', drain k n s = (s', Ok (take (Z.to_nat n) (contents s k))) /\ store_ok s' /\
     contents s' k = drop (Z.to_nat n) (contents s k) /\
     (forall f, f <> safe_filename k -> files s' !! f = files s !! f)).
Proof.
  intros Hs Ht Hn. split; [|split].
  - destruct (append_spec k tag s Hs Ht) as (s' & E & H1 & H2 & H3). by exists s'.
  - destruct (peek_spec k n s Hs) as (s1 & m & d & l & E & Hs1 & _ & _ & -> & _ & _ & Hl2 & Hc & _). by exists s1, l.
  - by apply drain_spec.
Qed.

Lemma demo_tag_storable : storable (demo_sample (VInt 5) GOOD false).
Proof. split; vm_compute; reflexivity. Qed.

Lemma cold_store_fifo_witness :
  exists s', append "plc/1" (demo_sample (VInt 5) GOOD false) empty_store = (s', Ok tt) /\ store_ok s' /\
     contents s' "plc/1" = contents empty_store "plc/1" ++ [demo_sample (VInt 5) GOOD false] /\
     contents (close s') "plc/1" = contents empty_store "plc/1" ++ [demo_sample (VInt 5) GOOD false] /\
     (forall f, f <> safe_filename "plc/1" -> files s' !! f = files empty_store !! f).
Proof.
  apply (cold_store_fifo empty_store "plc/1" (demo_sample (VInt 5) GOOD false) 0);
    [apply empty_store_ok|apply demo_tag_storable|lia].
Defined.

(** ** The store as a bag of samples: instance of the backlog contract *)

Definition stored (s : SqliteColdStore) : list UnifiedTag :=
  concat (map (fun fd => db_tags fd.2) (map_to_list (files s))).

Lemma stored_insert m f d :
  concat (map (fun fd : string * database => db_tags fd.2) (map_to_list (<[f := d]> m))) ++
    default [] (db_tags <$> m !! f) ≡ₚ
  db_tags d ++ concat (map (fun fd => db_tags fd.2) (map_to_list m)).
Proof.
  destruct (m !! f) as [d0|] eqn:E.
  - rewrite <- (insert_delete_id m f d0 E) at 2. rewrite <- (insert_delete_eq m f d).
    rewrite !map_to_list_insert by apply lookup_delete_eq. simpl.
    rewrite <- !app_assoc. f_equiv. by rewrite Permutation_app_comm.
  - simpl. rewrite app_nil_r, map_to_list_insert by done. done.
Qed.

Lemma stored_put f d s :
  stored (put_db f d s) ++ default [] (db_tags <$> files s !! f) ≡ₚ db_tags d ++ stored s.
Proof. apply stored_insert. Qed.

Lemma stored_connection k s s' d : store_ok s -> connection k s = (s', d) -> stored s' ≡ₚ stored s.
Proof.
  intros Hs C. pose proof (contents_connection _ _ _ _ Hs C) as Hc. revert C. unfold connection.
  case_decide; intros [= <- <-]; [done|]. unfold stored. simpl.
  pose proof (stored_insert (files s) (safe_filename k) {| rows := rows (default new_database (files s !! safe_filename k));
    next_id := next_id (default new_database (files s !! safe_filename k));
    meta_stream_key := match meta_stream_key (default new_database (files s !! safe_filename k)) with
                       | Some k0 => Some k0 | None => Some k end |}) as P.
  fold (contents s k) in P. rewrite Hc in P. rewrite (Permutation_app_comm (db_tags _)) in P.
  by apply Permutation_app_inv_r in P.
Qed.

(** Replacing the database of an open stream. *)
Lemma stored_replace k d d' s :
  files s !! safe_filename k = Some d -> stored (put_db (safe_filename k) d' s) ++ db_tags d ≡ₚ db_tags d' ++ stored s.
Proof. intros E. pose proof (stored_put (safe_filename k) d' s) as P. by rewrite E in P. Qed.

(** The rows whose ids were peeked still carry the peeked samples. *)
Definition peeked (s : SqliteColdStore) (k : string) (l : list (Z * UnifiedTag)) : Prop :=
  k ∈ connections s /\ exists d, files s !! safe_filename k = Some d /\
    Forall (fun p => p.1 < next_id d) l /\
    forall ir, ir ∈ rows d -> ir.1 ∈ map fst l -> exists t, row_tag ir = Some t /\ (ir.1, t) ∈ l.

(** A database that only gained rows with fresh ids, or lost rows. *)
Definition db_extends (d d' : database) : Prop :=
  next_id d <= next_id d' /\ forall ir, ir ∈ rows d' -> ir ∈ rows d \/ next_id d <= ir.1.

Lemma peeked_extends s s' k l :
  peeked s k l -> (forall k, k ∈ connections s -> k ∈ connections s') ->
  (forall f d, files s !! f = Some d -> exists d', files s' !! f = Some d' /\ db_extends d d') -> peeked s' k l.
Proof.
  intros (Hk & d & Hf & Hn & Hr) Hc He. split; [auto|]. destruct (He _ _ Hf) as (d' & Hf' & Hn' & Hr').
  exists d'. split; [done|]. split; [eapply Forall_impl; [exact Hn|]; simpl; intros; lia|].
  intros ir Hir Hin. destruct (Hr' ir Hir) as [Hir'|Hge]; [by apply Hr|]. exfalso.
  apply list_elem_of_fmap in Hin as (p & Ep & Hp). rewrite Forall_forall in Hn. specialize (Hn p Hp). lia.
Qed.

Lemma connection_extends k s s' d :
  store_ok s -> connection k s = (s', d) ->
  (forall j, j ∈ connections s -> j ∈ connections s') /\
  (forall f d0, files s !! f = Some d0 -> exists d', files s' !! f = Some d' /\ db_extends d0 d').
Proof.
  intros [H1 H2]. unfold connection. case_decide as C; intros [= <- <-]; simpl.
  - split; [done|]. intros f d0 E. exists d0. split; [done|]. split; [lia|auto].
  - split; [intros; apply elem_of_app; by left|]. intros f d0 E.
    destruct (decide (f = safe_filename k)) as [->|].
    + rewrite lookup_insert_eq, E. simpl. eexists. split; [reflexivity|]. split; simpl; [lia|auto].
    + rewrite lookup_insert_ne by done. exists d0. split; [done|]. split; [lia|auto].
Qed.

(** Replacing the database [connection] returned by one that extends it. *)
Lemma put_extends k s s1 d d' :
  store_ok s -> connection k s = (s1, d) -> db_extends d d' ->
  forall f d0, files s !! f = Some d0 ->
    exists d1, files (put_db (safe_filename k) d' s1) !! f = Some d1 /\ db_extends d0 d1.
Proof.
  intros Hs C [E1 E2] f d0 Hf. pose proof (connection_extends _ _ _ _ Hs C) as [_ He].
  apply connection_spec in C as (_ & Hd & _); [|done]. destruct (He f d0 Hf) as (d1 & Hf1 & F1 & F2). simpl.
  destruct (decide (f = safe_filename k)) as [->|]; [|rewrite lookup_insert_ne by done; by exists d1].
  rewrite lookup_insert_eq. exists d'. split; [done|]. assert (d1 = d) as -> by congruence.
  split; [lia|]. intros ir Hir. destruct (E2 ir Hir) as [H|H]; [by apply F2|right; lia].
Qed.

Lemma append_bag s k t :
  store_ok s -> storable t ->
  exists s', append k t s = (s', Ok tt) /\ store_ok s' /\ stored s' ≡ₚ t :: stored s /\
    (forall k' l, peeked s k' l -> peeked s' k' l).
Proof.
  intros Hs Ht. destruct (append_spec k t s Hs Ht) as (s' & E & Hs' & _). exists s'.
  split; [done|]. split; [done|]. unfold append in E. destruct (connection k s) as [s1 d] eqn:C.
  destruct (storable_row t Ht) as (r & Er & Hr). rewrite Er in E. injection E as <-.
  pose proof (stored_connection _ _ _ _ Hs C) as P. pose proof (connection_extends _ _ _ _ Hs C) as [Hc _].
  split.
  - pose proof (connection_spec _ _ _ _ Hs C) as (_ & Hf & _).
    eapply stored_replace in Hf. rewrite <- P. apply (Permutation_app_inv_r (db_tags d)).
    rewrite Hf. unfold db_tags at 1. simpl. rewrite omap_app. simpl. unfold row_tag at 2. simpl. rewrite Hr.
    fold (db_tags d). rewrite <- app_assoc, (Permutation_app_comm (db_tags d)). done.
  - intros k' l Hp. eapply peeked_extends; [exact Hp|done|]. eapply put_extends; [done|exact C|].
    split; simpl; [lia|]. intros ir [Hir| ->%list_elem_of_singleton]%elem_of_app; [by left|right; simpl; lia].
Qed.

Lemma purge_bag s k c s' r :
  store_ok s -> purge_older_than k c s = (s', r) ->
  store_ok s' /\ (exists ex, stored s ≡ₚ ex ++ stored s') /\ (forall k' l, peeked s k' l -> peeked s' k' l).
Proof.
  intros Hs. unfold purge_older_than. destruct (connection k s) as [s1 d] eqn:C.
  pose proof (connection_extends _ _ _ _ Hs C) as [Hc He]. pose proof (stored_connection _ _ _ _ Hs C) as P.
  pose proof (connection_spec _ _ _ _ Hs C) as (Hs1 & Hf & Hd & Hk & _).
  destruct (timestamp_ns c) as [ns|]; intros [= <- <-].
  - split; [apply put_db_ok; auto; by apply db_ok_filter|]. split.
    + set (P1 := fun ir : Z * sample_row => negb (r_timestamp_ns ir.2 <? ns)).
      exists (omap row_tag (List.filter (fun ir => negb (P1 ir)) (rows d))).
      eapply (stored_replace k d (set_rows (List.filter P1 (rows d)) d)) in Hf. rewrite <- P.
      apply (Permutation_app_inv_r (db_tags d)). rewrite <- app_assoc, Hf. rewrite Permutation_app_comm, app_assoc.
      f_equiv. unfold db_tags. simpl. rewrite <- omap_app, Permutation_app_comm.
      by rewrite (filter_split_perm P1 (rows d)) at 1.
    + intros k' l Hp. eapply peeked_extends; [exact Hp|done|]. eapply put_extends; [done|exact C|].
      split; simpl; [lia|]. intros ir [Hir _]%elem_of_list_filter. by left.
  - split; [done|]. split; [exists []; by rewrite P|]. intros k' l Hp. by eapply peeked_extends.
Qed.

(** Distinct rows paired with the samples they decode to form part of any list
    of pairs that contains them. *)
Lemma submseteq_omap_pairs (rs : list (Z * sample_row)) (l : list (Z * UnifiedTag)) (g : Z * sample_row -> option UnifiedTag) :
  (forall ir, ir ∈ rs -> exists t, g ir = Some t /\ (ir.1, t) ∈ l) ->
  StronglySorted (fun x y : Z * sample_row => x.1 < y.1) rs -> omap g rs ⊆+ map snd l.
Proof.
  intros H S. revert l H. induction S as [|ir rs S IH F]; intros l H; simpl; [apply submseteq_nil_l|].
  destruct (H ir ltac:(by left)) as (t & Et & Hl). rewrite Et.
  apply elem_of_Permutation in Hl as [l' Hp]. rewrite Hp. simpl. apply submseteq_skip, IH.
  intros ir' Hir'. destruct (H ir' ltac:(by right)) as (t' & Et' & Hl'). exists t'. split; [done|].
  rewrite Hp in Hl'. apply elem_of_cons in Hl' as [[= E _]|Hl']; [|done]. rewrite Forall_forall in F. specialize (F ir' Hir'). simpl in F. lia.
Qed.

Lemma filter_nil_of_omap (P : Z * sample_row -> bool) rs :
  Forall row_decodes rs -> omap row_tag rs = [] -> List.filter P rs = [].
Proof.
  destruct 1 as [|ir rs H1 H2]; [done|]. unfold row_decodes, row_tag in *. simpl. destruct (row_to_tag ir.2); done.
Qed.

Lemma decode_rows_lookup rs m l ir :
  StronglySorted (fun x y : Z * sample_row => x.1 < y.1) rs ->
  decode_rows (take m rs) = Ok l -> ir ∈ rs -> ir.1 ∈ map fst l -> exists t, row_tag ir = Some t /\ (ir.1, t) ∈ l.
Proof.
  intros S D Hir Hin. unfold decode_rows in D. apply mapM_res_ok in D.
  assert (ir ∈ take m rs) as Ht.
  { assert (map fst l = map fst (take m rs)) as El.
    { clear -D. induction D as [|x y xs ys Hxy _ IH]; [done|]. simpl. rewrite IH. f_equal.
      destruct (row_to_tag x.2); [|done]. simpl in Hxy. by injection Hxy as <-. }
    rewrite El in Hin. apply list_elem_of_fmap in Hin as (jr & Ej & Hj).
    rewrite <- (take_drop m rs) in Hir, S. apply elem_of_app in Hir as [|Hir]; [done|].
    pose proof (StronglySorted_app_1_elem_of _ _ _ _ _ S Hj Hir) as L. simpl in L. lia. }
  apply list_elem_of_lookup_1 in Ht as [i Hi]. destruct (Forall2_lookup_l _ _ _ _ _ D Hi) as (p & Hp & E).
  unfold row_tag. destruct (row_to_tag ir.2) as [t|]; [|done]. simpl in E. injection E as <-.
  exists t. split; [done|]. by eapply list_elem_of_lookup_2.
Qed.

(** Changing one database to the rest of its queue. *)
Lemma stored_shrink s s' k d m (l : list (Z * UnifiedTag)) :
  files s !! safe_filename k = Some d -> map snd l = take m (db_tags d) ->
  contents s' k = drop m (contents s k) -> is_Some (files s' !! safe_filename k) ->
  (forall f, f <> safe_filename k -> files s' !! f = files s !! f) ->
  stored s ≡ₚ map snd l ++ stored s'.
Proof.
  intros Hf Hl Hc [d' Hf'] Ho. unfold contents in Hc. rewrite Hf, Hf' in Hc. simpl in Hc.
  assert (files s' = <[safe_filename k := d']> (files s)) as E.
  { apply map_eq. intros f. destruct (decide (f = safe_filename k)) as [->|]; [by rewrite lookup_insert_eq|].
    rewrite lookup_insert_ne by done. by apply Ho. }
  pose proof (stored_insert (files s) (safe_filename k) d') as P. rewrite Hf in P. simpl in P. rewrite <- E in P.
  fold (stored s') (stored s) in P. rewrite Hc in P. rewrite <- (take_drop m (db_tags d)) in P at 1.
  rewrite <- Hl, app_assoc, (Permutation_app_comm (stored s')) in P.
  rewrite (Permutation_app_comm (drop m (db_tags d)) (stored s)) in P. by apply Permutation_app_inv_r in P.
Qed.

Definition covers (s : SqliteColdStore) (ks : list string) : Prop :=
  forall f, is_Some (files s !! f) -> exists k, k ∈ ks /\ safe_filename k = f.

(** Deleting by id what was peeked. *)
Lemma delete_bag s k l :
  store_ok s -> peeked s k l ->
  store_ok (delete_ids k (map fst l) s) /\
  stored s ⊆+ map snd l ++ stored (delete_ids k (map fst l) s) /\
  (forall k', contents s k' = [] -> contents (delete_ids k (map fst l) s) k' = []) /\
  (forall ks, covers s ks -> covers (delete_ids k (map fst l) s) ks).
Proof.
  intros Hs (Hk & d & Hf & _ & Hr). unfold delete_ids.
  destruct (map fst l) as [|i0 ids0] eqn:E; [split; [done|]; split; [by apply submseteq_inserts_l|done]|].
  rewrite <- E in *. clear E i0 ids0. unfold connection. rewrite decide_True by done. rewrite Hf. cbn [default from_option id].
  set (P := fun ir : Z * sample_row => negb (bool_decide (ir.1 ∈ map fst l))).
  pose proof (proj1 Hs _ _ Hf) as Hd. split; [apply put_db_ok; auto; by apply db_ok_filter|].
  split; [|split].
  - pose proof (stored_replace k d (set_rows (List.filter P (rows d)) d) s Hf) as Hp.
    set (gone := List.filter (fun ir => negb (P ir)) (rows d)).
    assert (omap row_tag gone ⊆+ map snd l) as Hsub.
    { apply (submseteq_omap_pairs gone l row_tag).
      - unfold gone. intros ir [Hir Hin]%elem_of_list_filter. unfold P in Hin.
        rewrite negb_involutive in Hin. apply bool_decide_eq_true in Hin. by apply Hr.
      - unfold gone. apply StronglySorted_list_filter. apply (db_sorted _ _ Hd). }
    assert (db_tags d ≡ₚ db_tags (set_rows (List.filter P (rows d)) d) ++ omap row_tag gone) as Hsplit.
    { unfold db_tags. simpl. rewrite <- omap_app. by rewrite (filter_split_perm P (rows d)) at 1. }
    rewrite Hsplit in Hp. rewrite app_assoc in Hp.
    rewrite (Permutation_app_comm (stored _)), <- app_assoc in Hp. apply Permutation_app_inv_l in Hp.
    rewrite <- Hp, Permutation_app_comm. by apply submseteq_skips_r.
  - intros k' Hk'. unfold contents in *. simpl.
    destruct (decide (safe_filename k' = safe_filename k)) as [Es|Es].
    + rewrite Es in *. rewrite lookup_insert_eq. rewrite Hf in Hk'. simpl in *. unfold db_tags in *. simpl.
      rewrite (filter_nil_of_omap P); [done|apply (db_rows _ _ Hd)|done].
    + by rewrite lookup_insert_ne by done.
  - intros ks Hc f. simpl. destruct (decide (f = safe_filename k)) as [->|].
    + intros _. apply Hc. by eexists.
    + rewrite lookup_insert_ne by done. apply Hc.
Qed.

Lemma delete_keeps_file k (ids : list Z) s f : is_Some (files s !! f) -> is_Some (files (delete_ids k ids s) !! f).
Proof.
  intros H. unfold delete_ids, connection. destruct ids; [done|]. case_decide; simpl;
    (destruct (decide (f = safe_filename k)) as [->|]; [rewrite lookup_insert_eq; by eexists|]);
    by rewrite !lookup_insert_ne by done.
Qed.

Lemma peek_bag s k n :
  store_ok s ->
  exists s' l, peek k n s = (s', Ok l) /\ store_ok s' /\ stored s' ≡ₚ stored s /\ peeked s' k l /\
    stored s ≡ₚ map snd l ++ stored (delete_ids k (map fst l) s') /\
    (1 <= n -> l = [] -> contents s' k = []) /\
    (forall k', contents s k' = [] -> contents s' k' = []) /\
    (forall ks, covers s ks -> k ∈ ks -> covers s' ks).
Proof.
  intros Hs. destruct (peek_spec k n s Hs) as (s' & m & d & l & E & Hs' & Hf & Hk & Em & El & Hl1 & Hl2 & Hc & Hcd & Ho).
  assert (stored s' ≡ₚ stored s) as Hst.
  { unfold peek in E. destruct (connection k s) as [s1 d1] eqn:C. injection E as <- _. by eapply stored_connection. }
  pose proof (proj1 Hs' _ _ Hf) as Hd.
  assert (peeked s' k l) as Hpk.
  { split; [done|]. exists d. split; [done|]. split.
    - apply Forall_forall. intros p Hp. assert (p.1 ∈ map fst l) as Hin by (apply list_elem_of_fmap; by exists p).
      rewrite Hl1 in Hin. apply list_elem_of_fmap in Hin as (ir & -> & Hir). apply elem_of_take in Hir as (j & Hir & _).
      apply list_elem_of_lookup_2 in Hir. pose proof (db_next _ _ Hd) as N. rewrite Forall_forall in N. by apply N.
    - intros ir Hir Hin. unfold peek in E. destruct (connection k s) as [s1 d1] eqn:C. injection E as <- El'.
      apply connection_spec in C as (_ & Hf1 & _); [|done]. assert (d1 = d) as -> by congruence.
      rewrite El in El'. apply (decode_rows_lookup (rows d) m l); [apply (db_sorted _ _ Hd)|done|done|done]. }
  exists s', l. split; [done|]. split; [done|]. split; [done|]. split; [done|].
  split; [|split; [|split]].
  - pose proof (delete_peeked k s' d l m Hs' Hk Hf Hl1) as (_ & Hc2 & Ho2).
    rewrite <- Hst. apply (stored_shrink s' (delete_ids k (map fst l) s') k d m l Hf); auto; [by rewrite Hl2, Hcd|].
    by apply delete_keeps_file.
  - intros Hn ->. rewrite Hc, Hcd. simpl in Em. subst m. unfold sql_limit in El.
    rewrite (proj2 (Z.ltb_ge n 0)) in El by lia. unfold db_tags. destruct (rows d) as [|x t]; [done|].
    rewrite take_0 in El. destruct (Z.to_nat n) eqn:En; [lia|done].
  - intros k' Hk'. destruct (decide (safe_filename k' = safe_filename k)) as [Es|Es].
    + unfold contents in *. rewrite Es in *. exact (eq_trans Hc Hk').
    + refine (eq_trans _ Hk'). apply contents_ext. by apply Ho.
  - intros ks Hcov Hin f [d' Hf']. destruct (decide (f = safe_filename k)) as [->|]; [by exists k|].
    apply Hcov. rewrite Ho in Hf' by done. by eexists.
Qed.

Lemma elem_of_py_sorted {A} (leb : A -> A -> bool) x (l : list A) : x ∈ py_sorted leb l <-> x ∈ l.
Proof. by rewrite py_sorted_perm. Qed.

Lemma stream_keys_cover s : store_ok s -> covers s (stream_keys s).
Proof.
  intros [H1 _] f [d Hf]. destruct (db_meta _ _ (H1 _ _ Hf)) as (k & Hm & <-). exists k. split; [|done].
  unfold stream_keys, sorted_strings. apply elem_of_py_sorted, elem_of_remove_dups, elem_of_app. right.
  apply list_elem_of_omap. exists (safe_filename k, d). split; [by apply elem_of_map_to_list|done].
Qed.

Lemma covered_empty s ks : covers s ks -> (forall k, k ∈ ks -> contents s k = []) -> stored s = [].
Proof.
  intros Hc He. unfold stored. apply concat_nil_Forall, Forall_map, Forall_forall. intros [f d] Hfd.
  apply elem_of_map_to_list in Hfd. destruct (Hc f ltac:(by eexists)) as (k & Hk & <-).
  specialize (He k Hk). unfold contents in He. by rewrite Hfd in He.
Qed.

#[export] Instance sqlite_backlog : BacklogStore SqliteColdStore := {
  bl_append := append; bl_peek := peek; bl_delete := delete_ids; bl_purge := purge_older_than;
  bl_keys := stream_keys; bl_ok := store_ok; bl_storable := storable; bl_stored := stored;
  bl_peeked := peeked; bl_empty := fun s k => contents s k = []; bl_covers := covers;
  bl_append_law := append_bag; bl_peek_law := peek_bag; bl_delete_law := delete_bag;
  bl_purge_law := purge_bag; bl_keys_law := stream_keys_cover; bl_covers_law := covered_empty
}.
