(* ===== verification/Assets.v ===== *)
(** * Asset layer (src/xedge/core/assets.py)

    Assets reference existing tags; they influence the running system through
    the spill filter of the cold store and through derived connection states. *)

From S2P Require Import Prelude PyBytes PyFloat PyDict Pipeline Connectivity.
Local Open Scope string_scope.
Local Open Scope list_scope.
Local Open Scope Z_scope.

Record AssetParameter := { tag_ref : string; alias : option string; unit_ : option string; store : bool }.
Record Asset := {
  asset_id : string;
  asset_name : string;
  enabled : bool;
  serial_number : option string;
  asset_type : option string;
  make : option string;
  model : option string;
  firmware_version : option string;
  description : option string;
  gateway_id : option string;
  parameters : list AssetParameter
}.

(** Entries of the [assets] section; [option] for keys read with [get]. *)
Record RawParameter := {
  rp_tag_ref : option string; rp_alias : option string; rp_unit : option string; rp_store : option bool
}.
Record RawAsset := {
  ra_id : option string; ra_name : option string; ra_enabled : option bool;
  ra_serial_number : option string; ra_asset_type : option string; ra_make : option string;
  ra_model : option string; ra_firmware_version : option string; ra_description : option string;
  ra_gateway_id : option string; ra_parameters : option (list RawParameter)
}.

(** [entry["key"]] *)
Definition required {A} (o : option A) : res A := match o with Some a => Ok a | None => Raise KeyError end.

Definition parse_parameter (p : RawParameter) : res AssetParameter :=
  let* r := required (rp_tag_ref p) in
  Ok {| tag_ref := r; alias := rp_alias p; unit_ := rp_unit p; store := default true (rp_store p) |}.

Definition parse_asset (e : RawAsset) : res Asset :=
  let* i := required (ra_id e) in
  let* n := required (ra_name e) in
  let* ps := mapM_res parse_parameter (default [] (ra_parameters e)) in
  Ok {| asset_id := i; asset_name := n; enabled := default true (ra_enabled e);
        serial_number := ra_serial_number e; asset_type := ra_asset_type e; make := ra_make e;
        model := ra_model e; firmware_version := ra_firmware_version e; description := ra_description e;
        gateway_id := ra_gateway_id e; parameters := ps |}.

Definition parse_assets (assets_config : list RawAsset) : res (list Asset) := mapM_res parse_asset assets_config.

Definition nonempty (o : option string) : bool :=
  match o with Some s => negb (String.eqb s "") | None => false end.

(** The [id] of a tag is read with [get] here: an absent one is the empty id. *)
Definition all_tag_refs (drivers_config : list RawDriver) : gset string :=
  list_to_set (concat (map (fun d =>
    if nonempty (rd_id d) then
      concat (map (fun g =>
        omap (fun t => if String.eqb (rt_id t) "" then None else Some (full_tag_id (rd_id d) (rt_id t)))
             (default [] (rg_tags g))) (default [] (rd_tag_groups d)))
    else []) drivers_config)).

(** The errors of [validate_asset_references], as (asset index, parameter
    index, tag_ref). *)
Definition validate_asset_references (assets_config : option (list RawAsset)) (drivers : option (list RawDriver))
    : list (nat * nat * string) :=
  match assets_config with
  | None | Some [] => []
  | Some assets =>
      let valid_refs := all_tag_refs (default [] drivers) in
      concat (imap (fun ai e =>
        omap id (imap (fun pi p =>
          match rp_tag_ref p with
          | Some r => if negb (String.eqb r "") && negb (bool_decide (r ∈ valid_refs)) then Some (ai, pi, r) else None
          | None => None
          end) (default [] (ra_parameters e)))) assets)
  end.

(** The [for asset ... for parameter ...] loop over both sets. *)
Definition collect_parameter (acc : gset string * gset string) (p : AssetParameter) : gset string * gset string :=
  if store p then (acc.1, acc.2 ∪ {[tag_ref p]}) else (acc.1 ∪ {[tag_ref p]}, acc.2).
Definition compute_suppressed_tag_ids (assets : list Asset) : gset string :=
  let '(suppress_candidates, explicitly_wanted) :=
    fold_left (fun acc a => fold_left collect_parameter (parameters a) acc) assets (∅, ∅) in
  suppress_candidates ∖ explicitly_wanted.

(** [AssetStorageFilter]: the set it holds, rebuilt by [__init__] and [refresh]. *)
Definition make_filter (assets_config : list RawAsset) : res (gset string) :=
  let* assets := parse_assets assets_config in Ok (compute_suppressed_tag_ids assets).

(** [AssetStorageFilter.wrap] *)
Definition filtered_append {S} (append : string -> UnifiedTag -> S -> S * res unit) (suppressed : gset string)
    (stream_key : string) (tag : UnifiedTag) (s : S) : S * res unit :=
  if decide (tag_id tag ∈ suppressed) then (s, Ok tt) else append stream_key tag s.

Definition compute_asset_connection_state (instance_states : list ConnectivityState) : ConnectivityState :=
  let all_are (c : ConnectivityState) := forallb (fun s => bool_decide (s = c)) instance_states in
  if all_are UNKNOWN then UNKNOWN
  else if all_are CONNECTED then CONNECTED
  else if all_are NOT_CONNECTED then NOT_CONNECTED
  else DEGRADED.

(** [s.split("/", 1)[0]] *)
Fixpoint before_slash (s : string) : string :=
  match s with
  | EmptyString => EmptyString
  | String c t => if Ascii.eqb c (Ascii.ascii_of_nat 47) then EmptyString else String c (before_slash t)
  end.

Definition asset_backing_instance_ids (a : Asset) : gset string :=
  list_to_set (map (fun p => before_slash (tag_ref p)) (parameters a)).

Definition derive_asset_connection_state (a : Asset) (driver_connectivity : gmap string ConnectivityState) : ConnectivityState :=
  compute_asset_connection_state (omap (fun i => driver_connectivity !! i) (elements (asset_backing_instance_ids a))).

(** ** Properties *)

Definition all_parameters (assets : list Asset) : list AssetParameter := concat (map parameters assets).

Lemma collect_parameters ps acc r :
  (r ∈ (fold_left collect_parameter ps acc).1 <-> r ∈ acc.1 \/ exists p, p ∈ ps /\ tag_ref p = r /\ store p = false) /\
  (r ∈ (fold_left collect_parameter ps acc).2 <-> r ∈ acc.2 \/ exists p, p ∈ ps /\ tag_ref p = r /\ store p = true).
Proof.
  revert acc; induction ps as [|p ps IH]; intros acc; cbn [fold_left].
  { rewrite !exists_elem_nil. tauto. }
  destruct (IH (collect_parameter acc p)) as [-> ->]. rewrite !exists_elem_cons. unfold collect_parameter.
  destruct (store p) eqn:E; simpl; rewrite elem_of_union, elem_of_singleton; naive_solver.
Qed.

(** a tag is kept out of the cold store exactly when some asset parameter
    asks for it not to be stored and no parameter of any asset asks for it to
    be stored: a conflicting reference never loses data. *)
Theorem suppressed_iff assets r :
  r ∈ compute_suppressed_tag_ids assets <->
  (exists p, p ∈ all_parameters assets /\ tag_ref p = r /\ store p = false) /\
  ~ (exists p, p ∈ all_parameters assets /\ tag_ref p = r /\ store p = true).
Proof.
  unfold compute_suppressed_tag_ids, all_parameters.
  assert (forall acc, fold_left (fun acc a => fold_left collect_parameter (parameters a) acc) assets acc =
                      fold_left collect_parameter (concat (map parameters assets)) acc) as E.
  { induction assets as [|a assets IH]; intros acc; simpl; [done|]. by rewrite fold_left_app, IH. }
  rewrite E. pose proof (collect_parameters (concat (map parameters assets)) (∅, ∅) r) as [H1 H2].
  destruct (fold_left _ _ _) as [c w]. simpl in *. rewrite elem_of_difference, H1, H2, !elem_of_empty. tauto.
Qed.

Lemma forallb_elem_of {A} (f : A -> bool) l : forallb f l = true <-> forall x, x ∈ l -> f x = true.
Proof. rewrite forallb_forall. split; intros H x Hx; apply H; by apply list_elem_of_In. Qed.

(** The derived state does not depend on the iteration order of the set of
    backing instances. *)
Lemma connection_state_perm l l' : l ≡ₚ l' -> compute_asset_connection_state l = compute_asset_connection_state l'.
Proof.
  intros P. unfold compute_asset_connection_state.
  assert (forall c, forallb (fun s => bool_decide (s = c)) l = forallb (fun s => bool_decide (s = c)) l') as E.
  { intros c. apply eq_true_iff_eq. rewrite !forallb_elem_of. split; intros H x Hx; apply H; [by rewrite P|by rewrite <- P]. }
  by rewrite !E.
Qed.
