(* ===== verification/Dispatcher.v ===== *)
(** * Northbound dispatcher over ring buffers and backlog
    (src/xedge/northbound/dispatcher.py, base.py)

    [NorthboundDispatcher.run] as a machine whose program counter says at which
    suspension point the coroutine waits.  Between two suspension points the
    pipeline may push samples, the purge loop may expire rows and the asset
    filter may be refreshed: [sys_step] interleaves all of them.  The store is
    any [BacklogStore]. *)

From S2P Require Import Prelude PyBytes PyFloat PyDict PyTime Pipeline RingBuffer Backlog ColdStore Assets.
Local Open Scope string_scope.
Local Open Scope list_scope.
Local Open Scope Z_scope.

(** Backoff seconds; every value the code computes is an integer. *)
Definition INITIAL_BACKOFF_SECONDS : Z := 1.
Definition MAX_BACKOFF_SECONDS : Z := 300.
Definition BACKOFF_MULTIPLIER : Z := 2.
Definition DEFAULT_REPLAY_BATCH_SIZE : Z := 500.
Definition next_backoff (b : Z) : Z := Z.min (b * BACKOFF_MULTIPLIER) MAX_BACKOFF_SECONDS.

(** How [await connector.publish(batch)] ends: a [PublishResult] with or
    without success, or an exception. *)
Inductive publish_outcome := PubOk | PubFail | PubRaise.

Inductive pc :=
  | PTop                                                        (* head of [while True] *)
  | PConnect                                                    (* [await connector.connect()] *)
  | PReplay (keys : list string)                                (* before the next [peek] *)
  | PReplayPublish (key : string) (keys : list string) (rows : list (Z * UnifiedTag))
  | PBackoff                                                    (* [await asyncio.sleep(backoff)] *)
  | PWait                                                       (* [wait_for(trigger, interval)] *)
  | PLive (batch : list UnifiedTag)                             (* [await connector.publish(batch)] *)
  | PDead.                                                      (* an exception left [run] *)

Section Dispatcher.
Context {S : Type} `{BacklogStore S}.
Context (replay_batch_size : Z).

Record sys := {
  ring : RingBufferManager;
  backlog : S;
  suppressed : gset string;
  connected : bool;
  backoff : Z;
  at_ : pc;
  (** bookkeeping: what happened to the samples *)
  accepted : list UnifiedTag;
  delivered : list UnifiedTag;
  lost : list UnifiedTag;
  discarded : list UnifiedTag;
  expired : list UnifiedTag
}.

Definition goto (s : sys) (p : pc) : sys :=
  {| ring := ring s; backlog := backlog s; suppressed := suppressed s; connected := connected s;
     backoff := backoff s; at_ := p; accepted := accepted s; delivered := delivered s; lost := lost s;
     discarded := discarded s; expired := expired s |}.
Definition set_connection (s : sys) (c : bool) (b : Z) : sys :=
  {| ring := ring s; backlog := backlog s; suppressed := suppressed s; connected := c;
     backoff := b; at_ := at_ s; accepted := accepted s; delivered := delivered s; lost := lost s;
     discarded := discarded s; expired := expired s |}.
Definition set_store (s : sys) (st : S) : sys :=
  {| ring := ring s; backlog := st; suppressed := suppressed s; connected := connected s;
     backoff := backoff s; at_ := at_ s; accepted := accepted s; delivered := delivered s; lost := lost s;
     discarded := discarded s; expired := expired s |}.
Definition set_ring (s : sys) (r : RingBufferManager) : sys :=
  {| ring := r; backlog := backlog s; suppressed := suppressed s; connected := connected s;
     backoff := backoff s; at_ := at_ s; accepted := accepted s; delivered := delivered s; lost := lost s;
     discarded := discarded s; expired := expired s |}.
Definition deliver (s : sys) (l : list UnifiedTag) : sys :=
  {| ring := ring s; backlog := backlog s; suppressed := suppressed s; connected := connected s;
     backoff := backoff s; at_ := at_ s; accepted := accepted s; delivered := delivered s ++ l; lost := lost s;
     discarded := discarded s; expired := expired s |}.
Definition lose (s : sys) (l : list UnifiedTag) : sys :=
  {| ring := ring s; backlog := backlog s; suppressed := suppressed s; connected := connected s;
     backoff := backoff s; at_ := at_ s; accepted := accepted s; delivered := delivered s; lost := lost s ++ l;
     discarded := discarded s; expired := expired s |}.

Inductive event :=
  | DTop | DConnected | DConnectFailed | DReplayNext | DPublished (r : publish_outcome)
  | DBackoffElapsed | DWake.

(** [if not self._connected: ... connect()] *)
Definition run_top (s : sys) : sys := goto s (if connected s then PWait else PConnect).

(** [connect()] returned: mark connected, reset the backoff, list the backlogs. *)
Definition run_connected (s : sys) : sys :=
  goto (set_connection s true INITIAL_BACKOFF_SECONDS) (PReplay (bl_keys (backlog s))).

(** The body of [while True] in [_replay_cold_store], up to the publish. *)
Definition replay_next (s : sys) (keys : list string) : sys :=
  match keys with
  | [] => goto s PWait
  | k :: ks =>
      match bl_peek k replay_batch_size (backlog s) with
      | (st, Raise _) => goto (set_store s st) PBackoff
      | (st, Ok []) => goto (set_store s st) (PReplay ks)
      | (st, Ok rows) => goto (set_store s st) (PReplayPublish k ks rows)
      end
  end.

(** The rest of that body: delete on confirmed success, give up on failure. *)
Definition replay_published (s : sys) (k : string) (ks : list string) (rows : list (Z * UnifiedTag))
    (r : publish_outcome) : sys :=
  match r with
  | PubOk => goto (deliver (set_store s (bl_delete k (map fst rows) (backlog s))) (map snd rows)) (PReplay (k :: ks))
  | PubFail => goto (set_connection s false (backoff s)) PWait
  | PubRaise => goto s PBackoff
  end.

(** The wait is over: drain everything and publish it. *)
Definition run_wake (s : sys) : sys :=
  let '(batch, r) := drain_all (ring s) None in
  match batch with
  | [] => goto (set_ring s r) PTop
  | _ => goto (set_ring s r) (PLive batch)
  end.

Definition live_published (s : sys) (batch : list UnifiedTag) (r : publish_outcome) : sys :=
  match r with
  | PubOk => goto (deliver s batch) PTop
  | PubFail => goto (lose (set_connection s false (backoff s)) batch) PTop
  | PubRaise => goto (lose s batch) PDead
  end.

Definition dispatch (s : sys) (e : event) : option sys :=
  match at_ s, e with
  | PTop, DTop => Some (run_top s)
  | PConnect, DConnected => Some (run_connected s)
  | PConnect, DConnectFailed => Some (goto s PBackoff)
  | PReplay keys, DReplayNext => Some (replay_next s keys)
  | PReplayPublish k ks rows, DPublished r => Some (replay_published s k ks rows r)
  | PBackoff, DBackoffElapsed => Some (goto (set_connection s (connected s) (next_backoff (backoff s))) PTop)
  | PWait, DWake => Some (run_wake s)
  | PLive batch, DPublished r => Some (live_published s batch r)
  | _, _ => None
  end.

(** The eviction callback of the running system, remembering what the asset
    filter kept from the store. *)
Definition spill (sup : gset string) (k : string) (t : UnifiedTag) (sd : S * list UnifiedTag)
    : (S * list UnifiedTag) * res unit :=
  let '(st, r) := filtered_append bl_append sup k t sd.1 in
  (st, if decide (tag_id t ∈ sup) then sd.2 ++ [t] else sd.2, r).

Definition env_push (s : sys) (key : string) (tag : UnifiedTag) (alarm : bool) : sys * res unit :=
  let '(r, (st, dis), out) := mgr_push (Some (spill (suppressed s))) (ring s) key tag alarm (backlog s, discarded s) in
  ({| ring := r; backlog := st; suppressed := suppressed s; connected := connected s; backoff := backoff s;
      at_ := at_ s; accepted := if is_ok out then accepted s ++ [tag] else accepted s;
      delivered := delivered s; lost := lost s; discarded := dis; expired := expired s |}, out).

Inductive sys_step (s : sys) : sys -> Prop :=
  | step_dispatch e s' : dispatch s e = Some s' -> sys_step s s'
  | step_push key tag alarm s' out : bl_storable tag -> env_push s key tag alarm = (s', out) -> sys_step s s'
  | step_purge key cutoff st r ex :
      bl_purge key cutoff (backlog s) = (st, r) -> bl_stored (backlog s) ≡ₚ ex ++ bl_stored st ->
      sys_step s {| ring := ring s; backlog := st; suppressed := suppressed s; connected := connected s;
                    backoff := backoff s; at_ := at_ s; accepted := accepted s; delivered := delivered s;
                    lost := lost s; discarded := discarded s; expired := ex ++ expired s |}
  | step_refresh sup :
      sys_step s {| ring := ring s; backlog := backlog s; suppressed := sup; connected := connected s;
                    backoff := backoff s; at_ := at_ s; accepted := accepted s; delivered := delivered s;
                    lost := lost s; discarded := discarded s; expired := expired s |}.

(** A process start: an empty ring over whatever store is on disk. *)
Definition boot (depth : Z) (st : S) (sup : gset string) : sys :=
  {| ring := make_manager depth; backlog := st; suppressed := sup; connected := false;
     backoff := INITIAL_BACKOFF_SECONDS; at_ := PTop; accepted := bl_stored st; delivered := []; lost := [];
     discarded := []; expired := [] |}.

Inductive reachable (depth : Z) : sys -> Prop :=
  | reach_boot st sup : bl_ok st -> reachable depth (boot depth st sup)
  | reach_step s s' : reachable depth s -> sys_step s s' -> reachable depth s'.

Definition in_flight (s : sys) : list UnifiedTag := match at_ s with PLive b => b | _ => [] end.

(** Where samples can be. *)
Definition accounted (s : sys) : list UnifiedTag :=
  held (ring s) ++ bl_stored (backlog s) ++ in_flight s ++ delivered s ++ lost s ++ discarded s ++ expired s.

Record inv (depth : Z) (s : sys) : Prop := {
  inv_store : bl_ok (backlog s);
  inv_ring : mgr_ok (ring s);
  inv_depth : mgr_max_depth (ring s) = depth;
  inv_held : Forall bl_storable (held (ring s));
  inv_peeked : forall k ks rows, at_ s = PReplayPublish k ks rows -> bl_peeked (backlog s) k rows;
  inv_all : accepted s ⊆+ accounted s;
  inv_backoff : 1 <= backoff s <= MAX_BACKOFF_SECONDS
}.
End Dispatcher.
Arguments sys : clear implicits.

Section Invariant.
Context {S : Type} `{BacklogStore S}.
Context (batch_size depth : Z).
Hypothesis depth_pos : 1 <= depth.
Implicit Types s : sys S.

(** A control step that moves no sample. *)
Lemma inv_goto s p c b :
  inv depth s -> in_flight s = [] -> (forall k ks rows, p <> PReplayPublish k ks rows) ->
  (forall l, p <> PLive l) -> 1 <= b <= MAX_BACKOFF_SECONDS ->
  inv depth (goto (set_connection s c b) p).
Proof.
  intros [I1 I2 I3 I4 I5 I6 I7] F N1 N2 Hb. constructor; auto.
  - simpl. intros k ks rows E. by destruct (N1 k ks rows).
  - assert (in_flight (goto (set_connection s c b) p) = []) as E.
    { unfold in_flight. simpl. destruct p; try done. by destruct (N2 batch). }
    unfold accounted in *. rewrite E. rewrite F in I6. exact I6.
Qed.

Lemma goto_same s p : goto s p = goto (set_connection s (connected s) (backoff s)) p.
Proof. by destruct s. Qed.

Lemma next_backoff_range b : 1 <= b <= MAX_BACKOFF_SECONDS -> 1 <= next_backoff b <= MAX_BACKOFF_SECONDS.
Proof. unfold next_backoff, MAX_BACKOFF_SECONDS, BACKOFF_MULTIPLIER. lia. Qed.

(** Replacing the store by an equivalent one. *)
Lemma inv_set_store s st :
  inv depth s -> bl_ok st -> bl_stored st ≡ₚ bl_stored (backlog s) ->
  (forall k ks rows, at_ s <> PReplayPublish k ks rows) -> inv depth (set_store s st).
Proof.
  intros [I1 I2 I3 I4 I5 I6 I7] Hok Hp N. constructor; auto.
  - simpl. intros k ks rows E. by destruct (N k ks rows).
  - unfold accounted, in_flight in *. simpl. by rewrite Hp.
Qed.

Lemma inv_replay_next s keys : inv depth s -> at_ s = PReplay keys -> inv depth (replay_next batch_size s keys).
Proof.
  intros I E. pose proof I as [I1 I2 I3 I4 I5 I6 I7].
  assert (in_flight s = []) as F by (unfold in_flight; by rewrite E).
  destruct keys as [|k ks]; simpl; [rewrite goto_same; apply inv_goto; auto|].
  destruct (bl_peek_law (backlog s) k batch_size I1) as (st & l & -> & Hok & Hst & Hpk & _).
  assert (inv depth (set_store s st)) as Is by (apply inv_set_store; auto; congruence).
  destruct l as [|x l]; [rewrite goto_same; apply inv_goto; auto|].
  pose proof Is as [J1 J2 J3 J4 J5 J6 J7]. constructor; auto.
  - simpl. intros k' ks' rows [= <- <- <-]. done.
  - unfold accounted, in_flight in *. simpl in *. rewrite E in J6. exact J6.
Qed.

Lemma inv_replay_published s k ks rows r :
  inv depth s -> at_ s = PReplayPublish k ks rows -> inv depth (replay_published s k ks rows r).
Proof.
  intros I E. pose proof I as [I1 I2 I3 I4 I5 I6 I7].
  assert (in_flight s = []) as F by (unfold in_flight; by rewrite E).
  destruct r; simpl.
  - pose proof (bl_delete_law (backlog s) k rows I1 (I5 _ _ _ E)) as (Hok & Hsub & _).
    constructor; auto; [by simpl|]. unfold accounted in *. rewrite F in I6. unfold in_flight. simpl.
    rewrite I6. etransitivity; [apply submseteq_skips_l, submseteq_skips_r, Hsub|].
    apply Permutation_submseteq. simpl. solve_perm.
  - apply inv_goto; auto.
  - rewrite goto_same. apply inv_goto; auto.
Qed.

Lemma inv_run_wake s : inv depth s -> at_ s = PWait -> inv depth (run_wake s).
Proof.
  intros I E. pose proof I as [I1 I2 I3 I4 I5 I6 I7]. unfold run_wake.
  pose proof (drain_all_held (ring s)) as [Hb Hh].
  pose proof (drain_all_ok (ring s) ltac:(rewrite I3; lia) I2) as Hr.
  assert (mgr_max_depth (drain_all (ring s) None).2 = depth) as Hd.
  { rewrite <- I3. unfold drain_all. by destruct (drain_values (buffers (ring s)) None). }
  destruct (drain_all (ring s) None) as [batch r]. simpl in *. subst batch.
  assert (inv depth (goto (set_ring s r) (PLive (held (ring s))))) as G.
  { constructor; simpl; auto; [rewrite Hh; constructor|done|].
    unfold accounted, in_flight in *. simpl. rewrite Hh. rewrite E in I6. rewrite I6.
    apply Permutation_submseteq. solve_perm. }
  destruct (held (ring s)) as [|x l]; [|exact G].
  destruct G as [G1 G2 G3 G4 G5 G6 G7]. by constructor.
Qed.

Lemma inv_live_published s batch r : inv depth s -> at_ s = PLive batch -> inv depth (live_published s batch r).
Proof.
  intros [I1 I2 I3 I4 I5 I6 I7] E. unfold accounted, in_flight in I6. rewrite E in I6.
  destruct r; (constructor; simpl; auto; [done|]); unfold accounted, in_flight; simpl; rewrite I6;
    apply Permutation_submseteq; solve_perm.
Qed.

Lemma inv_dispatch s e s' : inv depth s -> dispatch batch_size s e = Some s' -> inv depth s'.
Proof.
  intros I. pose proof (inv_backoff depth s I) as B. unfold dispatch.
  destruct (at_ s) eqn:E, e; intros D; try discriminate D; injection D as <-;
    try (assert (in_flight s = []) as F by (unfold in_flight; by rewrite E)).
  - unfold run_top. rewrite goto_same. apply inv_goto; auto; by destruct (connected s).
  - apply inv_goto; auto. unfold INITIAL_BACKOFF_SECONDS, MAX_BACKOFF_SECONDS. lia.
  - rewrite goto_same. apply inv_goto; auto.
  - by apply inv_replay_next.
  - by apply inv_replay_published.
  - apply inv_goto; auto. by apply next_backoff_range.
  - by apply inv_run_wake.
  - by apply inv_live_published.
Qed.

(** The callback moves an evicted sample to the store or to the discards. *)
Lemma spill_spec sup k t (st : S) dis :
  bl_ok st -> bl_storable t ->
  exists st' dis', spill sup k t (st, dis) = (st', dis', Ok tt) /\ bl_ok st' /\
    bl_stored st' ++ dis' ≡ₚ t :: bl_stored st ++ dis /\ (forall k' l, bl_peeked st k' l -> bl_peeked st' k' l).
Proof.
  intros Hok Ht. unfold spill, filtered_append. simpl. case_decide.
  - exists st, (dis ++ [t]). repeat split; auto. by rewrite app_assoc, Permutation_app_comm.
  - destruct (bl_append_law st k t Hok Ht) as (st' & -> & Hok' & Hst & Hpk).
    exists st', dis. repeat split; auto. by rewrite Hst.
Qed.

Lemma inv_env_push s key tag alarm s' out :
  inv depth s -> bl_storable tag -> env_push s key tag alarm = (s', out) -> inv depth s'.
Proof.
  intros [I1 I2 I3 I4 I5 I6 I7] Ht. unfold env_push.
  destruct (mgr_push _ _ _ _ _ _) as [[r [st dis]] o] eqn:P. intros [= <- <-].
  assert (mgr_max_depth r = depth) as Hd.
  { unfold mgr_push in P. destruct (push _ _ _ _) as [[b x] y]. by injection P as <- _ _. }
  apply mgr_push_cases in P; [|rewrite I3; lia|done].
  assert (forall g, held r ++ bl_stored st ++ dis ≡ₚ g ++ held (ring s) ++ bl_stored (backlog s) ++ discarded s ->
    accepted s ++ g ⊆+ held r ++ bl_stored st ++ in_flight s ++ delivered s ++ lost s ++ dis ++ expired s) as Hacc.
  { intros g Hg. etransitivity; [apply submseteq_skips_r, I6|]. unfold accounted. apply Permutation_submseteq.
    transitivity ((held r ++ bl_stored st ++ dis) ++ in_flight s ++ delivered s ++ lost s ++ expired s); [rewrite Hg|]; solve_perm. }
  destruct P as [(-> & [= -> ->] & Hh & Hr)|[(ev & Hev & Hf & Hok)|(-> & [= -> ->] & Hh & Hr)]].
  - constructor; simpl; auto; [rewrite Hh; by constructor|]. apply Hacc. rewrite Hh. solve_perm.
  - rewrite Forall_forall in I4. destruct (spill_spec (suppressed s) key ev (backlog s) (discarded s) I1 (I4 _ Hev))
      as (st' & dis' & E & Hst & Hb & Hpk).
    rewrite E in Hf. injection Hf as -> -> <-. destruct (Hok eq_refl) as [Hh Hr].
    constructor; simpl; auto; [|intros; eapply Hpk, I5; eauto|].
    + apply Forall_forall. intros x Hx. assert (x ∈ ev :: held r) as Hx' by (by right). rewrite Hh in Hx'.
      apply elem_of_cons in Hx' as [->|Hx']; auto.
    + apply Hacc. apply (Permutation_app_inv_l [ev]). rewrite Hb.
      change ([ev] ++ held r ++ ?l) with ((ev :: held r) ++ l). rewrite Hh.
      change (tag :: held (ring s)) with ([tag] ++ held (ring s)).
      change (ev :: ?l) with ([ev] ++ l). solve_perm.
  - constructor; simpl; auto; [by rewrite Hh|]. rewrite <- (app_nil_r (accepted s)). apply Hacc. simpl. by rewrite Hh.
Qed.

Lemma inv_sys_step s s' : inv depth s -> sys_step batch_size s s' -> inv depth s'.
Proof.
  intros I. inversion 1; subst; [by eapply inv_dispatch|by eapply inv_env_push| |];
    destruct I as [I1 I2 I3 I4 I5 I6 I7].
  - match goal with P : bl_purge _ _ _ = _ |- _ => pose proof (bl_purge_law _ _ _ _ _ I1 P) as (Hok & _ & Hpk) end.
    constructor; simpl; auto; [intros; eapply Hpk, I5; eauto|].
    etransitivity; [exact I6|]. unfold accounted, in_flight. simpl. apply Permutation_submseteq.
    match goal with P : bl_stored _ ≡ₚ _ |- _ => rewrite P end. solve_perm.
  - by constructor.
Qed.

Lemma sys_reachable_inv s : reachable batch_size depth s -> inv depth s.
Proof.
  induction 1 as [st sup Hok|s s' _ I St]; [|by eapply inv_sys_step].
  constructor; simpl; auto; try done.
  - by split; simpl; [constructor|].
  - unfold accounted. simpl. by rewrite !app_nil_r.
Qed.
End Invariant.

(** C1: no sample vanishes: whatever the interleaving of pipeline pushes,
    publishes, failures, reconnects, replays, purges and filter changes, every
    sample accepted by a ring buffer (and every sample found on disk at start)
    is still held, stored, in flight, delivered, expired by the retention
    policy, kept out of the store by the asset filter, or in a batch whose live
    publish failed; and the reconnect backoff stays between 1 and 300
    seconds. *)
Theorem dispatcher_no_sample_vanishes {S} `{BacklogStore S} batch_size depth (s : sys S) :
  1 <= depth -> reachable batch_size depth s ->
  accepted s ⊆+ accounted s /\ 1 <= backoff s <= MAX_BACKOFF_SECONDS.
Proof. intros Hd R. apply sys_reachable_inv in R; [|done]. split; [apply R|apply R]. Qed.

Definition demo_boot : sys SqliteColdStore := boot 10 empty_store ∅.
Definition demo_pushed : sys SqliteColdStore := (env_push demo_boot "d" (demo_sample (VInt 5) GOOD false) false).1.
Lemma demo_pushed_reachable : reachable 500 10 demo_pushed.
Proof.
  apply (reach_step _ _ demo_boot); [apply reach_boot, empty_store_ok|].
  eapply (step_push _ _ "d" (demo_sample (VInt 5) GOOD false) false); [apply demo_tag_storable|].
  vm_compute. reflexivity.
Qed.
Lemma dispatcher_no_sample_vanishes_witness :
  accepted demo_pushed ⊆+ accounted demo_pushed /\ 1 <= backoff demo_pushed <= MAX_BACKOFF_SECONDS.
Proof. apply (dispatcher_no_sample_vanishes 500 10); [lia|apply demo_pushed_reachable]. Defined.

(** ** Replay *)

Section Replay.
Context {S : Type} `{BacklogStore S}.
Context (batch_size : Z).
Implicit Types s : sys S.

(** The replay of [_replay_cold_store] with every publish succeeding. *)
Fixpoint run_replay (fuel : nat) (s : sys S) : option (sys S) :=
  match fuel with
  | O => None
  | Datatypes.S n =>
      match at_ s with
      | PWait => Some s
      | PReplay _ => match dispatch batch_size s DReplayNext with Some s' => run_replay n s' | None => None end
      | PReplayPublish _ _ _ =>
          match dispatch batch_size s (DPublished PubOk) with Some s' => run_replay n s' | None => None end
      | _ => None
      end
  end.

Lemma run_replay_spec all ks s fuel :
  1 <= batch_size -> bl_ok (backlog s) -> at_ s = PReplay ks -> bl_covers (backlog s) all ->
  (forall k, k ∈ ks -> k ∈ all) -> (forall k, k ∈ all -> k ∈ ks \/ bl_empty (backlog s) k) ->
  (2 * length (bl_stored (backlog s)) + length ks + 2 <= fuel)%nat ->
  exists s', run_replay fuel s = Some s' /\ at_ s' = PWait /\ bl_ok (backlog s') /\
    bl_stored (backlog s') = [] /\ delivered s' ≡ₚ delivered s ++ bl_stored (backlog s) /\
    ring s' = ring s /\ lost s' = lost s /\ connected s' = connected s.
Proof.
  intros Hb. revert ks s. induction (lt_wf fuel) as [fuel _ IH]. intros ks s Hok Hat Hcov Hsub Hemp Hf.
  destruct fuel as [|fuel]; [lia|]. cbn [run_replay]. rewrite Hat. unfold dispatch. rewrite Hat.
  destruct ks as [|k ks]; cbn [replay_next].
  - destruct fuel as [|fuel]; [simpl in Hf; lia|].
    assert (bl_stored (backlog s) = []) as E.
    { apply (bl_covers_law _ all Hcov). intros k Hk. destruct (Hemp k Hk) as [Hk'|]; [by inversion Hk'|done]. }
    exists (goto s PWait). simpl. rewrite E, app_nil_r. done.
  - destruct (bl_peek_law (backlog s) k batch_size Hok) as (st & l & -> & Hok1 & Hst & Hpk & Hdel & Hnil & Hem1 & Hcv1).
    assert (k ∈ all) as Hk by (apply Hsub; by left). specialize (Hcv1 all Hcov Hk).
    destruct l as [|x l].
    + destruct (IH fuel ltac:(lia) ks (goto (set_store s st) (PReplay ks))) as (s' & E & H1 & H2 & H3 & H4 & H5 & H6 & H7); simpl; auto.
      * intros j Hj. apply Hsub. by right.
      * intros j Hj. destruct (Hemp j Hj) as [[->|Hj']%elem_of_cons|He]; auto.
      * rewrite (Permutation_length Hst). simpl in Hf. lia.
      * exists s'. simpl in *. rewrite Hst in H4. done.
    + destruct fuel as [|fuel]; [simpl in Hf; lia|]. cbn [run_replay goto at_]. unfold dispatch. cbn [goto at_ replay_published].
      pose proof (bl_delete_law st k (x :: l) Hok1 Hpk) as (Hok2 & _ & Hem2 & Hcv2).
      set (s2 := goto _ _).
      assert (length (bl_stored (backlog s)) = Datatypes.S (length l) + length (bl_stored (backlog s2)))%nat as Hlen.
      { rewrite (Permutation_length Hdel), length_app, length_map. done. }
      destruct (IH fuel ltac:(lia) (k :: ks) s2) as (s' & E & H1 & H2 & H3 & H4 & H5 & H6 & H7); simpl; auto.
      * intros j Hj. destruct (Hemp j Hj); auto.
      * simpl in Hf, Hlen. lia.
      * exists s'. simpl in *. repeat split; auto.
        rewrite H4, Hdel, <- app_assoc. simpl. by rewrite <- !Permutation_middle.
Qed.
End Replay.

(** C25: after a reconnect the replay empties the whole backlog: starting from
    the keys the store lists, with every publish succeeding and a batch size of
    at least one, the replay terminates after at most two turns per stored
    sample and one per stream, nothing is left in any database (streams of an
    earlier process and of removed drivers included), and every stored sample
    was delivered exactly once. *)
Theorem replay_delivers_backlog {S} `{BacklogStore S} batch_size depth (s : sys S) :
  1 <= depth -> 1 <= batch_size -> reachable batch_size depth s ->
  at_ s = PReplay (bl_keys (backlog s)) ->
  exists s', run_replay batch_size (2 * length (bl_stored (backlog s)) + length (bl_keys (backlog s)) + 2) s = Some s' /\
    at_ s' = PWait /\ bl_stored (backlog s') = [] /\
    delivered s' ≡ₚ delivered s ++ bl_stored (backlog s) /\ ring s' = ring s /\ lost s' = lost s /\
    connected s' = connected s.
Proof.
  intros Hd Hb R Hat. apply sys_reachable_inv in R as I; [|done]. pose proof (inv_store _ _ I) as Hok.
  edestruct (run_replay_spec batch_size (bl_keys (backlog s)) (bl_keys (backlog s)) s)
    as (s' & E & H1 & _ & H3 & H4 & H5 & H6 & H7); eauto using bl_keys_law.
  exists s'. done.
Qed.

(** A process that starts over a store with one sample of an earlier run. *)
Definition demo_disk : SqliteColdStore := Eval vm_compute in
  close (append "plc/1" (demo_sample (VInt 5) GOOD false) empty_store).1.
Definition demo_replay : sys SqliteColdStore :=
  goto (set_connection (boot 10 demo_disk ∅) true 1) (PReplay (stream_keys demo_disk)).
Lemma demo_disk_ok : store_ok demo_disk.
Proof.
  destruct (append_spec "plc/1" (demo_sample (VInt 5) GOOD false) empty_store empty_store_ok demo_tag_storable)
    as (s' & E & [H1 _] & _).
  assert (demo_disk = close s') as ->.
  { replace s' with (append "plc/1" (demo_sample (VInt 5) GOOD false) empty_store).1 by (by rewrite E).
    vm_compute. reflexivity. }
  split; [exact H1|]. simpl. set_solver.
Qed.
Lemma demo_replay_reachable : reachable 500 10 demo_replay.
Proof.
  apply (reach_step _ _ (goto (boot 10 demo_disk ∅) PConnect)); [|by apply (step_dispatch _ _ DConnected)].
  apply (reach_step _ _ (boot 10 demo_disk ∅)); [apply reach_boot, demo_disk_ok|].
  by apply (step_dispatch _ _ DTop).
Qed.

Lemma replay_delivers_backlog_witness :
  exists s', run_replay 500 (2 * length (bl_stored (backlog demo_replay)) + length (bl_keys (backlog demo_replay)) + 2)
               demo_replay = Some s' /\
    at_ s' = PWait /\ bl_stored (backlog s') = [] /\
    delivered s' ≡ₚ delivered demo_replay ++ bl_stored (backlog demo_replay) /\ ring s' = ring demo_replay /\
    lost s' = lost demo_replay /\ connected s' = connected demo_replay.
Proof.
  apply (replay_delivers_backlog 500 10 demo_replay); [lia|lia|apply demo_replay_reachable|reflexivity].
Defined.

(** ** Behaviours the surrounding comments do not promise *)

Fixpoint run_dispatch (s : sys SqliteColdStore) (es : list event) : option (sys SqliteColdStore) :=
  match es with
  | [] => Some s
  | e :: t => match dispatch 500 s e with Some s' => run_dispatch s' t | None => None end
  end.

(** A batch whose live publish fails is gone: it was drained from the ring and
    is not put into the store, so the replay after the next reconnect does not
    deliver it. *)
Example live_failure_loses_batch :
  match run_dispatch demo_pushed [DTop; DConnected; DReplayNext; DWake; DPublished PubFail;
                                  DTop; DConnected; DReplayNext; DWake] with
  | Some s => accepted s = [demo_sample (VInt 5) GOOD false] /\ held (ring s) = [] /\ stored (backlog s) = [] /\
              delivered s = [] /\ lost s = [demo_sample (VInt 5) GOOD false]
  | None => False
  end.
Proof. vm_compute. repeat split. Qed.

(** A replay that fails marks the connector disconnected, yet the loop goes on
    to wait and to publish live data on it instead of reconnecting first. *)
Example failed_replay_still_publishes :
  match run_dispatch demo_replay [DReplayNext; DPublished PubFail] with
  | Some s => connected s = false /\ at_ s = PWait
  | None => False
  end.
Proof. vm_compute. repeat split. Qed.

(** A replay that raises is treated as a failed connect but leaves the
    connected flag set: the loop resumes live publishing without replaying the
    rest of the backlog. *)
Example raising_replay_not_resumed :
  match run_dispatch demo_replay [DReplayNext; DPublished PubRaise; DBackoffElapsed; DTop] with
  | Some s => connected s = true /\ at_ s = PWait /\ stored (backlog s) <> []
  | None => False
  end.
Proof. vm_compute. repeat split. discriminate. Qed.
