(* ===== verification/ModbusPolling.v ===== *)
(** * Shared Modbus polling driver (src/xedge/drivers/modbus/polling.py)

    Configuration, block reads with retries and tag-by-tag fallback, and
    write-back.  The transport hooks ([_read_block], [_write_one],
    [_write_registers]) are a [ModbusTransport]; each submission to the
    scheduler runs one hook and returns its result (ModbusScheduler.v).  The
    clocks are oracles: [wall i] is what the [i]-th [datetime.now(UTC)] returns
    and [latency] the measured latency in milliseconds. *)

From Stdlib Require Import Floats.SpecFloat.
From stdpp Require Import pretty.
From S2P Require Import Prelude PyBytes PyFloat PyDict Connectivity Pipeline ModbusCodec ModbusDatatypes ModbusPlanner.
Local Open Scope string_scope.
Local Open Scope list_scope.
Local Open Scope Z_scope.

Definition hex_digit (n : Z) : string :=
  String (Ascii.ascii_of_nat (Z.to_nat (if n <? 10 then 48 + n else 55 + n))) EmptyString.
(** [f"{n:02X}"] of a byte. *)
Definition hex2 (n : Z) : string := hex_digit (n / 16) +:+ hex_digit (n mod 16).

(** What a read returns: registers or bits, in ascending address order. *)
Inductive values := Regs (l : list Z) | Bits (l : list bool).

(** The transport hooks a subclass implements. *)
Class ModbusTransport (T : Type) := {
  read_block : FunctionCode -> Z -> Z -> SR T values;
  write_one : FunctionCode -> Z -> Z -> SR T unit;
  write_registers : Z -> list Z -> SR T unit
}.

Definition FUNCTION_CODE_BY_NAME (name : string) : option FunctionCode :=
  if String.eqb name "read_coils" then Some READ_COILS
  else if String.eqb name "read_discrete_inputs" then Some READ_DISCRETE_INPUTS
  else if String.eqb name "read_holding_registers" then Some READ_HOLDING_REGISTERS
  else if String.eqb name "read_input_registers" then Some READ_INPUT_REGISTERS
  else None.

Definition WRITE_FUNCTION_CODE_FOR_READ (name : string) : option FunctionCode :=
  if String.eqb name "read_coils" then Some WRITE_SINGLE_COIL
  else if String.eqb name "read_holding_registers" then Some WRITE_SINGLE_REGISTER
  else None.

Definition DEFAULT_RETRY_COUNT : Z := 0.
Definition ACCESS_READ_WRITE : string := "read_write".
Definition ACCESS_READ_ONLY : string := "read_only".
Definition ACCESS_WRITE_ONLY : string := "write_only".
Definition POLLING_MODE_CONTINUOUS : string := "continuous".
Definition POLLING_MODE_ON_CONNECT : string := "on_connect".
Definition POLLING_MODE_ON_DEMAND : string := "on_demand".

Definition tag_access (tag : ModbusTag) : string := default ACCESS_READ_WRITE (tag_access_opt tag).

(** [float(value)] for any [TagValue]; a string or bytes that is no number
    raises. *)
Definition float_one : pfloat := float_of_Z_raw 1.
Definition inverse_scale (parse_float : string -> res pfloat) (v : TagValue) (scaling : option RawScaling) : res pfloat :=
  let as_float := match v with VStr s => parse_float s | VBytes _ => Raise ValueError | _ => value_float v end in
  match scaling with
  | None => as_float
  | Some sc =>
      let scale := default (NFloat float_one) (raw_scale sc) in
      let offset := default (NFloat fzero) (raw_offset sc) in
      let* x := as_float in
      let* o := num_float offset in
      let* s := num_float scale in
      fdiv (fsub x o) s
  end.

(** One tag group as the driver reads it. *)
Record TagGroup := {
  tg_id : string;
  tg_tags : list ModbusTag;
  tg_max_block_size : option Z;
  tg_max_block_gap : option Z;
  tg_polling_mode : option string;
  tg_scan_rate_ms : num
}.

Record ModbusConfig := {
  mc_failure_threshold : option Z;
  mc_recovery_threshold : option Z;
  mc_retry_count : option Z;
  mc_retry_on_exception : option bool;
  mc_retry_backoff_seconds : option num
}.

Record DriverConfig := { instance_id : string; dc_config : ModbusConfig; tag_groups : list TagGroup }.

Record driver (T : Type) := {
  d_config : option DriverConfig;
  d_metrics : DriverMetrics;
  d_tags_by_id : dict ModbusTag;
  d_blocks_by_group : dict (list ReadBlock);
  d_connectivity : ConnectivityTracker;
  d_triggers : dict bool;
  d_transport : T;
  d_clock : nat
}.
Arguments d_config {T}. Arguments d_metrics {T}. Arguments d_tags_by_id {T}. Arguments d_blocks_by_group {T}.
Arguments d_connectivity {T}. Arguments d_triggers {T}. Arguments d_transport {T}. Arguments d_clock {T}.

Section Driver.
Context {T : Type} `{ModbusTransport T}.
Context (wall : nat -> Z) (latency : nat -> pfloat) (parse_float : string -> res pfloat).

Definition with_metrics (f : DriverMetrics -> DriverMetrics) (d : driver T) : driver T :=
  {| d_config := d_config d; d_metrics := f (d_metrics d); d_tags_by_id := d_tags_by_id d;
     d_blocks_by_group := d_blocks_by_group d; d_connectivity := d_connectivity d;
     d_triggers := d_triggers d; d_transport := d_transport d; d_clock := d_clock d |}.
Definition with_connectivity (f : ConnectivityTracker -> ConnectivityTracker) (d : driver T) : driver T :=
  {| d_config := d_config d; d_metrics := d_metrics d; d_tags_by_id := d_tags_by_id d;
     d_blocks_by_group := d_blocks_by_group d; d_connectivity := f (d_connectivity d);
     d_triggers := d_triggers d; d_transport := d_transport d; d_clock := d_clock d |}.
Definition with_transport (t : T) (d : driver T) : driver T :=
  {| d_config := d_config d; d_metrics := d_metrics d; d_tags_by_id := d_tags_by_id d;
     d_blocks_by_group := d_blocks_by_group d; d_connectivity := d_connectivity d;
     d_triggers := d_triggers d; d_transport := t; d_clock := d_clock d |}.

(** [datetime.now(UTC)] *)
Definition now_utc : SR (driver T) Z := fun d =>
  ({| d_config := d_config d; d_metrics := d_metrics d; d_tags_by_id := d_tags_by_id d;
      d_blocks_by_group := d_blocks_by_group d; d_connectivity := d_connectivity d;
      d_triggers := d_triggers d; d_transport := d_transport d; d_clock := S (d_clock d) |}, Ok (wall (d_clock d))).

(** [await self._scheduler.submit(priority, hook)] *)
Definition submit {A} (hook : SR T A) : SR (driver T) A := fun d =>
  let '(t, r) := hook (d_transport d) in (with_transport t d, r).

Definition require_config : SR (driver T) DriverConfig := fun d =>
  match d_config d with Some c => (d, Ok c) | None => (d, Raise ModbusDriverStateError) end.

(** [configure], raising where the tracker or the planner raises. *)
Definition plan_group (group : TagGroup) : res (string * list ReadBlock) :=
  let readable_tags := List.filter (fun t => negb (String.eqb (tag_access t) ACCESS_WRITE_ONLY)) (tg_tags group) in
  let* blocks := plan_read_blocks readable_tags FUNCTION_CODE_BY_NAME (tg_max_block_size group)
                   (default DEFAULT_MAX_BLOCK_GAP (tg_max_block_gap group)) in
  Ok (tg_id group, blocks).

Definition tags_by_id_of (groups : list TagGroup) : dict ModbusTag :=
  fold_left (fun m t => dict_set (tag_name t) t m) (concat (map tg_tags groups)) [].

Definition on_demand (group : TagGroup) : bool :=
  String.eqb (default POLLING_MODE_CONTINUOUS (tg_polling_mode group)) POLLING_MODE_ON_DEMAND.

Fixpoint plan_groups (groups : list TagGroup) (acc : dict (list ReadBlock)) : dict (list ReadBlock) * res unit :=
  match groups with
  | [] => (acc, Ok tt)
  | g :: gs => match plan_group g with
               | Ok (k, bs) => plan_groups gs (dict_set k bs acc)
               | Raise e => (acc, Raise e)
               end
  end.

Definition configure (config : DriverConfig) : SR (driver T) unit := fun d =>
  let cfg := dc_config config in
  let d1 := {| d_config := Some config; d_metrics := d_metrics d; d_tags_by_id := tags_by_id_of (tag_groups config);
               d_blocks_by_group := d_blocks_by_group d; d_connectivity := d_connectivity d;
               d_triggers := d_triggers d; d_transport := d_transport d; d_clock := d_clock d |} in
  let '(d2, clock) := now_utc d1 in
  match (let* c := clock in
         make_tracker c (default DEFAULT_FAILURE_THRESHOLD (mc_failure_threshold cfg))
                        (default DEFAULT_RECOVERY_THRESHOLD (mc_recovery_threshold cfg))) with
  | Raise e => (d2, Raise e)
  | Ok tracker =>
      let '(blocks, r) := plan_groups (tag_groups config) [] in
      ({| d_config := Some config; d_metrics := d_metrics d; d_tags_by_id := tags_by_id_of (tag_groups config);
          d_blocks_by_group := blocks; d_connectivity := tracker;
          d_triggers := fold_left (fun m g => if on_demand g then dict_set (tg_id g) false m else m) (tag_groups config) [];
          d_transport := d_transport d; d_clock := d_clock d2 |}, r)
  end.

(** ** Reading *)

Definition exception_name (code : Z) : string :=
  match ExceptionCode_of code with
  | Some ILLEGAL_FUNCTION => "ILLEGAL_FUNCTION"
  | Some ILLEGAL_DATA_ADDRESS => "ILLEGAL_DATA_ADDRESS"
  | Some ILLEGAL_DATA_VALUE => "ILLEGAL_DATA_VALUE"
  | Some SLAVE_DEVICE_FAILURE => "SLAVE_DEVICE_FAILURE"
  | Some ACKNOWLEDGE => "ACKNOWLEDGE"
  | Some SLAVE_DEVICE_BUSY => "SLAVE_DEVICE_BUSY"
  | Some MEMORY_PARITY_ERROR => "MEMORY_PARITY_ERROR"
  | Some GATEWAY_PATH_UNAVAILABLE => "GATEWAY_PATH_UNAVAILABLE"
  | Some GATEWAY_TARGET_DEVICE_FAILED_TO_RESPOND => "GATEWAY_TARGET_DEVICE_FAILED_TO_RESPOND"
  | None => "UNKNOWN(0x" +:+ hex2 code +:+ ")"
  end.

(** [int(v)] of each value. *)
Definition value_ints (vs : values) : list Z := match vs with Regs l => l | Bits l => map bool_int l end.

(** The value part of [_good_update]. *)
Definition tag_registers_value (tag : ModbusTag) (registers : list Z) : res TagValue :=
  rmap (fun v => match v with NInt z => VInt z | NFloat f => VFloat f end)
    (decode registers (default DEFAULT_DATA_TYPE (tag_data_type tag))
       (default DEFAULT_WORD_ORDER (tag_word_order tag)) (default DEFAULT_BYTE_ORDER (tag_byte_order tag))).
Definition good_value (planned : PlannedTag) (block : ReadBlock) (vs : values) : res TagValue :=
  if is_bit_function (rb_function_code block) then
    rmap (fun v => VBool (negb (v =? 0))) (index (value_ints vs) (pt_offset planned))
  else
    tag_registers_value (pt_tag planned)
      (slice (value_ints vs) (pt_offset planned) (pt_offset planned + pt_span planned)).

(** [f"{instance_id}/{tag['id']}"] *)
Definition tag_full_id (iid : string) (tag : ModbusTag) : string := iid +:+ "/" +:+ tag_name tag.

Definition good_update (iid : string) (block : ReadBlock) (vs : values) (latency_ms : pfloat)
    (planned : PlannedTag) : SR (driver T) TagUpdate :=
  let! v := slift (good_value planned block vs) in
  let! ts := now_utc in
  sret {| tu_tag_id := tag_full_id iid (pt_tag planned); tu_timestamp := ts; tu_value := v; tu_quality := GOOD;
          tu_source_driver := iid; tu_source_address := pretty (tag_address (pt_tag planned));
          tu_source_timestamp := None;
          tu_metadata := [("modbus_exception", JNull); ("request_latency_ms", JNum (NFloat latency_ms));
                          ("batched_with", JNum (NInt (zlen (rb_tags block) - 1)))] |}.

Definition placeholder (fc : FunctionCode) (tag : ModbusTag) : TagValue :=
  if is_bit_function fc then VBool false
  else if is_float (default DEFAULT_DATA_TYPE (tag_data_type tag)) then VFloat fzero else VInt 0.

Definition bad_update (iid : string) (fc : FunctionCode) (code : Z) (planned : PlannedTag) : SR (driver T) TagUpdate :=
  let! ts := now_utc in
  sret {| tu_tag_id := tag_full_id iid (pt_tag planned); tu_timestamp := ts;
          tu_value := placeholder fc (pt_tag planned); tu_quality := BAD;
          tu_source_driver := iid; tu_source_address := pretty (tag_address (pt_tag planned));
          tu_source_timestamp := None;
          tu_metadata := [("modbus_exception", JNum (NInt code)); ("modbus_exception_name", JStr (exception_name code))] |}.

Definition add_errors (m : DriverMetrics) : DriverMetrics :=
  {| tag_read_count := tag_read_count m; error_count := error_count m + 1; reconnect_count := reconnect_count m;
     last_successful_read := last_successful_read m |}.

(** Which failures [_read_block_with_retries] may retry. *)
Definition retryable (retry_on_exception : bool) (e : exn) : bool :=
  match e with
  | ModbusException _ _ => retry_on_exception
  | TimeoutError | OSError | ConnectionError | PermissionError | FileNotFoundError | ModbusFramingError => true
  | _ => false
  end.

(** [_read_block_with_retries]: [attempts_left] is [retry_count - attempt]. *)
Fixpoint read_attempts (attempts_left : nat) (retry_on_exception : bool) (block : ReadBlock) : SR (driver T) values :=
  scatch (submit (read_block (rb_function_code block) (rb_address block) (rb_quantity block)))
    (fun e =>
       match attempts_left with
       | O => sraise e
       | S n =>
           if retryable retry_on_exception e then
             let! _ := smodify (with_metrics add_errors) in
             read_attempts n retry_on_exception block
           else sraise e
       end).
Definition read_block_with_retries (block : ReadBlock) : SR (driver T) values :=
  let! config := require_config in
  let cfg := dc_config config in
  read_attempts (Z.to_nat (default DEFAULT_RETRY_COUNT (mc_retry_count cfg)))
    (default false (mc_retry_on_exception cfg)) block.

Definition record_outcome (failure : option string) : SR (driver T) unit :=
  let! clock := now_utc in
  smodify (with_connectivity (fun t =>
    match failure with
    | None => record_success clock None t
    | Some reason => record_failure clock None (Some reason) t
    end)).

(** [_read_one_block] with [_read_block_tag_by_tag] abstracted. *)
Definition read_one_block_with (fallback : ReadBlock -> SR (driver T) (list TagUpdate)) (iid : string)
    (block : ReadBlock) : SR (driver T) (list TagUpdate) := fun d =>
  match read_block_with_retries block d with
  | (d, Raise (ModbusException fc code)) =>
      (let! _ := record_outcome (Some (exception_name code)) in
       if is_batched block then fallback block
       else
         let! _ := smodify (with_metrics add_errors) in
         match rb_tags block with
         | [] => sraise IndexError
         | planned :: _ =>
             let! u := bad_update iid (rb_function_code block) code planned in sret [u]
         end) d
  | (d, Raise e) => (d, Raise e)
  | (d, Ok vs) =>
      (let! _ := record_outcome None in
       let! lat := sget (fun d => latency (d_clock d)) in
       let! ts := now_utc in
       let! _ := smodify (with_metrics (fun m =>
         {| tag_read_count := tag_read_count m + zlen (rb_tags block); error_count := error_count m;
            reconnect_count := reconnect_count m; last_successful_read := Some ts |})) in
       smapM (good_update iid block vs lat) (rb_tags block)) d
  end.

Definition single_block (block : ReadBlock) (planned : PlannedTag) : ReadBlock :=
  {| rb_function_code := rb_function_code block; rb_address := tag_address (pt_tag planned);
     rb_quantity := pt_span planned;
     rb_tags := [{| pt_tag := pt_tag planned; pt_offset := 0; pt_span := pt_span planned |}] |}.

(** A block of one tag never falls back, so the recursion of the source stops
    after one level ([read_single_unfold]). *)
Definition read_single (iid : string) (block : ReadBlock) : SR (driver T) (list TagUpdate) :=
  read_one_block_with (fun _ => sret []) iid block.

Definition read_block_tag_by_tag (iid : string) (block : ReadBlock) : SR (driver T) (list TagUpdate) :=
  let! lists := smapM (fun planned => read_single iid (single_block block planned)) (rb_tags block) in
  sret (concat lists).

Definition read_one_block (iid : string) (block : ReadBlock) : SR (driver T) (list TagUpdate) :=
  read_one_block_with (read_block_tag_by_tag iid) iid block.

(** [_read_and_publish]: the updates put on the output queue, in order. *)
Fixpoint read_and_publish (iid : string) (blocks : list ReadBlock) : SR (driver T) (list TagUpdate) :=
  match blocks with
  | [] => sret []
  | b :: bs => let! us := read_one_block iid b in let! rest := read_and_publish iid bs in sret (us ++ rest)
  end.

Definition poll_now (group_id : string) : SR (driver T) bool := fun d =>
  match dict_get group_id (d_triggers d) with
  | None => (d, Ok false)
  | Some _ =>
      ({| d_config := d_config d; d_metrics := d_metrics d; d_tags_by_id := d_tags_by_id d;
          d_blocks_by_group := d_blocks_by_group d; d_connectivity := d_connectivity d;
          d_triggers := dict_set group_id true (d_triggers d); d_transport := d_transport d;
          d_clock := d_clock d |}, Ok true)
  end.

(** ** Writing *)

Definition value_truth (v : TagValue) : bool :=
  match v with
  | VBool b => b | VInt z => negb (z =? 0) | VFloat f => negb (feqb f fzero)
  | VStr s => negb (String.eqb s "") | VBytes l => negb (is_nil l)
  end.

(** FC06 for one register, FC16 for several. *)
Definition send_registers (wfc : FunctionCode) (address : Z) (registers : list Z) : SR (driver T) unit :=
  match registers with
  | [r] => submit (write_one wfc address r)
  | _ => submit (write_registers address registers)
  end.

Definition write_register_tag (wfc : FunctionCode) (address : Z) (v : TagValue) (tag : ModbusTag) : SR (driver T) unit :=
  let dt := default DEFAULT_DATA_TYPE (tag_data_type tag) in
  let! inverse := slift (inverse_scale parse_float v (tag_scaling tag)) in
  let! raw := (if is_float dt then sret (NFloat inverse) else slift (rmap NInt (round_int inverse))) in
  let! registers := slift (encode raw dt (default DEFAULT_WORD_ORDER (tag_word_order tag))
                             (default DEFAULT_BYTE_ORDER (tag_byte_order tag))) in
  send_registers wfc address registers.

Inductive write_error := UnknownTag | TagReadOnly | ReadOnlyMemory | Rejected (e : exn).

(** [write]: [inl] the error of a refused write, [inr tt] success; an exception
    outside the two caught types escapes. *)
Definition write (tid : string) (v : TagValue) : SR (driver T) (write_error + unit) := fun d =>
  match dict_get tid (d_tags_by_id d) with
  | None => (d, Ok (inl UnknownTag))
  | Some tag =>
      if String.eqb (tag_access tag) ACCESS_READ_ONLY then (d, Ok (inl TagReadOnly))
      else match WRITE_FUNCTION_CODE_FOR_READ (tag_function_code tag) with
      | None => (d, Ok (inl ReadOnlyMemory))
      | Some wfc =>
          let attempt : SR (driver T) unit :=
            match wfc with
            | WRITE_SINGLE_COIL => submit (write_one wfc (tag_address tag) (bool_int (value_truth v)))
            | _ => write_register_tag wfc (tag_address tag) v tag
            end in
          match attempt d with
          | (d, Ok _) => (d, Ok (inr tt))
          | (d, Raise (ModbusException a b)) => (with_metrics add_errors d, Ok (inl (Rejected (ModbusException a b))))
          | (d, Raise ModbusDataTypeError) => (with_metrics add_errors d, Ok (inl (Rejected ModbusDataTypeError)))
          | (d, Raise e) => (d, Raise e)
          end
      end
  end.
End Driver.

(** ** Reading a device with unmapped addresses *)

Section Device.
Context {T : Type} `{ModbusTransport T}.
Context (wall : nat -> Z) (latency : nat -> pfloat).

(** The device's memory: what each table holds at each address, [None] for an
    address it rejects. *)
Definition memory := FunctionCode -> Z -> option Z.

Definition mappedb (mem : memory) (fc : FunctionCode) (a n : Z) : bool :=
  forallb (fun i => bool_decide (is_Some (mem fc i))) (seqZ a n).
Definition cells (mem : memory) (fc : FunctionCode) (a n : Z) : list Z :=
  map (fun i => default 0 (mem fc i)) (seqZ a n).
Definition cells_values (mem : memory) (fc : FunctionCode) (a n : Z) : values :=
  if is_bit_function fc then Bits (map (fun v => negb (v =? 0)) (cells mem fc a n)) else Regs (cells mem fc a n).

(** A read request a driver may send: a read function and a range the encoder
    accepts. *)
Definition request_ok (fc : FunctionCode) (a n : Z) : Prop :=
  is_bit_function fc || is_register_function fc = true /\ read_request_ok fc a n.
(** A transport in one of the states [P] answers reads from [mem] and stays in
    [P]: the values if every address is mapped, an illegal-data-address
    exception otherwise. *)
Definition reads_memory (mem : memory) (P : T -> Prop) : Prop :=
  forall t fc a n, P t -> request_ok fc a n ->
    exists t', read_block fc a n t =
      (t', if mappedb mem fc a n then Ok (cells_values mem fc a n) else Raise (ModbusException (fc_value fc) 2)) /\ P t'.

(** What the tag's update must say. *)
Definition tag_reading (mem : memory) (fc : FunctionCode) (tag : ModbusTag) (span : Z) : res TagValue :=
  if is_bit_function fc then Ok (VBool (negb (default 0 (mem fc (tag_address tag)) =? 0)))
  else tag_registers_value tag (cells mem fc (tag_address tag) span).

Definition reports (mem : memory) (fc : FunctionCode) (iid : string) (p : PlannedTag) (u : TagUpdate) : Prop :=
  tu_tag_id u = tag_full_id iid (pt_tag p) /\ tu_source_driver u = iid /\
  if mappedb mem fc (tag_address (pt_tag p)) (pt_span p)
  then tu_quality u = GOOD /\ tag_reading mem fc (pt_tag p) (pt_span p) = Ok (tu_value u)
  else tu_quality u = BAD /\ tu_value u = placeholder fc (pt_tag p).

Context (P : T -> Prop).
Definition kept (d d' : driver T) : Prop :=
  (P (d_transport d) -> P (d_transport d')) /\ d_config d' = d_config d /\ d_tags_by_id d' = d_tags_by_id d.
Lemma kept_refl d : kept d d.
Proof. done. Qed.
Lemma kept_trans d1 d2 d3 : kept d1 d2 -> kept d2 d3 -> kept d1 d3.
Proof. unfold kept. intuition congruence. Qed.

Definition block_ok (b : ReadBlock) : Prop := request_ok (rb_function_code b) (rb_address b) (rb_quantity b).

Lemma read_attempts_spec mem block n retry d :
  reads_memory mem P -> P (d_transport d) -> block_ok block ->
  exists d', read_attempts n retry block d =
    (d', if mappedb mem (rb_function_code block) (rb_address block) (rb_quantity block)
         then Ok (cells_values mem (rb_function_code block) (rb_address block) (rb_quantity block))
         else Raise (ModbusException (fc_value (rb_function_code block)) 2)) /\ kept d d'.
Proof.
  intros Hm. revert d; induction n as [|n IH]; intros d Hr Hb; cbn [read_attempts]; unfold scatch, submit;
    destruct (Hm _ _ _ _ Hr Hb) as (t' & -> & Ht); destruct (mappedb _ _ _ _) eqn:M; try (by eexists).
  destruct (retryable retry _); [|by eexists]. cbn [smodify sbind]. unfold sbind, smodify.
  destruct (IH (with_metrics add_errors (with_transport t' d)) Ht Hb) as (d' & E & K). exists d'. split; [exact E|].
  eapply kept_trans; [|exact K]. done.
Qed.

Lemma slice_seqZ a n o k : 0 <= o -> 0 <= k -> o + k <= n -> slice (seqZ a n) o (o + k) = seqZ (a + o) k.
Proof.
  intros. unfold slice. replace (o + k - o) with k by lia. apply list_eq. intros i.
  destruct (decide (i < Z.to_nat k)%nat).
  - rewrite lookup_take_lt, lookup_drop by lia. rewrite !lookup_seqZ_lt by lia. f_equal. lia.
  - rewrite lookup_take_ge by lia. symmetry. apply lookup_seqZ_ge. lia.
Qed.

Lemma slice_map {A B} (f : A -> B) l a b : slice (map f l) a b = map f (slice l a b).
Proof. unfold slice. by rewrite fmap_take, fmap_drop. Qed.

Lemma cells_bits mem fc a n : is_bit_function fc = true ->
  value_ints (cells_values mem fc a n) = map (fun v => bool_int (negb (v =? 0))) (cells mem fc a n).
Proof. unfold cells_values. intros ->. simpl. by rewrite map_map. Qed.

(** The value decoded from the tag's slice of a block is the tag's reading. *)
Lemma good_value_reading mem block p :
  placed_in block p ->
  good_value p block (cells_values mem (rb_function_code block) (rb_address block) (rb_quantity block)) =
  tag_reading mem (rb_function_code block) (pt_tag p) (pt_span p).
Proof.
  intros (Hs & Ha & Ho & Hq). apply tag_span_range in Hs as Hr. unfold good_value, tag_reading.
  destruct (is_bit_function (rb_function_code block)) eqn:B.
  - rewrite cells_bits by done. unfold cells. rewrite map_map. unfold index.
    rewrite (proj2 (Z.ltb_ge (pt_offset p) 0)) by lia.
    rewrite list_lookup_fmap, lookup_seqZ_lt by lia. simpl. rewrite Z2Nat.id, Ha by lia.
    by destruct (default 0 _ =? 0).
  - unfold cells_values. rewrite B. simpl. unfold cells. rewrite slice_map, slice_seqZ by lia. by rewrite Ha.
Qed.

Lemma tag_reading_total mem fc tag span :
  tag_span tag fc = Ok span -> exists v, tag_reading mem fc tag span = Ok v.
Proof.
  unfold tag_span, tag_reading. destruct (is_bit_function fc); [by eexists|]. unfold register_count.
  destruct (TYPE_SPEC _) as [[f n]|] eqn:E; [|done]. intros [= <-]. unfold tag_registers_value.
  pose proof (decode_total _ f n (default DEFAULT_WORD_ORDER (tag_word_order tag))
    (default DEFAULT_BYTE_ORDER (tag_byte_order tag)) (cells mem fc (tag_address tag) (Z.of_nat n)) E) as D.
  destruct (decode _ _ _ _); [by eexists|]. discriminate D.
  unfold cells. rewrite length_map, length_seqZ. lia.
Qed.

Lemma mappedb_sub mem fc a n o k :
  0 <= o -> 0 <= k -> o + k <= n -> mappedb mem fc a n = true -> mappedb mem fc (a + o) k = true.
Proof.
  unfold mappedb. rewrite !forallb_forall. intros Ho Hk Hn Hm i Hi. apply Hm. apply list_elem_of_In.
  apply list_elem_of_In in Hi. rewrite elem_of_seqZ in *. lia.
Qed.

(** A block whose addresses are all mapped: every tag is Good. *)
Lemma good_update_spec mem iid block lat p d :
  mappedb mem (rb_function_code block) (rb_address block) (rb_quantity block) = true -> placed_in block p ->
  exists u d', good_update wall iid block
      (cells_values mem (rb_function_code block) (rb_address block) (rb_quantity block)) lat p d = (d', Ok u) /\
    kept d d' /\ reports mem (rb_function_code block) iid p u.
Proof.
  intros M Hp. destruct (tag_reading_total mem (rb_function_code block) (pt_tag p) (pt_span p) (proj1 Hp)) as [v Hv].
  unfold good_update. rewrite (good_value_reading mem block p Hp), Hv.
  eexists _, _. split; [reflexivity|]. split; [done|].
  destruct Hp as (Hs & Ha & Ho & Hq). apply tag_span_range in Hs.
  unfold reports. simpl. rewrite <- Ha, (mappedb_sub _ _ _ (rb_quantity block)) by (done || lia). done.
Qed.

(** A list of calls that each succeed. *)
Lemma smapM_spec {B} (f : PlannedTag -> SR (driver T) B) (R : PlannedTag -> B -> Prop) (Q : driver T -> Prop) ps d :
  (forall p d, p ∈ ps -> Q d -> exists b d', f p d = (d', Ok b) /\ kept d d' /\ R p b) ->
  (forall d d', kept d d' -> Q d -> Q d') -> Q d ->
  exists bs d', smapM f ps d = (d', Ok bs) /\ kept d d' /\ Forall2 R ps bs.
Proof.
  intros Hf HQ. revert d. induction ps as [|p ps IH]; intros d Hd; [exists [], d; by repeat split|].
  destruct (Hf p d ltac:(by left) Hd) as (b & d1 & E1 & K1 & R1).
  destruct (IH ltac:(intros; apply Hf; [by right|done]) d1 (HQ _ _ K1 Hd)) as (bs & d2 & E2 & K2 & R2).
  exists (b :: bs), d2. cbn [smapM]. rewrite (sbind_ok _ _ _ _ _ E1), (sbind_ok _ _ _ _ _ E2).
  split; [done|]. split; [by eapply kept_trans|by constructor].
Qed.

(** What [_read_one_block] needs to work at all. *)
Definition ready (mem : memory) (d : driver T) : Prop := is_Some (d_config d) /\ reads_memory mem P /\ P (d_transport d).
Lemma ready_kept mem d d' : kept d d' -> ready mem d -> ready mem d'.
Proof. intros (E1 & E2 & _) (H1 & H2 & H3). split; [by rewrite E2|]. auto. Qed.

Lemma read_one_block_with_spec mem iid fallback block d :
  ready mem d -> block_ok block -> Forall (placed_in block) (rb_tags block) -> rb_tags block <> [] ->
  (is_batched block = true -> forall d, ready mem d -> exists us d', fallback block d = (d', Ok us) /\ kept d d' /\
     Forall2 (reports mem (rb_function_code block) iid) (rb_tags block) us) ->
  (is_batched block = false -> forall p, rb_tags block = [p] ->
     rb_address block = tag_address (pt_tag p) /\ rb_quantity block = pt_span p) ->
  exists us d', read_one_block_with wall latency fallback iid block d = (d', Ok us) /\ kept d d' /\
    Forall2 (reports mem (rb_function_code block) iid) (rb_tags block) us.
Proof.
  intros Hd Hb Hp Hne Hfb Hsg. unfold read_one_block_with, read_block_with_retries, sbind at 1, require_config.
  destruct Hd as ([c Hc] & Hm & Hr). rewrite Hc. cbn [fst snd].
  destruct (read_attempts_spec mem block (Z.to_nat (default DEFAULT_RETRY_COUNT (mc_retry_count (dc_config c))))
    (default false (mc_retry_on_exception (dc_config c))) d Hm Hr Hb) as (d1 & -> & K1).
  destruct (mappedb mem _ _ _) eqn:M.
  - destruct (smapM_spec (good_update wall iid block (cells_values mem (rb_function_code block) (rb_address block)
      (rb_quantity block)) (latency (S (d_clock d1)))) (reports mem (rb_function_code block) iid) (fun _ => True) (rb_tags block)
      (with_metrics (fun m => {| tag_read_count := tag_read_count m + zlen (rb_tags block); error_count := error_count m;
         reconnect_count := reconnect_count m; last_successful_read := Some (wall (S (d_clock d1))) |})
        (now_utc wall (with_connectivity (fun t => record_success (wall (d_clock d1)) None t) (now_utc wall d1).1)).1))
      as (us & d2 & E & K2 & F).
    + intros p d0 Hin _. apply good_update_spec; [done|]. rewrite Forall_forall in Hp. by apply Hp.
    + done.
    + done.
    + exists us, d2. split; [exact E|]. split; [|done]. eapply kept_trans; [exact K1|exact K2].
  - set (d2 := with_connectivity (fun t => record_failure (wall (d_clock d1)) None
       (Some (exception_name 2)) t) (now_utc wall d1).1).
    assert (kept d d2) as K2 by exact K1.
    destruct (is_batched block) eqn:B.
    + destruct (Hfb eq_refl d2) as (us & d3 & E & K3 & F); [by apply (ready_kept mem d); [|split; [eexists|]]|].
      exists us, d3. split; [exact E|]. split; [by eapply kept_trans|done].
    + unfold is_batched in B. destruct (rb_tags block) as [|p [|q ps]] eqn:Et; [done| |rewrite !zlen_cons in B; pose proof (zlen_nonneg ps); lia].
      destruct (Hsg eq_refl p eq_refl) as [Ea Eq]. rewrite Ea, Eq in M.
      eexists _, _. split; [reflexivity|]. split; [exact K1|]. repeat constructor; simpl; rewrite ?M; done.
Qed.

Lemma single_block_placed block p :
  placed_in block p ->
  Forall (placed_in (single_block block p)) (rb_tags (single_block block p)).
Proof.
  intros (Hs & _). repeat constructor; simpl; try done; apply tag_span_range in Hs; lia.
Qed.

Lemma single_block_ok block p : block_ok block -> placed_in block p -> block_ok (single_block block p).
Proof.
  intros (Hf & Ha & Hn & He) (Hs & Hpa & Ho & Hq). apply tag_span_range in Hs. split; [done|]. unfold read_request_ok. simpl. lia.
Qed.

(** The fallback reads each tag on its own. *)
Lemma read_tag_by_tag_spec mem iid block d :
  ready mem d -> block_ok block -> Forall (placed_in block) (rb_tags block) ->
  exists us d', read_block_tag_by_tag wall latency iid block d = (d', Ok us) /\ kept d d' /\
    Forall2 (reports mem (rb_function_code block) iid) (rb_tags block) us.
Proof.
  intros Hd Hb Hp. unfold read_block_tag_by_tag.
  destruct (smapM_spec (fun planned => read_single wall latency iid (single_block block planned))
    (fun p us => exists u, us = [u] /\ reports mem (rb_function_code block) iid p u) (ready mem) (rb_tags block) d)
    as (lists & d' & E & K & F); [|by apply ready_kept|done|].
  - intros p d0 Hin Hd0. rewrite Forall_forall in Hp. unfold read_single.
    destruct (read_one_block_with_spec mem iid (fun _ => sret []) (single_block block p) d0 Hd0)
      as (us & d1 & E & K & F); [by apply single_block_ok, Hp|by apply single_block_placed, Hp|done|by intros B|by intros _ p' [= <-]|].
    exists us, d1. split; [done|]. split; [done|]. simpl in F. inversion F as [|? u ? ? Hu Hn]; subst.
    inversion Hn; subst. by exists u.
  - exists (concat lists), d'. rewrite (sbind_ok _ _ _ _ _ E). split; [done|]. split; [done|].
    clear E. induction F as [|p us ps lists (u & -> & Hu) _ IH]; simpl; [constructor|]. constructor; [done|].
    apply IH. by apply Forall_cons in Hp as [_ Hp].
Qed.

Lemma read_one_block_spec mem iid block d :
  ready mem d -> block_ok block -> Forall (placed_in block) (rb_tags block) -> rb_tags block <> [] ->
  (forall p, rb_tags block = [p] -> rb_address block = tag_address (pt_tag p) /\ rb_quantity block = pt_span p) ->
  exists us d', read_one_block wall latency iid block d = (d', Ok us) /\ kept d d' /\
    Forall2 (reports mem (rb_function_code block) iid) (rb_tags block) us.
Proof.
  intros Hd Hb Hp Hne Hs. apply read_one_block_with_spec; auto. intros _ d0 Hd0. by apply read_tag_by_tag_spec.
Qed.

(** The recursion of the source: on a block of one tag the fallback is never
    reached, so reading it through [read_single] is reading it through
    [read_one_block]. *)
Lemma read_single_unfold iid block d :
  is_batched block = false -> read_single wall latency iid block d = read_one_block wall latency iid block d.
Proof. intros B. unfold read_single, read_one_block, read_one_block_with. by rewrite B. Qed.

(** Planned tags with their block's function code. *)
Definition planned_tags (blocks : list ReadBlock) : list (PlannedTag * FunctionCode) :=
  concat (map (fun b => map (fun p => (p, rb_function_code b)) (rb_tags b)) blocks).

Lemma read_and_publish_spec mem iid blocks d :
  ready mem d ->
  Forall (fun b => block_ok b /\ Forall (placed_in b) (rb_tags b) /\ rb_tags b <> [] /\
    forall p, rb_tags b = [p] -> rb_address b = tag_address (pt_tag p) /\ rb_quantity b = pt_span p) blocks ->
  exists us d', read_and_publish wall latency iid blocks d = (d', Ok us) /\ kept d d' /\
    Forall2 (fun pf u => reports mem pf.2 iid pf.1 u) (planned_tags blocks) us.
Proof.
  revert d; induction blocks as [|b bs IH]; intros d Hd F; [exists [], d; by repeat constructor|].
  apply Forall_cons in F as [(Hb & Hp & Hne & Hs) F]. cbn [read_and_publish].
  destruct (read_one_block_spec mem iid b d Hd Hb Hp Hne Hs) as (us & d1 & E1 & K1 & F1).
  destruct (IH d1 (ready_kept _ _ _ K1 Hd) F) as (rest & d2 & E2 & K2 & F2).
  exists (us ++ rest), d2. rewrite (sbind_ok _ _ _ _ _ E1), (sbind_ok _ _ _ _ _ E2). split; [done|].
  split; [by eapply kept_trans|]. unfold planned_tags. simpl. apply Forall2_app; [|exact F2].
  by apply Forall2_fmap_l.
Qed.
End Device.

Lemma function_code_by_name_reads n fc : FUNCTION_CODE_BY_NAME n = Some fc -> is_bit_function fc || is_register_function fc = true.
Proof. unfold FUNCTION_CODE_BY_NAME. repeat (case_match; [by intros [= <-]|]). done. Qed.
Lemma planned_blocks_ok tags mbs gap blocks :
  plan_read_blocks tags FUNCTION_CODE_BY_NAME mbs gap = Ok blocks -> Forall (tag_addressable FUNCTION_CODE_BY_NAME) tags ->
  Forall (fun b => block_ok b /\ Forall (placed_in b) (rb_tags b) /\ rb_tags b <> [] /\
    forall p, rb_tags b = [p] -> rb_address b = tag_address (pt_tag p) /\ rb_quantity b = pt_span p) blocks.
Proof.
  intros Hp Ha. pose proof (plan_tags_placed _ _ _ _ _ Hp) as H1. pose proof (plan_single_exact _ _ _ _ _ Hp) as H2.
  pose proof (plan_requests_ok _ _ _ _ _ Hp Ha) as H3. rewrite Forall_forall in *. intros b Hb.
  destruct (H1 b Hb) as [Hne Hpl]. destruct (H3 b Hb) as [R _]. split; [|split; [|split; [done|by apply H2]]].
  - split; [|done]. destruct (rb_tags b) as [|p ps]; [done|]. apply Forall_cons in Hpl as [[_ N] _].
    by eapply function_code_by_name_reads.
  - eapply Forall_impl; [exact Hpl|]. by intros p [? _].
Qed.
Lemma planned_tags_perm tags by_name mbs gap blocks :
  plan_read_blocks tags by_name mbs gap = Ok blocks ->
  map (fun pf : PlannedTag * FunctionCode => pt_tag pf.1) (planned_tags blocks) ≡ₚ tags.
Proof.
  intros Hp. rewrite <- (plan_tags_perm _ _ _ _ _ Hp). unfold planned_tags, block_tag_list. rewrite concat_map, !map_map.
  match goal with |- ?a ≡ₚ ?b => assert (a = b) as ->; [|done] end. f_equal. apply map_ext. intros b. by rewrite map_map.
Qed.

(** C4: one bad address does not poison its neighbours: polling a planned tag
    group on a device that rejects reads touching unmapped addresses returns
    exactly one update per configured tag; a tag whose own registers are all
    mapped is Good with the value decoded from them, however it was batched and
    whatever the retry settings, and a tag with an unmapped register is Bad. *)
Theorem poll_isolates_bad_tags {T} `{ModbusTransport T} wall latency mem (P : T -> Prop) (d : driver T) iid tags mbs gap blocks :
  plan_read_blocks tags FUNCTION_CODE_BY_NAME mbs gap = Ok blocks ->
  Forall (tag_addressable FUNCTION_CODE_BY_NAME) tags ->
  is_Some (d_config d) -> reads_memory mem P -> P (d_transport d) ->
  exists us d', read_and_publish wall latency iid blocks d = (d', Ok us) /\ P (d_transport d') /\
    Forall2 (fun pf u => reports mem pf.2 iid pf.1 u) (planned_tags blocks) us /\
    map (fun pf : PlannedTag * FunctionCode => pt_tag pf.1) (planned_tags blocks) ≡ₚ tags.
Proof.
  intros Hp Ha Hc Hr Ht. destruct (read_and_publish_spec wall latency P mem iid blocks d) as (us & d' & E & K & F).
  - by split.
  - by eapply planned_blocks_ok.
  - exists us, d'. split; [done|]. split; [by apply K|]. split; [done|]. by eapply planned_tags_perm.
Qed.

(** A device that is its memory: reads as above, FC05/06/16 store. *)
Definition store_cell (mem : memory) (fc : FunctionCode) (a v : Z) : memory :=
  fun fc' a' => if decide (fc' = fc /\ a' = a) then Some v else mem fc' a'.
Fixpoint store_cells (mem : memory) (fc : FunctionCode) (a : Z) (vs : list Z) : memory :=
  match vs with [] => mem | v :: t => store_cells (store_cell mem fc a v) fc (a + 1) t end.

#[export] Instance memory_device : ModbusTransport memory := {
  read_block fc a n := fun mem =>
    (mem, if mappedb mem fc a n then Ok (cells_values mem fc a n) else Raise (ModbusException (fc_value fc) 2));
  write_one fc a v := fun mem =>
    (store_cell mem (match fc with WRITE_SINGLE_COIL => READ_COILS | _ => READ_HOLDING_REGISTERS end) a v, Ok tt);
  write_registers a vs := fun mem => (store_cells mem READ_HOLDING_REGISTERS a vs, Ok tt)
}.

Definition demo_memory : memory := fun fc a => if (10 <=? a) && (a <=? 12) then Some a else None.
Definition demo_config : DriverConfig :=
  {| instance_id := "plc"; dc_config := {| mc_failure_threshold := None; mc_recovery_threshold := None;
       mc_retry_count := Some 1; mc_retry_on_exception := Some true; mc_retry_backoff_seconds := None |};
     tag_groups := [] |}.
Definition demo_driver : driver memory :=
  {| d_config := Some demo_config; d_metrics := {| tag_read_count := 0; error_count := 0; reconnect_count := 0;
       last_successful_read := None |}; d_tags_by_id := []; d_blocks_by_group := []; d_connectivity := demo_tracker;
     d_triggers := []; d_transport := demo_memory; d_clock := 0 |}.
Definition demo_blocks : list ReadBlock := Eval vm_compute in
  match plan_read_blocks demo_tags FUNCTION_CODE_BY_NAME None 0 with Ok b => b | Raise _ => [] end.

Lemma poll_isolates_bad_tags_witness :
  exists us d', read_and_publish (fun _ => 0) (fun _ => fzero) "plc" demo_blocks demo_driver = (d', Ok us) /\
    d_transport d' = demo_memory /\
    Forall2 (fun pf u => reports demo_memory pf.2 "plc" pf.1 u) (planned_tags demo_blocks) us /\
    map (fun pf : PlannedTag * FunctionCode => pt_tag pf.1) (planned_tags demo_blocks) ≡ₚ demo_tags.
Proof.
  apply (poll_isolates_bad_tags (fun _ => 0) (fun _ => fzero) demo_memory (fun t => t = demo_memory) demo_driver "plc" demo_tags None 0).
  - vm_compute. reflexivity.
  - repeat constructor; try (vm_compute; discriminate); intros fc n _ Hn; apply tag_span_range in Hn; simpl; lia.
  - by eexists.
  - intros t fc a n -> _. by exists demo_memory.
  - done.
Defined.

(** ** Write-back *)

Lemma store_cells_other vs mem fc a fc' i :
  (i < a \/ a + zlen vs <= i) -> store_cells mem fc a vs fc' i = mem fc' i.
Proof.
  revert mem a; induction vs as [|v vs IH]; intros mem a Hi; simpl; [done|]. rewrite zlen_cons in Hi.
  pose proof (zlen_nonneg vs). rewrite IH by lia. unfold store_cell. case_decide as D; [lia|done].
Qed.

Lemma store_cells_lookup vs mem fc a i v :
  vs !! i = Some v -> store_cells mem fc a vs fc (a + Z.of_nat i) = Some v.
Proof.
  revert mem a i; induction vs as [|w vs IH]; intros mem a i Hi; [done|]. simpl. destruct i as [|i].
  - injection Hi as <-. rewrite store_cells_other by lia. unfold store_cell. rewrite Z.add_0_r. by rewrite decide_True.
  - replace (a + Z.of_nat (S i)) with (a + 1 + Z.of_nat i) by lia. by apply IH.
Qed.

Lemma cells_stored vs mem fc a :
  mappedb (store_cells mem fc a vs) fc a (zlen vs) = true /\ cells (store_cells mem fc a vs) fc a (zlen vs) = vs.
Proof.
  assert (forall i, (i < length vs)%nat -> exists v, vs !! i = Some v /\ store_cells mem fc a vs fc (a + Z.of_nat i) = Some v) as K.
  { intros i Hi. destruct (lookup_lt_is_Some_2 vs i Hi) as [v Hv]. exists v. split; [done|]. by apply store_cells_lookup. }
  split.
  - unfold mappedb. apply forallb_forall. intros i Hi. apply list_elem_of_In, elem_of_seqZ in Hi. unfold zlen in Hi.
    destruct (K (Z.to_nat (i - a))) as (v & _ & Hv); [lia|]. replace (a + Z.of_nat (Z.to_nat (i - a))) with i in Hv by lia.
    rewrite Hv. by apply bool_decide_eq_true.
  - unfold cells. apply list_eq. intros i. rewrite list_lookup_fmap. unfold zlen.
    destruct (decide (i < length vs)%nat) as [L|L].
    + destruct (K i L) as (v & Hv & Hs). rewrite lookup_seqZ_lt by lia. simpl. by rewrite Hs, Hv.
    + rewrite lookup_seqZ_ge by lia. simpl. by rewrite lookup_ge_None_2 by lia.
Qed.

(** The registers [write_register_tag] sends end up in the device's memory,
    whichever function code carries them. *)
Lemma send_registers_spec address registers (d : driver memory) :
  send_registers WRITE_SINGLE_REGISTER address registers d =
  (with_transport (store_cells (d_transport d) READ_HOLDING_REGISTERS address registers) d, Ok tt).
Proof. by destruct registers as [|r [|r' t]]. Qed.

(** an accepted integer write reads back exactly: for a writable unscaled
    holding-register tag of any integer data type and order, writing a value in
    the type's range (and below 2^53 in magnitude, where the float conversion
    of the write path is exact) succeeds, and reading the tag's registers
    afterwards decodes to the value written. *)
Theorem write_reads_back parse_float (d : driver memory) tid tag f count z :
  dict_get tid (d_tags_by_id d) = Some tag ->
  tag_function_code tag = "read_holding_registers" -> tag_access tag <> ACCESS_READ_ONLY ->
  tag_scaling tag = None ->
  TYPE_SPEC (default DEFAULT_DATA_TYPE (tag_data_type tag)) = Some (TInt f, count) ->
  fmt_in_range f z = true -> - 2 ^ 53 < z < 2 ^ 53 ->
  exists d', write parse_float tid (VInt z) d = (d', Ok (inr tt)) /\
    mappedb (d_transport d') READ_HOLDING_REGISTERS (tag_address tag) (Z.of_nat count) = true /\
    tag_reading (d_transport d') READ_HOLDING_REGISTERS tag (Z.of_nat count) = Ok (VInt z) /\
    d_metrics d' = d_metrics d.
Proof.
  intros Ht Hfc Ha Hsc Hty Hr Hz. unfold write. rewrite Ht, (proj2 (String.eqb_neq _ _) Ha), Hfc. simpl.
  unfold write_register_tag. rewrite Hsc. simpl.
  destruct (float_of_Z_exact z Hz) as (x & Ex & Er).
  assert (is_float (default DEFAULT_DATA_TYPE (tag_data_type tag)) = false) as Hnf.
  { by eapply TYPE_SPEC_int_not_float. }
  destruct (int_encode_decode _ f count (default DEFAULT_WORD_ORDER (tag_word_order tag))
    (default DEFAULT_BYTE_ORDER (tag_byte_order tag)) z Hty Hr) as (regs & Ee & Hc & _ & Hd).
  unfold slift, sbind, rmap. rewrite Ex, Hnf, Er, Ee.
  rewrite send_registers_spec.
  unfold register_count in Hc. rewrite Hty in Hc. injection Hc as Hc.
  destruct (cells_stored regs (d_transport d) READ_HOLDING_REGISTERS (tag_address tag)) as [M C].
  eexists. split; [reflexivity|]. simpl. rewrite Hc. split; [done|]. split; [|done].
  unfold tag_reading, tag_registers_value. simpl. rewrite C.
  specialize (Hd []). rewrite app_nil_r in Hd. by rewrite Hd.
Qed.

Definition demo_writer : driver memory :=
  {| d_config := Some demo_config; d_metrics := d_metrics demo_driver;
     d_tags_by_id := [("a", demo_tag "a" "read_holding_registers" 10 (Some "int32"))];
     d_blocks_by_group := []; d_connectivity := demo_tracker; d_triggers := []; d_transport := demo_memory; d_clock := 0 |}.

Lemma write_reads_back_witness :
  exists d', write (fun _ => Raise ValueError) "a" (VInt (-70000)) demo_writer = (d', Ok (inr tt)) /\
    mappedb (d_transport d') READ_HOLDING_REGISTERS 10 2 = true /\
    tag_reading (d_transport d') READ_HOLDING_REGISTERS (demo_tag "a" "read_holding_registers" 10 (Some "int32")) 2
      = Ok (VInt (-70000)) /\
    d_metrics d' = d_metrics demo_writer.
Proof.
  apply (write_reads_back (fun _ => Raise ValueError) demo_writer "a"
    (demo_tag "a" "read_holding_registers" 10 (Some "int32")) fmt_i 2 (-70000));
    try reflexivity; [discriminate|lia].
Defined.

(** Without that bound the value written is not the value asked for: the write
    path goes through a binary64 float even for unscaled integer tags. *)
Example write_loses_precision :
  let d := {| d_config := Some demo_config; d_metrics := d_metrics demo_driver;
              d_tags_by_id := [("a", demo_tag "a" "read_holding_registers" 10 (Some "int64"))];
              d_blocks_by_group := []; d_connectivity := demo_tracker; d_triggers := [];
              d_transport := demo_memory; d_clock := 0 |} in
  match write (fun _ => Raise ValueError) "a" (VInt (2 ^ 53 + 1)) d with
  | (d', Ok (inr _)) => tag_reading (d_transport d') READ_HOLDING_REGISTERS
      (demo_tag "a" "read_holding_registers" 10 (Some "int64")) 4 = Ok (VInt (2 ^ 53))
  | _ => False
  end.
Proof. vm_compute. reflexivity. Qed.

(** An [OverflowError] of the float32 encoding escapes [write] instead of
    becoming a failed [WriteResult]. *)
Example write_float_overflow_escapes :
  let d := {| d_config := Some demo_config; d_metrics := d_metrics demo_driver;
              d_tags_by_id := [("a", demo_tag "a" "read_holding_registers" 10 (Some "float32"))];
              d_blocks_by_group := []; d_connectivity := demo_tracker; d_triggers := [];
              d_transport := demo_memory; d_clock := 0 |} in
  (write (fun _ => Raise ValueError) "a" (VInt (10 ^ 39)) d).2 = Raise OverflowError.
Proof. vm_compute. reflexivity. Qed.
