(* ===== verification/SparkplugWire.v ===== *)
(** * Protobuf wire format of Sparkplug B (src/xedge/northbound/sparkplug/wire.py)

    Encoders give bytes; the decoders, which the source writes with a position
    into the data, work on the remaining suffix. *)

From Stdlib Require Import Floats.SpecFloat.
From S2P Require Import Prelude PyBytes PyFloat.

Definition WIRE_TYPE_VARINT : Z := 0.
Definition WIRE_TYPE_FIXED64 : Z := 1.
Definition WIRE_TYPE_LENGTH_DELIMITED : Z := 2.
Definition WIRE_TYPE_FIXED32 : Z := 5.

(** The [while True] loop; [fuel] bounds the number of base-128 digits. *)
Fixpoint varint_loop (fuel : nat) (value : Z) : list Z :=
  let byte := Z.land value 0x7F in
  let value := Z.shiftr value 7 in
  match fuel with
  | O => [byte]
  | S n => if value =? 0 then [byte] else Z.lor byte 0x80 :: varint_loop n value
  end.
Definition varint_fuel (value : Z) : nat := Z.to_nat (Z.log2 value).
Definition encode_varint (value : Z) : res (list Z) :=
  raise_if value <? 0 with ValueError; Ok (varint_loop (varint_fuel value) value).

Definition encode_tag (field_number wire_type : Z) : res (list Z) :=
  encode_varint (Z.lor (Z.shiftl field_number 3) wire_type).

Definition encode_varint_field (field_number value : Z) : res (list Z) :=
  let* t := encode_tag field_number WIRE_TYPE_VARINT in
  let* v := encode_varint value in Ok (t ++ v).
Definition encode_bool_field (field_number : Z) (value : bool) : res (list Z) :=
  encode_varint_field field_number (if value then 1 else 0).
Definition encode_fixed32_field (field_number : Z) (value : pfloat) : res (list Z) :=
  let* t := encode_tag field_number WIRE_TYPE_FIXED32 in
  let* v := pack_f LittleEndian value in Ok (t ++ v).
Definition encode_fixed64_field (field_number : Z) (value : pfloat) : res (list Z) :=
  let* t := encode_tag field_number WIRE_TYPE_FIXED64 in Ok (t ++ pack_d LittleEndian value).
Definition encode_bytes_field (field_number : Z) (value : list Z) : res (list Z) :=
  let* t := encode_tag field_number WIRE_TYPE_LENGTH_DELIMITED in
  let* l := encode_varint (zlen value) in Ok (t ++ l ++ value).
Definition encode_message_field (field_number : Z) (message_bytes : list Z) : res (list Z) :=
  encode_bytes_field field_number message_bytes.

(** [decode_varint(data, pos)]: the value and the data from the new position. *)
Fixpoint decode_varint_loop (data : list Z) (result shift : Z) : res (Z * list Z) :=
  match data with
  | [] => Raise ProtobufDecodeError
  | byte :: rest =>
      let result := Z.lor result (Z.shiftl (Z.land byte 0x7F) shift) in
      if Z.land byte 0x80 =? 0 then Ok (result, rest) else decode_varint_loop rest result (shift + 7)
  end.
Definition decode_varint (data : list Z) : res (Z * list Z) := decode_varint_loop data 0 0.

(** A field value: an int for varints, bytes otherwise. *)
Inductive raw := RInt (z : Z) | RBytes (bs : list Z).
#[export] Instance raw_eq_dec : EqDecision raw.
Proof. solve_decision. Defined.

(** [data[pos:pos+n]] with its truncation check. *)
Definition take_bytes (n : Z) (data : list Z) : res (list Z * list Z) :=
  raise_if zlen data <? n with ProtobufDecodeError;
  Ok (take (Z.to_nat n) data, drop (Z.to_nat n) data).

(** One turn of the generator [iter_fields]. *)
Definition next_field (data : list Z) : res (Z * Z * raw * list Z) :=
  let* (tag, rest) := decode_varint data in
  let field_number := Z.shiftr tag 3 in
  let wire_type := Z.land tag 0x7 in
  if wire_type =? WIRE_TYPE_VARINT then
    let* (v, rest) := decode_varint rest in Ok (field_number, wire_type, RInt v, rest)
  else if wire_type =? WIRE_TYPE_FIXED64 then
    let* (b, rest) := take_bytes 8 rest in Ok (field_number, wire_type, RBytes b, rest)
  else if wire_type =? WIRE_TYPE_LENGTH_DELIMITED then
    let* (n, rest) := decode_varint rest in
    let* (b, rest) := take_bytes n rest in Ok (field_number, wire_type, RBytes b, rest)
  else if wire_type =? WIRE_TYPE_FIXED32 then
    let* (b, rest) := take_bytes 4 rest in Ok (field_number, wire_type, RBytes b, rest)
  else Raise ProtobufDecodeError.

(** [for field_number, wire_type, raw in iter_fields(data): acc = body(...)]:
    a field is decoded only after the body has consumed the previous one.
    [fuel]: every field takes at least one byte. *)
Fixpoint fold_fields {A} (body : A -> Z -> raw -> res A) (fuel : nat) (data : list Z) (acc : A) : res A :=
  match data with
  | [] => Ok acc
  | _ =>
      match fuel with
      | O => Raise RuntimeError
      | S n =>
          let* (f, rest) := next_field data in
          let* acc := body acc f.1.1 f.2 in
          fold_fields body n rest acc
      end
  end.
Definition for_fields {A} (body : A -> Z -> raw -> res A) (data : list Z) (acc : A) : res A :=
  fold_fields body (length data) data acc.

(** ** Varints *)

Lemma land127 v : Z.land v 0x7F = v mod 128.
Proof. change 0x7F with (2 ^ 7 - 1). by rewrite land_pow2_ones by lia. Qed.
Lemma shiftr7 v : Z.shiftr v 7 = v / 128.
Proof. by rewrite Z.shiftr_div_pow2 by lia. Qed.

Lemma lor_disjoint a b w : 0 <= w -> 0 <= a < 2 ^ w -> Z.lor a (Z.shiftl b w) = a + b * 2 ^ w.
Proof.
  intros Hw Ha. rewrite <- Z.shiftl_mul_pow2 by lia. symmetry. apply Z.add_nocarry_lor.
  apply Z.bits_inj'. intros n Hn. rewrite Z.land_spec, Z.bits_0, Z.shiftl_spec by done.
  destruct (Z.ltb_spec n w) as [L|L].
  - by rewrite (Z.testbit_neg_r b), andb_false_r by lia.
  - by rewrite (testbit_high w a n) by done.
Qed.

(** The low digit and the continuation bit of an encoded byte. *)
Lemma last_digit v : Z.land (Z.land v 0x7F) 0x7F = v mod 128 /\ Z.land (Z.land v 0x7F) 0x80 = 0.
Proof.
  rewrite <- !Z.land_assoc. change (Z.land 0x7F 0x80) with 0. change (Z.land 0x7F 0x7F) with 0x7F.
  by rewrite land127, Z.land_0_r.
Qed.
Lemma more_digit v :
  Z.land (Z.lor (Z.land v 0x7F) 0x80) 0x7F = v mod 128 /\ (Z.land (Z.lor (Z.land v 0x7F) 0x80) 0x80 =? 0) = false.
Proof.
  rewrite !Z.land_lor_distr_l, <- !Z.land_assoc. change (Z.land 0x7F 0x80) with 0.
  change (Z.land 0x80 0x7F) with 0. change (Z.land 0x7F 0x7F) with 0x7F.
  by rewrite land127, Z.land_0_r, Z.lor_0_l, Z.lor_0_r.
Qed.

Lemma pow7_S n : 2 ^ (7 * Z.of_nat (S n)) = 128 * 2 ^ (7 * Z.of_nat n).
Proof. replace (7 * Z.of_nat (S n)) with (7 + 7 * Z.of_nat n) by lia. by rewrite Z.pow_add_r by lia. Qed.

Lemma varint_loop_decode fuel v r s rest :
  0 <= v < 2 ^ (7 * Z.of_nat (S fuel)) -> 0 <= s -> 0 <= r < 2 ^ s ->
  decode_varint_loop (varint_loop fuel v ++ rest) r s = Ok (r + v * 2 ^ s, rest).
Proof.
  revert v r s. induction fuel as [|n IH]; intros v r s Hv Hs Hr; simpl.
  - destruct (last_digit v) as [-> ->]. rewrite lor_disjoint by lia.
    assert (v < 128) by (apply Hv). rewrite Z.mod_small by lia. done.
  - rewrite pow7_S in Hv. rewrite shiftr7. destruct (Z.eqb_spec (v / 128) 0) as [E|N]; simpl.
    + destruct (last_digit v) as [-> ->]. rewrite lor_disjoint by lia.
      assert (v mod 128 = v) as -> by (pose proof (Z.div_mod v 128); lia). done.
    + destruct (more_digit v) as [-> ->]. rewrite lor_disjoint by lia.
      pose proof (Z.mod_pos_bound v 128 ltac:(lia)).
      assert (2 ^ (s + 7) = 2 ^ s * 128) as E7 by (by rewrite Z.pow_add_r by lia).
      rewrite IH; [|split; [apply Z.div_pos; lia|apply Z.div_lt_upper_bound; lia]|lia|nia].
      assert (v = 128 * (v / 128) + v mod 128) as Ev by (apply Z.div_mod; lia).
      do 2 f_equal. rewrite E7. rewrite Ev at 3. ring.
Qed.

Lemma varint_fuel_enough v : 0 <= v -> v < 2 ^ (7 * Z.of_nat (S (varint_fuel v))).
Proof.
  intros Hv. unfold varint_fuel. destruct (Z.eq_dec v 0) as [->|N]; [done|].
  pose proof (Z.log2_spec v ltac:(lia)) as [_ H]. pose proof (Z.log2_nonneg v).
  eapply Z.lt_le_trans; [exact H|]. apply Z.pow_le_mono_r; lia.
Qed.
Lemma varint_roundtrip v rest bs : encode_varint v = Ok bs -> decode_varint (bs ++ rest) = Ok (v, rest).
Proof.
  unfold encode_varint, decode_varint. intros H. inv_ok.
  rewrite varint_loop_decode; [|split; [lia|by apply varint_fuel_enough]|lia|lia]. do 2 f_equal. lia.
Qed.
Lemma encode_varint_nonneg v : 0 <= v -> encode_varint v = Ok (varint_loop (varint_fuel v) v).
Proof. unfold encode_varint. intros. by replace (v <? 0) with false by lia. Qed.
Lemma encode_varint_nonempty v bs : encode_varint v = Ok bs -> bs <> [].
Proof. unfold encode_varint. intros H. inv_ok. destruct (varint_fuel v); simpl; [done|]. by case_match. Qed.

(** ** Fields *)

(** The header of a field: its number and wire type come back. *)
Definition wire_types : list Z := [WIRE_TYPE_VARINT; WIRE_TYPE_FIXED64; WIRE_TYPE_LENGTH_DELIMITED; WIRE_TYPE_FIXED32].
Lemma tag_roundtrip fn wt t rest :
  0 <= fn -> wt ∈ wire_types -> encode_tag fn wt = Ok t ->
  exists tag, decode_varint (t ++ rest) = Ok (tag, rest) /\ Z.shiftr tag 3 = fn /\ Z.land tag 0x7 = wt.
Proof.
  intros Hf Hw H. exists (Z.lor (Z.shiftl fn 3) wt). split; [by apply varint_roundtrip|].
  assert (0 <= wt < 8) as Hwt.
  { unfold wire_types in Hw. repeat (apply elem_of_cons in Hw as [->|Hw]; [done|]). by apply elem_of_nil in Hw. }
  assert (Z.lor (Z.shiftl fn 3) wt = wt + fn * 8) as ->.
  { rewrite Z.lor_comm, lor_disjoint by lia. done. }
  change 0x7 with (2 ^ 3 - 1). rewrite land_pow2_ones, Z.shiftr_div_pow2 by lia. change (2 ^ 3) with 8.
  rewrite Z.div_add, Z.mod_add, Z.div_small, Z.mod_small by lia. lia.
Qed.

Lemma take_bytes_app v rest : take_bytes (zlen v) (v ++ rest) = Ok (v, rest).
Proof.
  unfold take_bytes. rewrite zlen_app. pose proof (zlen_nonneg rest).
  replace (zlen v + zlen rest <? zlen v) with false by lia. unfold zlen.
  by rewrite Nat2Z.id, take_app_length, drop_app_length.
Qed.

Lemma next_varint_field fn v bs rest :
  0 <= fn -> encode_varint_field fn v = Ok bs ->
  next_field (bs ++ rest) = Ok (fn, WIRE_TYPE_VARINT, RInt v, rest).
Proof.
  unfold encode_varint_field. intros Hf H. inv_ok. rewrite <- app_assoc.
  destruct (tag_roundtrip fn WIRE_TYPE_VARINT x (x0 ++ rest)) as (tag & E1 & E2 & E3); [done|by left|done|].
  unfold next_field. rewrite E1. simpl. rewrite E2, E3. simpl. by rewrite (varint_roundtrip v) by done.
Qed.
Lemma next_bytes_field fn v bs rest :
  0 <= fn -> encode_bytes_field fn v = Ok bs ->
  next_field (bs ++ rest) = Ok (fn, WIRE_TYPE_LENGTH_DELIMITED, RBytes v, rest).
Proof.
  unfold encode_bytes_field. intros Hf H. inv_ok. rewrite <- !app_assoc.
  destruct (tag_roundtrip fn WIRE_TYPE_LENGTH_DELIMITED x (x0 ++ v ++ rest)) as (tag & E1 & E2 & E3);
    [done|by do 2 right; left|done|].
  unfold next_field. rewrite E1. simpl. rewrite E2, E3. simpl.
  rewrite (varint_roundtrip (zlen v)) by done. simpl. by rewrite take_bytes_app.
Qed.
Lemma next_fixed64_field fn v bs rest :
  0 <= fn -> encode_fixed64_field fn v = Ok bs ->
  next_field (bs ++ rest) = Ok (fn, WIRE_TYPE_FIXED64, RBytes (pack_d LittleEndian v), rest).
Proof.
  unfold encode_fixed64_field. assert (8 = zlen (pack_d LittleEndian v)) as L.
  { unfold zlen. by rewrite pack_d_length. }
  generalize dependent (pack_d LittleEndian v). intros w L Hf H. inv_ok. rewrite <- app_assoc.
  destruct (tag_roundtrip fn WIRE_TYPE_FIXED64 x (w ++ rest)) as (tag & E1 & E2 & E3);
    [done|by right; left|done|].
  unfold next_field. rewrite E1. simpl. rewrite E2, E3. simpl. by rewrite L, take_bytes_app.
Qed.
Lemma next_fixed32_field fn v bs w rest :
  0 <= fn -> pack_f LittleEndian v = Ok w -> encode_fixed32_field fn v = Ok bs ->
  next_field (bs ++ rest) = Ok (fn, WIRE_TYPE_FIXED32, RBytes w, rest).
Proof.
  unfold encode_fixed32_field. intros Hf Hw H. rewrite Hw in H.
  destruct (encode_tag fn WIRE_TYPE_FIXED32) as [t|] eqn:Et; [|done]. injection H as <-. rewrite <- app_assoc.
  destruct (tag_roundtrip fn WIRE_TYPE_FIXED32 t (w ++ rest)) as (tag & E1 & E2 & E3);
    [done|by do 3 right; left|done|].
  unfold next_field. rewrite E1. simpl. rewrite E2, E3. simpl.
  assert (4 = zlen w) as ->.
  { unfold pack_f in Hw. destruct (narrow32 v); [|done]. injection Hw as <-. done. }
  by rewrite take_bytes_app.
Qed.

(** A decoded field shortens the data, so [length data] turns suffice. *)
Lemma decode_varint_shorter data v rest :
  decode_varint data = Ok (v, rest) -> (length rest < length data)%nat.
Proof.
  unfold decode_varint. generalize 0 at 1 as r. generalize 0 as s.
  induction data as [|b t IH]; intros s r; simpl; [done|]. destruct (_ =? 0); [intros [= _ <-]; lia|].
  intros H%IH. lia.
Qed.
Lemma take_bytes_length n data b rest :
  take_bytes n data = Ok (b, rest) -> (length rest <= length data)%nat.
Proof. unfold take_bytes. intros H. inv_ok. rewrite length_drop. lia. Qed.
Lemma next_field_shorter data f rest : next_field data = Ok (f, rest) -> (length rest < length data)%nat.
Proof.
  unfold next_field. intros H. apply rbind_ok in H as ([tag r0] & H0%decode_varint_shorter & H). simpl in H.
  repeat match type of H with context [if ?c then _ else _] => destruct c end;
    repeat match goal with
    | H : rbind _ _ = Ok _ |- _ => apply rbind_ok in H as (? & ? & H)
    | x : (_ * _)%type |- _ => destruct x; simpl in *
    | H : decode_varint _ = Ok _ |- _ => apply decode_varint_shorter in H
    | H : take_bytes _ _ = Ok _ |- _ => apply take_bytes_length in H
    end; simplify_eq; lia.
Qed.

(** Running out of fuel never decides the result. *)
Lemma fold_fields_more {A} (body : A -> Z -> raw -> res A) n m data acc :
  (length data <= n)%nat -> (length data <= m)%nat -> fold_fields body n data acc = fold_fields body m data acc.
Proof.
  revert m data acc. induction n as [|n IH]; intros m data acc Hn Hm.
  - destruct data; [|simpl in *; lia]. by destruct m.
  - destruct data as [|b t] eqn:Ed; [by destruct m|]. rewrite <- Ed in *. destruct m as [|m].
    { rewrite Ed in Hm. simpl in Hm. lia. }
    assert (forall k, fold_fields body (S k) data acc =
      let* (f, rest) := next_field data in let* a := body acc f.1.1 f.2 in fold_fields body k rest a) as U.
    { intros k. rewrite Ed. done. }
    rewrite !U. destruct (next_field data) as [[f rest]|e] eqn:E; [|done]. simpl.
    apply next_field_shorter in E. destruct (body acc f.1.1 f.2); [|done]. simpl. apply IH; lia.
Qed.
Lemma for_fields_nil {A} (body : A -> Z -> raw -> res A) acc : for_fields body [] acc = Ok acc.
Proof. done. Qed.
Lemma for_fields_step {A} (body : A -> Z -> raw -> res A) data fn wt v rest acc :
  next_field data = Ok (fn, wt, v, rest) ->
  for_fields body data acc = (let* acc := body acc fn v in for_fields body rest acc).
Proof.
  intros E. unfold for_fields. destruct data as [|b t] eqn:Ed; [done|]. simpl.
  rewrite E. simpl. destruct (body acc fn v); simpl; [|done].
  apply next_field_shorter in E. apply fold_fields_more; simpl in E; lia.
Qed.
