(* ===== verification/SparkplugPayload.v ===== *)
(** * Sparkplug B metrics and payloads (src/xedge/northbound/sparkplug/payload.py)

    A Python [str] is the list of its UTF-8 bytes, so [str.encode] is the
    identity and [bytes.decode] a validity test.  The decimal conversions
    [int(str)], [float(str)] and [str(float)], which only a metric whose value
    does not have its datatype's type reaches, are parameters. *)

From Stdlib Require Import Floats.SpecFloat Ascii.
From S2P Require Import Prelude PyBytes PyFloat PyDict Pipeline SparkplugWire.
Local Open Scope string_scope.
Local Open Scope list_scope.
Local Open Scope Z_scope.

(** ** UTF-8 *)

Definition str_bytes (s : string) : list Z := map (fun c => Z.of_nat (nat_of_ascii c)) (list_ascii_of_string s).
Definition bytes_str (bs : list Z) : string := string_of_list_ascii (map (fun z => ascii_of_nat (Z.to_nat z)) bs).

Definition between (a b z : Z) : bool := (a <=? z) && (z <=? b).
Definition cont (z : Z) : bool := between 0x80 0xBF z.
(** Well-formed UTF-8 (Unicode Table 3-7), what [bytes.decode("utf-8")] accepts. *)
Fixpoint utf8_valid (bs : list Z) : bool :=
  match bs with
  | [] => true
  | b :: t =>
      if between 0 0x7F b then utf8_valid t else
      match t with
      | [] => false
      | c1 :: t1 =>
          if between 0xC2 0xDF b then cont c1 && utf8_valid t1 else
          match t1 with
          | [] => false
          | c2 :: t2 =>
              if b =? 0xE0 then between 0xA0 0xBF c1 && cont c2 && utf8_valid t2 else
              if b =? 0xED then between 0x80 0x9F c1 && cont c2 && utf8_valid t2 else
              if between 0xE1 0xEF b then cont c1 && cont c2 && utf8_valid t2 else
              match t2 with
              | [] => false
              | c3 :: t3 =>
                  if b =? 0xF0 then between 0x90 0xBF c1 && cont c2 && cont c3 && utf8_valid t3 else
                  if between 0xF1 0xF3 b then cont c1 && cont c2 && cont c3 && utf8_valid t3 else
                  if b =? 0xF4 then between 0x80 0x8F c1 && cont c2 && cont c3 && utf8_valid t3 else false
              end
          end
      end
  end.
Definition decode_utf8 (bs : list Z) : res string :=
  if utf8_valid bs then Ok (bytes_str bs) else Raise UnicodeDecodeError.
Definition encode_string_field (field_number : Z) (value : string) : res (list Z) :=
  encode_bytes_field field_number (str_bytes value).

Lemma str_bytes_roundtrip s : bytes_str (str_bytes s) = s.
Proof.
  unfold bytes_str, str_bytes. rewrite map_map. rewrite (map_ext _ id).
  - by rewrite map_id, string_of_list_ascii_of_string.
  - intros c. by rewrite Nat2Z.id, ascii_nat_embedding.
Qed.

(** ** Data types *)

Inductive DataType :=
  | DT_UNKNOWN | INT8 | INT16 | INT32 | INT64 | UINT8 | UINT16 | UINT32 | UINT64 | FLOAT | DOUBLE
  | BOOLEAN | STRING | DATETIME | TEXT.
#[export] Instance DataType_eq_dec : EqDecision DataType.
Proof. solve_decision. Defined.
Definition all_datatypes : list DataType :=
  [DT_UNKNOWN; INT8; INT16; INT32; INT64; UINT8; UINT16; UINT32; UINT64; FLOAT; DOUBLE; BOOLEAN; STRING; DATETIME; TEXT].
(** [int(datatype)] and [DataType(z)] *)
Definition datatype_int (d : DataType) : Z :=
  match d with
  | DT_UNKNOWN => 0 | INT8 => 1 | INT16 => 2 | INT32 => 3 | INT64 => 4 | UINT8 => 5 | UINT16 => 6 | UINT32 => 7
  | UINT64 => 8 | FLOAT => 9 | DOUBLE => 10 | BOOLEAN => 11 | STRING => 12 | DATETIME => 13 | TEXT => 14
  end.
Definition datatype_of (r : raw) : res DataType :=
  match r with
  | RInt z => match List.find (fun d => datatype_int d =? z) all_datatypes with
              | Some d => Ok d | None => Raise ValueError end
  | RBytes _ => Raise ValueError
  end.

Definition FIELD_INT_VALUE : Z := 10.
Definition FIELD_LONG_VALUE : Z := 11.
Definition FIELD_FLOAT_VALUE : Z := 12.
Definition FIELD_DOUBLE_VALUE : Z := 13.
Definition FIELD_BOOLEAN_VALUE : Z := 14.
Definition FIELD_STRING_VALUE : Z := 15.
Definition FIELD_METRIC_NAME : Z := 1.
Definition FIELD_METRIC_ALIAS : Z := 2.
Definition FIELD_METRIC_TIMESTAMP : Z := 3.
Definition FIELD_METRIC_DATATYPE : Z := 4.
Definition FIELD_METRIC_IS_NULL : Z := 7.
Definition FIELD_PAYLOAD_TIMESTAMP : Z := 1.
Definition FIELD_PAYLOAD_METRICS : Z := 2.
Definition FIELD_PAYLOAD_SEQ : Z := 3.

Definition INT_FIELD_DATATYPES : list DataType := [INT8; INT16; INT32; UINT8; UINT16; UINT32].
Definition LONG_FIELD_DATATYPES : list DataType := [INT64; UINT64; DATETIME].
Definition STRING_FIELD_DATATYPES : list DataType := [STRING; TEXT].
Definition dt_in (d : DataType) (l : list DataType) : bool := bool_decide (d ∈ l).

(** The decoder stores what the wire held, so a timestamp is an int or bytes. *)
Record SparkplugMetric := {
  sm_name : option string;
  sm_timestamp_ms : raw;
  sm_datatype : DataType;
  sm_value : option TagValue;
  sm_alias : option Z;
  sm_is_null : bool
}.

Definition infer_datatype (v : TagValue) : res DataType :=
  match v with
  | VBool _ => Ok BOOLEAN
  | VInt _ => Ok UINT32
  | VFloat _ => Ok DOUBLE
  | VStr _ => Ok STRING
  | VBytes _ => Raise TypeError
  end.

(** CPython's decimal conversions (and [float(bytes)], [int(bytes)]). *)
Class TextConversions := {
  int_of_text : TagValue -> res Z;
  float_of_text : TagValue -> res pfloat;
  text_of : TagValue -> string
}.

(** ** Encoding *)

Definition raw_int (r : raw) : res Z := match r with RInt z => Ok z | RBytes _ => Raise TypeError end.

Section Payload.
Context `{TextConversions}.

(** [int(value)], [float(value)], [bool(value)], [str(value)] *)
Definition py_int (v : TagValue) : res Z :=
  match v with VBool b => Ok (bool_int b) | VInt z => Ok z | VFloat f => trunc f | _ => int_of_text v end.
Definition py_float (v : TagValue) : res pfloat :=
  match v with VBool b => float_of_Z (bool_int b) | VInt z => float_of_Z z | VFloat f => Ok f | _ => float_of_text v end.
Definition py_bool (v : TagValue) : bool :=
  match v with
  | VBool b => b | VInt z => negb (z =? 0) | VFloat f => negb (feqb f fzero)
  | VStr s => negb (String.eqb s "") | VBytes bs => negb (Nat.eqb (length bs) 0)
  end.
Definition py_str (v : TagValue) : string := match v with VStr s => s | _ => text_of v end.

Definition encode_metric_value (datatype : DataType) (v : TagValue) : res (list Z) :=
  if dt_in datatype INT_FIELD_DATATYPES then let* z := py_int v in encode_varint_field FIELD_INT_VALUE z
  else if dt_in datatype LONG_FIELD_DATATYPES then let* z := py_int v in encode_varint_field FIELD_LONG_VALUE z
  else if bool_decide (datatype = FLOAT) then let* f := py_float v in encode_fixed32_field FIELD_FLOAT_VALUE f
  else if bool_decide (datatype = DOUBLE) then let* f := py_float v in encode_fixed64_field FIELD_DOUBLE_VALUE f
  else if bool_decide (datatype = BOOLEAN) then encode_bool_field FIELD_BOOLEAN_VALUE (py_bool v)
  else if dt_in datatype STRING_FIELD_DATATYPES then encode_string_field FIELD_STRING_VALUE (py_str v)
  else Raise ValueError.

(** [if x is not None: parts += encode(x)] *)
Definition opt_part {A} (encode : A -> res (list Z)) (o : option A) : res (list Z) :=
  match o with Some a => encode a | None => Ok [] end.

Definition encode_metric (metric : SparkplugMetric) : res (list Z) :=
  let* p1 := opt_part (encode_string_field FIELD_METRIC_NAME) (sm_name metric) in
  let* p2 := opt_part (encode_varint_field FIELD_METRIC_ALIAS) (sm_alias metric) in
  let* ts := raw_int (sm_timestamp_ms metric) in
  let* p3 := encode_varint_field FIELD_METRIC_TIMESTAMP ts in
  let* p4 := encode_varint_field FIELD_METRIC_DATATYPE (datatype_int (sm_datatype metric)) in
  let* p5 :=
    match sm_is_null metric, sm_value metric with
    | false, Some v => encode_metric_value (sm_datatype metric) v
    | _, _ => encode_bool_field FIELD_METRIC_IS_NULL true
    end in
  Ok (p1 ++ p2 ++ p3 ++ p4 ++ p5).

(** The [for metric in metrics] loop appends one field per metric. *)
Fixpoint encode_metrics (metrics : list SparkplugMetric) : res (list Z) :=
  match metrics with
  | [] => Ok []
  | metric :: t =>
      let* b := encode_metric metric in
      let* p := encode_message_field FIELD_PAYLOAD_METRICS b in
      let* ps := encode_metrics t in Ok (p ++ ps)
  end.

Definition encode_payload (timestamp_ms : Z) (seq : option Z) (metrics : list SparkplugMetric) : res (list Z) :=
  let* p1 := encode_varint_field FIELD_PAYLOAD_TIMESTAMP timestamp_ms in
  let* p2 := encode_metrics metrics in
  let* p3 := opt_part (encode_varint_field FIELD_PAYLOAD_SEQ) seq in
  Ok (p1 ++ p2 ++ p3).
End Payload.

(** ** Decoding *)

Definition raw_bool (r : raw) : bool := match r with RInt z => negb (z =? 0) | RBytes b => negb (Nat.eqb (length b) 0) end.
Definition raw_decode (r : raw) : res string := match r with RInt _ => Raise AttributeError | RBytes b => decode_utf8 b end.
Definition raw_value (r : raw) : TagValue := match r with RInt z => VInt z | RBytes b => VBytes b end.

(** The locals of [decode_metric]. *)
Record metric_fields := {
  mf_name : option string;
  mf_timestamp_ms : raw;
  mf_datatype : DataType;
  mf_is_null : bool;
  mf_int_value : option raw;
  mf_fixed32_bytes : option raw;
  mf_fixed64_bytes : option raw;
  mf_bool_value : option bool;
  mf_string_value : option string
}.
Definition no_fields : metric_fields :=
  {| mf_name := None; mf_timestamp_ms := RInt 0; mf_datatype := DT_UNKNOWN; mf_is_null := false; mf_int_value := None;
     mf_fixed32_bytes := None; mf_fixed64_bytes := None; mf_bool_value := None; mf_string_value := None |}.

(** The body of the loop over the fields. *)
Definition metric_field (a : metric_fields) (field_number : Z) (r : raw) : res metric_fields :=
  let 'Build_metric_fields nm ts dt nl iv f32 f64 bv sv := a in
  if field_number =? FIELD_METRIC_NAME then
    let* s := raw_decode r in Ok (Build_metric_fields (Some s) ts dt nl iv f32 f64 bv sv)
  else if field_number =? FIELD_METRIC_TIMESTAMP then Ok (Build_metric_fields nm r dt nl iv f32 f64 bv sv)
  else if field_number =? FIELD_METRIC_DATATYPE then
    let* d := datatype_of r in Ok (Build_metric_fields nm ts d nl iv f32 f64 bv sv)
  else if field_number =? FIELD_METRIC_IS_NULL then Ok (Build_metric_fields nm ts dt (raw_bool r) iv f32 f64 bv sv)
  else if (field_number =? FIELD_INT_VALUE) || (field_number =? FIELD_LONG_VALUE) then
    Ok (Build_metric_fields nm ts dt nl (Some r) f32 f64 bv sv)
  else if field_number =? FIELD_FLOAT_VALUE then Ok (Build_metric_fields nm ts dt nl iv (Some r) f64 bv sv)
  else if field_number =? FIELD_DOUBLE_VALUE then Ok (Build_metric_fields nm ts dt nl iv f32 (Some r) bv sv)
  else if field_number =? FIELD_BOOLEAN_VALUE then Ok (Build_metric_fields nm ts dt nl iv f32 f64 (Some (raw_bool r)) sv)
  else if field_number =? FIELD_STRING_VALUE then
    let* s := raw_decode r in Ok (Build_metric_fields nm ts dt nl iv f32 f64 bv (Some s))
  else Ok a.

Definition raw_unpack (unpack : list Z -> res pfloat) (r : raw) : res (option TagValue) :=
  match r with RInt _ => Raise TypeError | RBytes b => let* f := unpack b in Ok (Some (VFloat f)) end.

(** The value after the loop. *)
Definition decoded_value (a : metric_fields) : res (option TagValue) :=
  let d := mf_datatype a in
  if mf_is_null a then Ok None
  else if dt_in d INT_FIELD_DATATYPES || dt_in d LONG_FIELD_DATATYPES then Ok (option_map raw_value (mf_int_value a))
  else match d, mf_fixed32_bytes a, mf_fixed64_bytes a with
  | FLOAT, Some r, _ => raw_unpack (unpack_f LittleEndian) r
  | DOUBLE, _, Some r => raw_unpack (unpack_d LittleEndian) r
  | BOOLEAN, _, _ => Ok (option_map VBool (mf_bool_value a))
  | STRING, _, _ | TEXT, _, _ => Ok (option_map VStr (mf_string_value a))
  | _, _, _ => Ok None
  end.

Definition decode_metric (data : list Z) : res SparkplugMetric :=
  let* a := for_fields metric_field data no_fields in
  let* v := decoded_value a in
  Ok {| sm_name := mf_name a; sm_timestamp_ms := mf_timestamp_ms a; sm_datatype := mf_datatype a;
        sm_value := v; sm_alias := None; sm_is_null := mf_is_null a |}.

Definition payload_field (a : raw * option raw * list SparkplugMetric) (field_number : Z) (r : raw)
  : res (raw * option raw * list SparkplugMetric) :=
  let '(timestamp_ms, seq, metrics) := a in
  if field_number =? FIELD_PAYLOAD_TIMESTAMP then Ok (r, seq, metrics)
  else if field_number =? FIELD_PAYLOAD_METRICS then
    match r with
    | RInt _ => Raise TypeError
    | RBytes b => let* m := decode_metric b in Ok (timestamp_ms, seq, metrics ++ [m])
    end
  else if field_number =? FIELD_PAYLOAD_SEQ then Ok (timestamp_ms, Some r, metrics)
  else Ok a.
Definition decode_payload (data : list Z) : res (raw * option raw * list SparkplugMetric) :=
  for_fields payload_field data (RInt 0, None, []).

(** ** Round trip *)

(** A binary64 that binary32 holds exactly. *)
Definition float32_exact (f : pfloat) : bool :=
  match narrow32 f with Ok g => valid_binary 24 128 g && bool_decide (widen32 g = f) | Raise _ => false end.
(** The value has its datatype's Python type and range. *)
Definition value_matches (d : DataType) (v : TagValue) : bool :=
  match d, v with
  | (INT8 | INT16 | INT32 | UINT8 | UINT16 | UINT32 | INT64 | UINT64 | DATETIME), VInt z => 0 <=? z
  | FLOAT, VFloat f => float32_exact f
  | DOUBLE, VFloat f => valid_binary prec64 emax64 f
  | BOOLEAN, VBool _ => true
  | (STRING | TEXT), VStr s => utf8_valid (str_bytes s)
  | _, _ => false
  end.
Definition nonneg_opt (o : option Z) : bool := match o with Some z => 0 <=? z | None => true end.
Definition metric_ok (m : SparkplugMetric) : bool :=
  match sm_name m with Some s => utf8_valid (str_bytes s) | None => true end &&
  match sm_timestamp_ms m with RInt z => 0 <=? z | RBytes _ => false end && nonneg_opt (sm_alias m) &&
  match sm_is_null m, sm_value m with false, Some v => value_matches (sm_datatype m) v | _, _ => true end.
(** What the decoder reports: no alias, and null whenever there is no value. *)
Definition as_decoded (m : SparkplugMetric) : SparkplugMetric :=
  let null := sm_is_null m || bool_decide (sm_value m = None) in
  {| sm_name := sm_name m; sm_timestamp_ms := sm_timestamp_ms m; sm_datatype := sm_datatype m;
     sm_value := if null then None else sm_value m; sm_alias := None; sm_is_null := null |}.

Lemma encode_varint_field_ok fn v : 0 <= fn -> 0 <= v -> exists bs, encode_varint_field fn v = Ok bs.
Proof.
  intros. unfold encode_varint_field, encode_tag, WIRE_TYPE_VARINT. rewrite Z.lor_0_r.
  rewrite (encode_varint_nonneg (Z.shiftl fn 3)) by (by apply Z.shiftl_nonneg).
  rewrite encode_varint_nonneg by done. by eexists.
Qed.
Lemma encode_bytes_field_ok fn v : 0 <= fn -> exists bs, encode_bytes_field fn v = Ok bs.
Proof.
  intros. unfold encode_bytes_field, encode_tag.
  rewrite encode_varint_nonneg by (apply Z.lor_nonneg; split; [by apply Z.shiftl_nonneg|done]).
  rewrite encode_varint_nonneg by apply zlen_nonneg. by eexists.
Qed.

Section Fold.
Context {A : Type} (body : A -> Z -> raw -> res A).
Lemma for_varint_field fn v bs rest acc :
  0 <= fn -> encode_varint_field fn v = Ok bs ->
  for_fields body (bs ++ rest) acc = (let* acc := body acc fn (RInt v) in for_fields body rest acc).
Proof. intros. eapply for_fields_step, next_varint_field; done. Qed.
Lemma for_bytes_field fn v bs rest acc :
  0 <= fn -> encode_bytes_field fn v = Ok bs ->
  for_fields body (bs ++ rest) acc = (let* acc := body acc fn (RBytes v) in for_fields body rest acc).
Proof. intros. eapply for_fields_step, next_bytes_field; done. Qed.
Lemma for_last_field fn wt r bs acc :
  (forall rest, next_field (bs ++ rest) = Ok (fn, wt, r, rest)) -> for_fields body bs acc = body acc fn r.
Proof.
  intros N. specialize (N []). rewrite app_nil_r in N. rewrite (for_fields_step _ _ _ _ _ _ _ N).
  by destruct (body acc fn r).
Qed.
End Fold.

Lemma decode_str_bytes s : utf8_valid (str_bytes s) = true -> decode_utf8 (str_bytes s) = Ok s.
Proof. unfold decode_utf8. intros ->. by rewrite str_bytes_roundtrip. Qed.
Lemma datatype_of_int d : datatype_of (RInt (datatype_int d)) = Ok d.
Proof. by destruct d. Qed.
Lemma unpack_pack_f f : float32_exact f = true ->
  exists w, pack_f LittleEndian f = Ok w /\ unpack_f LittleEndian w = Ok f.
Proof.
  unfold float32_exact, pack_f, unpack_f. destruct (narrow32 f) as [g|] eqn:E; [|done].
  intros [V W]%andb_true_iff. apply bool_decide_eq_true in W. exists (le_bytes 4 (float_to_bits 23 8 g)).
  split; [done|]. rewrite le_bytes_length, le_Z_bytes. simpl.
  pose proof (float_to_bits_range 23 8 ltac:(lia) ltac:(lia) g V) as R.
  rewrite Z.mod_small by exact R. by rewrite (float_bits_roundtrip 23 8) by (lia || done); rewrite W.
Qed.

(** The locals once the name, timestamp and datatype have been read. *)
Definition head_fields (m : SparkplugMetric) : metric_fields :=
  {| mf_name := sm_name m; mf_timestamp_ms := sm_timestamp_ms m; mf_datatype := sm_datatype m; mf_is_null := false;
     mf_int_value := None; mf_fixed32_bytes := None; mf_fixed64_bytes := None; mf_bool_value := None;
     mf_string_value := None |}.

Section RoundTrip.
Context `{TextConversions}.

(** The value field decodes to the value, whichever datatype carries it. *)
Lemma value_roundtrip m v :
  value_matches (sm_datatype m) v = true ->
  exists bs a, encode_metric_value (sm_datatype m) v = Ok bs /\
    for_fields metric_field bs (head_fields m) = Ok a /\ decoded_value a = Ok (Some v) /\
    mf_name a = sm_name m /\ mf_timestamp_ms a = sm_timestamp_ms m /\ mf_datatype a = sm_datatype m /\
    mf_is_null a = false.
Proof.
  destruct m as [nm ts d vv al nl]. unfold head_fields. cbn [sm_datatype sm_name sm_timestamp_ms].
  assert (forall fn z, 0 <= fn -> 0 <= z -> exists bs, encode_varint_field fn z = Ok bs /\
    forall a, for_fields metric_field bs a = metric_field a fn (RInt z)) as IntF.
  { intros fn z Hf Hz. destruct (encode_varint_field_ok fn z) as [bs E]; [done..|]. exists bs. split; [done|].
    intros a. eapply for_last_field. intros rest. by eapply next_varint_field. }
  assert (forall s, utf8_valid (str_bytes s) = true -> exists bs, encode_string_field FIELD_STRING_VALUE s = Ok bs /\
    forall a, for_fields metric_field bs a = metric_field a FIELD_STRING_VALUE (RBytes (str_bytes s))) as StrF.
  { intros s Hs. destruct (encode_bytes_field_ok FIELD_STRING_VALUE (str_bytes s)) as [bs E]; [done..|].
    exists bs. split; [done|]. intros a. eapply for_last_field. intros rest. by eapply next_bytes_field. }
  destruct d, v; cbn [value_matches]; try discriminate; intros M.
  1-8, 13: apply Z.leb_le in M;
    first [destruct (IntF FIELD_INT_VALUE z) as (bs & E & F); [done..|]; exists bs; eexists; split; [exact E|];
             rewrite F; split; [reflexivity|]; by repeat split
          |destruct (IntF FIELD_LONG_VALUE z) as (bs & E & F); [done..|]; exists bs; eexists; split; [exact E|];
             rewrite F; split; [reflexivity|]; by repeat split].
  1: { destruct (unpack_pack_f f M) as (w & Pw & Uw).
       assert (exists bs, encode_fixed32_field FIELD_FLOAT_VALUE f = Ok bs) as [bs E].
       { unfold encode_fixed32_field. rewrite Pw. by eexists. }
       exists bs; eexists. split; [exact E|].
       rewrite (for_last_field _ FIELD_FLOAT_VALUE WIRE_TYPE_FIXED32 (RBytes w)).
       - split; [reflexivity|]. unfold decoded_value. cbn -[unpack_f]. by rewrite Uw.
       - intros rest. by eapply next_fixed32_field. }
  1: { assert (exists bs, encode_fixed64_field FIELD_DOUBLE_VALUE f = Ok bs) as [bs E] by (by eexists).
       exists bs; eexists. split; [exact E|].
       rewrite (for_last_field _ FIELD_DOUBLE_VALUE WIRE_TYPE_FIXED64 (RBytes (pack_d LittleEndian f))).
       - split; [reflexivity|]. unfold decoded_value. cbn -[pack_d unpack_d]. by rewrite unpack_pack_d.
       - intros rest. by eapply next_fixed64_field. }
  2, 3: destruct (StrF s M) as (bs & E & F); exists bs; eexists; split; [exact E|]; rewrite F; cbn -[str_bytes];
    rewrite decode_str_bytes by done; split; [reflexivity|]; by repeat split.
  destruct (IntF FIELD_BOOLEAN_VALUE (if b then 1 else 0)) as (bs & E & F); [done|by destruct b|].
  exists bs; eexists. split; [exact E|]. rewrite F. split; [reflexivity|]. destruct b; by repeat split.
Qed.

(** The fields every metric starts with. *)
Lemma head_roundtrip m p1 p2 z p3 p4 rest :
  match sm_name m with Some s => utf8_valid (str_bytes s) | None => true end = true ->
  sm_timestamp_ms m = RInt z ->
  opt_part (encode_string_field FIELD_METRIC_NAME) (sm_name m) = Ok p1 ->
  opt_part (encode_varint_field FIELD_METRIC_ALIAS) (sm_alias m) = Ok p2 ->
  encode_varint_field FIELD_METRIC_TIMESTAMP z = Ok p3 ->
  encode_varint_field FIELD_METRIC_DATATYPE (datatype_int (sm_datatype m)) = Ok p4 ->
  for_fields metric_field (p1 ++ p2 ++ p3 ++ p4 ++ rest) no_fields = for_fields metric_field rest (head_fields m).
Proof.
  destruct m as [nm ts d v al nl]; unfold head_fields, no_fields; simpl. intros U -> E1 E2 E3 E4.
  assert (forall l, for_fields metric_field (p1 ++ l) no_fields =
    for_fields metric_field l (Build_metric_fields nm (RInt 0) DT_UNKNOWN false None None None None None)) as ->.
  { intros l. destruct nm as [s|]; simpl in E1; [|by injection E1 as <-].
    rewrite (for_bytes_field metric_field FIELD_METRIC_NAME _ _ _ _ ltac:(done) E1). cbn -[str_bytes].
    by rewrite decode_str_bytes. }
  assert (forall l a, for_fields metric_field (p2 ++ l) a = for_fields metric_field l a) as ->.
  { intros l a. destruct al as [al|]; simpl in E2; [|by injection E2 as <-].
    rewrite (for_varint_field metric_field FIELD_METRIC_ALIAS _ _ _ _ ltac:(done) E2). by destruct a. }
  rewrite (for_varint_field metric_field FIELD_METRIC_TIMESTAMP _ _ _ _ ltac:(done) E3). simpl.
  rewrite (for_varint_field metric_field FIELD_METRIC_DATATYPE _ _ _ _ ltac:(done) E4). cbn -[datatype_of].
  by rewrite datatype_of_int.
Qed.

Lemma opt_part_ok {A} (f : A -> res (list Z)) (o : option A) :
  (forall a, o = Some a -> exists bs, f a = Ok bs) -> exists bs, opt_part f o = Ok bs.
Proof. destruct o; simpl; eauto. Qed.

Lemma metric_roundtrip m :
  metric_ok m = true -> exists bs, encode_metric m = Ok bs /\ decode_metric bs = Ok (as_decoded m).
Proof.
  unfold metric_ok. intros (((Un & Ut)%andb_true_iff & Ua)%andb_true_iff & Uv)%andb_true_iff.
  destruct (sm_timestamp_ms m) as [z|] eqn:Et; [|done]. apply Z.leb_le in Ut.
  destruct (opt_part_ok (encode_string_field FIELD_METRIC_NAME) (sm_name m)) as [p1 E1].
  { intros s _. by apply encode_bytes_field_ok. }
  destruct (opt_part_ok (encode_varint_field FIELD_METRIC_ALIAS) (sm_alias m)) as [p2 E2].
  { intros a Ha. rewrite Ha in Ua. apply Z.leb_le in Ua. by apply encode_varint_field_ok. }
  destruct (encode_varint_field_ok FIELD_METRIC_TIMESTAMP z) as [p3 E3]; [done..|].
  destruct (encode_varint_field_ok FIELD_METRIC_DATATYPE (datatype_int (sm_datatype m))) as [p4 E4];
    [done|by destruct (sm_datatype m)|].
  pose proof (fun rest => head_roundtrip m p1 p2 z p3 p4 rest Un Et E1 E2 E3 E4) as Hd.
  unfold encode_metric, decode_metric, as_decoded. rewrite E1, E2, Et. cbn [raw_int rbind]. rewrite E3, E4.
  cbn [rbind]. destruct (sm_is_null m) eqn:N, (sm_value m) as [v|] eqn:V; cbn [orb];
    rewrite ?bool_decide_true by done.
  3: { destruct (value_roundtrip m v Uv) as (p5 & a & -> & F & D & A1 & A2 & A3 & A4). cbn [rbind].
       eexists. split; [done|]. rewrite Hd, F. cbn [rbind]. rewrite D. cbn [rbind].
       rewrite A1, A2, A3, A4, Et. by rewrite bool_decide_false by done. }
  all: destruct (encode_varint_field_ok FIELD_METRIC_IS_NULL 1) as [p5 E5]; [done..|];
    eexists; split; [unfold encode_bool_field; rewrite E5; done|]; rewrite Hd;
    rewrite (for_last_field metric_field FIELD_METRIC_IS_NULL WIRE_TYPE_VARINT (RInt 1)) by
      (intros rest; by eapply next_varint_field); by rewrite <- Et.
Qed.

Lemma metrics_roundtrip ms :
  Forall (fun m => metric_ok m = true) ms ->
  exists bs, encode_metrics ms = Ok bs /\ forall rest ts seq acc,
    for_fields payload_field (bs ++ rest) (ts, seq, acc) =
    for_fields payload_field rest (ts, seq, acc ++ map as_decoded ms).
Proof.
  induction 1 as [|m t Hm _ (bs & E & IH)]; [exists []; split; [done|]; intros; by rewrite app_nil_r|].
  destruct (metric_roundtrip m Hm) as (b & Eb & Db).
  destruct (encode_bytes_field_ok FIELD_PAYLOAD_METRICS b) as [p Ep]; [done|].
  exists (p ++ bs). simpl. rewrite Eb. simpl. unfold encode_message_field. rewrite Ep, E. split; [done|].
  intros rest ts seq acc. rewrite <- app_assoc, (for_bytes_field payload_field FIELD_PAYLOAD_METRICS _ _ _ _ ltac:(done) Ep).
  cbn -[decode_metric]. rewrite Db. simpl. by rewrite IH, <- app_assoc.
Qed.

Lemma payload_roundtrip_helper ts seq ms :
  0 <= ts -> nonneg_opt seq = true -> Forall (fun m => metric_ok m = true) ms ->
  exists bs, encode_payload ts seq ms = Ok bs /\ decode_payload bs = Ok (RInt ts, option_map RInt seq, map as_decoded ms).
Proof.
  intros Ht Hs Hm. destruct (encode_varint_field_ok FIELD_PAYLOAD_TIMESTAMP ts) as [p1 E1]; [done..|].
  destruct (metrics_roundtrip ms Hm) as (p2 & E2 & F).
  destruct (opt_part_ok (encode_varint_field FIELD_PAYLOAD_SEQ) seq) as [p3 E3].
  { intros z ->. apply Z.leb_le in Hs. by apply encode_varint_field_ok. }
  exists (p1 ++ p2 ++ p3). unfold encode_payload. rewrite E1, E2, E3. split; [done|]. unfold decode_payload.
  rewrite (for_varint_field payload_field FIELD_PAYLOAD_TIMESTAMP _ _ _ _ ltac:(done) E1). cbn [payload_field rbind Z.eqb FIELD_PAYLOAD_TIMESTAMP Pos.eqb].
  rewrite F. destruct seq as [z|]; simpl in E3; [|by injection E3 as <-].
  by rewrite (for_last_field payload_field FIELD_PAYLOAD_SEQ WIRE_TYPE_VARINT (RInt z)) by
    (intros rest; by eapply next_varint_field).
Qed.

(** C5: a payload whose metrics carry values of their datatype encodes without an exception, and decoding the bytes
    gives back the timestamp, the sequence number and, in order, every metric with its name, timestamp, datatype and
    value; aliases are not read back and a metric without a value comes back null. *)
Theorem payload_roundtrip ts seq ms :
  0 <= ts -> nonneg_opt seq = true -> Forall (fun m => metric_ok m = true) ms ->
  exists bs, encode_payload ts seq ms = Ok bs /\
    decode_payload bs = Ok (RInt ts, option_map RInt seq, map as_decoded ms).
Proof. apply payload_roundtrip_helper. Qed.
End RoundTrip.

(** The conversions of values that are not text never look at the parameters. *)
#[export] Instance no_text : TextConversions :=
  {| int_of_text := fun _ => Raise ValueError; float_of_text := fun _ => Raise ValueError; text_of := fun _ => "" |}.
Definition demo_metrics : list SparkplugMetric :=
  [{| sm_name := Some "plc/temp"; sm_timestamp_ms := RInt 1700000000000; sm_datatype := DOUBLE;
      sm_value := Some (VFloat (S754_finite false 6755399441055744 (-52))); sm_alias := None; sm_is_null := false |};
   {| sm_name := Some "plc/count"; sm_timestamp_ms := RInt 300; sm_datatype := UINT32; sm_value := Some (VInt 70000);
      sm_alias := Some 3; sm_is_null := false |};
   {| sm_name := None; sm_timestamp_ms := RInt 0; sm_datatype := STRING; sm_value := None; sm_alias := None;
      sm_is_null := true |}].
Lemma payload_roundtrip_witness :
  exists bs, encode_payload 300 (Some 255) demo_metrics = Ok bs /\
    decode_payload bs = Ok (RInt 300, option_map RInt (Some 255), map as_decoded demo_metrics).
Proof.
  apply payload_roundtrip; [lia|reflexivity|]. repeat (apply Forall_cons; split; [vm_compute; reflexivity|]).
  apply Forall_nil. exact I.
Defined.
