(* ===== verification/SparkplugConnector.v ===== *)
(** * Sparkplug B session and connector
    (src/xedge/northbound/sparkplug/session.py, src/xedge/northbound/mqtt.py)

    The connector's state, the messages it hands to the MQTT client and the
    commands it takes from it.  What the MQTT library and the broker answer is
    an input of each operation. *)

From Stdlib Require Import Floats.SpecFloat Ascii.
From S2P Require Import Prelude PyBytes PyFloat PyDict PyTime Pipeline SparkplugWire SparkplugPayload.
Local Open Scope string_scope.
Local Open Scope list_scope.
Local Open Scope Z_scope.

(** ** Session *)

Definition SEQ_MODULUS : Z := 256.
Record SparkplugSession := { bd_seq : Z; seq_ : Z }.
Definition new_session : SparkplugSession := {| bd_seq := 0; seq_ := 0 |}.
Definition death_payload_bd_seq (s : SparkplugSession) : Z := bd_seq s.
Definition start_birth (s : SparkplugSession) : SparkplugSession * Z := ({| bd_seq := bd_seq s; seq_ := 0 |}, bd_seq s).
Definition next_seq (s : SparkplugSession) : SparkplugSession * Z :=
  ({| bd_seq := bd_seq s; seq_ := (seq_ s + 1) mod SEQ_MODULUS |}, seq_ s).
Definition advance_bd_seq (s : SparkplugSession) : SparkplugSession :=
  {| bd_seq := (bd_seq s + 1) mod SEQ_MODULUS; seq_ := seq_ s |}.
Definition build_topic (message_type group_id edge_node_id : string) (device_id : option string) : string :=
  String.concat "/" (["spBv1.0"; group_id; message_type; edge_node_id] ++ match device_id with Some d => [d] | None => [] end).

(** ** Connector state *)

Record SparkplugConnectorConfig := { group_id : string; edge_node_id : string; qos : Z; tls_ok : res unit }.
Record message := { m_topic : string; m_payload : list Z; m_qos : Z }.
(** A paho client: its will, its subscriptions, whether its network thread runs. *)
Record Client := { c_will : message; c_topics : list string; c_loop : bool }.
Record ConnectorMetrics := { published_count : Z; cm_error_count : Z; last_successful_publish : option Z }.
Record MqttSparkplugConnector := {
  k_config : SparkplugConnectorConfig;
  k_session : SparkplugSession;
  k_client : option Client;
  k_metrics : ConnectorMetrics;
  k_write_router : bool;
  (** every message handed to [client.publish] *)
  k_outbox : list message
}.
Definition new_connector (config : SparkplugConnectorConfig) (write_router : bool) : MqttSparkplugConnector :=
  {| k_config := config; k_session := new_session; k_client := None;
     k_metrics := {| published_count := 0; cm_error_count := 0; last_successful_publish := None |};
     k_write_router := write_router; k_outbox := [] |}.

Definition set_client (c : option Client) (k : MqttSparkplugConnector) : MqttSparkplugConnector :=
  {| k_config := k_config k; k_session := k_session k; k_client := c; k_metrics := k_metrics k;
     k_write_router := k_write_router k; k_outbox := k_outbox k |}.
Definition set_session (s : SparkplugSession) (k : MqttSparkplugConnector) : MqttSparkplugConnector :=
  {| k_config := k_config k; k_session := s; k_client := k_client k; k_metrics := k_metrics k;
     k_write_router := k_write_router k; k_outbox := k_outbox k |}.
Definition set_metrics (m : ConnectorMetrics) (k : MqttSparkplugConnector) : MqttSparkplugConnector :=
  {| k_config := k_config k; k_session := k_session k; k_client := k_client k; k_metrics := m;
     k_write_router := k_write_router k; k_outbox := k_outbox k |}.
Definition push_message (m : message) (k : MqttSparkplugConnector) : MqttSparkplugConnector :=
  {| k_config := k_config k; k_session := k_session k; k_client := k_client k; k_metrics := k_metrics k;
     k_write_router := k_write_router k; k_outbox := k_outbox k ++ [m] |}.

Definition topic (message_type : string) (k : MqttSparkplugConnector) : string :=
  build_topic message_type (group_id (k_config k)) (edge_node_id (k_config k)) None.

(** How the library answers [client.publish], [wait_for_publish] and [is_published]. *)
Record publish_answer := { pa_publish : res unit; pa_wait : res unit; pa_published : bool }.
Definition require_client (k : MqttSparkplugConnector) : res Client :=
  match k_client k with Some c => Ok c | None => Raise RuntimeError end.
Definition publish_raw (ans : publish_answer) (t : string) (payload : list Z) (q : Z) : SR MqttSparkplugConnector unit :=
  fun k =>
  match require_client k with
  | Raise e => (k, Raise e)
  | Ok _ =>
      match pa_publish ans with
      | Raise e => (k, Raise e)
      | Ok _ =>
          let k := push_message {| m_topic := t; m_payload := payload; m_qos := q |} k in
          (k, if 0 <? q then let* _ := pa_wait ans in raise_if negb (pa_published ans) with TimeoutError; Ok tt
              else Ok tt)
      end
  end.

(** How the connection attempt goes: [client.connect] times out or raises, no
    CONNACK arrives in time, or the CONNACK carries a failure code or not. *)
Inductive connect_answer := CTimeout | CRaise (e : exn) | CNoAck | CRefused | CAccepted.

Definition bd_seq_metric (now_ms bd : Z) : SparkplugMetric :=
  {| sm_name := Some "bdSeq"; sm_timestamp_ms := RInt now_ms; sm_datatype := UINT64; sm_value := Some (VInt bd);
     sm_alias := None; sm_is_null := false |}.

Section Connector.
Context `{TextConversions}.

(** [_now_ms()] is read once per payload and once per metric. *)
Definition publish_birth (now_metric now_payload : Z) (ans : publish_answer) : SR MqttSparkplugConnector unit :=
  fun k =>
  let (s, bd) := start_birth (k_session k) in
  let k := set_session s k in
  match encode_payload now_payload (Some 0) [bd_seq_metric now_metric bd] with
  | Raise e => (k, Raise e)
  | Ok payload => publish_raw ans (topic "NBIRTH" k) payload 0 k
  end.

Definition connect (now1 now2 now3 now4 : Z) (conn : connect_answer) (sub : res unit) (ans : publish_answer)
  : SR MqttSparkplugConnector unit :=
  fun k =>
  match tls_ok (k_config k) with
  | Raise e => (k, Raise e)
  | Ok _ =>
      match encode_payload now1 None [bd_seq_metric now2 (death_payload_bd_seq (k_session k))] with
      | Raise e => (k, Raise e)
      | Ok death_payload =>
          let client := {| c_will := {| m_topic := topic "NDEATH" k; m_payload := death_payload; m_qos := 1 |};
                           c_topics := []; c_loop := false |} in
          match conn with
          | CRaise e => (set_client (Some client) k, Raise e)
          | CTimeout | CNoAck => (set_client None k, Raise TimeoutError)
          | CRefused => (set_client None k, Raise ConnectionError)
          | CAccepted =>
              let running t := Some {| c_will := c_will client; c_topics := t; c_loop := true |} in
              if k_write_router k then
                match sub with
                | Raise e => (set_client (running []) k, Raise e)
                | Ok _ => publish_birth now3 now4 ans (set_client (running [topic "NCMD" k]) k)
                end
              else publish_birth now3 now4 ans (set_client (running []) k)
          end
      end
  end.

Definition disconnect (ans : res unit) : SR MqttSparkplugConnector unit :=
  fun k =>
  match k_client k with
  | None => (k, Ok tt)
  | Some _ =>
      match ans with
      | Raise e => (k, Raise e)
      | Ok _ => (set_client None (set_session (advance_bd_seq (k_session k)) k), Ok tt)
      end
  end.

(** [int(tag.timestamp.timestamp() * 1000)] *)
Definition tag_timestamp_ms (t : UnifiedTag) : res Z := trunc (fmul (total_seconds (timestamp t)) (float_of_Z_raw 1000)).
Definition to_sparkplug_metric (tag : UnifiedTag) : res SparkplugMetric :=
  let is_null := bool_decide (quality tag = BAD) in
  let* ts := tag_timestamp_ms tag in
  let* d := infer_datatype (value tag) in
  Ok {| sm_name := Some (tag_id tag); sm_timestamp_ms := RInt ts; sm_datatype := d;
        sm_value := if is_null then None else Some (value tag); sm_alias := None; sm_is_null := is_null |}.

Record PublishResult := { pr_success : bool; pr_count : Z }.
(** [publish]: the payload is built before the [try]. *)
Definition publish (now_ms now : Z) (ans : publish_answer) (batch : list UnifiedTag)
  : SR MqttSparkplugConnector PublishResult :=
  fun k =>
  match k_client k with
  | None => (k, Ok {| pr_success := false; pr_count := 0 |})
  | Some _ =>
      match batch with
      | [] => (k, Ok {| pr_success := true; pr_count := 0 |})
      | _ =>
          match mapM_res to_sparkplug_metric batch with
          | Raise e => (k, Raise e)
          | Ok metrics =>
              let (s, sq) := next_seq (k_session k) in
              let k := set_session s k in
              match encode_payload now_ms (Some sq) metrics with
              | Raise e => (k, Raise e)
              | Ok payload =>
                  match publish_raw ans (topic "NDATA" k) payload (qos (k_config k)) k with
                  | (k, Ok _) =>
                      (set_metrics {| published_count := published_count (k_metrics k) + zlen batch;
                                      cm_error_count := cm_error_count (k_metrics k);
                                      last_successful_publish := Some now |} k,
                       Ok {| pr_success := true; pr_count := zlen batch |})
                  | (k, Raise _) =>
                      (set_metrics {| published_count := published_count (k_metrics k);
                                      cm_error_count := cm_error_count (k_metrics k) + 1;
                                      last_successful_publish := last_successful_publish (k_metrics k) |} k,
                       Ok {| pr_success := false; pr_count := 0 |})
                  end
              end
          end
      end
  end.
End Connector.

(** ** Incoming commands *)

(** [name.partition("/")] of a name with a slash. *)
Fixpoint partition_slash (s : string) : option (string * string) :=
  match s with
  | EmptyString => None
  | String c t =>
      if Ascii.eqb c "/" then Some ("", t)
      else match partition_slash t with Some (a, b) => Some (String c a, b) | None => None end
  end.
Definition ncmd_write (m : SparkplugMetric) : option (string * string * TagValue) :=
  match sm_is_null m, sm_value m, sm_name m with
  | false, Some v, Some n => match partition_slash n with Some (i, t) => Some (i, t, v) | None => None end
  | _, _, _ => None
  end.
(** [_on_message]: the writes handed to the write router, in order. *)
Definition on_message (payload : list Z) : list (string * string * TagValue) :=
  match decode_payload payload with
  | Ok (_, _, metrics) => omap ncmd_write metrics
  | Raise _ => []
  end.

(** ** Properties *)

(** Tags the encoder has a representation for. *)
Definition publishable (t : UnifiedTag) : bool :=
  utf8_valid (str_bytes (tag_id t)) &&
  match tag_timestamp_ms t with Ok z => 0 <=? z | Raise _ => false end &&
  match value t with
  | VBool _ => true
  | VInt z => bool_decide (quality t = BAD) || (0 <=? z)
  | VFloat f => bool_decide (quality t = BAD) || valid_binary prec64 emax64 f
  | VStr s => bool_decide (quality t = BAD) || utf8_valid (str_bytes s)
  | VBytes _ => false
  end.
(** What a subscriber reads for a tag: its id, and its value unless the quality is bad. *)
Definition carries (t : UnifiedTag) (m : SparkplugMetric) : Prop :=
  sm_name m = Some (tag_id t) /\ sm_is_null m = bool_decide (quality t = BAD) /\
  sm_value m = (if bool_decide (quality t = BAD) then None else Some (value t)) /\
  infer_datatype (value t) = Ok (sm_datatype m).

Lemma to_sparkplug_metric_ok t : publishable t = true ->
  exists m, to_sparkplug_metric t = Ok m /\ metric_ok m = true /\ as_decoded m = m /\ carries t m.
Proof.
  unfold publishable. intros [[U T]%andb_true_iff V]%andb_true_iff. unfold to_sparkplug_metric.
  destruct (tag_timestamp_ms t) as [z|]; [|done]. cbn [rbind].
  assert (exists d, infer_datatype (value t) = Ok d) as [d D] by (destruct (value t); try done; by eexists).
  rewrite D. eexists. split; [done|]. unfold metric_ok, as_decoded, carries. cbn [sm_name sm_timestamp_ms sm_alias sm_is_null sm_value sm_datatype].
  rewrite U, T, D. destruct (bool_decide (quality t = BAD)) eqn:Q; [done|]. cbn [andb nonneg_opt orb] in *.
  split; [|by rewrite bool_decide_false]. destruct (value t); simplify_eq/=; done.
Qed.

Lemma to_sparkplug_metrics_ok batch : Forall (fun t => publishable t = true) batch ->
  exists ms, mapM_res to_sparkplug_metric batch = Ok ms /\ Forall (fun m => metric_ok m = true) ms /\
    map as_decoded ms = ms /\ Forall2 carries batch ms.
Proof.
  induction 1 as [|t l Ht _ (ms & E & F & D & C)]; [by exists []|].
  destruct (to_sparkplug_metric_ok t Ht) as (m & Em & Fm & Dm & Cm). exists (m :: ms). simpl. rewrite Em, E, Dm, D.
  repeat split; by constructor.
Qed.

(** The broker confirmed, or no confirmation was asked for. *)
Definition confirmed (q : Z) (ans : publish_answer) : bool :=
  is_ok (pa_publish ans) && ((q <=? 0) || (is_ok (pa_wait ans) && pa_published ans)).

Lemma publish_raw_spec ans t payload q k c :
  k_client k = Some c ->
  exists k' r, publish_raw ans t payload q k = (k', r) /\ is_ok r = confirmed q ans /\
    k_outbox k' = k_outbox k ++ (if is_ok (pa_publish ans) then [{| m_topic := t; m_payload := payload; m_qos := q |}] else []) /\
    k_client k' = k_client k /\ k_session k' = k_session k /\ k_metrics k' = k_metrics k.
Proof.
  intros Hc. unfold publish_raw, require_client, confirmed. rewrite Hc.
  destruct (pa_publish ans); [|by eexists _, _; rewrite app_nil_r].
  eexists _, _. split; [done|]. repeat split; try done. destruct (Z.ltb_spec 0 q), (Z.leb_spec q 0); try lia; [|done].
  destruct (pa_wait ans), (pa_published ans); done.
Qed.

Lemma ncmd_write_decoded ms : omap ncmd_write (map as_decoded ms) = omap ncmd_write ms.
Proof.
  induction ms as [|m t IH]; [done|]. cbn [map omap list_omap]. rewrite IH.
  assert (ncmd_write (as_decoded m) = ncmd_write m) as ->; [|done].
  unfold ncmd_write, as_decoded. cbn [sm_is_null sm_value sm_name]. by destruct (sm_is_null m), (sm_value m).
Qed.

Section ConnectorProofs.
Context `{TextConversions}.

Lemma bd_metric_ok now bd : 0 <= now -> 0 <= bd -> metric_ok (bd_seq_metric now bd) = true.
Proof. intros. unfold metric_ok. simpl. rewrite !(proj2 (Z.leb_le 0 _)) by done. done. Qed.

(** publishing a batch the encoder can represent never raises: one NDATA message goes to the client whose payload
    decodes to the session's current sequence number and, in order, the name and value of every tag (null exactly for
    bad quality); the sequence number advances modulo 256, and the result reports the whole batch exactly when the
    broker confirmed. *)
Theorem publish_ndata now_ms now ans batch k c :
  k_client k = Some c -> batch <> [] -> Forall (fun t => publishable t = true) batch ->
  0 <= now_ms -> 0 <= seq_ (k_session k) ->
  exists k' payload ms,
    let ok := confirmed (qos (k_config k)) ans in
    publish now_ms now ans batch k = (k', Ok {| pr_success := ok; pr_count := if ok then zlen batch else 0 |}) /\
    decode_payload payload = Ok (RInt now_ms, Some (RInt (seq_ (k_session k))), ms) /\ Forall2 carries batch ms /\
    k_outbox k' = k_outbox k ++ (if is_ok (pa_publish ans)
      then [{| m_topic := topic "NDATA" k; m_payload := payload; m_qos := qos (k_config k) |}] else []) /\
    seq_ (k_session k') = (seq_ (k_session k) + 1) mod SEQ_MODULUS /\ k_client k' = k_client k /\
    published_count (k_metrics k') = published_count (k_metrics k) + (if ok then zlen batch else 0).
Proof.
  intros Hc Hb Hp Hn Hs. destruct (to_sparkplug_metrics_ok batch Hp) as (ms & E & F & D & C).
  destruct (payload_roundtrip_helper now_ms (Some (seq_ (k_session k))) ms) as (payload & Ep & Dp);
    [done|simpl; by apply Z.leb_le|done|].
  set (s := {| bd_seq := bd_seq (k_session k); seq_ := (seq_ (k_session k) + 1) mod SEQ_MODULUS |}).
  destruct (publish_raw_spec ans (topic "NDATA" k) payload (qos (k_config k)) (set_session s k) c Hc)
    as (k1 & r & P & R & O & Hcl & Hse & Hm).
  unfold publish. rewrite Hc. destruct batch as [|t l]; [done|]. rewrite E. unfold next_seq. cbv beta iota zeta.
  fold s. rewrite Ep. change (topic "NDATA" (set_session s k)) with (topic "NDATA" k).
  change (k_config (set_session s k)) with (k_config k). rewrite P, <- R.
  destruct r; eexists _, payload, ms; (split; [done|]); rewrite <- D, D, Dp;
    cbn [set_metrics k_outbox k_session k_client k_metrics published_count is_ok]; rewrite O, Hse, Hcl, Hm; simpl;
    rewrite ?D; repeat split; try done; lia.
Qed.

Lemma publish_birth_spec now3 now4 ans k k' c :
  0 <= now3 -> 0 <= now4 -> 0 <= bd_seq (k_session k) -> k_client k = Some c ->
  publish_birth now3 now4 ans k = (k', Ok tt) ->
  exists birth, k_client k' = Some c /\ k_outbox k' = k_outbox k ++ [birth] /\ m_topic birth = topic "NBIRTH" k /\
    decode_payload (m_payload birth) = Ok (RInt now4, Some (RInt 0), [bd_seq_metric now3 (bd_seq (k_session k))]) /\
    seq_ (k_session k') = 0 /\ bd_seq (k_session k') = bd_seq (k_session k).
Proof.
  intros H3 H4 Hb Hc. set (b := bd_seq (k_session k)) in *.
  destruct (payload_roundtrip_helper now4 (Some 0) [bd_seq_metric now3 b]) as (birth & Eb & Db);
    [done..|by constructor; [apply bd_metric_ok|]|].
  unfold publish_birth, start_birth. fold b. rewrite Eb. unfold publish_raw, require_client. cbn [set_session k_client].
  rewrite Hc. destruct (pa_publish ans); [|done]. intros P. injection P as <-. eexists. cbn. rewrite Hc.
  repeat split; done.
Qed.

(** a successful connect registers a will and publishes a birth certificate that carry the same bdSeq: the will is
    an NDEATH without sequence number, the birth an NBIRTH with sequence number 0, and the session's counter is reset. *)
Theorem birth_matches_will now1 now2 now3 now4 sub ans k k' :
  0 <= now1 -> 0 <= now2 -> 0 <= now3 -> 0 <= now4 -> 0 <= bd_seq (k_session k) ->
  connect now1 now2 now3 now4 CAccepted sub ans k = (k', Ok tt) ->
  exists c birth, k_client k' = Some c /\ c_loop c = true /\
    k_outbox k' = k_outbox k ++ [birth] /\ m_topic birth = topic "NBIRTH" k /\ m_topic (c_will c) = topic "NDEATH" k /\
    decode_payload (m_payload (c_will c)) = Ok (RInt now1, None, [bd_seq_metric now2 (bd_seq (k_session k))]) /\
    decode_payload (m_payload birth) = Ok (RInt now4, Some (RInt 0), [bd_seq_metric now3 (bd_seq (k_session k))]) /\
    seq_ (k_session k') = 0 /\ bd_seq (k_session k') = bd_seq (k_session k).
Proof.
  intros H1 H2 H3 H4 Hb. set (b := bd_seq (k_session k)) in *.
  destruct (payload_roundtrip_helper now1 None [bd_seq_metric now2 b]) as (death & Ed & Dd);
    [done..|by constructor; [apply bd_metric_ok|]|].
  unfold connect. destruct (tls_ok (k_config k)); [|done]. unfold death_payload_bd_seq. fold b. rewrite Ed.
  destruct (k_write_router k); [destruct sub as [[]|]; [|done]|]; intros P;
    (eapply publish_birth_spec in P; [|done|done|done|done]);
    destruct P as (birth & Hc & Ho & Ht & Db & Hs & Hb'); eexists _, birth; by repeat split.
Qed.

(** a command message routes exactly one write, in order, per metric that has a value and a name with a slash, split at
    the first slash. *)
Theorem ncmd_routes ts seq ms payload :
  0 <= ts -> nonneg_opt seq = true -> Forall (fun m => metric_ok m = true) ms ->
  encode_payload ts seq ms = Ok payload ->
  on_message payload = omap ncmd_write ms.
Proof.
  intros Ht Hs Hm E. destruct (payload_roundtrip_helper ts seq ms) as (bs & E' & D); [done..|].
  rewrite E in E'. injection E' as <-. unfold on_message. rewrite D. apply ncmd_write_decoded.
Qed.
End ConnectorProofs.

(** ** Witnesses and traces *)

Definition demo_config : SparkplugConnectorConfig := {| group_id := "xedge"; edge_node_id := "edge01"; qos := 1; tls_ok := Ok tt |}.
Definition ack : publish_answer := {| pa_publish := Ok tt; pa_wait := Ok tt; pa_published := true |}.
Definition demo_connected : MqttSparkplugConnector :=
  Eval vm_compute in (connect 1000 1000 1001 1001 CAccepted (Ok tt) ack (new_connector demo_config true)).1.

Lemma birth_matches_will_witness :
  exists c birth, k_client demo_connected = Some c /\ c_loop c = true /\
    k_outbox demo_connected = k_outbox (new_connector demo_config true) ++ [birth] /\
    m_topic birth = topic "NBIRTH" (new_connector demo_config true) /\
    m_topic (c_will c) = topic "NDEATH" (new_connector demo_config true) /\
    decode_payload (m_payload (c_will c)) = Ok (RInt 1000, None, [bd_seq_metric 1000 0]) /\
    decode_payload (m_payload birth) = Ok (RInt 1001, Some (RInt 0), [bd_seq_metric 1001 0]) /\
    seq_ (k_session demo_connected) = 0 /\ bd_seq (k_session demo_connected) = 0.
Proof.
  apply (birth_matches_will 1000 1000 1001 1001 (Ok tt) ack (new_connector demo_config true) demo_connected);
    [lia|lia|lia|lia|simpl; lia|vm_compute; reflexivity].
Defined.

Lemma publish_ndata_witness :
  exists k' payload ms,
    publish 2000 2000 ack [demo_sample (VInt 5) GOOD false] demo_connected = (k', Ok {| pr_success := true; pr_count := 1 |}) /\
    decode_payload payload = Ok (RInt 2000, Some (RInt 0), ms) /\ Forall2 carries [demo_sample (VInt 5) GOOD false] ms /\
    k_outbox k' = k_outbox demo_connected ++
      [{| m_topic := topic "NDATA" demo_connected; m_payload := payload; m_qos := 1 |}] /\
    seq_ (k_session k') = 1 /\ k_client k' = k_client demo_connected /\ published_count (k_metrics k') = 1.
Proof.
  apply (publish_ndata 2000 2000 ack [demo_sample (VInt 5) GOOD false] demo_connected
           {| c_will := match k_client demo_connected with Some c => c_will c | None => Build_message "" [] 0 end;
              c_topics := [topic "NCMD" demo_connected]; c_loop := true |});
    [vm_compute; reflexivity|done|repeat constructor; vm_compute; reflexivity|lia|simpl; lia].
Defined.

Definition demo_command : list Z := Eval vm_compute in
  match encode_payload 5 None demo_metrics with Ok bs => bs | Raise _ => [] end.
Lemma ncmd_routes_witness : on_message demo_command = omap ncmd_write demo_metrics.
Proof.
  apply (ncmd_routes 5 None demo_metrics demo_command); [lia|reflexivity| |vm_compute; reflexivity].
  repeat (apply Forall_cons; split; [vm_compute; reflexivity|]). apply Forall_nil. exact I.
Defined.
Example ncmd_demo : on_message demo_command =
  [("plc", "temp", VFloat (S754_finite false 6755399441055744 (-52))); ("plc", "count", VInt 70000)].
Proof. vm_compute. reflexivity. Qed.

(** A tag with a negative integer makes [publish] raise after it has consumed a
    sequence number, and the rest of the batch is not sent. *)
Example negative_value_raises :
  let r := publish 2000 2000 ack [demo_sample (VInt 5) GOOD false; demo_sample (VInt (-1)) GOOD false] demo_connected in
  r.2 = Raise ValueError /\ k_outbox r.1 = k_outbox demo_connected /\ seq_ (k_session r.1) = 1.
Proof. vm_compute. by repeat split. Qed.

(** The first NDATA repeats the sequence number of the birth certificate. *)
Example first_ndata_repeats_seq :
  let k := (publish 2000 2000 ack [demo_sample (VInt 5) GOOD false] demo_connected).1 in
  map (fun m => match decode_payload (m_payload m) with Ok (_, s, _) => s | Raise _ => None end) (k_outbox k) =
  [Some (RInt 0); Some (RInt 0)].
Proof. vm_compute. reflexivity. Qed.

(** Connecting again after a lost connection, without [disconnect], reuses bdSeq. *)
Example reconnect_reuses_bd_seq :
  let k := (connect 3000 3000 3001 3001 CAccepted (Ok tt) ack demo_connected).1 in
  bd_seq (k_session k) = bd_seq (k_session demo_connected) /\
  (disconnect (Ok tt) demo_connected).2 = Ok tt /\
  bd_seq (k_session (disconnect (Ok tt) demo_connected).1) = bd_seq (k_session demo_connected) + 1.
Proof. vm_compute. by repeat split. Qed.
