(* ===== verification/Supervisor.v ===== *)
(** * Driver supervisor (src/xedge/core/supervisor.py)

    One asyncio task per driver instance, restarted with exponential backoff.
    A task is a machine whose program counter says which [await] of
    [_supervise] it is suspended at.  Status records are shared objects: the
    supervisor's dictionary and the running task each hold a reference, so
    statuses live in a heap. *)

From Stdlib Require Import Floats.SpecFloat.
From S2P Require Import Prelude PyBytes PyFloat PyDict Pipeline Connectivity.
Local Open Scope string_scope.
Local Open Scope list_scope.
Local Open Scope Z_scope.

(** Backoff seconds; every value the code computes is an integer. *)
Definition SUP_INITIAL_BACKOFF : Z := 1.
Definition SUP_MAX_BACKOFF : Z := 300.
Definition SUP_BACKOFF_MULTIPLIER : Z := 2.
Definition BACKOFF_RESET_THRESHOLD : pfloat := Eval vm_compute in float_of_Z_raw 60.

Inductive DriverState := STOPPED | STARTING | RUNNING | BACKOFF | FAILED | DISABLED.
#[export] Instance DriverState_eq_dec : EqDecision DriverState.
Proof. solve_decision. Defined.

Record DriverInstanceStatus := {
  st_instance_id : string;
  st_driver_type : string;
  st_state : DriverState;
  consecutive_failures : Z;
  last_error : option exn;
  st_metrics : DriverMetrics;
  tag_count : Z;
  state_changed_at : Z;
  connectivity_state : ConnectivityState
}.
Definition no_metrics : DriverMetrics :=
  {| tag_read_count := 0; error_count := 0; reconnect_count := 0; last_successful_read := None |}.

Definition set_state (clock : Z) (new_state : DriverState) (s : DriverInstanceStatus) : DriverInstanceStatus :=
  {| st_instance_id := st_instance_id s; st_driver_type := st_driver_type s; st_state := new_state;
     consecutive_failures := consecutive_failures s; last_error := last_error s; st_metrics := st_metrics s;
     tag_count := tag_count s; state_changed_at := clock; connectivity_state := connectivity_state s |}.
Definition set_failures (n : Z) (e : option exn) (s : DriverInstanceStatus) : DriverInstanceStatus :=
  {| st_instance_id := st_instance_id s; st_driver_type := st_driver_type s; st_state := st_state s;
     consecutive_failures := n; last_error := e; st_metrics := st_metrics s;
     tag_count := tag_count s; state_changed_at := state_changed_at s; connectivity_state := connectivity_state s |}.

(** A driver object as the supervisor sees it: its live metrics and, when its
    class implements the hook, its connectivity. *)
Record Driver := { d_serial : nat; d_type : string; d_metrics : DriverMetrics; d_connectivity : option ConnectivityState }.

(** [config.tag_groups]: the [tags] of each group, absent or a list. *)
Record DriverConfig := { dc_instance_id : string; dc_driver_type : string; dc_tag_groups : list (option (list string)) }.
Definition count_tags (c : DriverConfig) : Z :=
  foldr (fun g n => zlen (default [] g) + n) 0 (dc_tag_groups c).

(** ** Tasks *)

Inductive result := Returned | Cancelled | Failed (e : exn).
Inductive sup_pc :=
  | SBegin                 (* scheduled, not yet run *)
  | SConfigure | SConnect | SRun
  | SDisconnect            (* [driver.disconnect()] after a normal return *)
  | SDisconnectCancelled   (* [_safe_disconnect] before re-raising *)
  | SDisconnectFailed      (* [_safe_disconnect] before backing off *)
  | SSleep
  | SDone (r : result).

Record Task := {
  t_config : DriverConfig;
  t_pc : sup_pc;
  t_status : option nat;       (* the local [status], bound when the task starts *)
  t_backoff : Z;
  t_started_at : pfloat;
  t_driver : option nat;
  t_cancel : bool              (* [cancel()] was called *)
}.
Definition with_pc (p : sup_pc) (t : Task) : Task :=
  {| t_config := t_config t; t_pc := p; t_status := t_status t; t_backoff := t_backoff t; t_started_at := t_started_at t;
     t_driver := t_driver t; t_cancel := t_cancel t |}.
Definition with_backoff (b : Z) (t : Task) : Task :=
  {| t_config := t_config t; t_pc := t_pc t; t_status := t_status t; t_backoff := b; t_started_at := t_started_at t;
     t_driver := t_driver t; t_cancel := t_cancel t |}.

(** ** Registry and supervisor *)

Definition DriverRegistry := gset string.
Definition register (driver_type : string) (r : DriverRegistry) : res DriverRegistry :=
  raise_if bool_decide (driver_type ∈ r) with ValueError; Ok ({[driver_type]} ∪ r).
Definition create (driver_type : string) (serial : nat) (r : DriverRegistry) : res Driver :=
  raise_if bool_decide (driver_type ∉ r) with ValueError;
  Ok {| d_serial := serial; d_type := driver_type; d_metrics := no_metrics; d_connectivity := None |}.

Record DriverSupervisor := {
  registry : DriverRegistry;
  heap : gmap nat DriverInstanceStatus;
  statuses : gmap string nat;                 (* [_status] *)
  tasks : dict nat;                           (* [_tasks], in insertion order *)
  pool : gmap nat Task;                       (* every task ever created *)
  drivers : gmap string Driver;               (* [_drivers] *)
  fresh : nat
}.
Definition new_supervisor (r : DriverRegistry) : DriverSupervisor :=
  {| registry := r; heap := ∅; statuses := ∅; tasks := []; pool := ∅; drivers := ∅; fresh := 0 |}.

Definition upd_heap (r : nat) (f : DriverInstanceStatus -> DriverInstanceStatus) (s : DriverSupervisor) : DriverSupervisor :=
  {| registry := registry s; heap := alter f r (heap s); statuses := statuses s; tasks := tasks s; pool := pool s;
     drivers := drivers s; fresh := fresh s |}.
Definition upd_ref (r : option nat) (f : DriverInstanceStatus -> DriverInstanceStatus) (s : DriverSupervisor) : DriverSupervisor :=
  match r with Some r => upd_heap r f s | None => s end.
Definition put_task (tid : nat) (t : Task) (s : DriverSupervisor) : DriverSupervisor :=
  {| registry := registry s; heap := heap s; statuses := statuses s; tasks := tasks s; pool := <[tid := t]> (pool s);
     drivers := drivers s; fresh := fresh s |}.
Definition put_driver (id : string) (d : Driver) (s : DriverSupervisor) : DriverSupervisor :=
  {| registry := registry s; heap := heap s; statuses := statuses s; tasks := tasks s; pool := pool s;
     drivers := <[id := d]> (drivers s); fresh := S (fresh s) |}.

(** [_with_live_metrics], [status], [get_driver], [all_status] *)
Definition with_live_metrics (s : DriverSupervisor) (st : DriverInstanceStatus) : DriverInstanceStatus :=
  match drivers s !! st_instance_id st with
  | None => st
  | Some d =>
      {| st_instance_id := st_instance_id st; st_driver_type := st_driver_type st; st_state := st_state st;
         consecutive_failures := consecutive_failures st; last_error := last_error st; st_metrics := d_metrics d;
         tag_count := tag_count st; state_changed_at := state_changed_at st;
         connectivity_state := match d_connectivity d with Some c => c | None => connectivity_state st end |}
  end.
Definition raw_status (instance_id : string) (s : DriverSupervisor) : option DriverInstanceStatus :=
  match statuses s !! instance_id with Some r => heap s !! r | None => None end.
Definition status (instance_id : string) (s : DriverSupervisor) : res DriverInstanceStatus :=
  match raw_status instance_id s with Some st => Ok (with_live_metrics s st) | None => Raise KeyError end.
Definition get_driver (instance_id : string) (s : DriverSupervisor) : option Driver := drivers s !! instance_id.
Definition all_status (s : DriverSupervisor) : gmap string DriverInstanceStatus :=
  omap (fun r => with_live_metrics s <$> heap s !! r) (statuses s).

(** [start] *)
Definition start_driver (clock : Z) (config : DriverConfig) (s : DriverSupervisor) : DriverSupervisor * res unit :=
  if dict_mem (dc_instance_id config) (tasks s) then (s, Raise ValueError) else
  let r := fresh s in
  let tid := S r in
  let st := {| st_instance_id := dc_instance_id config; st_driver_type := dc_driver_type config; st_state := STARTING;
               consecutive_failures := 0; last_error := None; st_metrics := no_metrics; tag_count := count_tags config;
               state_changed_at := clock; connectivity_state := UNKNOWN |} in
  let t := {| t_config := config; t_pc := SBegin; t_status := None; t_backoff := SUP_INITIAL_BACKOFF;
              t_started_at := fzero; t_driver := None; t_cancel := false |} in
  ({| registry := registry s; heap := <[r := st]> (heap s); statuses := <[dc_instance_id config := r]> (statuses s);
      tasks := dict_set (dc_instance_id config) tid (tasks s); pool := <[tid := t]> (pool s);
      drivers := drivers s; fresh := S tid |}, Ok tt).

(** ** [_supervise] *)

(** The head of [while True]: create the driver and enter the [try]. *)
Definition iteration (clock : Z) (mono : pfloat) (tid : nat) (t : Task) (s : DriverSupervisor) : DriverSupervisor :=
  let id := dc_instance_id (t_config t) in
  match create (dc_driver_type (t_config t)) (fresh s) (registry s) with
  | Raise e => put_task tid (with_pc (SDone (Failed e)) t) s
  | Ok d =>
      let s := upd_ref (t_status t) (set_state clock STARTING) (put_driver id d s) in
      put_task tid {| t_config := t_config t; t_pc := SConfigure; t_status := t_status t; t_backoff := t_backoff t;
                      t_started_at := mono; t_driver := Some (d_serial d); t_cancel := t_cancel t |} s
  end.

(** How the pending [await] ends: it returns, raises, or raises CancelledError. *)
Inductive outcome := ORet | OExn (e : exn) | OCancel.

(** [except Exception]: record the failure, then [_safe_disconnect]. *)
Definition failure (clock : Z) (tid : nat) (t : Task) (e : exn) (s : DriverSupervisor) : DriverSupervisor :=
  put_task tid (with_pc SDisconnectFailed t)
    (upd_ref (t_status t) (fun st => set_state clock BACKOFF (set_failures (consecutive_failures st + 1) (Some e) st)) s).
(** [except asyncio.CancelledError] *)
Definition cancelled (clock : Z) (tid : nat) (t : Task) (s : DriverSupervisor) : DriverSupervisor :=
  put_task tid (with_pc SDisconnectCancelled t) (upd_ref (t_status t) (set_state clock STOPPED) s).

(** One resumption of the task. *)
Definition task_step (clock : Z) (mono : pfloat) (o : outcome) (tid : nat) (t : Task) (s : DriverSupervisor)
  : DriverSupervisor :=
  let goto p := put_task tid (with_pc p t) s in
  match t_pc t, o with
  | SBegin, OCancel => goto (SDone Cancelled)
  | SBegin, _ =>
      match statuses s !! dc_instance_id (t_config t) with
      | None => goto (SDone (Failed KeyError))
      | Some r =>
          iteration clock mono tid
            {| t_config := t_config t; t_pc := SBegin; t_status := Some r; t_backoff := SUP_INITIAL_BACKOFF;
               t_started_at := t_started_at t; t_driver := t_driver t; t_cancel := t_cancel t |} s
      end
  | (SConfigure | SConnect | SRun | SDisconnect), OExn e => failure clock tid t e s
  | (SConfigure | SConnect | SRun | SDisconnect), OCancel => cancelled clock tid t s
  | SConfigure, ORet => goto SConnect
  | SConnect, ORet => put_task tid (with_pc SRun t) (upd_ref (t_status t) (set_state clock RUNNING) s)
  | SRun, ORet => put_task tid (with_pc SDisconnect t) (upd_ref (t_status t) (set_state clock STOPPED) s)
  | SDisconnect, ORet => goto (SDone Returned)
  | SDisconnectCancelled, _ => goto (SDone Cancelled)
  | SDisconnectFailed, OCancel => goto (SDone Cancelled)
  | SDisconnectFailed, _ =>
      if fleb BACKOFF_RESET_THRESHOLD (fsub mono (t_started_at t)) then
        put_task tid (with_backoff SUP_INITIAL_BACKOFF (with_pc SSleep t))
          (upd_ref (t_status t) (fun st => set_failures 1 (last_error st) st) s)
      else goto SSleep
  | SSleep, OCancel => put_task tid (with_pc (SDone Cancelled) t) (upd_ref (t_status t) (set_state clock STOPPED) s)
  | SSleep, _ =>
      iteration clock mono tid
        (with_backoff (Z.min (t_backoff t * SUP_BACKOFF_MULTIPLIER) SUP_MAX_BACKOFF) t) s
  | SDone _, _ => s
  end.

(** ** [stop], [disable] and [stop_all], split at [await task] *)

(** Up to the [await]: the task is popped and cancelled. *)
Definition stop_begin (instance_id : string) (s : DriverSupervisor) : option nat * DriverSupervisor :=
  match dict_get instance_id (tasks s) with
  | None => (None, s)
  | Some tid =>
      (Some tid,
       {| registry := registry s; heap := heap s; statuses := statuses s; tasks := dict_del instance_id (tasks s);
          pool := alter (fun t => {| t_config := t_config t; t_pc := t_pc t; t_status := t_status t; t_backoff := t_backoff t;
                                     t_started_at := t_started_at t; t_driver := t_driver t; t_cancel := true |}) tid (pool s);
          drivers := drivers s; fresh := fresh s |})
  end.
(** Once the task is done: CancelledError is swallowed, any other exception
    of the task is raised again by [await]. *)
Definition stop_end (clock : Z) (instance_id : string) (tid : nat) (s : DriverSupervisor) : option (DriverSupervisor * res unit) :=
  match pool s !! tid with
  | Some t =>
      match t_pc t with
      | SDone (Failed e) => Some (s, Raise e)
      | SDone _ => Some (upd_ref (statuses s !! instance_id) (set_state clock STOPPED) s, Ok tt)
      | _ => None
      end
  | None => None
  end.
(** What [disable] does after its [stop] returned. *)
Definition disable_end (clock : Z) (instance_id : string) (s : DriverSupervisor) : DriverSupervisor :=
  upd_ref (statuses s !! instance_id) (set_state clock DISABLED) s.

(** ** Interleavings

    Drivers let a cancellation through: an [await] of a task on which
    [cancel()] was called ends with CancelledError, and no other does. *)
Inductive sup_step (s : DriverSupervisor) : DriverSupervisor -> Prop :=
  | sup_start clock c s' r : start_driver clock c s = (s', r) -> sup_step s s'
  | sup_task clock mono o tid t : pool s !! tid = Some t -> (o = OCancel <-> t_cancel t = true) ->
      sup_step s (task_step clock mono o tid t s)
  | sup_stop_begin id : sup_step s (stop_begin id s).2
  | sup_stop_end clock id tid s' r : stop_end clock id tid s = Some (s', r) -> sup_step s s'
  | sup_disable clock id : sup_step s (disable_end clock id s)
  | sup_metrics id m c : sup_step s
      {| registry := registry s; heap := heap s; statuses := statuses s; tasks := tasks s; pool := pool s;
         drivers := alter (fun d => {| d_serial := d_serial d; d_type := d_type d; d_metrics := m; d_connectivity := c |})
                      id (drivers s); fresh := fresh s |}.
Inductive sup_reachable (reg : DriverRegistry) : DriverSupervisor -> Prop :=
  | sup_init : sup_reachable reg (new_supervisor reg)
  | sup_next s s' : sup_reachable reg s -> sup_step s s' -> sup_reachable reg s'.

(** ** Invariant *)

Abbreviation t_id t := (dc_instance_id (t_config t)).
Definition is_done (p : sup_pc) : Prop := exists r, p = SDone r.

Record sup_inv (s : DriverSupervisor) : Prop := {
  i_heap : forall r st, heap s !! r = Some st -> (r < fresh s)%nat;
  i_pool : forall tid t, pool s !! tid = Some t -> (tid < fresh s)%nat /\ 1 <= t_backoff t <= SUP_MAX_BACKOFF;
  i_stat : forall id r, statuses s !! id = Some r -> exists st, heap s !! r = Some st /\ st_instance_id st = id;
  (** the status a task writes to was allocated with it *)
  i_ref : forall tid t r, pool s !! tid = Some t -> t_status t = Some r ->
    tid = S r /\ exists st, heap s !! r = Some st /\ st_instance_id st = t_id t;
  i_live : forall tid t, pool s !! tid = Some t -> t_cancel t = false -> dict_get (t_id t) (tasks s) = Some tid;
  i_tasks : forall id tid, dict_get id (tasks s) = Some tid ->
    exists r t, tid = S r /\ statuses s !! id = Some r /\ pool s !! tid = Some t /\ t_id t = id;
  i_wf : dict_wf (tasks s);
  i_begun : forall tid t, pool s !! tid = Some t -> t_status t = None -> t_pc t = SBegin \/ is_done (t_pc t);
  (** a status says RUNNING only while its task is inside [driver.run] *)
  i_running : forall r st, heap s !! r = Some st -> st_state st = RUNNING ->
    exists t, pool s !! S r = Some t /\ t_status t = Some r /\ t_pc t = SRun;
  (** the driver on record is the one the current task created *)
  i_driver : forall tid t r, pool s !! tid = Some t -> t_status t = Some r -> ~ is_done (t_pc t) ->
    statuses s !! t_id t = Some r -> exists d, drivers s !! t_id t = Some d /\ t_driver t = Some (d_serial d)
}.

Lemma upd_ref_fields o f s :
  statuses (upd_ref o f s) = statuses s /\ tasks (upd_ref o f s) = tasks s /\ pool (upd_ref o f s) = pool s /\
  drivers (upd_ref o f s) = drivers s /\ fresh (upd_ref o f s) = fresh s /\ registry (upd_ref o f s) = registry s.
Proof. by destruct o. Qed.
Lemma upd_ref_heap o f s r :
  heap (upd_ref o f s) !! r = if decide (o = Some r) then f <$> heap s !! r else heap s !! r.
Proof.
  destruct o as [r'|]; [|by rewrite decide_False]. simpl. case_decide as D; simplify_eq.
  - by rewrite lookup_alter_eq.
  - rewrite lookup_alter_ne; [done|congruence].
Qed.
Lemma upd_ref_id o s : upd_ref o id s = s.
Proof.
  destruct o as [r|]; [|done]. unfold upd_ref, upd_heap. destruct s. simpl. f_equal. apply map_eq. intros i.
  destruct (decide (i = r)) as [->|]; [rewrite lookup_alter_eq|by rewrite lookup_alter_ne]. by destruct (_ !! r).
Qed.

(** Updates of a status that keep whose it is. *)
Definition keeps_id (f : DriverInstanceStatus -> DriverInstanceStatus) : Prop :=
  forall st, st_instance_id (f st) = st_instance_id st.
Lemma upd_ref_instance o f s r st id : keeps_id f ->
  heap s !! r = Some st -> st_instance_id st = id ->
  exists st', heap (upd_ref o f s) !! r = Some st' /\ st_instance_id st' = id.
Proof.
  intros K H E. rewrite upd_ref_heap, H. case_decide; simpl; [|by eauto]. eexists. split; [done|]. by rewrite K.
Qed.

(** A task moves on within its iteration, updating its own status. *)
Lemma inv_task s tid t t' f :
  sup_inv s -> pool s !! tid = Some t ->
  t_config t' = t_config t -> t_cancel t' = t_cancel t -> t_status t' = t_status t ->
  1 <= t_backoff t' <= SUP_MAX_BACKOFF -> keeps_id f ->
  (forall r st, t_status t = Some r -> heap s !! r = Some st -> st_state (f st) = RUNNING -> t_pc t' = SRun) ->
  (~ is_done (t_pc t') -> ~ is_done (t_pc t) /\ t_driver t' = t_driver t) ->
  (t_pc t = SBegin -> is_done (t_pc t')) ->
  sup_inv (put_task tid t' (upd_ref (t_status t) f s)).
Proof.
  intros [Ih Ip Is Ir Il It Iw Ig Iru Id] Ht Ec Ek Es Eb K Hr Hd Hg.
  destruct (upd_ref_fields (t_status t) f s) as (F1 & F2 & F3 & F4 & F5 & F6).
  constructor; cbn [put_task heap statuses tasks pool drivers fresh]; rewrite ?F1, ?F2, ?F3, ?F4, ?F5.
  - intros r st. rewrite upd_ref_heap. case_decide; [|by apply Ih]. intros (st0 & E & _)%fmap_Some. by eapply Ih.
  - intros j u. rewrite lookup_insert_Some. intros [[<- <-]|[_ H]]; [|by apply Ip]. split; [by eapply Ip|done].
  - intros id r H. apply Is in H as (st & H & E). by eapply upd_ref_instance.
  - intros j u r. rewrite lookup_insert_Some. intros [[<- <-]|[_ H]] E.
    + rewrite Es in E. rewrite Ec. destruct (Ir _ _ _ Ht E) as (-> & st & H & N). split; [done|]. by eapply upd_ref_instance.
    + destruct (Ir _ _ _ H E) as (-> & st & H' & N). split; [done|]. by eapply upd_ref_instance.
  - intros j u. rewrite lookup_insert_Some. intros [[<- <-]|[_ H]]; [rewrite Ec, Ek|]; by apply Il.
  - intros id j H. destruct (It _ _ H) as (r & u & -> & E & Hu & N). exists r.
    destruct (decide (tid = S r)) as [->|D].
    + exists t'. rewrite lookup_insert_eq. rewrite Ht in Hu. injection Hu as <-. by rewrite Ec.
    + exists u. by rewrite lookup_insert_ne.
  - done.
  - intros j u. rewrite lookup_insert_Some. intros [[<- <-]|[_ H]]; [|by eapply Ig]. rewrite Es. intros N.
    right. destruct (Ig _ _ Ht N) as [P|[r P]]; [by apply Hg|].
    destruct (t_pc t') eqn:P'; try by eexists.
    all: exfalso; apply (proj1 (Hd ltac:(rewrite ?P'; intros [? ?]; done))); by eexists.
  - intros r st. rewrite upd_ref_heap. case_decide as D.
    + intros (st0 & H & ->)%fmap_Some R. destruct (Ir _ _ _ Ht D) as (E & _). exists t'. rewrite <- E, lookup_insert_eq, Es.
      split; [done|]. split; [done|]. by eapply Hr.
    + intros H R. destruct (Iru _ _ H R) as (u & Hu & E & P). exists u. split; [|done].
      rewrite lookup_insert_ne; [done|]. intros ->. rewrite Ht in Hu. injection Hu as <-. done.
  - intros j u r. rewrite lookup_insert_Some. intros [[<- <-]|[_ H]].
    + rewrite Es, Ec. intros E N S. destruct (Hd N) as [N' ->]. by eapply Id.
    + by eapply Id.
Qed.

(** What [iteration] leaves in the pool. *)
Definition started (mono : pfloat) (n : nat) (t : Task) : Task :=
  {| t_config := t_config t; t_pc := SConfigure; t_status := t_status t; t_backoff := t_backoff t;
     t_started_at := mono; t_driver := Some n; t_cancel := t_cancel t |}.

(** A live task (re)starts its loop: a new driver is created and recorded. *)
Lemma inv_iteration clock mono s tid t0 t r :
  sup_inv s -> pool s !! tid = Some t0 -> t_cancel t0 = false -> t_pc t0 <> SRun ->
  t_config t = t_config t0 -> t_cancel t = t_cancel t0 -> t_status t = Some r ->
  statuses s !! t_id t0 = Some r -> 1 <= t_backoff t <= SUP_MAX_BACKOFF ->
  sup_inv (iteration clock mono tid t s).
Proof.
  intros I Ht Hk Hp Ec Ek Es St Eb.
  assert (tid = S r) as ->.
  { apply (i_live s I) in Ht as L; [|done]. apply (i_tasks s I) in L as (r' & u & -> & S & _). congruence. }
  assert (forall st, heap s !! r = Some st -> st_state st <> RUNNING) as NR.
  { intros st H R. destruct (i_running s I _ _ H R) as (u & Hu & _ & P). rewrite Ht in Hu. by injection Hu as <-. }
  unfold iteration. destruct (create _ _ _) as [d|e] eqn:C.
  2: { destruct I as [Ih Ip Is Ir Il It Iw Ig Iru Id]. constructor; cbn [put_task heap statuses tasks pool drivers fresh with_pc].
       - done.
       - intros j u. rewrite lookup_insert_Some. intros [[<- <-]|[_ H]]; [|by apply Ip]. split; [by eapply Ip|done].
       - done.
       - intros j u q. rewrite lookup_insert_Some. intros [[<- <-]|[_ H]]; [|by apply Ir]. simpl. rewrite Es, Ec.
         intros [= <-]. split; [done|]. by apply Is.
       - intros j u. rewrite lookup_insert_Some. intros [[<- <-]|[_ H]]; [|by apply Il]. simpl. rewrite Ec, Ek. by apply Il.
       - intros id j H. destruct (It _ _ H) as (q & u & -> & E & Hu & N). exists q.
         destruct (decide (r = q)) as [->|D]; [|exists u; rewrite lookup_insert_ne; [done|congruence]].
         exists (with_pc (SDone (Failed e)) t). rewrite lookup_insert_eq. rewrite Ht in Hu. injection Hu as <-. simpl. by rewrite Ec.
       - done.
       - intros j u. rewrite lookup_insert_Some. intros [[<- <-]|[_ H]]; [|by eapply Ig]. right. by eexists.
       - intros q st H R. destruct (Iru _ _ H R) as (u & Hu & E & P). exists u. rewrite lookup_insert_ne; [done|].
         intros [= ->]. by destruct (NR _ H).
       - intros j u q. rewrite lookup_insert_Some. intros [[<- <-]|[_ H]]; [|by eapply Id]. simpl. intros _ N.
         destruct N. by eexists. }
  destruct I as [Ih Ip Is Ir Il It Iw Ig Iru Id].
  fold (started mono (d_serial d) t). rewrite Es. assert (keeps_id (set_state clock STARTING)) as K by done.
  set (s1 := put_driver _ d s). destruct (upd_ref_fields (Some r) (set_state clock STARTING) s1) as (F1 & F2 & F3 & F4 & F5 & F6).
  assert (forall q st id, heap s !! q = Some st -> st_instance_id st = id ->
    exists st', heap (upd_ref (Some r) (set_state clock STARTING) s1) !! q = Some st' /\ st_instance_id st' = id) as UH.
  { intros q st id H E. by eapply (upd_ref_instance _ _ s1). }
  constructor; cbn [put_task heap statuses tasks pool drivers fresh]; rewrite ?F1, ?F2, ?F3, ?F4, ?F5;
    unfold s1; cbn [put_driver heap statuses tasks pool drivers fresh].
  - intros q st. rewrite upd_ref_heap. case_decide; [intros (st0 & E & _)%fmap_Some; apply Ih in E|intros E%Ih]; lia.
  - intros j u. rewrite lookup_insert_Some. intros [[<- <-]|[_ H]]; [|apply Ip in H; lia].
    apply Ip in Ht as [? _]. split; [lia|done].
  - intros id q (st & H & E)%Is. by eapply UH.
  - intros j u q. rewrite lookup_insert_Some. intros [[<- <-]|[_ H]] E.
    + simpl in *. rewrite Es in E. injection E as <-. rewrite Ec. split; [done|].
      destruct (Is _ _ St) as (st & H & N). by eapply UH.
    + destruct (Ir _ _ _ H E) as (-> & st & H' & N). split; [done|]. by eapply UH.
  - intros j u. rewrite lookup_insert_Some. intros [[<- <-]|[_ H]]; [simpl; rewrite Ec, Ek|]; by apply Il.
  - intros id j H. destruct (It _ _ H) as (q & u & -> & E & Hu & N). exists q.
    destruct (decide (r = q)) as [->|D]; [|exists u; rewrite lookup_insert_ne; [done|congruence]].
    exists (started mono (d_serial d) t). rewrite lookup_insert_eq. rewrite Ht in Hu. injection Hu as <-. simpl. by rewrite Ec.
  - done.
  - intros j u. rewrite lookup_insert_Some. intros [[<- <-]|[_ H]]; [|by eapply Ig]. simpl. by rewrite Es.
  - intros q st. rewrite upd_ref_heap. case_decide as D; [by intros (st0 & _ & ->)%fmap_Some|].
    intros H R. destruct (Iru _ _ H R) as (u & Hu & E & P). exists u. rewrite lookup_insert_ne; [done|].
    intros [= ->]. by destruct D.
  - intros j u q. rewrite lookup_insert_Some. intros [[<- <-]|[D H]].
    + simpl. intros _ _ _. exists d. by rewrite lookup_insert_eq.
    + intros E N S. destruct (decide (t_id u = t_id t)) as [Eu|Nu].
      * destruct (Ir _ _ _ H E) as [-> _]. rewrite Eu, Ec in S. congruence.
      * rewrite lookup_insert_ne by congruence. by eapply Id.
Qed.

Lemma keeps_set_state clock st : keeps_id (set_state clock st).
Proof. done. Qed.
Lemma keeps_failure clock e :
  keeps_id (fun st => set_state clock BACKOFF (set_failures (consecutive_failures st + 1) (Some e) st)).
Proof. done. Qed.
#[export] Hint Resolve keeps_set_state keeps_failure : xedge.

(** A live task's status is the one on record for its instance. *)
Lemma live_status s tid t r :
  sup_inv s -> pool s !! tid = Some t -> t_cancel t = false -> t_status t = Some r -> statuses s !! t_id t = Some r.
Proof.
  intros I H K E. destruct (i_ref s I _ _ _ H E) as [-> _]. apply (i_live s I) in H as L; [|done].
  apply (i_tasks s I) in L as (r' & u & [= ->] & S & _). done.
Qed.

Lemma inv_task_goto s tid t p :
  sup_inv s -> pool s !! tid = Some t -> t_pc t <> SRun -> (~ is_done p -> ~ is_done (t_pc t)) ->
  (t_pc t = SBegin -> is_done p) -> sup_inv (put_task tid (with_pc p t) s).
Proof.
  intros I Ht N D G. rewrite <- (upd_ref_id (t_status t) s). eapply inv_task; try done.
  - by apply (i_pool s I) in Ht as [_ ?].
  - intros r st E H R. destruct (i_running s I _ _ H R) as (u & Hu & _ & P).
    destruct (i_ref s I _ _ _ Ht E) as [-> _]. rewrite Ht in Hu. by injection Hu as <-.
  - intros Hp. split; [by apply D|done].
Qed.

(** Statuses other than RUNNING may be written at any time. *)
Lemma inv_own s tid t t' f :
  sup_inv s -> pool s !! tid = Some t ->
  t_config t' = t_config t -> t_cancel t' = t_cancel t -> t_status t' = t_status t -> t_driver t' = t_driver t ->
  1 <= t_backoff t' <= SUP_MAX_BACKOFF -> keeps_id f -> ~ is_done (t_pc t) -> t_pc t <> SBegin ->
  (forall st, st_state (f st) <> RUNNING \/ t_pc t' = SRun) ->
  sup_inv (put_task tid t' (upd_ref (t_status t) f s)).
Proof. intros ????????? N S. eapply inv_task; try done. intros r st _ _ R. by destruct (S st). Qed.

Lemma not_done p : (forall r, p <> SDone r) -> ~ is_done p.
Proof. intros N [r ->]. by apply (N r). Qed.

Lemma inv_task_step s clock mono o tid t :
  sup_inv s -> pool s !! tid = Some t -> (o = OCancel <-> t_cancel t = true) ->
  sup_inv (task_step clock mono o tid t s).
Proof.
  intros I Ht Ho. pose proof (i_pool s I _ _ Ht) as [_ Hb].
  assert (o <> OCancel -> t_cancel t = false) as NC by (intros; destruct (t_cancel t); naive_solver).
  assert (forall r, t_pc t <> SBegin -> t_pc t <> SRun -> (forall r, t_pc t <> SDone r) ->
    sup_inv (put_task tid (with_pc (SDone r) t) s)) as DONE.
  { intros. apply inv_task_goto; try done. intros []. by eexists. }
  assert (forall p, t_pc t <> SBegin -> t_pc t <> SRun -> (forall r, t_pc t <> SDone r) ->
    sup_inv (put_task tid (with_pc p t) s)) as GOTO.
  { intros. apply inv_task_goto; try done. intros _. by apply not_done. }
  assert (forall st p, t_pc t <> SBegin -> (forall r, t_pc t <> SDone r) -> (st <> RUNNING \/ p = SRun) ->
    sup_inv (put_task tid (with_pc p t) (upd_ref (t_status t) (set_state clock st) s))) as OWN.
  { intros st p N D S. eapply inv_own; eauto using not_done with xedge. }
  assert (forall e, t_pc t <> SBegin -> (forall r, t_pc t <> SDone r) -> sup_inv (failure clock tid t e s)) as FAIL.
  { intros e N D. unfold failure. eapply inv_own; eauto using not_done with xedge. }
  assert (forall b r, o <> OCancel -> t_status t = Some r -> t_pc t <> SRun -> 1 <= b <= SUP_MAX_BACKOFF ->
    sup_inv (iteration clock mono tid (with_backoff b t) s)) as ITER.
  { intros b r No Es N B. eapply inv_iteration; try done; eauto using live_status. }
  assert (t_pc t = SDisconnectFailed -> sup_inv (put_task tid (with_backoff SUP_INITIAL_BACKOFF (with_pc SSleep t))
    (upd_ref (t_status t) (fun st => set_failures 1 (last_error st) st) s))) as RESET.
  { intros P. eapply inv_task; try done; [|intros _; rewrite P; split; [by apply not_done|done]|by rewrite P].
    intros r st E H1 R. destruct (i_running s I _ _ H1 R) as (u & Hu & _ & P').
    destruct (i_ref s I _ _ _ Ht E) as [-> _]. rewrite Ht in Hu. injection Hu as <-. congruence. }
  pose proof (i_begun s I _ _ Ht) as BEG. unfold task_step.
  destruct (t_pc t) eqn:P.
  2: destruct o; [by apply GOTO|by apply FAIL|apply OWN; try done; by left].
  2: destruct o; [apply OWN; try done; by right|by apply FAIL|apply OWN; try done; by left].
  2: destruct o; [apply OWN; try done; by left|by apply FAIL|apply OWN; try done; by left].
  2: destruct o; [by apply DONE|by apply FAIL|apply OWN; try done; by left].
  2: destruct o; by apply DONE.
  2: destruct o; [case_match; [by apply RESET|by apply GOTO]|case_match; [by apply RESET|by apply GOTO]|by apply DONE].
  - assert (sup_inv (put_task tid (with_pc (SDone Cancelled) t) s)).
    { apply inv_task_goto; rewrite ?P; try done; [intros _; by apply not_done|by eexists]. }
    assert (sup_inv (put_task tid (with_pc (SDone (Failed KeyError)) t) s)).
    { apply inv_task_goto; rewrite ?P; try done; [intros _; by apply not_done|by eexists]. }
    destruct (statuses s !! t_id t) as [r|] eqn:St; [|by destruct o].
    assert (o <> OCancel -> sup_inv (iteration clock mono tid
      {| t_config := t_config t; t_pc := SBegin; t_status := Some r; t_backoff := SUP_INITIAL_BACKOFF;
         t_started_at := t_started_at t; t_driver := t_driver t; t_cancel := t_cancel t |} s)) as IT.
    { intros No. eapply inv_iteration; try done; eauto. by rewrite P. }
    destruct o; [by apply IT|by apply IT|done].
  - destruct (t_status t) as [r|] eqn:Es; [|by destruct (BEG eq_refl) as [|[? ?]]].
    assert (1 <= Z.min (t_backoff t * SUP_BACKOFF_MULTIPLIER) SUP_MAX_BACKOFF <= SUP_MAX_BACKOFF) by
      (unfold SUP_BACKOFF_MULTIPLIER, SUP_MAX_BACKOFF in *; lia).
    destruct o; [by eapply ITER|by eapply ITER|apply OWN; try done; by left].
  - done.
Qed.

Lemma inv_start s clock c s' r : sup_inv s -> start_driver clock c s = (s', r) -> sup_inv s'.
Proof.
  intros I. unfold start_driver, dict_mem. destruct (dict_get (dc_instance_id c) (tasks s)) eqn:G; [by intros [= <- _]|].
  intros [= <- _]. destruct I as [Ih Ip Is Ir Il It Iw Ig Iru Id].
  assert (heap s !! fresh s = None) as FH.
  { destruct (heap s !! fresh s) eqn:E; [|done]. apply Ih in E. lia. }
  assert (forall n, (fresh s <= n)%nat -> pool s !! n = None) as FP.
  { intros n L. destruct (pool s !! n) eqn:E; [|done]. apply Ip in E as [? _]. lia. }
  assert (forall q st, heap s !! q = Some st -> q <> fresh s) as NQ by (intros q st H ->; congruence).
  constructor; cbn [heap statuses tasks pool drivers fresh].
  - intros q st. rewrite lookup_insert_Some. intros [[<- _]|[_ H%Ih]]; lia.
  - intros j u. rewrite lookup_insert_Some. intros [[<- <-]|[_ H%Ip]]; [|lia]. simpl. unfold SUP_INITIAL_BACKOFF, SUP_MAX_BACKOFF. lia.
  - intros id q. rewrite lookup_insert_Some. intros [[<- <-]|[_ (st & H & E)%Is]].
    + eexists. by rewrite lookup_insert_eq.
    + exists st. rewrite lookup_insert_ne; [done|]. intros <-. congruence.
  - intros j u q. rewrite lookup_insert_Some. intros [[<- <-]|[_ H]] E; [done|].
    destruct (Ir _ _ _ H E) as (-> & st & H' & N). split; [done|]. exists st.
    rewrite lookup_insert_ne; [done|]. intros <-. congruence.
  - intros j u. rewrite lookup_insert_Some. intros [[<- <-]|[_ H]] K; [by rewrite dict_get_set_eq|].
    pose proof (Il _ _ H K) as L. rewrite dict_get_set_ne; [done|]. intros E. rewrite E in L. congruence.
  - intros id j. rewrite dict_get_set. case_decide as D.
    + intros [= <-]. subst id. eexists _, _. split; [done|]. by rewrite !lookup_insert_eq.
    + intros H. destruct (It _ _ H) as (q & u & -> & E & Hu & N). exists q, u.
      rewrite !lookup_insert_ne; [done| |congruence]. intros [= <-]. apply Is in E as (st & E & _). congruence.
  - auto with xedge.
  - intros j u. rewrite lookup_insert_Some. intros [[<- <-]|[_ H]]; [by left|by eapply Ig].
  - intros q st. rewrite lookup_insert_Some. intros [[<- <-]|[_ H]] R; [done|].
    destruct (Iru _ _ H R) as (u & Hu & E & P). exists u. rewrite lookup_insert_ne; [done|]. intros [= <-]. congruence.
  - intros j u q. rewrite lookup_insert_Some. intros [[<- <-]|[_ H]] E N; [done|].
    destruct (Ir _ _ _ H E) as (-> & st & H' & _). rewrite lookup_insert_Some. intros [[_ <-]|[_ S]]; [congruence|]. by eapply Id.
Qed.

Lemma inv_stop_begin s id : sup_inv s -> sup_inv (stop_begin id s).2.
Proof.
  unfold stop_begin. destruct (dict_get id (tasks s)) as [tid|] eqn:G; [|done].
  intros [Ih Ip Is Ir Il It Iw Ig Iru Id]. destruct (It _ _ G) as (r & t & -> & St & Ht & Et).
  constructor; cbn [snd heap statuses tasks pool drivers fresh]; try done.
  - intros j u. rewrite lookup_alter_Some. intros [(<- & v & H & ->)|[_ H]]; by apply Ip in H.
  - intros j u q. rewrite lookup_alter_Some. intros [(<- & v & H & ->)|[_ H]] E; exact (Ir _ _ _ H E).
  - intros j u. rewrite lookup_alter_Some. intros [(<- & v & H & ->)|[N H]] K; [done|].
    pose proof (Il _ _ H K) as L. rewrite dict_get_del by done. case_decide as D; [|done]. rewrite D in L. congruence.
  - intros id' j. rewrite dict_get_del by done. case_decide as D; [done|]. intros H.
    destruct (It _ _ H) as (q & u & -> & E & Hu & N). exists q, u. rewrite lookup_alter_ne; [done|]. congruence.
  - auto with xedge.
  - intros j u. rewrite lookup_alter_Some. intros [(<- & v & H & ->)|[_ H]] E; exact (Ig _ _ H E).
  - intros q st H R. destruct (Iru _ _ H R) as (u & Hu & E & P).
    destruct (decide (q = r)) as [->|D]; [|exists u; rewrite lookup_alter_ne; [done|congruence]].
    eexists. rewrite lookup_alter_eq, Hu. by repeat split.
  - intros j u q. rewrite lookup_alter_Some. intros [(<- & v & H & ->)|[_ H]]; exact (Id _ _ _ H).
Qed.

(** Anybody may write a state other than RUNNING into a status. *)
Lemma inv_upd_ref s o clock st : sup_inv s -> st <> RUNNING -> sup_inv (upd_ref o (set_state clock st) s).
Proof.
  intros [Ih Ip Is Ir Il It Iw Ig Iru Id] N.
  destruct (upd_ref_fields o (set_state clock st) s) as (F1 & F2 & F3 & F4 & F5 & F6).
  constructor; rewrite ?F1, ?F2, ?F3, ?F4, ?F5; try done.
  - intros q u. rewrite upd_ref_heap. case_decide; [|by apply Ih]. intros (? & E%Ih & _)%fmap_Some. done.
  - intros id q (u & H & E)%Is. by eapply upd_ref_instance.
  - intros j u q H E. destruct (Ir _ _ _ H E) as (-> & v & H' & E'). split; [done|]. by eapply upd_ref_instance.
  - intros q u. rewrite upd_ref_heap. case_decide; [|by apply Iru]. by intros (? & _ & ->)%fmap_Some.
Qed.

Lemma sup_reachable_inv reg s : sup_reachable reg s -> sup_inv s.
Proof.
  induction 1 as [|s s' _ I St]; [constructor; simpl; try done; apply dict_wf_nil|].
  destruct St as [clock c s' r E|clock mono o tid t Ht Ho|id|clock id tid s' r E|clock id|id m c].
  - by eapply inv_start.
  - by apply inv_task_step.
  - by apply inv_stop_begin.
  - unfold stop_end in E. destruct (pool s !! tid) as [t|]; [|done].
    destruct (t_pc t) as [| | | | | | | |[]]; simplify_eq; try done; by apply inv_upd_ref.
  - by apply inv_upd_ref.
  - destruct I as [Ih Ip Is Ir Il It Iw Ig Iru Id]. constructor; simpl; try done. intros j u q H E N S.
    destruct (Id _ _ _ H E N S) as (d & D & T). destruct (decide (id = t_id u)) as [->|].
    + eexists. rewrite lookup_alter_eq, D. by split.
    + exists d. by rewrite lookup_alter_ne.
Qed.

(** ** Frame *)

(** Nothing of instance [id] differs, nor any task but [tid]. *)
Definition same_for (id : string) (tid : nat) (s s' : DriverSupervisor) : Prop :=
  statuses s' = statuses s /\ (forall r, statuses s !! id = Some r -> heap s' !! r = heap s !! r) /\
  drivers s' !! id = drivers s !! id /\ tasks s' = tasks s /\ (forall j, j <> tid -> pool s' !! j = pool s !! j).
(** The status an update goes to belongs to [owner]. *)
Definition owned (owner : string) (o : option nat) (s : DriverSupervisor) : Prop :=
  forall r, o = Some r -> exists st, heap s !! r = Some st /\ st_instance_id st = owner.

Lemma owned_status s tid t : sup_inv s -> pool s !! tid = Some t -> owned (t_id t) (t_status t) s.
Proof. intros I Ht r E. by apply (i_ref s I _ _ _ Ht E). Qed.

Lemma same_for_upd s id tid t o f owner :
  sup_inv s -> owned owner o s -> id <> owner -> same_for id tid s (put_task tid t (upd_ref o f s)).
Proof.
  intros I O N. destruct (upd_ref_fields o f s) as (F1 & F2 & F3 & F4 & F5 & F6).
  unfold same_for. cbn [put_task heap statuses tasks pool drivers]. rewrite F1, F2, F3, F4. repeat split; try done.
  - intros r S. rewrite upd_ref_heap. case_decide as D; [|done]. exfalso.
    destruct (O _ D) as (st & H & E). destruct (i_stat s I _ _ S) as (st' & H' & E'). congruence.
  - intros j D. by rewrite lookup_insert_ne.
Qed.
Lemma same_for_goto s id tid t : same_for id tid s (put_task tid t s).
Proof. unfold same_for. simpl. repeat split; try done. intros j D. by rewrite lookup_insert_ne. Qed.
Lemma same_for_iteration s clock mono id tid t :
  sup_inv s -> owned (t_id t) (t_status t) s -> id <> t_id t -> same_for id tid s (iteration clock mono tid t s).
Proof.
  intros I O N. unfold iteration. destruct (create _ _ _) as [d|e]; [|apply same_for_goto].
  set (s1 := put_driver _ d s). destruct (upd_ref_fields (t_status t) (set_state clock STARTING) s1) as (F1 & F2 & F3 & F4 & F5 & F6).
  unfold same_for. cbn [put_task heap statuses tasks pool drivers]. rewrite F1, F2, F3, F4.
  repeat split; try done.
  - intros r S. rewrite upd_ref_heap. case_decide as D; [|done]. exfalso.
    destruct (O _ D) as (st & H & E). destruct (i_stat s I _ _ S) as (st' & H' & E'). congruence.
  - unfold s1; simpl; by rewrite lookup_insert_ne.
  - intros j D. simpl; by rewrite lookup_insert_ne.
Qed.

Lemma task_step_frame s clock mono o tid t id :
  sup_inv s -> pool s !! tid = Some t -> id <> t_id t -> same_for id tid s (task_step clock mono o tid t s).
Proof.
  intros I Ht N. pose proof (owned_status s tid t I Ht) as O.
  assert (forall f t', same_for id tid s (put_task tid t' (upd_ref (t_status t) f s))) as U by
    (intros; by eapply same_for_upd).
  assert (forall t', same_for id tid s (put_task tid t' s)) as G by apply same_for_goto.
  assert (forall b, same_for id tid s (iteration clock mono tid (with_backoff b t) s)) as IT by
    (intros; by apply same_for_iteration).
  unfold task_step, failure, cancelled. destruct (t_pc t), o; try apply U; try apply G; try apply IT;
    try (case_match; [apply U|apply G]).
  3-5: by repeat split.
  all: destruct (statuses s !! t_id t) as [r|] eqn:S; [|apply G].
  all: apply same_for_iteration; [done| |done]; intros q [= <-]; by apply (i_stat s I).
Qed.

(** ** Properties *)

Lemma running_connected_helper reg s id st :
  sup_reachable reg s -> status id s = Ok st -> st_state st = RUNNING ->
  exists tid t d, pool s !! tid = Some t /\ t_id t = id /\ t_pc t = SRun /\
    get_driver id s = Some d /\ t_driver t = Some (d_serial d).
Proof.
  intros R%sup_reachable_inv. unfold status, raw_status. destruct (statuses s !! id) as [r|] eqn:S; [|done].
  destruct (heap s !! r) as [st0|] eqn:H; [|done]. intros [= <-] Ru.
  assert (st_state st0 = RUNNING) as Ru0 by (unfold with_live_metrics in Ru; by destruct (drivers s !! _)).
  destruct (i_running s R _ _ H Ru0) as (t & Ht & E & P).
  destruct (i_ref s R _ _ _ Ht E) as (_ & st1 & H1 & N1).
  destruct (i_stat s R _ _ S) as (st2 & H2 & N2).
  assert (t_id t = id) as Et by congruence.
  destruct (i_driver s R _ _ _ Ht E) as (d & D & T); [rewrite P; by apply not_done|by rewrite Et|].
  exists (Datatypes.S r), t, d. rewrite <- Et. by repeat split.
Qed.

(** C2: in every interleaving of starts, stops, task resumptions and metric updates, when the status reported for an
    instance says RUNNING, its supervising task is inside [driver.run] and the driver on record for the instance is the
    one that task created: a write routed to it reaches a configured and connected driver. *)
Theorem running_means_connected reg s id st :
  sup_reachable reg s -> status id s = Ok st -> st_state st = RUNNING ->
  exists tid t d, pool s !! tid = Some t /\ t_id t = id /\ t_pc t = SRun /\
    get_driver id s = Some d /\ t_driver t = Some (d_serial d).
Proof. apply running_connected_helper. Qed.

(** whatever a driver instance does (raise, return, be cancelled, sleep, restart), one resumption of its task leaves
    every other instance's status, task and driver untouched, and the restart backoff stays between 1 and 300 seconds. *)
Theorem supervisor_isolates reg s clock mono o tid t id :
  sup_reachable reg s -> pool s !! tid = Some t -> (o = OCancel <-> t_cancel t = true) -> id <> t_id t ->
  let s' := task_step clock mono o tid t s in
  raw_status id s' = raw_status id s /\ status id s' = status id s /\ get_driver id s' = get_driver id s /\
  tasks s' = tasks s /\ (forall j, j <> tid -> pool s' !! j = pool s !! j) /\
  (forall t', pool s' !! tid = Some t' -> 1 <= t_backoff t' <= SUP_MAX_BACKOFF).
Proof.
  intros R Ht Ho Ni s'. assert (sup_inv s') as I' by (apply inv_task_step; [by eapply sup_reachable_inv|done..]).
  apply sup_reachable_inv in R as I. destruct (task_step_frame s clock mono o tid t id I Ht Ni) as (F1 & F2 & F3 & F4 & F5).
  fold s' in F1, F2, F3, F4, F5. assert (raw_status id s' = raw_status id s) as ER by (unfold raw_status; rewrite F1; by destruct (statuses s !! id) eqn:E; [apply F2|]).
  repeat split; try done.
  - unfold status. rewrite ER. destruct (raw_status id s) as [st|] eqn:E; [|done]. unfold raw_status in E.
    destruct (statuses s !! id) as [r|] eqn:S; [|done]. destruct (i_stat s I _ _ S) as (st' & H & N).
    assert (st = st') as -> by congruence. f_equal. unfold with_live_metrics. by rewrite N, F3.
  - by apply (i_pool s' I') in H as [_ [? ?]].
  - by apply (i_pool s' I') in H as [_ [? ?]].
Qed.

(** The task after the given resumptions, at one clock each. *)
Definition resume (tid : nat) (e : Z * pfloat * outcome) (s : DriverSupervisor) : DriverSupervisor :=
  match pool s !! tid with Some t => task_step e.1.1 e.1.2 e.2 tid t s | None => s end.

(** C23: a driver that raises while it is configured, connected or run is disconnected (even if disconnecting raises) and,
    after the backoff sleep, replaced by a newly created driver of the same type that is configured again; the failure
    is counted, and the next backoff is doubled up to 300 seconds, starting again from 1 (so 2 next) after a run of at
    least 60 seconds. *)
Theorem failed_driver_restarts s tid t st r clock1 clock2 clock3 mono1 mono2 mono3 e o2 :
  pool s !! tid = Some t -> t_pc t ∈ [SConfigure; SConnect; SRun] -> t_status t = Some r -> heap s !! r = Some st ->
  dc_driver_type (t_config t) ∈ registry s -> o2 <> OCancel ->
  let s1 := resume tid (clock1, mono1, OExn e) s in
  let s2 := resume tid (clock2, mono2, o2) s1 in
  let s3 := resume tid (clock3, mono3, ORet) s2 in
  let healthy := fleb BACKOFF_RESET_THRESHOLD (fsub mono2 (t_started_at t)) in
  (exists st1, heap s1 !! r = Some st1 /\ st_state st1 = BACKOFF /\ last_error st1 = Some e) /\
  (exists t2, pool s2 !! tid = Some t2 /\ t_pc t2 = SSleep /\
     t_backoff t2 = if healthy then SUP_INITIAL_BACKOFF else t_backoff t) /\
  exists t3 st3 d, pool s3 !! tid = Some t3 /\ t_pc t3 = SConfigure /\ heap s3 !! r = Some st3 /\
    st_state st3 = STARTING /\ consecutive_failures st3 = (if healthy then 1 else consecutive_failures st + 1) /\
    drivers s3 !! t_id t = Some d /\ t_driver t3 = Some (d_serial d) /\ d_type d = dc_driver_type (t_config t) /\
    d_serial d = fresh s /\
    t_backoff t3 = Z.min ((if healthy then SUP_INITIAL_BACKOFF else t_backoff t) * SUP_BACKOFF_MULTIPLIER) SUP_MAX_BACKOFF.
Proof.
  intros Ht Hp Es Hs Hr Ho s1 s2 s3 healthy.
  assert (s1 = failure clock1 tid t e s) as E1.
  { unfold s1, resume. rewrite Ht. unfold task_step. cbn [fst snd].
    repeat (apply elem_of_cons in Hp as [->|Hp]; [done|]). by apply elem_of_nil in Hp. }
  assert (pool s1 !! tid = Some (with_pc SDisconnectFailed t)) as P1 by (rewrite E1; apply lookup_insert_eq).
  set (f := fun st => set_state clock1 BACKOFF (set_failures (consecutive_failures st + 1) (Some e) st)).
  assert (heap s1 = alter f r (heap s)) as H1 by (rewrite E1; unfold failure; by rewrite Es).
  set (t2 := if healthy then with_backoff SUP_INITIAL_BACKOFF (with_pc SSleep t) else with_pc SSleep t).
  set (g := fun st => if healthy then set_failures 1 (last_error st) st else st).
  assert (s2 = put_task tid t2 (upd_ref (Some r) g s1)) as E2.
  { unfold s2, resume. rewrite P1. unfold task_step. cbn [fst snd with_pc t_pc t_status t_started_at]. rewrite Es.
    fold healthy. unfold t2, g. destruct o2; [| |done]; destruct healthy; try done; f_equal; symmetry; apply upd_ref_id. }
  assert (pool s2 !! tid = Some t2) as P2 by (rewrite E2; apply lookup_insert_eq).
  assert (t_status t2 = Some r /\ t_config t2 = t_config t /\ t_pc t2 = SSleep) as (T1 & T2 & T3) by
    (unfold t2; by destruct healthy).
  assert (registry s2 = registry s /\ fresh s2 = fresh s) as [R2 F2].
  { rewrite E2, E1. unfold failure. rewrite Es. done. }
  assert (s3 = iteration clock3 mono3 tid (with_backoff (Z.min (t_backoff t2 * SUP_BACKOFF_MULTIPLIER) SUP_MAX_BACKOFF) t2) s2) as E3.
  { unfold s3, resume. rewrite P2. unfold task_step. cbn [fst snd]. by rewrite T3. }
  unfold iteration in E3. cbn [with_backoff t_config] in E3. rewrite T2, R2, F2 in E3. unfold create in E3.
  rewrite (bool_decide_false (_ ∉ _)) in E3 by (by intros []). cbn [guard_raise] in E3.
  split; [|split].
  - exists (f st). rewrite H1, lookup_alter_eq, Hs. done.
  - exists t2. split; [done|]. split; [done|]. unfold t2. by destruct healthy.
  - eexists _, (set_state clock3 STARTING (g (f st))), _. rewrite E3. cbn [put_task pool heap drivers].
    rewrite lookup_insert_eq. split; [done|]. cbn [t_pc t_status t_driver t_backoff with_backoff]. rewrite T1.
    destruct (upd_ref_fields (Some r) (set_state clock3 STARTING) (put_driver (t_id t)
      {| d_serial := fresh s; d_type := dc_driver_type (t_config t); d_metrics := no_metrics; d_connectivity := None |} s2))
      as (_ & _ & _ & D & _).
    split; [done|]. split.
    { rewrite upd_ref_heap, decide_True by done. cbn [put_driver heap]. rewrite E2. cbn [put_task heap].
      rewrite upd_ref_heap, decide_True, H1, lookup_alter_eq, Hs by done. done. }
    split; [done|]. split; [unfold g; by destruct healthy|]. rewrite D. cbn [put_driver drivers].
    rewrite lookup_insert_eq. repeat (split; [done|]). unfold t2. by destruct healthy.
Qed.

(** ** Witnesses and traces *)

Definition demo_driver_config (id ty : string) : DriverConfig :=
  {| dc_instance_id := id; dc_driver_type := ty; dc_tag_groups := [Some ["a"; "b"]; None] |}.
Definition demo_started : DriverSupervisor := (start_driver 10 (demo_driver_config "plc" "modbus_tcp") (new_supervisor {["modbus_tcp"]})).1.
(** Created, configured, connected: inside [run]. *)
Definition demo_running : DriverSupervisor :=
  resume 1 (13, fzero, ORet) (resume 1 (12, fzero, ORet) (resume 1 (11, fzero, ORet) demo_started)).

Lemma resume_reachable reg tid e s :
  sup_reachable reg s -> (forall t, pool s !! tid = Some t -> e.2 = OCancel <-> t_cancel t = true) ->
  sup_reachable reg (resume tid e s).
Proof.
  intros R K. unfold resume. destruct (pool s !! tid) as [t|] eqn:E; [|done].
  eapply sup_next; [done|]. apply sup_task; [done|]. by apply K.
Qed.
Lemma demo_running_reachable : sup_reachable {["modbus_tcp"]} demo_running.
Proof.
  unfold demo_running. repeat (apply resume_reachable; [|vm_compute; intros t [= <-]; split; discriminate]).
  unfold demo_started. eapply sup_next; [apply sup_init|]. eapply sup_start. apply surjective_pairing.
Qed.

Lemma running_means_connected_witness :
  exists st, status "plc" demo_running = Ok st /\ exists tid t d, pool demo_running !! tid = Some t /\ t_id t = "plc" /\
    t_pc t = SRun /\ get_driver "plc" demo_running = Some d /\ t_driver t = Some (d_serial d).
Proof.
  eexists. split; [vm_compute; reflexivity|].
  eapply (running_means_connected _ demo_running "plc"); [exact demo_running_reachable|vm_compute; reflexivity|reflexivity].
Defined.

Definition demo_task : Task := Eval vm_compute in
  match pool demo_running !! 1%nat with Some t => t | None => with_pc SBegin (Build_Task (demo_driver_config "" "") SBegin None 1 fzero None false) end.
Lemma supervisor_isolates_witness :
  let s' := task_step 20 fzero (OExn OSError) 1 demo_task demo_running in
  raw_status "other" s' = raw_status "other" demo_running /\ status "other" s' = status "other" demo_running /\
  get_driver "other" s' = get_driver "other" demo_running /\ tasks s' = tasks demo_running /\
  (forall j, j <> 1%nat -> pool s' !! j = pool demo_running !! j) /\
  (forall t', pool s' !! 1%nat = Some t' -> 1 <= t_backoff t' <= SUP_MAX_BACKOFF).
Proof.
  apply (supervisor_isolates {["modbus_tcp"]} demo_running 20 fzero (OExn OSError) 1 demo_task "other");
    [exact demo_running_reachable|vm_compute; reflexivity|split; discriminate|discriminate].
Defined.

Lemma failed_driver_restarts_witness :
  exists st, heap demo_running !! 0%nat = Some st /\
  exists t3 st3 d,
    pool (resume 1 (22, fzero, ORet) (resume 1 (21, fzero, OExn TimeoutError) (resume 1 (20, fzero, OExn OSError) demo_running))) !! 1%nat = Some t3 /\
    t_pc t3 = SConfigure /\
    heap (resume 1 (22, fzero, ORet) (resume 1 (21, fzero, OExn TimeoutError) (resume 1 (20, fzero, OExn OSError) demo_running))) !! 0%nat = Some st3 /\
    st_state st3 = STARTING /\ consecutive_failures st3 = consecutive_failures st + 1 /\
    drivers (resume 1 (22, fzero, ORet) (resume 1 (21, fzero, OExn TimeoutError) (resume 1 (20, fzero, OExn OSError) demo_running))) !! "plc" = Some d /\
    t_driver t3 = Some (d_serial d) /\ d_type d = "modbus_tcp" /\ d_serial d = fresh demo_running /\ t_backoff t3 = 2.
Proof.
  eexists. split; [vm_compute; reflexivity|].
  apply (failed_driver_restarts demo_running 1 demo_task
           (set_state 13 RUNNING (Build_DriverInstanceStatus "plc" "modbus_tcp" RUNNING 0 None no_metrics 2 13 UNKNOWN))
           0 20 21 22 fzero fzero fzero OSError (OExn TimeoutError));
    [vm_compute; reflexivity|apply list_elem_of_In; simpl; tauto|reflexivity|vm_compute; reflexivity|
     apply (bool_decide_unpack _); vm_compute; exact I|discriminate].
Defined.

(** A driver type missing from the registry ends the task with an exception, and
    stopping that instance raises it again. *)
Example unknown_type_stop_raises :
  let s := (start_driver 10 (demo_driver_config "plc" "nosuch") (new_supervisor {["modbus_tcp"]})).1 in
  let s := resume 1 (11, fzero, ORet) s in
  let s := (stop_begin "plc" s).2 in
  option_map snd (stop_end 12 "plc" 1 s) = Some (Raise ValueError).
Proof. vm_compute. reflexivity. Qed.

(** A driver whose [run] returned normally and whose [disconnect] then raises is restarted. *)
Example failed_disconnect_restarts :
  let s := resume 1 (15, fzero, OExn OSError) (resume 1 (14, fzero, ORet) demo_running) in
  let s := resume 1 (17, fzero, ORet) (resume 1 (16, fzero, ORet) s) in
  option_map t_pc (pool s !! 1%nat) = Some SConfigure /\ option_map st_state (raw_status "plc" s) = Some STARTING.
Proof. vm_compute. done. Qed.
