(* ===== verification/AuditLog.v ===== *)
(** * Hash-chained audit log (src/xedge/observability/audit_log.py)

    The file is the list of its lines, each one parsed: [json.loads] gives back
    what [json.dumps] printed.  SHA-256 (as hex text) and the canonical JSON
    text of an entry are parameters. *)

From Stdlib Require Import Ascii.
From S2P Require Import Prelude PyFloat PyDict.
Local Open Scope string_scope.
Local Open Scope list_scope.
Local Open Scope Z_scope.

(** A stripped line: empty, a JSON document, or text [json.loads] rejects. *)
Inductive line := Blank | Doc (j : json) | Malformed.
(** [j[key]] *)
Definition json_item (key : string) (j : json) : res json :=
  match j with
  | JDict d => match dict_get key d with Some v => Ok v | None => Raise KeyError end
  | _ => Raise TypeError
  end.
Definition json_is_str (j : json) (s : string) : bool := match j with JStr t => String.eqb t s | _ => false end.
(** [j + 1] and [j <= n] *)
Definition json_succ (j : json) : res json :=
  match j with
  | JNum (NInt z) => Ok (JNum (NInt (z + 1)))
  | JNum (NFloat f) => Ok (JNum (NFloat (fadd f (float_of_Z_raw 1))))
  | JBool b => Ok (JNum (NInt (if b then 2 else 1)))
  | _ => Raise TypeError
  end.
Definition json_le (j : json) (n : Z) : res bool :=
  match j with
  | JNum (NInt z) => Ok (z <=? n)
  | JNum (NFloat f) => Ok (float_le_num f (NInt n))
  | JBool b => Ok ((if b then 1 else 0) <=? n)
  | _ => Raise TypeError
  end.
Definition parse_line (l : line) : res (option json) :=
  match l with Blank => Ok None | Doc j => Ok (Some j) | Malformed => Raise ValueError end.
(** [x[-n:]] *)
Definition last_items {A} (n : Z) (l : list A) : list A :=
  if 0 <? n then drop (length l - Z.to_nat n) l else if n =? 0 then l else drop (Z.to_nat (- n)) l.

Definition GENESIS_HASH : string := "0000000000000000000000000000000000000000000000000000000000000000".

Record AuditLog := { file : option (list line); log_next_seq : json; last_hash : json }.

Section Audit.
Context (sha256_hex : string -> string) (canonical_json : dict json -> string) (py_str : json -> string).

(** [_resume]: continue after the last non-blank line. *)
Definition last_line (f : list line) : option line :=
  List.find (fun l => match l with Blank => false | _ => true end) (rev f).
Definition resume_log (f : option (list line)) : res (json * json) :=
  match f with
  | None => Ok (JNum (NInt 1), JStr GENESIS_HASH)
  | Some ls =>
      match last_line ls with
      | None => Ok (JNum (NInt 1), JStr GENESIS_HASH)
      | Some l =>
          let* d := parse_line l in
          let j := default JNull d in
          let* s := json_item "seq" j in
          let* s := json_succ s in
          let* h := json_item "hash" j in
          Ok (s, h)
      end
  end.
Definition open_log (f : option (list line)) : res AuditLog :=
  let* (s, h) := resume_log f in Ok {| file := f; log_next_seq := s; last_hash := h |}.

(** The entry without its hash. *)
Definition entry_body (seq : json) (timestamp actor event : string) (details : option (dict json)) (prev : json) : dict json :=
  [("seq", seq); ("timestamp", JStr timestamp); ("actor", JStr actor); ("event", JStr event);
   ("details", JDict (default [] details)); ("prev_hash", prev)].
Definition entry_hash (prev : string) (body : dict json) : string := sha256_hex (prev ++ canonical_json body)%string.

Definition log_append (timestamp actor event : string) (details : option (dict json)) : SR AuditLog unit :=
  fun a =>
  let body := entry_body (log_next_seq a) timestamp actor event details (last_hash a) in
  match last_hash a with
  | JStr prev =>
      let h := entry_hash prev body in
      match json_succ (log_next_seq a) with
      | Ok s => ({| file := Some (default [] (file a) ++ [Doc (JDict (dict_set "hash" (JStr h) body))]);
                    log_next_seq := s; last_hash := JStr h |}, Ok tt)
      | Raise e => ({| file := Some (default [] (file a) ++ [Doc (JDict (dict_set "hash" (JStr h) body))]);
                       log_next_seq := log_next_seq a; last_hash := last_hash a |}, Raise e)
      end
  | _ => (a, Raise TypeError)
  end.

(** [tail] *)
Definition tail_match (actor event : option string) (since_seq : Z) (j : json) : res bool :=
  let* s := json_item "seq" j in
  let* old := json_le s since_seq in
  if old then Ok false else
  let* other_actor := match actor with
    | None => Ok false
    | Some a => let* ja := json_item "actor" j in Ok (negb (json_is_str ja a)) end in
  if other_actor then Ok false else
  match event with
  | None => Ok true
  | Some e => let* je := json_item "event" j in Ok (String.prefix e (py_str je))
  end.
Fixpoint tail_matches (actor event : option string) (since_seq : Z) (ls : list line) : res (list json) :=
  match ls with
  | [] => Ok []
  | l :: t =>
      let* d := parse_line l in
      let* keep := match d with None => Ok false | Some j => tail_match actor event since_seq j end in
      let* rest := tail_matches actor event since_seq t in
      Ok (match d with Some j => if keep then j :: rest else rest | None => rest end)
  end.
Definition log_tail (limit : Z) (actor event : option string) (since_seq : Z) (a : AuditLog) : res (list json) :=
  match file a with
  | None => Ok []
  | Some ls =>
      let* ms := tail_matches actor event since_seq ls in
      Ok (if limit <? zlen ms then last_items limit ms else ms)
  end.

(** [verify_chain] *)
Fixpoint verify_from (expected_prev_hash : string) (ls : list line) : res bool :=
  match ls with
  | [] => Ok true
  | l :: t =>
      let* d := parse_line l in
      match d with
      | None => verify_from expected_prev_hash t
      | Some entry =>
          let* p := json_item "prev_hash" entry in
          if negb (json_is_str p expected_prev_hash) then Ok false else
          match entry with
          | JDict kv =>
              let recomputed := entry_hash expected_prev_hash (List.filter (fun e => negb (String.eqb e.1 "hash")) kv) in
              let* h := json_item "hash" entry in
              if json_is_str h recomputed then verify_from recomputed t else Ok false
          | _ => Raise TypeError
          end
      end
  end.
Definition verify_chain (a : AuditLog) : res bool :=
  match file a with None => Ok true | Some ls => verify_from GENESIS_HASH ls end.

(** ** Properties *)

(** A genuine log: what [n] appends leave, ending with hash [h]. *)
Inductive chain : list line -> Z -> string -> Prop :=
  | chain_nil : chain [] 0 GENESIS_HASH
  | chain_snoc ls n h ts actor event details :
      chain ls n h ->
      let body := entry_body (JNum (NInt (n + 1))) ts actor event details (JStr h) in
      chain (ls ++ [Doc (JDict (dict_set "hash" (JStr (entry_hash h body)) body))]) (n + 1) (entry_hash h body).

Lemma body_without_hash h body :
  dict_get "hash" body = None ->
  List.filter (fun e : string * json => negb (String.eqb e.1 "hash")) (dict_set "hash" (JStr h) body) = body.
Proof.
  induction body as [|[k v] t IH]; simpl; [done|]. case_decide as D; [done|]. intros G. simpl.
  destruct (String.eqb_spec k "hash"); [congruence|]. simpl. by rewrite IH.
Qed.

Lemma verify_entry h body t :
  dict_get "hash" body = None -> dict_get "prev_hash" body = Some (JStr h) ->
  verify_from h (Doc (JDict (dict_set "hash" (JStr (entry_hash h body)) body)) :: t) = verify_from (entry_hash h body) t.
Proof.
  intros N P. cbn [verify_from parse_line rbind json_item]. rewrite dict_get_set_ne, P by done.
  cbn [rbind json_is_str]. rewrite String.eqb_refl, body_without_hash, dict_get_set_eq by done. cbn [negb rbind json_is_str].
  by rewrite String.eqb_refl.
Qed.
Lemma chain_verify_app ls n h : chain ls n h -> forall rest, verify_from GENESIS_HASH (ls ++ rest) = verify_from h rest.
Proof.
  induction 1 as [|ls n h ts actor event details C IH body]; intros rest; [done|].
  rewrite <- app_assoc, IH. by apply verify_entry.
Qed.

(** Client operations: append an entry, or close and reopen the log. *)
Inductive op := Append (timestamp actor event : string) (details : option (dict json)) | Reopen.
Definition run_op (a : AuditLog) (o : op) : res AuditLog :=
  match o with
  | Append ts actor event details => let '(a', r) := log_append ts actor event details a in let* _ := r in Ok a'
  | Reopen => open_log (file a)
  end.
Fixpoint run_ops (a : AuditLog) (l : list op) : res AuditLog :=
  match l with [] => Ok a | o :: t => let* a := run_op a o in run_ops a t end.
(** What the [k]-th append recorded. *)
Definition recorded (o : op) : list (string * string * dict json) :=
  match o with Append _ actor event details => [(actor, event, default [] details)] | Reopen => [] end.
Definition shows (k : Z) (r : string * string * dict json) (l : line) : Prop :=
  exists kv, l = Doc (JDict kv) /\ dict_get "seq" kv = Some (JNum (NInt k)) /\ dict_get "actor" kv = Some (JStr r.1.1) /\
    dict_get "event" kv = Some (JStr r.1.2) /\ dict_get "details" kv = Some (JDict r.2).
Inductive numbered : Z -> list (string * string * dict json) -> list line -> Prop :=
  | numbered_nil : numbered 0 [] []
  | numbered_snoc k rs ls r l : numbered k rs ls -> shows (k + 1) r l -> numbered (k + 1) (rs ++ [r]) (ls ++ [l]).

(** The log object in step with a genuine file. *)
Definition in_step (a : AuditLog) (n : Z) (rs : list (string * string * dict json)) : Prop :=
  exists h, chain (default [] (file a)) n h /\ log_next_seq a = JNum (NInt (n + 1)) /\ last_hash a = JStr h /\
    numbered n rs (default [] (file a)).

Lemma entry_shows k ts actor event details h h' :
  shows k (actor, event, default [] details)
    (Doc (JDict (dict_set "hash" (JStr h') (entry_body (JNum (NInt k)) ts actor event details (JStr h))))).
Proof. eexists. split; [done|]. by rewrite !dict_get_set_ne by done. Qed.

Lemma chain_last ls n h : chain ls n h ->
  (ls = [] /\ n = 0 /\ h = GENESIS_HASH) \/
  exists kv, last_line ls = Some (Doc (JDict kv)) /\ dict_get "seq" kv = Some (JNum (NInt n)) /\ dict_get "hash" kv = Some (JStr h).
Proof.
  destruct 1 as [|ls n h ts actor event details C body]; [by left|right]. eexists.
  unfold last_line. rewrite rev_unit. cbn [List.find]. split; [done|].
  split; [by rewrite dict_get_set_ne|by rewrite dict_get_set_eq].
Qed.

Lemma resume_chain f n h :
  chain (default [] f) n h -> resume_log f = Ok (JNum (NInt (n + 1)), JStr h).
Proof.
  intros C%chain_last. destruct f as [ls|]; [|by destruct C as [(_ & -> & ->)|(kv & E & _)]]. simpl in *.
  destruct C as [(-> & -> & ->)|(kv & -> & S & H)]; [done|]. cbn [parse_line rbind default from_option id json_item].
  rewrite S. cbn [rbind json_succ]. by rewrite H.
Qed.

Lemma run_op_in_step a n rs o :
  in_step a n rs -> exists a', run_op a o = Ok a' /\ in_step a' (n + zlen (recorded o)) (rs ++ recorded o).
Proof.
  intros (h & C & N & L & Nu). destruct o as [ts actor event details|]; simpl.
  - unfold log_append. rewrite N, L. cbn [json_succ rbind]. eexists. split; [done|]. change (zlen _) with 1.
    eexists. cbn [file log_next_seq last_hash default from_option id]. split; [by apply chain_snoc|].
    split; [done|]. split; [done|]. apply numbered_snoc; [done|]. apply entry_shows.
  - unfold open_log. rewrite (resume_chain _ _ _ C). eexists. split; [done|]. rewrite app_nil_r.
    change (zlen _) with 0. rewrite Z.add_0_r. by exists h.
Qed.

Lemma run_ops_in_step l a n rs :
  in_step a n rs ->
  exists a', run_ops a l = Ok a' /\ in_step a' (n + zlen (concat (map recorded l))) (rs ++ concat (map recorded l)).
Proof.
  revert a n rs. induction l as [|o t IH]; intros a n rs I; simpl.
  - exists a. split; [done|]. rewrite app_nil_r. change (zlen _) with 0. by rewrite Z.add_0_r.
  - destruct (run_op_in_step a n rs o I) as (a1 & -> & I1). simpl. destruct (IH _ _ _ I1) as (a2 & -> & I2).
    exists a2. split; [done|]. rewrite zlen_app, Z.add_assoc, app_assoc. done.
Qed.

(** C10: starting from no file, any sequence of appends and reopenings succeeds; the file then holds exactly one entry per
    append, in order, numbered from 1 with its actor, event and details, and the hash chain verifies. *)
Theorem audit_log_verifies l :
  exists a0 a, open_log None = Ok a0 /\ run_ops a0 l = Ok a /\ verify_chain a = Ok true /\
    let rs := concat (map recorded l) in numbered (zlen rs) rs (default [] (file a)).
Proof.
  eexists. assert (in_step {| file := None; log_next_seq := JNum (NInt 1); last_hash := JStr GENESIS_HASH |} 0 []) as I0.
  { exists GENESIS_HASH. repeat split; constructor. }
  destruct (run_ops_in_step l _ _ _ I0) as (a & R & (h & C & _ & _ & N)).
  exists a. split; [done|]. split; [done|]. split; [|done]. unfold verify_chain.
  destruct (file a) as [ls|]; [|done]. simpl in C. rewrite <- (app_nil_r ls). by rewrite (chain_verify_app _ _ _ C).
Qed.

(** *** Tampering *)

(** The canonical texts of a file's entries and the hash they lead to. *)
Definition entry_text (l : line) : list string :=
  match l with Doc (JDict kv) => [canonical_json (List.filter (fun e => negb (String.eqb e.1 "hash")) kv)] | _ => [] end.
Definition texts (ls : list line) : list string := concat (map entry_text ls).
Definition final (h : string) (ts : list string) : string := fold_left (fun h c => sha256_hex (h ++ c)%string) ts h.

Lemma texts_app a b : texts (a ++ b) = texts a ++ texts b.
Proof. unfold texts. by rewrite map_app, concat_app. Qed.

Lemma verify_snoc h ls l :
  verify_from h (ls ++ [l]) = Ok true -> verify_from h ls = Ok true /\ verify_from (final h (texts ls)) [l] = Ok true.
Proof.
  revert h. induction ls as [|x t IH]; intros h; [done|]. cbn [app verify_from].
  destruct x as [|[| | | | |kv]|]; cbn [parse_line rbind json_item]; try done; [apply IH|].
  destruct (dict_get "prev_hash" kv); [|done]. cbn [rbind]. destruct (negb _); [done|].
  destruct (dict_get "hash" kv); [|done]. cbn [rbind]. destruct (json_is_str _ (entry_hash _ _)); [|done]. apply IH.
Qed.
Lemma verify_last h l :
  verify_from h [l] = Ok true ->
  l = Blank \/ exists kv, l = Doc (JDict kv) /\ dict_get "hash" kv = Some (JStr (final h (entry_text l))).
Proof.
  cbn [verify_from]. destruct l as [|[| | | | |kv]|]; cbn [parse_line rbind json_item]; try done; [by left|].
  destruct (dict_get "prev_hash" kv) as [p|]; [|done]. cbn [rbind]. destruct (negb _); [done|].
  destruct (dict_get "hash" kv) as [j|] eqn:E; [|done]. cbn [rbind].
  destruct (json_is_str j _) eqn:J; [|done]. intros _. right. exists kv. split; [done|]. rewrite E.
  destruct j; try done. apply String.eqb_eq in J. by rewrite J.
Qed.

(** In a verified file the hash [_resume] continues from is the one its entries lead to. *)
Lemma verified_resume ls s h :
  verify_from GENESIS_HASH ls = Ok true -> resume_log (Some ls) = Ok (s, JStr h) -> final GENESIS_HASH (texts ls) = h.
Proof.
  unfold resume_log, last_line. induction ls as [|l t IH] using rev_ind; [by intros _ [= _ <-]|].
  intros V. destruct (verify_snoc _ _ _ V) as [V1 V2]. rewrite rev_unit, texts_app.
  destruct (verify_last _ _ V2) as [->|(kv & -> & H)]; cbn [List.find].
  { rewrite app_nil_r. by apply IH. }
  cbn [parse_line rbind default from_option id json_item]. intros R. inv_ok. rewrite H in *. inv_ok.
  unfold final. rewrite fold_left_app. unfold texts at 2. simpl. done.
Qed.

Lemma final_snoc h ts c : final h (ts ++ [c]) = sha256_hex (final h ts ++ c)%string.
Proof. unfold final. by rewrite fold_left_app. Qed.

(** What is hashed on the way from [h] through the texts. *)
Fixpoint hashed (h : string) (ts : list string) : list string :=
  match ts with [] => [] | c :: t => (h ++ c)%string :: hashed (sha256_hex (h ++ c)%string) t end.
Lemma hashed_snoc h ts c : hashed h (ts ++ [c]) = hashed h ts ++ [(final h ts ++ c)%string].
Proof. revert h. induction ts as [|x ts IH]; intros h; [done|]. simpl. by rewrite IH. Qed.
(** The two sequences of texts hold a collision: among what verifying them
    hashes there are two different strings with one digest, or one whose digest
    is the genesis hash. *)
Definition exhibit_collision (xs ys : list string) : Prop :=
  (exists x y, x ∈ hashed GENESIS_HASH xs /\ y ∈ hashed GENESIS_HASH ys /\ x <> y /\ sha256_hex x = sha256_hex y) \/
  (exists x, x ∈ hashed GENESIS_HASH xs ++ hashed GENESIS_HASH ys /\ sha256_hex x = GENESIS_HASH).
Lemma exhibit_more xs ys x y : exhibit_collision xs ys -> exhibit_collision (xs ++ [x]) (ys ++ [y]).
Proof.
  unfold exhibit_collision. rewrite !hashed_snoc. intros [(u & w & U & W & N & E)|(u & U & E)].
  - left. exists u, w. rewrite !elem_of_app. auto.
  - right. exists u. rewrite !elem_of_app in *. tauto.
Qed.

Lemma string_app_inv (a b c d : string) : String.length a = String.length c -> (a ++ b = c ++ d)%string -> a = c /\ b = d.
Proof.
  revert c. induction a as [|x a IH]; intros [|y c]; simpl; try done. intros [= L] [= -> E].
  destruct (IH _ L E) as [-> ->]. done.
Qed.

Context (sha256_length : forall x, String.length (sha256_hex x) = 64%nat).
Lemma final_length ts : String.length (final GENESIS_HASH ts) = 64%nat.
Proof. destruct ts as [|c t _] using rev_ind; [done|]. by rewrite final_snoc. Qed.

Lemma final_inj xs ys :
  final GENESIS_HASH xs = final GENESIS_HASH ys -> xs = ys \/ exhibit_collision xs ys.
Proof.
  revert ys. induction xs as [|x xs IH] using rev_ind; intros ys E; destruct ys as [|y ys _] using rev_ind.
  - by left.
  - rewrite final_snoc in E. right; right. eexists. split; [|by symmetry]. rewrite hashed_snoc, !elem_of_app, list_elem_of_singleton. auto.
  - rewrite final_snoc in E. right; right. eexists. split; [|exact E]. rewrite hashed_snoc, !elem_of_app, list_elem_of_singleton. auto.
  - rewrite !final_snoc in E.
    destruct (decide (final GENESIS_HASH xs ++ x = final GENESIS_HASH ys ++ y)%string) as [D|D].
    + apply string_app_inv in D as [D ->]; [|by rewrite !final_length].
      destruct (IH _ D) as [->|C]; [by left|right; by apply exhibit_more].
    + right; left. exists (final GENESIS_HASH xs ++ x)%string, (final GENESIS_HASH ys ++ y)%string.
      rewrite !hashed_snoc, !elem_of_app, !list_elem_of_singleton. split_and!; auto.
Qed.

(** C24: a file that passes verification and ends with the same hash as the log the gateway wrote holds the same entries
    (the same canonical texts, none altered, removed, inserted or reordered), unless the two files themselves exhibit a
    collision of SHA-256: two different strings with the same digest, one hashed in verifying each file, or one whose
    digest is the all-zero genesis hash.  So whoever alters the log unnoticed can be made to show such a pair. *)
Theorem tampering_is_evident l a ls s h :
  (exists a0, open_log None = Ok a0 /\ run_ops a0 l = Ok a) -> last_hash a = JStr h ->
  verify_from GENESIS_HASH ls = Ok true -> resume_log (Some ls) = Ok (s, JStr h) ->
  texts ls = texts (default [] (file a)) \/ exhibit_collision (texts ls) (texts (default [] (file a))).
Proof.
  intros (a0 & [= <-] & R) Lh V Rs.
  assert (in_step {| file := None; log_next_seq := JNum (NInt 1); last_hash := JStr GENESIS_HASH |} 0 []) as I0.
  { exists GENESIS_HASH. repeat split; constructor. }
  destruct (run_ops_in_step l _ _ _ I0) as (a' & R' & (h' & C & _ & L & _)).
  rewrite R in R'. injection R' as <-. assert (h' = h) as -> by congruence.
  apply final_inj. rewrite (verified_resume _ _ _ V Rs). symmetry.
  eapply verified_resume; [|by apply (resume_chain (Some _))].
  rewrite <- (app_nil_r (default [] _)). by rewrite (chain_verify_app _ _ _ C).
Qed.
End Audit.

(** ** Witnesses and traces *)

(** A concrete digest: the first 64 characters, padded. *)
Fixpoint pad (n : nat) (s : string) : string :=
  match n with O => "" | S n => match s with String c t => String c (pad n t) | EmptyString => String "a"%char (pad n "") end end.
Definition toy_sha (s : string) : string := pad 64 s.
Definition toy_canon (d : dict json) : string := String.concat "," (dict_keys d).
Definition demo_ops : list op := [Append "t1" "admin" "config.write" None; Reopen; Append "t2" "mqtt-ncmd" "tag.write" (Some [("success", JBool true)])].
Definition demo_log : AuditLog := Eval vm_compute in
  match open_log None with
  | Ok a => match run_ops toy_sha toy_canon a demo_ops with Ok a => a | Raise _ => a end
  | Raise _ => {| file := None; log_next_seq := JNull; last_hash := JNull |}
  end.
Definition demo_file : list line := default [] (file demo_log).
Definition demo_head : string := match last_hash demo_log with JStr h => h | _ => "" end.

Lemma tampering_is_evident_witness :
  texts toy_canon demo_file = texts toy_canon (default [] (file demo_log)) \/
  exhibit_collision toy_sha (texts toy_canon demo_file) (texts toy_canon (default [] (file demo_log))).
Proof.
  apply (tampering_is_evident toy_sha toy_canon) with (l := demo_ops) (s := JNum (NInt 3)) (h := demo_head).
  - intros x. unfold toy_sha. generalize 64%nat as n. intros n. revert x. induction n as [|n IH]; intros [|c t]; simpl;
      [reflexivity|reflexivity|f_equal; apply IH|f_equal; apply IH].
  - eexists. split; [reflexivity|vm_compute; reflexivity].
  - reflexivity.
  - vm_compute. reflexivity.
  - vm_compute. reflexivity.
Defined.

(** Digests of one length collide somewhere, but two files need not show it:
    these two, of one entry each, exhibit nothing. *)
Fixpoint reversed (s acc : string) : string := match s with EmptyString => acc | String c t => reversed t (String c acc) end.
Definition tail_sha (s : string) : string := pad 64 (reversed s "").
Example no_collision_exhibited : ~ exhibit_collision tail_sha ["1"] ["2"].
Proof.
  intros [(x & y & X & Y & _ & E)|(x & X & E)]; cbn [hashed app] in *.
  - apply list_elem_of_singleton in X, Y. subst. by vm_compute in E.
  - apply elem_of_cons in X as [X|X%list_elem_of_singleton]; subst; by vm_compute in E.
Qed.
(** Dropping the last entry is not noticed by verification alone. *)
Example truncation_verifies : verify_from toy_sha toy_canon GENESIS_HASH (take 1 demo_file) = Ok true.
Proof. vm_compute. reflexivity. Qed.
(** A line cut short by a crash keeps the log from being opened again. *)
Example truncated_line_blocks_open : open_log (Some (demo_file ++ [Malformed])) = Raise ValueError.
Proof. vm_compute. reflexivity. Qed.
(** A zero limit returns everything. *)
Example zero_limit_returns_all py_str : rmap length (log_tail py_str 0 None None 0 demo_log) = Ok 2%nat.
Proof. reflexivity. Qed.
