(* ===== verification/WriteRouter.v ===== *)
(** * Write-back routing (src/xedge/core/write_router.py)

    The one way a write reaches a driver, from the REST API or an MQTT command,
    over the supervisor's status and driver tables and the audit log. *)

From S2P Require Import Prelude PyBytes PyFloat PyDict Pipeline Connectivity Supervisor AuditLog.
Local Open Scope string_scope.
Local Open Scope list_scope.
Local Open Scope Z_scope.

Record world := { w_supervisor : DriverSupervisor; w_audit : AuditLog }.

Section Router.
(** The audit log's parameters, [repr] of bytes, and the text of an error. *)
Context (sha256_hex : string -> string) (canonical_json : dict json -> string).
Context (repr_bytes : list Z -> string) (error_text : exn -> string).

Definition value_json (v : TagValue) : json :=
  match v with
  | VBool b => JBool b
  | VInt z => JNum (NInt z)
  | VFloat f => JNum (NFloat f)
  | VStr s => JStr s
  | VBytes bs => JStr (repr_bytes bs)
  end.
Definition audit_details (r : WriteResult) (v : TagValue) : dict json :=
  [("tag_id", JStr (wr_tag_id r)); ("value", value_json v); ("success", JBool (wr_success r));
   ("error", match wr_error r with Some e => JStr (error_text e) | None => JNull end)].
(** [_audit] *)
Definition audit (now actor : string) (r : WriteResult) (v : TagValue) (w : world) : world * res unit :=
  let '(a, x) := log_append sha256_hex canonical_json now actor "tag.write" (Some (audit_details r v)) (w_audit w) in
  ({| w_supervisor := w_supervisor w; w_audit := a |}, x).
Definition audited (now actor : string) (r : WriteResult) (v : TagValue) (w : world) : world * res WriteResult :=
  let '(w, x) := audit now actor r v w in (w, let* _ := x in Ok r).

(** [write]; [driver_write d tag v] is what awaiting the driver's own [write]
    gives. The driver is told the bare tag name. *)
Definition route_write (driver_write : Driver -> string -> TagValue -> res WriteResult)
    (now actor instance_id tag_name : string) (v : TagValue) (w : world) : world * res WriteResult :=
  let id := (instance_id ++ "/" ++ tag_name)%string in
  let refuse e := audited now actor {| wr_success := false; wr_tag_id := id; wr_error := Some e |} v w in
  match status instance_id (w_supervisor w) with
  | Raise KeyError => refuse KeyError
  | Raise e => (w, Raise e)
  | Ok st =>
      if negb (bool_decide (st_state st = RUNNING)) then refuse RuntimeError else
      match get_driver instance_id (w_supervisor w) with
      | None => refuse RuntimeError
      | Some d =>
          match driver_write d tag_name v with
          | Raise e => (w, Raise e)
          | Ok r => audited now actor {| wr_success := wr_success r; wr_tag_id := id; wr_error := wr_error r |} v w
          end
      end
  end.

(** The last entry of the log. *)
Definition audit_entry (w : world) (e : dict json) : Prop :=
  exists before kv, file (w_audit w) = Some (before ++ [Doc (JDict kv)]) /\ dict_get "details" kv = Some (JDict e) /\
    dict_get "event" kv = Some (JStr "tag.write").
Definition entries (w : world) : nat := length (default [] (file (w_audit w))).

(** The log is open: it knows where its chain ends. *)
Definition log_open (a : AuditLog) : Prop := exists n h, log_next_seq a = JNum (NInt n) /\ last_hash a = JStr h.

Lemma audited_spec now actor r v w :
  log_open (w_audit w) ->
  exists w', audited now actor r v w = (w', Ok r) /\ w_supervisor w' = w_supervisor w /\ log_open (w_audit w') /\
    audit_entry w' (audit_details r v) /\ entries w' = S (entries w).
Proof.
  intros (n & h & N & L). unfold audited, audit, log_append. rewrite N, L. cbn [json_succ].
  eexists. split; [done|]. split; [done|]. split; [by eexists _, _|]. split.
  - eexists _, _. split; [done|]. by rewrite !dict_get_set_ne by done.
  - unfold entries. cbn [w_audit file default from_option id]. rewrite length_app. simpl. lia.
Qed.

(** C7: a write whose driver call returns reports exactly one audit entry carrying the outcome it returns, under the full
    tag id; the driver was called only if the supervisor has the instance in its [run] loop on the driver object that
    was asked, and every other write is refused and audited as a failure. *)
Theorem write_routed_and_audited reg driver_write now actor instance_id tag_name v w :
  sup_reachable reg (w_supervisor w) -> log_open (w_audit w) ->
  (forall d e, driver_write d tag_name v <> Raise e) ->
  exists w' r, route_write driver_write now actor instance_id tag_name v w = (w', Ok r) /\
    wr_tag_id r = (instance_id ++ "/" ++ tag_name)%string /\
    w_supervisor w' = w_supervisor w /\ audit_entry w' (audit_details r v) /\ entries w' = S (entries w) /\
    (wr_success r = true ->
     exists tid t d r0, pool (w_supervisor w) !! tid = Some t /\ t_id t = instance_id /\ t_pc t = SRun /\
       t_driver t = Some (d_serial d) /\ driver_write d tag_name v = Ok r0 /\ wr_success r0 = true /\ wr_error r = wr_error r0).
Proof.
  intros R L D. unfold route_write. set (id := (instance_id ++ "/" ++ tag_name)%string).
  assert (forall e, exists w' r,
    audited now actor {| wr_success := false; wr_tag_id := id; wr_error := Some e |} v w = (w', Ok r) /\
    wr_tag_id r = id /\ w_supervisor w' = w_supervisor w /\ audit_entry w' (audit_details r v) /\
    entries w' = S (entries w) /\ wr_success r = false) as REF.
  { intros e. destruct (audited_spec now actor {| wr_success := false; wr_tag_id := id; wr_error := Some e |} v w L)
      as (w' & E & S & _ & A & N). by eexists _, _. }
  destruct (status instance_id (w_supervisor w)) as [st|e] eqn:St.
  2: { assert (e = KeyError) as -> by (unfold status in St; destruct (raw_status _ _); congruence).
       destruct (REF KeyError) as (w' & r & E & T & S & A & N & F). exists w', r. rewrite F. by repeat split. }
  destruct (bool_decide (st_state st = RUNNING)) eqn:B; cbn [negb].
  2: { destruct (REF RuntimeError) as (w' & r & E & T & S & A & N & F). exists w', r. rewrite F. by repeat split. }
  apply bool_decide_eq_true in B.
  destruct (running_connected_helper _ _ _ _ R St B) as (tid & t & d & Pt & It & Pc & G & Td). rewrite G.
  destruct (driver_write d tag_name v) as [r0|e] eqn:W; [|by destruct (D d e)].
  destruct (audited_spec now actor {| wr_success := wr_success r0; wr_tag_id := id; wr_error := wr_error r0 |} v w L)
    as (w' & E & S & _ & A & N).
  eexists _, _. split; [exact E|]. repeat split; try done. simpl. intros Su. by exists tid, t, d, r0.
Qed.
End Router.

Definition demo_world : world := {| w_supervisor := demo_running; w_audit := demo_log |}.
Definition demo_driver_write (d : Driver) (tag : string) (v : TagValue) : res WriteResult :=
  Ok {| wr_success := true; wr_tag_id := tag; wr_error := None |}.
Lemma write_routed_and_audited_witness :
  exists w' r, route_write toy_sha toy_canon (fun _ => "") (fun _ => "err") demo_driver_write "t" "mqtt-ncmd" "plc" "sp" (VInt 5) demo_world = (w', Ok r) /\
    wr_tag_id r = "plc/sp" /\ w_supervisor w' = w_supervisor demo_world /\
    audit_entry w' (audit_details (fun _ => "") (fun _ => "err") r (VInt 5)) /\ entries w' = S (entries demo_world) /\
    (wr_success r = true ->
     exists tid t d r0, pool (w_supervisor demo_world) !! tid = Some t /\ t_id t = "plc" /\ t_pc t = SRun /\
       t_driver t = Some (d_serial d) /\ demo_driver_write d "sp" (VInt 5) = Ok r0 /\ wr_success r0 = true /\ wr_error r = wr_error r0).
Proof.
  apply (write_routed_and_audited toy_sha toy_canon (fun _ => "") (fun _ => "err") {["modbus_tcp"]} demo_driver_write "t" "mqtt-ncmd" "plc" "sp" (VInt 5) demo_world).
  - exact demo_running_reachable.
  - eexists _, _. split; reflexivity.
  - intros d e. discriminate.
Defined.

(** A driver whose [write] raises leaves no trace in the audit log. *)
Example raising_write_not_audited :
  let w := route_write toy_sha toy_canon (fun _ => "") (fun _ => "err") (fun _ _ _ => Raise OverflowError) "t" "admin" "plc" "sp" (VInt 5) demo_world in
  w.2 = Raise OverflowError /\ entries w.1 = entries demo_world.
Proof. vm_compute. done. Qed.
