(* ===== verification/Config.v ===== *)
(** * Config engine (src/xedge/core/config.py)

    Layered configuration: merge, validation, version history, secrets, and the
    store that components read.  YAML files are given parsed (or as the
    exception the parser raises); the JSON Schema check is a parameter. *)

From Stdlib Require Import Ascii.
From S2P Require Import Prelude PyFloat PyDict.
Local Open Scope string_scope.
Local Open Scope list_scope.
Local Open Scope Z_scope.

(** ** Merge *)

(** The loop of [deep_merge], [merge_value] giving the new value of a key. *)
Fixpoint merge_value (overlay_value : json) (base_value : option json) : json :=
  match overlay_value, base_value with
  | JDict overlay, Some (JDict base) =>
      JDict ((fix go (o : list (string * json)) (result : dict json) : dict json :=
        match o with
        | [] => result
        | (key, v) :: t => go t (dict_set key (merge_value v (dict_get key result)) result)
        end) overlay base)
  | _, _ => overlay_value
  end.
Fixpoint merge_items (overlay result : dict json) : dict json :=
  match overlay with
  | [] => result
  | (key, v) :: t => merge_items t (dict_set key (merge_value v (dict_get key result)) result)
  end.
Definition deep_merge (base overlay : dict json) : dict json := merge_items overlay base.

(** [load_yaml]: what [yaml.safe_load] gave, as a mapping. *)
Definition load_yaml (doc : res json) : res (dict json) :=
  let* data := doc in
  match data with JNull => Ok [] | JDict d => Ok d | _ => Raise ConfigValidationError end.

(** ** Secrets *)

Definition name_char (c : ascii) : bool :=
  let n := Z.of_nat (nat_of_ascii c) in
  ((48 <=? n) && (n <=? 57)) || ((65 <=? n) && (n <=? 90)) || ((97 <=? n) && (n <=? 122)) ||
  (n =? 95) || (n =? 46) || (n =? 45) || (n =? 47).
(** The longest run of name characters, and what follows it. *)
Fixpoint name_run (s : string) : string * string :=
  match s with
  | String c t => if name_char c then let '(n, r) := name_run t in (String c n, r) else ("", s)
  | EmptyString => ("", "")
  end.
(** The rest of [s] after [p]. *)
Fixpoint after_prefix (p s : string) : option string :=
  match p, s with
  | EmptyString, _ => Some s
  | String a p, String b t => if Ascii.eqb a b then after_prefix p t else None
  | _, EmptyString => None
  end.
(** A match of the pattern at the start: the secret's name and the rest. *)
Definition match_secret (s : string) : option (string * string) :=
  match after_prefix "${SECRET:" s with
  | Some t =>
      let '(n, r) := name_run t in
      match n, r with
      | EmptyString, _ => None
      | _, String c r' => if Ascii.eqb c "}" then Some (n, r') else None
      | _, _ => None
      end
  | None => None
  end.

Definition upper_char (c : ascii) : ascii :=
  let n := nat_of_ascii c in if (97 <=? Z.of_nat n) && (Z.of_nat n <=? 122) then ascii_of_nat (n - 32) else c.
Fixpoint upper (s : string) : string := match s with String c t => String (upper_char c) (upper t) | EmptyString => "" end.

Section Secrets.
(** The environment, and the stripped text of a file of the secrets directory
    (always [None] when no directory is configured). *)
Context (env : string -> option string) (secret_file : string -> option string).
Definition resolve_one (name : string) : res string :=
  match env (upper name) with
  | Some v => Ok v
  | None => match secret_file name with Some v => Ok v | None => Raise SecretResolutionError end
  end.
(** [_SECRET_PATTERN.sub]; [fuel] bounds the length. *)
Fixpoint sub_secrets (fuel : nat) (s : string) : res string :=
  match fuel, s with
  | O, _ | _, EmptyString => Ok s
  | S n, String c t =>
      match match_secret s with
      | Some (name, rest) => let* v := resolve_one name in let* r := sub_secrets n rest in Ok (v ++ r)%string
      | None => let* r := sub_secrets n t in Ok (String c r)
      end
  end.
Definition resolve_str (s : string) : res string :=
  match match_secret s with
  | Some (name, EmptyString) => resolve_one name
  | _ => sub_secrets (String.length s) s
  end.
Fixpoint resolve (v : json) : res json :=
  match v with
  | JStr s => let* r := resolve_str s in Ok (JStr r)
  | JDict d =>
      let* d' := (fix go (d : list (string * json)) : res (list (string * json)) :=
        match d with [] => Ok [] | (k, x) :: t => let* y := resolve x in let* r := go t in Ok ((k, y) :: r) end) d in
      Ok (JDict d')
  | JList l =>
      let* l' := (fix go (l : list json) : res (list json) :=
        match l with [] => Ok [] | x :: t => let* y := resolve x in let* r := go t in Ok (y :: r) end) l in
      Ok (JList l')
  | _ => Ok v
  end.
End Secrets.

(** ** Version history *)

(** The numbered files of the directory, in increasing order of number. *)
Abbreviation versions := (list (Z * dict json)).
Definition existing_version_ids (h : versions) : list Z := map fst h.
Fixpoint remove_version (i : Z) (h : versions) : versions :=
  match h with [] => [] | (j, c) :: t => if i =? j then t else (j, c) :: remove_version i t end.
(** [while len(existing) > max_versions: unlink(existing.pop(0))] *)
Fixpoint prune (max_versions : Z) (existing : list Z) (h : versions) : versions * res unit :=
  if max_versions <? zlen existing then
    match existing with
    | [] => (h, Raise IndexError)
    | i :: t => prune max_versions t (remove_version i h)
    end
  else (h, Ok tt).
Definition save (max_versions : Z) (config : dict json) (h : versions) : versions * res Z :=
  let existing := existing_version_ids h in
  let version_id := match last existing with Some i => i + 1 | None => 1 end in
  let '(h', r) := prune max_versions (existing ++ [version_id]) (h ++ [(version_id, config)]) in
  (h', let* _ := r in Ok version_id).
Definition list_versions (h : versions) : list Z := existing_version_ids h.
Definition load_version (version_id : Z) (h : versions) : res (dict json) :=
  match List.find (fun v => v.1 =? version_id) h with Some v => Ok v.2 | None => Raise FileNotFoundError end.

(** ** Asset references (src/xedge/core/assets.py, on the parsed document)

    The document has any shape here: the schema check collects its errors
    before this runs but does not stop it. *)

(** [for x in j] and [j.get(key, default)] *)
Definition json_iter (j : json) : res (list json) :=
  match j with
  | JList l => Ok l
  | JDict d => Ok (map JStr (dict_keys d))
  | JStr s => Ok (map (fun c => JStr (String c "")) (list_ascii_of_string s))
  | _ => Raise TypeError
  end.
Definition json_get (key : string) (dflt : json) (j : json) : res json :=
  match j with JDict d => Ok (default dflt (dict_get key d)) | _ => Raise AttributeError end.

Section AssetReferences.
(** How an f-string renders a value that is not a string. *)
Context (text_of : json -> string).
Definition fmt (j : json) : string := match j with JStr s => s | _ => text_of j end.

Definition tag_refs_of_group (instance_id group : json) : res (list string) :=
  let* tags := json_get "tags" (JList []) group in
  let* tags := json_iter tags in
  let* ids := mapM_res (json_get "id" JNull) tags in
  Ok (map (fun t => fmt instance_id ++ "/" ++ fmt t)%string (List.filter truthy ids)).
Definition tag_refs_of_driver (driver : json) : res (list string) :=
  let* instance_id := json_get "id" JNull driver in
  if negb (truthy instance_id) then Ok [] else
  let* groups := json_get "tag_groups" (JList []) driver in
  let* groups := json_iter groups in
  let* refs := mapM_res (tag_refs_of_group instance_id) groups in Ok (concat refs).
Definition json_tag_refs (drivers : json) : res (list string) :=
  let* ds := json_iter drivers in let* refs := mapM_res tag_refs_of_driver ds in Ok (concat refs).

(** [tag_ref not in valid_refs]: lists and mappings cannot be hashed. *)
Definition dangling (valid_refs : list string) (tag_ref : json) : res bool :=
  if negb (truthy tag_ref) then Ok false else
  match tag_ref with
  | JStr s => Ok (negb (bool_decide (s ∈ valid_refs)))
  | JList _ | JDict _ => Raise TypeError
  | _ => Ok true
  end.
Definition asset_entry_errors (valid_refs : list string) (e : json) : res (list bool) :=
  let* _ := json_get "id" JNull e in
  let* ps := json_get "parameters" (JList []) e in
  let* ps := json_iter ps in
  mapM_res (fun p => let* r := json_get "tag_ref" JNull p in dangling valid_refs r) ps.
(** The number of errors [validate_asset_references] reports. *)
Definition asset_errors (config : dict json) : res Z :=
  match dict_get "assets" config with
  | None => Ok 0
  | Some assets =>
      if negb (truthy assets) then Ok 0 else
      let* valid_refs := json_tag_refs (default (JList []) (dict_get "drivers" config)) in
      let* entries := json_iter assets in
      let* errors := mapM_res (asset_entry_errors valid_refs) entries in
      Ok (count_if id (concat errors))
  end.
End AssetReferences.

(** ** Engine *)

Record ConfigStore := { store_data : dict json; notified : Z }.
Definition get_section (name : string) (default_ : json) (s : ConfigStore) : json := default default_ (dict_get name (store_data s)).
(** [replace]: swap the data and call every listener ([notified] counts the
    notifications; a listener is client code). *)
Definition replace (new_data : dict json) (s : ConfigStore) : ConfigStore :=
  {| store_data := new_data; notified := notified s + 1 |}.

Record files := { base_doc : res json; environment_doc : option (res json); overrides_doc : option (res json) }.
Record engine_state := { es_store : ConfigStore; es_history : option versions }.

Section Engine.
(** The messages of the JSON Schema validator. *)
Context (schema_errors : dict json -> list string) (text_of : json -> string).
Context (env secret_file : string -> option string) (max_versions : Z).

Definition validate (config : dict json) : res unit :=
  let* refs := asset_errors text_of config in
  raise_if (0 <? zlen (schema_errors config) + refs) with ConfigValidationError; Ok tt.

Definition overlay_with (merged : dict json) (doc : option (res json)) : res (dict json) :=
  match doc with None => Ok merged | Some d => let* o := load_yaml d in Ok (deep_merge merged o) end.
(** [_load_merged]; an overlay file that is not configured or absent is [None]. *)
Definition load_merged (f : files) : res (dict json) :=
  let* merged := load_yaml (base_doc f) in
  let* merged := overlay_with merged (environment_doc f) in
  overlay_with merged (overrides_doc f).

Definition resolve_config (c : dict json) : res (dict json) :=
  let* r := resolve env secret_file (JDict c) in match r with JDict d => Ok d | _ => Raise TypeError end.
(** Record a version if a history is attached. *)
Definition save_version (c : dict json) (h : option versions) : option versions * res unit :=
  match h with
  | None => (None, Ok tt)
  | Some h => let '(h', r) := save max_versions c h in (Some h', let* _ := r in Ok tt)
  end.
(** The part [reload] and [rollback] share: validate, record, resolve, swap. *)
Definition apply_config (merged : dict json) (s : engine_state) : engine_state * res unit :=
  match validate merged with
  | Raise e => (s, Raise e)
  | Ok _ =>
      let '(h, r) := save_version merged (es_history s) in
      match r with
      | Raise e => ({| es_store := es_store s; es_history := h |}, Raise e)
      | Ok _ =>
          match resolve_config merged with
          | Raise e => ({| es_store := es_store s; es_history := h |}, Raise e)
          | Ok resolved => ({| es_store := replace resolved (es_store s); es_history := h |}, Ok tt)
          end
      end
  end.
Definition reload (f : files) (s : engine_state) : engine_state * res unit :=
  match load_merged f with Raise e => (s, Raise e) | Ok merged => apply_config merged s end.
Definition rollback (version_id : Z) (s : engine_state) : engine_state * res unit :=
  match es_history s with
  | None => (s, Raise ConfigValidationError)
  | Some h => match load_version version_id h with Raise e => (s, Raise e) | Ok merged => apply_config merged s end
  end.
(** [load]: the store is new, the history is the engine's. *)
Definition load (f : files) (h : option versions) : option versions * res ConfigStore :=
  match load_merged f with
  | Raise e => (h, Raise e)
  | Ok merged =>
      match validate merged with
      | Raise e => (h, Raise e)
      | Ok _ =>
          let '(h, r) := save_version merged h in
          (h, let* _ := r in let* c := resolve_config merged in Ok {| store_data := c; notified := 0 |})
      end
  end.
Definition attach_version_history (f : files) (h : versions) (save_current : bool) : option versions * res unit :=
  if save_current then
    match load_merged f with
    | Raise e => (Some h, Raise e)
    | Ok merged => match validate merged with Raise e => (Some h, Raise e) | Ok _ => save_version merged (Some h) end
    end
  else (Some h, Ok tt).
End Engine.

(** ** Merge properties *)

Lemma merge_value_dict o b : merge_value (JDict o) (Some (JDict b)) = JDict (deep_merge b o).
Proof.
  reflexivity.
Qed.
Lemma merge_value_other v b : (forall o d, v = JDict o -> b <> Some (JDict d)) -> merge_value v b = v.
Proof. destruct v; try done. destruct b as [[]|]; try done. intros H. by destruct (H d d0). Qed.

(** One level: an overlay key decides, the others are the base's. *)
Lemma deep_merge_get base overlay k :
  dict_wf overlay ->
  dict_get k (deep_merge base overlay) =
  match dict_get k overlay with Some v => Some (merge_value v (dict_get k base)) | None => dict_get k base end.
Proof.
  unfold deep_merge. revert base. induction overlay as [|[j w] t IH]; intros base W; [done|].
  apply NoDup_cons in W as [N W]. cbn [merge_items dict_get]. rewrite IH by done.
  case_decide as D; subst.
  - assert (dict_get j t = None) as -> by (by apply dict_get_none). by rewrite dict_get_set_eq.
  - by rewrite dict_get_set_ne.
Qed.

Fixpoint get_path (p : list string) (j : json) : option json :=
  match p with
  | [] => Some j
  | k :: p => match j with JDict d => match dict_get k d with Some v => get_path p v | None => None end | _ => None end
  end.
Definition is_dict (j : json) : bool := match j with JDict _ => true | _ => false end.
(** The overlay says nothing about the path. *)
Fixpoint silent (p : list string) (o : dict json) : bool :=
  match p with
  | [] => false
  | k :: p => match dict_get k o with None => true | Some (JDict o') => silent p o' | Some _ => false end
  end.
(** Keys are unique at every level of nested mappings. *)
Fixpoint wf_json (j : json) : Prop :=
  match j with
  | JDict d => dict_wf d /\ (fix all (d : list (string * json)) : Prop :=
      match d with [] => True | (_, v) :: t => wf_json v /\ all t end) d
  | _ => True
  end.
Lemma wf_json_get d k v : wf_json (JDict d) -> dict_get k d = Some v -> wf_json v.
Proof.
  simpl. intros [_ A]. induction d as [|[j w] t IH]; simpl; [done|]. destruct A as [A1 A2].
  case_decide; [by intros [= <-]|by apply IH].
Qed.

Lemma silent_none q o : silent q o = true -> get_path q (JDict o) = None.
Proof.
  revert o. induction q as [|a q IH]; intros o S; [done|]. cbn [get_path silent] in *.
  destruct (dict_get a o) as [[]|]; try done. by apply IH.
Qed.

(** layering: a value (other than a mapping) the overlay sets at a path is the merged configuration's value there, and
    at every path the overlay says nothing about the merged configuration has what the base has. *)
Theorem deep_merge_layers p base overlay :
  wf_json (JDict overlay) ->
  (forall v, get_path p (JDict overlay) = Some v -> is_dict v = false -> get_path p (JDict (deep_merge base overlay)) = Some v) /\
  (silent p overlay = true -> get_path p (JDict (deep_merge base overlay)) = get_path p (JDict base)).
Proof.
  revert base overlay. induction p as [|k p IH]; intros base overlay W; [split; [by intros v [= <-]|done]|].
  cbn [get_path silent]. rewrite deep_merge_get by apply W.
  destruct (dict_get k overlay) as [w|] eqn:G; [|done]. pose proof (wf_json_get _ _ _ W G) as Ww.
  destruct (is_dict w) eqn:D.
  2: { rewrite merge_value_other by (by intros o ? ->). split; [done|]. by destruct w. }
  destruct w as [| | | | |o]; try done.
  destruct (dict_get k base) as [[]|] eqn:B; try (rewrite merge_value_other by done; split; [done|]).
  6: { rewrite merge_value_dict. by apply IH. }
  all: intros S; rewrite (silent_none _ _ S); by destruct p.
Qed.
Definition demo_base : dict json := [("store", JDict [("depth", JNum (NInt 10)); ("dir", JStr "/data")]); ("drivers", JList [])].
Definition demo_overlay : dict json := [("store", JDict [("dir", JStr "/mnt")])].
Lemma deep_merge_layers_witness :
  (forall v, get_path ["store"; "dir"] (JDict demo_overlay) = Some v -> is_dict v = false ->
     get_path ["store"; "dir"] (JDict (deep_merge demo_base demo_overlay)) = Some v) /\
  (silent ["store"; "dir"] demo_overlay = true ->
     get_path ["store"; "dir"] (JDict (deep_merge demo_base demo_overlay)) = get_path ["store"; "dir"] (JDict demo_base)).
Proof.
  apply (deep_merge_layers ["store"; "dir"] demo_base demo_overlay).
  simpl. unfold dict_wf. simpl. repeat split; repeat constructor; intros H; inversion H.
Defined.
Example merge_demo : deep_merge demo_base demo_overlay =
  [("store", JDict [("depth", JNum (NInt 10)); ("dir", JStr "/mnt")]); ("drivers", JList [])].
Proof. reflexivity. Qed.

(** ** Version history properties *)

Lemma prune_keeps m h :
  0 <= m -> prune m (map fst h) h = (drop (length h - Z.to_nat m) h, Ok tt).
Proof.
  intros Hm. induction h as [|[i c] t IH]; cbn [map prune fst].
  - replace (m <? zlen (@nil Z)) with false by (rewrite zlen_nil; lia). by rewrite drop_nil.
  - rewrite zlen_cons. destruct (Z.ltb_spec m (1 + zlen (map fst t))) as [L|L].
    + cbn [remove_version]. rewrite Z.eqb_refl, IH. unfold zlen in L. rewrite length_map in L.
      f_equal. simpl length. replace (S (length t) - Z.to_nat m)%nat with (S (length t - Z.to_nat m))%nat by lia. done.
    + unfold zlen in L. rewrite length_map in L. simpl length.
      replace (S (length t) - Z.to_nat m)%nat with 0%nat by lia. done.
Qed.

(** Every configuration ever saved, with the number it got. *)
Definition numbered_configs (cs : list (dict json)) : versions := imap (fun i c => (Z.of_nat i + 1, c)) cs.
Fixpoint saves (m : Z) (cs : list (dict json)) (h : versions) : versions * res (list Z) :=
  match cs with
  | [] => (h, Ok [])
  | c :: t =>
      match save m c h with
      | (h, Ok i) => let '(h, r) := saves m t h in (h, rmap (cons i) r)
      | (h, Raise e) => (h, Raise e)
      end
  end.

Lemma numbered_snoc cs c : numbered_configs (cs ++ [c]) = numbered_configs cs ++ [(Z.of_nat (length cs) + 1, c)].
Proof. unfold numbered_configs. rewrite imap_app. simpl. by rewrite Nat.add_0_r. Qed.
Lemma numbered_length cs : length (numbered_configs cs) = length cs.
Proof. apply length_imap. Qed.

Lemma save_step m cs c :
  1 <= m ->
  save m c (drop (length cs - Z.to_nat m) (numbered_configs cs)) =
  (drop (length (cs ++ [c]) - Z.to_nat m) (numbered_configs (cs ++ [c])), Ok (Z.of_nat (length cs) + 1)).
Proof.
  intros Hm. unfold save, existing_version_ids. set (h := drop _ _).
  assert (match last (map fst h) with Some i => i + 1 | None => 1 end = Z.of_nat (length cs) + 1) as ->.
  { destruct cs as [|d cs' _] using rev_ind; [done|]. subst h. rewrite numbered_snoc, length_app. simpl length.
    rewrite drop_app_le by (rewrite numbered_length; lia). rewrite map_app. cbn [map fst]. rewrite last_snoc. lia. }
  change [Z.of_nat (length cs) + 1] with (map fst [(Z.of_nat (length cs) + 1, c)]). rewrite <- map_app, prune_keeps by lia.
  simpl. f_equal. subst h. rewrite numbered_snoc. rewrite !length_app, length_drop, numbered_length. simpl length.
  destruct (decide (length cs < Z.to_nat m)%nat) as [L|L].
  - replace (length cs - Z.to_nat m)%nat with 0%nat by lia.
    replace (length cs + 1 - Z.to_nat m)%nat with 0%nat by lia. rewrite !drop_0.
    by replace (length cs - 0 + 1 - Z.to_nat m)%nat with 0%nat by lia.
  - replace (length cs - (length cs - Z.to_nat m) + 1 - Z.to_nat m)%nat with 1%nat by lia.
    rewrite <- drop_app_le by (rewrite numbered_length; lia). rewrite drop_drop. f_equal. lia.
Qed.

Lemma saves_keep m cs done_ :
  1 <= m ->
  saves m cs (drop (length done_ - Z.to_nat m) (numbered_configs done_)) =
  (drop (length (done_ ++ cs) - Z.to_nat m) (numbered_configs (done_ ++ cs)),
   Ok (map (fun i => Z.of_nat (length done_ + i) + 1) (seq 0 (length cs)))).
Proof.
  intros Hm. revert done_. induction cs as [|c t IH]; intros done_; [by rewrite app_nil_r|].
  cbn [saves]. rewrite save_step by done. rewrite IH, <- app_assoc. simpl. do 3 f_equal.
  - f_equal. lia.
  - rewrite <- seq_shift, map_map. apply map_ext. intros i. rewrite length_app. simpl. lia.
Qed.

Lemma find_numbered cs i c :
  cs !! i = Some c -> forall k, List.find (fun v => v.1 =? Z.of_nat i + 1) (drop (i - k) (numbered_configs cs)) = Some (Z.of_nat i + 1, c).
Proof.
  intros H k. assert (numbered_configs cs !! i = Some (Z.of_nat i + 1, c)) as L.
  { unfold numbered_configs. by rewrite list_lookup_imap, H. }
  assert (forall j v, numbered_configs cs !! j = Some v -> v.1 = Z.of_nat j + 1) as N.
  { intros j v. unfold numbered_configs. rewrite list_lookup_imap. destruct (cs !! j); simpl; [by intros [= <-]|done]. }
  assert (forall n, (n <= k)%nat -> (n <= i)%nat -> List.find (fun v : Z * dict json => v.1 =? Z.of_nat i + 1)
    (drop (i - n) (numbered_configs cs)) = Some (Z.of_nat i + 1, c)) as G.
  { intros n. induction n as [|n IH]; intros Lk Li.
    - rewrite Nat.sub_0_r, (drop_S _ _ _ L). simpl. by rewrite Z.eqb_refl.
    - destruct (lookup_lt_is_Some_2 (numbered_configs cs) (i - S n)%nat) as [v Hv].
      { apply lookup_lt_Some in L. lia. }
      rewrite (drop_S _ _ _ Hv). simpl. rewrite (N _ _ Hv).
      destruct (Z.eqb_spec (Z.of_nat (i - S n) + 1) (Z.of_nat i + 1)); [lia|].
      replace (S (i - S n)) with (i - n)%nat by lia. apply IH; lia. }
  destruct (decide (k <= i)%nat); [by apply G|]. replace (i - k)%nat with (i - i)%nat by lia. apply G; lia.
Qed.

(** saving configurations one after the other numbers them 1, 2, 3, ...; the history then holds exactly the latest
    [max_versions] of them in order, and loading any of those numbers gives back the configuration saved under it. *)
Theorem history_keeps_latest m cs :
  1 <= m ->
  let h := drop (length cs - Z.to_nat m) (numbered_configs cs) in
  saves m cs [] = (h, Ok (map (fun i => Z.of_nat i + 1) (seq 0 (length cs)))) /\ zlen (list_versions h) <= m /\
  forall i c, cs !! i = Some c -> (length cs - Z.to_nat m <= i)%nat -> load_version (Z.of_nat i + 1) h = Ok c.
Proof.
  intros Hm h. split; [apply (saves_keep m cs [] Hm)|]. split.
  - unfold list_versions, existing_version_ids, h, zlen. rewrite length_map, length_drop, numbered_length. lia.
  - intros i c H L. unfold load_version, h.
    replace (length cs - Z.to_nat m)%nat with (i - (i - (length cs - Z.to_nat m)))%nat by lia. by rewrite (find_numbered _ _ _ H).
Qed.
Lemma history_keeps_latest_witness :
  let cs := [demo_base; demo_overlay; demo_base] in
  let h := drop (length cs - Z.to_nat 2) (numbered_configs cs) in
  saves 2 cs [] = (h, Ok (map (fun i => Z.of_nat i + 1) (seq 0 (length cs)))) /\ zlen (list_versions h) <= 2 /\
  forall i c, cs !! i = Some c -> (length cs - Z.to_nat 2 <= i)%nat -> load_version (Z.of_nat i + 1) h = Ok c.
Proof. apply (history_keeps_latest 2 [demo_base; demo_overlay; demo_base]). lia. Defined.

(** ** Reload *)

Section Reload.
Context (schema_errors : dict json -> list string) (text_of : json -> string).
Context (env secret_file : string -> option string) (max_versions : Z).
Abbreviation reload_ := (reload schema_errors text_of env secret_file max_versions).
Abbreviation rollback_ := (rollback schema_errors text_of env secret_file max_versions).
Abbreviation validate_ := (validate schema_errors text_of).

Lemma apply_config_spec c s s' r :
  apply_config schema_errors text_of env secret_file max_versions c s = (s', r) ->
  match r with
  | Ok _ => validate_ c = Ok tt /\ exists d, resolve_config env secret_file c = Ok d /\ es_store s' = replace d (es_store s)
  | Raise _ => es_store s' = es_store s /\ (es_history s' = es_history s \/ validate_ c = Ok tt)
  end.
Proof.
  unfold apply_config. destruct (validate_ c) as [[]|e]; [|intros [= <- <-]; by auto].
  destruct (save_version _ _ _) as [h [[]|e]]; [|intros [= <- <-]; by auto].
  destruct (resolve_config _ _ c) as [d|e]; intros [= <- <-]; simpl; eauto.
Qed.

(** C39: a reload or rollback is all or nothing for the running configuration: if it raises, the store keeps the data it had
    and no listener is notified (and unless the new configuration had passed validation, the version history is
    unchanged too); if it returns, the store holds the secrets-resolved form of a configuration that passed validation
    and the listeners were notified once. *)
Theorem reload_all_or_nothing f v s s' r :
  reload_ f s = (s', r) \/ rollback_ v s = (s', r) ->
  match r with
  | Raise _ => es_store s' = es_store s /\ (es_history s' = es_history s \/ exists c, validate_ c = Ok tt)
  | Ok _ => exists c d, validate_ c = Ok tt /\ resolve_config env secret_file c = Ok d /\
      store_data (es_store s') = d /\ notified (es_store s') = notified (es_store s) + 1
  end.
Proof.
  assert (forall c, apply_config schema_errors text_of env secret_file max_versions c s = (s', r) ->
    match r with
    | Raise _ => es_store s' = es_store s /\ (es_history s' = es_history s \/ exists c, validate_ c = Ok tt)
    | Ok _ => exists c d, validate_ c = Ok tt /\ resolve_config env secret_file c = Ok d /\
        store_data (es_store s') = d /\ notified (es_store s') = notified (es_store s) + 1
    end) as A.
  { intros c H. apply apply_config_spec in H. destruct r; [|destruct H as [? [?|?]]; eauto].
    destruct H as (V & d & R & ->). by exists c, d. }
  intros [H|H].
  - unfold reload in H. destruct (load_merged f) as [c|e]; [by apply (A c)|]. injection H as <- <-. by auto.
  - unfold rollback in H. destruct (es_history s) as [h|] eqn:E; [|injection H as <- <-; rewrite E; by auto].
    destruct (load_version v h) as [c|e]; [by apply (A c)|]. injection H as <- <-. rewrite E. by auto.
Qed.
End Reload.

Definition demo_files (d : res json) : files := {| base_doc := Ok (JDict demo_base); environment_doc := None; overrides_doc := Some d |}.
Definition demo_engine : engine_state := {| es_store := {| store_data := []; notified := 0 |}; es_history := Some [] |}.
Definition demo_reload : engine_state * res unit := Eval vm_compute in
  reload (fun _ => []) (fun _ => "") (fun _ => None) (fun _ => None) 10 (demo_files (Ok (JDict demo_overlay))) demo_engine.
Lemma reload_all_or_nothing_witness :
  exists c d, validate (fun _ => []) (fun _ => "") c = Ok tt /\ resolve_config (fun _ => None) (fun _ => None) c = Ok d /\
    store_data (es_store demo_reload.1) = d /\ notified (es_store demo_reload.1) = notified (es_store demo_engine) + 1.
Proof.
  apply (reload_all_or_nothing (fun _ => []) (fun _ => "") (fun _ => None) (fun _ => None) 10
           (demo_files (Ok (JDict demo_overlay))) 1 demo_engine demo_reload.1 (Ok tt)).
  left. vm_compute. reflexivity.
Defined.

(** An unresolvable secret makes [reload] raise after the version was recorded. *)
Definition demo_secret : dict json := [("password", JStr "${SECRET:broker-pw}")].
Example unresolved_secret_recorded :
  let r := reload (fun _ => []) (fun _ => "") (fun _ => None) (fun _ => None) 10 (demo_files (Ok (JDict demo_secret))) demo_engine in
  r.2 = Raise SecretResolutionError /\ es_store r.1 = es_store demo_engine /\ option_map list_versions (es_history r.1) = Some [1].
Proof. vm_compute. done. Qed.
(** The history keeps the placeholder while the store has the secret. *)
Example history_keeps_placeholder :
  let r := reload (fun _ => []) (fun _ => "") (fun n => if String.eqb n "BROKER-PW" then Some "s3cret" else None) (fun _ => None) 10
             (demo_files (Ok (JDict demo_secret))) demo_engine in
  get_section "password" JNull (es_store r.1) = JStr "s3cret" /\
  option_map (fun h => map (fun v => get_path ["password"] (JDict v.2)) h) (es_history r.1) =
    Some [Some (JStr "${SECRET:broker-pw}")].
Proof. vm_compute. done. Qed.
Example secrets_inside_text :
  resolve_str (fun n => if String.eqb n "A" then Some "x" else None) (fun n => if String.eqb n "b.c" then Some "y" else None)
    "u=${SECRET:a};v=${SECRET:b.c}$" = Ok "u=x;v=y$".
Proof. vm_compute. reflexivity. Qed.

(** A malformed [assets] section has its schema errors collected, but the
    reference check raises before they are reported. *)
Example malformed_assets_escape :
  validate (fun _ => ["assets/0: 5 is not of type object"]) (fun _ => "") [("assets", JList [JNum (NInt 5)])] = Raise AttributeError.
Proof. vm_compute. reflexivity. Qed.
Example dangling_reference_rejected :
  validate (fun _ => []) (fun _ => "")
    [("drivers", JList [JDict [("id", JStr "plc"); ("tag_groups", JList [JDict [("tags", JList [JDict [("id", JStr "t")]])]])]]);
     ("assets", JList [JDict [("parameters", JList [JDict [("tag_ref", JStr "plc/t")]; JDict [("tag_ref", JStr "plc/u")]])]])]
  = Raise ConfigValidationError.
Proof. vm_compute. reflexivity. Qed.
