(* ===== verification/HotReload.v ===== *)
(** * Driver reconciliation on config reload
    (src/xedge/core/driver_config.py, src/xedge/core/hot_reload.py)

    [apply_driver_changes] as a program over the set of running instances: the
    supervisor's [start] raises for a running instance, [stop] and [disable]
    remove it. *)

From S2P Require Import Prelude PyFloat PyDict Supervisor.
Local Open Scope string_scope.
Local Open Scope list_scope.
Local Open Scope Z_scope.

(** A [drivers[]] entry: the keys the reconciliation reads, and the rest. *)
Record entry := {
  e_id : string;
  e_type : string;
  e_enabled : option bool;
  e_port : option string;
  e_unit_id : option Z;
  e_rest : list (option (list string)) * Z
}.
#[export] Instance entry_eq_dec : EqDecision entry.
Proof. solve_decision. Defined.
Definition is_enabled (e : entry) : bool := default true (e_enabled e).

(** ** Serial slave collisions *)

Definition SHARED_PORT_DRIVER_TYPES : list string := ["modbus_rtu_serial"].
Definition slave_key (e : entry) : option (string * Z) :=
  if bool_decide (e_type e ∉ SHARED_PORT_DRIVER_TYPES) then None
  else if negb (is_enabled e) then None
  else match e_port e, e_unit_id e with Some p, Some u => Some (p, u) | _, _ => None end.
(** [by_slave.setdefault(key, []).append(id)] *)
Fixpoint group_add (k : string * Z) (i : string) (g : list ((string * Z) * list string)) : list ((string * Z) * list string) :=
  match g with
  | [] => [(k, [i])]
  | (k', l) :: t => if decide (k = k') then (k', l ++ [i]) :: t else (k', l) :: group_add k i t
  end.
Definition by_slave (drivers : list entry) : list ((string * Z) * list string) :=
  fold_left (fun g e => match slave_key e with Some k => group_add k (e_id e) g | None => g end) drivers [].
Definition find_duplicate_serial_slave_ids (drivers : list entry) : list ((string * Z) * list string) :=
  List.filter (fun p => 1 <? zlen p.2) (by_slave drivers).
Definition conflicting_serial_instance_ids (drivers : list entry) : list string :=
  concat (map snd (find_duplicate_serial_slave_ids drivers)).

(** ** Building a driver's configuration *)

Section HotReload.
(** Whether a driver type has a schema, and the errors of a section against it. *)
Context (has_schema : string -> bool) (section_errors : entry -> list string).

Definition build_driver_config (e : entry) : res DriverConfig :=
  if negb (has_schema (e_type e)) then Raise ConfigValidationError else
  match section_errors e with
  | [] => Ok {| dc_instance_id := e_id e; dc_driver_type := e_type e; dc_tag_groups := (e_rest e).1 |}
  | _ => Raise ConfigValidationError
  end.

(** ** Reconciliation *)

(** The instances with a task, by id. *)
Abbreviation running := (gmap string DriverConfig).
Definition sup_start (c : DriverConfig) (r : running) : running * res unit :=
  match r !! dc_instance_id c with
  | Some _ => (r, Raise ValueError)
  | None => (<[dc_instance_id c := c]> r, Ok tt)
  end.
Definition sup_stop (i : string) (r : running) : running := delete i r.
Definition sup_disable (i : string) (r : running) : running := sup_stop i r.

(** [{entry["id"]: entry for entry in l}] *)
Definition by_id (l : list entry) : dict entry := fold_left (fun d e => dict_set (e_id e) e d) l [].
Definition enabled_by_id (l : list entry) : dict entry := by_id (List.filter is_enabled l).
Definition disabled_by_id (l : list entry) : dict entry := by_id (List.filter (fun e => negb (is_enabled e)) l).
(** [current.get(id) == entry] *)
Definition unchanged (current : dict entry) (i : string) (e : entry) : bool :=
  bool_decide (dict_get i current = Some e).

(** [for instance_id in list(current): if absent: stop] *)
Definition stop_removed (present : list string) (current : dict entry) (r : running) : running :=
  fold_left (fun r i => if bool_decide (i ∈ present) then r else sup_stop i r) (dict_keys current) r.
(** [for instance_id, entry in disabled_by_id.items()] *)
Definition disable_entries (current disabled : dict entry) (result : dict entry) (r : running) : dict entry * running :=
  fold_left (fun '(result, r) '(i, e) =>
    (dict_set i e result, if unchanged current i e then r else sup_disable i r)) disabled (result, r).
(** A rejected entry: the previous one stays on record, if there was one. *)
Definition keep_previous (current : dict entry) (i : string) (result : dict entry) : dict entry :=
  match dict_get i current with Some e => dict_set i e result | None => dict_del i result end.
(** [for instance_id, entry in enabled_by_id.items()] *)
Fixpoint start_entries (current : dict entry) (conflicting : list string) (enabled result : dict entry) (r : running)
  : running * res (dict entry) :=
  match enabled with
  | [] => (r, Ok result)
  | (i, e) :: t =>
      if unchanged current i e then start_entries current conflicting t result r
      else if bool_decide (i ∈ conflicting) then
        start_entries current conflicting t (keep_previous current i result) r
      else match build_driver_config e with
      | Raise ConfigValidationError => start_entries current conflicting t (keep_previous current i result) r
      | Raise x => (r, Raise x)
      | Ok c =>
          let r := if dict_mem i current then sup_stop i r else r in
          match sup_start c r with
          | (r, Ok _) => start_entries current conflicting t result r
          | (r, Raise x) => (r, Raise x)
          end
      end
  end.
Definition apply_driver_changes (new_drivers : list entry) (current : dict entry) (r : running) : running * res (dict entry) :=
  let enabled := enabled_by_id new_drivers in
  let disabled := disabled_by_id new_drivers in
  let conflicting := conflicting_serial_instance_ids new_drivers in
  let r := stop_removed (dict_keys enabled ++ dict_keys disabled) current r in
  let '(result, r) := disable_entries current disabled enabled r in
  start_entries current conflicting enabled result r.

(** [_start_configured_drivers] and the tracking dictionary built after it
    (src/xedge/core/main.py). *)
Fixpoint start_configured (conflicting : list string) (drivers : list entry) (r : running) : running * res unit :=
  match drivers with
  | [] => (r, Ok tt)
  | e :: t =>
      if negb (is_enabled e) || bool_decide (e_id e ∈ conflicting) then start_configured conflicting t r
      else match build_driver_config e with
      | Raise x => (r, Raise x)
      | Ok c => match sup_start c r with (r, Ok _) => start_configured conflicting t r | (r, Raise x) => (r, Raise x) end
      end
  end.
Definition start_configured_drivers (drivers : list entry) (r : running) : running * res unit :=
  start_configured (conflicting_serial_instance_ids drivers) drivers r.
Definition initial_tracking (drivers : list entry) : dict entry := enabled_by_id drivers.

(** ** Properties *)

(** The entry is accepted: it collides with no other and passes its schema. *)
Definition accepted (new_drivers : list entry) (e : entry) (c : DriverConfig) : Prop :=
  e_id e ∉ conflicting_serial_instance_ids new_drivers /\ build_driver_config e = Ok c.

Lemma build_raise e x : build_driver_config e = Raise x -> x = ConfigValidationError.
Proof. unfold build_driver_config. destruct (negb _); [by intros [= <-]|]. destruct (section_errors e); [done|by intros [= <-]]. Qed.
Lemma build_id e c : build_driver_config e = Ok c -> dc_instance_id c = e_id e.
Proof. unfold build_driver_config. destruct (negb _); [done|]. destruct (section_errors e); [by intros [= <-]|done]. Qed.

Lemma by_id_fold l d :
  NoDup (map e_id l) -> (forall e, e ∈ l -> dict_get (e_id e) d = None) ->
  fold_left (fun d e => dict_set (e_id e) e d) l d = d ++ map (fun e => (e_id e, e)) l.
Proof.
  revert d. induction l as [|e t IH]; intros d N F; simpl; [by rewrite app_nil_r|].
  apply NoDup_cons in N as [N1 N2].
  assert (dict_set (e_id e) e d = d ++ [(e_id e, e)]) as ->.
  { specialize (F e ltac:(by left)). clear -F. induction d as [|[k v] d IH]; simpl in *; [done|].
    case_decide; [done|]. by rewrite IH. }
  rewrite IH, <- app_assoc; [done|done|]. intros e' He'.
  assert (e_id e' <> e_id e) by (intros E; apply N1; rewrite <- E; by apply list_elem_of_fmap_2).
  specialize (F e' ltac:(by right)). clear -F H. induction d as [|[k v] d IH]; simpl in *; [by rewrite decide_False|].
  case_decide; [done|]. by apply IH.
Qed.
Lemma by_id_unique l : NoDup (map e_id l) -> by_id l = map (fun e => (e_id e, e)) l.
Proof. intros N. unfold by_id. by rewrite by_id_fold. Qed.

Lemma nodup_filter_ids (f : entry -> bool) l : NoDup (map e_id l) -> NoDup (map e_id (List.filter f l)).
Proof.
  induction l as [|e t IH]; simpl; [done|]. intros [N1 N2]%NoDup_cons. destruct (f e); [|by apply IH].
  simpl. apply NoDup_cons. split; [|by apply IH]. intros (x & E & [H _]%elem_of_list_filter)%list_elem_of_fmap.
  apply N1. rewrite E. by apply list_elem_of_fmap_2.
Qed.

Lemma stop_removed_lookup (present ks : list string) (r : running) i :
  fold_left (fun (r : running) i => if bool_decide (i ∈ present) then r else sup_stop i r) ks r !! i =
  if bool_decide (i ∈ ks) && negb (bool_decide (i ∈ present)) then None else r !! i.
Proof.
  revert r. induction ks as [|k t IH]; intros r; simpl; [done|]. rewrite IH.
  destruct (decide (i = k)) as [->|N].
  - rewrite (bool_decide_true (k ∈ k :: t)) by (by left). simpl.
    destruct (bool_decide (k ∈ present)); simpl; [by rewrite andb_false_r|].
    unfold sup_stop. rewrite lookup_delete_eq. by destruct (_ && _).
  - assert (bool_decide (i ∈ k :: t) = bool_decide (i ∈ t)) as ->.
    { apply bool_decide_ext. rewrite elem_of_cons. naive_solver. }
    destruct (_ && _); [done|]. destruct (bool_decide (k ∈ present)); [done|]. unfold sup_stop.
    by rewrite lookup_delete_ne.
Qed.
Lemma stop_removed_spec present current r i :
  stop_removed present current r !! i =
  if bool_decide (i ∈ dict_keys current) && negb (bool_decide (i ∈ present)) then None else r !! i.
Proof. apply stop_removed_lookup. Qed.

Section Reconcile.
Context (current : dict entry) (conflicting : list string).
(** What the last loop decides for an enabled entry: the instance runs with a
    new configuration, or stays as it was. *)
Definition decision (i : string) (e : entry) : option DriverConfig :=
  if unchanged current i e then None
  else if bool_decide (i ∈ conflicting) then None
  else match build_driver_config e with Ok c => Some c | Raise _ => None end.
Definition next_running (i : string) (e : entry) (old : option DriverConfig) : option DriverConfig :=
  match decision i e with Some c => Some c | None => old end.
Definition next_tracked (i : string) (e : entry) : option entry :=
  if unchanged current i e then Some e else match decision i e with Some _ => Some e | None => dict_get i current end.

Lemma start_entries_spec en result r :
  NoDup (dict_keys en) -> dict_wf result -> (forall i e, (i, e) ∈ en -> i = e_id e /\ dict_get i result = Some e) ->
  (forall i, i ∈ dict_keys en -> is_Some (r !! i) -> is_Some (dict_get i current)) ->
  exists r' res', start_entries current conflicting en result r = (r', Ok res') /\ dict_wf res' /\
    (forall i, i ∉ dict_keys en -> r' !! i = r !! i /\ dict_get i res' = dict_get i result) /\
    (forall i e, (i, e) ∈ en -> r' !! i = next_running i e (r !! i) /\ dict_get i res' = next_tracked i e).
Proof.
  revert result r. induction en as [|[i e] t IH]; intros result r N W F T.
  { exists r, result. do 3 (split; [done|]). intros i e H. by inversion H. }
  cbn [dict_keys map fst] in *. apply NoDup_cons in N as [N1 N2].
  destruct (F i e ltac:(by left)) as [Ei Ge].
  (* one entry handled, leaving (r1, result1), which differ from (r, result) at i only *)
  assert (forall r1 result1, dict_wf result1 ->
    (forall j, j <> i -> r1 !! j = r !! j /\ dict_get j result1 = dict_get j result) ->
    r1 !! i = next_running i e (r !! i) -> dict_get i result1 = next_tracked i e ->
    exists r' res', start_entries current conflicting t result1 r1 = (r', Ok res') /\ dict_wf res' /\
      (forall j, j ∉ i :: dict_keys t -> r' !! j = r !! j /\ dict_get j res' = dict_get j result) /\
      (forall j e', (j, e') ∈ (i, e) :: t -> r' !! j = next_running j e' (r !! j) /\ dict_get j res' = next_tracked j e')) as STEP.
  { intros r1 result1 W1 D R1 G1.
    assert (forall j e', (j, e') ∈ t -> j <> i) as NE.
    { intros j e' H ->. apply N1. apply list_elem_of_fmap. by exists (i, e'). }
    destruct (IH result1 r1) as (r' & res' & -> & W' & O & I); [done|done| | |].
    - intros j e' H. destruct (F j e' ltac:(by right)) as [? G]. split; [done|]. by rewrite (proj2 (D j (NE _ _ H))).
    - intros j H S. assert (j <> i) by (by intros ->). rewrite (proj1 (D j ltac:(done))) in S. apply T; [by right|done].
    - exists r', res'. repeat split; try done.
      + apply not_elem_of_cons in H as [H1 H2]. rewrite (proj1 (O j H2)). by apply D.
      + apply not_elem_of_cons in H as [H1 H2]. rewrite (proj2 (O j H2)). by apply D.
      + apply elem_of_cons in H as [[= -> ->]|H]; [by rewrite (proj1 (O i N1))|].
        rewrite (proj1 (I j e' H)). by rewrite (proj1 (D j (NE _ _ H))).
      + apply elem_of_cons in H as [[= -> ->]|H]; [by rewrite (proj2 (O i N1))|]. by apply I. }
  cbn [start_entries]. destruct (unchanged current i e) eqn:U.
  { apply STEP; [done..| |]; unfold next_running, next_tracked, decision; by rewrite U. }
  assert (forall j, j <> i -> dict_get j (keep_previous current i result) = dict_get j result) as KO.
  { intros j Hj. unfold keep_previous. destruct (dict_get i current).
    - by rewrite dict_get_set_ne.
    - by rewrite dict_get_del, decide_False. }
  assert (dict_get i (keep_previous current i result) = dict_get i current) as KI.
  { unfold keep_previous. destruct (dict_get i current) eqn:C; [by rewrite dict_get_set_eq|]. by rewrite dict_get_del, decide_True. }
  assert (dict_wf (keep_previous current i result)) as KW.
  { unfold keep_previous. destruct (dict_get i current); [by apply dict_wf_set|by apply dict_wf_del]. }
  assert (decision i e = None -> exists r' res',
    start_entries current conflicting t (keep_previous current i result) r = (r', Ok res') /\ dict_wf res' /\
      (forall j, j ∉ i :: dict_keys t -> r' !! j = r !! j /\ dict_get j res' = dict_get j result) /\
      (forall j e', (j, e') ∈ (i, e) :: t -> r' !! j = next_running j e' (r !! j) /\ dict_get j res' = next_tracked j e')) as KEEP.
  { intros D. apply STEP; [done|auto| |]; unfold next_running, next_tracked; by rewrite ?U, D. }
  destruct (bool_decide (i ∈ conflicting)) eqn:B; [apply KEEP; unfold decision; by rewrite U, B|].
  destruct (build_driver_config e) as [c|x] eqn:Bd;
    [|apply build_raise in Bd as E; subst x; apply KEEP; unfold decision; by rewrite U, B, Bd].
  assert (decision i e = Some c) as D by (unfold decision; by rewrite U, B, Bd).
  assert (dc_instance_id c = i) as Ec by (by rewrite (build_id _ _ Bd)).
  set (r1 := if dict_mem i current then sup_stop i r else r).
  assert (r1 !! i = None) as Hn.
  { unfold r1, dict_mem. destruct (dict_get i current) eqn:C; [apply lookup_delete_eq|].
    destruct (r !! i) eqn:Hr; [|done]. destruct (T i ltac:(by left) ltac:(by eexists)). congruence. }
  unfold sup_start. rewrite Ec, Hn. apply STEP; [done| | |].
  - intros j Hj. split; [|done]. rewrite lookup_insert_ne by done. unfold r1. destruct (dict_mem i current); [|done].
    unfold sup_stop. by rewrite lookup_delete_ne.
  - unfold next_running. by rewrite D, lookup_insert_eq.
  - unfold next_tracked. by rewrite U, D.
Qed.
End Reconcile.

Lemma disable_entries_spec current l result r i :
  NoDup (map e_id l) ->
  let '(result', r') := disable_entries current (map (fun e => (e_id e, e)) l) result r in
  dict_get i result' = match List.find (fun e => String.eqb (e_id e) i) l with Some e => Some e | None => dict_get i result end /\
  r' !! i = match List.find (fun e => String.eqb (e_id e) i) l with
            | Some e => if unchanged current i e then r !! i else None | None => r !! i end /\
  (dict_wf result -> dict_wf result').
Proof.
  unfold disable_entries. revert result r. induction l as [|e t IH]; intros result r N; [done|].
  apply NoDup_cons in N as [N1 N2]. cbn [map fold_left].
  specialize (IH (dict_set (e_id e) e result) (if unchanged current (e_id e) e then r else sup_disable (e_id e) r) N2).
  destruct (fold_left _ _ _) as [result' r']. destruct IH as (G & R & W). cbn [List.find].
  destruct (String.eqb_spec (e_id e) i) as [<-|Ne].
  - assert (List.find (fun x => String.eqb (e_id x) (e_id e)) t = None) as E.
    { destruct (List.find _ t) as [x|] eqn:F; [|done]. apply List.find_some in F as [F1 F2%String.eqb_eq].
      destruct N1. rewrite <- F2. by apply list_elem_of_fmap_2, list_elem_of_In. }
    rewrite E in G, R. rewrite G, R, dict_get_set_eq. split; [done|]. split; [|intros; apply W; auto with xedge].
    destruct (unchanged current (e_id e) e); [done|]. apply lookup_delete_eq.
  - rewrite G, R. rewrite dict_get_set_ne by congruence. split; [done|]. split; [|intros; apply W; auto with xedge].
    assert ((if unchanged current (e_id e) e then r else sup_disable (e_id e) r) !! i = r !! i) as ->; [|done].
    destruct (unchanged _ _ _); [done|]. unfold sup_disable, sup_stop. by rewrite lookup_delete_ne.
Qed.

Lemma find_entry l e : NoDup (map e_id l) -> e ∈ l -> List.find (fun x => String.eqb (e_id x) (e_id e)) l = Some e.
Proof.
  induction l as [|x t IH]; intros N H; [by inversion H|]. apply NoDup_cons in N as [N1 N2]. simpl.
  apply elem_of_cons in H as [->|H]; [by rewrite String.eqb_refl|].
  destruct (String.eqb_spec (e_id x) (e_id e)) as [E|]; [|by apply IH]. destruct N1. rewrite E. by apply list_elem_of_fmap_2.
Qed.
Lemma find_none l i : (forall e, e ∈ l -> e_id e <> i) -> List.find (fun x => String.eqb (e_id x) i) l = None.
Proof.
  intros H. destruct (List.find _ l) as [x|] eqn:F; [|done]. apply List.find_some in F as [F1 F2%String.eqb_eq].
  apply list_elem_of_In in F1. by destruct (H x).
Qed.
Lemma dict_get_map l i : dict_get i (map (fun e => (e_id e, e)) l) = List.find (fun e => String.eqb (e_id e) i) l.
Proof.
  induction l as [|e t IH]; simpl; [done|]. destruct (String.eqb_spec (e_id e) i) as [<-|N]; [by rewrite decide_True|].
  rewrite decide_False by congruence. done.
Qed.
Lemma dict_keys_map l : dict_keys (map (fun e => (e_id e, e)) l) = map e_id l.
Proof. unfold dict_keys. by rewrite map_map. Qed.

(** Every running instance is tracked, with an enabled entry. *)
Definition tracks (current : dict entry) (r : running) : Prop :=
  forall i c, r !! i = Some c -> exists e, dict_get i current = Some e /\ is_enabled e = true.

(** *** The phases of a reconciliation *)
Section Phases.
Context (new_drivers : list entry) (current : dict entry) (r : running).
Context (N : NoDup (map e_id new_drivers)) (T : tracks current r).

Definition ens : list entry := List.filter is_enabled new_drivers.
Definition dis : list entry := List.filter (fun e => negb (is_enabled e)) new_drivers.
Definition keyed (l : list entry) : dict entry := map (fun e => (e_id e, e)) l.

Lemma elem_ens e : e ∈ ens <-> e ∈ new_drivers /\ is_enabled e = true.
Proof. apply elem_of_list_filter. Qed.
Lemma elem_dis e : e ∈ dis <-> e ∈ new_drivers /\ is_enabled e = false.
Proof. unfold dis. by rewrite elem_of_list_filter, negb_true_iff. Qed.
Lemma entry_unique e e' : e ∈ new_drivers -> e' ∈ new_drivers -> e_id e = e_id e' -> e = e'.
Proof. intros H H' E. pose proof (find_entry _ _ N H) as F. rewrite E, (find_entry _ _ N H') in F. congruence. Qed.
Lemma ens_not_dis e e' : e ∈ ens -> e' ∈ dis -> e_id e' <> e_id e.
Proof.
  intros [H1 H2]%elem_ens [H1' H2']%elem_dis E. rewrite (entry_unique e' e) in H2' by done. congruence.
Qed.
Lemma nodup_ens : NoDup (map e_id ens).
Proof. by apply nodup_filter_ids. Qed.
Lemma nodup_dis : NoDup (map e_id dis).
Proof. by apply nodup_filter_ids. Qed.

(** After the removed instances are stopped. *)
Definition after_stops : running := stop_removed (map e_id ens ++ map e_id dis) current r.
Lemma after_stops_lookup i :
  after_stops !! i = if bool_decide (i ∈ map e_id ens ++ map e_id dis) then r !! i else None.
Proof.
  unfold after_stops. rewrite stop_removed_spec.
  destruct (bool_decide (i ∈ map e_id ens ++ map e_id dis)); [by rewrite andb_false_r|].
  destruct (bool_decide (i ∈ dict_keys current)) eqn:K; [done|]. simpl. destruct (r !! i) as [c|] eqn:E; [|done].
  apply T in E as (e & E & _). apply bool_decide_eq_false in K. destruct K. apply dict_get_elem. by eexists.
Qed.

(** After the disabled instances are stopped. *)
Definition after_disables : dict entry * running := disable_entries current (keyed dis) (keyed ens) after_stops.
Lemma after_disables_spec i :
  dict_get i after_disables.1 = match List.find (fun e => String.eqb (e_id e) i) dis with
    | Some e => Some e | None => List.find (fun e => String.eqb (e_id e) i) ens end /\
  after_disables.2 !! i = match List.find (fun e => String.eqb (e_id e) i) dis with
    | Some e => if unchanged current i e then after_stops !! i else None | None => after_stops !! i end /\
  dict_wf after_disables.1.
Proof.
  pose proof (disable_entries_spec current dis (keyed ens) after_stops i nodup_dis) as S. fold (keyed dis) in S.
  unfold after_disables. destruct (disable_entries _ _ _ _) as [result r2]. destruct S as (S1 & S2 & S3).
  unfold keyed in S1. rewrite dict_get_map in S1. split; [done|]. split; [done|]. apply S3.
  unfold dict_wf, keyed. rewrite dict_keys_map. apply nodup_ens.
Qed.
Lemma disabled_stopped e : e ∈ dis -> after_disables.2 !! e_id e = None /\ dict_get (e_id e) after_disables.1 = Some e.
Proof.
  intros He. destruct (after_disables_spec (e_id e)) as (-> & -> & _). rewrite (find_entry _ _ nodup_dis He). split; [|done].
  destruct (unchanged current (e_id e) e) eqn:U; [|done]. apply bool_decide_eq_true in U. rewrite after_stops_lookup.
  destruct (bool_decide _); [|done]. destruct (r !! e_id e) as [c|] eqn:E; [|done].
  apply T in E as (e' & E & En). rewrite U in E. injection E as <-. apply elem_dis in He as [_ He]. congruence.
Qed.
Lemma others_untouched i :
  (forall e, e ∈ dis -> e_id e <> i) ->
  after_disables.2 !! i = after_stops !! i /\
  dict_get i after_disables.1 = List.find (fun e => String.eqb (e_id e) i) ens.
Proof. intros H. destruct (after_disables_spec i) as (-> & -> & _). by rewrite (find_none dis). Qed.

(** After the last loop. *)
Lemma reconciled :
  exists r' cur', apply_driver_changes new_drivers current r = (r', Ok cur') /\
    (forall i, (forall e, e ∈ new_drivers -> e_id e <> i) -> r' !! i = None /\ dict_get i cur' = None) /\
    (forall e, e ∈ new_drivers -> is_enabled e = false -> r' !! e_id e = None /\ dict_get (e_id e) cur' = Some e) /\
    (forall e, e ∈ new_drivers -> is_enabled e = true ->
       r' !! e_id e = next_running current (conflicting_serial_instance_ids new_drivers) (e_id e) e (r !! e_id e) /\
       dict_get (e_id e) cur' = next_tracked current (conflicting_serial_instance_ids new_drivers) (e_id e) e).
Proof.
  set (conf := conflicting_serial_instance_ids new_drivers).
  assert (forall e, e ∈ ens -> after_disables.2 !! e_id e = r !! e_id e) as EnR.
  { intros e He. rewrite (proj1 (others_untouched (e_id e) (fun e' => ens_not_dis e e' He))), after_stops_lookup.
    rewrite bool_decide_true; [done|]. apply elem_of_app. left. by apply list_elem_of_fmap_2. }
  destruct (start_entries_spec current conf (keyed ens) after_disables.1 after_disables.2) as (r' & cur' & E & _ & O & I).
  { unfold keyed. rewrite dict_keys_map. apply nodup_ens. }
  { apply (after_disables_spec ""). }
  { intros i e (x & [= -> ->] & Hx)%list_elem_of_fmap. split; [done|].
    rewrite (proj2 (others_untouched (e_id x) (fun e' => ens_not_dis x e' Hx))). by apply find_entry; [apply nodup_ens|]. }
  { intros i Hi [c S]. unfold keyed in Hi. rewrite dict_keys_map in Hi. apply list_elem_of_fmap in Hi as (e & -> & He).
    rewrite EnR in S by done. apply T in S as (e' & -> & _). by eexists. }
  exists r', cur'. split.
  { unfold apply_driver_changes, enabled_by_id, disabled_by_id. fold ens dis.
    rewrite (by_id_unique ens), (by_id_unique dis), !dict_keys_map by (apply nodup_ens || apply nodup_dis).
    fold (keyed ens) (keyed dis) after_stops. rewrite <- E. unfold after_disables. by destruct (disable_entries _ _ _ _). }
  assert (forall i, (forall e, e ∈ ens -> e_id e <> i) -> i ∉ dict_keys (keyed ens)) as OUT.
  { intros i H. unfold keyed. rewrite dict_keys_map. intros (x & -> & Hx)%list_elem_of_fmap. by apply (H x). }
  split; [|split].
  - intros i H. destruct (O i) as [-> ->]; [apply OUT; intros e [He _]%elem_ens; by apply H|].
    destruct (others_untouched i) as [-> ->]; [intros e [He _]%elem_dis; by apply H|].
    rewrite after_stops_lookup, find_none by (intros e [He _]%elem_ens; by apply H). split; [|done].
    rewrite bool_decide_false; [done|]. rewrite elem_of_app, !list_elem_of_fmap.
    intros [(x & -> & [Hx _]%elem_ens)|(x & -> & [Hx _]%elem_dis)]; by apply (H x).
  - intros e He Hd. assert (e ∈ dis) as Hdi by (by apply elem_dis). destruct (O (e_id e)) as [-> ->]; [|by apply disabled_stopped].
    apply OUT. intros x Hx. pose proof (ens_not_dis x e Hx Hdi). congruence.
  - intros e He Hen. assert (e ∈ ens) as Hin by (by apply elem_ens).
    destruct (I (e_id e) e) as [-> ->]; [apply list_elem_of_fmap; by exists e|]. by rewrite EnR.
Qed.

Lemma decision_accepted e c :
  decision current (conflicting_serial_instance_ids new_drivers) (e_id e) e = Some c <->
  dict_get (e_id e) current <> Some e /\ accepted new_drivers e c.
Proof.
  unfold decision, accepted, unchanged. destruct (bool_decide (dict_get _ _ = _)) eqn:U; bool_simpl; [naive_solver|].
  destruct (bool_decide (_ ∈ conflicting_serial_instance_ids _)) eqn:B; bool_simpl; [naive_solver|].
  destruct (build_driver_config e); naive_solver.
Qed.
End Phases.

(** C6: reconciling the running instances with a new list of drivers (unique ids) never raises. Afterwards an instance that
    is absent from the list or disabled does not run; an enabled one whose entry did not change is left exactly as it
    was; one whose entry changed runs with the new configuration if the entry is valid and collides with no other serial
    slave, and is otherwise left as it was with its previous entry still on record. *)
Theorem reload_reconciles new_drivers current r :
  NoDup (map e_id new_drivers) -> tracks current r ->
  exists r' current', apply_driver_changes new_drivers current r = (r', Ok current') /\ tracks current' r' /\
    (forall i, (forall e, e ∈ new_drivers -> e_id e <> i) -> r' !! i = None /\ dict_get i current' = None) /\
    (forall e, e ∈ new_drivers -> is_enabled e = false -> r' !! e_id e = None /\ dict_get (e_id e) current' = Some e) /\
    (forall e, e ∈ new_drivers -> is_enabled e = true -> dict_get (e_id e) current = Some e ->
       r' !! e_id e = r !! e_id e /\ dict_get (e_id e) current' = Some e) /\
    (forall e c, e ∈ new_drivers -> is_enabled e = true -> dict_get (e_id e) current <> Some e -> accepted new_drivers e c ->
       r' !! e_id e = Some c /\ dict_get (e_id e) current' = Some e) /\
    (forall e, e ∈ new_drivers -> is_enabled e = true -> dict_get (e_id e) current <> Some e ->
       (forall c, ~ accepted new_drivers e c) ->
       r' !! e_id e = r !! e_id e /\ dict_get (e_id e) current' = dict_get (e_id e) current).
Proof.
  intros N T. destruct (reconciled new_drivers current r N T) as (r' & cur' & E & ABS & DIS & EN).
  pose proof (decision_accepted new_drivers current) as DEC. set (conf := conflicting_serial_instance_ids new_drivers) in *.
  exists r', cur'. split; [done|]. split; [|split; [done|split; [done|]]].
  - intros i c Hc. destruct (List.find (fun e => String.eqb (e_id e) i) new_drivers) as [e|] eqn:F.
    + apply List.find_some in F as [F1%list_elem_of_In F2%String.eqb_eq]. subst i.
      destruct (is_enabled e) eqn:En; [|destruct (DIS e F1 En); congruence].
      destruct (EN e F1 En) as [R2 C2]. rewrite C2. unfold next_running, next_tracked in *.
      destruct (unchanged current (e_id e) e); [by eauto|].
      destruct (decision current conf (e_id e) e); [by eauto|]. rewrite R2 in Hc. by apply T in Hc.
    + destruct (ABS i) as [A _]; [|congruence]. intros e He <-. by rewrite (find_entry _ _ N He) in F.
  - split; [|split].
    + intros e He En U. destruct (EN e He En) as [-> ->]. unfold next_running, next_tracked, decision, unchanged.
      by rewrite bool_decide_true.
    + intros e c He En U A. destruct (EN e He En) as [-> ->]. unfold next_running, next_tracked.
      rewrite (proj2 (DEC e c)) by done. by destruct (unchanged _ _ _).
    + intros e He En U A. destruct (EN e He En) as [-> ->]. unfold next_running, next_tracked, unchanged.
      rewrite (bool_decide_false (dict_get _ _ = _)) by done.
      destruct (decision current conf (e_id e) e) eqn:D; [|done]. apply DEC in D as [_ D]. by destruct (A d).
Qed.
End HotReload.

(** ** The supervisor implements the running set *)

(** The instances with a task are those of [r]. *)
Definition runs (s : DriverSupervisor) (r : gmap string DriverConfig) : Prop :=
  forall i, is_Some (dict_get i (tasks s)) <-> is_Some (r !! i).

Lemma start_refines clock c s r s' x :
  runs s r -> start_driver clock c s = (s', x) -> (sup_start c r).2 = x /\ runs s' (sup_start c r).1.
Proof.
  intros R. unfold start_driver, sup_start, dict_mem. pose proof (R (dc_instance_id c)) as Rc.
  destruct (dict_get (dc_instance_id c) (tasks s)) eqn:G; intros [= <- <-].
  - destruct (r !! dc_instance_id c); [done|]. by destruct Rc as [[? Hc] _].
  - destruct (r !! dc_instance_id c) eqn:H; [by destruct Rc as [_ [? Hc]]|]. split; [done|]. intros i. cbn [tasks fst].
    rewrite dict_get_set, lookup_insert. case_decide as D1; [subst; by rewrite decide_True|].
    rewrite decide_False by congruence. apply R.
Qed.
Lemma stop_refines i s r : dict_wf (tasks s) -> runs s r -> runs (stop_begin i s).2 (sup_stop i r).
Proof.
  intros W R j. unfold stop_begin, sup_stop. pose proof (R i) as Ri.
  destruct (dict_get i (tasks s)) eqn:G; cbn [snd tasks].
  - rewrite dict_get_del, lookup_delete by done. destruct (decide (j = i)) as [->|D]; [by rewrite decide_True|].
    rewrite decide_False by congruence. apply R.
  - rewrite lookup_delete. case_decide as D; [subst; rewrite G; split; by intros [? ?]|]. apply R.
Qed.

(** ** Witnesses and traces *)

Definition demo_entry (i ty : string) (en : option bool) (unit : Z) (rev : Z) : entry :=
  {| e_id := i; e_type := ty; e_enabled := en; e_port := Some "/dev/ttyUSB0"; e_unit_id := Some unit; e_rest := ([], rev) |}.
Definition demo_old : list entry := [demo_entry "a" "modbus_tcp" None 1 0; demo_entry "b" "modbus_tcp" None 2 0].
Definition demo_new : list entry :=
  [demo_entry "a" "modbus_tcp" None 1 1; demo_entry "c" "modbus_tcp" (Some false) 3 0; demo_entry "d" "modbus_tcp" None 4 0].
Definition no_errors (_ : entry) : list string := [].
Definition all_types (_ : string) : bool := true.
Definition demo_started_drivers : gmap string DriverConfig := (start_configured_drivers all_types no_errors demo_old ∅).1.

Lemma reload_reconciles_witness :
  exists r' current', apply_driver_changes all_types no_errors demo_new (initial_tracking demo_old) demo_started_drivers = (r', Ok current') /\
    tracks current' r' /\
    (forall i, (forall e, e ∈ demo_new -> e_id e <> i) -> r' !! i = None /\ dict_get i current' = None) /\
    (forall e, e ∈ demo_new -> is_enabled e = false -> r' !! e_id e = None /\ dict_get (e_id e) current' = Some e) /\
    (forall e, e ∈ demo_new -> is_enabled e = true -> dict_get (e_id e) (initial_tracking demo_old) = Some e ->
       r' !! e_id e = demo_started_drivers !! e_id e /\ dict_get (e_id e) current' = Some e) /\
    (forall e c, e ∈ demo_new -> is_enabled e = true -> dict_get (e_id e) (initial_tracking demo_old) <> Some e ->
       accepted all_types no_errors demo_new e c -> r' !! e_id e = Some c /\ dict_get (e_id e) current' = Some e) /\
    (forall e, e ∈ demo_new -> is_enabled e = true -> dict_get (e_id e) (initial_tracking demo_old) <> Some e ->
       (forall c, ~ accepted all_types no_errors demo_new e c) ->
       r' !! e_id e = demo_started_drivers !! e_id e /\
       dict_get (e_id e) current' = dict_get (e_id e) (initial_tracking demo_old)).
Proof.
  apply (reload_reconciles all_types no_errors demo_new (initial_tracking demo_old) demo_started_drivers).
  - apply (bool_decide_unpack _). vm_compute. exact I.
  - intros i c H.
    assert (demo_started_drivers = list_to_map [("a", Build_DriverConfig "a" "modbus_tcp" []); ("b", Build_DriverConfig "b" "modbus_tcp" [])]) as E
      by (vm_compute; reflexivity).
    rewrite E in H. simpl in H. rewrite !lookup_insert_Some in H.
    destruct H as [[<- _]|[_ [[<- _]|[_ H]]]]; [eexists; split; reflexivity|eexists; split; reflexivity|].
    rewrite lookup_empty in H. discriminate H.
Defined.

(** Two serial instances that collide at startup are not started but tracked;
    when one is removed from the file the other counts as unchanged and stays
    stopped. *)
Definition demo_collision : list entry := [demo_entry "x" "modbus_rtu_serial" None 7 0; demo_entry "y" "modbus_rtu_serial" None 7 0].
Example collision_at_startup_never_started :
  let r := (start_configured_drivers all_types no_errors demo_collision ∅).1 in
  let after := apply_driver_changes all_types no_errors [demo_entry "x" "modbus_rtu_serial" None 7 0] (initial_tracking demo_collision) r in
  r = ∅ /\ conflicting_serial_instance_ids [demo_entry "x" "modbus_rtu_serial" None 7 0] = [] /\ after.1 = ∅.
Proof. vm_compute. done. Qed.
