(* ===== verification/MainPipeline.v ===== *)
(** * The pipeline consumer (src/xedge/core/main.py, src/xedge/store/latest_values.py)

    [_pipeline_to_buffer] takes one update from the queue, normalises it, runs
    the alarm engine, records the latest value, applies the deadband and pushes
    what survives into its stream's ring buffer, waiting while an alarm-tier
    buffer is full.  The OPC UA server and tracing are left out. *)

From Stdlib Require Import Floats.SpecFloat.
From S2P Require Import Prelude PyBytes PyFloat PyDict Pipeline PyTime Alarms RingBuffer Supervisor.
Local Open Scope string_scope.
Local Open Scope list_scope.
Local Open Scope Z_scope.

(** ** Latest values *)

Abbreviation LatestValueStore := (dict UnifiedTag).
Definition latest_update (tag : UnifiedTag) (d : LatestValueStore) : LatestValueStore := dict_set (tag_id tag) tag d.
Definition latest_get (tid : string) (d : LatestValueStore) : option UnifiedTag := dict_get tid d.
Definition for_driver (instance_id : string) (d : LatestValueStore) : list UnifiedTag :=
  map snd (List.filter (fun p => String.prefix (instance_id ++ "/") p.1) d).

(** ** Driver registry *)

Definition driver_types : list string :=
  ["modbus_tcp"; "modbus_rtu_tcp"; "modbus_rtu_serial"; "opcua_client"; "bacnet_ip"; "bacnet_mstp"; "ethernet_ip";
   "mqtt_subscriber"; "snmp_client"; "snmp_trap_receiver"; "loopback"].
Definition build_registry : res DriverRegistry :=
  fold_left (fun r t => let* reg := r in register t reg) driver_types (Ok (∅ : gset string)).

(** ** Tag ids and initial values for the OPC UA server *)

Definition SYSTEM_TAG_NAMES : list string :=
  ["status"; "status_time"; "tag_count"; "reads_per_second"; "reads_per_minute"; "reads_per_hour"; "error_count";
   "consecutive_failures"; "uptime_seconds"; "connectivity_state"].
Definition system_tag_id (instance_id name : string) : string := (instance_id ++ "/_system/" ++ name)%string.
Record ModbusTagEntry := { mt_id : string; mt_function_code : option string; mt_scaled : bool }.
Record DriverEntry := { de_id : string; de_type : option string; de_tag_groups : option (list (option (list ModbusTagEntry))) }.
Definition entry_tags (d : DriverEntry) : list ModbusTagEntry := concat (map (default []) (default [] (de_tag_groups d))).
Definition all_tag_ids (drivers : list DriverEntry) : gset string :=
  list_to_set (concat (map (fun d => map (fun t => de_id d ++ "/" ++ mt_id t)%string (entry_tags d)) drivers)) ∪
  list_to_set (concat (map (fun d => map (system_tag_id (de_id d)) SYSTEM_TAG_NAMES) drivers)).
Definition MODBUS_DRIVER_TYPES : list string := ["modbus_tcp"; "modbus_rtu_tcp"; "modbus_rtu_serial"].
Definition MODBUS_BIT_FUNCTION_CODES : list string := ["read_coils"; "read_discrete_inputs"].
Definition SYSTEM_TAG_INITIAL_VALUES (name : string) : TagValue :=
  if bool_decide (name ∈ ["status"; "status_time"]) then VStr ""
  else if bool_decide (name ∈ ["tag_count"; "error_count"; "consecutive_failures"]) then VInt 0
  else if String.eqb name "connectivity_state" then VStr "unknown" else VFloat fzero.
Definition opt_in (o : option string) (l : list string) : bool := match o with Some s => bool_decide (s ∈ l) | None => false end.
Definition tag_initial_value (t : ModbusTagEntry) : TagValue :=
  if opt_in (mt_function_code t) MODBUS_BIT_FUNCTION_CODES then VBool false
  else if negb (mt_scaled t) then VInt 0 else VFloat fzero.
Definition infer_driver_values (values : dict TagValue) (d : DriverEntry) : dict TagValue :=
  let values := fold_left (fun vs n => dict_set (system_tag_id (de_id d) n) (SYSTEM_TAG_INITIAL_VALUES n) vs) SYSTEM_TAG_NAMES values in
  if opt_in (de_type d) MODBUS_DRIVER_TYPES then
    fold_left (fun vs t => dict_set (de_id d ++ "/" ++ mt_id t)%string (tag_initial_value t) vs) (entry_tags d) values
  else values.
Definition infer_tag_initial_values (drivers : list DriverEntry) : dict TagValue := fold_left infer_driver_values drivers [].

(** ** The consumer *)

Section Consumer.
Context {S : Type} (on_evict : option (string -> UnifiedTag -> S -> S * res unit)).
Context (tag_configs : dict TagPipelineConfig).

Record consumer := {
  p_filter : DeadbandFilter;
  p_alarms : option AlarmEngine;
  p_latest : LatestValueStore;
  p_ring : RingBufferManager;
  p_cold : S;
  (** the push in progress, retried while its buffer is full *)
  p_pending : option (string * UnifiedTag * bool);
  p_dead : option exn
}.
Definition set_pending (p : option (string * UnifiedTag * bool)) (c : consumer) : consumer :=
  {| p_filter := p_filter c; p_alarms := p_alarms c; p_latest := p_latest c; p_ring := p_ring c; p_cold := p_cold c;
     p_pending := p; p_dead := p_dead c |}.
Definition die (e : exn) (c : consumer) : consumer :=
  {| p_filter := p_filter c; p_alarms := p_alarms c; p_latest := p_latest c; p_ring := p_ring c; p_cold := p_cold c;
     p_pending := None; p_dead := Some e |}.

(** [stream_key] *)
Definition is_alarm_tier (a : option AlarmEngine) (tag : UnifiedTag) : bool :=
  match a with Some e => has_rule e (tag_id tag) | None => false end.
Definition stream_key (a : option AlarmEngine) (tag : UnifiedTag) : string :=
  if is_alarm_tier a tag then (source_driver tag ++ ALARM_STREAM_KEY_SUFFIX)%string else source_driver tag.

(** From [queue.get()] to the push: an exception leaves the loop and ends the task. *)
Definition process (update : TagUpdate) (c : consumer) : consumer :=
  let config := dict_get (tu_tag_id update) tag_configs in
  match normalize update config with
  | Raise e => die e c
  | Ok tag =>
      let '(alarms, r) := match p_alarms c with
        | None => (None, Ok tag)
        | Some a => let '(a, r) := evaluate a tag in (Some a, r) end in
      let c := {| p_filter := p_filter c; p_alarms := alarms; p_latest := p_latest c; p_ring := p_ring c;
                  p_cold := p_cold c; p_pending := None; p_dead := p_dead c |} in
      match r with
      | Raise e => die e c
      | Ok tag =>
          let c := {| p_filter := p_filter c; p_alarms := alarms; p_latest := latest_update tag (p_latest c);
                      p_ring := p_ring c; p_cold := p_cold c; p_pending := None; p_dead := p_dead c |} in
          match should_publish (p_filter c) tag (match config with Some cf => pc_deadband cf | None => None end) with
          | Raise e => die e c
          | Ok (publish, flt) =>
              {| p_filter := flt; p_alarms := alarms; p_latest := p_latest c; p_ring := p_ring c; p_cold := p_cold c;
                 p_pending := if publish then Some (stream_key alarms tag, tag, is_alarm_tier alarms tag) else None;
                 p_dead := p_dead c |}
          end
      end
  end.

(** One turn of [_push_with_backpressure_retry]. *)
Definition attempt (c : consumer) : consumer :=
  match p_pending c with
  | None => c
  | Some (key, tag, alarm) =>
      let '(ring, cold, r) := mgr_push on_evict (p_ring c) key tag alarm (p_cold c) in
      let c' p d := {| p_filter := p_filter c; p_alarms := p_alarms c; p_latest := p_latest c; p_ring := ring;
                       p_cold := cold; p_pending := p; p_dead := d |} in
      match r with
      | Ok _ => c' None (p_dead c)
      | Raise RingBufferBackpressureError => c' (p_pending c) (p_dead c)
      | Raise e => c' None (Some e)
      end
  end.

(** A stream key of the alarm tier; no driver instance is named like one. *)
Definition alarm_key (k : string) : Prop := exists d, k = (d ++ ALARM_STREAM_KEY_SUFFIX)%string.

(** The rest of the system on the same ring: the dispatcher drains, system tags
    are pushed under the driver's own stream. *)
Inductive consumer_step (c : consumer) : consumer -> Prop :=
  | step_process u : p_dead c = None -> p_pending c = None -> ~ alarm_key (tu_source_driver u) ->
      consumer_step c (process u c)
  | step_attempt : p_dead c = None -> consumer_step c (attempt c)
  | step_drain n : consumer_step c
      {| p_filter := p_filter c; p_alarms := p_alarms c; p_latest := p_latest c; p_ring := (drain_all (p_ring c) n).2;
         p_cold := p_cold c; p_pending := p_pending c; p_dead := p_dead c |}
  | step_system_tag instance_id tag ring cold r : ~ alarm_key instance_id ->
      mgr_push on_evict (p_ring c) instance_id tag false (p_cold c) = (ring, cold, r) ->
      consumer_step c {| p_filter := p_filter c; p_alarms := p_alarms c; p_latest := latest_update tag (p_latest c);
                         p_ring := ring; p_cold := cold; p_pending := p_pending c; p_dead := p_dead c |}.
Inductive consumer_reachable (depth : Z) (alarms : option AlarmEngine) (st : S) : consumer -> Prop :=
  | consumer_init : consumer_reachable depth alarms st
      {| p_filter := ∅; p_alarms := alarms; p_latest := []; p_ring := make_manager depth; p_cold := st; p_pending := None;
         p_dead := None |}
  | consumer_next c c' : consumer_reachable depth alarms st c -> consumer_step c c' -> consumer_reachable depth alarms st c'.

(** ** Alarm tier *)

Definition tier_ok (m : RingBufferManager) : Prop :=
  forall k b, dict_get k (buffers m) = Some b ->
    (is_alarm_stream b = true <-> alarm_key k) /\ (is_alarm_stream b = true -> evicted_count b = 0).
Definition pending_ok (p : option (string * UnifiedTag * bool)) : Prop :=
  match p with Some (key, tag, alarm) => alarm = true <-> alarm_key key | None => True end.

Lemma mgr_push_tier m key tag alarm st m' st' r :
  tier_ok m -> (alarm = true <-> alarm_key key) -> mgr_push on_evict m key tag alarm st = (m', st', r) ->
  tier_ok m' /\ (alarm = true -> st' = st).
Proof.
  intros T A. unfold mgr_push. set (b := match dict_get key (buffers m) with Some b => b | None => _ end).
  assert ((is_alarm_stream b = true <-> alarm_key key) /\ (is_alarm_stream b = true -> evicted_count b = 0)) as [B1 B2].
  { unfold b. destruct (dict_get key (buffers m)) as [b0|] eqn:G; [by apply T|]. by simpl. }
  destruct (push _ b tag st) as [[b' st1] r1] eqn:P. intros [= <- <- <-].
  assert (is_alarm_stream b' = is_alarm_stream b /\ (is_alarm_stream b = true -> evicted_count b' = evicted_count b /\ st1 = st)) as [P1 P2].
  { unfold push in P. destruct (max_depth b <=? zlen (buffer b)); [|by injection P as <- <- <-].
    destruct (is_alarm_stream b) eqn:E; [by injection P as <- <- <-|]. split; [|done].
    destruct (buffer b); [by injection P as <- <- <-|]. destruct (match on_evict with Some f => Some (f key) | None => None end) as [f|].
    - destruct (f u st) as [st2 [|]]; by injection P as <- <- <-.
    - by injection P as <- <- <-. }
  split.
  - intros k b0. cbn [with_buffers buffers]. rewrite dict_get_set. case_decide as D; [|apply T].
    intros [= <-]. subst k. rewrite P1. split; [done|]. intros E. destruct (P2 E) as [-> _]. auto.
  - intros E. apply P2. by apply B1, A.
Qed.

Lemma drain_tier m n : tier_ok m -> tier_ok (drain_all m n).2.
Proof.
  assert (forall d k, dict_get k (drain_values d n).2 = option_map (fun b => (drain b n).2) (dict_get k d)) as G.
  { intros d k. induction d as [|[j b] t IH]; simpl; [done|]. destruct (drain_values t n) as [outs t'].
    simpl in *. case_decide; [done|]. by rewrite IH. }
  intros T k b. unfold drain_all. specialize (G (buffers m) k). destruct (drain_values (buffers m) n) as [out d].
  cbn [snd with_buffers buffers] in *. rewrite G. destruct (dict_get k (buffers m)) as [b0|] eqn:E; [|done].
  intros [= <-]. by apply (T k b0).
Qed.

Lemma normalize_source u cfg t : normalize u cfg = Ok t -> source_driver t = tu_source_driver u.
Proof. unfold normalize. intros H. destruct (tu_source_timestamp u); inv_ok; done. Qed.
Lemma evaluate_source e t e' t' : evaluate e t = (e', Ok t') -> source_driver t' = source_driver t.
Proof.
  unfold evaluate. destruct (rules e !! tag_id t); [|by intros [= _ <-]].
  destruct (check_conditions _ _ _ _) as [[e1 s1] [cnd|]]; by intros [= _ <-].
Qed.

Lemma stream_key_tier a t : ~ alarm_key (source_driver t) -> is_alarm_tier a t = true <-> alarm_key (stream_key a t).
Proof. intros N. unfold stream_key. destruct (is_alarm_tier a t); [|done]. split; [by eexists|done]. Qed.

Lemma process_ring u c : p_ring (process u c) = p_ring c /\ p_cold (process u c) = p_cold c.
Proof.
  unfold process. destruct (normalize _ _) as [t0|]; [|done]. destruct (match p_alarms c with Some _ => _ | None => _ end) as [a1 [t1|]]; [|done].
  cbn [p_filter]. by destruct (should_publish _ _ _) as [[]|].
Qed.
Lemma process_pending u c : ~ alarm_key (tu_source_driver u) -> pending_ok (p_pending (process u c)).
Proof.
  intros N. unfold process. destruct (normalize _ _) as [t|] eqn:E; [|done]. apply normalize_source in E.
  destruct (match p_alarms c with Some _ => _ | None => _ end) as [a1 [t'|]] eqn:Ev; [|done].
  assert (source_driver t' = source_driver t) as Es.
  { destruct (p_alarms c) as [e|]; [|by injection Ev as _ <-]. destruct (evaluate e t) as [e' r] eqn:X.
    injection Ev as _ ->. by eapply evaluate_source. }
  cbn [p_filter]. destruct (should_publish _ _ _) as [[[] flt]|]; try done. simpl. apply stream_key_tier. by rewrite Es, E.
Qed.

Lemma consumer_tier depth alarms st c :
  consumer_reachable depth alarms st c -> tier_ok (p_ring c) /\ pending_ok (p_pending c).
Proof.
  induction 1 as [|c c' _ [T P] St]; [by split|].
  destruct St as [u D Pn Nu|D|n|i tag ring cold r Ni E]; cbn [p_ring p_pending].
  - split; [by rewrite (proj1 (process_ring u c))|by apply process_pending].
  - unfold attempt. destruct (p_pending c) as [[[key tag] alarm]|] eqn:Pn; [|by rewrite Pn].
    destruct (mgr_push _ _ _ _ _ _) as [[ring cold] r] eqn:M. apply mgr_push_tier in M as [M _]; [|done|done].
    destruct r as [|[]]; split; try done; by rewrite Pn.
  - split; [by apply drain_tier|done].
  - split; [|done]. by eapply mgr_push_tier in E as [E _]; [| |split; [discriminate|done]].
Qed.

(** C8: as long as no driver instance is named like an alarm stream, in every interleaving of the consumer with the
    dispatcher's drains and the system tags every alarm-tier stream is a backpressure buffer from which nothing is ever
    evicted, every other stream is not, and a push to an alarm-tier stream never spills into the cold store: it goes in
    or is retried. *)
Theorem alarm_samples_never_evicted depth alarms st c :
  consumer_reachable depth alarms st c ->
  (forall k b, dict_get k (buffers (p_ring c)) = Some b ->
     (is_alarm_stream b = true <-> alarm_key k) /\ (alarm_key k -> evicted_count b = 0)) /\
  (forall key tag, p_pending c = Some (key, tag, true) -> p_dead c = None ->
     p_cold (attempt c) = p_cold c /\
     (p_pending (attempt c) = p_pending c \/ p_pending (attempt c) = None)).
Proof.
  intros R%consumer_tier. destruct R as [T P]. split.
  - intros k b G. destruct (T k b G) as [T1 T2]. split; [done|]. intros A. by apply T2, T1.
  - intros key tag Pn D. unfold attempt. rewrite Pn in *. destruct (mgr_push _ _ _ _ _ _) as [[ring cold] r] eqn:M.
    apply mgr_push_tier in M as [_ M]; [|done|done]. rewrite M by done. destruct r as [|[]]; by auto.
Qed.
End Consumer.

(** ** Witnesses and traces *)

Definition demo_rule_high : AlarmRule :=
  {| ar_tag_id := "plc/temp"; high := Some (NInt 80); high_high := None; low := None; low_low := None;
     rate_of_change_per_second := None |}.
Definition demo_update (z : Z) : TagUpdate :=
  {| tu_tag_id := "plc/temp"; tu_timestamp := 0; tu_value := VInt z; tu_quality := GOOD; tu_source_driver := "plc";
     tu_source_address := "40001"; tu_source_timestamp := None; tu_metadata := [] |}.
Definition demo_consumer0 : consumer (S := list UnifiedTag) :=
  {| p_filter := ∅; p_alarms := Some (make_engine {["plc/temp" := demo_rule_high]}); p_latest := []; p_ring := make_manager 1;
     p_cold := []; p_pending := None; p_dead := None |}.
Definition demo_evict (k : string) (t : UnifiedTag) (l : list UnifiedTag) : list UnifiedTag * res unit := (l ++ [t], Ok tt).
(** One alarming sample in, a second one waiting for room. *)
Definition demo_consumer : consumer := process [] (demo_update 95) (attempt (Some demo_evict) (process [] (demo_update 90) demo_consumer0)).

Lemma string_app_length (a b : string) : String.length (a ++ b) = (String.length a + String.length b)%nat.
Proof. induction a as [|c a IH]; simpl; [done|]. by rewrite IH. Qed.
Lemma short_not_alarm_key d : (String.length d < 7)%nat -> ~ alarm_key d.
Proof. intros L [p ->]. rewrite string_app_length in L. simpl in L. lia. Qed.

Lemma alarm_samples_never_evicted_witness :
  (forall k b, dict_get k (buffers (p_ring demo_consumer)) = Some b ->
     (is_alarm_stream b = true <-> alarm_key k) /\ (alarm_key k -> evicted_count b = 0)) /\
  (forall key tag, p_pending demo_consumer = Some (key, tag, true) -> p_dead demo_consumer = None ->
     p_cold (attempt (Some demo_evict) demo_consumer) = p_cold demo_consumer /\
     (p_pending (attempt (Some demo_evict) demo_consumer) = p_pending demo_consumer \/
      p_pending (attempt (Some demo_evict) demo_consumer) = None)).
Proof.
  apply (alarm_samples_never_evicted (Some demo_evict) [] 1 (Some (make_engine {["plc/temp" := demo_rule_high]})) [] demo_consumer).
  unfold demo_consumer. eapply consumer_next; [eapply consumer_next; [eapply consumer_next; [apply consumer_init|]|]|].
  - apply (step_process _ _ _ (demo_update 90)); [reflexivity|reflexivity|apply short_not_alarm_key; simpl; lia].
  - apply step_attempt. vm_compute. reflexivity.
  - apply (step_process _ _ _ (demo_update 95)); [vm_compute; reflexivity|vm_compute; reflexivity|apply short_not_alarm_key; simpl; lia].
Defined.
(** The second alarming sample waits; the first stays in its stream. *)
Example full_alarm_stream_waits :
  p_pending (attempt (Some demo_evict) demo_consumer) = p_pending demo_consumer /\
  option_map (fun b => zlen (buffer b)) (dict_get "plc::alarm" (buffers (p_ring (attempt (Some demo_evict) demo_consumer)))) = Some 1.
Proof. vm_compute. done. Qed.

(** An integer beyond the range of binary64 with a scaling configured raises in
    [normalize] and ends the consumer for every driver. *)
Definition demo_scaled : dict TagPipelineConfig :=
  [("plc/temp", {| pc_scaling := Some {| scale := NInt 1; offset := NInt 0 |}; pc_deadband := None; pc_engineering_unit := None |})].
Example huge_integer_kills_pipeline :
  p_dead (process demo_scaled (demo_update (2 ^ 1024)) demo_consumer0) = Some OverflowError.
Proof. vm_compute. reflexivity. Qed.

Example registry_has_all_types : rmap (fun r => bool_decide (r = list_to_set driver_types)) build_registry = Ok true.
Proof. vm_compute. reflexivity. Qed.
