(* ===== verification/FleetDb.v ===== *)
(** * The fleet manager's database (src/xedge/fleet/db_models.py)

    The tables as finite maps and lists, and transactions.  A transaction reads
    the committed tables once, computes, and applies its writes when it commits:
    PostgreSQL's READ COMMITTED isolation does not lock the rows a plain SELECT
    returns, so the tables may have changed between the two. *)

From S2P Require Import Prelude PyFloat PyDict PyTime.

(** Certificate serial numbers are kept as the integers whose decimal text the
    columns hold.  Tenant and user ids.  A tenant id travels as the text [str(id)] and comes
    back through [uuid.UUID]; the two are inverse and only such texts reach the
    methods, so the id itself stands for both. *)
Abbreviation uuid := Z.
Abbreviation datetime := Z.

Record Tenant := MkTenant { tn_id : uuid; tn_name : string; tn_created_at : datetime }.
Record Device := MkDevice {
  device_id : string;
  tenant_id : uuid;
  display_name : option string;
  token_hash : string;
  registered_at : datetime;
  agent_version : option string;
  heartbeat_interval_seconds : pfloat;
  last_seen_at : option datetime;
  driver_count : option Z;
  uptime_seconds : option pfloat;
  last_config_apply_json : option (dict json);
  pending_config_json : option (dict json);
  pending_config_version : Z;
  cert_serial_number : option Z;
  cert_not_after : option datetime;
  serial_number : option string;
  make : option string;
  protocol : option string;
  hardware_firmware_version : option string }.
Record JoinToken := MkJoinToken {
  jt_token_hash : string;
  jt_tenant_id : uuid;
  jt_device_id : string;
  jt_created_at : datetime;
  jt_expires_at : datetime;
  jt_consumed_at : option datetime;
  jt_revoked_at : option datetime;
  jt_revoked_by : option string }.
Record FleetUser := MkFleetUser {
  us_id : uuid;
  us_tenant_id : uuid;
  us_username : string;
  us_password_hash : string;
  us_role : string;
  us_created_at : datetime }.
Record FleetSession := MkFleetSession {
  se_token_hash : string;
  se_user_id : uuid;
  se_created_at : datetime;
  se_expires_at : datetime }.
Record FleetAuditLogEntry := MkFleetAuditLogEntry {
  au_id : Z;
  au_tenant_id : uuid;
  au_created_at : datetime;
  au_actor : string;
  au_event : string;
  au_details : dict json }.
(** [apply_success] and [apply_error] hold what the device reported, [JNull]
    for NULL; the database accepts a boolean and a text. *)
Record DeviceConfigHistory := MkDeviceConfigHistory {
  ch_id : Z;
  ch_tenant_id : uuid;
  ch_device_id : string;
  ch_config_version : Z;
  ch_config_json : dict json;
  ch_pushed_at : datetime;
  ch_pushed_by : string;
  ch_applied_at : option datetime;
  ch_apply_success : json;
  ch_apply_error : json }.
Record DeviceCertificateHistory := MkDeviceCertificateHistory {
  ce_id : Z;
  ce_tenant_id : uuid;
  ce_device_id : string;
  ce_serial_number : Z;
  ce_not_before : datetime;
  ce_not_after : datetime;
  ce_issued_at : datetime;
  ce_reason : string }.

(** A history table is its rows in insertion order; [id] is the position a
    sequence gave the row. *)
Record DB := MkDB {
  tenants : gmap uuid Tenant;
  devices : gmap string Device;
  join_tokens : gmap string JoinToken;
  fleet_users : gmap uuid FleetUser;
  fleet_sessions : gmap string FleetSession;
  fleet_audit_log : list FleetAuditLogEntry;
  config_history : list DeviceConfigHistory;
  certificate_history : list DeviceCertificateHistory }.
Definition empty_db : DB := MkDB ∅ ∅ ∅ ∅ ∅ [] [] [].

Definition set_devices (m : gmap string Device) (db : DB) : DB :=
  MkDB (tenants db) m (join_tokens db) (fleet_users db) (fleet_sessions db) (fleet_audit_log db) (config_history db) (certificate_history db).
Definition set_join_tokens (m : gmap string JoinToken) (db : DB) : DB :=
  MkDB (tenants db) (devices db) m (fleet_users db) (fleet_sessions db) (fleet_audit_log db) (config_history db) (certificate_history db).
Definition set_tenants (m : gmap uuid Tenant) (db : DB) : DB :=
  MkDB m (devices db) (join_tokens db) (fleet_users db) (fleet_sessions db) (fleet_audit_log db) (config_history db) (certificate_history db).
Definition set_users (m : gmap uuid FleetUser) (db : DB) : DB :=
  MkDB (tenants db) (devices db) (join_tokens db) m (fleet_sessions db) (fleet_audit_log db) (config_history db) (certificate_history db).
Definition set_sessions (m : gmap string FleetSession) (db : DB) : DB :=
  MkDB (tenants db) (devices db) (join_tokens db) (fleet_users db) m (fleet_audit_log db) (config_history db) (certificate_history db).
Definition set_audit (l : list FleetAuditLogEntry) (db : DB) : DB :=
  MkDB (tenants db) (devices db) (join_tokens db) (fleet_users db) (fleet_sessions db) l (config_history db) (certificate_history db).
Definition set_config_history (l : list DeviceConfigHistory) (db : DB) : DB :=
  MkDB (tenants db) (devices db) (join_tokens db) (fleet_users db) (fleet_sessions db) (fleet_audit_log db) l (certificate_history db).
Definition set_certificate_history (l : list DeviceCertificateHistory) (db : DB) : DB :=
  MkDB (tenants db) (devices db) (join_tokens db) (fleet_users db) (fleet_sessions db) (fleet_audit_log db) (config_history db) l.

(** ** Row writes and their constraints *)

(** UPDATE of the row a transaction loaded, by primary key. *)
Definition update_device (k : string) (f : Device -> Device) (db : DB) : res DB :=
  match devices db !! k with
  | Some d => Ok (set_devices (<[k := f d]> (devices db)) db)
  | None => Raise StaleDataError
  end.
Definition update_join_token (k : string) (f : JoinToken -> JoinToken) (db : DB) : res DB :=
  match join_tokens db !! k with
  | Some t => Ok (set_join_tokens (<[k := f t]> (join_tokens db)) db)
  | None => Raise StaleDataError
  end.
(** The foreign key on [tenants.id]. *)
Definition tenant_exists (t : uuid) (db : DB) : bool := bool_decide (is_Some (tenants db !! t)).
Definition insert_join_token (t : JoinToken) (db : DB) : res DB :=
  raise_if negb (tenant_exists (jt_tenant_id t) db) || bool_decide (is_Some (join_tokens db !! jt_token_hash t)) with IntegrityError;
  Ok (set_join_tokens (<[jt_token_hash t := t]> (join_tokens db)) db).
(** INSERT ... ON CONFLICT (device_id) DO UPDATE. *)
Definition upsert_device (row : Device) (f : Device -> Device) (db : DB) : res DB :=
  match devices db !! device_id row with
  | Some d => Ok (set_devices (<[device_id row := f d]> (devices db)) db)
  | None =>
      raise_if negb (tenant_exists (tenant_id row) db) with IntegrityError;
      Ok (set_devices (<[device_id row := row]> (devices db)) db)
  end.
(** The unique index on (device_id, config_version) and both foreign keys. *)
Definition same_version (d : string) (v : Z) (h : DeviceConfigHistory) : bool :=
  String.eqb (ch_device_id h) d && (ch_config_version h =? v).
Definition insert_config_history (h : Z -> DeviceConfigHistory) (db : DB) : res DB :=
  let row := h (zlen (config_history db) + 1) in
  raise_if negb (tenant_exists (ch_tenant_id row) db)
           || negb (bool_decide (is_Some (devices db !! ch_device_id row)))
           || existsb (same_version (ch_device_id row) (ch_config_version row)) (config_history db) with IntegrityError;
  Ok (set_config_history (config_history db ++ [row]) db).
Definition insert_certificate_history (h : Z -> DeviceCertificateHistory) (db : DB) : res DB :=
  let row := h (zlen (certificate_history db) + 1) in
  raise_if negb (tenant_exists (ce_tenant_id row) db)
           || negb (bool_decide (is_Some (devices db !! ce_device_id row))) with IntegrityError;
  Ok (set_certificate_history (certificate_history db ++ [row]) db).
Definition insert_audit (e : Z -> FleetAuditLogEntry) (db : DB) : res DB :=
  let row := e (zlen (fleet_audit_log db) + 1) in
  raise_if negb (tenant_exists (au_tenant_id row) db) with IntegrityError;
  Ok (set_audit (fleet_audit_log db ++ [row]) db).

(** ** Transactions *)

(** What PostgreSQL and its driver decide: whether the written values can be
    stored (a lost connection, an integer beyond its column, a NUL in a text),
    how a JSON value binds to an integer parameter, and the collation that
    ORDER BY uses. *)
Class Database := {
  commit : DB -> DB -> res unit;
  bind_int : json -> res Z;
  text_leb : string -> string -> bool }.

(** A transaction on the tables it reads: its result and the writes it applies
    when it commits, or the exception that rolls it back. *)
Definition Tx (A : Type) : Type := DB -> res (A * (DB -> res DB)).

Section Exec.
Context `{Database}.
(** [writes] applied at commit: all of them or none. *)
Definition apply_writes {A} (db : DB) (r : res (A * (DB -> res DB))) : DB * res A :=
  match r with
  | Ok (a, w) =>
      match (let* db' := w db in let* _ := commit db db' in Ok db') with
      | Ok db' => (db', Ok a)
      | Raise e => (db, Raise e)
      end
  | Raise e => (db, Raise e)
  end.
(** A transaction that runs alone ... *)
Definition exec {A} (t : Tx A) : SR DB A := fun db => apply_writes db (t db).
(** ... and one that commits on tables other than those it read. *)
Definition exec_stale {A} (t : Tx A) (snapshot : DB) : SR DB A := fun db => apply_writes db (t snapshot).

Lemma exec_cases {A} (t : Tx A) snapshot db db' r :
  exec_stale t snapshot db = (db', r) ->
  (exists a w, t snapshot = Ok (a, w) /\ w db = Ok db' /\ commit db db' = Ok tt /\ r = Ok a) \/
  (db' = db /\ exists e, r = Raise e).
Proof.
  unfold exec_stale, apply_writes. destruct (t snapshot) as [[a w]|e]; [|intros [= <- <-]; eauto].
  destruct (w db) as [d|e] eqn:W; simpl; [|intros [= <- <-]; eauto].
  destruct (commit db d) as [[]|e] eqn:C; simpl; intros [= <- <-]; [|eauto]. left. by exists a, w.
Qed.
Lemma exec_ok {A} (t : Tx A) db db' a :
  exec t db = (db', Ok a) -> exists w, t db = Ok (a, w) /\ w db = Ok db' /\ commit db db' = Ok tt.
Proof. intros E. apply exec_cases in E as [(b & w & T & W & C & [= ->])|(_ & e & [=])]. by exists w. Qed.
Lemma exec_raises {A} (t : Tx A) db db' e : exec t db = (db', Raise e) -> db' = db.
Proof. intros E. apply exec_cases in E as [(b & w & _ & _ & _ & [=])|[-> _]]. done. Qed.
Lemma exec_commits {A} (t : Tx A) db db' a w :
  t db = Ok (a, w) -> w db = Ok db' -> commit db db' = Ok tt -> exec t db = (db', Ok a).
Proof. unfold exec, apply_writes. intros -> W C. rewrite W. simpl. by rewrite C. Qed.
End Exec.
