(* ===== verification/FleetRegistry.v ===== *)
(** * Device registry (src/xedge/fleet/registry.py, _device_auth.py)

    Every method of [DeviceRegistry] as a transaction on the tables of FleetDb.
    Fresh randomness ([secrets.token_urlsafe], [uuid4]) and the clock are
    arguments. *)

From Stdlib Require Import Ascii.
From S2P Require Import Prelude PyText PyFloat PyDict PyTime FleetDb.
Local Open Scope string_scope.
Local Open Scope list_scope.
Local Open Scope Z_scope.

(** ** Tokens *)

(** [hash_token]: the hexadecimal SHA-256 digest. *)
Class TokenHash := {
  hash_token : string -> string;
  hash_token_ascii : forall t, is_ascii (hash_token t) = true }.

(** A digest in which every byte becomes two hexadecimal digits, for examples. *)
Definition hex_digit (n : nat) : ascii := ascii_of_nat (if (n <? 10)%nat then 48 + n else 87 + n).
Fixpoint hex (s : string) : string :=
  match s with
  | EmptyString => EmptyString
  | String c t => String (hex_digit (nat_of_ascii c / 16)) (String (hex_digit (nat_of_ascii c mod 16)) (hex t))
  end.
Lemma hex_ascii s : is_ascii (hex s) = true.
Proof. induction s as [|c t IH]; [done|]. simpl. rewrite IH. destruct c as [[] [] [] [] [] [] [] []]; vm_compute; reflexivity. Qed.
Definition hex_tokens : TokenHash := {| hash_token := hex; hash_token_ascii := hex_ascii |}.
(** A database that accepts every write. *)
Definition open_database : Database :=
  {| commit _ _ := Ok tt;
     bind_int j := match j with JNum (NInt z) => Ok z | _ => Raise ValueError end;
     text_leb := String.leb |}.

Definition bearer_prefix : string := "Bearer ".
(** [_device_auth.bearer_value] *)
Definition bearer_value (authorization_header : string) : string :=
  if String.prefix bearer_prefix authorization_header
  then String.substring (String.length bearer_prefix) (String.length authorization_header - String.length bearer_prefix) authorization_header
  else "".

(** ** Connection state *)

Definition OFFLINE_AFTER_MISSED_HEARTBEATS : Z := 3.
Definition DEFAULT_TENANT_NAME : string := "default".
Definition METADATA_COLUMNS : list string :=
  ["display_name"; "serial_number"; "make"; "protocol"; "hardware_firmware_version"].

Inductive GatewayConnectionState := INACTIVE | ACTIVE | CONNECTED | DISCONNECTED.
#[export] Instance GatewayConnectionState_eq_dec : EqDecision GatewayConnectionState.
Proof. solve_decision. Defined.

(** [heartbeat_interval_seconds * OFFLINE_AFTER_MISSED_HEARTBEATS] as a delta *)
Definition offline_threshold (interval : pfloat) : res Z :=
  timedelta_seconds (NFloat (fmul interval (float_of_Z_raw OFFLINE_AFTER_MISSED_HEARTBEATS))).
Definition classify_connection_state (last_contact_at : option datetime) (interval : pfloat) (now : datetime) : res GatewayConnectionState :=
  match last_contact_at with
  | None => Ok INACTIVE
  | Some t =>
      let age := now - t in
      let* d := timedelta_seconds (NFloat interval) in
      if age <=? d then Ok ACTIVE else
      let* d3 := offline_threshold interval in
      if age <=? d3 then Ok CONNECTED else Ok DISCONNECTED
  end.

(** [DeviceRecord]: the row less its secrets. *)
Record DeviceRecord := MkDeviceRecord {
  r_device_id : string;
  r_display_name : option string;
  r_registered_at : datetime;
  r_agent_version : option string;
  r_heartbeat_interval_seconds : pfloat;
  r_last_seen_at : option datetime;
  r_driver_count : option Z;
  r_uptime_seconds : option pfloat;
  r_last_config_apply : option (dict json);
  r_has_pending_config : bool;
  r_pending_config_version : Z;
  r_cert_serial_number : option Z;
  r_cert_not_after : option datetime;
  r_serial_number : option string;
  r_make : option string;
  r_protocol : option string;
  r_hardware_firmware_version : option string }.
Definition row_to_record (d : Device) : DeviceRecord :=
  MkDeviceRecord (device_id d) (display_name d) (registered_at d) (agent_version d) (heartbeat_interval_seconds d)
    (last_seen_at d) (driver_count d) (uptime_seconds d) (last_config_apply_json d)
    (bool_decide (is_Some (pending_config_json d))) (pending_config_version d) (cert_serial_number d) (cert_not_after d)
    (serial_number d) (make d) (protocol d) (hardware_firmware_version d).

(** [DeviceRecord.status] *)
Definition device_status (r : DeviceRecord) (now : datetime) : res string :=
  match r_last_seen_at r with
  | None => Ok "unknown"
  | Some t => let* d3 := offline_threshold (r_heartbeat_interval_seconds r) in
              Ok (if d3 <? now - t then "offline" else "online")
  end.
Definition connection_state (r : DeviceRecord) (now : datetime) : res GatewayConnectionState :=
  classify_connection_state (r_last_seen_at r) (r_heartbeat_interval_seconds r) now.
(** [JoinTokenRecord.status]; the record's [id] is the row's [token_hash]. *)
Definition join_token_status (t : JoinToken) (now : datetime) : string :=
  if bool_decide (is_Some (jt_revoked_at t)) then "revoked"
  else if bool_decide (is_Some (jt_consumed_at t)) then "consumed"
  else if jt_expires_at t <? now then "expired" else "active".

(** ** Column updates *)

Definition with_registration (name : option string) (hash : string) (agent : option string) (interval : pfloat) (d : Device) : Device :=
  MkDevice (device_id d) (tenant_id d) name hash (registered_at d) agent interval (last_seen_at d) (driver_count d)
    (uptime_seconds d) (last_config_apply_json d) (pending_config_json d) (pending_config_version d) (cert_serial_number d)
    (cert_not_after d) (serial_number d) (make d) (protocol d) (hardware_firmware_version d).
Definition with_heartbeat (now : datetime) (agent : option string) (count : option Z) (uptime : option pfloat)
    (apply : option (dict json)) (d : Device) : Device :=
  MkDevice (device_id d) (tenant_id d) (display_name d) (token_hash d) (registered_at d)
    (match agent with Some a => Some a | None => agent_version d end) (heartbeat_interval_seconds d) (Some now) count
    uptime (match apply with Some a => Some a | None => last_config_apply_json d end) (pending_config_json d)
    (pending_config_version d) (cert_serial_number d) (cert_not_after d) (serial_number d) (make d) (protocol d)
    (hardware_firmware_version d).
Definition with_pending (config : option (dict json)) (version : Z) (d : Device) : Device :=
  MkDevice (device_id d) (tenant_id d) (display_name d) (token_hash d) (registered_at d) (agent_version d)
    (heartbeat_interval_seconds d) (last_seen_at d) (driver_count d) (uptime_seconds d) (last_config_apply_json d) config
    version (cert_serial_number d) (cert_not_after d) (serial_number d) (make d) (protocol d) (hardware_firmware_version d).
Definition with_certificate (serial : Z) (not_after : datetime) (d : Device) : Device :=
  MkDevice (device_id d) (tenant_id d) (display_name d) (token_hash d) (registered_at d) (agent_version d)
    (heartbeat_interval_seconds d) (last_seen_at d) (driver_count d) (uptime_seconds d) (last_config_apply_json d)
    (pending_config_json d) (pending_config_version d) (Some serial) (Some not_after) (serial_number d) (make d)
    (protocol d) (hardware_firmware_version d).
(** [setattr(device, field, value)] for a metadata column *)
Definition set_metadata (d : Device) (field : string * option string) : Device :=
  let '(name, value) := field in
  let pick col old := if String.eqb name col then value else old in
  MkDevice (device_id d) (tenant_id d) (pick "display_name" (display_name d)) (token_hash d) (registered_at d)
    (agent_version d) (heartbeat_interval_seconds d) (last_seen_at d) (driver_count d) (uptime_seconds d)
    (last_config_apply_json d) (pending_config_json d) (pending_config_version d) (cert_serial_number d) (cert_not_after d)
    (pick "serial_number" (serial_number d)) (pick "make" (make d)) (pick "protocol" (protocol d))
    (pick "hardware_firmware_version" (hardware_firmware_version d)).
Definition with_consumed (now : datetime) (t : JoinToken) : JoinToken :=
  MkJoinToken (jt_token_hash t) (jt_tenant_id t) (jt_device_id t) (jt_created_at t) (jt_expires_at t) (Some now)
    (jt_revoked_at t) (jt_revoked_by t).
Definition with_revoked (now : datetime) (by_whom : string) (t : JoinToken) : JoinToken :=
  MkJoinToken (jt_token_hash t) (jt_tenant_id t) (jt_device_id t) (jt_created_at t) (jt_expires_at t) (jt_consumed_at t)
    (Some now) (Some by_whom).
Definition with_applied (now : datetime) (success error : json) (h : DeviceConfigHistory) : DeviceConfigHistory :=
  MkDeviceConfigHistory (ch_id h) (ch_tenant_id h) (ch_device_id h) (ch_config_version h) (ch_config_json h) (ch_pushed_at h)
    (ch_pushed_by h) (Some now) success error.

(** ** Methods *)

Section Registry.
Context `{Database} `{TokenHash}.

(** A row that exists under another tenant. *)
Definition foreign (t : uuid) (existing : option Device) : bool :=
  match existing with Some d => negb (tenant_id d =? t) | None => false end.
(** The device [k] of tenant [t]: [device is None or device.tenant_id != t]. *)
Definition own_device (t : uuid) (k : string) (db : DB) : option Device :=
  match devices db !! k with Some d => if tenant_id d =? t then Some d else None | None => None end.

(** [new_id] and [now] are used when the tenant is created. *)
Definition ensure_default_tenant (new_id : uuid) (now : datetime) : Tx uuid := fun db =>
  match List.filter (fun '(_, t) => String.eqb (tn_name t) DEFAULT_TENANT_NAME) (map_to_list (tenants db)) with
  | [] => Ok (new_id, fun db =>
      raise_if bool_decide (is_Some (tenants db !! new_id))
               || existsb (fun '(_, t) => String.eqb (tn_name t) DEFAULT_TENANT_NAME) (map_to_list (tenants db)) with IntegrityError;
      Ok (set_tenants (<[new_id := MkTenant new_id DEFAULT_TENANT_NAME now]> (tenants db)) db))
  | [(i, _)] => Ok (i, Ok)
  | _ => Raise MultipleResultsFound
  end.

Definition register (t : uuid) (k : string) (name agent : option string) (interval : pfloat) (token : string) (now : datetime) : Tx string := fun db =>
  let hash := hash_token token in
  let existing := devices db !! k in
  raise_if foreign t existing with DeviceTenantConflictError;
  let registered := match existing with Some d => registered_at d | None => now end in
  Ok (token, upsert_device
    (MkDevice k t name hash registered agent interval None None None None None 0 None None None None None None)
    (with_registration name hash agent interval)).

Definition verify_token (k token : string) (db : DB) : res bool :=
  match devices db !! k with
  | None => Ok false
  | Some d => compare_digest (token_hash d) (hash_token token)
  end.

(** Fill in the history row of the version the device reports on, if there is
    exactly one; the row is loaded, then updated by its [id]. *)
Definition report_applied (k : string) (apply : dict json) (now : datetime) (db : DB) : res (DB -> res DB) :=
  match default JNull (dict_get "version" apply) with
  | JNull => Ok Ok
  | version =>
      let* v := bind_int version in
      match List.filter (same_version k v) (config_history db) with
      | [] => Ok Ok
      | [row] => Ok (fun db => Ok (set_config_history
          (map (fun h => if ch_id h =? ch_id row
                         then with_applied now (default JNull (dict_get "success" apply)) (default JNull (dict_get "error" apply)) h
                         else h) (config_history db)) db))
      | _ => Raise MultipleResultsFound
      end
  end.
Definition heartbeat (k : string) (agent : option string) (count : option Z) (uptime : option pfloat)
    (last_config_apply : option (dict json)) (now : datetime) : Tx unit := fun db =>
  match devices db !! k with
  | None => Ok (tt, Ok)
  | Some _ =>
      let* report := match last_config_apply with Some a => report_applied k a now db | None => Ok Ok end in
      Ok (tt, fun db => let* db := update_device k (with_heartbeat now agent count uptime last_config_apply) db in report db)
  end.

Definition queue_config (t : uuid) (k : string) (config : dict json) (pushed_by : string) (now : datetime) : Tx Z := fun db =>
  match own_device t k db with
  | None => Raise KeyError
  | Some d =>
      let version := pending_config_version d + 1 in
      Ok (version, fun db =>
        let* db := update_device k (with_pending (Some config) version) db in
        insert_config_history (fun i => MkDeviceConfigHistory i t k version config now pushed_by None JNull JNull) db)
  end.

Definition take_pending_config (k : string) : Tx (option (dict json * Z)) := fun db =>
  match devices db !! k with
  | None => Ok (None, Ok)
  | Some d =>
      match pending_config_json d with
      | None => Ok (None, Ok)
      | Some config => Ok (Some (config, pending_config_version d),
                           update_device k (fun d => with_pending None (pending_config_version d) d))
      end
  end.

Definition create_join_token (t : uuid) (k : string) (ttl_seconds : pfloat) (token : string) (now : datetime) : Tx string := fun db =>
  raise_if foreign t (devices db !! k) with DeviceTenantConflictError;
  let* ttl := timedelta_seconds (NFloat ttl_seconds) in
  let* expires := datetime_add now ttl in
  Ok (token, insert_join_token (MkJoinToken (hash_token token) t k now expires None None None)).

Definition consume_join_token (k token : string) (now : datetime) : Tx (option uuid) := fun db =>
  match join_tokens db !! hash_token token with
  | None => Ok (None, Ok)
  | Some jt =>
      if bool_decide (is_Some (jt_consumed_at jt)) || bool_decide (is_Some (jt_revoked_at jt)) then Ok (None, Ok) else
      let* same := compare_digest (jt_device_id jt) k in
      if negb same then Ok (None, Ok) else
      if jt_expires_at jt <? now then Ok (None, Ok) else
      Ok (Some (jt_tenant_id jt), update_join_token (hash_token token) (with_consumed now))
  end.

Definition list_join_tokens (t : uuid) (db : DB) : list JoinToken :=
  py_sorted (fun a b => jt_created_at b <=? jt_created_at a)
    (map snd (map_to_list (filter (fun '(_, j) => jt_tenant_id j = t) (join_tokens db)))).

Definition revoke_join_token (t : uuid) (token_id revoked_by : string) (now : datetime) : Tx bool := fun db =>
  match join_tokens db !! token_id with
  | None => Ok (false, Ok)
  | Some jt => if negb (jt_tenant_id jt =? t) then Ok (false, Ok)
               else Ok (true, update_join_token token_id (with_revoked now revoked_by))
  end.

Definition record_certificate_issued (k : string) (serial : Z) (not_before not_after : datetime) (reason : string) (now : datetime) : Tx (option uuid) := fun db =>
  match devices db !! k with
  | None => Ok (None, Ok)
  | Some d => Ok (Some (tenant_id d), fun db =>
      let* db := update_device k (with_certificate serial not_after) db in
      insert_certificate_history (fun i => MkDeviceCertificateHistory i (tenant_id d) k serial not_before not_after now reason) db)
  end.

Definition list_config_history (t : uuid) (k : string) (db : DB) : list DeviceConfigHistory :=
  py_sorted (fun a b => ch_config_version b <=? ch_config_version a)
    (List.filter (fun h => (ch_tenant_id h =? t) && String.eqb (ch_device_id h) k) (config_history db)).
Definition list_certificate_history (t : uuid) (k : string) (db : DB) : list DeviceCertificateHistory :=
  py_sorted (fun a b => ce_issued_at b <=? ce_issued_at a)
    (List.filter (fun h => (ce_tenant_id h =? t) && String.eqb (ce_device_id h) k) (certificate_history db)).

Definition update_metadata (t : uuid) (k : string) (fields : dict (option string)) : Tx bool := fun db =>
  raise_if negb (forallb (fun f => existsb (String.eqb f) METADATA_COLUMNS) (dict_keys fields)) with ValueError;
  match own_device t k db with
  | None => Ok (false, Ok)
  | Some _ => Ok (true, update_device k (fun d => foldl set_metadata d fields))
  end.

Definition get (t : uuid) (k : string) (db : DB) : option DeviceRecord := row_to_record <$> own_device t k db.
Definition list_devices (t : uuid) (db : DB) : list DeviceRecord :=
  map row_to_record (py_sorted (fun a b => text_leb (device_id a) (device_id b))
    (map snd (map_to_list (filter (fun '(_, d) => tenant_id d = t) (devices db))))).

(** ** Calls

    Every state-changing method as data, for sequences and interleavings. *)
Inductive call :=
  | CDefaultTenant (new_id : uuid) (now : datetime)
  | CRegister (t : uuid) (k : string) (name agent : option string) (interval : pfloat) (token : string) (now : datetime)
  | CHeartbeat (k : string) (agent : option string) (count : option Z) (uptime : option pfloat) (apply : option (dict json)) (now : datetime)
  | CQueueConfig (t : uuid) (k : string) (config : dict json) (pushed_by : string) (now : datetime)
  | CTakePendingConfig (k : string)
  | CCreateJoinToken (t : uuid) (k : string) (ttl : pfloat) (token : string) (now : datetime)
  | CConsumeJoinToken (k token : string) (now : datetime)
  | CRevokeJoinToken (t : uuid) (token_id revoked_by : string) (now : datetime)
  | CRecordCertificate (k : string) (serial : Z) (not_before not_after : datetime) (reason : string) (now : datetime)
  | CUpdateMetadata (t : uuid) (k : string) (fields : dict (option string)).
Inductive answer :=
  | AUnit
  | AToken (token : string)
  | AVersion (v : Z)
  | AConfig (c : option (dict json * Z))
  | ATenant (t : option uuid)
  | ABool (b : bool).
Definition tmap {A B} (f : A -> B) (t : Tx A) : Tx B := fun db =>
  match t db with Ok (a, w) => Ok (f a, w) | Raise e => Raise e end.
Definition perform (c : call) : Tx answer :=
  match c with
  | CDefaultTenant i now => tmap (fun t => ATenant (Some t)) (ensure_default_tenant i now)
  | CRegister t k name agent interval token now => tmap AToken (register t k name agent interval token now)
  | CHeartbeat k agent count uptime apply now => tmap (fun _ => AUnit) (heartbeat k agent count uptime apply now)
  | CQueueConfig t k config by_whom now => tmap AVersion (queue_config t k config by_whom now)
  | CTakePendingConfig k => tmap AConfig (take_pending_config k)
  | CCreateJoinToken t k ttl token now => tmap AToken (create_join_token t k ttl token now)
  | CConsumeJoinToken k token now => tmap ATenant (consume_join_token k token now)
  | CRevokeJoinToken t i by_whom now => tmap ABool (revoke_join_token t i by_whom now)
  | CRecordCertificate k serial nb na reason now => tmap ATenant (record_certificate_issued k serial nb na reason now)
  | CUpdateMetadata t k fields => tmap ABool (update_metadata t k fields)
  end.
(** The calls an operator of tenant [t] makes, enrolment on its behalf included. *)
Definition operator_call (t : uuid) (c : call) : bool :=
  match c with
  | CRegister t' _ _ _ _ _ _ | CQueueConfig t' _ _ _ _ | CCreateJoinToken t' _ _ _ _ | CRevokeJoinToken t' _ _ _ | CUpdateMetadata t' _ _ => t' =? t
  | _ => false
  end.

End Registry.

(** ** How the tables evolve under any interleaving *)

Definition same_identity (d d' : Device) : Prop :=
  device_id d' = device_id d /\ tenant_id d' = tenant_id d /\ registered_at d' = registered_at d.
Definition same_token (j j' : JoinToken) : Prop :=
  jt_tenant_id j' = jt_tenant_id j /\ jt_device_id j' = jt_device_id j /\ jt_expires_at j' = jt_expires_at j /\
  (is_Some (jt_consumed_at j) -> is_Some (jt_consumed_at j')) /\ (is_Some (jt_revoked_at j) -> is_Some (jt_revoked_at j')).
(** What a push recorded, whatever the device reports later. *)
Definition pushed (h : DeviceConfigHistory) : Z * uuid * string * Z * dict json * datetime * string :=
  (ch_id h, ch_tenant_id h, ch_device_id h, ch_config_version h, ch_config_json h, ch_pushed_at h, ch_pushed_by h).
Definition evolves (db db' : DB) : Prop :=
  (forall k d, devices db !! k = Some d -> exists d', devices db' !! k = Some d' /\ same_identity d d') /\
  (forall h j, join_tokens db !! h = Some j -> exists j', join_tokens db' !! h = Some j' /\ same_token j j') /\
  map pushed (config_history db) `prefix_of` map pushed (config_history db') /\
  certificate_history db `prefix_of` certificate_history db'.

#[export] Instance same_identity_preorder : PreOrder same_identity.
Proof. split; unfold same_identity; [done|]. intros a b c (?&?&?) (?&?&?). repeat split; congruence. Qed.
#[export] Instance same_token_preorder : PreOrder same_token.
Proof. split; unfold same_token; [done|]. intros a b c (?&?&?&?&?) (?&?&?&?&?). repeat split; try congruence; auto. Qed.
#[export] Instance evolves_preorder : PreOrder evolves.
Proof.
  split.
  - intros db. repeat split; try done; intros k d E; exists d; by rewrite E.
  - intros a b c (D1&T1&H1&C1) (D2&T2&H2&C2). repeat split; [..|by etrans|by etrans].
    + intros k d E. apply D1 in E as (d1 & E & S1). apply D2 in E as (d2 & E & S2). exists d2. split; [done|by etrans].
    + intros k d E. apply T1 in E as (d1 & E & S1). apply T2 in E as (d2 & E & S2). exists d2. split; [done|by etrans].
Qed.

Lemma lookup_insert_evolves {A} (R : A -> A -> Prop) `{!Reflexive R} (m : gmap string A) k x :
  (forall y, m !! k = Some y -> R y x) ->
  forall i y, m !! i = Some y -> exists y', <[k := x]> m !! i = Some y' /\ R y y'.
Proof.
  intros Hx i y E. destruct (decide (i = k)) as [->|N]; [exists x; rewrite lookup_insert_eq; auto|].
  exists y. by rewrite lookup_insert_ne.
Qed.

Lemma lookup_keeps {A} (R : A -> A -> Prop) `{!Reflexive R} (m : gmap string A) :
  forall i y, m !! i = Some y -> exists y', m !! i = Some y' /\ R y y'.
Proof. eauto. Qed.

Lemma update_device_evolves k f db db' :
  update_device k f db = Ok db' -> (forall d, same_identity d (f d)) -> evolves db db'.
Proof.
  unfold update_device. destruct (devices db !! k) as [d|] eqn:E; [|done]. intros [= <-] F. repeat split; try done.
  - simpl. apply lookup_insert_evolves; [apply _|]. intros y E'. rewrite E in E'. injection E' as <-. apply F.
  - simpl. apply lookup_keeps; apply _.
Qed.
Lemma update_join_token_evolves k f db db' :
  update_join_token k f db = Ok db' -> (forall d, same_token d (f d)) -> evolves db db'.
Proof.
  unfold update_join_token. destruct (join_tokens db !! k) as [d|] eqn:E; [|done]. intros [= <-] F. repeat split; try done.
  - simpl. apply lookup_keeps; apply _.
  - simpl. apply lookup_insert_evolves; [apply _|]. intros y E'. rewrite E in E'. injection E' as <-. apply F.
Qed.
Lemma upsert_device_evolves row f db db' :
  upsert_device row f db = Ok db' -> (forall d, same_identity d (f d)) -> evolves db db'.
Proof.
  unfold upsert_device. destruct (devices db !! device_id row) as [d|] eqn:E; intros U F; inv_ok; repeat split; try done; simpl;
    try (apply lookup_keeps; apply _).
  - apply lookup_insert_evolves; [apply _|]. intros y E'. rewrite E in E'. injection E' as <-. apply F.
  - apply lookup_insert_evolves; [apply _|]. intros y E'. by rewrite E in E'.
Qed.
Lemma insert_join_token_evolves j db db' : insert_join_token j db = Ok db' -> evolves db db'.
Proof.
  unfold insert_join_token. intros U. inv_ok. repeat split; try done; simpl; [apply lookup_keeps; apply _|].
  apply lookup_insert_evolves; [apply _|]. intros y E. match goal with N : ~ is_Some _ |- _ => destruct N; eauto end.
Qed.
Lemma insert_config_history_evolves h db db' : insert_config_history h db = Ok db' -> evolves db db'.
Proof.
  unfold insert_config_history. intros U. inv_ok.
  repeat split; try done; simpl; try (apply lookup_keeps; apply _).
  rewrite map_app. by apply prefix_app_r.
Qed.
Lemma insert_certificate_history_evolves h db db' : insert_certificate_history h db = Ok db' -> evolves db db'.
Proof.
  unfold insert_certificate_history. intros U. inv_ok.
  repeat split; try done; simpl; try (apply lookup_keeps; apply _).
  by apply prefix_app_r.
Qed.
Lemma report_applied_evolves `{Database} k a now snap w db db' :
  report_applied k a now snap = Ok w -> w db = Ok db' -> evolves db db'.
Proof.
  unfold report_applied. intros R W.
  assert (w = Ok \/ exists row s e, w = fun db => Ok (set_config_history
    (map (fun h => if ch_id h =? ch_id row then with_applied now s e h else h) (config_history db)) db)) as [->|(row & s & e & ->)].
  { destruct (default JNull _); inv_ok; eauto; destruct (List.filter _ _) as [|? []]; inv_ok; eauto 10. }
  - by injection W as <-.
  - injection W as <-. repeat split; try done; simpl; try (apply lookup_keeps; apply _).
    rewrite map_map. erewrite map_ext; [done|]. intros h. simpl. by destruct (_ =? _).
Qed.
Lemma set_tenants_evolves m db : evolves db (set_tenants m db).
Proof. repeat split; try done; simpl; apply lookup_keeps; apply _. Qed.
Create HintDb fleet.
#[export] Hint Resolve update_device_evolves update_join_token_evolves upsert_device_evolves insert_join_token_evolves
  insert_config_history_evolves insert_certificate_history_evolves report_applied_evolves : fleet.

Lemma tmap_ok {A B} (f : A -> B) (t : Tx A) db b w : tmap f t db = Ok (b, w) <-> exists a, t db = Ok (a, w) /\ b = f a.
Proof. unfold tmap. destruct (t db) as [[a v]|e]; naive_solver. Qed.
Lemma own_device_some t k db d : own_device t k db = Some d <-> devices db !! k = Some d /\ tenant_id d = t.
Proof.
  unfold own_device. destruct (devices db !! k) as [e|]; [|naive_solver].
  destruct (Z.eqb_spec (tenant_id e) t); naive_solver.
Qed.
Lemma set_metadata_identity d fields : same_identity d (foldl set_metadata d fields).
Proof.
  revert d. induction fields as [|[n v] fs IH]; intros d; [reflexivity|]. simpl. etrans; [|apply IH]. by repeat split.
Qed.
Lemma with_registration_identity n h a i d : same_identity d (with_registration n h a i d).
Proof. by repeat split. Qed.
Lemma with_heartbeat_identity n a c u l d : same_identity d (with_heartbeat n a c u l d).
Proof. by repeat split. Qed.
Lemma with_pending_identity c v d : same_identity d (with_pending c v d).
Proof. by repeat split. Qed.
Lemma with_certificate_identity s n d : same_identity d (with_certificate s n d).
Proof. by repeat split. Qed.
Lemma with_consumed_token n j : same_token j (with_consumed n j).
Proof. repeat split; eauto. Qed.
Lemma with_revoked_token n w j : same_token j (with_revoked n w j).
Proof. repeat split; eauto. Qed.
#[export] Hint Resolve set_metadata_identity with_registration_identity with_heartbeat_identity with_pending_identity
  with_certificate_identity with_consumed_token with_revoked_token : fleet.

(** Open a call up to the writes of its successful run. *)
Ltac open_call P :=
  apply tmap_ok in P as (? & P & ->);
  unfold ensure_default_tenant, register, heartbeat, queue_config, take_pending_config, create_join_token, consume_join_token,
    revoke_join_token, record_certificate_issued, update_metadata in P;
  repeat first [progress inv_ok | case_match]; simplify_eq.

Section Properties.
Context `{Database} `{TokenHash}.
Lemma writes_evolve c snapshot a w db db' : perform c snapshot = Ok (a, w) -> w db = Ok db' -> evolves db db'.
Proof.
  intros P W. destruct c; simpl in P; open_call P; try reflexivity; inv_ok; try apply set_tenants_evolves; eauto with fleet.
  all: try (etrans; eauto with fleet).
Qed.

(** One committed transaction of some client, begun on any earlier tables. *)
Definition commits (db db' : DB) : Prop := exists c snapshot r, exec_stale (perform c) snapshot db = (db', r).

(** Under every interleaving of transactions, each computed from whatever
    tables it read, a device once registered keeps its tenant and registration
    time, a join token keeps its tenant, device and expiry and never becomes
    unconsumed or unrevoked, and neither history loses or rewrites a row. *)
Theorem registry_append_only db db' : rtc commits db db' -> evolves db db'.
Proof.
  induction 1 as [|x y z (c & snapshot & r & E) _ IH]; [reflexivity|]. etrans; [|exact IH].
  apply exec_cases in E as [(a & w & P & W & _)|[-> _]]; [by eapply writes_evolve|reflexivity].
Qed.

(** ** Tenant isolation *)

(** The rows that belong to tenants other than [t], and those of [t]. *)
Record view := MkView {
  v_devices : gmap string Device;
  v_tokens : gmap string JoinToken;
  v_config_history : list DeviceConfigHistory;
  v_certificate_history : list DeviceCertificateHistory }.
Definition rows_of (P : uuid -> Prop) `{!forall t, Decision (P t)} (db : DB) : view :=
  MkView (filter (fun '(_, d) => P (tenant_id d)) (devices db)) (filter (fun '(_, j) => P (jt_tenant_id j)) (join_tokens db))
    (filter (fun h => P (ch_tenant_id h)) (config_history db)) (filter (fun h => P (ce_tenant_id h)) (certificate_history db)).
Definition others (t : uuid) : DB -> view := rows_of (fun u => u <> t).
Definition own (t : uuid) : DB -> view := rows_of (fun u => u = t).

Lemma filter_insert_out {A} (P : string * A -> Prop) `{!forall x, Decision (P x)} (m : gmap string A) k x :
  ~ P (k, x) -> (forall y, m !! k = Some y -> ~ P (k, y)) -> filter P (<[k := x]> m) = filter P m.
Proof.
  intros N M. apply map_eq. intros i. apply option_eq. intros z. rewrite !map_lookup_filter_Some.
  destruct (decide (i = k)) as [->|D]; [|by rewrite lookup_insert_ne]. rewrite lookup_insert_eq. naive_solver.
Qed.
Lemma others_update_device t k f db db' d :
  update_device k f db = Ok db' -> (forall d, same_identity d (f d)) -> devices db !! k = Some d -> tenant_id d = t ->
  others t db' = others t db /\ devices db' !! k = Some (f d).
Proof.
  unfold update_device. intros U F E T. rewrite E in U. injection U as <-. simpl. split; [|apply lookup_insert_eq].
  unfold others, rows_of. simpl. f_equal. apply filter_insert_out.
  - destruct (F d) as (_ & -> & _). auto.
  - intros y E'. naive_solver.
Qed.
Lemma others_update_token t k f db db' j :
  update_join_token k f db = Ok db' -> (forall j, same_token j (f j)) -> join_tokens db !! k = Some j -> jt_tenant_id j = t ->
  others t db' = others t db.
Proof.
  unfold update_join_token. intros U F E T. rewrite E in U. injection U as <-. simpl.
  unfold others, rows_of. simpl. f_equal. apply filter_insert_out.
  - destruct (F j) as (-> & _). auto.
  - intros y E'. naive_solver.
Qed.
Lemma others_upsert t row f db db' :
  upsert_device row f db = Ok db' -> (forall d, same_identity d (f d)) -> tenant_id row = t ->
  foreign t (devices db !! device_id row) = false -> others t db' = others t db.
Proof.
  unfold upsert_device, foreign. intros U F T N. destruct (devices db !! device_id row) as [d|] eqn:E; inv_ok.
  - eapply (others_update_device _ (device_id row) f); [unfold update_device; by rewrite E|done|done|done].
  - unfold others, rows_of. simpl. f_equal. apply filter_insert_out; [auto|]. intros y E'. by rewrite E in E'.
Qed.
Lemma others_insert_token t j db db' : insert_join_token j db = Ok db' -> jt_tenant_id j = t -> others t db' = others t db.
Proof.
  unfold insert_join_token. intros U T. inv_ok. unfold others, rows_of. simpl. f_equal.
  apply filter_insert_out; [auto|]. intros y E. match goal with N : ~ is_Some _ |- _ => destruct N; eauto end.
Qed.
Lemma others_insert_config t h db db' :
  insert_config_history h db = Ok db' -> (forall i, ch_tenant_id (h i) = t) -> others t db' = others t db.
Proof.
  unfold insert_config_history. intros U T. inv_ok. unfold others, rows_of. simpl. f_equal.
  rewrite filter_app, filter_cons_False, filter_nil by (rewrite T; auto). apply app_nil_r.
Qed.

Lemma operator_writes_others t c db db' a w :
  operator_call t c = true -> perform c db = Ok (a, w) -> w db = Ok db' -> others t db' = others t db.
Proof.
  intros O P W.
  destruct c; simpl in O; try done; bool_simpl; subst; simpl in P; open_call P; inv_ok; try done.
  1, 2: eapply others_upsert; [eauto|eauto with fleet|done|simpl; congruence].
  - match goal with O : own_device _ _ _ = Some _ |- _ => apply own_device_some in O as [D <-] end.
    etrans; [by eapply others_insert_config|]. eapply others_update_device; eauto with fleet.
  - by eapply others_insert_token.
  - eapply others_update_token; eauto with fleet.
  - match goal with O : own_device _ _ _ = Some _ |- _ => apply own_device_some in O as [D <-] end.
    eapply others_update_device; eauto with fleet.
Qed.

(** The registry never touches accounts, sessions or the audit log, and only
    the bootstrap creates a tenant. *)
Definition same_accounts (db db' : DB) : Prop :=
  fleet_users db' = fleet_users db /\ fleet_sessions db' = fleet_sessions db /\ fleet_audit_log db' = fleet_audit_log db.
Lemma registry_same_accounts c snapshot db db' a w : perform c snapshot = Ok (a, w) -> w db = Ok db' -> same_accounts db db'.
Proof.
  intros P W.
  destruct c; simpl in P; open_call P; inv_ok; try done;
    unfold upsert_device, report_applied, update_device, update_join_token, insert_join_token, insert_config_history, insert_certificate_history in *;
    repeat first [progress inv_ok | case_match]; done.
Qed.
Lemma operator_same_tenants t c snapshot db db' a w :
  operator_call t c = true -> perform c snapshot = Ok (a, w) -> w db = Ok db' -> tenants db' = tenants db.
Proof.
  intros O P W.
  destruct c; simpl in O; try done; simpl in P; open_call P; inv_ok; try done;
    unfold upsert_device, update_device, update_join_token, insert_join_token, insert_config_history in *;
    repeat first [progress inv_ok | case_match]; done.
Qed.

(** An operation on behalf of tenant [t] (registration, token issue and
    revocation, config push, metadata) leaves every device, join token and
    history row of every other tenant exactly as it was, whether it succeeds or
    raises. *)
Theorem tenant_writes_isolated t c db db' r :
  operator_call t c = true -> exec (perform c) db = (db', r) -> others t db' = others t db.
Proof.
  intros O E. apply exec_cases in E as [(a & w & P & W & _)|[-> _]]; [|done]. by eapply operator_writes_others.
Qed.

Lemma own_device_view t k db : own_device t k db = v_devices (own t db) !! k.
Proof.
  apply option_eq. intros d. rewrite own_device_some. simpl. by rewrite map_lookup_filter_Some.
Qed.
Lemma filter_tenant {A} (f : A -> uuid) t (g : A -> bool) (l : list A) :
  List.filter (fun h => (f h =? t) && g h) l = List.filter g (filter (fun h => f h = t) l).
Proof.
  induction l as [|x l IH]; [done|]. rewrite filter_cons. simpl. destruct (Z.eqb_spec (f x) t) as [E|E]; simpl.
  - rewrite decide_True by done. simpl. by rewrite IH.
  - by rewrite decide_False.
Qed.

(** C14: What an operator of tenant [t] is told, by every read and by the answer
    of a push, a revocation or a metadata update, depends only on the rows of
    [t]: equal rows of [t] give equal answers whatever other tenants store. *)
Theorem tenant_reads_isolated t db1 db2 :
  own t db1 = own t db2 ->
  list_devices t db1 = list_devices t db2 /\ list_join_tokens t db1 = list_join_tokens t db2 /\
  (forall k, get t k db1 = get t k db2 /\ list_config_history t k db1 = list_config_history t k db2 /\
             list_certificate_history t k db1 = list_certificate_history t k db2) /\
  (forall k config by_whom now, rmap fst (queue_config t k config by_whom now db1) = rmap fst (queue_config t k config by_whom now db2)) /\
  (forall i by_whom now, rmap fst (revoke_join_token t i by_whom now db1) = rmap fst (revoke_join_token t i by_whom now db2)) /\
  (forall k fields, rmap fst (update_metadata t k fields db1) = rmap fst (update_metadata t k fields db2)).
Proof.
  intros E. pose proof E as V. injection V as ED ET EH EC.
  repeat match goal with |- _ /\ _ => split | |- forall _, _ => intro end;
    unfold list_devices, list_join_tokens, get, list_config_history, list_certificate_history, queue_config, update_metadata;
    rewrite ?filter_tenant, ?own_device_view, ?E; try done.
  1: do 4 f_equal; exact ED.
  1: do 3 f_equal; exact ET.
  1, 2: do 2 f_equal; (exact EH || exact EC).
  assert (forall db, rmap fst (revoke_join_token t i by_whom now db) = Ok (bool_decide (is_Some (v_tokens (own t db) !! i)))) as R.
  { intros db. unfold revoke_join_token. simpl. destruct (join_tokens db !! i) as [j|] eqn:J.
    - destruct (Z.eqb_spec (jt_tenant_id j) t) as [N|N]; simpl.
      + rewrite bool_decide_true; [done|]. exists j. by apply map_lookup_filter_Some.
      + rewrite bool_decide_false; [done|]. intros [y [Y1 Y2]%map_lookup_filter_Some]. naive_solver.
    - rewrite bool_decide_false; [done|]. intros [y [Y1 Y2]%map_lookup_filter_Some]. naive_solver. }
  by rewrite !R, E.
Qed.

(** ** Single use of join tokens *)

(** Calls run one after the other, with what each returned. *)
Fixpoint run (cs : list call) (db : DB) : DB * list (call * res answer) :=
  match cs with
  | [] => (db, [])
  | c :: cs => let '(db1, r) := exec (perform c) db in let '(db2, rs) := run cs db1 in (db2, (c, r) :: rs)
  end.
(** A call that redeemed the token stored under [h]. *)
Definition redeems (h : string) (e : call * res answer) : bool :=
  match e with
  | (CConsumeJoinToken _ token _, Ok (ATenant (Some _))) => String.eqb (hash_token token) h
  | _ => false
  end.
Definition spent (h : string) (db : DB) : Prop :=
  exists j, join_tokens db !! h = Some j /\ (is_Some (jt_consumed_at j) \/ is_Some (jt_revoked_at j)).
(** The stored token admits this redemption. *)
Definition admits (h : string) (db : DB) (e : call * res answer) : Prop :=
  match e with
  | (CConsumeJoinToken k token now, Ok (ATenant (Some t))) =>
      exists j, join_tokens db !! h = Some j /\ jt_device_id j = k /\ jt_tenant_id j = t /\ now <= jt_expires_at j /\ is_Some (jt_consumed_at j)
  | _ => False
  end.

Lemma exec_evolves c db db' r : exec (perform c) db = (db', r) -> evolves db db'.
Proof. intros E. apply exec_cases in E as [(a & w & P & W & _)|[-> _]]; [by eapply writes_evolve|reflexivity]. Qed.
Lemma run_evolves cs db db' rs : run cs db = (db', rs) -> evolves db db'.
Proof.
  revert db rs. induction cs as [|c cs IH]; intros db rs; simpl; [intros [= <- <-]; reflexivity|].
  destruct (exec (perform c) db) as [db1 r] eqn:E. destruct (run cs db1) as [db2 rs'] eqn:R. intros [= <- <-].
  etrans; [by eapply exec_evolves|by eapply IH].
Qed.
Lemma spent_evolves h db db' : evolves db db' -> spent h db -> spent h db'.
Proof. intros (_ & T & _) (j & J & S). apply T in J as (j' & J & ? & ? & ? & ? & ?). exists j'. naive_solver. Qed.
Lemma admits_evolves h db db' e : evolves db db' -> admits h db e -> admits h db' e.
Proof.
  intros (_ & T & _). destruct e as [[] [[| | | |[u|]|]|]]; simpl; try done.
  intros (j & J & <- & <- & X & S). apply T in J as (j' & J & A & B & C & D & _). exists j'. rewrite A, B, C. repeat split; auto.
Qed.
Lemma redeems_step h c db db' r :
  exec (perform c) db = (db', r) -> redeems h (c, r) = true -> ~ spent h db /\ spent h db' /\ admits h db' (c, r).
Proof.
  intros E R. destruct c, r as [[| | | |[u|]|]|]; try done. apply String.eqb_eq in R as <-.
  apply exec_ok in E as (w & P & W & _). simpl in P. apply tmap_ok in P as (a & P & [= <-]). unfold consume_join_token in P.
  destruct (join_tokens db !! hash_token token) as [j|] eqn:J; [|done].
  destruct (bool_decide _ || bool_decide _) eqn:U; [done|]. apply orb_false_iff in U as [C V].
  inv_ok. destruct x; [|done]. destruct (_ <? _) eqn:X; simpl in P; [done|]. inv_ok.
  unfold update_join_token in W. rewrite J in W. injection W as <-.
  match goal with D : compare_digest _ _ = Ok _ |- _ => unfold compare_digest in D; inv_ok end.
  split; [|split].
  - intros (j' & J' & S). rewrite J in J'. injection J' as <-. tauto.
  - eexists. simpl. rewrite lookup_insert_eq. split; [done|]. left. by eexists.
  - eexists. simpl. rewrite lookup_insert_eq. split; [done|]. simpl. repeat split; try done.
    by apply String.eqb_eq.
Qed.

(** C12: In any sequence of registry calls a join token is redeemed at most once,
    never after it was revoked, only for the device it was issued for, not
    after it expired, and the tenant returned is the one it was issued under. *)
Theorem join_token_single_use cs db db' rs h :
  run cs db = (db', rs) ->
  (length (List.filter (redeems h) rs) <= 1)%nat /\ (spent h db -> List.filter (redeems h) rs = []) /\
  Forall (admits h db') (List.filter (redeems h) rs).
Proof.
  revert db rs. induction cs as [|c cs IH]; intros db rs; simpl; [intros [= <- <-]; simpl; repeat split; auto|].
  destruct (exec (perform c) db) as [db1 r] eqn:E. destruct (run cs db1) as [db2 rs'] eqn:R. intros [= <- <-].
  specialize (IH _ _ R) as (L & S & F). cbn [List.filter]. destruct (redeems h (c, r)) eqn:D.
  - apply (redeems_step _ _ _ _ _ E) in D as (N & S1 & A). rewrite (S S1). simpl. split; [lia|split; [done|]].
    constructor; [|done]. eapply admits_evolves; [by eapply run_evolves|done].
  - split; [done|split; [|done]]. intros Sp. apply S. eapply spent_evolves; [by eapply exec_evolves|done].
Qed.
End Properties.

Section Examples.
#[local] Existing Instance open_database.
#[local] Existing Instance hex_tokens.
Definition sixty : pfloat := float_of_Z_raw 60.
Definition tenants_12 : DB := set_tenants {[ 1 := MkTenant 1 "a" 0; 2 := MkTenant 2 "b" 0 ]} empty_db.
Definition issue : call := CCreateJoinToken 1 "dev" sixty "secret" 0.
Definition issued : DB := fst (exec (perform issue) tenants_12).

Lemma registry_append_only_witness : evolves tenants_12 issued.
Proof. apply registry_append_only. apply rtc_once. exists issue, tenants_12. eexists. apply surjective_pairing. Defined.
Definition enrolled_elsewhere : call := CRegister 2 "other" None None sixty "tok" 1.
Lemma tenant_writes_isolated_witness :
  snd (exec (perform enrolled_elsewhere) issued) = Ok (AToken "tok") /\
  others 2 (fst (exec (perform enrolled_elsewhere) issued)) = others 2 issued.
Proof.
  split; [vm_compute; reflexivity|].
  apply (tenant_writes_isolated 2 enrolled_elsewhere issued _ (snd (exec (perform enrolled_elsewhere) issued))); [reflexivity|].
  apply surjective_pairing.
Defined.
Lemma tenant_reads_isolated_witness : get 2 "dev" issued = get 2 "dev" tenants_12.
Proof. eapply (tenant_reads_isolated 2). vm_compute. reflexivity. Defined.
Definition redemption : list call :=
  [CConsumeJoinToken "other" "secret" 1; CConsumeJoinToken "dev" "secret" 2; CConsumeJoinToken "dev" "secret" 3].
Lemma join_token_single_use_witness :
  map snd (snd (run redemption issued)) = [Ok (ATenant None); Ok (ATenant (Some 1)); Ok (ATenant None)] /\
  (length (List.filter (redeems (hex "secret")) (snd (run redemption issued))) <= 1)%nat.
Proof.
  split; [vm_compute; reflexivity|].
  apply (join_token_single_use redemption issued (fst (run redemption issued)) (snd (run redemption issued)) (hex "secret")).
  apply surjective_pairing.
Defined.
End Examples.
