(* ===== verification/FleetPush.v ===== *)
(** * Config pushes through the registry (src/xedge/fleet/registry.py)

    [queue_config], [take_pending_config] and [heartbeat] together are a
    mailbox: a push replaces the pending one, a heartbeat response empties it,
    and the history table records every push.  The invariant that ties the
    three is kept by every call, and gives numbering, at-most-once delivery and
    the absence of database errors. *)

From Stdlib Require Import Ascii.
From S2P Require Import Prelude PyText PyFloat PyDict PyTime FleetDb FleetRegistry.
Local Open Scope string_scope.
Local Open Scope list_scope.
Local Open Scope Z_scope.

Section Push.
Context `{Database} `{TokenHash}.

(** Version and config of the pushes recorded for device [k], oldest first. *)
Definition pushes_in (k : string) (l : list DeviceConfigHistory) : list (Z * dict json) :=
  map (fun h => (ch_config_version h, ch_config_json h)) (List.filter (fun h => String.eqb (ch_device_id h) k) l).
Definition device_pushes (k : string) (db : DB) : list (Z * dict json) := pushes_in k (config_history db).

(** The pending columns of a device are those the pushes determine. *)
Definition pending_ok (pushes : list (Z * dict json)) (d : Device) : Prop :=
  0 <= pending_config_version d /\ map fst pushes = seqZ 1 (pending_config_version d) /\
  (forall c, pending_config_json d = Some c -> exists l, pushes = l ++ [(pending_config_version d, c)]).
Record registry_ok (db : DB) : Prop := {
  ok_pending : forall k d, devices db !! k = Some d -> pending_ok (device_pushes k db) d;
  ok_orphans : forall k, devices db !! k = None -> device_pushes k db = [];
  ok_tenants : forall k d, devices db !! k = Some d -> tenant_exists (tenant_id d) db = true }.

Lemma pushes_in_pushed k l l' : map pushed l = map pushed l' -> pushes_in k l = pushes_in k l'.
Proof.
  revert l'. induction l as [|h l IH]; intros [|h' l']; try done. intros [= E1 E2 E3 E4 E5 E6 E7 E].
  unfold pushes_in in *. simpl. rewrite E3. destruct (String.eqb _ _); simpl; [|by apply IH]. rewrite E4, E5. f_equal. by apply IH.
Qed.
Lemma pushes_in_snoc k l h :
  pushes_in k (l ++ [h]) = pushes_in k l ++ (if String.eqb (ch_device_id h) k then [(ch_config_version h, ch_config_json h)] else []).
Proof. unfold pushes_in. rewrite List.filter_app, map_app. simpl. by destruct (String.eqb _ _). Qed.

(** The columns a device row must keep for the invariant to survive. *)
Definition keeps_pending (d d' : Device) : Prop :=
  tenant_id d' = tenant_id d /\ pending_config_version d' = pending_config_version d /\
  (pending_config_json d' = pending_config_json d \/ pending_config_json d' = None).
Definition fresh_row (db : DB) (d : Device) : Prop :=
  tenant_exists (tenant_id d) db = true /\ pending_config_version d = 0 /\ pending_config_json d = None.

Lemma registry_ok_frame db db' :
  registry_ok db ->
  map pushed (config_history db') = map pushed (config_history db) ->
  (forall t, tenant_exists t db = true -> tenant_exists t db' = true) ->
  (forall k d', devices db' !! k = Some d' ->
     (exists d, devices db !! k = Some d /\ keeps_pending d d') \/ (devices db !! k = None /\ fresh_row db' d')) ->
  (forall k, devices db' !! k = None -> devices db !! k = None) ->
  registry_ok db'.
Proof.
  intros [P O T] E X D N.
  assert (forall k, device_pushes k db' = device_pushes k db) as Q by (intros k; by apply pushes_in_pushed).
  split.
  - intros k d' L. rewrite Q. destruct (D k d' L) as [(d & Ld & A & B & C)|(Ld & A & B & C)].
    + destruct (P k d Ld) as (P1 & P2 & P3). unfold pending_ok. rewrite B. repeat split; [done|done|].
      intros c Hc. destruct C as [C|C]; [|congruence]. apply P3. congruence.
    + rewrite (O k Ld). unfold pending_ok. rewrite B, C. by repeat split.
  - intros k L. rewrite Q. apply O, N, L.
  - intros k d' L. destruct (D k d' L) as [(d & Ld & A & B & C)|(Ld & A & B & C)]; [|done]. rewrite A. apply X. by eapply T.
Qed.

Lemma frame_same_devices db db' :
  registry_ok db -> map pushed (config_history db') = map pushed (config_history db) ->
  (forall t, tenant_exists t db = true -> tenant_exists t db' = true) -> devices db' = devices db -> registry_ok db'.
Proof.
  intros OK E X D. eapply registry_ok_frame; [done..| |by rewrite D]. intros k d' L. rewrite D in L. left. exists d'.
  unfold keeps_pending. auto.
Qed.
Lemma frame_update_device k f db db' :
  registry_ok db -> update_device k f db = Ok db' -> (forall d, keeps_pending d (f d)) -> registry_ok db'.
Proof.
  intros OK U F. unfold update_device in U. destruct (devices db !! k) as [d|] eqn:L; [|done]. injection U as <-.
  eapply registry_ok_frame; try done; simpl.
  - intros k' d' [[<- <-]|[N L']]%lookup_insert_Some; left; [by exists d|]. exists d'. unfold keeps_pending. auto.
  - by intros k' [L' N]%lookup_insert_None.
Qed.

Lemma seqZ_snoc v : 0 <= v -> seqZ 1 (v + 1) = seqZ 1 v ++ [v + 1].
Proof. intros V. rewrite seqZ_app by lia. f_equal. rewrite seqZ_cons, seqZ_nil by lia. f_equal. lia. Qed.

Lemma same_version_pushes k v l :
  existsb (same_version k v) l = true -> v ∈ map fst (pushes_in k l).
Proof.
  intros (h & I & E)%existsb_exists. unfold same_version in E. bool_simpl.
  apply list_elem_of_In, in_map_iff. exists (ch_config_version h, ch_config_json h). split; [done|].
  apply in_map_iff. exists h. split; [done|]. by apply List.filter_In.
Qed.

(** The writes of a push on tables where the invariant holds. *)
Lemma push_writes db k d config row :
  registry_ok db -> devices db !! k = Some d ->
  (forall i, ch_tenant_id (row i) = tenant_id d /\ ch_device_id (row i) = k /\
             ch_config_version (row i) = pending_config_version d + 1 /\ ch_config_json (row i) = config) ->
  exists db1 db', update_device k (with_pending (Some config) (pending_config_version d + 1)) db = Ok db1 /\
    insert_config_history row db1 = Ok db' /\ registry_ok db' /\
    devices db' !! k = Some (with_pending (Some config) (pending_config_version d + 1) d) /\
    device_pushes k db' = device_pushes k db ++ [(pending_config_version d + 1, config)].
Proof.
  intros OK L R. destruct (ok_pending _ OK _ _ L) as (V & S & _). unfold update_device. rewrite L. eexists _, _. split; [done|].
  specialize (R (zlen (config_history db) + 1)) as (R1 & R2 & R3 & R4).
  unfold insert_config_history. simpl. rewrite R1, R2, R3. unfold tenant_exists. simpl.
  rewrite (ok_tenants _ OK _ _ L : bool_decide _ = true), (bool_decide_true (is_Some _)) by (rewrite lookup_insert_eq; eauto).
  assert (existsb (same_version k (pending_config_version d + 1)) (config_history db) = false) as ->.
  { destruct (existsb _ _) eqn:X; [|done]. apply same_version_pushes in X. unfold device_pushes in S. rewrite S in X.
    apply elem_of_seqZ in X. lia. }
  simpl. split; [done|].
  assert (device_pushes k (set_config_history (config_history db ++ [row (zlen (config_history db) + 1)])
            (set_devices (<[k := with_pending (Some config) (pending_config_version d + 1) d]> (devices db)) db))
          = device_pushes k db ++ [(pending_config_version d + 1, config)]) as Q.
  { unfold device_pushes. simpl. by rewrite pushes_in_snoc, R2, R3, R4, String.eqb_refl. }
  split; [|split; [simpl; apply lookup_insert_eq|done]].
  assert (forall k', k' <> k -> pushes_in k' (config_history db ++ [row (zlen (config_history db) + 1)]) = device_pushes k' db) as Q'.
  { intros k' N. rewrite pushes_in_snoc, R2. destruct (String.eqb_spec k k'); [congruence|]. apply app_nil_r. }
  split; simpl.
  - intros k' d' [[<- <-]|[N L']]%lookup_insert_Some.
    + rewrite Q. unfold pending_ok. simpl. split; [lia|split]; [by rewrite map_app, S, seqZ_snoc|]. intros c [= <-]. eauto.
    + unfold device_pushes. simpl. rewrite Q' by done. by apply (ok_pending _ OK).
  - intros k' [L' N]%lookup_insert_None. unfold device_pushes. simpl. rewrite Q' by done. by apply (ok_orphans _ OK).
  - intros k' d' [[<- <-]|[N L']]%lookup_insert_Some; [exact (ok_tenants _ OK _ _ L)|by eapply (ok_tenants _ OK)].
Qed.

Lemma report_applied_frame k a now snap w db db' :
  report_applied k a now snap = Ok w -> w db = Ok db' -> registry_ok db -> registry_ok db'.
Proof.
  intros R W OK.
  assert (devices db' = devices db /\ tenants db' = tenants db /\ map pushed (config_history db') = map pushed (config_history db)) as (D & T & P).
  { unfold report_applied in R. destruct (default JNull _); inv_ok; try done;
      destruct (List.filter _ _) as [|? []]; inv_ok; simpl; try done; repeat split; rewrite map_map; apply map_ext;
      intros h; by destruct (_ =? _). }
  eapply frame_same_devices; [done|done| |done]. intros t. unfold tenant_exists. by rewrite T.
Qed.
Lemma set_metadata_keeps fields d : keeps_pending d (foldl set_metadata d fields).
Proof.
  revert d. induction fields as [|[n v] fs IH]; intros d; [unfold keeps_pending; simpl; auto|].
  exact (IH (set_metadata d (n, v))).
Qed.
Lemma upsert_keeps row f db db' :
  registry_ok db -> upsert_device row f db = Ok db' -> (forall d, keeps_pending d (f d)) ->
  pending_config_version row = 0 -> pending_config_json row = None -> registry_ok db'.
Proof.
  unfold upsert_device. intros OK U F V J. destruct (devices db !! device_id row) as [d|] eqn:L; inv_ok.
  - eapply frame_update_device; [done|unfold update_device; by rewrite L|done].
  - eapply registry_ok_frame; try done; simpl.
    + intros k' d' [[<- <-]|[N L']]%lookup_insert_Some; [right; by repeat split|left]. exists d'. unfold keeps_pending. auto.
    + by intros k' [L' N]%lookup_insert_None.
Qed.
Lemma certificate_keeps h db db' : registry_ok db -> insert_certificate_history h db = Ok db' -> registry_ok db'.
Proof. unfold insert_certificate_history. intros OK U. inv_ok. by eapply frame_same_devices. Qed.
Lemma join_token_keeps k f db db' : registry_ok db -> update_join_token k f db = Ok db' -> registry_ok db'.
Proof. unfold update_join_token. intros OK U. case_match; inv_ok. by eapply frame_same_devices. Qed.
Lemma insert_token_keeps j db db' : registry_ok db -> insert_join_token j db = Ok db' -> registry_ok db'.
Proof. unfold insert_join_token. intros OK U. inv_ok. by eapply frame_same_devices. Qed.
Lemma new_tenant_keeps i t db : registry_ok db -> registry_ok (set_tenants (<[i := t]> (tenants db)) db).
Proof.
  intros OK. eapply frame_same_devices; try done. intros u. unfold tenant_exists. simpl. intros E. bool_simpl.
  apply bool_decide_true. rewrite lookup_insert_is_Some'. auto.
Qed.
Lemma keeps_pending_simple d d' :
  tenant_id d' = tenant_id d -> pending_config_version d' = pending_config_version d ->
  pending_config_json d' = pending_config_json d \/ pending_config_json d' = None -> keeps_pending d d'.
Proof. unfold keeps_pending. auto. Qed.
Lemma push_keeps db k d config row db1 db' :
  registry_ok db -> devices db !! k = Some d ->
  update_device k (with_pending (Some config) (pending_config_version d + 1)) db = Ok db1 ->
  insert_config_history row db1 = Ok db' ->
  (forall i, ch_tenant_id (row i) = tenant_id d /\ ch_device_id (row i) = k /\
             ch_config_version (row i) = pending_config_version d + 1 /\ ch_config_json (row i) = config) ->
  registry_ok db'.
Proof.
  intros OK L U I R. destruct (push_writes _ _ _ _ _ OK L R) as (db2 & db3 & U' & I' & K & _).
  rewrite U in U'. injection U' as <-. rewrite I in I'. by injection I' as <-.
Qed.

Lemma registry_ok_step c db db' r : registry_ok db -> exec (perform c) db = (db', r) -> registry_ok db'.
Proof.
  intros OK E. apply exec_cases in E as [(a & w & P & W & _)|[-> _]]; [|done].
  destruct c; simpl in P; open_call P; inv_ok; try done.
  - by apply new_tenant_keeps.
  - eapply upsert_keeps; try done; simpl. intros. apply keeps_pending_simple; auto.
  - eapply upsert_keeps; try done; simpl. intros. apply keeps_pending_simple; auto.
  - eapply report_applied_frame; [done..|]. eapply frame_update_device; [done..|]. intros. apply keeps_pending_simple; auto.
  - eapply frame_update_device; [done..|]. intros. apply keeps_pending_simple; auto.
  - match goal with O : own_device _ _ _ = Some _ |- _ => apply own_device_some in O as [L <-] end.
    match goal with U : update_device _ _ _ = _ |- _ => by eapply (push_keeps _ _ _ _ _ _ _ OK L U W) end.
  - eapply frame_update_device; [done..|]. intros. apply keeps_pending_simple; auto.
  - by eapply insert_token_keeps.
  - by eapply join_token_keeps.
  - by eapply join_token_keeps.
  - eapply certificate_keeps; [|done]. eapply frame_update_device; [done..|]. intros. apply keeps_pending_simple; auto.
  - eapply frame_update_device; [done..|]. apply set_metadata_keeps.
Qed.

(** ** Deliveries *)

(** The config and version a call hands to device [k]. *)
Definition delivery (k : string) (e : call * res answer) : option (dict json * Z) :=
  match e with
  | (CTakePendingConfig k', Ok (AConfig c)) => if String.eqb k' k then c else None
  | _ => None
  end.
Definition deliveries (k : string) (rs : list (call * res answer)) : list (dict json * Z) := omap (delivery k) rs.

(** The least version a device row can still deliver. *)
Definition next_version (o : option Device) : Z :=
  match o with
  | Some d => match pending_config_json d with Some _ => pending_config_version d | None => pending_config_version d + 1 end
  | None => 1
  end.
Lemma keeps_pending_next d d' : keeps_pending d d' -> next_version (Some d) <= next_version (Some d').
Proof. intros (_ & V & [P|P]); simpl; rewrite P, V; [lia|]. destruct (pending_config_json d); lia. Qed.
Lemma update_next k0 f db db' :
  update_device k0 f db = Ok db' ->
  (forall d, devices db !! k0 = Some d -> next_version (Some d) <= next_version (Some (f d))) ->
  forall k, next_version (devices db !! k) <= next_version (devices db' !! k).
Proof.
  unfold update_device. intros U F k. destruct (devices db !! k0) as [d|] eqn:L; [|done]. injection U as <-.
  simpl. destruct (decide (k = k0)) as [->|N]; [rewrite lookup_insert_eq, L; auto|]. rewrite lookup_insert_ne by done. lia.
Qed.
Lemma update_keeps_next k0 f db db' :
  update_device k0 f db = Ok db' -> (forall d, keeps_pending d (f d)) ->
  forall k, next_version (devices db !! k) <= next_version (devices db' !! k).
Proof. intros U F. eapply update_next; [done|]. intros d _. apply keeps_pending_next, F. Qed.
Lemma upsert_next row f db db' :
  upsert_device row f db = Ok db' -> (forall d, keeps_pending d (f d)) ->
  pending_config_version row = 0 -> pending_config_json row = None ->
  forall k, next_version (devices db !! k) <= next_version (devices db' !! k).
Proof.
  unfold upsert_device. intros U F V J k. destruct (devices db !! device_id row) as [d|] eqn:L; inv_ok.
  - eapply (update_keeps_next (device_id row) f); [unfold update_device; by rewrite L|done].
  - simpl. destruct (decide (k = device_id row)) as [->|N].
    + rewrite lookup_insert_eq, L. simpl. rewrite V, J. lia.
    + rewrite lookup_insert_ne by done. lia.
Qed.
Lemma same_devices_next db db' :
  devices db' = devices db -> forall k, next_version (devices db !! k) <= next_version (devices db' !! k).
Proof. intros -> k. lia. Qed.
Lemma insert_token_devices j db db' : insert_join_token j db = Ok db' -> devices db' = devices db.
Proof. unfold insert_join_token. intros U. by inv_ok. Qed.
Lemma update_token_devices k f db db' : update_join_token k f db = Ok db' -> devices db' = devices db.
Proof. unfold update_join_token. intros U. case_match; by inv_ok. Qed.
Lemma insert_config_devices h db db' : insert_config_history h db = Ok db' -> devices db' = devices db.
Proof. unfold insert_config_history. intros U. by inv_ok. Qed.
Lemma insert_certificate_devices h db db' : insert_certificate_history h db = Ok db' -> devices db' = devices db.
Proof. unfold insert_certificate_history. intros U. by inv_ok. Qed.
Lemma report_applied_devices k a now snap w db db' :
  report_applied k a now snap = Ok w -> w db = Ok db' -> devices db' = devices db.
Proof.
  unfold report_applied. intros R W. destruct (default JNull _); inv_ok; try done;
    destruct (List.filter _ _) as [|? []]; by inv_ok.
Qed.

Lemma next_version_step c db db' r k :
  exec (perform c) db = (db', r) -> next_version (devices db !! k) <= next_version (devices db' !! k).
Proof.
  intros E. apply exec_cases in E as [(a & w & P & W & _)|[-> _]]; [|lia].
  revert k. destruct c; simpl in P; open_call P; inv_ok; try done.
  1, 2: eapply upsert_next; try done; intros; apply keeps_pending_simple; auto.
  1: rewrite (report_applied_devices _ _ _ _ _ _ _ ltac:(eassumption) W).
  1, 2: eapply update_keeps_next; [done|]; intros; apply keeps_pending_simple; auto.
  - match goal with O : own_device _ _ _ = Some _ |- _ => apply own_device_some in O as [L <-] end.
    rewrite (insert_config_devices _ _ _ W). eapply update_next; [done|]. intros d' L'. rewrite L in L'. injection L' as <-.
    simpl. destruct (pending_config_json d); lia.
  - eapply update_keeps_next; [done|]; intros; apply keeps_pending_simple; auto.
  - eapply same_devices_next, insert_token_devices, W.
  - eapply same_devices_next, update_token_devices, W.
  - eapply same_devices_next, update_token_devices, W.
  - rewrite (insert_certificate_devices _ _ _ W). eapply update_keeps_next; [done|]; intros; apply keeps_pending_simple; auto.
  - eapply update_keeps_next; [done|]. intros. apply set_metadata_keeps.
Qed.

Lemma pushes_in_prefix k l l' : map pushed l `prefix_of` map pushed l' -> pushes_in k l `prefix_of` pushes_in k l'.
Proof.
  revert l'. induction l as [|h l IH]; intros l' [z E]; [exists (pushes_in k l'); done|].
  destruct l' as [|h' l']; [done|]. injection E as E1 E2 E3 E4 E5 E6 E7 E. unfold pushes_in in *. simpl. rewrite E3.
  destruct (IH l') as [w Q]; [by exists z|]. destruct (String.eqb _ _); simpl; exists w; rewrite Q; [|done]. by rewrite E4, E5.
Qed.
Lemma recorded_later k x db db' : evolves db db' -> x ∈ device_pushes k db -> x ∈ device_pushes k db'.
Proof. intros (_ & _ & P & _) I. apply (pushes_in_prefix k) in P as [z E]. unfold device_pushes. rewrite E. set_solver. Qed.

Lemma delivery_step c db db' r k cf v :
  registry_ok db -> exec (perform c) db = (db', r) -> delivery k (c, r) = Some (cf, v) ->
  next_version (devices db !! k) <= v /\ v < next_version (devices db' !! k) /\ (v, cf) ∈ device_pushes k db'.
Proof.
  intros OK E D. pose proof (exec_evolves _ _ _ _ E) as EV.
  destruct c as [| | | |k'| | | | |], r as [[| | |c| |]|]; try done. simpl in D. destruct (String.eqb_spec k' k) as [->|]; [|done]. subst c.
  apply exec_ok in E as (w & P & W & _). simpl in P. apply tmap_ok in P as (a & P & [= <-]). unfold take_pending_config in P.
  destruct (devices db !! k) as [d|] eqn:L; [|done]. destruct (pending_config_json d) as [c|] eqn:J; [|done]. inv_ok.
  destruct (ok_pending _ OK _ _ L) as (_ & _ & Q). destruct (Q _ J) as [l Hl]. simpl. rewrite J. split; [lia|].
  split; [|eapply recorded_later; [exact EV|rewrite Hl; set_solver]].
  unfold update_device in W. rewrite L in W. injection W as <-. simpl. rewrite lookup_insert_eq. simpl. lia.
Qed.

(** C13: Starting from consistent tables, whatever the sequence of calls: the
    pushes of every device stay numbered 1, 2, ... without gap or repetition
    and the pending config is the latest push; the versions a device receives
    strictly increase, so a push is delivered at most once and never after a
    newer one; and each delivered config is the one recorded under its version. *)
Theorem config_delivery cs db db' rs k :
  registry_ok db -> run cs db = (db', rs) ->
  registry_ok db' /\ StronglySorted Z.lt (map snd (deliveries k rs)) /\
  Forall (fun '(config, v) => (v, config) ∈ device_pushes k db') (deliveries k rs).
Proof.
  intros OK R.
  enough (registry_ok db' /\ Forall (Z.le (next_version (devices db !! k))) (map snd (deliveries k rs)) /\
    StronglySorted Z.lt (map snd (deliveries k rs)) /\
    Forall (fun '(config, v) => (v, config) ∈ device_pushes k db') (deliveries k rs)) by tauto.
  revert db rs OK R. induction cs as [|c cs IH]; intros db rs OK; cbn [run]; [intros [= <- <-]; split; [done|by repeat constructor]|].
  destruct (exec (perform c) db) as [db1 r] eqn:E. destruct (run cs db1) as [db2 rs'] eqn:R. intros [= <- <-].
  specialize (IH _ _ (registry_ok_step _ _ _ _ OK E) R) as (K & B & S & F).
  pose proof (next_version_step _ _ _ _ k E) as N.
  unfold deliveries in *. cbn [omap list_omap]. destruct (delivery k (c, r)) as [[cf v]|] eqn:D.
  - destruct (delivery_step _ _ _ _ _ _ _ OK E D) as (D1 & D2 & D3). split; [done|]. cbn [map]. split; [|split].
    + constructor; [done|]. eapply Forall_impl; [exact B|]. simpl. lia.
    + constructor; [done|]. eapply Forall_impl; [exact B|]. simpl. lia.
    + constructor; [|done]. eapply recorded_later; [by eapply run_evolves|done].
  - split; [done|split; [|done]]. eapply Forall_impl; [exact B|]. simpl. lia.
Qed.

(** What a push to a device of the operator's own tenant does. *)
Lemma queue_config_effect db t k d config by_whom now :
  registry_ok db -> own_device t k db = Some d -> (forall a b, commit a b = Ok tt) ->
  exists db', exec (queue_config t k config by_whom now) db = (db', Ok (pending_config_version d + 1)) /\ registry_ok db' /\
    devices db' !! k = Some (with_pending (Some config) (pending_config_version d + 1) d).
Proof.
  intros OK [L <-]%own_device_some C.
  destruct (push_writes db k d config (fun i => MkDeviceConfigHistory i (tenant_id d) k (pending_config_version d + 1) config now by_whom None JNull JNull)
    OK L) as (db1 & db' & U & I & OK' & L' & _); [done|]. exists db'. split; [|done].
  unfold exec, apply_writes, queue_config. rewrite (proj2 (own_device_some (tenant_id d) k db d)) by done.
  rewrite U. cbn [rbind]. rewrite I. cbn [rbind]. by rewrite C.
Qed.

(** A push to a device of the operator's own tenant is accepted with the
    next version, handed over by the next heartbeat response, and not again by
    the one after it. *)
Theorem push_delivered db t k d config by_whom now :
  registry_ok db -> own_device t k db = Some d -> (forall a b, commit a b = Ok tt) ->
  exists db1 db2,
    exec (queue_config t k config by_whom now) db = (db1, Ok (pending_config_version d + 1)) /\
    exec (take_pending_config k) db1 = (db2, Ok (Some (config, pending_config_version d + 1))) /\
    exec (take_pending_config k) db2 = (db2, Ok None).
Proof.
  intros OK O C. destruct (queue_config_effect db t k d config by_whom now OK O C) as (db' & Q & _ & L').
  exists db'. eexists. split; [exact Q|split].
  - unfold exec, apply_writes, take_pending_config. rewrite L'. simpl. unfold update_device. rewrite L'. simpl. by rewrite C.
  - unfold exec, apply_writes, take_pending_config. simpl. rewrite lookup_insert_eq. simpl. by rewrite C.
Qed.
End Push.

(** ** Overlapping transactions

    Two transactions that both read before either commits. *)
Section Overlap.
#[local] Existing Instance open_database.
#[local] Existing Instance hex_tokens.

Definition overlap {A B} (t1 : Tx A) (t2 : Tx B) (db : DB) : DB * (res A * res B) :=
  let '(db1, r1) := exec_stale t1 db db in let '(db2, r2) := exec_stale t2 db db1 in (db2, (r1, r2)).

(** Both overlapping redemptions of one join token succeed. *)
Example token_redeemed_twice :
  let db := fst (exec (create_join_token 1 "dev" sixty "secret" 0) tenants_12) in
  snd (overlap (consume_join_token "dev" "secret" 5) (consume_join_token "dev" "secret" 6) db) = (Ok (Some 1), Ok (Some 1)).
Proof. vm_compute. reflexivity. Qed.

(** Two tenants hold join tokens for the same new device id and enrol at once:
    the second registration replaces the device's token although the device is
    the first tenant's. *)
Example registration_takeover :
  let '(db, (r1, r2)) := overlap (register 1 "dev" None None sixty "token-a" 0) (register 2 "dev" None None sixty "token-b" 0) tenants_12 in
  r1 = Ok "token-a" /\ r2 = Ok "token-b" /\ tenant_id <$> devices db !! "dev" = Some 1 /\
  verify_token "dev" "token-b" db = Ok true /\ verify_token "dev" "token-a" db = Ok false.
Proof. vm_compute. repeat split; reflexivity. Qed.

(** One pending config is handed to two overlapping heartbeats; of two
    overlapping pushes the second fails on the version index. *)
Example config_delivered_twice :
  let db := fst (exec (register 1 "dev" None None sixty "tok" 0) tenants_12) in
  let db1 := fst (exec (queue_config 1 "dev" [] "op" 0) db) in
  snd (overlap (take_pending_config "dev") (take_pending_config "dev") db1) = (Ok (Some ([], 1)), Ok (Some ([], 1))) /\
  snd (overlap (queue_config 1 "dev" [] "op" 0) (queue_config 1 "dev" [] "op2" 0) db) = (Ok 1, Raise IntegrityError).
Proof. vm_compute. split; reflexivity. Qed.

(** A join token issued for a device id with a non-ASCII character can never
    be redeemed: the comparison raises instead of returning [None]. *)
Example non_ascii_device_id_raises :
  let dev := String (ascii_of_nat 195) (String (ascii_of_nat 169) "") in
  let db := fst (exec (create_join_token 1 dev sixty "secret" 0) tenants_12) in
  exec (consume_join_token dev "secret" 5) db = (db, Raise TypeError).
Proof. vm_compute. reflexivity. Qed.

Lemma empty_registry_ok : registry_ok tenants_12.
Proof. split; try done; intros k d E; change (devices tenants_12) with (∅ : gmap string Device) in E; by rewrite lookup_empty in E. Qed.

Definition push_calls : list call :=
  [CRegister 1 "dev" None None sixty "tok" 0; CQueueConfig 1 "dev" [] "op" 1; CQueueConfig 1 "dev" [("a", JNull)] "op" 2;
   CTakePendingConfig "dev"; CTakePendingConfig "dev"; CQueueConfig 1 "dev" [] "op" 3; CTakePendingConfig "dev"].
Lemma config_delivery_witness :
  deliveries "dev" (snd (run push_calls tenants_12)) = [([("a", JNull)], 2); ([], 3)] /\
  registry_ok (fst (run push_calls tenants_12)).
Proof.
  pose proof (config_delivery push_calls tenants_12 (fst (run push_calls tenants_12)) (snd (run push_calls tenants_12)) "dev"
    empty_registry_ok (surjective_pairing _)) as [K _].
  split; [vm_compute; reflexivity|exact K].
Defined.

Definition registered : DB := fst (exec (perform (CRegister 1 "dev" None None sixty "tok" 0)) tenants_12).
Lemma push_delivered_witness :
  exists d db1 db2, own_device 1 "dev" registered = Some d /\
    exec (queue_config 1 "dev" [] "op" 1) registered = (db1, Ok (pending_config_version d + 1)) /\
    exec (take_pending_config "dev") db1 = (db2, Ok (Some ([], pending_config_version d + 1))) /\
    exec (take_pending_config "dev") db2 = (db2, Ok None).
Proof.
  destruct (own_device 1 "dev" registered) as [d|] eqn:E; [|vm_compute in E; discriminate E].
  destruct (push_delivered registered 1 "dev" d [] "op" 1) as (db1 & db2 & A).
  - eapply registry_ok_step; [apply empty_registry_ok|]. apply surjective_pairing.
  - exact E.
  - done.
  - by exists d, db1, db2.
Defined.
End Overlap.
