(* ===== verification/FleetAuth.v ===== *)
(** * Accounts, sessions, lockout, permissions and audit of the fleet manager

    src/xedge/fleet/auth.py, permissions.py, audit.py.  bcrypt is a parameter. *)

From Stdlib Require Import Ascii.
From S2P Require Import Prelude PyText PyFloat PyDict PyTime FleetDb FleetRegistry.
Local Open Scope string_scope.
Local Open Scope list_scope.
Local Open Scope Z_scope.

(** ** Permissions *)

Definition ROLE_PERMISSIONS : dict (list string) :=
  [("admin", ["device:read"; "device:write"; "user:manage"; "audit:read"]);
   ("operator", ["device:read"; "device:write"]);
   ("auditor", ["device:read"; "audit:read"]);
   ("readonly", ["device:read"])].
Definition has_permission (role : option string) (permission : string) : bool :=
  match role with
  | None => false
  | Some r => existsb (String.eqb permission) (default [] (dict_get r ROLE_PERMISSIONS))
  end.

(** ** Users *)

(** [bcrypt.hashpw] with a salt and [bcrypt.checkpw]; both may reject a
    password. *)
Class Bcrypt := {
  hashpw : string -> string -> res string;
  checkpw : string -> string -> res bool }.

Definition DEFAULT_IDLE_TIMEOUT_SECONDS : Z := 15 * 60.
Definition DEFAULT_LOCKOUT_THRESHOLD : Z := 5.
Definition DEFAULT_LOCKOUT_WINDOW_SECONDS : Z := 15 * 60.

Definition username_char (c : ascii) : bool :=
  let n := Z.of_nat (nat_of_ascii c) in
  ((48 <=? n) && (n <=? 57)) || ((65 <=? n) && (n <=? 90)) || ((97 <=? n) && (n <=? 122)) || (n =? 95) || (n =? 46) || (n =? 45).
(** [_USERNAME_PATTERN.fullmatch] *)
Definition valid_username (s : string) : bool :=
  forallb username_char (list_ascii_of_string s) && (1 <=? Z.of_nat (String.length s)) && (Z.of_nat (String.length s) <=? 64).

Record FleetUserRecord := MkUserRecord { ur_id : uuid; ur_username : string; ur_role : string }.
Record AuthenticatedSession := MkSession { as_tenant_id : uuid; as_username : string; as_role : string }.
Definition user_record (u : FleetUser) : FleetUserRecord := MkUserRecord (us_id u) (us_username u) (us_role u).

Definition with_role (role : string) (u : FleetUser) : FleetUser :=
  MkFleetUser (us_id u) (us_tenant_id u) (us_username u) (us_password_hash u) role (us_created_at u).
Definition with_password (hash : string) (u : FleetUser) : FleetUser :=
  MkFleetUser (us_id u) (us_tenant_id u) (us_username u) hash (us_role u) (us_created_at u).
Definition with_expiry (t : datetime) (s : FleetSession) : FleetSession :=
  MkFleetSession (se_token_hash s) (se_user_id s) (se_created_at s) t.

(** Users of a query, in an unspecified order. *)
Definition select_users (f : FleetUser -> bool) (db : DB) : list FleetUser :=
  List.filter f (map snd (map_to_list (fleet_users db))).
Definition named (t : uuid) (username : string) (u : FleetUser) : bool :=
  (us_tenant_id u =? t) && String.eqb (us_username u) username.
(** [scalar_one_or_none] *)
Definition scalar_one_or_none {A} (l : list A) : res (option A) :=
  match l with [] => Ok None | [x] => Ok (Some x) | _ => Raise MultipleResultsFound end.
(** [FleetUserStore._get] *)
Definition get_user (t : uuid) (username : string) (db : DB) : res (option FleetUser) :=
  scalar_one_or_none (select_users (named t username) db).

Definition insert_user (u : FleetUser) (db : DB) : res DB :=
  raise_if negb (tenant_exists (us_tenant_id u) db) || bool_decide (is_Some (fleet_users db !! us_id u))
           || existsb (named (us_tenant_id u) (us_username u)) (map snd (map_to_list (fleet_users db))) with IntegrityError;
  Ok (set_users (<[us_id u := u]> (fleet_users db)) db).
Definition update_user_row (i : uuid) (f : FleetUser -> FleetUser) (db : DB) : res DB :=
  match fleet_users db !! i with
  | Some u => Ok (set_users (<[i := f u]> (fleet_users db)) db)
  | None => Raise StaleDataError
  end.
(** DELETE, which cascades to the user's sessions. *)
Definition delete_user_row (i : uuid) (db : DB) : res DB :=
  Ok (set_sessions (filter (fun '(_, s) => se_user_id s <> i) (fleet_sessions db)) (set_users (delete i (fleet_users db)) db)).
Definition insert_session (s : FleetSession) (db : DB) : res DB :=
  raise_if negb (bool_decide (is_Some (fleet_users db !! se_user_id s))) || bool_decide (is_Some (fleet_sessions db !! se_token_hash s)) with IntegrityError;
  Ok (set_sessions (<[se_token_hash s := s]> (fleet_sessions db)) db).
Definition update_session (k : string) (f : FleetSession -> FleetSession) (db : DB) : res DB :=
  match fleet_sessions db !! k with
  | Some s => Ok (set_sessions (<[k := f s]> (fleet_sessions db)) db)
  | None => Raise StaleDataError
  end.

Section Accounts.
Context `{Database} `{TokenHash} `{Bcrypt}.

Definition resolve_tenant_id (tenant_name : string) (db : DB) : res (option uuid) :=
  scalar_one_or_none (map fst (List.filter (fun '(_, t) => String.eqb (tn_name t) tenant_name) (map_to_list (tenants db)))).

Definition create_user (t : uuid) (username password role salt : string) (new_id : uuid) (now : datetime) : Tx FleetUserRecord := fun db =>
  raise_if negb (dict_mem role ROLE_PERMISSIONS) with AuthError;
  raise_if negb (valid_username username) with AuthError;
  let* existing := get_user t username db in
  raise_if bool_decide (is_Some existing) with AuthError;
  let* hash := hashpw password salt in
  let user := MkFleetUser new_id t username hash role now in
  Ok (user_record user, insert_user user).

Definition verify_and_get (t : uuid) (username password : string) (db : DB) : res (option FleetUserRecord) :=
  let* user := get_user t username db in
  match user with
  | None => Ok None
  | Some u => let* ok := checkpw password (us_password_hash u) in Ok (if ok then Some (user_record u) else None)
  end.

Definition has_any_users (t : uuid) (db : DB) : bool :=
  match select_users (fun u => us_tenant_id u =? t) db with [] => false | _ => true end.
Definition list_users (t : uuid) (db : DB) : list FleetUserRecord :=
  map user_record (py_sorted (fun a b => text_leb (us_username a) (us_username b)) (select_users (fun u => us_tenant_id u =? t) db)).

Definition set_role (t : uuid) (username role : string) : Tx bool := fun db =>
  raise_if negb (dict_mem role ROLE_PERMISSIONS) with AuthError;
  let* user := get_user t username db in
  match user with
  | None => Ok (false, Ok)
  | Some u => Ok (true, update_user_row (us_id u) (with_role role))
  end.
Definition change_password (t : uuid) (username new_password salt : string) : Tx bool := fun db =>
  let* user := get_user t username db in
  match user with
  | None => Ok (false, Ok)
  | Some u => let* hash := hashpw new_password salt in Ok (true, update_user_row (us_id u) (with_password hash))
  end.

(** Another admin of the tenant. *)
Definition other_admin (t : uuid) (i : uuid) (u : FleetUser) : bool :=
  (us_tenant_id u =? t) && negb (us_id u =? i) && String.eqb (us_role u) "admin".
Definition delete_user (t : uuid) (username : string) : Tx bool := fun db =>
  let* user := get_user t username db in
  match user with
  | None => Ok (false, Ok)
  | Some u =>
      raise_if String.eqb (us_role u) "admin" && match select_users (other_admin t (us_id u)) db with [] => true | _ => false end with AuthError;
      Ok (true, delete_user_row (us_id u))
  end.

(** ** Sessions *)

Definition issue_session (idle_timeout : num) (user_id : uuid) (token : string) (now : datetime) : Tx string := fun _ =>
  let* d := timedelta_seconds idle_timeout in
  let* expires := datetime_add now d in
  Ok (token, insert_session (MkFleetSession (hash_token token) user_id now expires)).

Definition resolve_and_refresh (idle_timeout : num) (token : string) (now : datetime) : Tx (option AuthenticatedSession) := fun db =>
  match fleet_sessions db !! hash_token token with
  | None => Ok (None, Ok)
  | Some s =>
      match fleet_users db !! se_user_id s with
      | None => Ok (None, Ok)
      | Some u =>
          if se_expires_at s <? now then Ok (None, Ok) else
          let* d := timedelta_seconds idle_timeout in
          let* expires := datetime_add now d in
          Ok (Some (MkSession (us_tenant_id u) (us_username u) (us_role u)), update_session (hash_token token) (with_expiry expires))
      end
  end.

Definition revoke_session (token : string) : Tx unit := fun db =>
  Ok (tt, match fleet_sessions db !! hash_token token with
          | None => Ok
          | Some _ => fun db => Ok (set_sessions (delete (hash_token token) (fleet_sessions db)) db)
          end).

(** ** Audit log *)

Definition audit_record (t : uuid) (actor event : string) (details : dict json) (now : datetime) : Tx unit := fun _ =>
  Ok (tt, insert_audit (fun i => MkFleetAuditLogEntry i t now actor event details)).

(** SQL LIKE: an underscore is any character, a percent any run, a backslash
    escapes. *)
Fixpoint like (pattern s : string) : bool :=
  match pattern with
  | EmptyString => match s with EmptyString => true | _ => false end
  | String c p =>
      if Ascii.eqb c "%" then
        (fix any (s : string) : bool := like p s || match s with EmptyString => false | String _ t => any t end) s
      else if Ascii.eqb c "_" then match s with EmptyString => false | String _ t => like p t end
      else if Ascii.eqb c "\" then
        match p, s with
        | String c' p', String d t => Ascii.eqb c' d && like p' t
        | _, _ => false
        end
      else match s with EmptyString => false | String d t => Ascii.eqb c d && like p t end
  end.
(** [column.startswith(prefix)], which does not escape the prefix *)
Definition sql_startswith (s prefix : string) : bool := like (prefix ++ "%")%string s.

Definition audit_tail (t : uuid) (since_seq : option Z) (actor event_prefix : option string) (limit : Z) (db : DB) : res (list FleetAuditLogEntry) :=
  let keep e := (au_tenant_id e =? t) && match since_seq with Some n => n <? au_id e | None => true end
                && match actor with Some a => String.eqb (au_actor e) a | None => true end
                && match event_prefix with Some p => sql_startswith (au_event e) p | None => true end in
  raise_if limit <? 0 with DBAPIError;
  Ok (take (Z.to_nat limit) (rev (List.filter keep (fleet_audit_log db)))).
End Accounts.

(** ** Login lockout *)

Record LoginLockout := MkLockout {
  threshold : Z;
  window_seconds : pfloat;
  failure_times : gmap uuid (list pfloat) }.
(** [datetime.timestamp()] *)
Definition timestamp (now : datetime) : pfloat := int_truediv now 1000000.
Definition after_cutoff (l : LoginLockout) (now : datetime) (t : pfloat) : bool := fltb (fsub (timestamp now) (window_seconds l)) t.
Definition with_failures (l : LoginLockout) (m : gmap uuid (list pfloat)) : LoginLockout := MkLockout (threshold l) (window_seconds l) m.
Definition prune_failures (tenant : uuid) (now : datetime) (l : LoginLockout) : LoginLockout :=
  match List.filter (after_cutoff l now) (default [] (failure_times l !! tenant)) with
  | [] => with_failures l (delete tenant (failure_times l))
  | pruned => with_failures l (<[tenant := pruned]> (failure_times l))
  end.
Definition record_failure (tenant : uuid) (now : datetime) (l : LoginLockout) : LoginLockout :=
  let l := prune_failures tenant now l in
  with_failures l (<[tenant := default [] (failure_times l !! tenant) ++ [timestamp now]]> (failure_times l)).
Definition record_success (tenant : uuid) (l : LoginLockout) : LoginLockout := with_failures l (delete tenant (failure_times l)).
Definition is_locked_out (tenant : uuid) (now : datetime) (l : LoginLockout) : LoginLockout * bool :=
  let l := prune_failures tenant now l in
  (l, threshold l <=? zlen (default [] (failure_times l !! tenant))).

(** *** The lockout as a function of the history *)

Inductive lockout_event :=
  | LFailure (tenant : uuid) (now : datetime)
  | LSuccess (tenant : uuid)
  | LCheck (tenant : uuid) (now : datetime).
Definition lockout_step (l : LoginLockout) (e : lockout_event) : LoginLockout :=
  match e with
  | LFailure t now => record_failure t now l
  | LSuccess t => record_success t l
  | LCheck t now => fst (is_locked_out t now l)
  end.

Section Lockout.
Context (n : Z) (window : pfloat).
Definition no_failures : LoginLockout := MkLockout n window ∅.

(** An event that forgets a failure of [tenant] recorded at [x]: a success, or
    a prune that finds it older than the window. *)
Definition forgets (tenant : uuid) (x : pfloat) (e : lockout_event) : bool :=
  match e with
  | LSuccess t => t =? tenant
  | LFailure t now | LCheck t now => (t =? tenant) && negb (after_cutoff no_failures now x)
  end.
(** The failures of [tenant] that no later event forgets. *)
Fixpoint open_failures (tenant : uuid) (es : list lockout_event) : list pfloat :=
  match es with
  | [] => []
  | LFailure t now :: es' =>
      (if (t =? tenant) && negb (existsb (forgets tenant (timestamp now)) es') then [timestamp now] else []) ++ open_failures tenant es'
  | _ :: es' => open_failures tenant es'
  end.
Definition new_failure (tenant : uuid) (e : lockout_event) : list pfloat :=
  match e with LFailure t now => if t =? tenant then [timestamp now] else [] | _ => [] end.

Lemma open_failures_snoc tenant es e :
  open_failures tenant (es ++ [e]) = List.filter (fun x => negb (forgets tenant x e)) (open_failures tenant es) ++ new_failure tenant e.
Proof.
  induction es as [|a es IH].
  - destruct e; simpl; rewrite ?andb_true_r, ?app_nil_r; done.
  - destruct a as [t now| |]; simpl; try exact IH. rewrite IH, List.filter_app, <- app_assoc. f_equal.
    rewrite existsb_app. simpl. rewrite orb_false_r.
    destruct (t =? tenant); simpl; [|done]. destruct (existsb _ es); simpl; [done|]. by destruct (forgets _ _ e).
Qed.

Lemma after_cutoff_window l now x : window_seconds l = window -> after_cutoff l now x = after_cutoff no_failures now x.
Proof. unfold after_cutoff. by intros ->. Qed.
Lemma prune_failures_spec tenant tenant' now l :
  window_seconds l = window ->
  default [] (failure_times (prune_failures tenant now l) !! tenant') =
    List.filter (fun x => negb ((tenant =? tenant') && negb (after_cutoff no_failures now x))) (default [] (failure_times l !! tenant')) /\
  window_seconds (prune_failures tenant now l) = window /\ threshold (prune_failures tenant now l) = threshold l.
Proof.
  intros W. split.
  - unfold prune_failures. rewrite (List.filter_ext (after_cutoff l now) (after_cutoff no_failures now)) by (intros; by apply after_cutoff_window).
    destruct (Z.eqb_spec tenant tenant') as [->|N]; simpl.
    + rewrite (List.filter_ext (fun x => negb (negb (after_cutoff no_failures now x))) (after_cutoff no_failures now)) by (intros; apply negb_involutive).
      destruct (List.filter _ _) eqn:F; simpl; [by rewrite lookup_delete_eq|by rewrite lookup_insert_eq].
    + rewrite (filter_all_forall _ (default [] (failure_times l !! tenant'))) by done.
      destruct (List.filter _ _); simpl; [by rewrite lookup_delete_ne|by rewrite lookup_insert_ne].
  - unfold prune_failures. by destruct (List.filter _ _).
Qed.

Lemma lockout_run es tenant :
  let l := foldl lockout_step no_failures es in
  default [] (failure_times l !! tenant) = open_failures tenant es /\ window_seconds l = window /\ threshold l = n.
Proof.
  induction es as [|e es IH] using rev_ind; [done|].
  simpl in *. rewrite foldl_app. simpl. destruct IH as (F & W & T).
  set (l := foldl lockout_step no_failures es) in *. rewrite open_failures_snoc. destruct e as [t now|t|t now]; simpl.
  - destruct (prune_failures_spec t tenant now l W) as (P & W' & T'). rewrite W', T'. split; [|done].
    unfold record_failure. simpl. revert P. destruct (Z.eqb_spec t tenant) as [->|N]; intros P.
    + rewrite lookup_insert_eq. simpl. by rewrite P, F.
    + by rewrite lookup_insert_ne, P, F, app_nil_r by done.
  - split; [|done]. rewrite app_nil_r, <- F. destruct (Z.eqb_spec t tenant) as [->|N].
    + rewrite lookup_delete_eq. simpl. symmetry. by apply filter_nil_forall.
    + rewrite lookup_delete_ne by done. symmetry. by apply filter_all_forall.
  - destruct (prune_failures_spec t tenant now l W) as (P & W' & T'). rewrite W', T', P, F, app_nil_r. done.
Qed.

(** C15: After any history of failed logins, successful logins and checks, over
    any tenants and any clock readings, a tenant is locked out exactly when at
    least [threshold] of its own failures are open: recorded since its last
    success and never found older than the window.  Other tenants' logins have
    no influence. *)
Theorem lockout_exact es tenant now :
  snd (is_locked_out tenant now (foldl lockout_step no_failures es)) = (n <=? zlen (open_failures tenant (es ++ [LCheck tenant now]))).
Proof.
  destruct (lockout_run (es ++ [LCheck tenant now]) tenant) as (F & _ & T). rewrite foldl_app in F, T. simpl in F, T.
  rewrite <- F. unfold is_locked_out in *. simpl in *. by rewrite T.
Qed.
End Lockout.

(** ** Accounts: the invariant *)

Record users_ok (db : DB) : Prop := {
  user_ids : forall i u, fleet_users db !! i = Some u -> us_id u = i;
  user_names : forall i j u v, fleet_users db !! i = Some u -> fleet_users db !! j = Some v ->
    us_tenant_id u = us_tenant_id v -> us_username u = us_username v -> i = j;
  user_roles : forall i u, fleet_users db !! i = Some u -> dict_mem (us_role u) ROLE_PERMISSIONS = true }.
Definition has_admin (t : uuid) (db : DB) : Prop :=
  exists i u, fleet_users db !! i = Some u /\ us_tenant_id u = t /\ us_role u = "admin".

Lemma select_users_elem f db u : u ∈ select_users f db <-> (exists i, fleet_users db !! i = Some u) /\ f u = true.
Proof.
  unfold select_users. rewrite elem_of_list_filter, list_elem_of_fmap. f_equiv. split.
  - intros ([i v] & -> & E%elem_of_map_to_list). eauto.
  - intros [i E]. exists (i, u). split; [done|]. by apply elem_of_map_to_list.
Qed.
Lemma get_user_some t n db u : users_ok db -> get_user t n db = Ok (Some u) ->
  fleet_users db !! us_id u = Some u /\ us_tenant_id u = t /\ us_username u = n.
Proof.
  intros OK G. unfold get_user, scalar_one_or_none in G. destruct (select_users _ _) as [|v [|]] eqn:S; inv_ok.
  assert (u ∈ select_users (named t n) db) as E by (rewrite S; by left). apply select_users_elem in E as [[i E] N].
  unfold named in N. bool_simpl. rewrite (user_ids _ OK _ _ E). split; [done|]. split; [done|]. by apply String.eqb_eq.
Qed.
Lemma filter_pairs_nodup (f : FleetUser -> bool) (l : list (uuid * FleetUser)) :
  NoDup l.*1 -> NoDup (List.filter (fun p => f (snd p)) l).*1.
Proof.
  induction l as [|[i u] l IH]; simpl; [constructor|]. intros [N D]%NoDup_cons. destruct (f u); simpl; [|by apply IH].
  apply NoDup_cons. split; [|by apply IH]. intros ([j v] & E & I%elem_of_list_filter)%list_elem_of_fmap. simpl in *. subst j.
  apply N. apply list_elem_of_fmap. exists (i, v). naive_solver.
Qed.
Lemma select_users_pairs f db :
  select_users f db = (List.filter (fun p => f (snd p)) (map_to_list (fleet_users db))).*2.
Proof.
  unfold select_users. induction (map_to_list (fleet_users db)) as [|[i u] l IH]; simpl; [done|].
  destruct (f u); simpl; rewrite IH; done.
Qed.
(** No query by name finds two rows. *)
Lemma get_user_total t n db : users_ok db -> exists o, get_user t n db = Ok o.
Proof.
  intros OK. unfold get_user, scalar_one_or_none. rewrite select_users_pairs.
  pose proof (filter_pairs_nodup (named t n) _ (NoDup_fst_map_to_list (fleet_users db))) as D.
  assert (forall p, p ∈ List.filter (fun p => named t n (snd p)) (map_to_list (fleet_users db)) ->
    fleet_users db !! p.1 = Some p.2 /\ us_tenant_id p.2 = t /\ us_username p.2 = n) as A.
  { intros [i u] [I N]%elem_of_list_filter. apply elem_of_map_to_list in I. unfold named in N. simpl in *. bool_simpl.
    repeat split; [done|done|]. by apply String.eqb_eq. }
  destruct (List.filter _ _) as [|p [|q l]]; simpl; [by eexists..|]. exfalso.
  destruct (A p) as (P1 & P2 & P3); [by left|]. destruct (A q) as (Q1 & Q2 & Q3); [right; by left|].
  simpl in D. apply NoDup_cons in D as [D _]. apply D. rewrite (user_names _ OK _ _ _ _ P1 Q1) by congruence. by left.
Qed.

Lemma insert_user_ok u db db' :
  users_ok db -> dict_mem (us_role u) ROLE_PERMISSIONS = true -> insert_user u db = Ok db' -> users_ok db'.
Proof.
  intros OK R I. unfold insert_user in I. inv_ok.
  assert (forall i v, fleet_users db !! i = Some v -> us_tenant_id v = us_tenant_id u -> us_username v = us_username u -> False) as X.
  { intros i v E T N. match goal with X : existsb _ _ = false |- _ => rewrite <- not_true_iff_false in X; apply X end.
    apply existsb_exists. exists v. split.
    - apply in_map_iff. exists (i, v). split; [done|]. by apply list_elem_of_In, elem_of_map_to_list.
    - unfold named. by rewrite T, N, Z.eqb_refl, String.eqb_refl. }
  split; simpl.
  - intros i v [[<- <-]|[N E]]%lookup_insert_Some; [done|by eapply (user_ids _ OK)].
  - intros i j v w [[<- <-]|[N E]]%lookup_insert_Some [[<- <-]|[N' E']]%lookup_insert_Some T U; try done;
      [by destruct (X j w)|by destruct (X i v)|by eapply (user_names _ OK)].
  - intros i v [[<- <-]|[N E]]%lookup_insert_Some; [done|by eapply (user_roles _ OK)].
Qed.
Lemma update_user_ok i f db db' :
  users_ok db -> update_user_row i f db = Ok db' ->
  (forall u, us_id (f u) = us_id u /\ us_tenant_id (f u) = us_tenant_id u /\ us_username (f u) = us_username u /\
             (dict_mem (us_role u) ROLE_PERMISSIONS = true -> dict_mem (us_role (f u)) ROLE_PERMISSIONS = true)) -> users_ok db'.
Proof.
  intros OK U F. unfold update_user_row in U. destruct (fleet_users db !! i) as [u|] eqn:E; inv_ok. destruct (F u) as (F1 & F2 & F3 & F4).
  split; simpl.
  - intros j v [[<- <-]|[N L]]%lookup_insert_Some; [rewrite F1; by eapply (user_ids _ OK)|by eapply (user_ids _ OK)].
  - intros j k v w [[<- <-]|[N L]]%lookup_insert_Some [[<- <-]|[N' L']]%lookup_insert_Some T U; try done;
      rewrite ?F2, ?F3 in *; by eapply (user_names _ OK).
  - intros j v [[<- <-]|[N L]]%lookup_insert_Some; [apply F4|]; by eapply (user_roles _ OK).
Qed.
Lemma delete_user_ok i db db' : users_ok db -> delete_user_row i db = Ok db' -> users_ok db'.
Proof.
  intros [I N R] D. injection D as <-. split; simpl.
  - intros j u [_ E]%lookup_delete_Some. eauto.
  - intros j k u v [_ E]%lookup_delete_Some [_ E']%lookup_delete_Some. eauto.
  - intros j u [_ E]%lookup_delete_Some. eauto.
Qed.

(** Deleting an account never leaves a tenant that had an administrator
    without one, in the account's tenant or any other; the account is gone and
    so are all its sessions. *)
Theorem delete_keeps_admin `{Database} t t' name db db' r :
  users_ok db -> exec (delete_user t name) db = (db', r) -> has_admin t' db ->
  has_admin t' db' /\
  (r = Ok true -> get_user t name db' = Ok None /\
     exists u, get_user t name db = Ok (Some u) /\ forall k s, fleet_sessions db' !! k = Some s -> se_user_id s <> us_id u).
Proof.
  intros OK E (i & a & A & <- & R). apply exec_cases in E as [(b & w & P & W & _ & ->)|[-> [e ->]]]; [|by split; [exists i, a|]].
  unfold delete_user in P. inv_ok. destruct x as [u|]; inv_ok; [|by split; [exists i, a|]].
  match goal with G : get_user _ _ _ = Ok (Some u) |- _ => pose proof (get_user_some _ _ _ _ OK G) as (U & T & N) end.
  pose proof (delete_user_ok _ _ _ OK W) as OK'. injection W as <-. split.
  - destruct (decide (us_id u = i)) as [<-|D].
    + rewrite U in A. injection A as <-. rewrite R in *. simpl in *. destruct (select_users _ db) as [|v l] eqn:S; [done|].
      assert (v ∈ select_users (other_admin t (us_id u)) db) as I by (rewrite S; by left). apply select_users_elem in I as [[j V] O].
      unfold other_admin in O. bool_simpl. exists j, v. simpl. rewrite lookup_delete_ne by (rewrite <- (user_ids _ OK _ _ V); congruence).
      repeat split; [done|congruence|]. by apply String.eqb_eq.
    + exists i, a. simpl. by rewrite lookup_delete_ne.
  - intros _. split; [|exists u; split; [done|]; intros k s S; simpl in S; by apply map_lookup_filter_Some in S as [_ S]].
    destruct (get_user_total t name _ OK') as [[v|] G]; [|done]. exfalso. destruct (get_user_some _ _ _ _ OK' G) as (V & T' & N').
    simpl in V. apply lookup_delete_Some in V as [D V]. apply D. eapply (user_names _ OK); [exact U|exact V|congruence|congruence].
Qed.

Section Examples.
#[local] Existing Instance open_database.

Definition root_user : FleetUser := MkFleetUser 10 1 "root" "h" "admin" 0.
Definition second_user : FleetUser := MkFleetUser 11 1 "second" "h" "admin" 0.
Definition one_admin : DB := set_users {[ 10 := root_user ]} tenants_12.
Definition two_admins : DB := set_users (<[11 := second_user]> {[ 10 := root_user ]}) tenants_12.

Lemma two_admins_ok : users_ok two_admins.
Proof.
  assert (forall i u, fleet_users two_admins !! i = Some u -> i = 11 /\ u = second_user \/ i = 10 /\ u = root_user) as A.
  { intros i u. change (fleet_users two_admins) with (<[11 := second_user]> {[ 10 := root_user ]} : gmap uuid FleetUser).
    intros [[<- <-]|[_ [<- <-]%lookup_singleton_Some]]%lookup_insert_Some; auto. }
  split.
  - intros i u [[-> ->]|[-> ->]]%A; reflexivity.
  - intros i j u v [[-> ->]|[-> ->]]%A [[-> ->]|[-> ->]]%A T N; done.
  - intros i u [[-> ->]|[-> ->]]%A; reflexivity.
Qed.
Lemma delete_keeps_admin_witness : exists db', exec (delete_user 1 "root") two_admins = (db', Ok true) /\ has_admin 1 db'.
Proof.
  exists (fst (exec (delete_user 1 "root") two_admins)).
  assert (snd (exec (delete_user 1 "root") two_admins) = Ok true) as R by (vm_compute; reflexivity).
  split; [rewrite <- R; apply surjective_pairing|].
  apply (delete_keeps_admin 1 1 "root" two_admins _ _ two_admins_ok (surjective_pairing _)).
  exists 10, root_user. repeat split.
Defined.

(** The only administrator can be demoted, which leaves the tenant without
    anyone allowed to manage its users. *)
Example last_admin_demoted :
  let '(db, r) := exec (set_role 1 "root" "readonly") one_admin in
  r = Ok true /\ us_role <$> fleet_users db !! 10 = Some "readonly" /\ map_to_list (fleet_users one_admin) = [(10, root_user)].
Proof. vm_compute. repeat split; reflexivity. Qed.

(** An underscore in the prefix of an audit query stands for any character. *)
Example audit_prefix_is_a_pattern : sql_startswith "joinXtoken.created" "join_token" = true.
Proof. reflexivity. Qed.
End Examples.
