(* ===== verification/FleetManager.v ===== *)
(** * Fleet manager services (src/xedge/fleet/manager_app.py, manager_device_app.py)

    The route handlers of both apps over the registry, the accounts, the
    sessions, the lockout and the audit log.  A handler runs its transactions
    one after the other; [HTTPException] is what the client sees for a refused
    request, any other exception is a server error.  The certificate authority
    and the config validator are parameters. *)

From Stdlib Require Import Ascii.
From stdpp Require Import pretty.
From S2P Require Import Prelude PyText PyFloat PyDict PyTime FleetDb FleetRegistry FleetPush FleetAuth.
Local Open Scope string_scope.
Local Open Scope list_scope.
Local Open Scope Z_scope.

(** The manager process: the database and the in-memory lockout. *)
Record Manager := MkManager { m_db : DB; m_lockout : LoginLockout }.
(** What a request finds outside the manager: the clock, and fresh randomness. *)
Record Env := MkEnv { e_now : datetime; e_token : string; e_salt : string; e_uuid : uuid }.
(** The certificate [sign_csr] returns. *)
Record Certificate := MkCertificate { c_pem : string; c_serial : Z; c_not_before : datetime; c_not_after : datetime }.

Class Authority := {
  (** [ca.sign_csr(csr, common_name=...)] *)
  sign_csr : string -> string -> res Certificate;
  ca_certificate_pem : string }.

(** ** Replies *)

Record Summary := MkSummary { s_record : DeviceRecord; s_status : string; s_connection : GatewayConnectionState }.
Inductive reply :=
  | RNothing
  | RLogin (session_token username role : string)
  | RUser (username role : string)
  | RUsers (l : list (string * string))
  | RUsername (username : string)
  | RAudit (l : list FleetAuditLogEntry)
  | RJoinToken (token device : string) (ttl : pfloat)
  | RJoinTokens (l : list (JoinToken * string))
  | REnrolled (device_token certificate_pem ca_pem : string)
  | RDevices (l : list Summary)
  | RDevice (s : Summary)
  | RQueued (version : Z)
  | RConfigStatus (pending : bool) (version : Z) (last_apply : option (dict json))
  | RConfigHistory (l : list DeviceConfigHistory)
  | RCertificateHistory (l : list DeviceCertificateHistory)
  | RHeartbeat (pending : option (dict json * Z))
  | RCertificate (pem : string).

(** [_device_summary] *)
Definition device_summary (now : datetime) (r : DeviceRecord) : res Summary :=
  let* s := device_status r now in
  let* c := connection_state r now in
  Ok (MkSummary r s c).

Section Handlers.
Context `{Database} `{TokenHash} `{Bcrypt} `{Authority}.
Context (idle_timeout : num) (config_validator : option (dict json -> res unit)).
Local Abbreviation M := (SR Manager).

Definition run_tx {A} (t : Tx A) : M A := fun st => let '(db, r) := exec t (m_db st) in (MkManager db (m_lockout st), r).
Definition run_query {A} (f : DB -> res A) : M A := fun st => (st, f (m_db st)).

(** ** Authentication *)

Definition require_session (authorization : string) (now : datetime) : M AuthenticatedSession :=
  let token := bearer_value authorization in
  let! resolved := if String.eqb token "" then sret None else run_tx (resolve_and_refresh idle_timeout token now) in
  some_or 401 resolved.
Definition require_permission (permission authorization : string) (now : datetime) : M AuthenticatedSession :=
  let! session := require_session authorization now in
  if has_permission (Some (as_role session)) permission then sret session else http 403.

Definition audit_event (s : AuthenticatedSession) (event : string) (details : dict json) (now : datetime) : M unit :=
  run_tx (audit_record (as_tenant_id s) (as_username s) event details now).

Definition login (tenant_name username password : string) (v : Env) : M reply :=
  let! tenant := run_query (resolve_tenant_id tenant_name) in
  let! t := some_or 401 tenant in
  let! locked := fun st => let '(l, b) := is_locked_out t (e_now v) (m_lockout st) in (MkManager (m_db st) l, Ok b) in
  let! _ := ensure 429 (negb locked) in
  let! user := run_query (verify_and_get t username password) in
  match user with
  | None =>
      let! _ := smodify (fun st => MkManager (m_db st) (record_failure t (e_now v) (m_lockout st))) in
      let! _ := run_tx (audit_record t username "auth.login_failure" [] (e_now v)) in
      http 401
  | Some u =>
      let! _ := smodify (fun st => MkManager (m_db st) (record_success t (m_lockout st))) in
      let! token := run_tx (issue_session idle_timeout (ur_id u) (e_token v) (e_now v)) in
      let! _ := run_tx (audit_record t (ur_username u) "auth.login_success" [] (e_now v)) in
      sret (RLogin token (ur_username u) (ur_role u))
  end.

(** ** Admin routes

    The body each route runs once its session [s] is known. *)

Definition logout (authorization : string) (s : AuthenticatedSession) (v : Env) : M reply :=
  let! _ := run_tx (revoke_session (bearer_value authorization)) in
  let! _ := audit_event s "auth.logout" [] (e_now v) in sret RNothing.
Definition route_create_user (username password role : string) (s : AuthenticatedSession) (v : Env) : M reply :=
  let! u := translate AuthError 409 (run_tx (create_user (as_tenant_id s) username password role (e_salt v) (e_uuid v) (e_now v))) in
  let! _ := audit_event s "user.created" [("username", JStr username); ("role", JStr role)] (e_now v) in
  sret (RUser (ur_username u) (ur_role u)).
Definition route_list_users (s : AuthenticatedSession) : M reply :=
  let! l := run_query (fun db => Ok (list_users (as_tenant_id s) db)) in
  sret (RUsers (map (fun u => (ur_username u, ur_role u)) l)).
Definition route_update_user (username : string) (role password : option string) (s : AuthenticatedSession) (v : Env) : M reply :=
  let! _ := match role with
    | None => sret tt
    | Some r =>
        let! ok := translate AuthError 400 (run_tx (set_role (as_tenant_id s) username r)) in
        let! _ := ensure 404 ok in
        audit_event s "user.role_changed" [("username", JStr username); ("role", JStr r)] (e_now v)
    end in
  let! _ := match password with
    | None => sret tt
    | Some p =>
        let! ok := run_tx (change_password (as_tenant_id s) username p (e_salt v)) in
        let! _ := ensure 404 ok in
        audit_event s "user.password_changed" [("username", JStr username)] (e_now v)
    end in
  sret (RUsername username).
Definition route_delete_user (username : string) (s : AuthenticatedSession) (v : Env) : M reply :=
  let! deleted := translate AuthError 409 (run_tx (delete_user (as_tenant_id s) username)) in
  let! _ := ensure 404 deleted in
  let! _ := audit_event s "user.deleted" [("username", JStr username)] (e_now v) in sret RNothing.
Definition route_audit_log (since_seq : option Z) (actor event : option string) (limit : Z) (s : AuthenticatedSession) : M reply :=
  let! l := run_query (audit_tail (as_tenant_id s) since_seq actor event limit) in sret (RAudit l).
Definition route_create_join_token (device : string) (ttl : pfloat) (s : AuthenticatedSession) (v : Env) : M reply :=
  let! token := translate DeviceTenantConflictError 409 (run_tx (create_join_token (as_tenant_id s) device ttl (e_token v) (e_now v))) in
  let! _ := audit_event s "join_token.created" [("device_id", JStr device)] (e_now v) in sret (RJoinToken token device ttl).
Definition route_list_join_tokens (s : AuthenticatedSession) (v : Env) : M reply :=
  let! l := run_query (fun db => Ok (list_join_tokens (as_tenant_id s) db)) in
  sret (RJoinTokens (map (fun t => (t, join_token_status t (e_now v))) l)).
Definition route_revoke_join_token (token_id : string) (s : AuthenticatedSession) (v : Env) : M reply :=
  let! ok := run_tx (revoke_join_token (as_tenant_id s) token_id (as_username s) (e_now v)) in
  let! _ := ensure 404 ok in
  let! _ := audit_event s "join_token.revoked" [("token_id", JStr token_id)] (e_now v) in sret RNothing.
Definition own_record (device : string) (s : AuthenticatedSession) : M DeviceRecord :=
  let! r := run_query (fun db => Ok (FleetRegistry.get (as_tenant_id s) device db)) in some_or 404 r.
Definition route_list_devices (s : AuthenticatedSession) (v : Env) : M reply :=
  let! l := run_query (fun db => mapM_res (device_summary (e_now v)) (list_devices (as_tenant_id s) db)) in sret (RDevices l).
Definition route_get_device (device : string) (s : AuthenticatedSession) (v : Env) : M reply :=
  let! r := own_record device s in
  let! d := slift (device_summary (e_now v) r) in sret (RDevice d).
Definition route_update_metadata (device : string) (fields : dict (option string)) (s : AuthenticatedSession) (v : Env) : M reply :=
  let! ok := run_tx (update_metadata (as_tenant_id s) device fields) in
  let! _ := ensure 404 ok in
  let! r := run_query (fun db => Ok (FleetRegistry.get (as_tenant_id s) device db)) in
  match r with
  | None => sraise AssertionError
  | Some r => let! d := slift (device_summary (e_now v) r) in sret (RDevice d)
  end.
Definition route_push_config (device : string) (config : dict json) (s : AuthenticatedSession) (v : Env) : M reply :=
  let! _ := match config_validator with
    | None => sret tt
    | Some validate => translate ConfigValidationError 400 (slift (validate config))
    end in
  let! version := translate KeyError 404 (run_tx (queue_config (as_tenant_id s) device config (as_username s) (e_now v))) in
  let! _ := audit_event s "config.push" [("device_id", JStr device); ("pending_config_version", JNum (NInt version))] (e_now v) in
  sret (RQueued version).
Definition route_config_status (device : string) (s : AuthenticatedSession) : M reply :=
  let! r := own_record device s in
  sret (RConfigStatus (r_has_pending_config r) (r_pending_config_version r) (r_last_config_apply r)).
Definition route_config_history (device : string) (s : AuthenticatedSession) : M reply :=
  let! _ := own_record device s in
  let! l := run_query (fun db => Ok (list_config_history (as_tenant_id s) device db)) in sret (RConfigHistory l).
Definition route_certificate_history (device : string) (s : AuthenticatedSession) : M reply :=
  let! _ := own_record device s in
  let! l := run_query (fun db => Ok (list_certificate_history (as_tenant_id s) device db)) in sret (RCertificateHistory l).

(** ** Dispatch of the admin port *)

Inductive admin_request :=
  | QLogout
  | QCreateUser (username password role : string)
  | QListUsers
  | QUpdateUser (username : string) (role password : option string)
  | QDeleteUser (username : string)
  | QAuditLog (since_seq : option Z) (actor event : option string) (limit : Z)
  | QCreateJoinToken (device : string) (ttl : pfloat)
  | QListJoinTokens
  | QRevokeJoinToken (token_id : string)
  | QListDevices
  | QGetDevice (device : string)
  | QUpdateMetadata (device : string) (fields : dict (option string))
  | QPushConfig (device : string) (config : dict json)
  | QConfigStatus (device : string)
  | QConfigHistory (device : string)
  | QCertificateHistory (device : string).

(** The [Depends(require_...)] of each route; [None] needs a session only. *)
Definition required_permission (q : admin_request) : option string :=
  match q with
  | QLogout => None
  | QCreateUser _ _ _ | QListUsers | QUpdateUser _ _ _ | QDeleteUser _ => Some "user:manage"
  | QAuditLog _ _ _ _ => Some "audit:read"
  | QCreateJoinToken _ _ | QListJoinTokens | QRevokeJoinToken _ | QUpdateMetadata _ _ | QPushConfig _ _ => Some "device:write"
  | QListDevices | QGetDevice _ | QConfigStatus _ | QConfigHistory _ | QCertificateHistory _ => Some "device:read"
  end.
Definition route (authorization : string) (q : admin_request) (s : AuthenticatedSession) (v : Env) : M reply :=
  match q with
  | QLogout => logout authorization s v
  | QCreateUser u p r => route_create_user u p r s v
  | QListUsers => route_list_users s
  | QUpdateUser u r p => route_update_user u r p s v
  | QDeleteUser u => route_delete_user u s v
  | QAuditLog n a e l => route_audit_log n a e l s
  | QCreateJoinToken d ttl => route_create_join_token d ttl s v
  | QListJoinTokens => route_list_join_tokens s v
  | QRevokeJoinToken i => route_revoke_join_token i s v
  | QListDevices => route_list_devices s v
  | QGetDevice d => route_get_device d s v
  | QUpdateMetadata d f => route_update_metadata d f s v
  | QPushConfig d c => route_push_config d c s v
  | QConfigStatus d => route_config_status d s
  | QConfigHistory d => route_config_history d s
  | QCertificateHistory d => route_certificate_history d s
  end.
Definition admin (authorization : string) (q : admin_request) (v : Env) : M reply :=
  let! s := match required_permission q with
    | Some p => require_permission p authorization (e_now v)
    | None => require_session authorization (e_now v)
    end in
  route authorization q s v.

(** ** Enrolment and the device port *)

(** [csr_pem.encode("ascii")], then the authority; both failures are a 400. *)
Definition sign (csr_pem device : string) : res Certificate :=
  raise_if negb (is_ascii csr_pem) with ValueError; sign_csr csr_pem device.
Definition signed (csr_pem device : string) : M Certificate :=
  translate InvalidCsrError 400 (translate ValueError 400 (slift (sign csr_pem device))).

Definition enroll (device join_token csr_pem : string) (name agent : option string) (interval : pfloat) (v : Env) : M reply :=
  let! tenant := run_tx (consume_join_token device join_token (e_now v)) in
  let! t := some_or 401 tenant in
  let! c := signed csr_pem device in
  let! token := run_tx (register t device name agent interval (e_token v) (e_now v)) in
  let! _ := run_tx (record_certificate_issued device (c_serial c) (c_not_before c) (c_not_after c) "enrollment" (e_now v)) in
  sret (REnrolled token (c_pem c) ca_certificate_pem).

Definition require_device_token (device authorization : string) : M unit :=
  let! ok := run_query (verify_token device (bearer_value authorization)) in ensure 401 ok.
Definition device_heartbeat (device authorization : string) (agent : option string) (count : option Z) (uptime : option pfloat)
    (last_config_apply : option (dict json)) (v : Env) : M reply :=
  let! _ := require_device_token device authorization in
  let! _ := run_tx (heartbeat device agent count uptime last_config_apply (e_now v)) in
  let! pending := run_tx (take_pending_config device) in
  sret (RHeartbeat pending).
Definition rotate_certificate (device authorization csr_pem : string) (v : Env) : M reply :=
  let! _ := require_device_token device authorization in
  let! c := signed csr_pem device in
  let! tenant := run_tx (record_certificate_issued device (c_serial c) (c_not_before c) (c_not_after c) "rotation" (e_now v)) in
  let! _ := match tenant with
    | None => sret tt
    | Some t => run_tx (audit_record t device "cert.rotated" [("serial_number", JStr (pretty (c_serial c)))] (e_now v))
    end in
  sret (RCertificate (c_pem c)).
End Handlers.

(** ** What a request on behalf of one tenant may touch *)

(** Everything that belongs to tenants other than [t] is as it was: registry
    rows, accounts, audit entries and sessions. *)
Record confined (t : uuid) (db db' : DB) : Prop := {
  cf_rows : others t db' = others t db;
  cf_tenants : tenants db' = tenants db;
  cf_users : forall i u, us_tenant_id u <> t -> fleet_users db' !! i = Some u <-> fleet_users db !! i = Some u;
  cf_audit : List.filter (fun e => negb (au_tenant_id e =? t)) (fleet_audit_log db')
             = List.filter (fun e => negb (au_tenant_id e =? t)) (fleet_audit_log db);
  cf_sessions : forall k s u, us_tenant_id u <> t -> fleet_users db !! se_user_id s = Some u ->
    fleet_sessions db' !! k = Some s <-> fleet_sessions db !! k = Some s }.
#[export] Instance confined_preorder t : PreOrder (confined t).
Proof.
  split; [by intros db|]. intros a b c [R1 T1 U1 A1 S1] [R2 T2 U2 A2 S2]. split; try congruence.
  - intros i u N. rewrite U2, U1; done.
  - intros k s u N E. rewrite (S2 k s u), (S1 k s u); [done..|by apply U1].
Qed.

Lemma users_ok_same db db' : fleet_users db' = fleet_users db -> users_ok db -> users_ok db'.
Proof. intros E [A B C]. split; rewrite E; done. Qed.

(** The effect of one committed transaction. *)
Definition tx_keeps {A} (t : uuid) (T : Tx A) : Prop :=
  forall db a w db', users_ok db -> T db = Ok (a, w) -> w db = Ok db' -> users_ok db' /\ confined t db db'.

Lemma confined_registry t db db' :
  others t db' = others t db -> tenants db' = tenants db -> same_accounts db db' -> users_ok db -> users_ok db' /\ confined t db db'.
Proof.
  intros R T (U & S & A) OK. split; [by apply (users_ok_same db)|]. split; try done.
  - intros i u N. by rewrite U.
  - by rewrite A.
  - intros k s u N E. by rewrite S.
Qed.

Section Keeps.
Context `{Database} `{TokenHash} `{Bcrypt} `{Authority}.

Lemma operator_keeps {A} t c (f : A -> answer) (T : Tx A) : operator_call t c = true -> perform c = tmap f T -> tx_keeps t T.
Proof.
  intros O E db a w db' OK P W.
  assert (perform c db = Ok (f a, w)) as P' by (rewrite E; unfold tmap; by rewrite P).
  apply confined_registry; [by eapply operator_writes_others|by eapply operator_same_tenants|by eapply registry_same_accounts|done].
Qed.
Lemma update_user_keeps t i f db db' u :
  users_ok db -> update_user_row i f db = Ok db' -> fleet_users db !! i = Some u -> us_tenant_id u = t ->
  (forall u, us_id (f u) = us_id u /\ us_tenant_id (f u) = us_tenant_id u /\ us_username (f u) = us_username u /\
             (dict_mem (us_role u) ROLE_PERMISSIONS = true -> dict_mem (us_role (f u)) ROLE_PERMISSIONS = true)) ->
  users_ok db' /\ confined t db db'.
Proof.
  intros OK U E T F. split; [by eapply update_user_ok|]. unfold update_user_row in U. rewrite E in U. injection U as <-.
  split; try done. simpl. intros j v N. destruct (decide (j = i)) as [->|D]; [|by rewrite lookup_insert_ne].
  rewrite lookup_insert_eq, E. destruct (F u) as (_ & F2 & _). split; intros [= <-]; congruence.
Qed.
Lemma set_role_keeps t n r : tx_keeps t (set_role t n r).
Proof.
  intros db a w db' OK P W. unfold set_role in P. inv_ok. destruct x as [u|]; inv_ok; [|by split].
  match goal with G : get_user _ _ _ = Ok (Some u) |- _ => destruct (get_user_some _ _ _ _ OK G) as (U & T & N) end.
  eapply update_user_keeps; [done..|]. by intros v; repeat split.
Qed.
Lemma change_password_keeps t n p salt : tx_keeps t (change_password t n p salt).
Proof.
  intros db a w db' OK P W. unfold change_password in P. inv_ok. destruct x as [u|]; inv_ok; [|by split].
  match goal with G : get_user _ _ _ = Ok (Some u) |- _ => destruct (get_user_some _ _ _ _ OK G) as (U & T & N) end.
  eapply update_user_keeps; [done..|]. by intros v; repeat split.
Qed.
Lemma create_user_keeps t n p r salt i now : tx_keeps t (create_user t n p r salt i now).
Proof.
  intros db a w db' OK P W. unfold create_user in P. inv_ok.
  split; [eapply insert_user_ok; [exact OK| |exact W]; done|].
  unfold insert_user in W. inv_ok. split; try done. simpl. intros j v N.
  destruct (decide (j = i)) as [->|D]; [|by rewrite lookup_insert_ne]. rewrite lookup_insert_eq. split.
  - intros [= <-]. done.
  - intros E. match goal with X : ~ is_Some _ |- _ => destruct X; eauto end.
Qed.
Lemma delete_user_keeps t n : tx_keeps t (delete_user t n).
Proof.
  intros db a w db' OK P W. unfold delete_user in P. inv_ok. destruct x as [u|]; inv_ok; [|by split].
  match goal with G : get_user _ _ _ = Ok (Some u) |- _ => destruct (get_user_some _ _ _ _ OK G) as (U & T & N) end.
  split; [by eapply delete_user_ok|]. injection W as <-. split; try done; simpl.
  - intros i v D. destruct (decide (i = us_id u)) as [->|]; [|by rewrite lookup_delete_ne].
    rewrite lookup_delete_eq, U. split; [done|]. intros [= <-]. done.
  - intros k s v D E. rewrite map_lookup_filter_Some. split; [by intros [? _]|]. intros S. split; [done|].
    intros I. rewrite I, U in E. injection E as <-. done.
Qed.
Lemma audit_keeps t actor event details now : tx_keeps t (audit_record t actor event details now).
Proof.
  intros db a w db' OK P W. unfold audit_record in P. inv_ok. unfold insert_audit in W. inv_ok. split; [by apply (users_ok_same db)|].
  split; try done. simpl. rewrite List.filter_app. simpl. rewrite Z.eqb_refl. simpl. apply app_nil_r.
Qed.
(** Deleting or touching a session that belongs to [t]. *)
Definition session_of_tenant (t : uuid) (k : string) (db : DB) : Prop :=
  forall s u, fleet_sessions db !! k = Some s -> fleet_users db !! se_user_id s = Some u -> us_tenant_id u = t.
Lemma touch_session_keeps t k m db :
  users_ok db -> session_of_tenant t k db -> (forall j, j <> k -> m !! j = fleet_sessions db !! j) ->
  (forall s u, m !! k = Some s -> fleet_users db !! se_user_id s = Some u -> us_tenant_id u = t) ->
  users_ok (set_sessions m db) /\ confined t db (set_sessions m db).
Proof.
  intros OK O M K. split; [by apply (users_ok_same db)|]. split; try done. simpl. intros j s u N E.
  destruct (decide (j = k)) as [->|D]; [|by rewrite M]. split; intros L; exfalso; [by eapply N, K|by eapply N, O].
Qed.

(** ** Handlers *)

Local Abbreviation M := (SR Manager).
Definition keeps {A} (t : uuid) (m : M A) : Prop :=
  forall st st' r, users_ok (m_db st) -> m st = (st', r) ->
    users_ok (m_db st') /\ confined t (m_db st) (m_db st') /\ m_lockout st' = m_lockout st.

Lemma keeps_pure {A} t (m : M A) : (forall st, fst (m st) = st) -> keeps t m.
Proof. intros P st st' r OK E. specialize (P st). rewrite E in P. simpl in P. subst st'. split; [done|by split]. Qed.
Lemma keeps_ret {A} t (a : A) : keeps t (sret a).
Proof. by apply keeps_pure. Qed.
Lemma keeps_raise {A} t e : keeps t (@sraise Manager A e).
Proof. by apply keeps_pure. Qed.
Lemma keeps_lift {A} t (r : res A) : keeps t (slift r).
Proof. by apply keeps_pure. Qed.
Lemma keeps_query {A} t (f : DB -> res A) : keeps t (run_query f).
Proof. by apply keeps_pure. Qed.
Lemma keeps_bind {A B} t (m : M A) (k : A -> M B) : keeps t m -> (forall a, keeps t (k a)) -> keeps t (sbind m k).
Proof.
  intros Hm Hk st st' r OK. unfold sbind. destruct (m st) as [st1 [a|e]] eqn:E.
  - intros K. destruct (Hm _ _ _ OK E) as (OK1 & C1 & L1). destruct (Hk a _ _ _ OK1 K) as (OK2 & C2 & L2).
    split; [done|]. split; [by etrans|congruence].
  - intros [= <- <-]. by eapply Hm.
Qed.
Lemma keeps_bind_pre {A B} t (m : M A) (k : A -> M B) st st' r :
  users_ok (m_db st) ->
  (forall st1 r1, m st = (st1, r1) -> users_ok (m_db st1) /\ confined t (m_db st) (m_db st1) /\ m_lockout st1 = m_lockout st) ->
  (forall a, keeps t (k a)) -> sbind m k st = (st', r) ->
  users_ok (m_db st') /\ confined t (m_db st) (m_db st') /\ m_lockout st' = m_lockout st.
Proof.
  intros OK Hm Hk. unfold sbind. destruct (m st) as [st1 [a|e]] eqn:E.
  - intros K. destruct (Hm _ _ eq_refl) as (OK1 & C1 & L1). destruct (Hk a _ _ _ OK1 K) as (OK2 & C2 & L2).
    split; [done|]. split; [by etrans|congruence].
  - intros [= <- <-]. by eapply Hm.
Qed.
Lemma keeps_catch {A} t (m : M A) h : keeps t m -> (forall e, keeps t (h e)) -> keeps t (scatch m h).
Proof.
  intros Hm Hh st st' r OK. unfold scatch. destruct (m st) as [st1 [a|e]] eqn:E.
  - intros [= <- <-]. by eapply Hm.
  - intros K. destruct (Hm _ _ _ OK E) as (OK1 & C1 & L1). destruct (Hh e _ _ _ OK1 K) as (OK2 & C2 & L2).
    split; [done|]. split; [by etrans|congruence].
Qed.
Lemma keeps_tx {A} t (T : Tx A) : tx_keeps t T -> keeps t (run_tx T).
Proof.
  intros HT st st' r OK. unfold run_tx. destruct (exec T (m_db st)) as [db r'] eqn:E. intros [= <- <-]. simpl.
  apply exec_cases in E as [(a & w & P & W & _)|[-> _]]; [|by split].
  destruct (HT _ _ _ _ OK P W). auto.
Qed.
Lemma keeps_ensure t code b : keeps t (ensure code b).
Proof. destruct b; [apply keeps_ret|apply keeps_raise]. Qed.
Lemma keeps_some_or {A} t code (o : option A) : keeps t (some_or code o).
Proof. destruct o; [apply keeps_ret|apply keeps_raise]. Qed.
Lemma keeps_translate {A} t e code (m : M A) : keeps t m -> keeps t (translate e code m).
Proof. intros K. apply keeps_catch; [done|]. intros e'. destruct (decide (e' = e)); apply keeps_raise. Qed.
Create HintDb keeps.
#[local] Hint Resolve keeps_ret keeps_raise keeps_lift keeps_query keeps_ensure keeps_some_or keeps_translate keeps_tx
  set_role_keeps change_password_keeps create_user_keeps delete_user_keeps audit_keeps : keeps.
(** Walk through a handler, one combinator at a time. *)
Ltac keeps_step :=
  match goal with
  | |- keeps _ (sbind _ _) => apply keeps_bind; [|intros]
  | |- keeps _ (match ?o with _ => _ end) => destruct o
  | |- keeps _ (translate _ _ _) => apply keeps_translate
  | |- keeps _ (let '_ := _ in _) => simpl
  | _ => solve [eauto with keeps]
  end.

Context (idle_timeout : num) (config_validator : option (dict json -> res unit)).

Lemma create_join_token_keeps t k ttl token now : tx_keeps t (create_join_token t k ttl token now).
Proof. eapply (operator_keeps t (CCreateJoinToken t k ttl token now)); [apply Z.eqb_refl|done]. Qed.
Lemma revoke_join_token_keeps t i who now : tx_keeps t (revoke_join_token t i who now).
Proof. eapply (operator_keeps t (CRevokeJoinToken t i who now)); [apply Z.eqb_refl|done]. Qed.
Lemma update_metadata_keeps t k f : tx_keeps t (update_metadata t k f).
Proof. eapply (operator_keeps t (CUpdateMetadata t k f)); [apply Z.eqb_refl|done]. Qed.
Lemma queue_config_keeps t k c who now : tx_keeps t (queue_config t k c who now).
Proof. eapply (operator_keeps t (CQueueConfig t k c who now)); [apply Z.eqb_refl|done]. Qed.
Lemma register_keeps t k n a i token now : tx_keeps t (register t k n a i token now).
Proof. eapply (operator_keeps t (CRegister t k n a i token now)); [apply Z.eqb_refl|done]. Qed.
#[local] Hint Resolve create_join_token_keeps revoke_join_token_keeps update_metadata_keeps queue_config_keeps register_keeps : keeps.

Lemma route_keeps authorization q s v :
  q <> QLogout -> keeps (as_tenant_id s) (route config_validator authorization q s v).
Proof.
  intros N. destruct q; simpl; [done|..];
    unfold route_create_user, route_list_users, route_update_user, route_delete_user, route_audit_log, route_create_join_token,
      route_list_join_tokens, route_revoke_join_token, route_list_devices, route_get_device, route_update_metadata,
      route_push_config, route_config_status, route_config_history, route_certificate_history, own_record, audit_event, http; simpl;
    repeat keeps_step.
Qed.

(** *** Sessions *)

(** Whom a request's [Authorization] header identifies. *)
Definition live_session (authorization : string) (now : datetime) (db : DB) : option AuthenticatedSession :=
  let token := bearer_value authorization in
  if String.eqb token "" then None else
  match fleet_sessions db !! hash_token token with
  | None => None
  | Some s =>
      match fleet_users db !! se_user_id s with
      | None => None
      | Some u => if se_expires_at s <? now then None else Some (MkSession (us_tenant_id u) (us_username u) (us_role u))
      end
  end.
(** The tables after the idle timeout of that session may have slid. *)
Definition refreshed (authorization : string) (db db' : DB) : Prop :=
  db' = db \/ exists e, update_session (hash_token (bearer_value authorization)) (with_expiry e) db = Ok db'.

Lemma live_session_owner authorization now db s :
  live_session authorization now db = Some s ->
  session_of_tenant (as_tenant_id s) (hash_token (bearer_value authorization)) db.
Proof.
  unfold live_session. intros L f u F U. destruct (String.eqb _ _); [done|]. rewrite F, U in L.
  destruct (_ <? _); [done|]. by injection L as <-.
Qed.
Lemma refreshed_keeps t authorization db db' :
  users_ok db -> session_of_tenant t (hash_token (bearer_value authorization)) db -> refreshed authorization db db' ->
  users_ok db' /\ confined t db db' /\ session_of_tenant t (hash_token (bearer_value authorization)) db'.
Proof.
  intros OK O [->|[e U]]; [by split; [|split]|]. unfold update_session in U.
  destruct (fleet_sessions db !! hash_token (bearer_value authorization)) as [s|] eqn:E; [|done]. injection U as <-.
  assert (forall s' u, <[hash_token (bearer_value authorization) := with_expiry e s]> (fleet_sessions db) !! hash_token (bearer_value authorization) = Some s' ->
    fleet_users db !! se_user_id s' = Some u -> us_tenant_id u = t) as K.
  { intros s' u. rewrite lookup_insert_eq. intros [= <-] F. by eapply O. }
  edestruct (touch_session_keeps t (hash_token (bearer_value authorization))) as [A B]; [done|done| |exact K|split; [exact A|split; [exact B|exact K]]].
  intros j N. by rewrite lookup_insert_ne.
Qed.

Lemma require_session_spec authorization now st st' r :
  require_session idle_timeout authorization now st = (st', r) ->
  m_lockout st' = m_lockout st /\
  match live_session authorization now (m_db st) with
  | None => st' = st /\ exists e, r = Raise e
  | Some s => refreshed authorization (m_db st) (m_db st') /\ (r = Ok s \/ exists e, r = Raise e)
  end.
Proof.
  unfold require_session, live_session, sbind. destruct (String.eqb (bearer_value authorization) "").
  { intros [= <- <-]. eauto. }
  unfold run_tx. destruct (exec _ (m_db st)) as [db x] eqn:E. apply exec_cases in E as [(o & w & P & W & _ & ->)|[-> [e ->]]].
  - unfold resolve_and_refresh in P. destruct (fleet_sessions (m_db st) !! _) as [s|] eqn:S; cycle 1.
    { inv_ok. intros [= <- <-]. destruct st. eauto. }
    destruct (fleet_users (m_db st) !! se_user_id s) as [u|]; cycle 1.
    { inv_ok. intros [= <- <-]. destruct st. eauto. }
    destruct (se_expires_at s <? now); inv_ok; intros [= <- <-]; [destruct st; eauto|].
    split; [done|]. split; [|auto]. right. eauto.
  - intros [= <- <-]. destruct st as [db l]. simpl. split; [done|]. destruct (fleet_sessions db !! _) as [s|]; [|eauto].
    destruct (fleet_users db !! se_user_id s) as [u|]; [|eauto]. destruct (_ <? now); [eauto|]. split; [by left|eauto].
Qed.

Lemma logout_keeps authorization s v st st' r :
  users_ok (m_db st) -> session_of_tenant (as_tenant_id s) (hash_token (bearer_value authorization)) (m_db st) ->
  logout authorization s v st = (st', r) ->
  users_ok (m_db st') /\ confined (as_tenant_id s) (m_db st) (m_db st') /\ m_lockout st' = m_lockout st.
Proof.
  intros OK O. unfold logout. apply (keeps_bind_pre (as_tenant_id s)); [done| |].
  - intros st1 r1. unfold run_tx. destruct (exec _ (m_db st)) as [db x] eqn:E. intros [= <- <-]. simpl.
    apply exec_cases in E as [(o & w & P & W & _ & ->)|[-> [e ->]]]; [|by split].
    unfold revoke_session in P. inv_ok. destruct (fleet_sessions (m_db st) !! _) as [f|] eqn:F; inv_ok; [|by split].
    edestruct (touch_session_keeps (as_tenant_id s) (hash_token (bearer_value authorization))) as [A B]; [done|done| | |by split; [exact A|]].
    + intros j N. by rewrite lookup_delete_ne.
    + intros ? ?. by rewrite lookup_delete_eq.
  - intros _. apply keeps_bind; [unfold audit_event; eauto with keeps|eauto with keeps].
Qed.

(** The dependency a route runs before its body. *)
Lemma authorized_spec authorization q now st st' r :
  match required_permission q with
  | Some p => require_permission idle_timeout p authorization now
  | None => require_session idle_timeout authorization now
  end st = (st', r) ->
  m_lockout st' = m_lockout st /\
  match live_session authorization now (m_db st) with
  | None => st' = st /\ exists e, r = Raise e
  | Some s => refreshed authorization (m_db st) (m_db st') /\
      ((r = Ok s /\ forall p, required_permission q = Some p -> has_permission (Some (as_role s)) p = true) \/ exists e, r = Raise e)
  end.
Proof.
  destruct (required_permission q) as [p|].
  - unfold require_permission, sbind. destruct (require_session _ _ _ st) as [st1 r1] eqn:E.
    apply require_session_spec in E as [L E]. destruct (live_session _ _ _) as [s|].
    + destruct E as [R [->|[e ->]]]; [|intros [= <- <-]; eauto].
      destruct (has_permission (Some (as_role s)) p) eqn:P; intros [= <- <-]; (split; [done|]); (split; [done|]); [left|eauto].
      split; [done|]. by intros ? [= <-].
    + destruct E as [-> [e ->]]. intros [= <- <-]. eauto.
  - intros [L E]%require_session_spec. split; [done|]. destruct (live_session _ _ _) as [s|]; [|done].
    destruct E as [R [->|E]]; (split; [done|]); [by left|by right].
Qed.

(** C11: A request to the admin port is answered only for a live session, and is
    confined to that session's tenant: without one nothing changes and the
    request is refused; with one, every row of every other tenant (devices,
    join tokens, histories, accounts, audit entries, sessions) is untouched,
    whatever the route; and when the session's role lacks the permission of the
    route the request is refused and at most the session's expiry moved. *)
Theorem admin_request_confined authorization q v st st' r :
  users_ok (m_db st) -> admin idle_timeout config_validator authorization q v st = (st', r) ->
  users_ok (m_db st') /\ m_lockout st' = m_lockout st /\
  match live_session authorization (e_now v) (m_db st) with
  | None => st' = st /\ exists e, r = Raise e
  | Some s =>
      confined (as_tenant_id s) (m_db st) (m_db st') /\
      (forall p, required_permission q = Some p -> has_permission (Some (as_role s)) p = false ->
        refreshed authorization (m_db st) (m_db st') /\ exists e, r = Raise e)
  end.
Proof.
  intros OK. unfold admin, sbind. match goal with |- context [match ?m st with (_, _) => _ end] => destruct (m st) as [st1 r1] eqn:E end.
  apply authorized_spec in E as [L E]. destruct (live_session authorization (e_now v) (m_db st)) as [s|] eqn:S.
  - destruct E as [R E]. destruct (refreshed_keeps _ _ _ _ OK (live_session_owner _ _ _ _ S) R) as (OK1 & C1 & O1).
    destruct E as [[-> P]|[e ->]]; [|intros [= <- <-]; eauto 10]. intros K.
    assert (users_ok (m_db st') /\ confined (as_tenant_id s) (m_db st1) (m_db st') /\ m_lockout st' = m_lockout st1) as (OK2 & C2 & L2).
    { destruct q; try (by eapply (route_keeps authorization _ s v); [|done|exact K]). by eapply logout_keeps. }
    split; [done|]. split; [congruence|]. split; [by etrans|]. intros p Q F. rewrite (P p Q) in F. done.
  - destruct E as [-> [e ->]]. intros [= <- <-]. eauto.
Qed.

(** ** Enrolment *)

Lemma run_tx_cases {A} (T : Tx A) st st' r :
  run_tx T st = (st', r) ->
  (exists a w, T (m_db st) = Ok (a, w) /\ w (m_db st) = Ok (m_db st') /\ m_lockout st' = m_lockout st /\ r = Ok a) \/
  (st' = st /\ exists e, r = Raise e).
Proof.
  unfold run_tx. destruct (exec T (m_db st)) as [db x] eqn:E. apply exec_cases in E as [(o & w & P & W & _ & ->)|[-> [e ->]]].
  - intros [= <- <-]. left. exists o, w. auto.
  - intros [= <- <-]. right. destruct st. eauto.
Qed.
Lemma consume_some k token now db t w :
  consume_join_token k token now db = Ok (Some t, w) ->
  exists j, join_tokens db !! hash_token token = Some j /\ jt_consumed_at j = None /\ jt_revoked_at j = None /\ jt_device_id j = k /\
    now <= jt_expires_at j /\ jt_tenant_id j = t /\ w = update_join_token (hash_token token) (with_consumed now).
Proof.
  unfold consume_join_token. destruct (join_tokens db !! hash_token token) as [j|]; [|done].
  destruct (bool_decide _ || bool_decide _) eqn:U; [done|]. apply orb_false_iff in U as [C V].
  intros P. inv_ok. destruct x; [|done]. destruct (jt_expires_at j <? now) eqn:X; simpl in P; [done|]. inv_ok.
  match goal with D : compare_digest _ _ = Ok _ |- _ => unfold compare_digest in D; inv_ok end.
  exists j. repeat split; [by apply eq_None_not_Some|by apply eq_None_not_Some|by apply String.eqb_eq|done].
Qed.
Lemma consume_keeps t token now db db' j :
  users_ok db -> update_join_token (hash_token token) (with_consumed now) db = Ok db' ->
  join_tokens db !! hash_token token = Some j -> jt_tenant_id j = t ->
  users_ok db' /\ confined t db db' /\ spent (hash_token token) db'.
Proof.
  intros OK U J T.
  pose proof (others_update_token t _ _ _ _ _ U (with_consumed_token now) J T) as R.
  unfold update_join_token in U. rewrite J in U. injection U as <-.
  destruct (confined_registry t db _ R) as [A B]; [done..|]. split; [done|]. split; [done|].
  eexists. simpl. rewrite lookup_insert_eq. split; [done|]. left. by eexists.
Qed.
Lemma others_insert_certificate t h db db' :
  insert_certificate_history h db = Ok db' -> (forall i, ce_tenant_id (h i) = t) -> others t db' = others t db.
Proof.
  unfold insert_certificate_history. intros U T. inv_ok. unfold others, rows_of. simpl. f_equal.
  rewrite filter_app, filter_cons_False, filter_nil by (rewrite T; auto). apply app_nil_r.
Qed.
Lemma certificate_tx_keeps k serial nb na reason now db a w db' d :
  users_ok db -> record_certificate_issued k serial nb na reason now db = Ok (a, w) -> w db = Ok db' -> devices db !! k = Some d ->
  users_ok db' /\ confined (tenant_id d) db db' /\ devices db' !! k = Some (with_certificate serial na d) /\ join_tokens db' = join_tokens db.
Proof.
  intros OK P W L.
  assert (perform (CRecordCertificate k serial nb na reason now) db = Ok (ATenant a, w)) as P' by (simpl; unfold tmap; by rewrite P).
  pose proof (registry_same_accounts _ _ _ _ _ _ P' W) as S.
  unfold record_certificate_issued in P. rewrite L in P. inv_ok.
  match goal with U : update_device _ _ _ = Ok _ |- _ => pose proof (others_update_device _ _ _ _ _ _ U (with_certificate_identity serial na) L eq_refl) as [R L'];
    unfold update_device in U; rewrite L in U; injection U as <- end.
  pose proof (others_insert_certificate (tenant_id d) _ _ _ W ltac:(done)) as R'.
  assert (devices db' = <[k := with_certificate serial na d]> (devices db) /\ tenants db' = tenants db /\ join_tokens db' = join_tokens db) as (D & T & J).
  { unfold insert_certificate_history in W. by inv_ok. }
  destruct (confined_registry (tenant_id d) db db') as [A B]; [by rewrite R'|done..|]. rewrite D, lookup_insert_eq. auto.
Qed.
Lemma register_device t k n a i token now db b w db' :
  register t k n a i token now db = Ok (b, w) -> w db = Ok db' ->
  b = token /\ join_tokens db' = join_tokens db /\ exists d, devices db' !! k = Some d /\ tenant_id d = t /\ token_hash d = hash_token token.
Proof.
  unfold register, upsert_device, foreign. intros P W. inv_ok. simpl in W.
  destruct (devices db !! k) as [d|]; inv_ok; (split; [done|]); (split; [done|]); simpl; eexists; rewrite lookup_insert_eq; (split; [done|]); done.
Qed.
Lemma spent_same h db db' : join_tokens db' = join_tokens db -> spent h db -> spent h db'.
Proof. intros E [j J]. exists j. by rewrite E. Qed.
Lemma signed_spec csr k st st' r : signed csr k st = (st', r) -> st' = st /\ forall c, r = Ok c -> sign csr k = Ok c.
Proof.
  unfold signed, translate, scatch, slift, http, sraise. destruct (sign csr k) as [c|e].
  - intros [= <- <-]. naive_solver.
  - repeat (case_decide; simpl); intros [= <- <-]; naive_solver.
Qed.

(** What a redeemed token [j] and the rest of the enrolment leave behind. *)
Record enrolled (device join_token csr : string) (v : Env) (j : JoinToken) (db db' : DB) (r : res reply) : Prop := {
  en_spent : spent (hash_token join_token) db';
  en_confined : confined (jt_tenant_id j) db db';
  en_reply : (exists e, r = Raise e) \/ exists c d, r = Ok (REnrolled (e_token v) (c_pem c) ca_certificate_pem) /\
    sign csr device = Ok c /\ devices db' !! device = Some d /\ tenant_id d = jt_tenant_id j /\
    token_hash d = hash_token (e_token v) /\ cert_serial_number d = Some (c_serial c) /\ cert_not_after d = Some (c_not_after c) }.

(** Enrolment either changes nothing and fails, or was given an unspent,
    unexpired join token issued for this very device: the token is then spent
    whatever happens next, only rows of the token's tenant change, and on
    success the device belongs to that tenant, holds the returned token's hash
    and the certificate the authority signed for it. *)
Theorem enroll_joins_token_tenant device join_token csr name agent interval v st st' r :
  users_ok (m_db st) -> enroll device join_token csr name agent interval v st = (st', r) ->
  (st' = st /\ exists e, r = Raise e) \/
  exists j, join_tokens (m_db st) !! hash_token join_token = Some j /\ jt_consumed_at j = None /\ jt_revoked_at j = None /\
    jt_device_id j = device /\ e_now v <= jt_expires_at j /\ enrolled device join_token csr v j (m_db st) (m_db st') r.
Proof.
  intros OK. unfold enroll, sbind at 1. destruct (run_tx _ st) as [st1 r1] eqn:E1.
  apply run_tx_cases in E1 as [(o & w & P1 & W1 & L1 & ->)|[-> [e ->]]]; [|intros [= <- <-]; eauto].
  destruct o as [t|]; cycle 1.
  { intros [= <- <-]. left. split; [|by eexists].
    assert (w = Ok) as ->.
    { unfold consume_join_token in P1. repeat (case_match; inv_ok; try done). }
    destruct st, st1. simpl in *. congruence. }
  apply consume_some in P1 as (j & J & JC & JR & JD & JE & <- & ->).
  destruct (consume_keeps _ _ _ _ _ _ OK W1 J eq_refl) as (OK1 & C1 & S1).
  intros K. right. exists j. repeat (split; [done|]). clear J JC JR JD JE OK W1. revert K. unfold sbind at 1. simpl. unfold sbind at 1.
  destruct (signed csr device st1) as [st2 r2] eqn:E2. apply signed_spec in E2 as [-> Sg].
  destruct r2 as [c|e]; [|intros [= <- <-]; split; eauto]. specialize (Sg c eq_refl). unfold sbind at 1.
  destruct (run_tx _ st1) as [st3 r3] eqn:E3. apply run_tx_cases in E3 as [(b & w & P3 & W3 & L3 & ->)|[-> [e ->]]];
    [|intros [= <- <-]; split; eauto].
  destruct (register_keeps (jt_tenant_id j) _ _ _ _ _ _ _ _ _ _ OK1 P3 W3) as [OK3 C3].
  destruct (register_device _ _ _ _ _ _ _ _ _ _ _ P3 W3) as (-> & J3 & d & D3 & T3 & H3').
  pose proof (spent_same _ _ _ J3 S1) as S3. assert (confined (jt_tenant_id j) (m_db st) (m_db st3)) as C3' by (by etrans).
  unfold sbind. destruct (run_tx _ st3) as [st4 r4] eqn:E4. apply run_tx_cases in E4 as [(x & w4 & P4 & W4 & L4 & ->)|[-> [e ->]]];
    [|intros [= <- <-]; split; eauto].
  destruct (certificate_tx_keeps _ _ _ _ _ _ _ _ _ _ _ OK3 P4 W4 D3) as (OK4 & C4 & D4 & J4). rewrite T3 in C4.
  intros [= <- <-]. split; [by eapply spent_same|by etrans|]. right. exists c. eexists. repeat (split; [done|]). by split.
Qed.
End Keeps.

Section Examples.
#[local] Existing Instance open_database.
#[local] Existing Instance hex_tokens.
#[local] Instance plain_passwords : Bcrypt := {| hashpw p _ := Ok p; checkpw p h := Ok (String.eqb p h) |}.
#[local] Instance test_authority : Authority :=
  {| sign_csr csr _ := if String.eqb csr "csr" then Ok (MkCertificate "pem" 7 0 1000) else Raise InvalidCsrError; ca_certificate_pem := "ca" |}.

Definition idle : num := NInt DEFAULT_IDLE_TIMEOUT_SECONDS.
Definition env0 : Env := MkEnv 5 "fresh" "salt" 77.
Definition fresh_manager : Manager := MkManager two_admins (no_failures DEFAULT_LOCKOUT_THRESHOLD (float_of_Z_raw DEFAULT_LOCKOUT_WINDOW_SECONDS)).
Definition logged_in : Manager := fst (login idle "a" "root" "h" env0 fresh_manager).

Lemma logged_in_ok : users_ok (m_db logged_in).
Proof. apply (users_ok_same two_admins); [vm_compute; reflexivity|apply two_admins_ok]. Qed.
Definition push_request := admin idle None "Bearer fresh" (QCreateUser "eve" "pw" "readonly") env0.
Lemma admin_request_confined_witness :
  snd (push_request logged_in) = Ok (RUser "eve" "readonly") /\ confined 1 (m_db logged_in) (m_db (fst (push_request logged_in))).
Proof.
  split; [vm_compute; reflexivity|].
  destruct (admin_request_confined idle None "Bearer fresh" (QCreateUser "eve" "pw" "readonly") env0 logged_in
    (fst (push_request logged_in)) (snd (push_request logged_in)) logged_in_ok (surjective_pairing _)) as (_ & _ & C).
  assert (live_session "Bearer fresh" (e_now env0) (m_db logged_in) = Some (MkSession 1 "root" "admin")) as L by (vm_compute; reflexivity).
  rewrite L in C. exact (proj1 C).
Defined.

Definition with_join_token : Manager :=
  MkManager (fst (exec (create_join_token 1 "dev" sixty "secret" 0) two_admins)) (m_lockout fresh_manager).
Definition enrolment := enroll "dev" "secret" "csr" None None sixty env0.
Lemma enroll_joins_token_tenant_witness :
  snd (enrolment with_join_token) = Ok (REnrolled "fresh" "pem" "ca") /\
  exists j, join_tokens (m_db with_join_token) !! hex "secret" = Some j /\
    spent (hex "secret") (m_db (fst (enrolment with_join_token))).
Proof.
  assert (snd (enrolment with_join_token) = Ok (REnrolled "fresh" "pem" "ca")) as R by (vm_compute; reflexivity).
  split; [exact R|].
  destruct (enroll_joins_token_tenant "dev" "secret" "csr" None None sixty env0 with_join_token
    (fst (enrolment with_join_token)) (snd (enrolment with_join_token))) as [[_ [e E]]|(j & J & _ & _ & _ & _ & [S _ _])].
  - apply (users_ok_same two_admins); [vm_compute; reflexivity|apply two_admins_ok].
  - apply surjective_pairing.
  - rewrite R in E. discriminate E.
  - exists j. split; [exact J|exact S].
Defined.

(** A malformed request spends the join token it came with. *)
Example bad_csr_spends_token :
  let '(st, r) := enroll "dev" "secret" "not a csr" None None sixty env0 with_join_token in
  r = Raise (HTTPException 400) /\ snd (enrolment st) = Raise (HTTPException 401).
Proof. vm_compute. split; reflexivity. Qed.

(** Two tenants issue tokens for the same new device; the second enrolment is
    not refused with a client error but fails in the server, its token spent. *)
Example conflicting_enrolment_crashes :
  let st1 := MkManager (fst (exec (create_join_token 2 "dev" sixty "other" 0) (m_db with_join_token))) (m_lockout fresh_manager) in
  let st2 := fst (enrolment st1) in
  let '(st3, r) := enroll "dev" "other" "csr" None None sixty env0 st2 in
  r = Raise DeviceTenantConflictError /\ jt_consumed_at <$> join_tokens (m_db st3) !! hex "other" = Some (Some 5).
Proof. vm_compute. split; reflexivity. Qed.

(** One device that enrolled with a heartbeat interval beyond what a timedelta
    holds makes the device list of its tenant fail. *)
Example huge_interval_breaks_device_list :
  let huge := float_of_Z_raw (10 ^ 30) in
  let st1 := fst (enroll "dev" "secret" "csr" None None huge env0 with_join_token) in
  let st2 := fst (device_heartbeat "dev" "Bearer fresh" None None None None env0 st1) in
  snd (route_list_devices (MkSession 1 "root" "admin") env0 st2) = Raise OverflowError.
Proof. vm_compute. reflexivity. Qed.
End Examples.
