(* ===== verification/ModbusTransports.v ===== *)
(** * Modbus transports and the serial bus manager

    src/xedge/drivers/modbus/tcp.py, rtu_over_tcp.py, serial.py, bus_manager.py.
    A connection is an asyncio stream; what the network does is an oracle.  Each
    transport implements the [ModbusTransport] interface of ModbusPolling. *)

From S2P Require Import Prelude PyBytes PyFloat PyDict ModbusCodec ModbusRtu ModbusDatatypes ModbusPlanner ModbusPolling.
Local Open Scope string_scope.
Local Open Scope list_scope.
Local Open Scope Z_scope.

(** ** Streams *)

(** Bytes received and not read yet, and whether the peer closed. *)
Record stream := MkStream { inbuf : list Z; at_eof : bool }.
(** [asyncio.StreamReader.readexactly] under [asyncio.wait_for]: bytes are
    consumed only when all of them are there; when they never come the timeout
    cancels the read and what has arrived stays in the buffer. *)
Definition readexactly (n : Z) : SR stream (list Z) := fun s =>
  if n <? 0 then (s, Raise ValueError)
  else if n <=? zlen (inbuf s) then (MkStream (drop (Z.to_nat n) (inbuf s)) (at_eof s), Ok (take (Z.to_nat n) (inbuf s)))
  else if at_eof s then (MkStream [] true, Raise IncompleteReadError)
  else (s, Raise TimeoutError).

(** What the network does with one written frame: the error [drain] raises, the
    bytes that arrive before the read deadline and whether the peer then closes. *)
Record delivery := MkDelivery { dl_drain : option exn; dl_bytes : list Z; dl_eof : bool }.
Definition deliver (d : delivery) (s : stream) : stream := MkStream (inbuf s ++ dl_bytes d) (at_eof s || dl_eof d).
(** [except OSError], with its subclasses. *)
Definition is_os_error (e : exn) : bool :=
  match e with OSError | ConnectionError | TimeoutError | FileNotFoundError | PermissionError => true | _ => false end.

(** The outcome of the [i]-th interaction: a connection attempt, a write. *)
Class Network := { dial : nat -> res unit; peer : nat -> list Z -> delivery }.

(** The response decoders and write encoders every transport uses. *)
Definition decode_values (fc : FunctionCode) (quantity : Z) (pdu : list Z) : res values :=
  if is_bit_function fc then rmap Bits (decode_bits_response pdu quantity) else rmap Regs (decode_registers_response pdu).
Definition write_request (fc : FunctionCode) (address value : Z) : res (list Z) :=
  match fc with
  | WRITE_SINGLE_COIL => encode_write_single_coil address (negb (value =? 0))
  | _ => encode_write_single_register address value
  end.

(** ** Modbus TCP *)

Module Tcp.
Definition CONNECTION_MODE_PERSISTENT : string := "persistent".
Definition CONNECTION_MODE_ON_DEMAND : string := "on_demand".
Definition DEFAULT_CONNECTION_RETRY_COUNT : Z := 0.
Definition MAX_TRANSACTION_ID : Z := 0x10000.

Record config := MkConfig {
  c_connection_mode : option string;
  c_connection_retry_count : option Z;
  c_unit_id : option Z }.
(** [ModbusTcpDriver]; [scheduler_running] is the request scheduler's state and
    [interactions] counts the uses of the network. *)
Record t := MkTcp {
  config_of : option config;
  connection : option stream;
  transaction_id : Z;
  connection_mode : string;
  scheduler_running : bool;
  interactions : nat }.
Definition set_connection (c : option stream) (d : t) : t :=
  MkTcp (config_of d) c (transaction_id d) (connection_mode d) (scheduler_running d) (interactions d).
Definition tick (d : t) : t :=
  MkTcp (config_of d) (connection d) (transaction_id d) (connection_mode d) (scheduler_running d) (S (interactions d)).
Definition set_running (b : bool) (d : t) : t :=
  MkTcp (config_of d) (connection d) (transaction_id d) (connection_mode d) b (interactions d).
Definition set_mode (m : string) (d : t) : t :=
  MkTcp (config_of d) (connection d) (transaction_id d) m (scheduler_running d) (interactions d).

Definition require_config : SR t config := fun d =>
  (d, match config_of d with Some c => Ok c | None => Raise ModbusDriverStateError end).
Definition require_connection : SR t stream := fun d =>
  (d, match connection d with Some s => Ok s | None => Raise ModbusDriverStateError end).
Definition next_transaction_id : SR t Z := fun d =>
  let i := (transaction_id d + 1) mod MAX_TRANSACTION_ID in
  (MkTcp (config_of d) (connection d) i (connection_mode d) (scheduler_running d) (interactions d), Ok i).

Section Hooks.
Context `{Network}.
(** [_open_socket]: [left] more attempts after a failed one. *)
Fixpoint open_attempts (left : nat) : SR t stream := fun d =>
  match dial (interactions d) with
  | Ok _ => (tick d, Ok (MkStream [] false))
  | Raise e =>
      if is_os_error e then match left with O => (tick d, Raise e) | S n => open_attempts n (tick d) end
      else (tick d, Raise e)
  end.
Definition open_socket (cfg : config) : SR t stream :=
  open_attempts (Z.to_nat (default DEFAULT_CONNECTION_RETRY_COUNT (c_connection_retry_count cfg))).

Definition connect_transport : SR t unit :=
  let! cfg := require_config in
  let mode := default CONNECTION_MODE_PERSISTENT (c_connection_mode cfg) in
  let! _ := smodify (set_mode mode) in
  let! _ := (if String.eqb mode CONNECTION_MODE_PERSISTENT then
               let! s := open_socket cfg in smodify (set_connection (Some s))
             else sret tt) in
  smodify (set_running true).
Definition disconnect_transport : SR t unit :=
  let! _ := smodify (set_running false) in smodify (set_connection None).

Definition read_frame : SR stream (list Z) :=
  let! header := readexactly MBAP_HEADER_LENGTH in
  let! n := slift (frame_remainder_length header) in
  let! remainder := readexactly n in
  sret (header ++ remainder).

(** [_write_frame_and_read_response] on the connection [s]: the connection
    afterwards and the response PDU. *)
Definition write_frame_and_read_response (frame : list Z) (s : stream) : SR t (stream * res (list Z)) := fun d =>
  let dl := peer (interactions d) frame in
  let d := tick d in
  match dl_drain dl with
  | Some e => (d, Ok (deliver dl s, Raise e))
  | None =>
      let '(s, r) := read_frame (deliver dl s) in
      (d, Ok (s, let* frame := r in let* fields := decode_mbap frame in Ok (snd fields)))
  end.

Definition send_request (request_pdu : list Z) : SR t (list Z) :=
  let! cfg := require_config in
  let! i := next_transaction_id in
  let! frame := slift (encode_mbap i (default 1 (c_unit_id cfg)) request_pdu) in
  let! mode := sget connection_mode in
  if String.eqb mode CONNECTION_MODE_ON_DEMAND then
    let! s := open_socket cfg in
    let! r := write_frame_and_read_response frame s in
    slift (snd r)
  else
    let! s := require_connection in
    let! r := write_frame_and_read_response frame s in
    let! _ := smodify (set_connection (Some (fst r))) in
    slift (snd r).

Definition read_block (fc : FunctionCode) (address quantity : Z) : SR t values :=
  let! request_pdu := slift (encode_read_request fc address quantity) in
  let! response_pdu := send_request request_pdu in
  slift (decode_values fc quantity response_pdu).
Definition write_one (fc : FunctionCode) (address value : Z) : SR t unit :=
  let! request_pdu := slift (write_request fc address value) in
  let! response_pdu := send_request request_pdu in
  slift (rmap (fun _ => tt) (decode_write_single_response response_pdu)).
Definition write_registers (address : Z) (vs : list Z) : SR t unit :=
  let! request_pdu := slift (encode_write_multiple_registers address vs) in
  let! response_pdu := send_request request_pdu in
  slift (rmap (fun _ => tt) (decode_write_multiple_response response_pdu)).
End Hooks.
End Tcp.

(** ** RTU frames on a stream *)

(** [_read_frame] of rtu_over_tcp.py and bus_manager.py *)
Definition read_rtu_frame : SR stream (list Z) :=
  let! head := readexactly 2 in
  let! function_code_byte := slift (index head 1) in
  if negb (Z.land function_code_byte EXCEPTION_RESPONSE_FLAG =? 0) then
    let! rest := readexactly (1 + 2) in sret (head ++ rest)
  else
    let! byte_count_byte := readexactly 1 in
    let! byte_count := slift (index byte_count_byte 0) in
    let! data := readexactly (byte_count + 2) in
    sret (head ++ byte_count_byte ++ data).
Definition read_write_response_frame : SR stream (list Z) :=
  let! head := readexactly 2 in
  let! function_code_byte := slift (index head 1) in
  let! rest := readexactly (if negb (Z.land function_code_byte EXCEPTION_RESPONSE_FLAG =? 0) then 1 + 2 else 4 + 2) in
  sret (head ++ rest).
Definition rtu_response (r : res (list Z)) : res (list Z) :=
  let* frame := r in let* fields := decode_rtu_frame frame in Ok (snd fields).
Module RtuOverTcp.
Record t := MkRtu {
  unit_id : option (option Z);
  connection : option stream;
  scheduler_running : bool;
  interactions : nat }.
Definition with_stream (s : stream) (d : t) : t := MkRtu (unit_id d) (Some s) (scheduler_running d) (S (interactions d)).
Definition require_config : SR t Z := fun d =>
  (d, match unit_id d with Some u => Ok (default 1 u) | None => Raise ModbusDriverStateError end).
Definition require_connection : SR t stream := fun d =>
  (d, match connection d with Some s => Ok s | None => Raise ModbusDriverStateError end).
Section Hooks.
Context `{Network}.
Definition connect_transport : SR t unit :=
  let! _ := require_config in
  fun d => match dial (interactions d) with
           | Ok _ => (MkRtu (unit_id d) (Some (MkStream [] false)) true (S (interactions d)), Ok tt)
           | Raise e => (MkRtu (unit_id d) (connection d) (scheduler_running d) (S (interactions d)), Raise e)
           end.
Definition disconnect_transport : SR t unit := fun d => (MkRtu (unit_id d) None false (interactions d), Ok tt).

(** Write [pdu] as an RTU frame and read the response with [reader]. *)
Definition transact (reader : SR stream (list Z)) (unit : Z) (s : stream) (pdu : list Z) : SR t (list Z) := fun d =>
  match encode_rtu_frame unit pdu with
  | Raise e => (d, Raise e)
  | Ok frame =>
      let dl := peer (interactions d) frame in
      match dl_drain dl with
      | Some e => (with_stream (deliver dl s) d, Raise e)
      | None => let '(s, r) := reader (deliver dl s) in (with_stream s d, rtu_response r)
      end
  end.
Definition read_block (fc : FunctionCode) (address quantity : Z) : SR t values :=
  let! u := require_config in
  let! s := require_connection in
  let! request_pdu := slift (encode_read_request fc address quantity) in
  let! response_pdu := transact read_rtu_frame u s request_pdu in
  slift (decode_values fc quantity response_pdu).
Definition write_one (fc : FunctionCode) (address value : Z) : SR t unit :=
  let! u := require_config in
  let! s := require_connection in
  let! request_pdu := slift (write_request fc address value) in
  let! response_pdu := transact read_write_response_frame u s request_pdu in
  slift (rmap (fun _ => tt) (decode_write_single_response response_pdu)).
Definition write_registers (address : Z) (vs : list Z) : SR t unit :=
  let! u := require_config in
  let! s := require_connection in
  let! request_pdu := slift (encode_write_multiple_registers address vs) in
  let! response_pdu := transact read_write_response_frame u s request_pdu in
  slift (rmap (fun _ => tt) (decode_write_multiple_response response_pdu)).
End Hooks.
End RtuOverTcp.

(** ** The shared serial bus *)

Module Bus.
Definition PARITY_MAP : dict string := [("none", "N"); ("even", "E"); ("odd", "O")].
Record config := MkConfig {
  c_baud_rate : option Z;
  c_parity : option string }.
(** [SerialBusManager].  [scheduler] counts the schedulers created and
    [scheduler_running] tells whether the current one was started. *)
Record t := MkBus {
  port : option stream;
  ref_count : Z;
  scheduler : nat;
  scheduler_running : bool;
  rts_supported : bool;
  rts : bool;
  interactions : nat }.
Definition new : t := MkBus None 0 0 false true false 0.
Definition is_open (b : t) : bool := 0 <? ref_count b.
Definition set_ref (n : Z) (b : t) : t := MkBus (port b) n (scheduler b) (scheduler_running b) (rts_supported b) (rts b) (interactions b).
Definition set_port (p : option stream) (b : t) : t := MkBus p (ref_count b) (scheduler b) (scheduler_running b) (rts_supported b) (rts b) (interactions b).
Definition set_running (r : bool) (b : t) : t := MkBus (port b) (ref_count b) (scheduler b) r (rts_supported b) (rts b) (interactions b).
Definition tick (b : t) : t := MkBus (port b) (ref_count b) (scheduler b) (scheduler_running b) (rts_supported b) (rts b) (S (interactions b)).
Definition new_scheduler (b : t) : t := MkBus (port b) (ref_count b) (S (scheduler b)) false (rts_supported b) (rts b) (interactions b).

(** What the awaited [open_serial_connection] came to; a cancellation is not an
    [Exception]. *)
Inductive opening := Opened | OpenFailed (e : exn) | OpenCancelled.

Section Hooks.
Context `{Network}.

(** [acquire] up to its await.  [Ok true]: the caller awaits the port;
    [Ok false]: the port counts as open already. *)
Definition acquire_begin (cfg : config) : SR t bool := fun b =>
  let b := set_ref (ref_count b + 1) b in
  if 1 <? ref_count b then (b, Ok false)
  else
    let b := new_scheduler b in
    match inter_frame_delay_seconds (default 9600 (c_baud_rate cfg)) with
    | Raise e => (b, Raise e)
    | Ok _ =>
        if dict_mem (default "none" (c_parity cfg)) PARITY_MAP then (b, Ok true)
        else (set_ref (ref_count b - 1) b, Raise KeyError)
    end.
(** [acquire] from its await on. *)
Definition acquire_end (o : opening) : SR t (option unit) := fun b =>
  match o with
  | Opened => (set_running true (set_port (Some (MkStream [] false)) b), Ok (Some tt))
  | OpenFailed e => (set_ref (ref_count b - 1) b, Raise e)
  | OpenCancelled => (b, Ok None)
  end.
(** [release] up to the await in [self.scheduler.stop()], which has cancelled
    the consumer by then; [true] if it goes on. *)
Definition release_begin (b : t) : t * bool :=
  if ref_count b =? 0 then (b, false)
  else let b := set_ref (ref_count b - 1) b in
       if 0 <? ref_count b then (b, false) else (set_running false b, true).
(** [release] from there on: whatever connection the manager holds by then is
    closed. *)
Definition release_end (b : t) : t := set_port None b.

Definition require_connection : SR t stream := fun b =>
  (b, match port b with Some s => Ok s | None => Raise SerialBusManagerStateError end).
(** [_set_rts]; [rts_fails] when the adapter has no modem-control lines. *)
Definition set_rts (rts_fails : bool) (v : bool) (b : t) : t :=
  if negb (rts_supported b) then b
  else if rts_fails then MkBus (port b) (ref_count b) (scheduler b) (scheduler_running b) false (rts b) (interactions b)
  else MkBus (port b) (ref_count b) (scheduler b) (scheduler_running b) (rts_supported b) v (interactions b).
(** [_transmit]: RTS is raised before the frame and dropped after it; what the
    bus then delivers is in the port's buffer. *)
Definition transmit (rts_fails : bool) (u : Z) (pdu : list Z) (s : stream) : SR t unit := fun b =>
  let b := set_rts rts_fails true b in
  match encode_rtu_frame u pdu with
  | Raise e => (b, Raise e)
  | Ok frame =>
      let dl := peer (interactions b) frame in
      let b := set_port (Some (deliver dl s)) (tick b) in
      match dl_drain dl with
      | Some e => (b, Raise e)
      | None => (set_rts rts_fails false b, Ok tt)
      end
  end.
Definition receive (reader : SR stream (list Z)) : SR t (list Z) :=
  let! s := require_connection in
  fun b => let '(s, r) := reader s in (set_port (Some s) b, rtu_response r).

Context (rts_fails : bool).
Definition read_block (u : Z) (fc : FunctionCode) (address quantity : Z) : SR t values :=
  let! s := require_connection in
  let! request_pdu := slift (encode_read_request fc address quantity) in
  let! _ := transmit rts_fails u request_pdu s in
  let! response_pdu := receive read_rtu_frame in
  slift (decode_values fc quantity response_pdu).
Definition write_one (u : Z) (fc : FunctionCode) (address value : Z) : SR t unit :=
  let! s := require_connection in
  let! request_pdu := slift (write_request fc address value) in
  let! _ := transmit rts_fails u request_pdu s in
  let! response_pdu := receive read_write_response_frame in
  slift (rmap (fun _ => tt) (decode_write_single_response response_pdu)).
Definition write_registers (u : Z) (address : Z) (vs : list Z) : SR t unit :=
  let! s := require_connection in
  let! request_pdu := slift (encode_write_multiple_registers address vs) in
  let! _ := transmit rts_fails u request_pdu s in
  let! response_pdu := receive read_write_response_frame in
  slift (rmap (fun _ => tt) (decode_write_multiple_response response_pdu)).
End Hooks.

(** [acquire] and [release] when nothing runs in between. *)
Definition acquire (cfg : config) (o : opening) : SR t (option unit) :=
  let! waits := acquire_begin cfg in if waits then acquire_end o else sret (Some tt).
Definition release (b : t) : t := let '(b, last) := release_begin b in if last then release_end b else b.

(** [get_bus_manager]: one manager per port path for the whole process. *)
Definition get_bus_manager (path : string) (managers : dict t) : dict t * t :=
  match dict_get path managers with
  | Some m => (managers, m)
  | None => (dict_set path new managers, new)
  end.
End Bus.

(** ** The serial driver shell *)

Module Serial.
Definition BYTES_PER_REGISTER : Z := 2.
Definition REQUEST_BYTES : Z := 8.
Definition RESPONSE_OVERHEAD_BYTES : Z := 5.
Definition INTER_FRAME_CHARS : pfloat := int_truediv 7 2.

(** Characters one read puts on the wire. *)
Definition block_chars (b : FunctionCode * Z) : pfloat :=
  let data_bytes := if is_bit_function (fst b) then - ((- snd b) / 8) else snd b * BYTES_PER_REGISTER in
  fadd (fadd (fadd INTER_FRAME_CHARS (float_of_Z_raw REQUEST_BYTES)) (float_of_Z_raw RESPONSE_OVERHEAD_BYTES)) (float_of_Z_raw data_bytes).
Definition minimum_scan_interval_seconds (baud_rate : Z) (blocks : list (FunctionCode * Z)) (data_bits : Z) (parity : string) (stop_bits : Z) : res pfloat :=
  let bits_per_char := 1 + data_bits + (if String.eqb parity "none" then 0 else 1) + stop_bits in
  let total_chars := foldl (fun acc b => fadd acc (block_chars b)) fzero blocks in
  fdiv (fmul total_chars (float_of_Z_raw bits_per_char)) (float_of_Z_raw baud_rate).

(** [_warn_on_unachievable_scan_rates]: the groups warned about. *)
Definition warns (baud_rate data_bits : Z) (parity : string) (stop_bits : Z) (blocks : list ReadBlock) (group : TagGroup) : res bool :=
  match blocks with
  | [] => Ok false
  | _ =>
      let* floor_seconds := minimum_scan_interval_seconds baud_rate
        (map (fun b => (rb_function_code b, rb_quantity b)) blocks) data_bits parity stop_bits in
      let* configured_seconds := match tg_scan_rate_ms group with NInt z => int_div z 1000 | NFloat f => fdiv f (float_of_Z_raw 1000) end in
      Ok (fltb configured_seconds floor_seconds)
  end.
Fixpoint warn_on_unachievable_scan_rates (baud_rate data_bits : Z) (parity : string) (stop_bits : Z)
    (blocks_by_group : dict (list ReadBlock)) (groups : list TagGroup) : res (list string) :=
  match groups with
  | [] => Ok []
  | g :: rest =>
      let* w := warns baud_rate data_bits parity stop_bits (default [] (dict_get (tg_id g) blocks_by_group)) g in
      let* ws := warn_on_unachievable_scan_rates baud_rate data_bits parity stop_bits blocks_by_group rest in
      Ok (if w then tg_id g :: ws else ws)
  end.

(** [ModbusRtuSerialDriver]: the manager is a shared object, named by its port
    path in the module's registry [managers]. *)
Record t := MkSerial {
  unit_id : Z;
  port_path : option string;
  bus_manager : option string;
  managers : dict Bus.t }.
Definition set_managers (m : dict Bus.t) (d : t) : t := MkSerial (unit_id d) (port_path d) (bus_manager d) m.

Section Hooks.
Context `{Network} (rts_fails : bool).
Definition on_bus {A} (f : SR Bus.t A) : SR t A := fun d =>
  match bus_manager d with
  | None => (d, Raise ModbusDriverStateError)
  | Some path =>
      match dict_get path (managers d) with
      | None => (d, Raise ModbusDriverStateError)
      | Some b => let '(b, r) := f b in (set_managers (dict_set path b (managers d)) d, r)
      end
  end.
(** [_connect_transport] with the port opening [o] *)
Definition connect_transport (cfg : Bus.config) (o : Bus.opening) : SR t (option unit) := fun d =>
  match port_path d with
  | None => (d, Raise KeyError)
  | Some path =>
      let '(ms, _) := Bus.get_bus_manager path (managers d) in
      on_bus (Bus.acquire cfg o) (MkSerial (unit_id d) (port_path d) (Some path) ms)
  end.
Definition disconnect_transport : SR t unit := fun d =>
  match bus_manager d with
  | None => (d, Ok tt)
  | Some _ =>
      let '(d, r) := on_bus (fun b => (Bus.release b, Ok tt)) d in
      (MkSerial (unit_id d) (port_path d) None (managers d), r)
  end.
Definition read_block (fc : FunctionCode) (address quantity : Z) : SR t values := fun d =>
  on_bus (Bus.read_block rts_fails (unit_id d) fc address quantity) d.
Definition write_one (fc : FunctionCode) (address value : Z) : SR t unit := fun d =>
  on_bus (Bus.write_one rts_fails (unit_id d) fc address value) d.
Definition write_registers (address : Z) (vs : list Z) : SR t unit := fun d =>
  on_bus (Bus.write_registers rts_fails (unit_id d) address vs) d.
End Hooks.
End Serial.

#[export] Instance tcp_transport `{Network} : ModbusTransport Tcp.t :=
  {| read_block := Tcp.read_block; write_one := Tcp.write_one; write_registers := Tcp.write_registers |}.
#[export] Instance rtu_over_tcp_transport `{Network} : ModbusTransport RtuOverTcp.t :=
  {| read_block := RtuOverTcp.read_block; write_one := RtuOverTcp.write_one; write_registers := RtuOverTcp.write_registers |}.
(** Serial lines of adapters with modem control. *)
#[export] Instance serial_transport `{Network} : ModbusTransport Serial.t :=
  {| read_block := Serial.read_block false; write_one := Serial.write_one false; write_registers := Serial.write_registers false |}.

(** ** Devices

    What a device that holds [mem] answers to a read. *)

Definition mem_ok (mem : memory) : Prop := forall fc a v, mem fc a = Some v -> u16 v.
Definition bits_of (mem : memory) (fc : FunctionCode) (a n : Z) : list bool := map (fun v => negb (v =? 0)) (cells mem fc a n).
Definition read_data (mem : memory) (fc : FunctionCode) (a n : Z) : list Z :=
  if is_bit_function fc then
    let bits := bits_of mem fc a n in pack_coils 0 bits (replicate ((length bits + 7) / 8) 0)
  else match pack_be (map (fun v => (fmt_H, v)) (cells mem fc a n)) with Ok bs => bs | Raise _ => [] end.
Definition read_pdu (mem : memory) (fc : FunctionCode) (a n : Z) : list Z :=
  if mappedb mem fc a n then read_response fc (read_data mem fc a n) else [Z.lor (fc_value fc) 0x80; 2].

Lemma cells_length mem fc a n : 0 <= n -> zlen (cells mem fc a n) = n.
Proof. intros. unfold zlen, cells. rewrite length_map, length_seqZ. lia. Qed.
Lemma cells_u16 mem fc a n : mem_ok mem -> mappedb mem fc a n = true -> Forall u16 (cells mem fc a n).
Proof.
  intros M E. apply Forall_forall. intros v (i & -> & I)%list_elem_of_fmap. unfold mappedb in E. rewrite forallb_forall in E.
  specialize (E i (proj1 (list_elem_of_In _ _) I)). bool_simpl. destruct E as [w W]. rewrite W. simpl. by eapply M.
Qed.
Lemma check_exception_flag fc code rest : check_exception (Z.lor (fc_value fc) 0x80 :: code :: rest) = Raise (ModbusException (fc_value fc) code).
Proof. by destruct fc. Qed.

(** The decoders read back what such a device sends. *)
Lemma decode_read_pdu mem fc a n :
  mem_ok mem -> request_ok fc a n ->
  decode_values fc n (read_pdu mem fc a n) =
    if mappedb mem fc a n then Ok (cells_values mem fc a n) else Raise (ModbusException (fc_value fc) 2).
Proof.
  intros M (F & A & N & E). unfold read_pdu. destruct (mappedb mem fc a n) eqn:P.
  - unfold decode_values, cells_values, read_data. destruct (is_bit_function fc).
    + unfold decode_bits_response. destruct (read_response_parts fc (pack_coils 0 (bits_of mem fc a n) (replicate ((length (bits_of mem fc a n) + 7) / 8) 0))) as (-> & -> & S).
      simpl. rewrite S. pose proof (cells_length mem fc a n) as L. unfold zlen in L.
      replace (Z.to_nat n) with (length (bits_of mem fc a n)) by (unfold bits_of; rewrite length_map; lia).
      by rewrite unpack_bits_pack_coils.
    + destruct (pack_words_ok _ (cells_u16 mem fc a n M P)) as [bs B]. rewrite B. destruct (unpack_pack_words _ _ B) as [L U].
      unfold decode_registers_response. destruct (read_response_parts fc bs) as (-> & -> & S). simpl. rewrite S.
      rewrite L, Z.mul_comm, Z.div_mul by lia. unfold zlen. rewrite Nat2Z.id, U. done.
  - unfold decode_values, decode_bits_response, decode_registers_response. rewrite check_exception_flag. by destruct (is_bit_function fc).
Qed.

Lemma pack_coils_bytes i vs packed : bytes_ok packed -> bytes_ok (pack_coils i vs packed).
Proof.
  revert i packed. induction vs as [|v vs IH]; intros i packed B; simpl; [done|]. apply IH. destruct v; [|done].
  apply Forall_alter; [done|]. intros x _ Hx. apply (lor_range 8); [lia|done|].
  unfold in_u. rewrite Z.shiftl_1_l. split; [lia|]. apply Z.pow_lt_mono_r; [lia..|]. pose proof (Nat.mod_upper_bound i 8). lia.
Qed.

Lemma read_data_size mem fc a n : mem_ok mem -> request_ok fc a n -> mappedb mem fc a n = true -> u8 (zlen (read_data mem fc a n)).
Proof.
  intros M (F & A & N & E) P. pose proof (cells_length mem fc a n) as L. unfold read_data, max_read_quantity, MAX_READ_BITS, MAX_READ_REGISTERS in *.
  destruct (is_bit_function fc); unfold in_u, zlen in *.
  - rewrite pack_coils_length, length_replicate. unfold bits_of. rewrite length_map.
    pose proof (Nat.Div0.mul_div_le (length (cells mem fc a n) + 7) 8). lia.
  - destruct (pack_words_ok _ (cells_u16 mem fc a n M P)) as [bs B]. rewrite B. destruct (unpack_pack_words _ _ B) as [L' _].
    unfold zlen in L'. lia.
Qed.
Lemma read_data_bytes mem fc a n : bytes_ok (read_data mem fc a n).
Proof.
  unfold read_data. destruct (is_bit_function fc).
  - apply pack_coils_bytes. apply Forall_replicate. unfold in_u. lia.
  - destruct (pack_be _) eqn:B; [by eapply pack_be_bytes|constructor].
Qed.
Lemma read_pdu_bytes mem fc a n : mem_ok mem -> request_ok fc a n -> bytes_ok (read_pdu mem fc a n).
Proof.
  intros M R. unfold read_pdu, read_response. destruct (mappedb mem fc a n) eqn:P.
  - constructor; [unfold in_u; destruct fc; simpl; lia|]. constructor; [by apply read_data_size|apply read_data_bytes].
  - constructor; [by destruct fc|]. by repeat constructor.
Qed.
Lemma read_pdu_size mem fc a n : mem_ok mem -> request_ok fc a n -> 2 <= zlen (read_pdu mem fc a n) <= 257.
Proof.
  intros M R. unfold read_pdu, read_response. destruct (mappedb mem fc a n) eqn:P; autorewrite with zlen; [|lia].
  pose proof (read_data_size _ _ _ _ M R P) as S. unfold in_u in S. pose proof (zlen_nonneg (read_data mem fc a n)). lia.
Qed.

(** ** Frames on a stream *)

Lemma readexactly_app n x y e : zlen x = n -> readexactly n (MkStream (x ++ y) e) = (MkStream y e, Ok x).
Proof.
  intros <-. unfold readexactly. simpl. pose proof (zlen_nonneg x). pose proof (zlen_nonneg y).
  destruct (Z.ltb_spec (zlen x) 0); [lia|]. rewrite zlen_app. destruct (Z.leb_spec (zlen x) (zlen x + zlen y)); [|lia].
  unfold zlen. rewrite Nat2Z.id. by rewrite drop_app_length, take_app_length.
Qed.

Lemma read_then {A} n x y e (k : list Z -> SR stream A) : zlen x = n -> sbind (readexactly n) k (MkStream (x ++ y) e) = k x (MkStream y e).
Proof. intros L. unfold sbind. by rewrite (readexactly_app _ _ _ _ L). Qed.
Lemma lift_then {S A B} (v : A) r (k : A -> SR S B) s : r = Ok v -> sbind (slift r) k s = k v s.
Proof. by intros ->. Qed.

(** The reader of a transport takes exactly one encoded frame off the stream. *)
Lemma tcp_read_frame t u pdu frame rest e :
  encode_mbap t u pdu = Ok frame -> u16 t -> u8 u -> zlen pdu <= 65534 ->
  Tcp.read_frame (MkStream (frame ++ rest) e) = (MkStream rest e, Ok frame).
Proof.
  intros E Ht Hu Hl. destruct (mbap_frame_ok t u pdu Ht Hu Hl) as (f & E' & _ & R).
  rewrite E in E'. injection E' as <-. unfold encode_mbap in E. inv_ok.
  match goal with H : pack_be _ = Ok _ |- _ => destruct (mbap_header_spec _ _ _ _ H) as [L _] end.
  rewrite take_app_length' in R by (unfold zlen in L; lia). unfold Tcp.read_frame.
  by rewrite <- app_assoc, (read_then _ _ _ _ _ L), (lift_then _ _ _ _ R), read_then.
Qed.
Lemma rtu_read_frame mem fc a n u frame rest e :
  encode_rtu_frame u (read_pdu mem fc a n) = Ok frame ->
  read_rtu_frame (MkStream (frame ++ rest) e) = (MkStream rest e, Ok frame).
Proof.
  intros [_ ->]%encode_rtu_shape. generalize (crc_lo (compute_crc16 (u :: read_pdu mem fc a n))) (crc_hi (compute_crc16 (u :: read_pdu mem fc a n))).
  intros lo hi. unfold read_rtu_frame, read_pdu, read_response. destruct (mappedb mem fc a n).
  - generalize (read_data mem fc a n). intros data.
    change (((u :: fc_value fc :: zlen data :: data) ++ [lo; hi]) ++ rest) with ([u; fc_value fc] ++ ([zlen data] ++ ((data ++ [lo; hi]) ++ rest))).
    rewrite (read_then 2 [u; fc_value fc]), (lift_then (fc_value fc)) by done.
    replace (Z.land (fc_value fc) EXCEPTION_RESPONSE_FLAG =? 0) with true by (by destruct fc). cbn [negb].
    rewrite (read_then 1 [zlen data]), (lift_then (zlen data)), (read_then (zlen data + 2) (data ++ [lo; hi])) by (by autorewrite with zlen). done.
  - change (((u :: [Z.lor (fc_value fc) 128; 2]) ++ [lo; hi]) ++ rest) with ([u; Z.lor (fc_value fc) 128] ++ ([2; lo; hi] ++ rest)).
    rewrite (read_then 2 [u; Z.lor (fc_value fc) 128]), (lift_then (Z.lor (fc_value fc) 128)) by done.
    replace (Z.land (Z.lor (fc_value fc) 128) EXCEPTION_RESPONSE_FLAG =? 0) with false by (by destruct fc). cbn [negb].
    by rewrite (read_then (1 + 2) [2; lo; hi]) by done.
Qed.

(** ** Dialling *)

Lemma open_attempts_spec `{Network} left d :
  exists k d', Tcp.open_attempts left d = (d', rmap (fun _ => MkStream [] false) (dial (Tcp.interactions d + k))) /\
    (k <= left)%nat /\ d' = Nat.iter (S k) Tcp.tick d /\
    (forall j, (j < k)%nat -> exists e, dial (Tcp.interactions d + j) = Raise e /\ is_os_error e = true) /\
    ((k < left)%nat -> forall e, dial (Tcp.interactions d + k) = Raise e -> is_os_error e = false).
Proof.
  revert d; induction left as [|n IH]; intros d; cbn [Tcp.open_attempts].
  - exists 0%nat, (Tcp.tick d). rewrite Nat.add_0_r. split; [by repeat case_match|]. repeat split; try lia.
  - destruct (dial (Tcp.interactions d)) as [v|e] eqn:D.
    { exists 0%nat, (Tcp.tick d). rewrite Nat.add_0_r, D. repeat split; try lia. done. }
    destruct (is_os_error e) eqn:O.
    + destruct (IH (Tcp.tick d)) as (k & d' & E & K & -> & F & G). exists (S k), (Nat.iter (S (S k)) Tcp.tick d).
      rewrite <- Nat.add_succ_comm. split; [by rewrite E, <- Nat.iter_succ_r|]. split; [lia|]. split; [done|]. split.
      * intros [|j] J; [rewrite Nat.add_0_r; by exists e|]. rewrite <- Nat.add_succ_comm. apply (F j). lia.
      * intros L. apply G. lia.
    + exists 0%nat, (Tcp.tick d). rewrite Nat.add_0_r, D. repeat split; try lia. by intros _ ? [= <-].
Qed.

(** Dialling a TCP device terminates: [_open_socket] dials at least once and at
    most [connection_retry_count + 1] times, stops at the first attempt that
    does not fail with an [OSError] or when the attempts are used up, and its
    outcome is that last attempt's, a fresh connection or its exception;
    nothing else of the driver changes. *)
Theorem open_socket_attempts `{Network} cfg d :
  let retries := default Tcp.DEFAULT_CONNECTION_RETRY_COUNT (Tcp.c_connection_retry_count cfg) in
  exists k, (k <= Z.to_nat retries)%nat /\
    Tcp.open_socket cfg d = (Nat.iter (S k) Tcp.tick d, rmap (fun _ => MkStream [] false) (dial (Tcp.interactions d + k))) /\
    (forall j, (j < k)%nat -> exists e, dial (Tcp.interactions d + j) = Raise e /\ is_os_error e = true) /\
    ((k < Z.to_nat retries)%nat -> forall e, dial (Tcp.interactions d + k) = Raise e -> is_os_error e = false).
Proof. intros retries. destruct (open_attempts_spec (Z.to_nat retries) d) as (k & d' & E & K & -> & F & G). by exists k. Qed.

(** ** Reading a device through a transport *)

Section Serve.
Context `{Network} (mem : memory) (u : Z).
Hypotheses (Hmem : mem_ok mem) (Hu : u8 u).

(** The peer answers each read request addressed to [u] with what it holds. *)
Definition tcp_device : Prop := forall i t fc a n pdu frame,
  request_ok fc a n -> u16 t -> encode_read_request fc a n = Ok pdu -> encode_mbap t u pdu = Ok frame ->
  exists resp, encode_mbap t u (read_pdu mem fc a n) = Ok resp /\ peer i frame = MkDelivery None resp false.
Definition rtu_device : Prop := forall i fc a n pdu frame,
  request_ok fc a n -> encode_read_request fc a n = Ok pdu -> encode_rtu_frame u pdu = Ok frame ->
  exists resp, encode_rtu_frame u (read_pdu mem fc a n) = Ok resp /\ peer i frame = MkDelivery None resp false.
(** Some attempt of each [retries + 1] in a row gets through. *)
Definition dialable (retries : nat) : Prop := forall i, exists k, (k <= retries)%nat /\ dial (i + k) = Ok tt /\
  forall j, (j < k)%nat -> exists e, dial (i + j) = Raise e /\ is_os_error e = true.

(** A connected driver of each transport, its stream drained. *)
Definition tcp_ready (d : Tcp.t) : Prop := exists cfg, Tcp.config_of d = Some cfg /\ default 1 (Tcp.c_unit_id cfg) = u /\
  if String.eqb (Tcp.connection_mode d) Tcp.CONNECTION_MODE_ON_DEMAND
  then dialable (Z.to_nat (default Tcp.DEFAULT_CONNECTION_RETRY_COUNT (Tcp.c_connection_retry_count cfg)))
  else Tcp.connection d = Some (MkStream [] false).
Definition rtu_over_tcp_ready (d : RtuOverTcp.t) : Prop :=
  (exists v, RtuOverTcp.unit_id d = Some v /\ default 1 v = u) /\ RtuOverTcp.connection d = Some (MkStream [] false).
Definition serial_ready (d : Serial.t) : Prop := Serial.unit_id d = u /\ exists path b,
  Serial.bus_manager d = Some path /\ dict_get path (Serial.managers d) = Some b /\ Bus.port b = Some (MkStream [] false).

Lemma open_socket_dialable cfg d :
  dialable (Z.to_nat (default Tcp.DEFAULT_CONNECTION_RETRY_COUNT (Tcp.c_connection_retry_count cfg))) ->
  exists k, Tcp.open_socket cfg d = (Nat.iter k Tcp.tick d, Ok (MkStream [] false)).
Proof.
  intros D. unfold Tcp.open_socket. set (left := Z.to_nat _) in *.
  destruct (open_attempts_spec left d) as (k & d' & E & K & -> & F & G). exists (S k). rewrite E. f_equal.
  destruct (D (Tcp.interactions d)) as (m & M & O & B). destruct (Nat.lt_trichotomy k m) as [L|[->|L]].
  - destruct (B k L) as (e & R & OE). rewrite (G ltac:(lia) e R) in OE. done.
  - by rewrite O.
  - destruct (F m L) as (e & R & _). congruence.
Qed.
Lemma iter_tick k d :
  Tcp.config_of (Nat.iter k Tcp.tick d) = Tcp.config_of d /\ Tcp.connection (Nat.iter k Tcp.tick d) = Tcp.connection d /\
  Tcp.connection_mode (Nat.iter k Tcp.tick d) = Tcp.connection_mode d.
Proof. induction k as [|k IH]; [done|]. by simpl. Qed.

Lemma read_request_frame fc a n : request_ok fc a n -> exists pdu, encode_read_request fc a n = Ok pdu /\ zlen pdu = 5 /\ bytes_ok pdu /\ pdu <> [].
Proof.
  intros [_ R]. pose proof (encode_read_request_accepts fc a n R) as A. destruct (encode_read_request fc a n) as [pdu|] eqn:E; [|done].
  apply encode_read_request_inv in E as [_ E]. exists pdu. pose proof (pack_be_length _ _ E) as L. simpl in L. split; [done|].
  split; [unfold zlen; lia|]. split; [by eapply pack_be_bytes|]. by intros ->.
Qed.

(** One exchange with a TCP device over an empty stream. *)
Lemma tcp_exchange t fc a n pdu frame d :
  tcp_device -> request_ok fc a n -> u16 t -> encode_read_request fc a n = Ok pdu -> encode_mbap t u pdu = Ok frame ->
  Tcp.write_frame_and_read_response frame (MkStream [] false) d = (Tcp.tick d, Ok (MkStream [] false, Ok (read_pdu mem fc a n))).
Proof.
  intros D R T E F. destruct (D (Tcp.interactions d) t fc a n pdu frame R T E F) as (resp & Er & P).
  pose proof (read_pdu_size mem fc a n Hmem R). unfold Tcp.write_frame_and_read_response. rewrite P. unfold deliver. simpl.
  rewrite <- (app_nil_r resp) at 1. rewrite (tcp_read_frame _ _ _ _ [] false Er T Hu) by lia.
  simpl. by rewrite (encode_decode_mbap _ _ _ _ Er).
Qed.

Lemma tcp_reads : tcp_device -> reads_memory mem tcp_ready.
Proof.
  intros D d fc a n (cfg & C & U & M) R. destruct (read_request_frame fc a n R) as (pdu & E & L & _).
  set (t := (Tcp.transaction_id d + 1) mod Tcp.MAX_TRANSACTION_ID).
  assert (u16 t) as T by (apply Z.mod_pos_bound; unfold Tcp.MAX_TRANSACTION_ID; lia).
  destruct (mbap_frame_ok t u pdu T Hu ltac:(lia)) as (frame & F & _).
  simpl. unfold Tcp.read_block, Tcp.send_request. rewrite (lift_then _ _ _ _ E).
  unfold Tcp.require_config, Tcp.next_transaction_id, sget, sbind. rewrite C. fold t. rewrite U. simpl. rewrite F.
  unfold slift. destruct (String.eqb _ _) eqn:O.
  - destruct (open_socket_dialable cfg (Tcp.MkTcp (Some cfg) (Tcp.connection d) t (Tcp.connection_mode d) (Tcp.scheduler_running d) (Tcp.interactions d)) M) as (k & ->).
    rewrite (tcp_exchange t fc a n pdu frame _ D R T E F). simpl. rewrite (decode_read_pdu mem fc a n Hmem R).
    eexists. split; [done|]. exists cfg. match goal with |- context [Nat.iter k Tcp.tick ?x] => destruct (iter_tick k x) as (I1 & I2 & I3) end.
    simpl. rewrite I1, I3. simpl. by rewrite O.
  - unfold Tcp.require_connection. simpl. rewrite M, (tcp_exchange t fc a n pdu frame _ D R T E F). simpl.
    rewrite (decode_read_pdu mem fc a n Hmem R). eexists. split; [done|]. exists cfg. simpl. by rewrite O.
Qed.

Lemma rtu_exchange i fc a n pdu frame :
  rtu_device -> request_ok fc a n -> encode_read_request fc a n = Ok pdu -> encode_rtu_frame u pdu = Ok frame ->
  dl_drain (peer i frame) = None /\ exists resp,
    read_rtu_frame (deliver (peer i frame) (MkStream [] false)) = (MkStream [] false, Ok resp) /\
    rtu_response (Ok resp) = Ok (read_pdu mem fc a n).
Proof.
  intros D R E F. destruct (D i fc a n pdu frame R E F) as (resp & Er & ->). split; [done|]. exists resp. unfold deliver. simpl.
  rewrite <- (app_nil_r resp) at 1. split; [by eapply rtu_read_frame|].
  pose proof (read_pdu_size mem fc a n Hmem R) as S.
  destruct (rtu_frame_ok u (read_pdu mem fc a n) Hu (read_pdu_bytes _ _ _ _ Hmem R)) as (f & Ef & _ & Df).
  { intros Z0. rewrite Z0 in S. by destruct S. }
  rewrite Er in Ef. injection Ef as <-. simpl. by rewrite Df.
Qed.

Lemma rtu_over_tcp_reads : rtu_device -> reads_memory mem rtu_over_tcp_ready.
Proof.
  intros D d fc a n ((v & V & U) & C) R. destruct (read_request_frame fc a n R) as (pdu & E & _ & B & NE).
  destruct (rtu_frame_ok u pdu Hu B NE) as (frame & F & _).
  destruct (rtu_exchange (RtuOverTcp.interactions d) fc a n pdu frame D R E F) as (Dr & resp & Rd & Dec).
  simpl. unfold RtuOverTcp.read_block, RtuOverTcp.require_config, RtuOverTcp.require_connection, sbind, slift.
  rewrite V, C, E, U. unfold RtuOverTcp.transact. rewrite F, Dr, Rd, Dec, (decode_read_pdu mem fc a n Hmem R).
  eexists. split; [done|]. split; [by exists v|done].
Qed.

Lemma serial_reads : rtu_device -> reads_memory mem serial_ready.
Proof.
  intros D d fc a n (U & path & b & Pb & Pm & Pp) R. destruct (read_request_frame fc a n R) as (pdu & E & _ & B & NE).
  destruct (rtu_frame_ok u pdu Hu B NE) as (frame & F & _).
  destruct (rtu_exchange (Bus.interactions (Bus.set_rts false true b)) fc a n pdu frame D R E F) as (Dr & resp & Rd & Dec).
  simpl. unfold Serial.read_block, Serial.on_bus. rewrite Pb, Pm, U.
  unfold Bus.read_block, Bus.transmit, Bus.receive, Bus.require_connection, sbind, slift. rewrite Pp, E, F, Dr.
  assert (forall x, Bus.port (Bus.set_rts false false x) = Bus.port x) as Q by (intros x; unfold Bus.set_rts; by destruct (Bus.rts_supported x)).
  rewrite Q. simpl. rewrite Rd, Dec, (decode_read_pdu mem fc a n Hmem R).
  eexists. split; [done|]. split; [done|]. eexists path, _. split; [done|]. split; [apply dict_get_set_eq|done].
Qed.
End Serve.

(** C20: The transports implement the polling interface: a driver connected to a
    device that answers each read request from its memory (over Modbus TCP,
    persistently or dialling per request with any number of failed attempts
    within the retry budget; over RTU in TCP; or on a shared serial bus)
    reads, for every request the encoder accepts, the device's values when all
    addresses are mapped and the device's exception otherwise, and is left as
    ready for the next request as before. *)
Theorem transports_read_device `{Network} mem u :
  mem_ok mem -> u8 u ->
  (tcp_device mem u -> reads_memory mem (tcp_ready u)) /\
  (rtu_device mem u -> reads_memory mem (rtu_over_tcp_ready u) /\ reads_memory mem (serial_ready u)).
Proof. intros M U. split; [by apply tcp_reads|]. intros D. split; [by apply rtu_over_tcp_reads|by apply serial_reads]. Qed.

(** Devices that answer from [mem], on TCP and on RTU lines; the first two
    connection attempts of every three fail. *)
Definition serve_pdu (mem : memory) (pdu : list Z) : list Z :=
  match unpack_be [fmt_B; fmt_H; fmt_H] pdu with
  | Ok [f; a; n] =>
      match List.find (fun fc => fc_value fc =? f) [READ_COILS; READ_DISCRETE_INPUTS; READ_HOLDING_REGISTERS; READ_INPUT_REGISTERS] with
      | Some fc => read_pdu mem fc a n
      | None => [Z.lor f 0x80; 1]
      end
  | _ => []
  end.
Definition answer (r : res (list Z)) : delivery := match r with Ok bs => MkDelivery None bs false | Raise _ => MkDelivery None [] false end.
Definition flaky_dial (i : nat) : res unit := if (i mod 3 =? 2)%nat then Ok tt else Raise ConnectionError.
Definition tcp_slave (mem : memory) : Network := {|
  dial := flaky_dial;
  peer _ frame := answer (let* f := decode_mbap frame in encode_mbap (fst (fst f)) (snd (fst f)) (serve_pdu mem (snd f))) |}.
Definition rtu_slave (mem : memory) : Network := {|
  dial := flaky_dial;
  peer _ frame := answer (let* f := decode_rtu_frame frame in encode_rtu_frame (fst f) (serve_pdu mem (snd f))) |}.

Lemma serve_pdu_read mem fc a n pdu : request_ok fc a n -> encode_read_request fc a n = Ok pdu -> serve_pdu mem pdu = read_pdu mem fc a n.
Proof.
  intros [F _] [_ E]%encode_read_request_inv. apply unpack_pack_be in E; [|repeat constructor; simpl; lia].
  unfold serve_pdu. simpl map in E. rewrite E. by destruct fc.
Qed.
Lemma tcp_slave_device mem u : mem_ok mem -> u8 u -> @tcp_device (tcp_slave mem) mem u.
Proof.
  intros M U i t fc a n pdu frame R T E F. pose proof (read_pdu_size mem fc a n M R).
  destruct (mbap_frame_ok t u (read_pdu mem fc a n) T U ltac:(lia)) as (resp & Er & _). exists resp. split; [done|].
  simpl. rewrite (encode_decode_mbap _ _ _ _ F). simpl. by rewrite (serve_pdu_read mem fc a n pdu R E), Er.
Qed.
Lemma rtu_slave_device mem u : mem_ok mem -> u8 u -> @rtu_device (rtu_slave mem) mem u.
Proof.
  intros M U i fc a n pdu frame R E F. destruct (read_request_frame fc a n R) as (pdu' & E' & _ & B & NE).
  rewrite E in E'. injection E' as <-. destruct (rtu_frame_ok u pdu U B NE) as (f & Ef & _ & Df). rewrite F in Ef. injection Ef as <-.
  destruct (rtu_frame_ok u (read_pdu mem fc a n) U (read_pdu_bytes _ _ _ _ M R)) as (resp & Er & _).
  { pose proof (read_pdu_size mem fc a n M R) as S. intros Z0. rewrite Z0 in S. by destruct S. }
  exists resp. split; [done|]. simpl. rewrite Df. simpl. by rewrite (serve_pdu_read mem fc a n pdu R E), Er.
Qed.
Lemma demo_memory_ok : mem_ok demo_memory.
Proof. intros fc a v. unfold demo_memory. case_match eqn:B; [|done]. intros [= <-]. unfold in_u. lia. Qed.
Lemma flaky_dialable : @dialable (tcp_slave demo_memory) 2.
Proof.
  intros i. exists (2 - i mod 3)%nat. pose proof (Nat.mod_upper_bound i 3). pose proof (Nat.div_mod_eq i 3). split; [lia|].
  split; [|intros j J; exists ConnectionError; split; [|done]]; simpl; unfold flaky_dial.
  - replace ((i + (2 - i mod 3)) mod 3)%nat with 2%nat; [done|]. apply (Nat.mod_unique _ _ (i / 3)); lia.
  - destruct (Nat.eqb_spec ((i + j) mod 3) 2) as [X|]; [|done].
    rewrite <- (Nat.mod_unique (i + j) 3 (i / 3) (i mod 3 + j)) in X; lia.
Qed.

Definition demo_tcp (mode : string) : Tcp.t :=
  Tcp.MkTcp (Some (Tcp.MkConfig (Some mode) (Some 2) (Some 17))) (if String.eqb mode "persistent" then Some (MkStream [] false) else None) 0xFFFF mode true 0.
Definition demo_serial : Serial.t :=
  Serial.MkSerial 17 (Some "/dev/ttyUSB0") (Some "/dev/ttyUSB0") [("/dev/ttyUSB0", Bus.MkBus (Some (MkStream [] false)) 1 1 true true false 0)].

Lemma transports_read_device_witness :
  (reads_memory (H := @tcp_transport (tcp_slave demo_memory)) demo_memory (@tcp_ready (tcp_slave demo_memory) 17) /\
   @tcp_ready (tcp_slave demo_memory) 17 (demo_tcp "persistent") /\ @tcp_ready (tcp_slave demo_memory) 17 (demo_tcp "on_demand")) /\
  reads_memory (H := @serial_transport (rtu_slave demo_memory)) demo_memory (serial_ready 17) /\ serial_ready 17 demo_serial.
Proof.
  assert (u8 17) as U by (unfold in_u; lia).
  destruct (@transports_read_device (tcp_slave demo_memory) demo_memory 17 demo_memory_ok U) as [T _].
  destruct (@transports_read_device (rtu_slave demo_memory) demo_memory 17 demo_memory_ok U) as [_ R].
  split; [split; [apply T, tcp_slave_device; [exact demo_memory_ok|done]|]|].
  - split; eexists; split; [reflexivity| |reflexivity|]; (split; [reflexivity|]); [reflexivity|exact flaky_dialable].
  - split; [apply R, rtu_slave_device; [exact demo_memory_ok|done]|]. split; [done|]. by eexists _, _.
Defined.

(** ** The bus and the drivers that share it *)

(** One driver's start or stop.  A start that fails or is cancelled is followed
    by the supervisor's [disconnect]. *)
Inductive bus_op := Start (cfg : Bus.config) (o : Bus.opening) | Stop.
Definition bus_step (op : bus_op) (b : Bus.t) : Bus.t :=
  match op with
  | Start cfg o => match Bus.acquire cfg o b with (b, Ok (Some _)) => b | (b, _) => Bus.release b end
  | Stop => Bus.release b
  end.
Definition bus_run (ops : list bus_op) (b : Bus.t) : Bus.t := foldl (fun b op => bus_step op b) b ops.

(** What the drivers may count on: how many of them hold the port. *)
Definition opens (cfg : Bus.config) (o : Bus.opening) : bool :=
  is_ok (inter_frame_delay_seconds (default 9600 (Bus.c_baud_rate cfg))) && dict_mem (default "none" (Bus.c_parity cfg)) Bus.PARITY_MAP
  && match o with Bus.Opened => true | _ => false end.
Definition holders_step (n : Z) (op : bus_op) : Z :=
  match op with
  | Start cfg o => if 0 <? n then n + 1 else if opens cfg o then 1 else 0
  | Stop => Z.max 0 (n - 1)
  end.
Definition holders (ops : list bus_op) : Z := foldl holders_step 0 ops.

Definition bus_holds (n : Z) (b : Bus.t) : Prop :=
  0 <= n /\ Bus.ref_count b = n /\ bool_decide (is_Some (Bus.port b)) = (0 <? n) /\ Bus.scheduler_running b = (0 <? n).
Lemma bus_step_holds n op b : bus_holds n b -> bus_holds (holders_step n op) (bus_step op b).
Proof.
  intros (N & R & P & S). assert (bus_holds (Z.max 0 (n - 1)) (Bus.release b)) as Rel.
  { unfold Bus.release, Bus.release_begin, bus_holds. simpl. rewrite R.
    destruct (Z.eqb_spec n 0) as [E|]; [rewrite E in *; by rewrite R|]. destruct (Z.ltb_spec 0 (n - 1)); simpl.
    - rewrite P, S. repeat split; lia.
    - repeat split; try lia; rewrite bool_decide_eq_false_2 by (by intros [? ?]); lia. }
  destruct op as [cfg o|]; [|exact Rel]. clear Rel. unfold bus_step, Bus.acquire, Bus.acquire_begin, sbind. simpl. rewrite R.
  destruct (Z.ltb_spec 1 (n + 1)); simpl.
  - destruct (Z.ltb_spec 0 n); [|lia]. unfold bus_holds. simpl. rewrite P, S. repeat split; lia.
  - assert (n = 0) as -> by lia. unfold opens. destruct (inter_frame_delay_seconds _); simpl.
    + destruct (dict_mem _ _); simpl; [destruct o|]; unfold bus_holds, Bus.release, Bus.release_begin; simpl; rewrite ?P, ?S; done.
    + done.
Qed.

(** The shared serial port follows its drivers: after any sequence of driver
    starts (that open the port, find it open, fail on their settings or on the
    port, or are cancelled) and stops, the manager's reference count is the
    number of drivers holding the port, the port is open and the bus scheduler
    runs exactly when that number is positive, and a surplus stop is harmless. *)
Theorem bus_follows_drivers ops :
  let b := bus_run ops Bus.new in
  Bus.ref_count b = holders ops /\ (is_Some (Bus.port b) <-> 0 < holders ops) /\
  Bus.scheduler_running b = Bus.is_open b.
Proof.
  intros b. assert (bus_holds (holders ops) b) as (N & R & P & S).
  { subst b. unfold bus_run, holders. assert (bus_holds 0 Bus.new) as B by done. revert B. generalize 0 Bus.new.
    induction ops as [|op ops IH]; intros n b B; [done|]. simpl. apply IH. by apply bus_step_holds. }
  split; [done|]. split; [rewrite <- Z.ltb_lt, <- P; by rewrite bool_decide_eq_true|]. unfold Bus.is_open. by rewrite R.
Qed.

(** Not when a start overlaps a stop: [release] suspends while the scheduler
    stops, and then closes the port that was opened meanwhile. *)
Example release_closes_reopened_port :
  let held := bus_run [Start (Bus.MkConfig None None) Bus.Opened] Bus.new in
  let '(b, last) := Bus.release_begin held in
  let '(b, r) := Bus.acquire (Bus.MkConfig None None) Bus.Opened b in
  let b := Bus.release_end b in
  last = true /\ r = Ok (Some tt) /\ Bus.is_open b = true /\ Bus.scheduler_running b = true /\ Bus.port b = None.
Proof. by vm_compute. Qed.

(** RTS stays asserted when the write fails: the line driver keeps the bus. *)
Example failed_transmit_keeps_rts :
  let dead := {| dial := fun _ => Ok tt; peer := fun _ _ => MkDelivery (Some OSError) [] false |} in
  let '(d, r) := @Serial.read_block dead false READ_HOLDING_REGISTERS 10 1 demo_serial in
  r = Raise OSError /\ (Bus.rts <$> dict_get "/dev/ttyUSB0" (Serial.managers d)) = Some true.
Proof. by vm_compute. Qed.

(** Responses are not matched to requests.  The answer to the first read comes
    after its timeout and is taken as the answer to the second one, its
    transaction id notwithstanding: the value of register 10 is returned for
    register 12. *)
Definition late_network : Network := {|
  dial := fun _ => Ok tt;
  peer i frame := match i with
    | O => MkDelivery None [] false
    | _ => answer (let* f := encode_mbap 1 17 (read_pdu demo_memory READ_HOLDING_REGISTERS 10 1) in
                   let* g := encode_mbap 2 17 (read_pdu demo_memory READ_HOLDING_REGISTERS 12 1) in Ok (f ++ g))
    end |}.
Example late_response_misread :
  let d := Tcp.MkTcp (Some (Tcp.MkConfig None None (Some 17))) (Some (MkStream [] false)) 0 "persistent" true 0 in
  let '(d, r1) := @Tcp.read_block late_network READ_HOLDING_REGISTERS 10 1 d in
  let '(d, r2) := @Tcp.read_block late_network READ_HOLDING_REGISTERS 12 1 d in
  let '(_, r3) := @Tcp.read_block late_network READ_HOLDING_REGISTERS 11 1 d in
  r1 = Raise TimeoutError /\ r2 = Ok (Regs [10]) /\ r3 = Ok (Regs [12]).
Proof. by vm_compute. Qed.
(** Nor by the unit address on RTU lines. *)
Example other_unit_accepted :
  let other := {| dial := fun _ => Ok tt; peer := fun _ _ => answer (encode_rtu_frame 99 (read_pdu demo_memory READ_HOLDING_REGISTERS 10 1)) |} in
  snd (@Serial.read_block other false READ_HOLDING_REGISTERS 12 1 demo_serial) = Ok (Regs [10]).
Proof. by vm_compute. Qed.
