(* ===== verification/ApiAuth.v ===== *)
(** * Accounts, sessions and request limits of the local API
    (src/xedge/api/auth.py, permissions.py, rate_limit.py)

    bcrypt, the HMAC and the text form of floats are parameters; times are what
    [time.time()] returned. *)

From Stdlib Require Import Ascii Floats.SpecFloat.
From S2P Require Import Prelude PyText PyFloat PyDict.
Local Open Scope string_scope.
Local Open Scope list_scope.
Local Open Scope Z_scope.

(** ** Permissions *)

Definition ROLE_PERMISSIONS : dict (list string) :=
  [("admin", ["tag:read"; "tag:write"; "config:read"; "config:write"; "driver:restart"; "northbound:publish";
              "security:manage"; "user:manage"; "audit:read"; "ota:trigger"; "diagnostics:run"; "alarm:manage"]);
   ("operator", ["tag:read"; "tag:write"; "config:read"; "config:write"; "driver:restart"; "northbound:publish";
                 "diagnostics:run"; "alarm:manage"]);
   ("auditor", ["tag:read"; "config:read"; "audit:read"]);
   ("readonly", ["tag:read"])].
Definition has_permission (role : option string) (permission : string) : bool :=
  match role with
  | None => false
  | Some r => bool_decide (permission ∈ default [] (dict_get r ROLE_PERMISSIONS))
  end.

(** ** Accounts *)

(** [bcrypt.hashpw] with its salt and [bcrypt.checkpw]. *)
Class PasswordHash := { hash_password : string -> string -> res string; check_password : string -> string -> res bool }.

Definition DEFAULT_ROLE : string := "admin".
Definition username_char (c : ascii) : bool :=
  let n := Z.of_nat (nat_of_ascii c) in
  ((48 <=? n) && (n <=? 57)) || ((65 <=? n) && (n <=? 90)) || ((97 <=? n) && (n <=? 122)) || (n =? 95) || (n =? 46) || (n =? 45).
Definition valid_username (s : string) : bool :=
  forallb username_char (list_ascii_of_string s) && (1 <=? Z.of_nat (String.length s)) && (Z.of_nat (String.length s) <=? 64).

Record account := MkAccount { password_hash : string; role : string }.
(** The JSON file: absent, of the old single-account shape, current, or
    unreadable (what loading it raises). *)
Inductive user_file := NoFile | LegacyFile (hash : string) | UsersFile (users : dict account) | BadFile (e : exn).

Definition save_users (users : dict account) : SR user_file unit := fun _ => (UsersFile users, Ok tt).
Definition load_users : SR user_file (dict account) := fun f =>
  match f with
  | NoFile => (f, Ok [])
  | LegacyFile h => let migrated := [(DEFAULT_ROLE, MkAccount h DEFAULT_ROLE)] in (UsersFile migrated, Ok migrated)
  | UsersFile users => (f, Ok users)
  | BadFile e => (f, Raise e)
  end.

Section Store.
Context `{PasswordHash}.
Definition account_exists : SR user_file bool := let! users := load_users in sret (match users with [] => false | _ => true end).
Definition create_user (username password role salt : string) : SR user_file unit :=
  if negb (dict_mem role ROLE_PERMISSIONS) then sraise AuthError else
  if negb (valid_username username) then sraise AuthError else
  let! users := load_users in
  if dict_mem username users then sraise AuthError else
  let! h := slift (hash_password password salt) in
  save_users (dict_set username (MkAccount h role) users).
Definition create (password salt : string) : SR user_file unit :=
  let! e := account_exists in
  if e then sraise AuthError else create_user DEFAULT_ROLE password DEFAULT_ROLE salt.
Definition verify (username password : string) : SR user_file bool :=
  let! users := load_users in
  match dict_get username users with None => sret false | Some a => slift (check_password password (password_hash a)) end.
Definition get_role (username : string) : SR user_file (option string) :=
  let! users := load_users in sret (role <$> dict_get username users).
Definition list_users : SR user_file (list (string * string)) :=
  let! users := load_users in
  sret (map (fun '(n, a) => (n, role a)) (py_sorted (fun x y => String.leb (fst x) (fst y)) users)).
Definition set_role (username role : string) : SR user_file unit :=
  if negb (dict_mem role ROLE_PERMISSIONS) then sraise AuthError else
  let! users := load_users in
  match dict_get username users with
  | None => sraise AuthError
  | Some a => save_users (dict_set username (MkAccount (password_hash a) role) users)
  end.
Definition other_admins_remain (username : string) (users : dict account) : bool :=
  existsb (fun '(n, a) => negb (String.eqb n username) && String.eqb (role a) "admin") users.
Definition delete_user (username : string) : SR user_file unit :=
  let! users := load_users in
  match dict_get username users with
  | None => sraise AuthError
  | Some a =>
      if String.eqb (role a) "admin" && negb (other_admins_remain username users) then sraise AuthError
      else save_users (dict_del username users)
  end.
Definition change_password (username new_password salt : string) : SR user_file unit :=
  let! users := load_users in
  match dict_get username users with
  | None => sraise AuthError
  | Some a =>
      let! h := slift (hash_password new_password salt) in
      save_users (dict_set username (MkAccount h (role a)) users)
  end.

(** One call on the store. *)
Inductive store_call :=
  | CExists
  | CCreate (password salt : string)
  | CCreateUser (username password role salt : string)
  | CVerify (username password : string)
  | CGetRole (username : string)
  | CListUsers
  | CSetRole (username role : string)
  | CDeleteUser (username : string)
  | CChangePassword (username new_password salt : string).
Definition call_store (c : store_call) (f : user_file) : user_file :=
  match c with
  | CExists => fst (account_exists f)
  | CCreate p s => fst (create p s f)
  | CCreateUser u p r s => fst (create_user u p r s f)
  | CVerify u p => fst (verify u p f)
  | CGetRole u => fst (get_role u f)
  | CListUsers => fst (list_users f)
  | CSetRole u r => fst (set_role u r f)
  | CDeleteUser u => fst (delete_user u f)
  | CChangePassword u p s => fst (change_password u p s f)
  end.
End Store.

(** ** Sessions *)

Definition SESSION_COOKIE_NAME : string := "xedge_session".
Definition DEFAULT_IDLE_TIMEOUT_SECONDS : Z := 15 * 60.

Section Sessions.
(** The HMAC-SHA256 hex digest under the process's key, [repr] of a float, and
    [float] of a string. *)
Context (sign : string -> string) (float_repr : pfloat -> string) (parse_float : string -> res pfloat).
Context (idle_timeout_seconds : pfloat).

Definition issue (username : string) (now : pfloat) : string :=
  let payload := username +:+ "|" +:+ float_repr now in payload +:+ "|" +:+ sign payload.
Definition validate (token : option string) (now : pfloat) : res (option string) :=
  match token with
  | None => Ok None
  | Some t =>
      if String.eqb t "" || negb (count_char "|" t =? 2)%nat then Ok None else
      let '(payload, signature) := default ("", t) (rpartition "|" t) in
      let* same := compare_digest signature (sign payload) in
      if negb same then Ok None else
      let '(username, issued_at_str) := default (payload, "") (partition "|" payload) in
      if String.eqb username "" then Ok None else
      match parse_float issued_at_str with
      | Raise ValueError => Ok None
      | Raise e => Raise e
      | Ok issued_at => Ok (if fltb idle_timeout_seconds (fsub now issued_at) then None else Some username)
      end
  end.
(** [refresh_if_valid]: two readings of the clock. *)
Definition refresh_if_valid (token : option string) (now now' : pfloat) : res (option (string * string)) :=
  let* u := validate token now in Ok ((fun u => (issue u now', u)) <$> u).
End Sessions.

(** ** Login lockout *)

Definition DEFAULT_LOCKOUT_THRESHOLD : Z := 5.
Definition DEFAULT_LOCKOUT_WINDOW_SECONDS : Z := 15 * 60.
Record LoginAttemptTracker := MkTracker { threshold : Z; window_seconds : pfloat; failure_times : list pfloat }.
Definition set_failures (l : list pfloat) (t : LoginAttemptTracker) : LoginAttemptTracker := MkTracker (threshold t) (window_seconds t) l.
Definition prune_failures (now : pfloat) (t : LoginAttemptTracker) : LoginAttemptTracker :=
  set_failures (List.filter (fltb (fsub now (window_seconds t))) (failure_times t)) t.
Definition record_failure (now : pfloat) (t : LoginAttemptTracker) : LoginAttemptTracker :=
  let t := prune_failures now t in set_failures (failure_times t ++ [now]) t.
Definition record_success (t : LoginAttemptTracker) : LoginAttemptTracker := set_failures [] t.
Definition is_locked_out (now : pfloat) (t : LoginAttemptTracker) : LoginAttemptTracker * bool :=
  let t := prune_failures now t in (t, threshold t <=? zlen (failure_times t)).

(** ** Rate limit *)

Definition WINDOW_SECONDS : pfloat := float_of_Z_raw 60.
Definition DEFAULT_REQUESTS_PER_MINUTE : Z := 100.
Definition MAX_TRACKED_IPS : Z := 10000.
Definition exempt_paths : list string := ["/health"].

Abbreviation hits_table := (dict (list pfloat)).
Definition in_window (now t : pfloat) : bool := fltb (fsub now WINDOW_SECONDS) t.
(** [dispatch] for a path that is not exempt: whether the request goes on. *)
Definition rate_check (requests_per_minute : Z) (client_ip : string) (now : pfloat) (hits : hits_table) : hits_table * bool :=
  let hits := if MAX_TRACKED_IPS <? zlen hits then [] else hits in
  let recent := List.filter (in_window now) (default [] (dict_get client_ip hits)) in
  if requests_per_minute <=? zlen recent then (hits, false)
  else (dict_set client_ip (recent ++ [now]) hits, true).

(** ** The account file stays well formed *)

(** Usernames are unique and match the pattern, roles are known. *)
Definition account_ok (e : string * account) : Prop := valid_username e.1 = true /\ dict_mem (role e.2) ROLE_PERMISSIONS = true.
Definition users_ok (users : dict account) : Prop := dict_wf users /\ Forall account_ok users.
Definition file_ok (f : user_file) : Prop := match f with UsersFile users => users_ok users | _ => True end.
Definition admin_in (users : dict account) : Prop := exists n a, dict_get n users = Some a /\ role a = "admin".
Definition has_admin (f : user_file) : Prop :=
  match f with LegacyFile _ => True | UsersFile users => admin_in users | _ => False end.

Lemma Forall_dict_set {A} (P : string * A -> Prop) k v d : P (k, v) -> Forall P d -> Forall P (dict_set k v d).
Proof. intros Pv. induction 1 as [|[j w] d Pw F IH]; simpl; [by constructor|]. case_decide; subst; by constructor. Qed.
Lemma Forall_dict_del {A} (P : string * A -> Prop) k d : Forall P d -> Forall P (dict_del k d).
Proof. induction 1 as [|[j w] d Pw F IH]; simpl; [done|]. case_decide; [done|by constructor]. Qed.
Lemma users_ok_get users n a : users_ok users -> dict_get n users = Some a -> account_ok (n, a).
Proof. intros [_ F] G%dict_get_in. rewrite Forall_forall in F. by apply F. Qed.
Lemma users_ok_set users n a : users_ok users -> account_ok (n, a) -> users_ok (dict_set n a users).
Proof. intros [W F] A. split; [by apply dict_wf_set|by apply Forall_dict_set]. Qed.
Lemma users_ok_del users n : users_ok users -> users_ok (dict_del n users).
Proof. intros [W F]. split; [by apply dict_wf_del|by apply Forall_dict_del]. Qed.
Lemma migrated_ok h : users_ok [(DEFAULT_ROLE, MkAccount h DEFAULT_ROLE)].
Proof. split; [apply NoDup_singleton|]. by repeat constructor. Qed.
Lemma migrated_admin h : admin_in [(DEFAULT_ROLE, MkAccount h DEFAULT_ROLE)].
Proof. by exists "admin", (MkAccount h "admin"). Qed.
Lemma admin_set users n a : admin_in users -> (role <$> dict_get n users = Some "admin" -> role a = "admin") -> admin_in (dict_set n a users).
Proof.
  intros (m & b & G & R) K. destruct (decide (m = n)) as [->|N].
  - exists n, a. rewrite dict_get_set_eq. split; [done|]. apply K. rewrite G. simpl. by rewrite R.
  - exists m, b. by rewrite dict_get_set_ne.
Qed.

(** What an operation that loads the accounts leaves on disk. *)
Section Load.
Context (I : user_file -> Prop) (J : dict account -> Prop).
Context (load_I : forall f, I f -> I (fst (load_users f)) /\ (forall us, snd (load_users f) = Ok us -> J us)).
Lemma load_keeps {A} (k : dict account -> SR user_file A) f :
  I f -> (forall us f, I f -> J us -> I (fst (k us f))) -> I (fst (sbind load_users k f)).
Proof.
  intros F K. destruct (load_I f F) as [L U]. unfold sbind. destruct (load_users f) as [f' [us|e]]; simpl in *; [|done].
  apply K; [done|by apply U].
Qed.
End Load.
Lemma load_users_ok f : file_ok f -> file_ok (fst (load_users f)) /\ (forall us, snd (load_users f) = Ok us -> users_ok us).
Proof.
  destruct f; simpl; intros OK; split; intros; simplify_eq; try done; try apply migrated_ok. by split; [apply NoDup_nil_2|].
Qed.
Lemma load_users_admin f : has_admin f -> has_admin (fst (load_users f)) /\ (forall us, snd (load_users f) = Ok us -> admin_in us).
Proof. destruct f; simpl; intros A; split; intros; simplify_eq; try done; apply migrated_admin. Qed.

Section StoreProofs.
Context `{PasswordHash}.

Lemma create_user_ok u p r s f : file_ok f -> file_ok (fst (create_user u p r s f)).
Proof.
  intros F. unfold create_user. destruct (dict_mem r ROLE_PERMISSIONS) eqn:R; [|done]. destruct (valid_username u) eqn:V; [|done].
  apply (load_keeps _ _ load_users_ok); [done|]. intros us g G U. destruct (dict_mem u us); [done|]. unfold sbind, slift.
  destruct (hash_password p s); [|done]. by apply users_ok_set.
Qed.
Lemma call_store_ok c f : file_ok f -> file_ok (call_store c f).
Proof.
  intros F. destruct c; simpl; try by apply create_user_ok.
  - by apply (load_keeps _ _ load_users_ok).
  - unfold create. unfold account_exists, sbind at 1. destruct (load_users_ok f F) as [L _].
    pose proof (load_keeps _ _ load_users_ok (fun us => sret (match us with [] => false | _ => true end)) f F ltac:(done)) as K.
    destruct (sbind load_users _ f) as [g [[]|]]; simpl in *; [done|by apply create_user_ok|done].
  - apply (load_keeps _ _ load_users_ok); [done|]. intros us g G U. by destruct (dict_get username us).
  - by apply (load_keeps _ _ load_users_ok).
  - by apply (load_keeps _ _ load_users_ok).
  - unfold set_role. destruct (dict_mem role0 ROLE_PERMISSIONS) eqn:R; [|done].
    apply (load_keeps _ _ load_users_ok); [done|]. intros us g G U. destruct (dict_get username us) as [a|] eqn:E; [|done].
    apply users_ok_set; [done|]. split; [|done]. by apply (users_ok_get us username a).
  - apply (load_keeps _ _ load_users_ok); [done|]. intros us g G U. destruct (dict_get username us) as [a|] eqn:E; [|done].
    case_match; [done|]. by apply users_ok_del.
  - apply (load_keeps _ _ load_users_ok); [done|]. intros us g G U. destruct (dict_get username us) as [a|] eqn:E; [|done].
    unfold sbind, slift. destruct (hash_password _ _); [|done]. apply users_ok_set; [done|]. by apply (users_ok_get us username a).
Qed.

Definition with_admin (f : user_file) : Prop := file_ok f /\ has_admin f.
Lemma load_with_admin f : with_admin f -> with_admin (fst (load_users f)) /\ (forall us, snd (load_users f) = Ok us -> users_ok us /\ admin_in us).
Proof.
  intros [F A]. destruct (load_users_ok f F) as [? ?]. destruct (load_users_admin f A) as [? ?]. split; [by split|]. split; auto.
Qed.
Lemma other_admin_stays users n : users_ok users -> other_admins_remain n users = true -> admin_in (dict_del n users).
Proof.
  intros [W _] E. unfold other_admins_remain in E. apply existsb_exists in E as ([m a] & I%list_elem_of_In & B).
  apply andb_true_iff in B as [N%negb_true_iff%String.eqb_neq R%String.eqb_eq].
  exists m, a. rewrite dict_get_del, decide_False by done. split; [|done]. by apply dict_get_wf.
Qed.
Lemma load_admin {A} (k : dict account -> SR user_file A) f :
  with_admin f -> (forall us g, with_admin g -> users_ok us -> admin_in us -> has_admin (fst (k us g))) ->
  has_admin (fst (sbind load_users k f)).
Proof.
  intros F Hk. destruct (load_with_admin f F) as [G U]. unfold sbind. destruct (load_users f) as [g [us|e]]; simpl in *; [|by destruct G].
  destruct (U us eq_refl). by apply Hk.
Qed.
Lemma create_user_admin u p r s f : with_admin f -> has_admin (fst (create_user u p r s f)).
Proof.
  intros F. unfold create_user. destruct (dict_mem r ROLE_PERMISSIONS); [|by destruct F]. destruct (valid_username u); [|by destruct F].
  apply load_admin; [done|]. intros us g [_ G] U A. destruct (dict_mem u us) eqn:M; [done|]. unfold sbind, slift.
  destruct (hash_password p s); [|done]. apply admin_set; [done|]. unfold dict_mem in M. by destruct (dict_get u us).
Qed.
Lemma call_store_admin c f :
  match c with CSetRole _ _ => False | _ => True end -> with_admin f -> has_admin (call_store c f).
Proof.
  intros C F.
  destruct c; simpl; try done; try (by apply create_user_admin); try (apply load_admin; [done|]; intros us g [_ G] U A; simpl; done).
  - unfold create, account_exists. destruct (load_with_admin f F) as [G _]. unfold sbind, sret.
    destruct (load_users f) as [g [[|? ?]|e]]; simpl in *; [by apply create_user_admin|by destruct G..].
  - apply load_admin; [done|]. intros us g [_ G] U A. by destruct (dict_get username us).
  - apply load_admin; [done|]. intros us g [_ G] U A. destruct (dict_get username us) as [a|] eqn:E; [|done].
    destruct (String.eqb_spec (role a) "admin") as [R|R]; simpl.
    + destruct (other_admins_remain username us) eqn:O; [|done]. by apply other_admin_stays.
    + destruct A as (n & b & N & B). exists n, b. destruct U as [W _]. rewrite dict_get_del, decide_False; [done| |done]. intros ->. congruence.
  - apply load_admin; [done|]. intros us g [_ G] U A. destruct (dict_get username us) as [a|] eqn:E; [|done]. unfold sbind, slift.
    destruct (hash_password _ _); [|done]. apply admin_set; [done|]. rewrite E. by intros [= ?].
Qed.
End StoreProofs.

(** C21: The account file is well typed at all times: starting from no file, from
    the old single-account file or from a well-formed one, any sequence of
    calls on the store leaves unique usernames of the allowed alphabet and
    length, each with one of the four known roles; and as long as no call is
    [set_role], an administrator, once there, stays (in particular
    [delete_user] never removes the last one and the migration of an old file
    makes its account one). *)
Theorem user_store_well_formed `{PasswordHash} calls f :
  file_ok f ->
  let f' := foldl (fun f c => call_store c f) f calls in
  file_ok f' /\
  (Forall (fun c => match c with CSetRole _ _ => False | _ => True end) calls -> has_admin f -> has_admin f').
Proof.
  revert f; induction calls as [|c cs IH]; intros f F; [done|]. simpl. destruct (IH _ (call_store_ok c f F)) as [OK A].
  split; [done|]. intros [C Cs]%Forall_cons G. apply A; [done|]. by apply call_store_admin.
Qed.
Definition plain_hash : PasswordHash := {| hash_password := fun p s => Ok (s +:+ p); check_password := fun p h => Ok (String.eqb h p) |}.
Lemma user_store_well_formed_witness :
  let f' := foldl (fun f c => @call_store plain_hash c f) (LegacyFile "h")
              [CCreateUser "eve" "pw" "operator" "s"; CDeleteUser "admin"; CChangePassword "admin" "new" "s"] in
  file_ok f' /\ has_admin f'.
Proof.
  destruct (@user_store_well_formed plain_hash [CCreateUser "eve" "pw" "operator" "s"; CDeleteUser "admin"; CChangePassword "admin" "new" "s"] (LegacyFile "h") I) as [A B].
  split; [exact A|]. apply B; [by repeat constructor|exact I].
Defined.

(** [set_role] has no such guard: the only administrator can be demoted, and
    then nobody can manage users. *)
Example only_admin_demoted :
  fst (set_role "admin" "readonly" (UsersFile [("admin", MkAccount "h" "admin")])) = UsersFile [("admin", MkAccount "h" "readonly")].
Proof. by vm_compute. Qed.

(** ** Session tokens *)

Section SessionProofs.
Context (sign : string -> string) (float_repr : pfloat -> string) (parse_float : string -> res pfloat) (idle : pfloat).
Abbreviation validate_ := (validate sign parse_float idle).

(** An accepted token is a payload of a username and a time under its own
    signature, and that time is not too old. *)
Lemma validate_sound tok now u :
  validate_ (Some tok) now = Ok (Some u) ->
  exists ts issued, tok = (u +:+ "|" +:+ ts) +:+ "|" +:+ sign (u +:+ "|" +:+ ts) /\ u <> "" /\ count_char "|" u = 0%nat /\
    parse_float ts = Ok issued /\ fltb idle (fsub now issued) = false.
Proof.
  unfold validate. destruct (String.eqb tok "" || negb (count_char "|" tok =? 2)%nat) eqn:C; [done|].
  apply orb_false_iff in C as [_ C%negb_false_iff%Nat.eqb_eq]. destruct (rpartition "|" tok) as [[payload signature]|] eqn:R; simpl.
  - apply rpartition_some in R as [-> S]. unfold compare_digest, guard_raise. destruct (negb _); [done|]. simpl.
    destruct (String.eqb_spec signature (sign payload)) as [->|]; [|done]. simpl.
    rewrite count_char_app in C. simpl in C. rewrite S in C.
    destruct (partition "|" payload) as [[name ts]|] eqn:P; simpl.
    + apply partition_some in P as [-> N]. destruct (String.eqb_spec name ""); [done|]. intros V.
      destruct (parse_float ts) as [issued|e] eqn:F; [|by destruct e]. destruct (fltb _ _) eqn:L; [done|]. injection V as <-.
      by exists ts, issued.
    + apply partition_none_inv in P. lia.
  - apply rpartition_none_inv in R. lia.
Qed.

Lemma count_joined a b : count_char "|" (a +:+ "|" +:+ b) = (count_char "|" a + S (count_char "|" b))%nat.
Proof. by rewrite count_char_app. Qed.
Lemma validate_issued u t0 now :
  u <> "" -> count_char "|" u = 0%nat -> count_char "|" (float_repr t0) = 0%nat -> parse_float (float_repr t0) = Ok t0 ->
  (forall p, count_char "|" (sign p) = 0%nat /\ is_ascii (sign p) = true) ->
  validate_ (Some (issue sign float_repr u t0)) now = Ok (if fltb idle (fsub now t0) then None else Some u).
Proof.
  intros N U R P S. unfold validate, issue. set (payload := u +:+ "|" +:+ float_repr t0). destruct (S payload) as [S1 S2].
  assert (count_char "|" (payload +:+ "|" +:+ sign payload) = 2%nat) as C.
  { rewrite count_joined, S1. unfold payload. by rewrite count_joined, U, R. }
  rewrite C. destruct (String.eqb_spec (payload +:+ "|" +:+ sign payload) "") as [E|_]; [by rewrite E in C|]. simpl.
  change ("|" +:+ sign payload) with (String "|" (sign payload)). rewrite rpartition_app by done. simpl.
  unfold compare_digest, guard_raise. rewrite S2. simpl. rewrite String.eqb_refl. simpl. subst payload.
  change ("|" +:+ float_repr t0) with (String "|" (float_repr t0)). rewrite partition_app by done. simpl.
  destruct (String.eqb_spec u ""); [done|]. by rewrite P.
Qed.

(** Session tokens: a token [issue]d for a user is accepted, as that user,
    exactly until the idle timeout has passed since its issue; and whatever
    token is accepted, as whomever, carries that name and a time no older than
    the timeout under the server's signature of the two, so that only what
    the server has signed opens a session. *)
Theorem session_tokens_exact :
  (forall tok now u, validate_ (Some tok) now = Ok (Some u) ->
     exists ts issued, tok = (u +:+ "|" +:+ ts) +:+ "|" +:+ sign (u +:+ "|" +:+ ts) /\ u <> "" /\ count_char "|" u = 0%nat /\
       parse_float ts = Ok issued /\ fltb idle (fsub now issued) = false) /\
  (forall u t0 now, u <> "" -> count_char "|" u = 0%nat -> count_char "|" (float_repr t0) = 0%nat -> parse_float (float_repr t0) = Ok t0 ->
     (forall p, count_char "|" (sign p) = 0%nat /\ is_ascii (sign p) = true) ->
     validate_ (Some (issue sign float_repr u t0)) now = Ok (if fltb idle (fsub now t0) then None else Some u)).
Proof. split; [apply validate_sound|apply validate_issued]. Qed.
End SessionProofs.

Definition toy_sign (p : string) : string := if String.eqb p "admin|0.0" then "5af1" else "0000".
Definition toy_parse (s : string) : res pfloat := if String.eqb s "0.0" then Ok fzero else Raise ValueError.
Lemma session_tokens_exact_witness :
  validate toy_sign toy_parse (float_of_Z_raw 900) (Some (issue toy_sign (fun _ => "0.0") "admin" fzero)) (float_of_Z_raw 900)
    = Ok (Some "admin") /\
  validate toy_sign toy_parse (float_of_Z_raw 900) (Some (issue toy_sign (fun _ => "0.0") "admin" fzero)) (float_of_Z_raw 901)
    = Ok None.
Proof.
  destruct (session_tokens_exact toy_sign (fun _ => "0.0") toy_parse (float_of_Z_raw 900)) as [_ V].
  split; (etransitivity; [apply (V "admin" fzero)|]; try done; intros p; unfold toy_sign; by destruct (String.eqb p _)).
Defined.

(** A cookie whose last part is not ASCII raises instead of being refused. *)
Example non_ascii_cookie_raises :
  validate toy_sign toy_parse fzero (Some ("admin|0.0|" +:+ String (ascii_of_nat 233) "")) fzero = Raise TypeError.
Proof. by vm_compute. Qed.

(** ** The rate limit is a sliding window *)

Definition request := (string * pfloat)%type.
Fixpoint decisions (n : Z) (reqs : list request) (hits : hits_table) : list bool :=
  match reqs with
  | [] => []
  | (ip, now) :: rest => let '(hits, ok) := rate_check n ip now hits in ok :: decisions n rest hits
  end.
(** The reference: all admitted requests are remembered; a request is admitted
    if fewer than [n] admitted ones of its client lie in its window. *)
Definition times_of (ip : string) (admitted : list request) : list pfloat :=
  map snd (List.filter (fun r => String.eqb r.1 ip) admitted).
Definition recent (ip : string) (now : pfloat) (admitted : list request) : list pfloat := List.filter (in_window now) (times_of ip admitted).
Fixpoint window_decisions (n : Z) (reqs admitted : list request) : list bool :=
  match reqs with
  | [] => []
  | (ip, now) :: rest =>
      let ok := zlen (recent ip now admitted) <? n in
      ok :: window_decisions n rest (if ok then admitted ++ [(ip, now)] else admitted)
  end.
(** The window of [later] has left behind what the one of [now] has. *)
Definition follows (now later : pfloat) : Prop := forall t, in_window now t = false -> in_window later t = false.

Lemma filter_filter_window now w l : follows now w -> List.filter (in_window w) (List.filter (in_window now) l) = List.filter (in_window w) l.
Proof.
  intros F. induction l as [|t l IH]; simpl; [done|]. destruct (in_window now t) eqn:E; simpl; [by rewrite IH|]. by rewrite (F t E).
Qed.
Lemma times_of_snoc ip adm ip' t : times_of ip (adm ++ [(ip', t)]) = times_of ip adm ++ (if String.eqb ip' ip then [t] else []).
Proof. unfold times_of. rewrite List.filter_app, map_app. simpl. by destruct (String.eqb ip' ip). Qed.
Lemma decisions_window n reqs (S : gset string) : forall hits adm,
  Z.of_nat (size S) <= MAX_TRACKED_IPS -> dict_wf hits -> (forall k, k ∈ dict_keys hits -> k ∈ S) -> Forall (fun r : request => r.1 ∈ S) reqs ->
  StronglySorted follows (map snd reqs) ->
  (forall ip w, w ∈ map snd reqs -> List.filter (in_window w) (default [] (dict_get ip hits)) = recent ip w adm) ->
  decisions n reqs hits = window_decisions n reqs adm.
Proof.
  induction reqs as [|[ip now] reqs IH]; intros hits adm HS W K R Srt Inv; [done|]. simpl. unfold rate_check.
  apply Forall_cons in R as [Rip R]. simpl in Srt. apply StronglySorted_inv in Srt as [Srt Fol]. rewrite Forall_forall in Fol.
  assert (zlen hits <= Z.of_nat (size S)) as L.
  { unfold zlen. replace (length hits) with (length (dict_keys hits)) by (unfold dict_keys; apply length_map).
    rewrite <- (size_list_to_set (C := gset string)) by done. apply inj_le, subseteq_size. intros k Hk. by apply K, elem_of_list_to_set in Hk || set_solver. }
  destruct (Z.ltb_spec MAX_TRACKED_IPS (zlen hits)); [lia|].
  rewrite (Inv ip now) by (by left). destruct (Z.leb_spec n (zlen (recent ip now adm))) as [G|G];
    destruct (Z.ltb_spec (zlen (recent ip now adm)) n); try lia; f_equal; apply IH; try done.
  - intros ip' w Hw. apply Inv. by right.
  - by apply dict_wf_set.
  - intros k Hk%dict_get_elem. rewrite dict_get_set in Hk. case_decide; [by subst|]. apply K. by apply dict_get_elem.
  - intros ip' w Hw. unfold recent. rewrite times_of_snoc, List.filter_app, dict_get_set. case_decide as D.
    + subst. rewrite String.eqb_refl. simpl. rewrite List.filter_app. f_equal. unfold recent. apply filter_filter_window. by apply Fol.
    + destruct (String.eqb_spec ip ip'); [done|]. simpl. rewrite app_nil_r. apply Inv. by right.
Qed.

(** The rate limiter decides as a sliding window over the whole history would:
    while at most [_MAX_TRACKED_IPS] clients are seen and the clock does not go
    back, a request is admitted exactly when fewer than [requests_per_minute]
    admitted requests of the same client lie in the last sixty seconds, no
    matter what other clients do; pruning the table loses nothing. *)
Theorem rate_limit_is_sliding_window n reqs :
  Z.of_nat (size (list_to_set (map fst reqs) : gset string)) <= MAX_TRACKED_IPS ->
  StronglySorted follows (map snd reqs) ->
  decisions n reqs [] = window_decisions n reqs [].
Proof.
  intros HS Srt. eapply decisions_window; [exact HS| | | |done|done].
  - apply dict_wf_nil.
  - by intros k ?%elem_of_nil.
  - apply Forall_forall. intros r Hr. apply elem_of_list_to_set, list_elem_of_fmap. by exists r.
Qed.
Lemma rate_limit_is_sliding_window_witness :
  decisions 2 [("a", fzero); ("a", fzero); ("b", fzero); ("a", fzero)] [] = [true; true; true; false].
Proof.
  rewrite (rate_limit_is_sliding_window 2); [by vm_compute|by vm_compute|].
  repeat constructor; by intros t.
Defined.
