(* ===== verification/RestApi.v ===== *)
(** * The local REST API (src/xedge/api/server.py)

    The routes of [create_app] over the accounts, the supervisor, the alarm
    engine, the write router, the config file, the version history and the
    audit log, behind the rate limiter and the permission checks.  Requests run
    one at a time and read each clock once; [HTTPException] is what the client
    sees for a refused request.  What the routes call outside the gateway is a
    [Host]. *)

From Stdlib Require Import Ascii Floats.SpecFloat.
From S2P Require Import Prelude PyText PyFloat PyDict PyTime Connectivity Pipeline Alarms Assets Supervisor AuditLog WriteRouter Config MainPipeline ApiAuth.
Local Open Scope string_scope.
Local Open Scope list_scope.
Local Open Scope Z_scope.

(** ** The application *)

Record api := MkApi {
  a_users : user_file;
  a_tracker : LoginAttemptTracker;
  a_hits : hits_table;
  a_audit : AuditLog;
  (** The YAML file the forms and routes write: what parsing it gives. *)
  a_config : option (res json);
  a_versions : versions;
  a_supervisor : DriverSupervisor;
  a_alarms : option AlarmEngine;
  (** Whether the dispatcher is connected and whether it was told to publish. *)
  a_dispatcher : option (bool * bool);
  a_latest : LatestValueStore;
  (** The tag groups whose driver was told to poll at once. *)
  a_polls : list (string * string) }.
Definition set_users (x : user_file) (s : api) : api :=
  MkApi x (a_tracker s) (a_hits s) (a_audit s) (a_config s) (a_versions s) (a_supervisor s) (a_alarms s) (a_dispatcher s) (a_latest s) (a_polls s).
Definition set_tracker (x : LoginAttemptTracker) (s : api) : api :=
  MkApi (a_users s) x (a_hits s) (a_audit s) (a_config s) (a_versions s) (a_supervisor s) (a_alarms s) (a_dispatcher s) (a_latest s) (a_polls s).
Definition set_hits (x : hits_table) (s : api) : api :=
  MkApi (a_users s) (a_tracker s) x (a_audit s) (a_config s) (a_versions s) (a_supervisor s) (a_alarms s) (a_dispatcher s) (a_latest s) (a_polls s).
Definition set_audit (x : AuditLog) (s : api) : api :=
  MkApi (a_users s) (a_tracker s) (a_hits s) x (a_config s) (a_versions s) (a_supervisor s) (a_alarms s) (a_dispatcher s) (a_latest s) (a_polls s).
Definition set_config (x : option (res json)) (s : api) : api :=
  MkApi (a_users s) (a_tracker s) (a_hits s) (a_audit s) x (a_versions s) (a_supervisor s) (a_alarms s) (a_dispatcher s) (a_latest s) (a_polls s).
Definition set_supervisor (x : DriverSupervisor) (s : api) : api :=
  MkApi (a_users s) (a_tracker s) (a_hits s) (a_audit s) (a_config s) (a_versions s) x (a_alarms s) (a_dispatcher s) (a_latest s) (a_polls s).
Definition set_alarms (x : option AlarmEngine) (s : api) : api :=
  MkApi (a_users s) (a_tracker s) (a_hits s) (a_audit s) (a_config s) (a_versions s) (a_supervisor s) x (a_dispatcher s) (a_latest s) (a_polls s).
Definition set_polls (x : list (string * string)) (s : api) : api :=
  MkApi (a_users s) (a_tracker s) (a_hits s) (a_audit s) (a_config s) (a_versions s) (a_supervisor s) (a_alarms s) (a_dispatcher s) (a_latest s) x.
Definition set_dispatcher (x : option (bool * bool)) (s : api) : api :=
  MkApi (a_users s) (a_tracker s) (a_hits s) (a_audit s) (a_config s) (a_versions s) (a_supervisor s) (a_alarms s) x (a_latest s) (a_polls s).

Class Host := {
  (** bcrypt, the session key's HMAC, floats as text, the idle timeout *)
  h_passwords :: PasswordHash;
  h_sign : string -> string;
  h_float_repr : pfloat -> string;
  h_parse_float : string -> res pfloat;
  h_idle_timeout : pfloat;
  (** the audit log's digest, encoder and [str]; texts of values and errors *)
  h_sha256_hex : string -> string;
  h_canonical_json : dict json -> string;
  h_py_str : json -> string;
  h_repr_bytes : list Z -> string;
  h_error_text : exn -> string;
  (** the JSON Schema validators of the config and of each driver type *)
  h_schema_errors : dict json -> list string;
  h_has_schema : string -> bool;
  h_section_errors : string -> json -> json -> list string;
  (** a driver's [write], and its [poll_now] if it has one: whether it knows the group, whose trigger it then sets *)
  h_driver_write : Driver -> string -> TagValue -> res WriteResult;
  h_poll_now : Driver -> option (string -> res bool);
  (** the rate limit, if enabled *)
  h_requests_per_minute : option Z }.

(** The clocks and the salt a request finds, and the audit log's time stamp. *)
Record Env := MkEnv { e_time : pfloat; e_now : Z; e_stamp : string; e_salt : string }.
(** Where the request comes from and the session cookie it carries. *)
Record caller := MkCaller { client_ip : option string; cookie : option string; url_path : string }.

(** ** Replies *)

Inductive cookie_action := KeepCookie | SetCookie (token : string) | DeleteCookie.
Record driver_health := MkHealth {
  dh_instance_id : string; dh_driver_type : json; dh_state : string; dh_state_changed_at : option Z; dh_tag_count : Z;
  dh_consecutive_failures : Z; dh_last_error : option exn; dh_metrics : DriverMetrics;
  dh_last_read_age_seconds : option pfloat; dh_connectivity : ConnectivityState }.
Inductive reply :=
  | RStatus (s : string)
  | RAuthStatus (account_exists authenticated : bool)
  | RGateway (driver_count : Z) (northbound_connected : option bool)
  | RQueued
  | RDrivers (l : gmap string DriverInstanceStatus)
  | RTags (tags : list UnifiedTag) (system : dict TagValue)
  | RAssets (l : list (Asset * ConnectivityState))
  | RAsset (a : Asset) (c : ConnectivityState) (parameters : list (AssetParameter * option UnifiedTag))
  | RWritten (tag_id : string)
  | RHealth (h : driver_health)
  | REnabled (instance_id : string) (enabled : bool)
  | RValidation (valid : bool)
  | RTriggered (instance_id group_id : string)
  | RConfig (c : dict json)
  | RUsers (l : list (string * string))
  | RRoles (l : list string)
  | RAlarms (l : gmap string AlarmStatus)
  | RAlarm (tag_id : string)
  | RAudit (l : list json).

Section Api.
Context `{Host}.
Local Abbreviation M := (SR api).

Definition on_users {A} (f : SR user_file A) : M A := fun s => let '(u, r) := f (a_users s) in (set_users u s, r).
Definition audit_append (v : Env) (actor event : string) (details : option (dict json)) : M unit := fun s =>
  let '(l, r) := log_append h_sha256_hex h_canonical_json (e_stamp v) actor event details (a_audit s) in (set_audit l s, r).
Definition resolve_session (c : caller) (v : Env) : M (option (string * string)) :=
  slift (refresh_if_valid h_sign h_float_repr h_parse_float h_idle_timeout (cookie c) (e_time v) (e_time v)).

(** [require_permission]: the session's user and the refreshed token. *)
Definition require_permission (permission : string) (c : caller) (v : Env) : M (string * string) :=
  let! session := resolve_session c v in
  match session with
  | None => http 401
  | Some (new_token, username) =>
      let! role := on_users (get_role username) in
      if has_permission role permission then sret (username, new_token)
      else
        let! _ := audit_append v username "auth.permission_denied"
          (Some [("role", match role with Some r => JStr r | None => JNull end); ("permission", JStr permission)]) in
        http 403
  end.

(** ** Authentication *)

Definition auth_status (c : caller) (v : Env) : M (cookie_action * reply) :=
  let! e := on_users account_exists in
  let! session := resolve_session c v in
  sret (KeepCookie, RAuthStatus e (match session with Some _ => true | None => false end)).
Definition auth_setup (password : string) (v : Env) : M (cookie_action * reply) :=
  let! e := on_users account_exists in
  if (e : bool) then http 409 else
  let! _ := on_users (create password (e_salt v)) in
  let token := issue h_sign h_float_repr "admin" (e_time v) in
  let! _ := audit_append v "admin" "auth.setup" None in
  sret (SetCookie token, RStatus "ok").
Definition ip_details (c : caller) : option (dict json) := Some [("ip", match client_ip c with Some i => JStr i | None => JNull end)].
Definition auth_login (username password : string) (c : caller) (v : Env) : M (cookie_action * reply) :=
  let! locked := fun s => let '(t, b) := is_locked_out (e_time v) (a_tracker s) in (set_tracker t s, Ok b) in
  if (locked : bool) then http 429 else
  let! ok := on_users (verify username password) in
  if (ok : bool) then
    let! _ := smodify (fun s => set_tracker (record_success (a_tracker s)) s) in
    let token := issue h_sign h_float_repr username (e_time v) in
    let! _ := audit_append v username "auth.login_success" (ip_details c) in
    sret (SetCookie token, RStatus "ok")
  else
    let! _ := smodify (fun s => set_tracker (record_failure (e_time v) (a_tracker s)) s) in
    let! _ := audit_append v username "auth.login_failure" (ip_details c) in
    http 401.
Definition auth_logout (c : caller) (v : Env) : M (cookie_action * reply) :=
  let! session := resolve_session c v in
  let! _ := match session with Some (_, u) => audit_append v u "auth.logout" None | None => sret tt end in
  sret (DeleteCookie, RStatus "ok").

(** ** Monitoring *)

Definition get_status : M reply :=
  let! s := sget id in
  sret (RGateway (Z.of_nat (size (all_status (a_supervisor s)))) (fst <$> a_dispatcher s)).
Definition republish_northbound (user : string) (v : Env) : M reply :=
  let! d := sget a_dispatcher in
  match d with
  | None => http 404
  | Some (connected, _) =>
      let! _ := smodify (set_dispatcher (Some (connected, true))) in
      let! _ := audit_append v user "northbound.republish_triggered" None in
      sret RQueued
  end.
Definition get_drivers : M reply := let! s := sget a_supervisor in sret (RDrivers (all_status s)).
(** The tags of the instance, those under [_system/] apart. *)
Definition split_tag (system_prefix : string) (acc : list UnifiedTag * dict TagValue) (tag : UnifiedTag) : list UnifiedTag * dict TagValue :=
  match strip_prefix system_prefix (tag_id tag) with
  | Some name => (acc.1, dict_set name (value tag) acc.2)
  | None => (acc.1 ++ [tag], acc.2)
  end.
Definition get_driver_tags (instance_id : string) : M reply :=
  let! s := sget id in
  match all_status (a_supervisor s) !! instance_id with
  | None => http 404
  | Some _ =>
      let '(tags, system) := foldl (split_tag (instance_id ++ "/_system/")) ([], []) (for_driver instance_id (a_latest s)) in
      sret (RTags tags system)
  end.

(** A section of the saved configuration, as [parse_assets] reads it. *)
Definition str_field (k : string) (d : dict json) : option string := match dict_get k d with Some (JStr s) => Some s | _ => None end.
Definition bool_field (k : string) (d : dict json) : option bool := match dict_get k d with Some (JBool b) => Some b | _ => None end.
Definition raw_parameter (j : json) : RawParameter :=
  let d := match j with JDict d => d | _ => [] end in
  {| rp_tag_ref := str_field "tag_ref" d; rp_alias := str_field "alias" d; rp_unit := str_field "unit" d; rp_store := bool_field "store" d |}.
Definition raw_asset (j : json) : RawAsset :=
  let d := match j with JDict d => d | _ => [] end in
  {| ra_id := str_field "id" d; ra_name := str_field "name" d; ra_enabled := bool_field "enabled" d;
     ra_serial_number := str_field "serial_number" d; ra_asset_type := str_field "asset_type" d; ra_make := str_field "make" d;
     ra_model := str_field "model" d; ra_firmware_version := str_field "firmware_version" d;
     ra_description := str_field "description" d; ra_gateway_id := str_field "gateway_id" d;
     ra_parameters := match dict_get "parameters" d with Some (JList l) => Some (map raw_parameter l) | _ => None end |}.
Definition current_assets (s : api) : res (list Asset) :=
  match last (list_versions (a_versions s)) with
  | None => Ok []
  | Some i =>
      let* c := load_version i (a_versions s) in
      let* l := json_iter (default (JList []) (dict_get "assets" c)) in
      parse_assets (map raw_asset l)
  end.
Definition asset_connection_state (s : api) (a : Asset) : ConnectivityState :=
  derive_asset_connection_state a (connectivity_state <$> all_status (a_supervisor s)).
Definition list_assets : M reply :=
  let! s := sget id in
  let! l := slift (current_assets s) in sret (RAssets (map (fun a => (a, asset_connection_state s a)) l)).
Definition get_asset (asset_id : string) : M reply :=
  let! s := sget id in
  let! l := slift (current_assets s) in
  match dict_get asset_id (fold_left (fun d a => dict_set (Assets.asset_id a) a d) l []) with
  | None => http 404
  | Some a => sret (RAsset a (asset_connection_state s a) (map (fun p => (p, latest_get (tag_ref p) (a_latest s))) (parameters a)))
  end.

(** ** Writes and driver control *)

Definition write_tag (instance_id tag_name : string) (v : TagValue) (user : string) (e : Env) : M reply :=
  let! r := fun s =>
    let '(w, r) := route_write h_sha256_hex h_canonical_json h_repr_bytes h_error_text h_driver_write (e_stamp e) user instance_id tag_name v
                     {| w_supervisor := a_supervisor s; w_audit := a_audit s |} in
    (set_supervisor (w_supervisor w) (set_audit (w_audit w) s), r) in
  if wr_success r then sret (RWritten (wr_tag_id r)) else http 422.

Definition empty_config : dict json := [("schema_version", JStr "0.1")].
Definition full_driver_config (s : api) : res (dict json) :=
  match a_config s with
  | None => Ok empty_config
  | Some doc => let* loaded := doc in Ok (match loaded with JDict d => d | _ => empty_config end)
  end.
Definition is_entry (instance_id : string) (e : json) : res bool :=
  let* i := json_get "id" JNull e in Ok (json_is_str i instance_id).
Fixpoint search_entry (instance_id : string) (l : list json) : res (option json) :=
  match l with
  | [] => Ok None
  | e :: t => let* b := is_entry instance_id e in if (b : bool) then Ok (Some e) else search_entry instance_id t
  end.
Definition find_driver_entry (instance_id : string) (config : dict json) : M json :=
  let! l := slift (json_iter (default (JList []) (dict_get "drivers" config))) in
  let! e := slift (search_entry instance_id l) in some_or 404 e.
(** [entry["enabled"] = enabled] on the entry found, inside the loaded config. *)
Definition set_field (k : string) (v : json) (j : json) : json := match j with JDict d => JDict (dict_set k v d) | _ => j end.
Fixpoint update_entry (instance_id : string) (f : json -> json) (l : list json) : list json :=
  match l with
  | [] => []
  | e :: t => match is_entry instance_id e with Ok true => f e :: t | _ => e :: update_entry instance_id f t end
  end.
Definition with_entry (instance_id : string) (f : json -> json) (config : dict json) : dict json :=
  match dict_get "drivers" config with
  | Some (JList l) => dict_set "drivers" (JList (update_entry instance_id f l)) config
  | _ => config
  end.

(** [build_driver_config] of an entry as the file has it. *)
Definition group_tags (g : json) : option (list string) :=
  match g with
  | JDict d => match dict_get "tags" d with
      | Some (JList l) => Some (map (fun t => match t with JDict d => default "" (str_field "id" d) | _ => "" end) l)
      | _ => None end
  | _ => None
  end.
Definition build_entry (entry : json) : res DriverConfig :=
  let* ty := json_item "type" entry in
  let name := match ty with JStr n => n | _ => h_py_str ty end in
  raise_if negb (h_has_schema name) with ConfigValidationError;
  let* cfg := json_get "config" (JDict []) entry in
  let* groups := json_get "tag_groups" (JList []) entry in
  raise_if negb (bool_decide (h_section_errors name cfg groups = [])) with ConfigValidationError;
  let* i := json_item "id" entry in
  Ok {| dc_instance_id := match i with JStr n => n | _ => h_py_str i end; dc_driver_type := name;
        dc_tag_groups := match groups with JList l => map group_tags l | _ => [] end |}.

Definition state_name (s : DriverState) : string :=
  match s with
  | STOPPED => "stopped" | STARTING => "starting" | RUNNING => "running" | BACKOFF => "backoff" | FAILED => "failed" | DISABLED => "disabled"
  end.
(** [len(j)] *)
Definition json_len (j : json) : res Z :=
  match j with JList l => Ok (zlen l) | JDict d => Ok (zlen d) | JStr t => Ok (code_points t) | _ => Raise TypeError end.
Definition group_len (g : json) : res Z := let* t := json_get "tags" (JList []) g in json_len t.
Definition get_driver_health (instance_id : string) (v : Env) : M reply :=
  let! s := sget id in
  match all_status (a_supervisor s) !! instance_id with
  | Some st =>
      sret (RHealth (MkHealth (st_instance_id st) (JStr (st_driver_type st)) (state_name (st_state st)) (Some (state_changed_at st)) (tag_count st)
        (consecutive_failures st) (last_error st) (st_metrics st)
        ((fun t => total_seconds (e_now v - t)) <$> last_successful_read (st_metrics st)) (connectivity_state st)))
  | None =>
      let! config := slift (full_driver_config s) in
      let! entry := find_driver_entry instance_id config in
      let! ty := slift (json_get "type" JNull entry) in
      let! enabled := slift (json_get "enabled" (JBool true) entry) in
      let! groups := slift (let* g := json_get "tag_groups" (JList []) entry in json_iter g) in
      let! lens := slift (mapM_res group_len groups) in
      sret (RHealth (MkHealth instance_id ty (if truthy enabled then "stopped" else "disabled") None (foldr Z.add 0 lens)
        0 None no_metrics None UNKNOWN))
  end.

Definition set_driver_enabled (instance_id : string) (enabled : bool) (user : string) (v : Env) : M reply :=
  let! s := sget id in
  let! config := slift (full_driver_config s) in
  let! entry := find_driver_entry instance_id config in
  let entry := set_field "enabled" (JBool enabled) entry in
  let! _ := smodify (set_config (Some (Ok (JDict (with_entry instance_id (set_field "enabled" (JBool enabled)) config))))) in
  let! _ := audit_append v user (if enabled then "driver.enabled" else "driver.disabled") (Some [("instance_id", JStr instance_id)]) in
  let! _ :=
    if enabled then
      let! dc := translate ConfigValidationError 422 (slift (build_entry entry)) in
      fun s => match start_driver (e_now v) dc (a_supervisor s) with
               | (sup, Ok _) | (sup, Raise ValueError) => (set_supervisor sup s, Ok tt)
               | (sup, Raise e) => (set_supervisor sup s, Raise e)
               end
    else sret tt in
  sret (REnabled instance_id enabled).
Definition enable_driver (instance_id user : string) (v : Env) : M reply := set_driver_enabled instance_id true user v.
(** [supervisor.disable] runs up to its await: a running task is cancelled, and
    its end is the supervisor's ([stop_end], [disable_end]). *)
Definition disable_driver (instance_id user : string) (v : Env) : M reply :=
  let! r := set_driver_enabled instance_id false user v in
  let! _ := smodify (fun s =>
    let '(task, sup) := stop_begin instance_id (a_supervisor s) in
    set_supervisor (match task with None => disable_end (e_now v) instance_id sup | Some _ => sup end) s) in
  sret r.

Definition validate_driver (instance_id ty : string) (config tag_groups : json) : M reply := fun s =>
  match build_entry (JDict [("id", JStr instance_id); ("type", JStr ty); ("config", config); ("tag_groups", tag_groups)]) with
  | Ok _ => (s, Ok (RValidation true))
  | Raise ConfigValidationError => (s, Ok (RValidation false))
  | Raise e => (s, Raise e)
  end.
Definition poll_tag_group_now (instance_id group_id : string) : M reply :=
  let! sup := sget a_supervisor in
  let! st := translate KeyError 404 (slift (Supervisor.status instance_id sup)) in
  let! _ := ensure 409 (bool_decide (st_state st = RUNNING)) in
  let! poll := some_or 400 (match get_driver instance_id sup with Some d => h_poll_now d | None => None end) in
  let! triggered := slift (poll group_id) in
  let! _ := ensure 404 triggered in
  let! _ := smodify (fun s => set_polls ((instance_id, group_id) :: a_polls s) s) in
  sret (RTriggered instance_id group_id).

(** ** Configuration and users *)

Definition get_config : M reply :=
  let! h := sget a_versions in
  match last (list_versions h) with
  | None => sret (RConfig [])
  | Some i => let! c := slift (load_version i h) in sret (RConfig c)
  end.
Definition put_config (new_config : dict json) (user : string) (v : Env) : M reply :=
  let! _ := translate ConfigValidationError 422 (slift (Config.validate h_schema_errors h_py_str new_config)) in
  let! _ := smodify (set_config (Some (Ok (JDict new_config)))) in
  let! _ := audit_append v user "config.write" None in
  sret (RStatus "accepted").

Definition route_list_users : M reply := let! l := on_users list_users in sret (RUsers l).
Definition route_create_user (username password role user : string) (v : Env) : M reply :=
  let! _ := translate AuthError 422 (on_users (create_user username password role (e_salt v))) in
  let! _ := audit_append v user "user.created" (Some [("username", JStr username); ("role", JStr role)]) in
  sret (RStatus "created").
Definition set_user_role (username role user : string) (v : Env) : M reply :=
  let! _ := translate AuthError 422 (on_users (set_role username role)) in
  let! _ := audit_append v user "user.role_changed" (Some [("username", JStr username); ("role", JStr role)]) in
  sret (RStatus "updated").
Definition route_delete_user (username user : string) (v : Env) : M reply :=
  if String.eqb username user then http 400 else
  let! _ := translate AuthError 422 (on_users (delete_user username)) in
  let! _ := audit_append v user "user.deleted" (Some [("username", JStr username)]) in
  sret (RStatus "deleted").
Definition list_roles : M reply := sret (RRoles (py_sorted String.leb (dict_keys ROLE_PERMISSIONS))).

(** ** Alarms and audit *)

Definition list_alarms : M reply :=
  let! a := sget a_alarms in sret (RAlarms (match a with Some e => Alarms.status e | None => ∅ end)).
Definition acknowledge_alarm (tag_id user : string) (v : Env) : M reply :=
  let! a := sget a_alarms in
  let! e := some_or 404 a in
  let '(e, ok) := acknowledge (e_now v) e tag_id user in
  let! _ := smodify (set_alarms (Some e)) in
  let! _ := ensure 422 ok in
  let! _ := audit_append v user "alarm.acknowledged" (Some [("tag_id", JStr tag_id)]) in
  sret (RAlarm tag_id).
Definition shelve_alarm (tag_id : string) (duration_seconds : pfloat) (user : string) (v : Env) : M reply :=
  let! a := sget a_alarms in
  let! e := some_or 404 a in
  let '(e, r) := shelve (e_now v) e tag_id (NFloat duration_seconds) in
  let! _ := smodify (set_alarms (Some e)) in
  let! _ := slift r in
  let! _ := audit_append v user "alarm.shelved" (Some [("tag_id", JStr tag_id); ("duration_seconds", JNum (NFloat duration_seconds))]) in
  sret (RAlarm tag_id).
Definition unshelve_alarm (tag_id user : string) (v : Env) : M reply :=
  let! a := sget a_alarms in
  let! e := some_or 404 a in
  let '(e, ok) := unshelve e tag_id in
  let! _ := smodify (set_alarms (Some e)) in
  let! _ := ensure 422 ok in
  let! _ := audit_append v user "alarm.unshelved" (Some [("tag_id", JStr tag_id)]) in
  sret (RAlarm tag_id).
Definition get_audit_log (since_seq : Z) (actor event : option string) (limit : Z) : M reply :=
  let! a := sget a_audit in let! l := slift (log_tail h_py_str limit actor event since_seq a) in sret (RAudit l).

(** ** Dispatch *)

Inductive api_request :=
  | QStatus
  | QRepublish
  | QDrivers
  | QDriverTags (instance_id : string)
  | QAssets
  | QAsset (asset_id : string)
  | QWriteTag (instance_id tag_name : string) (v : TagValue)
  | QDriverHealth (instance_id : string)
  | QDisable (instance_id : string)
  | QEnable (instance_id : string)
  | QValidate (instance_id ty : string) (config tag_groups : json)
  | QPoll (instance_id group_id : string)
  | QGetConfig
  | QPutConfig (new_config : dict json)
  | QListUsers
  | QCreateUser (username password role : string)
  | QSetRole (username role : string)
  | QDeleteUser (username : string)
  | QRoles
  | QAlarms
  | QAcknowledge (tag_id : string)
  | QShelve (tag_id : string) (duration_seconds : pfloat)
  | QUnshelve (tag_id : string)
  | QAudit (since_seq : Z) (actor event : option string) (limit : Z).

(** The [Depends(require_permission(...))] of each route. *)
Definition required_permission (q : api_request) : string :=
  match q with
  | QStatus | QDrivers | QDriverTags _ | QAssets | QAsset _ | QDriverHealth _ | QPoll _ _ | QAlarms => "tag:read"
  | QRepublish => "northbound:publish"
  | QWriteTag _ _ _ => "tag:write"
  | QDisable _ | QEnable _ => "driver:restart"
  | QValidate _ _ _ _ | QGetConfig => "config:read"
  | QPutConfig _ => "config:write"
  | QListUsers | QCreateUser _ _ _ | QSetRole _ _ | QDeleteUser _ | QRoles => "user:manage"
  | QAcknowledge _ | QShelve _ _ | QUnshelve _ => "alarm:manage"
  | QAudit _ _ _ _ => "audit:read"
  end.
Definition route (q : api_request) (user : string) (v : Env) : M reply :=
  match q with
  | QStatus => get_status
  | QRepublish => republish_northbound user v
  | QDrivers => get_drivers
  | QDriverTags i => get_driver_tags i
  | QAssets => list_assets
  | QAsset i => get_asset i
  | QWriteTag i t x => write_tag i t x user v
  | QDriverHealth i => get_driver_health i v
  | QDisable i => disable_driver i user v
  | QEnable i => enable_driver i user v
  | QValidate i t c g => validate_driver i t c g
  | QPoll i g => poll_tag_group_now i g
  | QGetConfig => get_config
  | QPutConfig c => put_config c user v
  | QListUsers => route_list_users
  | QCreateUser u p r => route_create_user u p r user v
  | QSetRole u r => set_user_role u r user v
  | QDeleteUser u => route_delete_user u user v
  | QRoles => list_roles
  | QAlarms => list_alarms
  | QAcknowledge t => acknowledge_alarm t user v
  | QShelve t d => shelve_alarm t d user v
  | QUnshelve t => unshelve_alarm t user v
  | QAudit n a e l => get_audit_log n a e l
  end.
Inductive endpoint := Health | AuthStatus | AuthSetup (password : string) | AuthLogin (username password : string) | AuthLogout | Protected (q : api_request).
Definition protected (q : api_request) (c : caller) (v : Env) : M (cookie_action * reply) :=
  let! ut := require_permission (required_permission q) c v in
  let! r := route q (fst ut) v in sret (SetCookie (snd ut), r).
Definition serve (e : endpoint) (c : caller) (v : Env) : M (cookie_action * reply) :=
  match e with
  | Health => sret (KeepCookie, RStatus "ok")
  | AuthStatus => auth_status c v
  | AuthSetup p => auth_setup p v
  | AuthLogin u p => auth_login u p c v
  | AuthLogout => auth_logout c v
  | Protected q => protected q c v
  end.
(** [RateLimitMiddleware.dispatch] *)
Definition rate_limit (c : caller) (v : Env) : M unit :=
  match h_requests_per_minute with
  | None => sret tt
  | Some n =>
      if bool_decide (url_path c ∈ exempt_paths) then sret tt else
      let ip := default "unknown" (client_ip c) in
      let! ok := fun s => let '(h, ok) := rate_check n ip (e_time v) (a_hits s) in (set_hits h s, Ok ok) in
      if (ok : bool) then sret tt
      else let! _ := audit_append v ip "rate_limit.exceeded" (Some [("path", JStr (url_path c))]) in http 429
  end.
Definition handle (e : endpoint) (c : caller) (v : Env) : M (cookie_action * reply) :=
  let! _ := rate_limit c v in serve e c v.
End Api.

(** ** Relations every step of a handler respects *)

Section Preserves.
Context {S : Type} (R : relation S) `{!PreOrder R}.
Definition preserves {A} (m : SR S A) : Prop := forall s, R s (fst (m s)).
Lemma pres_ret {A} (a : A) : preserves (sret a).
Proof. by intros s. Qed.
Lemma pres_raise {A} e : preserves (sraise e : SR S A).
Proof. by intros s. Qed.
Lemma pres_lift {A} (r : res A) : preserves (slift r).
Proof. by intros s. Qed.
Lemma pres_get {A} (f : S -> A) : preserves (sget f).
Proof. by intros s. Qed.
Lemma pres_modify g : (forall s, R s (g s)) -> preserves (smodify g).
Proof. intros G s. apply G. Qed.
Lemma pres_bind {A B} (m : SR S A) (k : A -> SR S B) : preserves m -> (forall a, preserves (k a)) -> preserves (sbind m k).
Proof.
  intros Hm Hk s. specialize (Hm s). unfold sbind. destruct (m s) as [s' [a|e]]; simpl in *; [|done]. etrans; [exact Hm|apply Hk].
Qed.
Lemma pres_translate {A} e code (m : SR S A) : preserves m -> preserves (translate e code m).
Proof.
  intros Hm s. specialize (Hm s). unfold translate, scatch. destruct (m s) as [s' [a|e']]; simpl in *; [done|]. by destruct (decide (e' = e)).
Qed.
Lemma pres_some_or {A} code (o : option A) : preserves (some_or code o).
Proof. destruct o; by intros s. Qed.
Lemma pres_ensure code b : preserves (ensure code b).
Proof. destruct b; by intros s. Qed.
End Preserves.
(** One structural step; what is left are the effects. *)
Ltac pres_step :=
  match goal with
  | |- PreOrder _ => apply _
  | |- forall _, _ => intros ?
  | |- preserves _ (sret _) => apply pres_ret
  | |- preserves _ (http _) => apply pres_raise
  | |- preserves _ (sraise _) => apply pres_raise
  | |- preserves _ (slift _) => apply pres_lift
  | |- preserves _ (resolve_session _ _) => apply pres_lift
  | |- preserves _ (sget _) => apply pres_get
  | |- preserves _ (smodify _) => apply pres_modify
  | |- preserves _ (translate _ _ _) => apply pres_translate
  | |- preserves _ (some_or _ _) => apply pres_some_or
  | |- preserves _ (ensure _ _) => apply pres_ensure
  | |- preserves _ (find_driver_entry _ _) => unfold find_driver_entry
  | |- preserves _ (sbind _ _) => apply pres_bind
  | |- preserves _ (let '(_, _) := ?x in _) => destruct x
  | |- preserves _ (if ?x then _ else _) => destruct x
  | |- preserves _ (match ?x with _ => _ end) => destruct x
  end.
Ltac pres_tac := repeat pres_step.

(** ** Entries of the audit log *)

Section Entries.
Context `{Host}.
Local Abbreviation in_step_ := (in_step h_sha256_hex h_canonical_json).
Lemma audit_append_step v actor event d s n es :
  in_step_ (a_audit s) n es ->
  exists l, audit_append v actor event d s = (set_audit l s, Ok tt) /\ in_step_ l (n + 1) (es ++ [(actor, event, default [] d)]).
Proof.
  intros I. destruct (run_op_in_step _ _ _ _ _ (Append (e_stamp v) actor event d) I) as (l & E & I'). simpl in E.
  unfold audit_append. destruct (log_append _ _ _ _ _ _ _) as [l' [[]|e]]; simpl in E; [|done]. injection E as ->. by exists l.
Qed.
(** The router's part of [write_tag]: one entry, nothing else. *)
Lemma route_write_audits driver_write u i t x v s n es w r :
  in_step_ (a_audit s) n es ->
  route_write h_sha256_hex h_canonical_json h_repr_bytes h_error_text driver_write (e_stamp v) u i t x
    {| w_supervisor := a_supervisor s; w_audit := a_audit s |} = (w, r) ->
  w_supervisor w = a_supervisor s /\
  (w_audit w = a_audit s /\ (exists e, r = Raise e) \/ exists d, in_step_ (w_audit w) (n + 1) (es ++ [(u, "tag.write", d)])).
Proof.
  intros I.
  assert (forall a, exists l, audited h_sha256_hex h_canonical_json h_repr_bytes h_error_text (e_stamp v) u a x
     {| w_supervisor := a_supervisor s; w_audit := a_audit s |} = ({| w_supervisor := a_supervisor s; w_audit := l |}, Ok a) /\
     exists d, in_step_ l (n + 1) (es ++ [(u, "tag.write", d)])) as AU.
  { intros a. destruct (run_op_in_step _ _ _ _ _ (Append (e_stamp v) u "tag.write" (Some (audit_details h_repr_bytes h_error_text a x))) I) as (l & E & I').
    unfold audited, audit. simpl in E |- *. destruct (log_append _ _ _ _ _ _ _) as [l' [[]|e]]; simpl in E; [|done]. injection E as ->.
    exists l. split; [done|]. by eexists. }
  unfold route_write. simpl. intros E. repeat case_match; simplify_eq;
    try (match type of E with audited _ _ _ _ _ _ ?a _ _ = _ => destruct (AU a) as (l & E' & I') end; rewrite E' in E; injection E as <- <-; by eauto);
    (split; [done|left; eauto]).
Qed.
End Entries.

(** ** Access control *)

Section Access.
Context `{Host}.
Local Abbreviation in_step_ := (in_step h_sha256_hex h_canonical_json).
Definition session_user (c : caller) (v : Env) : res (option string) :=
  ApiAuth.validate h_sign h_parse_float h_idle_timeout (cookie c) (e_time v).
(** The caller holds a live session of an existing user whose role grants [p]. *)
Definition authorised (s : api) (c : caller) (v : Env) (p user : string) : Prop :=
  session_user c v = Ok (Some user) /\
  exists us a, snd (load_users (a_users s)) = Ok us /\ dict_get user us = Some a /\ has_permission (Some (role a)) p = true.
(** Only the log, the rate limiter's table and the migration of an old account
    file may differ. *)
Definition untouched (s s' : api) : Prop :=
  (a_users s' = a_users s \/ a_users s' = fst (load_users (a_users s))) /\ a_tracker s' = a_tracker s /\ a_config s' = a_config s /\
  a_versions s' = a_versions s /\ a_supervisor s' = a_supervisor s /\ a_alarms s' = a_alarms s /\
  a_dispatcher s' = a_dispatcher s /\ a_latest s' = a_latest s /\ a_polls s' = a_polls s.

Lemma rate_limit_cases c v s n es :
  in_step_ (a_audit s) n es ->
  (exists h, rate_limit c v s = (set_hits h s, Ok tt)) \/
  (exists s', rate_limit c v s = (s', Raise (HTTPException 429)) /\ untouched s s').
Proof.
  intros I. unfold rate_limit. assert (set_hits (a_hits s) s = s) as SH by (by destruct s).
  destruct h_requests_per_minute as [k|]; [|left; exists (a_hits s); by rewrite SH].
  case_bool_decide; [left; exists (a_hits s); by rewrite SH|].
  destruct (rate_check k (default "unknown" (client_ip c)) (e_time v) (a_hits s)) as [h []] eqn:RC.
  { left. exists h. unfold sbind. by rewrite RC. }
  right. match goal with |- context [audit_append ?v ?a ?e ?d] => destruct (audit_append_step v a e d (set_hits h s) n es I) as (l & E & _) end.
  unfold sbind. rewrite RC, E. eexists. split; [done|]. split; [by left|done].
Qed.
(** [require_permission] either lets an authorised user through, unchanged
    state, or refuses. *)
Lemma require_permission_cases p c v s n es u us :
  in_step_ (a_audit s) n es -> session_user c v = Ok u -> snd (load_users (a_users s)) = Ok us ->
  (exists user, authorised s c v p user /\
     require_permission p c v s = (set_users (fst (load_users (a_users s))) s, Ok (user, issue h_sign h_float_repr user (e_time v)))) \/
  (exists s' code, require_permission p c v s = (s', Raise (HTTPException code)) /\ (code = 401 \/ code = 403) /\ untouched s s').
Proof.
  intros I U L. unfold require_permission.
  assert (resolve_session c v s = (s, Ok ((fun u => (issue h_sign h_float_repr u (e_time v), u)) <$> u))) as RS.
  { unfold resolve_session, refresh_if_valid, slift. unfold session_user in U. by rewrite U. }
  rewrite (sbind_ok _ _ _ _ _ RS).
  destruct u as [user|]; simpl; [|right; eexists s, 401; split; [done|]; split; [by left|]; split; [by left|done]].
  destruct (load_users (a_users s)) as [f r] eqn:F. simpl in L. subst r.
  assert (on_users (get_role user) s = (set_users f s, Ok (role <$> dict_get user us))) as G.
  { unfold on_users, get_role, sbind. by rewrite F. }
  rewrite (sbind_ok _ _ _ _ _ G). simpl. destruct (has_permission (role <$> dict_get user us) p) eqn:P.
  - left. exists user. split; [|done]. split; [done|]. destruct (dict_get user us) as [a|] eqn:D; [|done]. exists us, a. by rewrite F.
  - right. match goal with |- context [audit_append ?v ?a ?e ?d] =>
      destruct (audit_append_step v a e d (set_users f s) n es I) as (l & E & _) end.
    rewrite (sbind_ok _ _ _ _ _ E). eexists _, 403. split; [done|]. split; [by right|]. split; [right; by rewrite F|done].
Qed.
Lemma protected_cases q c v s n es u us :
  in_step_ (a_audit s) n es -> session_user c v = Ok u -> snd (load_users (a_users s)) = Ok us ->
  (exists user h, authorised s c v (required_permission q) user /\
     handle (Protected q) c v s =
       sbind (route q user v) (fun r => sret (SetCookie (issue h_sign h_float_repr user (e_time v)), r))
         (set_users (fst (load_users (a_users s))) (set_hits h s))) \/
  (exists s' code, handle (Protected q) c v s = (s', Raise (HTTPException code)) /\ code ∈ [401; 403; 429] /\ untouched s s').
Proof.
  intros I U L. unfold handle. destruct (rate_limit_cases c v s n es I) as [(h & E)|(s' & E & N)].
  - rewrite (sbind_ok _ _ _ _ _ E). simpl. unfold protected.
    destruct (require_permission_cases (required_permission q) c v (set_hits h s) n es u us I U L) as [(user & A & R)|(s' & code & R & C & N)].
    + left. exists user, h. split; [exact A|]. by rewrite (sbind_ok _ _ _ _ _ R).
    + right. exists s', code. unfold sbind at 1. rewrite R. split; [done|]. split; [set_solver|exact N].
  - right. exists s', 429. unfold sbind. rewrite E. split; [done|]. split; [set_solver|done].
Qed.
End Access.

(** C17: No permission, no effect: a request to any of the protected routes by a
    caller who holds no live session of an existing user whose role grants the
    route's permission is answered 401, 403 or 429, and changes nothing of the
    gateway (accounts, lockout, configuration, drivers, alarms, northbound): it
    leaves a trace in the audit log and the rate limiter at most. *)
Theorem unauthorised_request_refused `{Host} q c v s n es u us :
  in_step h_sha256_hex h_canonical_json (a_audit s) n es ->
  session_user c v = Ok u -> snd (load_users (a_users s)) = Ok us ->
  (forall user, ~ authorised s c v (required_permission q) user) ->
  exists s' code, handle (Protected q) c v s = (s', Raise (HTTPException code)) /\ code ∈ [401; 403; 429] /\ untouched s s'.
Proof.
  intros I U L N. destruct (protected_cases q c v s n es u us I U L) as [(user & h & A & _)|R]; [by destruct (N user)|done].
Qed.

(** ** Accountability *)

Section Accountability.
Context `{Host}.
Local Abbreviation M := (SR api).
Local Abbreviation in_step_ := (in_step h_sha256_hex h_canonical_json).

(** The event a route records; [None] for the routes that only read. *)
Definition event_of (q : api_request) : option string :=
  match q with
  | QRepublish => Some "northbound.republish_triggered"
  | QWriteTag _ _ _ => Some "tag.write"
  | QDisable _ => Some "driver.disabled"
  | QEnable _ => Some "driver.enabled"
  | QPutConfig _ => Some "config.write"
  | QCreateUser _ _ _ => Some "user.created"
  | QSetRole _ _ => Some "user.role_changed"
  | QDeleteUser _ => Some "user.deleted"
  | QAcknowledge _ => Some "alarm.acknowledged"
  | QShelve _ _ => Some "alarm.shelved"
  | QUnshelve _ => Some "alarm.unshelved"
  | _ => None
  end.

Definition same_audit (s s' : api) : Prop := a_audit s' = a_audit s.
#[local] Instance same_audit_preorder : PreOrder same_audit.
Proof. split; [by intros s|]. intros a b c X Y. unfold same_audit in *. congruence. Qed.
Local Abbreviation silent := (preserves same_audit).
Lemma silent_users {A} (f : SR user_file A) : silent (on_users f).
Proof. intros s. unfold on_users. by destruct (f (a_users s)). Qed.
Ltac silent_tac := pres_tac; try apply silent_users; try done.

(** Succeeding leaves exactly one entry, of [u] and [ev]. *)
Definition emits {A} (u ev : string) (m : M A) : Prop := forall s n es s' a,
  in_step_ (a_audit s) n es -> m s = (s', Ok a) -> exists d, in_step_ (a_audit s') (n + 1) (es ++ [(u, ev, d)]).
Lemma emits_append v u ev d : emits u ev (audit_append v u ev d).
Proof. intros s n es s' a I E. destruct (audit_append_step v u ev d s n es I) as (l & E' & I'). rewrite E in E'. injection E' as -> _. by eexists. Qed.
Lemma emits_after {A B} u ev (m : M A) (k : A -> M B) : silent m -> (forall a, emits u ev (k a)) -> emits u ev (sbind m k).
Proof.
  intros Q K s n es s' b I E. specialize (Q s). unfold sbind in E. destruct (m s) as [s1 [a|e]] eqn:F; [|done]. simpl in Q.
  eapply K; [|exact E]. by rewrite Q.
Qed.
Lemma emits_then {A B} u ev (m : M A) (k : A -> M B) : emits u ev m -> (forall a, silent (k a)) -> emits u ev (sbind m k).
Proof.
  intros Em Q s n es s' b I E. unfold sbind in E. destruct (m s) as [s1 [a|e]] eqn:F; [|done].
  destruct (Em _ _ _ _ _ I F) as [d J]. exists d. specialize (Q a s1). rewrite E in Q. simpl in Q. by rewrite Q.
Qed.
Ltac emits_tac := repeat first
  [ apply emits_append | apply emits_then; [apply emits_append|silent_tac] | apply emits_after; [by silent_tac|intros ?]
  | progress case_match | progress intros ? ].

Lemma emits_set_enabled i (b : bool) u v : emits u (if b then "driver.enabled" else "driver.disabled") (set_driver_enabled i b u v).
Proof.
  unfold set_driver_enabled. do 3 (apply emits_after; [by silent_tac|intros ?]). cbv zeta. apply emits_after; [by silent_tac|intros ?].
  apply emits_then; [apply emits_append|]. silent_tac. intros s. by destruct (start_driver _ _ _) as [? [|[]]].
Qed.
Lemma route_emits q u v ev : event_of q = Some ev -> emits u ev (route q u v).
Proof.
  destruct q; simpl; intros [= <-].
  - unfold republish_northbound. apply emits_after; [silent_tac|]. intros [[c t]|]; [|done]. emits_tac.
  - unfold write_tag. apply emits_then; [|silent_tac]. intros s n es s' a I E.
    destruct (route_write _ _ _ _ _ _ _ _ _ _ _) as [w r] eqn:W. destruct (route_write_audits _ _ _ _ _ _ _ _ _ _ _ I W) as [_ A].
    simpl in E. injection E as <- ->. simpl. destruct A as [[_ [e D]]|A]; done.
  - unfold disable_driver. apply emits_then; [apply (emits_set_enabled _ false)|]. silent_tac. by destruct (stop_begin _ _).
  - apply (emits_set_enabled _ true).
  - unfold put_config. emits_tac.
  - unfold route_create_user. emits_tac.
  - unfold set_user_role. emits_tac.
  - unfold route_delete_user. destruct (String.eqb _ _); [done|]. emits_tac.
  - unfold acknowledge_alarm. do 2 (apply emits_after; [by silent_tac|intros ?]). destruct (acknowledge _ _ _ _). emits_tac.
  - unfold shelve_alarm. do 2 (apply emits_after; [by silent_tac|intros ?]). destruct (shelve _ _ _ _). emits_tac.
  - unfold unshelve_alarm. do 2 (apply emits_after; [by silent_tac|intros ?]). destruct (unshelve _ _). emits_tac.
Qed.

(** The other routes change nothing but the migration of an old account file. *)
Definition only_loads (s s' : api) : Prop := s' = s \/ s' = set_users (fst (load_users (a_users s))) s.
Lemma load_idem f : fst (load_users (fst (load_users f))) = fst (load_users f).
Proof. by destruct f. Qed.
#[local] Instance only_loads_preorder : PreOrder only_loads.
Proof.
  split; [by left|]. intros a b c [-> | ->] [-> | ->]; try (by left); try (by right). right. simpl. rewrite load_idem. by destruct a.
Qed.
(** The groups a request asks the drivers to poll. *)
Definition asked (q : api_request) : list (string * string) := match q with QPoll i g => [(i, g)] | _ => [] end.
Definition asks_polls (q : api_request) (s s' : api) : Prop := exists s1, only_loads s s1 /\ s' = set_polls (asked q ++ a_polls s) s1.
Lemma route_reads q u v s s' r : event_of q = None -> route q u v s = (s', Ok r) -> asks_polls q s s'.
Proof.
  intros Ev E.
  assert (preserves only_loads (route q u v) -> asked q = [] -> asks_polls q s s') as Reads.
  { intros P A. specialize (P s). rewrite E in P. simpl in P. exists s'. split; [done|]. rewrite A. destruct P as [-> | ->]; by destruct s. }
  destruct q; simpl in Ev; try discriminate Ev; try (apply Reads; [|done]; simpl).
  - unfold get_status. pres_tac.
  - unfold get_drivers. pres_tac.
  - unfold get_driver_tags. pres_tac.
  - unfold list_assets. pres_tac.
  - unfold get_asset. pres_tac.
  - unfold get_driver_health. pres_tac.
  - intros s0. unfold validate_driver. repeat case_match; by left.
  - exists s. split; [by left|]. simpl in E. unfold poll_tag_group_now, translate, scatch, sbind, sget, slift, some_or, ensure, smodify in E.
    destruct (Supervisor.status _ _) as [st|e]; [|by destruct (decide (e = KeyError))]. case_bool_decide; [|done].
    destruct (match get_driver _ _ with Some _ => _ | None => _ end) as [poll|]; [|done]. cbn [sret] in E.
    destruct (poll group_id) as [[]|]; [|done..]. by injection E as <- _.
  - unfold get_config. pres_tac.
  - unfold route_list_users. pres_tac. intros s0. unfold on_users, list_users, sbind. destruct (load_users (a_users s0)) as [f [us|e]] eqn:F; right; simpl; by rewrite F.
  - unfold list_roles. pres_tac.
  - unfold list_alarms. pres_tac.
  - unfold get_audit_log. pres_tac.
Qed.
End Accountability.

(** C18: Every successful request is accounted for: it was made by a user whose live
    session and role allow it, who gets a fresh session token; a request that
    changes the gateway leaves exactly one new audit entry, with that user as
    actor and the event of its route; a request of any other route leaves the
    log and the gateway as they were, except that a poll on demand tells the
    driver to poll that group. *)
Theorem successful_request_accounted `{Host} q c v s s' n es u us k r :
  in_step h_sha256_hex h_canonical_json (a_audit s) n es ->
  session_user c v = Ok u -> snd (load_users (a_users s)) = Ok us ->
  handle (Protected q) c v s = (s', Ok (k, r)) ->
  exists user, authorised s c v (required_permission q) user /\ k = SetCookie (issue h_sign h_float_repr user (e_time v)) /\
    match event_of q with
    | Some ev => exists d, in_step h_sha256_hex h_canonical_json (a_audit s') (n + 1) (es ++ [(user, ev, d)])
    | None => untouched s (set_polls (a_polls s) s') /\ a_audit s' = a_audit s /\ a_polls s' = asked q ++ a_polls s
    end.
Proof.
  intros I U L E. destruct (protected_cases q c v s n es u us I U L) as [(user & h & A & R)|(s1 & code & R & _)]; [|congruence].
  rewrite R in E. unfold sbind in E. set (s0 := set_users _ _) in E.
  destruct (route q user v s0) as [s1 [x|e]] eqn:Q; [|done]. simpl in E. injection E as <- <- <-.
  exists user. split; [done|]. split; [done|]. destruct (event_of q) as [ev|] eqn:Ev.
  - exact (route_emits q user v ev Ev s0 n es s1 x I Q).
  - destruct (route_reads q user v s0 s1 x Ev Q) as (s2 & K & ->).
    destruct K as [-> | ->]; (split; [|done]); (split; [|done]); right; simpl; by rewrite ?load_idem.
Qed.

(** ** Signing in *)

Section SignIn.
Context `{Host}.
(** Whether [p] is the password of the account [u]. *)
Definition checks (us : dict account) (u p : string) : res bool :=
  match dict_get u us with None => Ok false | Some a => check_password p (password_hash a) end.
(** The parts of the gateway that signing in does not concern. *)
Definition same_gateway (s s' : api) : Prop :=
  a_config s' = a_config s /\ a_versions s' = a_versions s /\ a_supervisor s' = a_supervisor s /\ a_alarms s' = a_alarms s /\
  a_dispatcher s' = a_dispatcher s /\ a_latest s' = a_latest s /\ a_polls s' = a_polls s.
Lemma verify_checks u p f us : snd (load_users f) = Ok us -> verify u p f = (fst (load_users f), checks us u p).
Proof. unfold verify, checks, sbind, slift. destruct (load_users f) as [g r]. simpl. intros ->. by destruct (dict_get u us). Qed.
Lemma exists_loaded f us : snd (load_users f) = Ok us -> account_exists f = (fst (load_users f), Ok (match us with [] => false | _ => true end)).
Proof. unfold account_exists, sbind, sret. destruct (load_users f) as [g r]. simpl. by intros ->. Qed.
Lemma create_first p salt f : snd (load_users f) = Ok [] ->
  create p salt f = match hash_password p salt with
                    | Ok h => (UsersFile [("admin", MkAccount h "admin")], Ok tt)
                    | Raise e => (fst (load_users f), Raise e)
                    end.
Proof.
  intros L. unfold create. rewrite (sbind_ok _ _ _ _ _ (exists_loaded f [] L)). unfold create_user, sbind, slift. cbn [dict_mem negb].
  destruct f as [| |us|]; simpl in L |- *; try done. injection L as ->. simpl. by destruct (hash_password p salt).
Qed.
End SignIn.

(** C19: Signing in is exact.  A login that the rate limit lets through is refused
    while the gateway is locked out; otherwise the account file decides: the
    password of an existing user gives a session of that very user, clears the
    failures and is recorded as a success, any other name or password gives none,
    counts as a failure and is recorded as one.  Setting up creates the
    administrator with the given password, and a session of it, if there is no
    account, and is refused and leaves the accounts alone if there is one.
    Nothing else of the gateway changes. *)
Theorem sign_in_exact `{Host} c v s n es us :
  in_step h_sha256_hex h_canonical_json (a_audit s) n es -> snd (load_users (a_users s)) = Ok us ->
  let recorded s' actor event details := in_step h_sha256_hex h_canonical_json (a_audit s') (n + 1) (es ++ [(actor, event, details)]) in
  let session u := (SetCookie (issue h_sign h_float_repr u (e_time v)), RStatus "ok") in
  (forall u p s' r, handle (AuthLogin u p) c v s = (s', r) -> same_gateway s s' /\
     (rate_limit c v s = (s', Raise (HTTPException 429)) /\ r = Raise (HTTPException 429) /\ untouched s s' \/
      let '(tracker, locked) := is_locked_out (e_time v) (a_tracker s) in
      if (locked : bool) then r = Raise (HTTPException 429) /\ a_users s' = a_users s /\ a_tracker s' = tracker /\ a_audit s' = a_audit s
      else a_users s' = fst (load_users (a_users s)) /\
        match checks us u p with
        | Ok true => r = Ok (session u) /\ a_tracker s' = record_success tracker /\ recorded s' u "auth.login_success" (default [] (ip_details c))
        | Ok false => r = Raise (HTTPException 401) /\ a_tracker s' = record_failure (e_time v) tracker /\
            recorded s' u "auth.login_failure" (default [] (ip_details c))
        | Raise e => r = Raise e /\ a_tracker s' = tracker /\ a_audit s' = a_audit s
        end)) /\
  (forall p s' r, handle (AuthSetup p) c v s = (s', r) -> same_gateway s s' /\ a_tracker s' = a_tracker s /\
     (rate_limit c v s = (s', Raise (HTTPException 429)) /\ r = Raise (HTTPException 429) /\ untouched s s' \/
      match us with
      | _ :: _ => r = Raise (HTTPException 409) /\ a_users s' = fst (load_users (a_users s)) /\ a_audit s' = a_audit s
      | [] => match hash_password p (e_salt v) with
              | Ok h => r = Ok (session "admin") /\ a_users s' = UsersFile [("admin", MkAccount h "admin")] /\ recorded s' "admin" "auth.setup" []
              | Raise e => r = Raise e /\ a_users s' = fst (load_users (a_users s)) /\ a_audit s' = a_audit s
              end
      end)).
Proof.
  intros I L recorded session. destruct (rate_limit_cases c v s n es I) as [(h & RL)|(s1 & RL & U)].
  2: { split; intros; unfold handle, sbind in *; rewrite RL in *; simplify_eq; pose proof U as (_ & T & C1 & C2 & C3 & C4 & C5 & C6 & C7);
       (split_and!; [done..|]); by left. }
  split.
  - intros u p s' r E. unfold handle in E. rewrite (sbind_ok _ _ _ _ _ RL) in E. cbn [serve] in E. unfold auth_login in E.
    unfold sbind at 1 in E. cbn [a_tracker set_hits] in E. destruct (is_locked_out (e_time v) (a_tracker s)) as [tracker locked].
    destruct locked; [injection E as <- <-; split; [done|]; by right|]. unfold sbind at 1, on_users in E. cbn [a_users set_tracker set_hits] in E.
    rewrite (verify_checks u p _ us L) in E. destruct (checks us u p) as [[]|e].
    + unfold sbind at 1, smodify in E. match type of E with sbind (audit_append ?v ?a ?e ?d) _ ?s0 = _ =>
        destruct (audit_append_step v a e d s0 n es I) as (l & A & J) end. rewrite (sbind_ok _ _ _ _ _ A) in E. injection E as <- <-. split; [done|]. by right.
    + unfold sbind at 1, smodify in E. match type of E with sbind (audit_append ?v ?a ?e ?d) _ ?s0 = _ =>
        destruct (audit_append_step v a e d s0 n es I) as (l & A & J) end. rewrite (sbind_ok _ _ _ _ _ A) in E. injection E as <- <-. split; [done|]. by right.
    + injection E as <- <-. split; [done|]. by right.
  - intros p s' r E. unfold handle in E. rewrite (sbind_ok _ _ _ _ _ RL) in E. cbn [serve] in E. unfold auth_setup in E.
    unfold sbind at 1, on_users in E. cbn [a_users set_hits] in E. rewrite (exists_loaded _ us L) in E.
    destruct us as [|x us]; [|injection E as <- <-; split_and!; [done..|]; by right].
    unfold sbind at 1, on_users in E. cbn [a_users set_users set_hits] in E.
    rewrite create_first in E by (by destruct (a_users s) as [| |[]|]; simpl in L |- *). rewrite load_idem in E.
    destruct (hash_password p (e_salt v)) as [hash|e]; [|injection E as <- <-; split_and!; [done..|]; by right].
    match type of E with sbind (audit_append ?v ?a ?e ?d) _ ?s0 = _ => destruct (audit_append_step v a e d s0 n es I) as (l & A & J) end.
    rewrite (sbind_ok _ _ _ _ _ A) in E. injection E as <- <-. split_and!; [done..|]. by right.
Qed.

(** ** A gateway to try them on *)

#[local] Instance demo_host : Host := {|
  h_passwords := plain_hash; h_sign := toy_sign; h_float_repr := fun _ => "0.0"; h_parse_float := toy_parse;
  h_idle_timeout := float_of_Z_raw 900; h_sha256_hex := toy_sha; h_canonical_json := toy_canon; h_py_str := fun _ => "";
  h_repr_bytes := fun _ => ""; h_error_text := fun _ => ""; h_schema_errors := fun _ => []; h_has_schema := String.eqb "loopback";
  h_section_errors := fun _ cfg _ => match cfg with JDict [] => [] | _ => ["bad"] end;
  h_driver_write := fun _ _ _ => Raise RuntimeError; h_poll_now := fun _ => None; h_requests_per_minute := Some 100 |}.
Definition fresh_log : AuditLog := {| file := None; log_next_seq := JNum (NInt 1); last_hash := JStr GENESIS_HASH |}.
Lemma fresh_log_in_step sha canon : in_step sha canon fresh_log 0 [].
Proof. exists GENESIS_HASH. repeat split; constructor. Qed.
Definition demo_driver (id : string) (cfg : dict json) : json := JDict [("id", JStr id); ("type", JStr "loopback"); ("config", JDict cfg); ("enabled", JBool false)].
Definition demo_api : api :=
  MkApi (LegacyFile "secret") (MkTracker 5 (float_of_Z_raw 900) []) [] fresh_log
    (Some (Ok (JDict [("drivers", JList [demo_driver "a" []; demo_driver "b" [("x", JNull)]])])))
    [] (new_supervisor {["loopback"]}) (Some (make_engine ∅)) None [] [].
Definition demo_env : Env := MkEnv fzero 0 "t" "s".
Definition anonymous : caller := MkCaller (Some "10.0.0.1") None "/api/v1".
Definition as_admin : caller := MkCaller (Some "10.0.0.1") (Some (issue toy_sign (fun _ => "0.0") "admin" fzero)) "/api/v1".
Lemma sign_in_exact_witness :
  let r p := handle (AuthLogin "admin" p) anonymous demo_env demo_api in
  snd (r "secret") = Ok (SetCookie (issue toy_sign (fun _ => "0.0") "admin" fzero), RStatus "ok") /\
  in_step toy_sha toy_canon (a_audit (fst (r "secret"))) 1 [("admin", "auth.login_success", [("ip", JStr "10.0.0.1")])] /\
  in_step toy_sha toy_canon (a_audit (fst (r "guess"))) 1 [("admin", "auth.login_failure", [("ip", JStr "10.0.0.1")])].
Proof.
  destruct (@sign_in_exact demo_host anonymous demo_env demo_api 0 [] [("admin", MkAccount "secret" "admin")] (fresh_log_in_step _ _) eq_refl) as [A _].
  destruct (A "admin" "secret" _ _ (surjective_pairing _)) as [_ [(E & _)|(_ & R & _ & I)]]; [vm_compute in E; discriminate E|].
  destruct (A "admin" "guess" _ _ (surjective_pairing _)) as [_ [(E & _)|(_ & _ & _ & J)]]; [vm_compute in E; discriminate E|].
  split_and!; [exact R|exact I|exact J].
Defined.
Lemma unauthorised_request_refused_witness :
  exists s' code, handle (Protected (QPutConfig [])) anonymous demo_env demo_api = (s', Raise (HTTPException code)) /\
    code ∈ [401; 403; 429] /\ untouched demo_api s'.
Proof.
  apply (@unauthorised_request_refused demo_host (QPutConfig []) anonymous demo_env demo_api 0 [] None [("admin", MkAccount "secret" "admin")]);
    [apply fresh_log_in_step|reflexivity|reflexivity|]. by intros user [U _].
Defined.
Definition demo_enabled : api := Eval vm_compute in (handle (Protected (QEnable "a")) as_admin demo_env demo_api).1.
Lemma successful_request_accounted_witness :
  exists user, authorised demo_api as_admin demo_env "driver:restart" user /\
    SetCookie (issue toy_sign (fun _ => "0.0") "admin" fzero) = SetCookie (issue toy_sign (fun _ => "0.0") user fzero) /\
    exists d, in_step toy_sha toy_canon (a_audit demo_enabled) 1 [(user, "driver.enabled", d)].
Proof.
  apply (@successful_request_accounted demo_host (QEnable "a") as_admin demo_env demo_api demo_enabled 0 [] (Some "admin") [("admin", MkAccount "secret" "admin")] _ (REnabled "a" true));
    [apply fresh_log_in_step|reflexivity|reflexivity|vm_compute; reflexivity].
Defined.

(** Enabling a driver whose settings its schema rejects is answered 422, after
    the file was changed and the log says it was enabled. *)
Example rejected_enable_takes_effect :
  let '(s', r) := handle (Protected (QEnable "b")) as_admin demo_env demo_api in
  r = Raise (HTTPException 422) /\
  a_config s' = Some (Ok (JDict [("drivers", JList [demo_driver "a" []; set_field "enabled" (JBool true) (demo_driver "b" [("x", JNull)])])])) /\
  length (default [] (file (a_audit s'))) = 1%nat.
Proof. by vm_compute. Qed.
(** A shelving time no [timedelta] holds is a server error. *)
Example endless_shelving_fails :
  (handle (Protected (QShelve "x/y" (float_of_Z_raw (10 ^ 15)))) as_admin demo_env demo_api).2 = Raise OverflowError.
Proof. by vm_compute. Qed.
(** The handlers run in a thread pool: an account created between another
    request's load and save is lost. *)
Example concurrent_creation_lost :
  let f := UsersFile [("admin", MkAccount "h" "admin")] in
  let '(f, loaded) := load_users f in
  let '(f, created) := create_user "eve" "pw" "operator" "s" f in
  created = Ok tt /\
  (forall us, loaded = Ok us -> fst (save_users (dict_set "bob" (MkAccount "h" "readonly") us) f) =
     UsersFile [("admin", MkAccount "h" "admin"); ("bob", MkAccount "h" "readonly")]).
Proof. split; [done|]. by intros us [= <-]. Qed.
