(* ===== verification/PyCsv.v ===== *)
(** * Python's [csv] module, default (excel) dialect

    The writer quotes a field only when it must and doubles the quotes inside;
    the reader is CPython's state machine, fed the lines of an [io.StringIO]
    and then an end-of-line mark per line.  The round trip holds for every
    record that has a field, with fields of any content up to the field size
    limit. *)

From Stdlib Require Import Ascii.
From S2P Require Import Prelude PyText.
Local Open Scope string_scope.
Local Open Scope list_scope.
Local Open Scope Z_scope.

Definition QUOTE : ascii := "034".
Definition COMMA : ascii := ",".
Definition CR : ascii := "013".
Definition LF : ascii := "010".
Definition field_limit : Z := 131072.
Definition slen (s : string) : Z := Z.of_nat (String.length s).

(** ** Writer *)

Definition special (c : ascii) : bool := Ascii.eqb c COMMA || Ascii.eqb c QUOTE || Ascii.eqb c CR || Ascii.eqb c LF.
Fixpoint any_char (p : ascii -> bool) (s : string) : bool :=
  match s with EmptyString => false | String c t => p c || any_char p t end.
Fixpoint double_quotes (s : string) : string :=
  match s with
  | EmptyString => ""
  | String c t => if Ascii.eqb c QUOTE then String QUOTE (String QUOTE (double_quotes t)) else String c (double_quotes t)
  end.
Definition quoted (s : string) : string := String QUOTE (double_quotes s ++ String QUOTE "").
Definition csv_field (s : string) : string := if any_char special s then quoted s else s.
Fixpoint join_fields (l : list string) : string :=
  match l with [] => "" | [f] => csv_field f | f :: t => csv_field f ++ String COMMA (join_fields t) end.
(** A record of one empty field is written as a pair of quotes. *)
Definition csv_record (row : list string) : string :=
  (match row with [EmptyString] => quoted "" | _ => join_fields row end) ++ String CR (String LF "").

(** ** Reader *)

Inductive reader_state := START_RECORD | START_FIELD | IN_FIELD | IN_QUOTED_FIELD | QUOTE_IN_QUOTED_FIELD | EAT_CRNL.
Record reader := MkReader { r_state : reader_state; r_field : string; r_fields : list string }.
Definition fresh_reader : reader := MkReader START_RECORD "" [].
Definition with_state (st : reader_state) (r : reader) : reader := MkReader st (r_field r) (r_fields r).
Definition save_field (st : reader_state) (r : reader) : reader := MkReader st "" (r_fields r ++ [r_field r]).
Definition add_char (c : ascii) (st : reader_state) (r : reader) : res reader :=
  raise_if field_limit <=? slen (r_field r) with CsvError;
  Ok (MkReader st (r_field r ++ String c "") (r_fields r)).
Definition is_crnl (c : ascii) : bool := Ascii.eqb c CR || Ascii.eqb c LF.

Definition start_field (c : ascii) (r : reader) : res reader :=
  if is_crnl c then Ok (save_field EAT_CRNL r)
  else if Ascii.eqb c QUOTE then Ok (with_state IN_QUOTED_FIELD r)
  else if Ascii.eqb c COMMA then Ok (save_field START_FIELD r)
  else add_char c IN_FIELD r.
Definition process_char (r : reader) (c : ascii) : res reader :=
  match r_state r with
  | START_RECORD => if is_crnl c then Ok (with_state EAT_CRNL r) else start_field c r
  | START_FIELD => start_field c r
  | IN_FIELD =>
      if is_crnl c then Ok (save_field EAT_CRNL r)
      else if Ascii.eqb c COMMA then Ok (save_field START_FIELD r)
      else add_char c IN_FIELD r
  | IN_QUOTED_FIELD => if Ascii.eqb c QUOTE then Ok (with_state QUOTE_IN_QUOTED_FIELD r) else add_char c IN_QUOTED_FIELD r
  | QUOTE_IN_QUOTED_FIELD =>
      if Ascii.eqb c QUOTE then add_char c IN_QUOTED_FIELD r
      else if Ascii.eqb c COMMA then Ok (save_field START_FIELD r)
      else if is_crnl c then Ok (save_field EAT_CRNL r)
      else add_char c IN_FIELD r
  | EAT_CRNL => if is_crnl c then Ok r else Raise CsvError
  end.
(** The mark after each line. *)
Definition process_eol (r : reader) : reader :=
  match r_state r with
  | START_RECORD | IN_QUOTED_FIELD => r
  | START_FIELD | IN_FIELD | QUOTE_IN_QUOTED_FIELD => save_field START_RECORD r
  | EAT_CRNL => with_state START_RECORD r
  end.
Fixpoint process_line (r : reader) (l : string) : res reader :=
  match l with EmptyString => Ok (process_eol r) | String c t => let* r := process_char r c in process_line r t end.

(** Iterating an [io.StringIO]: a line ends after its newline. *)
Fixpoint text_lines (s : string) : list string :=
  match s with
  | EmptyString => []
  | String c t =>
      if Ascii.eqb c LF then String c "" :: text_lines t
      else match text_lines t with [] => [String c ""] | l :: ls => String c l :: ls end
  end.

Definition at_record_start (r : reader) : bool := match r_state r with START_RECORD => true | _ => false end.
Definition emit {A} (x : A) (p : list A * option exn) : list A * option exn := (x :: fst p, snd p).
(** The records the iterator yields, and the error it stops with if any. *)
Fixpoint read_records (r : reader) (lines : list string) : list (list string) * option exn :=
  match lines with
  | [] =>
      match r_state r with
      | IN_QUOTED_FIELD => ([r_fields r ++ [r_field r]], None)
      | _ => if (0 <? slen (r_field r)) then ([r_fields r ++ [r_field r]], None) else ([], None)
      end
  | l :: t =>
      match process_line r l with
      | Raise e => ([], Some e)
      | Ok r' => if at_record_start r' then emit (r_fields r') (read_records fresh_reader t) else read_records r' t
      end
  end.
Definition csv_reader (text : string) : list (list string) * option exn := read_records fresh_reader (text_lines text).

(** ** Round trip *)

Lemma text_lines_ne t : t <> "" -> exists l ls, text_lines t = l :: ls.
Proof. destruct t as [|c t]; [done|]. intros _. simpl. case_match; [eauto|]. case_match; eauto. Qed.
Lemma read_char r r' c t :
  Ascii.eqb c LF = false -> t <> "" -> process_char r c = Ok r' ->
  read_records r (text_lines (String c t)) = read_records r' (text_lines t).
Proof.
  intros N T P. simpl. rewrite N. destruct (text_lines_ne t T) as (l & ls & ->). simpl. by rewrite P.
Qed.
Lemma read_newline r r' t :
  process_char r LF = Ok r' ->
  read_records r (text_lines (String LF t)) =
  (if at_record_start (process_eol r') then emit (r_fields (process_eol r')) (read_records fresh_reader (text_lines t))
   else read_records (process_eol r') (text_lines t)).
Proof. intros P. simpl. by rewrite P. Qed.

Lemma append_cons c a b : (String c a ++ b)%string = String c (a ++ b).
Proof. done. Qed.
Lemma slen_app a b : slen (a ++ b) = slen a + slen b.
Proof. unfold slen. induction a as [|c a IH]; [done|]. rewrite append_cons. cbn [String.length]. lia. Qed.
Lemma slen_cons c a : slen (String c a) = 1 + slen a.
Proof. unfold slen. simpl. lia. Qed.
Lemma slen_nonneg a : 0 <= slen a.
Proof. unfold slen. lia. Qed.
Lemma snoc_char acc c s : (acc ++ String c s)%string = ((acc ++ String c "") ++ s)%string.
Proof. by rewrite <- append_assoc. Qed.
Lemma append_nil_r s : (s ++ "")%string = s.
Proof. induction s as [|c s IH]; [done|]. rewrite ?append_cons. by rewrite IH. Qed.
Lemma append_not_nil a b : b <> "" -> (a ++ b)%string <> "".
Proof. by destruct a. Qed.

Lemma add_char_fits c st acc fs f :
  slen (acc ++ String c f) <= field_limit -> add_char c st (MkReader st acc fs) = Ok (MkReader st (acc ++ String c "") fs).
Proof.
  rewrite slen_app, slen_cons. pose proof (slen_nonneg f). intros L. unfold add_char. simpl.
  unfold guard_raise. by rewrite (proj2 (Z.leb_gt _ _)) by lia.
Qed.

(** Inside quotes the text is read back up to the closing quote. *)
Lemma read_quoted f fs rest : forall acc,
  rest <> "" -> slen (acc ++ f) <= field_limit ->
  read_records (MkReader IN_QUOTED_FIELD acc fs) (text_lines (double_quotes f ++ rest)) =
  read_records (MkReader IN_QUOTED_FIELD (acc ++ f) fs) (text_lines rest).
Proof.
  induction f as [|c f IH]; intros acc R L; simpl double_quotes; [by rewrite append_nil_r|].
  rewrite snoc_char in L. rewrite (snoc_char acc c f).
  pose proof (add_char_fits c IN_QUOTED_FIELD acc fs f) as A. rewrite snoc_char in A. specialize (A L).
  destruct (Ascii.eqb_spec c QUOTE) as [->|NQ].
  - rewrite ?append_cons. rewrite (read_char _ (MkReader QUOTE_IN_QUOTED_FIELD acc fs)) by done.
    rewrite (read_char _ (MkReader IN_QUOTED_FIELD (acc ++ String QUOTE "") fs)); [by apply IH|done|by apply append_not_nil|exact A].
  - rewrite ?append_cons. assert (P : process_char (MkReader IN_QUOTED_FIELD acc fs) c = Ok (MkReader IN_QUOTED_FIELD (acc ++ String c "") fs)).
    { unfold process_char. simpl. by rewrite (proj2 (Ascii.eqb_neq c QUOTE)). }
    destruct (Ascii.eqb_spec c LF) as [->|NL].
    + rewrite (read_newline _ _ _ P). simpl. by apply IH.
    + rewrite (read_char _ _ _ _ (proj2 (Ascii.eqb_neq c LF) NL) (append_not_nil _ _ R) P). by apply IH.
Qed.

Lemma special_false c : special c = false ->
  Ascii.eqb c COMMA = false /\ Ascii.eqb c QUOTE = false /\ Ascii.eqb c CR = false /\ Ascii.eqb c LF = false.
Proof. unfold special. by intros [[[? ?]%orb_false_iff ?]%orb_false_iff ?]%orb_false_iff. Qed.
Lemma read_plain f fs rest : forall acc,
  rest <> "" -> any_char special f = false -> slen (acc ++ f) <= field_limit ->
  read_records (MkReader IN_FIELD acc fs) (text_lines (f ++ rest)) =
  read_records (MkReader IN_FIELD (acc ++ f) fs) (text_lines rest).
Proof.
  induction f as [|c f IH]; intros acc R N L; [by rewrite append_nil_r|].
  simpl in N. apply orb_false_iff in N as [(C & Q & B & F)%special_false N].
  pose proof (add_char_fits c IN_FIELD acc fs f L) as A. rewrite (snoc_char acc c f) in *. rewrite ?append_cons.
  rewrite (read_char _ (MkReader IN_FIELD (acc ++ String c "") fs)); [by apply IH|done|by apply append_not_nil|].
  unfold process_char, is_crnl. simpl. by rewrite B, F, C.
Qed.

Definition after_field (d : ascii) : reader_state := if Ascii.eqb d COMMA then START_FIELD else EAT_CRNL.
Definition can_start (st : reader_state) (f : string) (d : ascii) : Prop :=
  st = START_FIELD \/ st = START_RECORD /\ (f <> "" \/ d = COMMA).

Lemma start_process st fs c : st = START_FIELD \/ st = START_RECORD -> is_crnl c = false ->
  process_char (MkReader st "" fs) c = start_field c (MkReader st "" fs).
Proof. intros [->| ->] N; unfold process_char; simpl; [done|by rewrite N]. Qed.
Lemma delimiter_facts d : d = COMMA \/ d = CR -> Ascii.eqb d LF = false /\ Ascii.eqb d QUOTE = false.
Proof. by intros [->| ->]. Qed.
Lemma read_delimiter st acc fs d rest :
  d = COMMA \/ d = CR -> st = IN_FIELD \/ st = QUOTE_IN_QUOTED_FIELD \/ st = START_FIELD -> rest <> "" ->
  read_records (MkReader st acc fs) (text_lines (String d rest)) =
  read_records (MkReader (after_field d) "" (fs ++ [acc])) (text_lines rest).
Proof. intros [->| ->] [->|[->| ->]] R; by apply read_char. Qed.

Lemma read_quoted_field st f fs d rest :
  d = COMMA \/ d = CR -> st = START_FIELD \/ st = START_RECORD -> rest <> "" -> slen f <= field_limit ->
  read_records (MkReader st "" fs) (text_lines (quoted f ++ String d rest)) =
  read_records (MkReader (after_field d) "" (fs ++ [f])) (text_lines rest).
Proof.
  intros D S R L. unfold quoted. rewrite append_cons, <- append_assoc, append_cons.
  rewrite (read_char _ (MkReader IN_QUOTED_FIELD "" fs)); [|done|by apply append_not_nil|by rewrite start_process].
  rewrite read_quoted by done. rewrite (read_char _ (MkReader QUOTE_IN_QUOTED_FIELD f fs)) by done.
  apply read_delimiter; auto.
Qed.
Lemma read_field st f fs d rest :
  d = COMMA \/ d = CR -> can_start st f d -> rest <> "" -> slen f <= field_limit ->
  read_records (MkReader st "" fs) (text_lines (csv_field f ++ String d rest)) =
  read_records (MkReader (after_field d) "" (fs ++ [f])) (text_lines rest).
Proof.
  intros D S R L. unfold csv_field. destruct (any_char special f) eqn:N.
  { apply read_quoted_field; [done| |done|done]. destruct S as [->|[-> _]]; auto. }
  destruct f as [|c f].
  - destruct S as [->|[-> [?| ->]]]; [apply read_delimiter; auto|done|by apply read_char].
  - simpl in N. apply orb_false_iff in N as [(C & Q & B & F)%special_false N]. rewrite append_cons.
    rewrite (read_char _ (MkReader IN_FIELD (String c "") fs)); [|done|by apply append_not_nil|].
    + rewrite (read_plain f) by done. apply read_delimiter; auto.
    + rewrite start_process; [|destruct S as [->|[-> _]]; auto|unfold is_crnl; by rewrite B, F].
      unfold start_field, is_crnl. rewrite B, F, Q, C. destruct S as [->|[-> _]]; done.
Qed.

Lemma read_join fs row rest : forall st,
  row <> [] -> Forall (fun f => slen f <= field_limit) row -> (st = START_FIELD \/ st = START_RECORD /\ row <> [""]) -> rest <> "" ->
  read_records (MkReader st "" fs) (text_lines (join_fields row ++ String CR rest)) =
  read_records (MkReader EAT_CRNL "" (fs ++ row)) (text_lines rest).
Proof.
  revert fs. induction row as [|f row IH]; [done|]. intros fs st _ [L F]%Forall_cons S R. destruct row as [|g row].
  - apply (read_field st f fs CR); auto. destruct S as [->|[-> N]]; [by left|right]. split; [done|]. left. congruence.
  - change (join_fields (f :: g :: row)) with (csv_field f ++ String COMMA (join_fields (g :: row)))%string.
    rewrite <- append_assoc, append_cons, (read_field _ f); auto; [| |by apply append_not_nil].
    + change (after_field COMMA) with START_FIELD. rewrite IH by auto. by rewrite <- app_assoc.
    + destruct S as [->|[-> N]]; [by left|right; auto].
Qed.

Definition row_fits (row : list string) : Prop := row <> [] /\ Forall (fun f => slen f <= field_limit) row.
Lemma read_record row rest : row_fits row ->
  read_records fresh_reader (text_lines (csv_record row ++ rest)) = emit row (read_records fresh_reader (text_lines rest)).
Proof.
  intros [N F]. unfold csv_record. rewrite <- append_assoc, !append_cons.
  assert (E : read_records fresh_reader (text_lines ((match row with [EmptyString] => quoted "" | _ => join_fields row end)
      ++ String CR (String LF rest))) = read_records (MkReader EAT_CRNL "" row) (text_lines (String LF rest))).
  { destruct (decide (row = [""])) as [->|NE].
    - by apply (read_quoted_field START_RECORD "" [] CR); auto.
    - rewrite <- (app_nil_l row) at 2. rewrite <- (read_join [] row (String LF rest) START_RECORD) by auto.
      destruct row as [|[|c f] [|]]; done. }
  etransitivity; [exact E|]. by rewrite (read_newline _ (MkReader EAT_CRNL "" row)).
Qed.

(** Reading back what the writer wrote gives the records written. *)
Lemma csv_reader_writer rows : Forall row_fits rows ->
  csv_reader (foldr (fun r t => csv_record r ++ t)%string "" rows) = (rows, None).
Proof.
  unfold csv_reader. induction rows as [|row rows IH]; [done|]. intros [F FS]%Forall_cons. simpl.
  rewrite read_record by done. by rewrite IH.
Qed.
