(* ===== verification/SchemaForms.v ===== *)
(** * Schema-driven forms and bulk tag import/export
    (src/xedge/api/schema_forms.py, src/xedge/api/tag_bulk_io.py)

    A JSON Schema fragment is rendered as a tree of form fields
    ([build_field]); a submitted flat form with dotted names is read back
    ([unflatten]); a tag group is exported as CSV text and imported again
    ([tags_to_csv], [tags_from_csv]) through the same names. *)

From Stdlib Require Import Ascii.
From stdpp Require Import pretty.
From S2P Require Import Prelude PyText PyCsv PyFloat PyDict Config.
Local Open Scope string_scope.
Local Open Scope list_scope.
Local Open Scope Z_scope.

(** ** Schemas *)

(** The keys of a schema fragment the forms read; an absent key is [None] (an
    absent type [JNull]: a type may also be a list of names). *)
Inductive schema := Schema {
  s_type : json;
  s_title : option string;
  s_description : option string;
  s_secret : bool;
  s_enum : option (list json);
  s_default : option json;
  s_minimum : json;
  s_exclusive_minimum : option json;
  s_maximum : json;
  s_suggestions : option string;
  s_required : list string;
  s_properties : list (string * schema);
  s_items : option schema }.

Definition type_is (t : string) (s : schema) : bool := match s_type s with JStr n => String.eqb n t | _ => false end.
Definition is_object (s : schema) : bool := type_is "object" s.
Definition not_none (j : json) (dflt : json) : json := match j with JNull => dflt | _ => j end.
(** [value or {}] *)
Definition or_empty (j : json) : json := if truthy j then j else JDict [].
Definition get_value (k : string) (d : dict json) : json := default JNull (dict_get k d).

(** ** Labels *)

Fixpoint replace_char (a b : ascii) (s : string) : string :=
  match s with EmptyString => "" | String c t => String (if Ascii.eqb c a then b else c) (replace_char a b t) end.
Fixpoint split_on (d : ascii) (s : string) : list string :=
  match s with
  | EmptyString => [""]
  | String c t => if Ascii.eqb c d then "" :: split_on d t
                  else match split_on d t with [] => [String c ""] | w :: ws => String c w :: ws end
  end.
Fixpoint join_words (ws : list string) : string :=
  match ws with [] => "" | [w] => w | w :: t => w ++ " " ++ join_words t end.
Definition lower_char (c : ascii) : ascii :=
  let n := nat_of_ascii c in if ((65 <=? n) && (n <=? 90))%nat then ascii_of_nat (n + 32) else c.
Fixpoint lower (s : string) : string := match s with EmptyString => "" | String c t => String (lower_char c) (lower t) end.
Definition capitalize (s : string) : string := match s with EmptyString => "" | String c t => String (upper_char c) (lower t) end.
Definition LABEL_FIXUPS : dict string :=
  [("id", "ID"); ("url", "URL"); ("ms", "(ms)"); ("mqtt", "MQTT"); ("qos", "QoS"); ("sd", "SD")].
Definition humanize (key : string) : string :=
  join_words (map (fun w => default (capitalize w) (dict_get (lower w) LABEL_FIXUPS)) (split_on " " (replace_char "_" " " key))).
(** [name.rsplit(".", 1)[-1]] *)
Definition last_segment (name : string) : string := match rpartition "." name with Some (_, b) => b | None => name end.

(** ** Rendering a form *)

Inductive ControlType := CText | CNumber | CCheckbox | CSelect | CObject | CPassword.
Inductive FieldDescriptor := Field {
  f_name : string;
  f_label : string;
  f_control : ControlType;
  f_value : json;
  f_required : bool;
  f_description : option string;
  f_minimum : json;
  f_maximum : json;
  f_step : string;
  f_options : list json;
  f_children : list FieldDescriptor;
  f_suggestions : option string }.

Definition KEEP_HINT : string := "Leave blank to keep the current value unchanged.".

(** One field per property that is not skipped. *)
Definition object_fields (build : string -> schema -> json -> bool -> res FieldDescriptor)
    (skip : list string) (prefix : string) (required : list string) (value : json) :=
  fix go (props : list (string * schema)) : res (list FieldDescriptor) :=
    match props with
    | [] => Ok []
    | (n, p) :: t =>
        if bool_decide (n ∈ skip) then go t else
        let* v := json_get n JNull value in
        let* f := build (prefix ++ n)%string p v (bool_decide (n ∈ required)) in
        let* fs := go t in Ok (f :: fs)
    end.
Fixpoint build_field (name : string) (s : schema) (value : json) (required : bool) : res FieldDescriptor :=
  let label := match s_title s with Some (String _ _ as t) => t | _ => humanize (last_segment name) end in
  if s_secret s then
    Ok (Field name label CPassword (JStr "") false
          (match s_description s with Some (String _ _ as d) => Some d | _ => Some KEEP_HINT end) JNull JNull "1" [] [] None)
  else match s_enum s with
  | Some options =>
      Ok (Field name label CSelect (not_none value (default JNull (s_default s))) required (s_description s) JNull JNull "1" options [] None)
  | None =>
      if type_is "boolean" s then
        Ok (Field name label CCheckbox (JBool (truthy (not_none value (default (JBool false) (s_default s))))) false (s_description s)
              JNull JNull "1" [] [] None)
      else if type_is "integer" s || type_is "number" s then
        Ok (Field name label CNumber (not_none value (default JNull (s_default s))) required (s_description s)
              (match s_minimum s, s_exclusive_minimum s with JNull, Some m => m | m, _ => m end) (s_maximum s)
              (if type_is "integer" s then "1" else "any") [] [] None)
      else if is_object s then
        let* children := object_fields build_field [] (name ++ ".") (s_required s) (or_empty value) (s_properties s) in
        Ok (Field name label CObject JNull required (s_description s) JNull JNull "1" [] children None)
      else
        Ok (Field name label CText (not_none value (default (JStr "") (s_default s))) required (s_description s) JNull JNull "1" [] []
              (s_suggestions s))
  end.
Definition build_object_fields (s : schema) (value : json) (skip : list string) (prefix : string) : res (list FieldDescriptor) :=
  object_fields build_field skip prefix (s_required s) value (s_properties s).

(** ** Reading a form back *)

Section Text.
(** [float(text)], and [str] of a float and of a list or mapping. *)
Context (parse_float : string -> res pfloat) (float_repr : pfloat -> string) (container_repr : json -> string).

Definition first_is_int (options : list json) : bool := match options with JNum (NInt _) :: _ | JBool _ :: _ => true | _ => false end.
Definition coerce (raw_value : string) (s : schema) : res json :=
  if type_is "boolean" s then Ok (JBool (bool_decide (raw_value ∈ ["true"; "on"; "1"; "yes"])))
  else if type_is "integer" s then rmap (fun z => JNum (NInt z)) (int_text raw_value)
  else if type_is "number" s then rmap (fun f => JNum (NFloat f)) (parse_float raw_value)
  else if first_is_int (default [] (s_enum s)) then rmap (fun z => JNum (NInt z)) (int_text raw_value)
  else Ok (JStr raw_value).

(** The fields under a dotted prefix, without it. *)
Fixpoint nested_data (prefix : string) (form : dict string) : dict string :=
  match form with
  | [] => []
  | (k, v) :: t => match strip_prefix prefix k with Some k' => (k', v) :: nested_data prefix t | None => nested_data prefix t end
  end.
(** What a property that is not an object takes from the form, if anything. *)
Definition leaf_value (required : list string) (n : string) (p : schema) (form : dict string) : res (option json) :=
  match dict_get n form with
  | None => Ok (if type_is "boolean" p then Some (JBool false) else None)
  | Some raw =>
      if s_secret p then Ok (if String.eqb raw "" then None else Some (JStr raw))
      else if String.eqb raw "" && negb (bool_decide (n ∈ required)) then Ok None
      else rmap Some (coerce raw p)
  end.
(** The loop over the properties. *)
Definition collect (value_of : string -> schema -> res (option json)) (skip : list string) :=
  fix go (props : list (string * schema)) (result : dict json) : res (dict json) :=
    match props with
    | [] => Ok result
    | (n, p) :: t =>
        if bool_decide (n ∈ skip) then go t result else
        let* v := value_of n p in
        go t (match v with Some j => dict_set n j result | None => result end)
    end.
Fixpoint unflatten (s : schema) (form : dict string) (skip : list string) : res (dict json) :=
  collect (fun n p =>
    if is_object p then
      match nested_data (n ++ ".") form with
      | [] => Ok None
      | nested_form =>
          let* nested := unflatten p nested_form [] in
          Ok (match nested with [] => None | _ => Some (JDict nested) end)
      end
    else leaf_value (s_required s) n p form) skip (s_properties s) [].

(** ** Bulk import and export *)

(** [str(raw)] *)
Definition str_of (j : json) : string :=
  match j with
  | JStr s => s
  | JBool b => if b then "True" else "False"
  | JNum (NInt z) => pretty z
  | JNum (NFloat f) => float_repr f
  | JNull => "None"
  | _ => container_repr j
  end.
Fixpoint field_names (s : schema) (prefix : string) : list string :=
  flat_map (fun np => if is_object (snd np) then field_names (snd np) (prefix ++ fst np ++ ".") else [(prefix ++ fst np)%string])
    (s_properties s).
(** [row.update(other)] *)
Definition dict_update {A} (d e : dict A) : dict A := fold_left (fun d kv => dict_set (fst kv) (snd kv) d) e d.
Definition fill_row (nested : schema -> json -> string -> res (dict string)) (value : json) (prefix : string) :=
  fix go (props : list (string * schema)) (row : dict string) : res (dict string) :=
    match props with
    | [] => Ok row
    | (n, p) :: t =>
        let* raw := json_get n JNull (or_empty value) in
        if is_object p then
          let* r := nested p (or_empty raw) (prefix ++ n ++ ".")%string in go t (dict_update row r)
        else go t (dict_set (prefix ++ n)%string (match raw with JNull => "" | _ => str_of raw end) row)
    end.
Fixpoint flatten (s : schema) (value : json) (prefix : string) : res (dict string) :=
  fill_row flatten value prefix (s_properties s) [].

(** [csv.DictWriter.writerow]: a column of the row that is not declared is refused. *)
Definition dict_row (fieldnames : list string) (row : dict string) : res (list string) :=
  raise_if negb (forallb (fun k => bool_decide (k ∈ fieldnames)) (dict_keys row)) with ValueError;
  Ok (map (fun k => default "" (dict_get k row)) fieldnames).
Definition tags_to_csv (tags : list json) (tag_schema : schema) : res string :=
  let fieldnames := field_names tag_schema "" in
  let* rows := mapM_res (fun tag => let* row := flatten tag_schema tag "" in dict_row fieldnames row) tags in
  Ok (foldr (fun r t => csv_record r ++ t)%string "" (fieldnames :: rows)).

(** [csv.DictReader]: a short record is padded, the cells beyond the header dropped. *)
Fixpoint zip_row (header row : list string) : list (string * string) :=
  match header with
  | [] => []
  | h :: hs => match row with [] => (h, "") :: zip_row hs [] | c :: cs => (h, c) :: zip_row hs cs end
  end.
Definition clean_row (header row : list string) : dict string := dict_update [] (zip_row header row).
Definition import_row (tag_schema : schema) (form : dict string) : res (dict json) :=
  let* tag := match unflatten tag_schema form [] with
              | Raise ValueError | Raise TypeError => Raise TagBulkParseError
              | r => r
              end in
  raise_if negb (truthy (get_value "id" tag)) with TagBulkParseError; Ok tag.
Definition tags_from_csv (csv_text : string) (tag_schema : schema) : res (list (dict json)) :=
  match csv_reader csv_text with
  | ([], None) => Raise TagBulkParseError
  | ([], Some e) => Raise e
  | (header :: rows, stop) =>
      let* tags := mapM_res (fun row => import_row tag_schema (clean_row header row)) (List.filter (fun r => 0 <? zlen r) rows) in
      match stop with Some e => Raise e | None => Ok tags end
  end.

(** [parsed] is what [json.loads] makes of the text. *)
Definition json_entry_ok (j : json) : bool := match j with JDict d => truthy (get_value "id" d) | _ => false end.
Definition tags_from_json (parsed : res json) : res (list json) :=
  match parsed with
  | Raise JSONDecodeError => Raise TagBulkParseError
  | Raise e => Raise e
  | Ok (JList l) => raise_if negb (forallb json_entry_ok l) with TagBulkParseError; Ok l
  | Ok _ => Raise TagBulkParseError
  end.
End Text.

(** ** Well-formed schemas and the columns of a tag *)

Fixpoint wf_schema (s : schema) : bool :=
  bool_decide (NoDup (map fst (s_properties s))) &&
  forallb (fun np => Nat.eqb (count_char "." (fst np)) 0 && wf_schema (snd np)) (s_properties s).

Definition all_props (P : string -> schema -> Prop) :=
  fix go (ps : list (string * schema)) : Prop := match ps with [] => True | (n, p) :: t => P n p /\ go t end.
Lemma all_props_forall P ps : all_props P ps <-> forall n p, (n, p) ∈ ps -> P n p.
Proof.
  induction ps as [|[n p] ps IH]; simpl; [split; [intros _ ? ? E; by inversion E|done]|]. rewrite IH. split.
  - intros [H1 H2] m q [[= -> ->]|E]%elem_of_cons; auto.
  - intros H. split; [apply H; by left|]. intros m q E. apply H. by right.
Qed.

Section SchemaInd.
Context (P : schema -> Prop) (step : forall s, (forall n p, (n, p) ∈ s_properties s -> P p) -> P s).
Fixpoint schema_nested_ind (s : schema) : P s :=
  step s ((fix go (ps : list (string * schema)) : forall n p, (n, p) ∈ ps -> P p :=
    match ps with
    | [] => fun n p E => False_ind _ (not_elem_of_nil _ E)
    | (m, q) :: t => fun n p E =>
        match proj1 (elem_of_cons t (n, p) (m, q)) E with
        | or_introl H => eq_ind_r P (schema_nested_ind q) (f_equal snd H)
        | or_intror H => go t n p H
        end
    end) (s_properties s)).
End SchemaInd.

Lemma wf_schema_names s : wf_schema s = true -> NoDup (map fst (s_properties s)).
Proof. destruct s. simpl. intros [H _]%andb_true_iff. by apply bool_decide_eq_true in H. Qed.
Lemma wf_schema_prop s n p : wf_schema s = true -> (n, p) ∈ s_properties s -> count_char "." n = 0%nat /\ wf_schema p = true.
Proof.
  destruct s. simpl. intros [_ F]%andb_true_iff E. rewrite forallb_forall in F.
  apply list_elem_of_In in E. apply F, andb_true_iff in E as [D W]. simpl in *. by apply Nat.eqb_eq in D.
Qed.

Definition dict_of (j : json) : dict json := match j with JDict d => d | _ => [] end.
Definition prepend {A} (prefix : string) (kv : string * A) : string * A := ((prefix ++ fst kv)%string, snd kv).
(** The first segment of a dotted name. *)
Definition segment (k : string) : string := match partition "." k with Some (a, _) => a | None => k end.

Lemma segment_leaf n : count_char "." n = 0%nat -> segment n = n.
Proof. intros D. unfold segment. by rewrite partition_none. Qed.
Lemma segment_nested n k : count_char "." n = 0%nat -> segment ((n ++ ".") ++ k) = n.
Proof. intros D. unfold segment. rewrite <- append_assoc. change ("." ++ k)%string with (String "." k). by rewrite partition_app. Qed.
Lemma strip_prefix_app a b : strip_prefix a (a ++ b) = Some b.
Proof. induction a as [|c a IH]; [done|]. rewrite append_cons. simpl. by rewrite Ascii.eqb_refl. Qed.
Lemma strip_prefix_some a s b : strip_prefix a s = Some b -> s = (a ++ b)%string.
Proof.
  revert s. induction a as [|c a IH]; intros [|d s]; simpl; try (by intros [= ->]); [by intros [= <-]|].
  destruct (Ascii.eqb_spec c d) as [->|]; [|done]. intros E%IH. by rewrite append_cons, <- E.
Qed.
Lemma append_inj_l a b c : (a ++ b = a ++ c)%string -> b = c.
Proof. induction a as [|d a IH]; [done|]. rewrite !append_cons. intros [= E]. auto. Qed.

Section Roundtrip.
Context (parse_float : string -> res pfloat) (float_repr : pfloat -> string) (container_repr : json -> string).
Local Abbreviation str_of := (str_of float_repr container_repr).
Local Abbreviation coerce := (coerce parse_float).
Local Abbreviation unflatten := (unflatten parse_float).
Local Abbreviation leaf_value := (leaf_value parse_float).
Local Abbreviation flatten := (flatten float_repr container_repr).

Definition cell (v : json) : string := match v with JNull => "" | _ => str_of v end.
Definition columns_of (leaves : schema -> dict json -> dict string) (d : dict json) (np : string * schema) : dict string :=
  if is_object (snd np) then map (prepend (fst np ++ ".")) (leaves (snd np) (dict_of (get_value (fst np) d)))
  else [(fst np, cell (get_value (fst np) d))].
(** The cells of a tag by column name, in schema order. *)
Fixpoint leaves (s : schema) (d : dict json) : dict string := flat_map (columns_of leaves d) (s_properties s).

(** What the columns carry: the declared properties that are set. *)
Definition kept (project : schema -> dict json -> dict json) (d : dict json) (n : string) (p : schema) : option json :=
  match get_value n d with
  | JNull => None
  | v => if is_object p then match project p (dict_of v) with [] => None | e => Some (JDict e) end else Some v
  end.
Definition keep (project : schema -> dict json -> dict json) (d : dict json) (np : string * schema) : dict json :=
  match kept project d (fst np) (snd np) with Some v => [(fst np, v)] | None => [] end.
Fixpoint project (s : schema) (d : dict json) : dict json := flat_map (keep project d) (s_properties s).

(** A value a cell can carry: its text is not empty, is within the reader's
    limit and reads back as the value; an absent one is optional. *)
Definition leaf_safe (required : list string) (n : string) (p : schema) (v : json) : Prop :=
  match v with
  | JNull => s_secret p = true \/ n ∉ required
  | _ => str_of v <> "" /\ slen (str_of v) <= field_limit /\
         (if s_secret p then v = JStr (str_of v) else coerce (str_of v) p = Ok v)
  end.
Fixpoint csv_safe (s : schema) (d : dict json) : Prop :=
  all_props (fun n p =>
    if is_object p then (get_value n d = JNull \/ exists e, get_value n d = JDict e) /\ csv_safe p (dict_of (get_value n d))
    else leaf_safe (s_required s) n p (get_value n d)) (s_properties s).

Lemma csv_safe_prop s d n p : csv_safe s d -> (n, p) ∈ s_properties s ->
  if is_object p then (get_value n d = JNull \/ exists e, get_value n d = JDict e) /\ csv_safe p (dict_of (get_value n d))
  else leaf_safe (s_required s) n p (get_value n d).
Proof. destruct s. simpl. rewrite all_props_forall. intros H E. by apply H. Qed.

Lemma leaves_eq s d : leaves s d = flat_map (columns_of leaves d) (s_properties s).
Proof. by destruct s. Qed.
Lemma project_eq s d : project s d = flat_map (keep project d) (s_properties s).
Proof. by destruct s. Qed.

Lemma columns_segment d n p k : count_char "." n = 0%nat -> k ∈ dict_keys (columns_of leaves d (n, p)) -> segment k = n.
Proof.
  intros D. unfold columns_of, dict_keys. simpl. destruct (is_object p).
  - intros ([k' v] & -> & ([k2 v2] & [= -> ->] & _)%list_elem_of_fmap)%list_elem_of_fmap. by apply segment_nested.
  - intros ->%list_elem_of_singleton. by apply segment_leaf.
Qed.
Lemma dict_keys_app {A} (a b : dict A) : dict_keys (a ++ b) = dict_keys a ++ dict_keys b.
Proof. apply map_app. Qed.
Lemma dict_keys_prepend {A} x (l : dict A) : dict_keys (map (prepend x) l) = map (String.append x) (dict_keys l).
Proof. unfold dict_keys. rewrite !map_map. by apply map_ext. Qed.
Lemma NoDup_prepend {A} x (l : dict A) : NoDup (dict_keys l) -> NoDup (dict_keys (map (prepend x) l)).
Proof. rewrite dict_keys_prepend. intros N. apply NoDup_fmap_2; [|done]. intros a b. apply append_inj_l. Qed.

Lemma columns_segment_flat d ps k :
  (forall n p, (n, p) ∈ ps -> count_char "." n = 0%nat) -> k ∈ dict_keys (flat_map (columns_of leaves d) ps) -> segment k ∈ map fst ps.
Proof.
  intros D. induction ps as [|[n p] ps IH]; simpl; [by inversion 1|]. rewrite dict_keys_app.
  intros [E|E]%elem_of_app; [rewrite (columns_segment d n p k) by (try done; apply (D n p); by left); by left|].
  right. apply IH; [|done]. intros m q M. apply (D m q). by right.
Qed.
Lemma leaves_nodup s : forall d, wf_schema s = true -> NoDup (dict_keys (leaves s d)).
Proof.
  induction s as [s IH] using schema_nested_ind. intros d W. rewrite leaves_eq.
  pose proof (wf_schema_names s W) as N. pose proof (fun n p => wf_schema_prop s n p W) as WP. clear W.
  induction (s_properties s) as [|[n p] ps IHps]; [constructor|]. simpl in *. apply NoDup_cons in N as [N1 N2].
  rewrite dict_keys_app. apply NoDup_app. split; [|split].
  - unfold columns_of. simpl. destruct (is_object p); [|apply NoDup_singleton].
    apply NoDup_prepend. apply (IH n p); [by left|]. apply (WP n p). by left.
  - intros k E1 E2. apply N1. rewrite <- (columns_segment d n p k); [|apply (WP n p); by left|done].
    eapply columns_segment_flat; [|exact E2]. intros m q M. apply (WP m q). by right.
  - apply IHps; [|done|]; intros m q M; [apply (IH m q)|apply (WP m q)]; by right.
Qed.

(** ** Flattening *)

Lemma dict_set_absent {A} k (v : A) d : dict_get k d = None -> dict_set k v d = d ++ [(k, v)].
Proof. induction d as [|[j w] t IH]; simpl; [done|]. case_decide; [done|]. intros E. by rewrite IH. Qed.
Lemma dict_update_app {A} (r : dict A) : forall d, NoDup (dict_keys (d ++ r)) -> dict_update d r = d ++ r.
Proof.
  unfold dict_update. induction r as [|[k v] r IH]; intros d N; simpl; [by rewrite app_nil_r|].
  rewrite dict_set_absent.
  - replace (d ++ (k, v) :: r) with ((d ++ [(k, v)]) ++ r) in * by by rewrite <- app_assoc. auto.
  - apply dict_get_none. intros E. rewrite dict_keys_app in N. apply NoDup_app in N as (_ & N & _). apply (N k E). by left.
Qed.
Lemma json_get_or_empty n d : json_get n JNull (or_empty (JDict d)) = Ok (get_value n d).
Proof. by destruct d. Qed.
Lemma or_empty_dict v : v = JNull \/ (exists e, v = JDict e) -> or_empty v = JDict (dict_of v).
Proof. intros [->|[[|] ->]]; done. Qed.

Lemma NoDup_keys_prefix {A} (a b c : dict A) : NoDup (dict_keys (a ++ b ++ c)) -> NoDup (dict_keys (a ++ b)).
Proof. rewrite app_assoc, dict_keys_app. by intros (? & _)%NoDup_app. Qed.
Lemma prepend_prepend {A} x y (l : dict A) : map (prepend x) (map (prepend y) l) = map (prepend (x ++ y)) l.
Proof. rewrite map_map. apply map_ext. intros [k v]. unfold prepend. simpl. by rewrite append_assoc. Qed.

Lemma flatten_leaves s : forall d prefix, wf_schema s = true -> csv_safe s d ->
  flatten s (JDict d) prefix = Ok (map (prepend prefix) (leaves s d)).
Proof.
  induction s as [s IH] using schema_nested_ind. intros d prefix W S.
  pose proof (NoDup_prepend prefix _ (leaves_nodup s d W)) as N. rewrite leaves_eq in *.
  pose proof (fun n p => wf_schema_prop s n p W) as WP. pose proof (fun n p => csv_safe_prop s d n p S) as SP.
  assert (E : flatten s (JDict d) prefix = fill_row float_repr container_repr flatten (JDict d) prefix (s_properties s) []) by by destruct s.
  rewrite E. clear E W S. change (map (prepend prefix) _) with ([] ++ map (prepend prefix) (flat_map (columns_of leaves d) (s_properties s))) in N |- *.
  generalize (@nil (string * string)) as row, N. clear N.
  induction (s_properties s) as [|[n p] ps IHps]; intros row N; cbn [fill_row flat_map map]; [by rewrite app_nil_r|].
  rewrite json_get_or_empty. cbn [rbind]. cbn [flat_map] in N. rewrite map_app in N |- *.
  assert (D : (if is_object p then
       let* r := flatten p (or_empty (get_value n d)) (prefix ++ n ++ ".")%string in Ok (dict_update row r)
       else Ok (dict_set (prefix ++ n)%string (cell (get_value n d)) row)) = Ok (row ++ map (prepend prefix) (columns_of leaves d (n, p)))).
  { pose proof (SP n p ltac:(by left)) as HS. pose proof (NoDup_keys_prefix _ _ _ N) as N'.
    unfold columns_of in *. cbn [fst snd] in *. destruct (is_object p).
    - destruct HS as [V HS]. rewrite (or_empty_dict _ V), (IH n p); [|by left|apply (WP n p); by left|done].
      simpl. rewrite prepend_prepend in *. by rewrite dict_update_app.
    - rewrite dict_set_absent; [done|]. apply dict_get_none. intros E. rewrite dict_keys_app in N'.
      apply NoDup_app in N' as (_ & N' & _). apply (N' _ E). by left. }
  rewrite app_assoc. rewrite app_assoc in N.
  specialize (IHps ltac:(intros m q M; apply (IH m q); by right) ltac:(intros m q M; apply (WP m q); by right)
    ltac:(intros m q M; apply (SP m q); by right) _ N).
  rewrite <- IHps. destruct (is_object p).
  - destruct (flatten p _ _) as [r|]; simpl in D; [|done]. injection D as D. simpl. by rewrite D.
  - injection D as D. unfold cell in D. by rewrite D.
Qed.

(** ** Unflattening *)

Lemma nested_data_app x a b : nested_data x (a ++ b) = nested_data x a ++ nested_data x b.
Proof. induction a as [|[k v] a IH]; simpl; [done|]. case_match; simpl; by rewrite IH. Qed.
Lemma nested_data_own x l : nested_data x (map (prepend x) l) = l.
Proof. induction l as [|[k v] l IH]; simpl; [done|]. by rewrite strip_prefix_app, IH. Qed.
Lemma nested_data_other n l :
  count_char "." n = 0%nat -> (forall k, k ∈ dict_keys l -> segment k <> n) -> nested_data (n ++ ".") l = [].
Proof.
  intros D. induction l as [|[k v] l IH]; intros H; simpl; [done|].
  destruct (strip_prefix (n ++ ".") k) as [r|] eqn:E.
  - apply strip_prefix_some in E as ->. exfalso. eapply H; [by left|]. by apply segment_nested.
  - apply IH. intros j J. apply H. by right.
Qed.
Lemma dict_get_app {A} k (a b : dict A) : dict_get k (a ++ b) = match dict_get k a with Some v => Some v | None => dict_get k b end.
Proof. induction a as [|[j v] a IH]; simpl; [done|]. by case_decide. Qed.

Lemma nested_columns d ps n p :
  NoDup (map fst ps) -> (forall m q, (m, q) ∈ ps -> count_char "." m = 0%nat) -> (n, p) ∈ ps -> is_object p = true ->
  nested_data (n ++ ".") (flat_map (columns_of leaves d) ps) = leaves p (dict_of (get_value n d)).
Proof.
  intros N D E O. induction ps as [|[m q] ps IH]; [by inversion E|]. simpl in N. apply NoDup_cons in N as [N1 N2].
  cbn [flat_map]. rewrite nested_data_app.
  assert (Dn : count_char "." n = 0%nat) by by apply (D n p).
  apply elem_of_cons in E as [[= -> ->]|E].
  - rewrite (nested_data_other m (flat_map _ ps)), app_nil_r; [unfold columns_of; simpl; rewrite O; apply nested_data_own|done|].
    intros k K <-. apply N1. eapply columns_segment_flat; [|exact K]. intros m' q' M. apply (D m' q'). by right.
  - rewrite nested_data_other, app_nil_l; [apply IH; auto; intros m' q' M; apply (D m' q'); by right|done|].
    intros k K <-. apply N1. rewrite (columns_segment d m q k) in E; [|apply (D m q); by left|done].
    apply list_elem_of_fmap. by exists (m, p).
Qed.
Lemma get_columns d ps n p :
  NoDup (map fst ps) -> (forall m q, (m, q) ∈ ps -> count_char "." m = 0%nat) -> (n, p) ∈ ps -> is_object p = false ->
  dict_get n (flat_map (columns_of leaves d) ps) = Some (cell (get_value n d)).
Proof.
  intros N D E O. induction ps as [|[m q] ps IH]; [by inversion E|]. simpl in N. apply NoDup_cons in N as [N1 N2].
  cbn [flat_map]. rewrite dict_get_app. assert (Dn : count_char "." n = 0%nat) by by apply (D n p).
  apply elem_of_cons in E as [[= -> ->]|E].
  - unfold columns_of. simpl. rewrite O. simpl. by rewrite decide_True.
  - rewrite (proj2 (dict_get_none n (columns_of leaves d (m, q)))).
    + apply IH; auto. intros m' q' M. apply (D m' q'). by right.
    + intros K. apply N1. rewrite <- (columns_segment d m q n) by (try done; apply (D m q); by left).
      rewrite segment_leaf by done. apply list_elem_of_fmap. by exists (n, p).
Qed.

Lemma leaf_value_cell required n p d form : is_object p = false ->
  leaf_safe required n p (get_value n d) -> dict_get n form = Some (cell (get_value n d)) ->
  leaf_value required n p form = Ok (kept project d n p).
Proof.
  intros O S G. unfold SchemaForms.leaf_value, kept. rewrite G. unfold cell, leaf_safe in *.
  destruct (get_value n d) eqn:V; [|rewrite O; destruct S as (NE & _ & C);
    rewrite (proj2 (String.eqb_neq _ _) NE); cbn [andb]; destruct (s_secret p); [first [discriminate C|done]|by rewrite C]..].
  simpl. destruct S as [->|NR]; [done|]. destruct (s_secret p); [done|]. by rewrite bool_decide_eq_false_2.
Qed.
Lemma kept_nil d n p : is_object p = true -> project p (dict_of (get_value n d)) = [] -> kept project d n p = None.
Proof. unfold kept. intros -> E. destruct (get_value n d); simpl in *; by rewrite ?E. Qed.
Lemma leaves_nil_project s : forall d, leaves s d = [] -> project s d = [].
Proof.
  induction s as [s IH] using schema_nested_ind. intros d. rewrite leaves_eq, project_eq.
  induction (s_properties s) as [|[n p] ps IHps]; [done|]. cbn [flat_map]. intros [E1 E2]%app_nil.
  rewrite IHps by (try done; intros m q M; apply (IH m q); by right). rewrite app_nil_r.
  unfold columns_of in E1. unfold keep. simpl in *. destruct (is_object p) eqn:O; [|done].
  apply map_eq_nil in E1. rewrite kept_nil; [done|done|]. apply (IH n p); [by left|done].
Qed.
Lemma collect_keep value_of d ps : forall result,
  (forall n p, (n, p) ∈ ps -> value_of n p = Ok (kept project d n p)) -> NoDup (dict_keys result ++ map fst ps) ->
  collect value_of [] ps result = Ok (result ++ flat_map (keep project d) ps).
Proof.
  induction ps as [|[n p] ps IH]; intros result V N; cbn [collect flat_map]; [by rewrite app_nil_r|].
  rewrite bool_decide_eq_false_2 by (by inversion 1). rewrite (V n p) by by left. cbn [rbind].
  assert (K : match kept project d n p with Some j => dict_set n j result | None => result end = result ++ keep project d (n, p)).
  { unfold keep. simpl. destruct (kept project d n p); [|by rewrite app_nil_r]. apply dict_set_absent, dict_get_none.
    apply NoDup_app in N as (_ & N & _). intros E. apply (N _ E). by left. }
  rewrite K. rewrite (IH (result ++ keep project d (n, p))), <- app_assoc; [done|intros m q M; apply V; by right|].
  rewrite dict_keys_app. unfold keep. simpl. destruct (kept project d n p); simpl.
  - by rewrite <- app_assoc.
  - rewrite app_nil_r. apply (NoDup_Permutation_proper _ (n :: dict_keys result ++ map fst ps)) in N; [|simpl; solve_Permutation].
    by apply NoDup_cons in N as [_ N].
Qed.

Lemma project_nil s : project s [] = [].
Proof. rewrite project_eq. by induction (s_properties s). Qed.

Lemma unflatten_leaves s : forall d, wf_schema s = true -> csv_safe s d -> unflatten s (leaves s d) [] = Ok (project s d).
Proof.
  induction s as [s IH] using schema_nested_ind. intros d W S.
  assert (C : forall n p, (n, p) ∈ s_properties s ->
    (if is_object p then
       match nested_data (n ++ ".") (leaves s d) with
       | [] => Ok None
       | nested_form => let* nested := unflatten p nested_form [] in Ok (match nested with [] => None | _ => Some (JDict nested) end)
       end
     else leaf_value (s_required s) n p (leaves s d)) = Ok (kept project d n p)).
  { intros n p E. pose proof (csv_safe_prop s d n p S E) as SP. pose proof (wf_schema_names s W) as N.
    pose proof (fun m q M => proj1 (wf_schema_prop s m q W M)) as D. rewrite leaves_eq. destruct (is_object p) eqn:O.
    - rewrite (nested_columns d _ n p N D E O). destruct SP as [V SP].
      pose proof (IH n p E _ (proj2 (wf_schema_prop s n p W E)) SP) as R.
      destruct (leaves p _) eqn:L; [rewrite kept_nil; [done|done|by apply leaves_nil_project]|]. rewrite R. simpl.
      destruct (project p _) eqn:P; [by rewrite kept_nil|]. unfold kept. rewrite O. destruct V as [V|[e V]]; rewrite V in *; simpl in *.
      + by rewrite project_nil in P.
      + by rewrite P.
    - apply leaf_value_cell; [done..|]. by apply (get_columns d _ n p). }
  rewrite project_eq. etransitivity; [|apply (collect_keep _ d (s_properties s) [] C); simpl; by apply wf_schema_names]. by destruct s.
Qed.

(** ** Export then import *)

Lemma field_names_leaves s : forall prefix d, field_names s prefix = map (String.append prefix) (dict_keys (leaves s d)).
Proof.
  induction s as [s IH] using schema_nested_ind. intros prefix d. rewrite leaves_eq. replace (field_names s prefix) with
    (flat_map (fun np => if is_object (snd np) then field_names (snd np) (prefix ++ fst np ++ ".") else [(prefix ++ fst np)%string])
      (s_properties s)) by by destruct s.
  induction (s_properties s) as [|[n p] ps IHps]; [done|]. cbn [flat_map fst snd]. rewrite dict_keys_app, map_app.
  rewrite <- IHps by (intros m q M; apply (IH m q); by right). f_equal. unfold columns_of. cbn [fst snd].
  destruct (is_object p); [|done].
  rewrite (IH n p ltac:(by left) _ (dict_of (get_value n d))), dict_keys_prepend, map_map. apply map_ext. intros k. rewrite !append_assoc. done.
Qed.
Lemma map_append_nil l : map (String.append "") l = l.
Proof. induction l; simpl; [done|]. by f_equal. Qed.
Lemma prepend_nil {A} (l : dict A) : map (prepend "") l = l.
Proof. induction l as [|[k v] l IH]; simpl; [done|]. by f_equal. Qed.

Lemma dict_row_self (row : dict string) : NoDup (dict_keys row) -> dict_row (dict_keys row) row = Ok (dict_values row).
Proof.
  intros N. unfold dict_row. rewrite (proj2 (forallb_forall _ _)).
  - simpl. f_equal. unfold dict_values, dict_keys. rewrite map_map. apply map_ext_in. intros [k v] E%list_elem_of_In. simpl.
    by rewrite (proj2 (dict_get_wf k v row N) E).
  - intros k E%list_elem_of_In. by apply bool_decide_eq_true.
Qed.
Lemma zip_row_self (row : dict string) : zip_row (dict_keys row) (dict_values row) = row.
Proof. induction row as [|[k v] row IH]; simpl; [done|]. by rewrite IH. Qed.
Lemma clean_row_self (row : dict string) : NoDup (dict_keys row) -> clean_row (dict_keys row) (dict_values row) = row.
Proof. intros N. unfold clean_row. by rewrite zip_row_self, dict_update_app. Qed.

Lemma leaves_fit s : forall d, csv_safe s d -> Forall (fun f => slen f <= field_limit) (dict_values (leaves s d)).
Proof.
  induction s as [s IH] using schema_nested_ind. intros d S. rewrite leaves_eq. pose proof (fun n p => csv_safe_prop s d n p S) as SP.
  clear S. induction (s_properties s) as [|[n p] ps IHps]; [constructor|]. cbn [flat_map]. unfold dict_values in *. rewrite map_app.
  apply Forall_app. split; [|apply IHps; intros m q M; [apply (IH m q)|apply (SP m q)]; by right].
  specialize (SP n p ltac:(by left)). unfold columns_of. cbn [fst snd]. destruct (is_object p).
  - destruct SP as [_ SP]. rewrite map_map. by apply (IH n p ltac:(by left)).
  - apply Forall_singleton. cbn [snd]. unfold leaf_safe, cell in *. destruct (get_value n d); [done|by destruct SP as (_ & ? & _)..].
Qed.

(** A tag the export carries: its set fields are declared with values a cell
    can carry, and its id is not blank. *)
Definition exportable (tag_schema : schema) (tag : dict json) : Prop :=
  csv_safe tag_schema tag /\ truthy (get_value "id" (project tag_schema tag)) = true.

Lemma import_export_row s tag : wf_schema s = true -> exportable s tag ->
  import_row parse_float s (clean_row (field_names s "") (dict_values (leaves s tag))) = Ok (project s tag).
Proof.
  intros W [S T]. rewrite (field_names_leaves s "" tag), map_append_nil, clean_row_self by by apply leaves_nodup.
  unfold import_row. rewrite unflatten_leaves by done. simpl. by rewrite T.
Qed.
Lemma export_row s tag : wf_schema s = true -> csv_safe s tag ->
  (let* row := flatten s (JDict tag) "" in dict_row (field_names s "") row) = Ok (dict_values (leaves s tag)).
Proof.
  intros W S. rewrite flatten_leaves, prepend_nil by done. simpl.
  rewrite (field_names_leaves s "" tag), map_append_nil. by apply dict_row_self, leaves_nodup.
Qed.
Lemma mapM_res_map {A B C} (f : B -> res C) (g : A -> B) (h : A -> C) l :
  (forall x, x ∈ l -> f (g x) = Ok (h x)) -> mapM_res f (map g l) = Ok (map h l).
Proof.
  induction l as [|x l IH]; simpl; [done|]. intros E. rewrite E by by left. simpl. rewrite IH; [done|]. intros y Y. apply E. by right.
Qed.
Lemma exportable_columns s tag : exportable s tag -> field_names s "" <> [].
Proof.
  intros [_ T] E. rewrite (field_names_leaves s "" tag), map_append_nil in E. apply map_eq_nil in E.
  by rewrite leaves_nil_project in T.
Qed.

Lemma csv_file_rows s tags : Forall (fun f => slen f <= field_limit) (field_names s "") -> Forall (exportable s) tags ->
  let rows := map (fun tag => dict_values (leaves s tag)) tags in
  csv_reader (foldr (fun r t => csv_record r ++ t)%string "" (field_names s "" :: rows)) = (field_names s "" :: rows, None) /\
  List.filter (fun r => 0 <? zlen r) rows = rows.
Proof.
  intros H F rows. rewrite Forall_forall in F. assert (R : forall r, r ∈ rows -> row_fits r).
  { intros r (t & -> & E)%list_elem_of_fmap. split; [|apply leaves_fit, (F t E)].
    pose proof (exportable_columns s t (F t E)) as C. rewrite (field_names_leaves s "" t), map_append_nil in C.
    unfold dict_keys, dict_values in *. by destruct (leaves s t). }
  split.
  - destruct (decide (field_names s "" = [])) as [C|C].
    + destruct tags as [|t tags]; [by rewrite C|]. exfalso. apply (exportable_columns s t); [apply F; by left|done].
    + apply csv_reader_writer. constructor; [done|]. by apply Forall_forall.
  - apply filter_all_forall. intros [|c r] E; [by destruct (R [] E)|]. apply Z.ltb_lt. rewrite zlen_cons. pose proof (zlen_nonneg r). lia.
Qed.

(** C32: Importing an exported tag group gives back the tags: every declared field
    that is set, in schema order. *)
Theorem tags_csv_roundtrip (s : schema) (tags : list (dict json)) :
  wf_schema s = true -> Forall (fun f => slen f <= field_limit) (field_names s "") -> Forall (exportable s) tags ->
  exists text, tags_to_csv float_repr container_repr (map JDict tags) s = Ok text /\
    tags_from_csv parse_float text s = Ok (map (project s) tags).
Proof.
  intros W H F. destruct (csv_file_rows s tags H F) as [R K]. rewrite Forall_forall in F. unfold tags_to_csv.
  rewrite (mapM_res_map _ JDict (fun tag => dict_values (leaves s tag))) by (intros t E; apply export_row; [done|apply (F t E)]).
  match type of R with csv_reader ?t = _ => exists t end. split; [done|]. unfold tags_from_csv. rewrite R. cbn [mapM_res]. rewrite K.
  by rewrite (mapM_res_map _ (fun tag => dict_values (leaves s tag)) (project s)) by (intros t E; apply import_export_row; auto).
Qed.
End Roundtrip.

(** ** Integers as text *)

Lemma strip_digits s : any_char is_space s = false -> strip s = s.
Proof.
  intros N. unfold strip. replace (lstrip s) with s.
  - induction s as [|c s IH]; [done|]. simpl in *. apply orb_false_iff in N as [C N]. rewrite IH by done. rewrite C. by destruct s.
  - destruct s as [|c s]; [done|]. simpl in *. by apply orb_false_iff in N as [-> _].
Qed.
Lemma pretty_N_char_digit x : (x < 10)%N -> digit (pretty_N_char x) = Some (Z.of_N x) /\ Ascii.eqb (pretty_N_char x) "_" = false
  /\ is_space (pretty_N_char x) = false /\ Ascii.eqb (pretty_N_char x) "-" = false /\ Ascii.eqb (pretty_N_char x) "+" = false.
Proof. intros L. destruct x as [|p]; [done|]. do 4 (destruct p as [p|p|]; try done; try lia). Qed.
Lemma int_digits_char c t d acc n b : Ascii.eqb c "_" = false -> digit c = Some d ->
  int_digits (String c t) acc n b = int_digits t (10 * acc + d) (n + 1) true.
Proof. intros U D. simpl. by rewrite U, D. Qed.

(** The decimal text of a positive number: its digits, read back. *)
Lemma pretty_N_go_text (x : N) : forall s, (0 < x)%N -> exists (k : Z) (c : ascii) (t : string),
  pretty_N_go x s = String c t /\ Ascii.eqb c "-" = false /\ Ascii.eqb c "+" = false /\ 0 < k /\ 10 ^ (k - 1) <= Z.of_N x /\
  any_char is_space (pretty_N_go x s) = any_char is_space s /\
  forall acc n b, int_digits (pretty_N_go x s) acc n b = int_digits s (10 ^ k * acc + Z.of_N x) (n + k) true.
Proof.
  induction (N.lt_wf_0 x) as [x _ IH]. intros s P. rewrite pretty_N_go_step by done.
  assert (M : (x `mod` 10 < 10)%N) by (apply N.mod_lt; lia). destruct (pretty_N_char_digit _ M) as (D & U & SP & MI & PL).
  pose proof (N.div_mod x 10 ltac:(lia)) as DM. destruct (decide (0 < x / 10)%N) as [Q|Q].
  - assert (L : (x / 10 < x)%N) by (apply N.div_lt; lia).
    destruct (IH _ L (String (pretty_N_char (x `mod` 10)) s) Q) as (k & c & t & E & C1 & C2 & K & B & A & R).
    exists (k + 1), c, t. split_and!; [done|done|done|lia| |rewrite A; simpl; by rewrite SP|].
    + replace (k + 1 - 1) with (1 + (k - 1)) by lia. rewrite Z.pow_add_r by lia. rewrite N2Z.inj_div in B.
      change (Z.of_N 10) with 10 in B. change (10 ^ 1) with 10. pose proof (Z.mul_div_le (Z.of_N x) 10 ltac:(lia)). lia.
    + intros acc n b. rewrite R, (int_digits_char _ _ _ _ _ _ U D). f_equal; [|lia].
      rewrite Z.pow_add_r by lia. rewrite N2Z.inj_div, N2Z.inj_mod. change (Z.of_N 10) with 10.
      change (10 ^ 1) with 10. generalize (10 ^ k). intros q. pose proof (Z.div_mod (Z.of_N x) 10 ltac:(lia)). lia.
  - assert (Z0 : (x / 10 = 0)%N) by lia. rewrite Z0. exists 1, (pretty_N_char (x `mod` 10)), s.
    assert (G : pretty_N_go 0 (String (pretty_N_char (x `mod` 10)) s) = String (pretty_N_char (x `mod` 10)) s) by apply pretty_N_go_0.
    rewrite G. split_and!; [done|done|done|lia|simpl; lia|simpl; by rewrite SP|].
    intros acc n b. rewrite (int_digits_char _ _ _ _ _ _ U D). f_equal; lia.
Qed.

Lemma digits_bound k z : 10 ^ (k - 1) <= z -> z < 10 ^ 4300 -> k <= 4300.
Proof. intros L B. destruct (decide (4300 < k)) as [G|]; [|lia]. pose proof (Z.pow_le_mono_r 10 4300 (k - 1) ltac:(lia) ltac:(lia)). lia. Qed.
Lemma int_digits_end k q x : k <= 4300 -> int_digits "" (q * 0 + x) (0 + k) true = Ok x.
Proof. intros K. cbn [int_digits]. unfold guard_raise. cbn [negb orb]. rewrite (proj2 (Z.ltb_ge _ _)) by lia. f_equal. lia. Qed.

Lemma int_text_pretty (z : Z) : Z.abs z < 10 ^ 4300 -> int_text (pretty z) = Ok z.
Proof.
  intros B. destruct z as [|p|p]; [done| |].
  - change (pretty (Zpos p)) with (pretty (Npos p)). change (pretty (Npos p)) with (pretty_N_go (Npos p) "").
    destruct (pretty_N_go_text (Npos p) "" ltac:(lia)) as (k & c & t & E & C1 & C2 & K & L & A & R).
    unfold int_text. rewrite strip_digits by by rewrite A.
    specialize (R 0 0 false). rewrite E in *. pose proof (digits_bound k (Zpos p) L B) as K'.
    replace (match String c t with String "-" u => rmap Z.opp (int_digits u 0 0 false) | String "+" u => int_digits u 0 0 false | u => int_digits u 0 0 false end)
      with (int_digits (String c t) 0 0 false); [rewrite R; by apply int_digits_end|].
    clear -C1 C2. destruct c as [[] [] [] [] [] [] [] []]; done.
  - change (pretty (Zneg p)) with (String "-" (pretty_N_go (Npos p) "")).
    destruct (pretty_N_go_text (Npos p) "" ltac:(lia)) as (k & c & t & E & C1 & C2 & K & L & A & R).
    unfold int_text. rewrite strip_digits by (simpl; by rewrite A).
    rewrite R, int_digits_end; [done|]. by apply (digits_bound k (Zpos p)).
Qed.

(** The leaves a cell carries: integers in integer columns, texts in text
    columns, and floats that their text gives back. *)
Section Leaves.
Context (parse_float : string -> res pfloat) (float_repr : pfloat -> string) (container_repr : json -> string).
Local Abbreviation safe := (leaf_safe parse_float float_repr container_repr).
Definition plain_text (p : schema) : bool :=
  negb (type_is "boolean" p || type_is "integer" p || type_is "number" p || first_is_int (default [] (s_enum p))).

Lemma leaf_safe_int req n p z : s_secret p = false -> type_is "integer" p = true -> type_is "boolean" p = false -> Z.abs z < 10 ^ 4300 ->
  slen (pretty z) <= field_limit -> safe req n p (JNum (NInt z)).
Proof.
  intros S T B L F. split_and!; [|done|].
  - simpl. intros E. pose proof (int_text_pretty z L) as R. by rewrite E in R.
  - rewrite S. unfold coerce. rewrite B, T. simpl. by rewrite int_text_pretty.
Qed.
Lemma leaf_safe_text req n p t : plain_text p = true -> t <> "" -> slen t <= field_limit -> safe req n p (JStr t).
Proof.
  intros P NE F. split_and!; [done..|]. destruct (s_secret p); [done|]. unfold coerce. unfold plain_text in P.
  by apply negb_true_iff, orb_false_iff in P as [[[-> ->]%orb_false_iff ->]%orb_false_iff ->].
Qed.
Lemma leaf_safe_float req n p f : s_secret p = false -> type_is "number" p = true -> type_is "boolean" p = false -> type_is "integer" p = false ->
  float_repr f <> "" -> slen (float_repr f) <= field_limit -> parse_float (float_repr f) = Ok f -> safe req n p (JNum (NFloat f)).
Proof. intros S T B I NE F R. split_and!; [done..|]. rewrite S. unfold coerce. rewrite B, I, T. simpl. by rewrite R. Qed.
End Leaves.

(** ** What a form can change, and what it shows *)

Lemma collect_keys value_of skip ps : forall result r k,
  collect value_of skip ps result = Ok r -> k ∈ dict_keys r -> k ∈ dict_keys result \/ k ∈ map fst ps /\ k ∉ skip.
Proof.
  induction ps as [|[n p] ps IH]; intros result r k; cbn [collect]; [intros [= <-]; auto|].
  case_bool_decide as SK.
  - intros E K. destruct (IH _ _ _ E K) as [?|[? ?]]; [auto|]. right. split; [by right|done].
  - intros (v & _ & E)%rbind_ok K. destruct (IH _ _ _ E K) as [H|[? ?]]; [|right; split; [by right|done]].
    destruct v as [v|]; [|auto]. apply dict_get_elem in H. rewrite dict_get_set in H. case_decide as D.
    + right. rewrite D. split; [by left|done].
    + left. by apply dict_get_elem.
Qed.
(** A form only ever sets declared properties that are not skipped. *)
Lemma unflatten_keys parse_float s form skip r k :
  unflatten parse_float s form skip = Ok r -> k ∈ dict_keys r -> k ∈ map fst (s_properties s) /\ k ∉ skip.
Proof.
  destruct s. intros E K. apply collect_keys with (k := k) in E; [|done]. destruct E as [E|?]; [by inversion E|done].
Qed.

(** The data without the values of secret properties, at any depth. *)
Definition remove_key (n : string) (d : dict json) : dict json := List.filter (fun kv => negb (String.eqb n (fst kv))) d.
Definition hide (redact : schema -> dict json -> dict json) (d : dict json) (np : string * schema) : dict json :=
  let '(n, p) := np in
  if s_secret p then remove_key n d
  else match s_enum p, get_value n d with
  | None, JDict e => if is_object p then dict_set n (JDict (redact p e)) d else d
  | _, _ => d
  end.
Definition hide_all (redact : schema -> dict json -> dict json) :=
  fix go (ps : list (string * schema)) (d : dict json) : dict json := match ps with [] => d | np :: t => go t (hide redact d np) end.
Fixpoint redact (s : schema) (d : dict json) : dict json := hide_all redact (s_properties s) d.

Lemma get_remove_key m n d : get_value m (remove_key n d) = if decide (m = n) then JNull else get_value m d.
Proof.
  unfold get_value, remove_key. induction d as [|[k v] d IH]; simpl; [by case_decide|].
  destruct (String.eqb_spec n k) as [->|N]; simpl; [rewrite IH; by destruct (decide (m = k))|].
  destruct (decide (m = k)) as [->|]; [by rewrite decide_False|done].
Qed.
Lemma hide_other r d n p m : m <> n -> get_value m (hide r d (n, p)) = get_value m d.
Proof.
  intros N. unfold hide. destruct (s_secret p); [rewrite get_remove_key; by rewrite decide_False|].
  destruct (s_enum p); [done|]. destruct (get_value n d); try done. destruct (is_object p); [|done].
  unfold get_value. by rewrite dict_get_set_ne.
Qed.
Lemma hide_all_other r ps : forall d m, m ∉ map fst ps -> get_value m (hide_all r ps d) = get_value m d.
Proof.
  induction ps as [|[n p] ps IH]; intros d m N; [done|]. cbn [hide_all]. simpl in N. rewrite IH by set_solver.
  apply hide_other. set_solver.
Qed.
(** A property's value after redaction. *)
Definition hidden (p : schema) (v : json) : json :=
  if s_secret p then JNull
  else match s_enum p, v with None, JDict e => if is_object p then JDict (redact p e) else v | _, _ => v end.
Lemma hide_own d n p : get_value n (hide redact d (n, p)) = hidden p (get_value n d).
Proof.
  unfold hide, hidden. destruct (s_secret p); [rewrite get_remove_key; by rewrite decide_True|].
  destruct (s_enum p); [done|]. destruct (get_value n d) eqn:V; try done. destruct (is_object p); [|done].
  unfold get_value. by rewrite dict_get_set_eq.
Qed.
Lemma redact_get s d n p : NoDup (map fst (s_properties s)) -> (n, p) ∈ s_properties s ->
  get_value n (redact s d) = hidden p (get_value n d).
Proof.
  intros N E. replace (redact s d) with (hide_all redact (s_properties s) d) by by destruct s.
  revert d. induction (s_properties s) as [|[m q] ps IH]; intros d; [by inversion E|]. simpl in N. apply NoDup_cons in N as [N1 N2].
  cbn [hide_all]. apply elem_of_cons in E as [[= -> ->]|E].
  - rewrite hide_all_other by done. apply hide_own.
  - rewrite IH by done. rewrite hide_other; [done|]. intros ->. apply N1. apply list_elem_of_fmap. by exists (m, p).
Qed.
Lemma object_fields_hidden req skip x d ps s : NoDup (map fst (s_properties s)) -> (forall n p, (n, p) ∈ ps -> (n, p) ∈ s_properties s) ->
  (forall name n p v r, (n, p) ∈ ps -> build_field name p (hidden p v) r = build_field name p v r) ->
  object_fields build_field skip x req (JDict (redact s d)) ps = object_fields build_field skip x req (JDict d) ps.
Proof.
  intros N I B. induction ps as [|[n p] ps IH]; [done|]. cbn [object_fields].
  rewrite IH; [|intros m q M; apply I; by right|intros name m q v r M; apply (B name m q); by right]. case_bool_decide; [done|]. cbn [json_get rbind].
  change (default JNull (dict_get n ?e)) with (get_value n e). rewrite (redact_get s d n p N) by (apply I; by left). by rewrite (B _ n p) by by left.
Qed.
Lemma build_field_hidden p : forall name v req, wf_schema p = true -> build_field name p (hidden p v) req = build_field name p v req.
Proof.
  induction p as [p IH] using schema_nested_ind. intros name v req W. unfold hidden.
  destruct (s_secret p) eqn:S; [by destruct p; simpl in *; rewrite S|]. destruct (s_enum p) eqn:En; [done|]. destruct v; try done.
  destruct (is_object p) eqn:O; [|done].
  assert (F : forall t, t <> "object" -> type_is t p = false).
  { intros t N. unfold is_object, type_is in *. destruct (s_type p); try done. apply String.eqb_eq in O as ->. apply String.eqb_neq. congruence. }
  assert (OE : forall e, or_empty (JDict e) = JDict e) by by intros [|].
  pose proof (F "boolean" ltac:(done)) as F1. pose proof (F "integer" ltac:(done)) as F2. pose proof (F "number" ltac:(done)) as F3.
  assert (H : object_fields build_field [] (name ++ ".") (s_required p) (JDict (redact p d)) (s_properties p) =
              object_fields build_field [] (name ++ ".") (s_required p) (JDict d) (s_properties p)).
  { apply object_fields_hidden; [by apply wf_schema_names|done|]. intros nm n q w r E. apply (IH n q E). by apply (wf_schema_prop p n q). }
  destruct p. cbn [build_field SchemaForms.s_secret SchemaForms.s_enum] in *. simpl in S, En. subst.
  rewrite F1, F2, F3, O. cbn [orb]. rewrite !OE. simpl in H |- *. by rewrite H.
Qed.

(** No form shows a secret: what is rendered is the same with every secret
    value removed from the data, however deep. *)
Theorem secrets_not_rendered (s : schema) (d : dict json) (skip : list string) (prefix : string) :
  wf_schema s = true ->
  build_object_fields s (JDict (redact s d)) skip prefix = build_object_fields s (JDict d) skip prefix.
Proof.
  intros W. apply object_fields_hidden; [by apply wf_schema_names|done|]. intros name n p v r E. apply build_field_hidden.
  by apply (wf_schema_prop s n p).
Qed.

(** ** Examples *)

Definition leaf (t : json) : schema := Schema t None None false None None JNull None JNull None [] [] None.
Definition options (l : list json) : schema := Schema (JStr "string") None None false (Some l) None JNull None JNull None [] [] None.
Definition object (required : list string) (props : list (string * schema)) : schema :=
  Schema (JStr "object") None None false None None JNull None JNull None required props None.
Definition demo_secret_leaf : schema := Schema (JStr "string") None None true None None JNull None JNull None [] [] None.
(** The shape of a Modbus tag. *)
Definition demo_tag_schema : schema :=
  object ["id"; "address"] [("id", leaf (JStr "string")); ("address", leaf (JStr "integer"));
    ("data_type", options [JStr "uint16"; JStr "float32"]);
    ("scaling", object [] [("scale", leaf (JStr "number")); ("offset", leaf (JStr "number"))])].
Definition demo_parse (t : string) : res pfloat := if String.eqb t "0.5" then Ok fzero else Raise ValueError.
Definition demo_repr (f : pfloat) : string := "0.5".
Definition demo_container (j : json) : string := "{}".
Definition demo_tags : list (dict json) :=
  [[("id", JStr "flow, main"); ("address", JNum (NInt (-40))); ("scaling", JDict [("scale", JNum (NFloat fzero))])];
   [("id", JStr "t2"); ("address", JNum (NInt 7)); ("data_type", JStr "float32")]].

Lemma tags_csv_roundtrip_witness :
  exists text, tags_to_csv demo_repr demo_container (map JDict demo_tags) demo_tag_schema = Ok text /\
    tags_from_csv demo_parse text demo_tag_schema = Ok demo_tags.
Proof.
  change demo_tags with (map (project demo_tag_schema) demo_tags) at 2. apply tags_csv_roundtrip; [done| |].
  - repeat constructor; by vm_compute.
  - constructor; [|constructor; [|constructor]]; (split; [|by vm_compute]); unfold demo_tag_schema, object, csv_safe, leaf_safe; simpl;
      split_and!; try (by vm_compute); first [by left|by (right; eexists)|right; set_solver].
Defined.

(** A boolean [true] is exported as [True] and imported as [false]; a number in
    a column that takes several types comes back as text. *)
Example boolean_column_example : let s := object ["id"] [("id", leaf (JStr "string")); ("on", leaf (JStr "boolean"))] in
  tags_to_csv demo_repr demo_container [JDict [("id", JStr "t"); ("on", JBool true)]] s
    = Ok ("id,on" ++ String CR (String LF ("t,True" ++ String CR (String LF ""))))%string /\
  tags_from_csv demo_parse ("id,on" ++ String CR (String LF ("t,True" ++ String CR (String LF ""))))%string s
    = Ok [[("id", JStr "t"); ("on", JBool false)]].
Proof. by vm_compute. Qed.
Example untyped_column_example :
  let s := object ["id"] [("id", leaf (JStr "string")); ("initial_value", leaf (JList [JStr "boolean"; JStr "integer"; JStr "number"; JStr "string"]))] in
  exists text, tags_to_csv demo_repr demo_container [JDict [("id", JStr "t"); ("initial_value", JNum (NInt 5))]] s = Ok text /\
    tags_from_csv demo_parse text s = Ok [[("id", JStr "t"); ("initial_value", JStr "5")]].
Proof. eexists. split; by vm_compute. Qed.
(** A carriage return inside an unquoted cell stops the import with an error
    the import does not report as a malformed file. *)
Example bare_carriage_return_example :
  tags_from_csv demo_parse ("id" ++ String LF ("a" ++ String CR "b"))%string demo_tag_schema = Raise CsvError.
Proof. by vm_compute. Qed.
Example humanize_examples : map humanize ["scan_rate_ms"; "id"; "qos"; "broker_url"] = ["Scan Rate (ms)"; "ID"; "QoS"; "Broker URL"].
Proof. by vm_compute. Qed.

Definition demo_account_schema : schema := object [] [("user", leaf (JStr "string")); ("mqtt", object [] [("password", demo_secret_leaf)])].
Lemma secrets_not_rendered_witness :
  redact demo_account_schema [("user", JStr "u"); ("mqtt", JDict [("password", JStr "hunter2")])] = [("user", JStr "u"); ("mqtt", JDict [])] /\
  build_object_fields demo_account_schema (JDict [("user", JStr "u"); ("mqtt", JDict [])]) [] "" =
  build_object_fields demo_account_schema (JDict [("user", JStr "u"); ("mqtt", JDict [("password", JStr "hunter2")])]) [] "".
Proof.
  split; [by vm_compute|].
  exact (secrets_not_rendered demo_account_schema [("user", JStr "u"); ("mqtt", JDict [("password", JStr "hunter2")])] [] "" eq_refl).
Defined.
