(* ===== verification/WebUi.v ===== *)
(** * The local Web UI pages (src/xedge/api/ui.py)

    The browser routes over the same accounts, sessions, alarms and audit log
    as the REST API.  A page request that is not allowed is redirected instead
    of refused with a status; what a page shows is the data its template gets. *)

From Stdlib Require Import Ascii.
From S2P Require Import Prelude PyText PyFloat PyDict PyTime Connectivity Pipeline Alarms Supervisor AuditLog ApiAuth RestApi.
Local Open Scope string_scope.
Local Open Scope list_scope.
Local Open Scope Z_scope.

Definition MIN_PASSWORD_LENGTH : Z := 8.

(** The links the navigation bar offers. *)
Record nav := MkNav {
  can_view_config : bool; can_manage_users : bool; can_view_audit_log : bool; can_restart_driver : bool; can_manage_alarms : bool }.
Inductive web :=
  | Redirect (url : string)
  | SetupPage (error : option string)
  | LoginPage (error : option string)
  | DashboardPage (drivers : gmap string DriverInstanceStatus) (northbound_connected : option bool) (fleet_enabled sntp_enabled : bool) (n : nav)
  | DriverPage (st : DriverInstanceStatus) (n : nav)
  | LogsPage (drivers : gset string) (n : nav)
  | DiagnosticsPage (n : nav)
  | UsersPage (users : list (string * string)) (roles : list string) (current_username : option string) (error : option exn) (n : nav)
  | AuditPage (entries : list json) (chain_verified : bool) (n : nav)
  | AlarmsPage (enabled : bool) (statuses : list (string * AlarmStatus)) (n : nav).

Section Web.
Context `{Host} (fleet_status sntp_status : option bool).
Local Abbreviation M := (SR api).

(** [None] to go on, else where the browser is sent. *)
Definition require_permission_redirect (permission : string) (c : caller) (v : Env) : M (option string) :=
  let! session := resolve_session c v in
  match session with
  | None => sret (Some "/ui/login")
  | Some (_, username) =>
      let! role := on_users (get_role username) in
      sret (if has_permission role permission then None else Some "/ui/dashboard")
  end.
Definition nav_permissions (c : caller) (v : Env) : M nav :=
  let! session := resolve_session c v in
  let! role := match session with Some (_, u) => on_users (get_role u) | None => sret None end in
  sret (MkNav (has_permission role "config:read") (has_permission role "user:manage") (has_permission role "audit:read")
    (has_permission role "driver:restart") (has_permission role "alarm:manage")).
Definition is_authenticated (c : caller) (v : Env) : M bool :=
  let! session := resolve_session c v in sret (match session with Some _ => true | None => false end).
(** [resolve_session(...)[1]] of a request that passed the check. *)
Definition actor_of (c : caller) (v : Env) : M string :=
  let! session := resolve_session c v in match session with Some (_, u) => sret u | None => sraise TypeError end.

(** ** Signing in *)

Definition index (c : caller) (v : Env) : M (cookie_action * web) :=
  let! e := on_users account_exists in
  if negb e then sret (KeepCookie, Redirect "/ui/setup") else
  let! a := is_authenticated c v in
  sret (KeepCookie, Redirect (if (a : bool) then "/ui/dashboard" else "/ui/login")).
Definition setup_form : M (cookie_action * web) :=
  let! e := on_users account_exists in
  sret (KeepCookie, if (e : bool) then Redirect "/ui/login" else SetupPage None).
Definition setup_submit (password confirm_password : string) (v : Env) : M (cookie_action * web) :=
  let! e := on_users account_exists in
  if (e : bool) then sret (KeepCookie, Redirect "/ui/login") else
  if negb (String.eqb password confirm_password) then sret (KeepCookie, SetupPage (Some "Passwords do not match")) else
  if code_points password <? MIN_PASSWORD_LENGTH then
    sret (KeepCookie, SetupPage (Some "Password must be at least 8 characters")) else
  let! _ := on_users (create password (e_salt v)) in
  let token := issue h_sign h_float_repr "admin" (e_time v) in
  let! _ := audit_append v "admin" "auth.setup" None in
  sret (SetCookie token, Redirect "/ui/dashboard").
Definition login_form : M (cookie_action * web) :=
  let! e := on_users account_exists in
  sret (KeepCookie, if (e : bool) then LoginPage None else Redirect "/ui/setup").
Definition login_submit (username password : string) (c : caller) (v : Env) : M (cookie_action * web) :=
  let! locked := fun s => let '(t, b) := is_locked_out (e_time v) (a_tracker s) in (set_tracker t s, Ok b) in
  if (locked : bool) then sret (KeepCookie, LoginPage (Some "Too many failed attempts; try again later")) else
  let! ok := on_users (verify username password) in
  if (ok : bool) then
    let! _ := smodify (fun s => set_tracker (record_success (a_tracker s)) s) in
    let token := issue h_sign h_float_repr username (e_time v) in
    let! _ := audit_append v username "auth.login_success" (ip_details c) in
    sret (SetCookie token, Redirect "/ui/dashboard")
  else
    let! _ := smodify (fun s => set_tracker (record_failure (e_time v) (a_tracker s)) s) in
    let! _ := audit_append v username "auth.login_failure" (ip_details c) in
    sret (KeepCookie, LoginPage (Some "Invalid username or password")).
Definition logout_submit (c : caller) (v : Env) : M (cookie_action * web) :=
  let! session := resolve_session c v in
  let! _ := match session with Some (_, u) => audit_append v u "auth.logout" None | None => sret tt end in
  sret (DeleteCookie, Redirect "/ui/login").

(** ** Pages *)

Definition dashboard (c : caller) (v : Env) : M web :=
  let! s := sget id in
  let! n := nav_permissions c v in
  sret (DashboardPage (all_status (a_supervisor s)) (fst <$> a_dispatcher s) (default false fleet_status) (default false sntp_status) n).
Definition driver_detail (instance_id : string) (c : caller) (v : Env) : M web :=
  let! s := sget id in
  match all_status (a_supervisor s) !! instance_id with
  | None => sret (Redirect "/ui/dashboard")
  | Some st => let! n := nav_permissions c v in sret (DriverPage st n)
  end.
Definition logs (c : caller) (v : Env) : M web :=
  let! s := sget id in
  let! n := nav_permissions c v in sret (LogsPage (dom (all_status (a_supervisor s))) n).
Definition diagnostics_page (c : caller) (v : Env) : M web := let! n := nav_permissions c v in sret (DiagnosticsPage n).

Definition role_names : list string := py_sorted String.leb (dict_keys ROLE_PERMISSIONS).
Definition users_page (c : caller) (v : Env) : M web :=
  let! session := resolve_session c v in
  let! l := on_users list_users in
  let! n := nav_permissions c v in sret (UsersPage l role_names (snd <$> session) None n).
Definition users_create (username password role : string) (c : caller) (v : Env) : M web :=
  let! actor := actor_of c v in
  let! error := scatch (let! _ := on_users (create_user username password role (e_salt v)) in sret None)
                       (fun e => if decide (e = AuthError) then sret (Some e) else sraise e) in
  match error with
  | Some e =>
      let! l := on_users list_users in
      let! n := nav_permissions c v in sret (UsersPage l role_names (Some actor) (Some e) n)
  | None =>
      let! _ := audit_append v actor "user.created" (Some [("username", JStr username); ("role", JStr role)]) in
      sret (Redirect "/ui/users")
  end.
(** [try: m except AuthError: pass else: k] *)
Definition unless_refused (m k : M unit) : M unit :=
  let! refused := scatch (let! _ := m in sret false) (fun e => if decide (e = AuthError) then sret true else sraise e) in
  if (refused : bool) then sret tt else k.
Definition users_set_role (username role : string) (c : caller) (v : Env) : M web :=
  let! actor := actor_of c v in
  let! _ := unless_refused (on_users (set_role username role))
              (audit_append v actor "user.role_changed" (Some [("username", JStr username); ("role", JStr role)])) in
  sret (Redirect "/ui/users").
Definition users_delete (username : string) (c : caller) (v : Env) : M web :=
  let! session := resolve_session c v in
  if match session with Some (_, u) => String.eqb u username | None => false end then sret (Redirect "/ui/users") else
  let! _ := unless_refused (on_users (delete_user username))
              (match session with
               | Some (_, u) => audit_append v u "user.deleted" (Some [("username", JStr username)])
               | None => sret tt
               end) in
  sret (Redirect "/ui/users").
Definition audit_page (c : caller) (v : Env) : M web :=
  let! a := sget a_audit in
  let! entries := slift (log_tail h_py_str 500 None None 0 a) in
  let! ok := slift (verify_chain h_sha256_hex h_canonical_json a) in
  let! n := nav_permissions c v in sret (AuditPage (rev entries) ok n).

Definition alarms_page (c : caller) (v : Env) : M web :=
  let! a := sget a_alarms in
  let statuses := match a with Some e => map_to_list (Alarms.status e) | None => [] end in
  let! n := nav_permissions c v in
  sret (AlarmsPage (match a with Some _ => true | None => false end) (py_sorted (fun x y => String.leb (fst x) (fst y)) statuses) n).
(** An operation of the alarm engine, if there is one. *)
Definition on_engine {A} (f : AlarmEngine -> AlarmEngine * res A) (k : A -> M unit) : M unit :=
  let! a := sget a_alarms in
  match a with
  | None => sret tt
  | Some e => let '(e', r) := f e in let! _ := smodify (set_alarms (Some e')) in let! x := slift r in k x
  end.
Definition alarms_acknowledge (tag_id : string) (c : caller) (v : Env) : M web :=
  let! actor := actor_of c v in
  let! _ := on_engine (fun e => let '(e', ok) := acknowledge (e_now v) e tag_id actor in (e', Ok ok))
    (fun ok => if (ok : bool) then audit_append v actor "alarm.acknowledged" (Some [("tag_id", JStr tag_id)]) else sret tt) in
  sret (Redirect "/ui/alarms").
Definition alarms_shelve (tag_id : string) (duration_seconds : pfloat) (c : caller) (v : Env) : M web :=
  let! _ := on_engine (fun e => shelve (e_now v) e tag_id (NFloat duration_seconds)) (fun _ =>
    let! actor := actor_of c v in
    audit_append v actor "alarm.shelved" (Some [("tag_id", JStr tag_id); ("duration_seconds", JNum (NFloat duration_seconds))])) in
  sret (Redirect "/ui/alarms").
Definition alarms_unshelve (tag_id : string) (c : caller) (v : Env) : M web :=
  let! _ := on_engine (fun e => let '(e', ok) := unshelve e tag_id in (e', Ok ok)) (fun ok =>
    if (ok : bool) then let! actor := actor_of c v in audit_append v actor "alarm.unshelved" (Some [("tag_id", JStr tag_id)]) else sret tt) in
  sret (Redirect "/ui/alarms").

(** ** Dispatch *)

Inductive page_request :=
  | PDashboard | PDriver (instance_id : string) | PLogs | PDiagnostics | PUsers
  | PCreateUser (username password role : string) | PSetRole (username role : string) | PDeleteUser (username : string)
  | PAudit | PAlarms | PAcknowledge (tag_id : string) | PShelve (tag_id : string) (duration_seconds : pfloat) | PUnshelve (tag_id : string).
Definition page_permission (q : page_request) : string :=
  match q with
  | PDashboard | PDriver _ | PLogs | PDiagnostics | PAlarms => "tag:read"
  | PUsers | PCreateUser _ _ _ | PSetRole _ _ | PDeleteUser _ => "user:manage"
  | PAudit => "audit:read"
  | PAcknowledge _ | PShelve _ _ | PUnshelve _ => "alarm:manage"
  end.
Definition page_route (q : page_request) (c : caller) (v : Env) : M web :=
  match q with
  | PDashboard => dashboard c v
  | PDriver i => driver_detail i c v
  | PLogs => logs c v
  | PDiagnostics => diagnostics_page c v
  | PUsers => users_page c v
  | PCreateUser u p r => users_create u p r c v
  | PSetRole u r => users_set_role u r c v
  | PDeleteUser u => users_delete u c v
  | PAudit => audit_page c v
  | PAlarms => alarms_page c v
  | PAcknowledge t => alarms_acknowledge t c v
  | PShelve t d => alarms_shelve t d c v
  | PUnshelve t => alarms_unshelve t c v
  end.
(** The check every page makes first. *)
Definition page (q : page_request) (c : caller) (v : Env) : M web :=
  let! redirect := require_permission_redirect (page_permission q) c v in
  match redirect with Some url => sret (Redirect url) | None => page_route q c v end.
End Web.

(** ** The pages and the REST API *)

(** The API request that does what a page's form does; the other pages only show. *)
Definition api_of (q : page_request) : option api_request :=
  match q with
  | PCreateUser u p r => Some (QCreateUser u p r)
  | PSetRole u r => Some (QSetRole u r)
  | PDeleteUser u => Some (QDeleteUser u)
  | PAcknowledge t => Some (QAcknowledge t)
  | PShelve t d => Some (QShelve t d)
  | PUnshelve t => Some (QUnshelve t)
  | _ => None
  end.

Section Same.
Context `{Host} (fleet_status sntp_status : option bool).
Local Abbreviation page_route := (page_route fleet_status sntp_status).
Local Abbreviation page := (page fleet_status sntp_status).

#[local] Existing Instance only_loads_preorder.
(** No account file left to migrate. *)
Definition migrated (f : user_file) : Prop := fst (load_users f) = f.
Lemma migrated_load f : migrated (fst (load_users f)).
Proof. apply load_idem. Qed.
Lemma set_users_same s : set_users (a_users s) s = s.
Proof. by destruct s. Qed.
Lemma on_users_reads {A} (k : dict account -> SR user_file A) s :
  migrated (a_users s) -> (forall us f, fst (k us f) = f) -> fst (on_users (let! users := load_users in k users) s) = s.
Proof.
  intros M K. unfold on_users, sbind. unfold migrated in M. destruct (load_users (a_users s)) as [f [us|e]] eqn:L; simpl in M; subst f.
  - pose proof (K us (a_users s)) as E. destruct (k us (a_users s)) as [f r]. simpl in *. subst f. apply set_users_same.
  - apply set_users_same.
Qed.
Lemma session_resolves c v u s : session_user c v = Ok u ->
  resolve_session c v s = (s, Ok ((fun u => (issue h_sign h_float_repr u (e_time v), u)) <$> u)).
Proof. intros U. unfold resolve_session, refresh_if_valid, slift. unfold session_user in U. by rewrite U. Qed.
Lemma actor_resolves c v u s : session_user c v = Ok (Some u) -> actor_of c v s = (s, Ok u).
Proof. intros U. unfold actor_of. by rewrite (sbind_ok _ _ _ _ _ (session_resolves c v _ s U)). Qed.
Lemma nav_reads c v u s : session_user c v = Ok (Some u) -> migrated (a_users s) -> fst (nav_permissions c v s) = s.
Proof.
  intros U M. unfold nav_permissions. rewrite (sbind_ok _ _ _ _ _ (session_resolves c v _ s U)). simpl.
  pose proof (on_users_reads (fun us => sret (role <$> dict_get u us)) s M ltac:(done)) as R. unfold get_role, sbind at 1.
  destruct (on_users _ s) as [s' [r|e]]; simpl in *; by subst.
Qed.
Lemma list_users_reads s : migrated (a_users s) -> fst (on_users list_users s) = s.
Proof. intros M. by apply on_users_reads. Qed.
Lemma create_user_migrated u p r salt f : migrated f -> migrated (fst (create_user u p r salt f)).
Proof.
  intros M. unfold create_user. repeat (case_match; [done|]). unfold sbind at 1. unfold migrated in M.
  destruct (load_users f) as [f' [us|e]] eqn:L; simpl in M; subst f'; simpl; [|unfold migrated; by rewrite L].
  case_match; [unfold migrated; simpl; by rewrite L|]. unfold sbind, slift. destruct (hash_password p salt); simpl; [done|unfold migrated; by rewrite L].
Qed.

Lemma page_route_same q q' c v u s : api_of q = Some q' -> session_user c v = Ok (Some u) -> migrated (a_users s) ->
  fst (page_route q c v s) = fst (route q' u v s).
Proof.
  intros A U M. destruct q; simplify_eq A; intros <-; simpl.
  - unfold users_create, route_create_user. rewrite (sbind_ok _ _ _ _ _ (actor_resolves c v u s U)). unfold translate, scatch, sbind.
    assert (K : migrated (a_users (fst (on_users (create_user username password role (e_salt v)) s)))).
    { unfold on_users. pose proof (create_user_migrated username password role (e_salt v) (a_users s) M). by destruct (create_user _ _ _ _ _). }
    destruct (on_users _ s) as [s' [[]|e]]; simpl in *; [by destruct (audit_append _ _ _ _ _) as [? []]|].
    destruct (decide (e = AuthError)) as [->|]; simpl; [|done].
    pose proof (list_users_reads s' K) as R. destruct (on_users list_users s') as [s1 [l|e]]; simpl in *; subst s1; [|done].
    pose proof (nav_reads c v u s' U K) as N. by destruct (nav_permissions c v s') as [? []].
  - unfold users_set_role, set_user_role. rewrite (sbind_ok _ _ _ _ _ (actor_resolves c v u s U)). unfold unless_refused, translate, scatch, sbind.
    destruct (on_users _ s) as [s' [[]|e]]; simpl; [by destruct (audit_append _ _ _ _ _) as [? []]|]. by destruct (decide (e = AuthError)).
  - unfold users_delete, route_delete_user. rewrite (sbind_ok _ _ _ _ _ (session_resolves c v _ s U)). simpl. rewrite String.eqb_sym.
    destruct (String.eqb username u); [done|]. unfold unless_refused, translate, scatch, sbind.
    destruct (on_users _ s) as [s' [[]|e]]; simpl; [by destruct (audit_append _ _ _ _ _) as [? []]|]. by destruct (decide (e = AuthError)).
  - unfold alarms_acknowledge, acknowledge_alarm. rewrite (sbind_ok _ _ _ _ _ (actor_resolves c v u s U)). unfold on_engine, sbind, sget.
    destruct (a_alarms s) as [e|]; [|done]. simpl. destruct (acknowledge _ _ _ _) as [e' []]; simpl; [|done].
    by destruct (audit_append _ _ _ _ _) as [? []].
  - unfold alarms_shelve, shelve_alarm. unfold on_engine, sbind, sget. destruct (a_alarms s) as [e|]; [|done]. simpl.
    destruct (shelve _ _ _ _) as [e' []]; simpl; [|done]. rewrite (actor_resolves c v u _ U). by destruct (audit_append _ _ _ _ _) as [? []].
  - unfold alarms_unshelve, unshelve_alarm. unfold on_engine, sbind, sget. destruct (a_alarms s) as [e|]; [|done]. simpl.
    destruct (unshelve _ _) as [e' []]; simpl; [|done]. rewrite (actor_resolves c v u _ U). by destruct (audit_append _ _ _ _ _) as [? []].
Qed.

Lemma authorised_passes p c v s user : authorised s c v p user ->
  require_permission p c v s = (set_users (fst (load_users (a_users s))) s, Ok (user, issue h_sign h_float_repr user (e_time v))).
Proof.
  intros [U (us & a & L & D & P)]. unfold require_permission. rewrite (sbind_ok _ _ _ _ _ (session_resolves c v _ s U)). simpl.
  assert (on_users (get_role user) s = (set_users (fst (load_users (a_users s))) s, Ok (Some (role a)))) as G.
  { unfold on_users, get_role, sbind. destruct (load_users (a_users s)) as [f r]. simpl in *. subst r. by rewrite D. }
  rewrite (sbind_ok _ _ _ _ _ G). by rewrite P.
Qed.
Lemma redirect_cases p c v s u us :
  session_user c v = Ok u -> snd (load_users (a_users s)) = Ok us ->
  (exists user, authorised s c v p user /\ u = Some user /\
     require_permission_redirect p c v s = (set_users (fst (load_users (a_users s))) s, Ok None)) \/
  (exists s' url, require_permission_redirect p c v s = (s', Ok (Some url)) /\ url ∈ ["/ui/login"; "/ui/dashboard"] /\ only_loads s s' /\
     forall user, ~ authorised s c v p user).
Proof.
  intros U L. unfold require_permission_redirect. rewrite (sbind_ok _ _ _ _ _ (session_resolves c v u s U)).
  destruct u as [user|]; simpl.
  - destruct (load_users (a_users s)) as [f r] eqn:F. simpl in L. subst r.
    assert (on_users (get_role user) s = (set_users f s, Ok (role <$> dict_get user us))) as G.
    { unfold on_users, get_role, sbind. by rewrite F. }
    rewrite (sbind_ok _ _ _ _ _ G). simpl. destruct (has_permission (role <$> dict_get user us) p) eqn:P.
    + left. exists user. split; [|done]. split; [done|]. destruct (dict_get user us) as [a|] eqn:D; [|done]. exists us, a. by rewrite F.
    + right. eexists _, _. split; [done|]. split; [set_solver|]. split; [right; by rewrite F|].
      intros user' [U' (us' & a & L' & D & P')]. rewrite U in U'. injection U' as <-. rewrite F in L'. simpl in L'. injection L' as <-.
      rewrite D in P. change (role <$> Some a) with (Some (role a)) in P. congruence.
  - right. eexists _, _. split; [done|]. split; [set_solver|]. split; [by left|]. intros user [U' _]. congruence.
Qed.

Lemma reads_nav c v : preserves only_loads (nav_permissions c v).
Proof.
  unfold nav_permissions. pres_tac. intros st. unfold on_users, get_role, sbind.
  destruct (load_users (a_users st)) as [f [us|e]] eqn:F; right; simpl; by rewrite F.
Qed.
Lemma reads_pages q c v : api_of q = None -> preserves only_loads (page_route q c v).
Proof.
  destruct q; simpl; intros [=].
  - unfold dashboard. pres_tac. apply reads_nav.
  - unfold driver_detail. pres_tac. apply reads_nav.
  - unfold logs. pres_tac. apply reads_nav.
  - unfold diagnostics_page. pres_tac. apply reads_nav.
  - unfold users_page. pres_tac; [|apply reads_nav]. intros st. unfold on_users, list_users, sbind.
    destruct (load_users (a_users st)) as [f [us|e]] eqn:F; right; simpl; by rewrite F.
  - unfold audit_page. pres_tac. apply reads_nav.
  - unfold alarms_page. pres_tac. apply reads_nav.
Qed.
End Same.

#[local] Existing Instance only_loads_preorder.

(** C33: The pages give a browser no more and no less than the REST API: a caller
    who is not allowed is sent to the login page or the dashboard and changes
    nothing; a page that only shows changes nothing; and a form that changes
    accounts or alarms leaves the gateway exactly as the API request of the
    same name does, audit entry included, however that request ends. *)
Theorem pages_match_api `{Host} (fleet_status sntp_status : option bool) q c v s u us :
  session_user c v = Ok u -> snd (load_users (a_users s)) = Ok us ->
  (forall user, authorised s c v (page_permission q) user ->
     match api_of q with
     | Some q' => required_permission q' = page_permission q /\
                  fst (page fleet_status sntp_status q c v s) = fst (protected q' c v s)
     | None => only_loads s (fst (page fleet_status sntp_status q c v s))
     end) /\
  ((forall user, ~ authorised s c v (page_permission q) user) ->
     exists s' url, page fleet_status sntp_status q c v s = (s', Ok (Redirect url)) /\ url ∈ ["/ui/login"; "/ui/dashboard"] /\ only_loads s s').
Proof.
  intros U L. destruct (redirect_cases (page_permission q) c v s u us U L) as [(user & A & -> & R)|(s' & url & R & V & O & N)]; split.
  - intros user' A'. unfold page. rewrite (sbind_ok _ _ _ _ _ R). destruct (api_of q) as [q'|] eqn:Q.
    + assert (P : required_permission q' = page_permission q) by (destruct q; simpl in Q; try done; by injection Q as <-). split; [done|].
      rewrite (page_route_same fleet_status sntp_status q q' c v user (set_users (fst (load_users (a_users s))) s) Q U (migrated_load _)).
      unfold protected. rewrite P, (sbind_ok _ _ _ _ _ (authorised_passes _ _ _ _ _ A)). unfold sbind.
      simpl. by destruct (route q' user v _) as [? []].
    + etransitivity; [right; reflexivity|]. by apply reads_pages.
  - intros F. by destruct (F user).
  - intros user A. by destruct (N user).
  - intros _. exists s', url. unfold page. by rewrite (sbind_ok _ _ _ _ _ R).
Qed.

#[local] Instance demo_web_host : Host := demo_host.
Lemma pages_match_api_witness :
  authorised demo_api as_admin demo_env "user:manage" "admin" /\
  fst (page None None (PSetRole "admin" "operator") as_admin demo_env demo_api) =
  fst (protected (QSetRole "admin" "operator") as_admin demo_env demo_api).
Proof.
  assert (A : authorised demo_api as_admin demo_env "user:manage" "admin").
  { split; [by vm_compute|]. eexists _, _. split; [by vm_compute|]. split; by vm_compute. }
  split; [exact A|].
  exact (proj2 (proj1 (pages_match_api None None (PSetRole "admin" "operator") as_admin demo_env demo_api (Some "admin")
    [("admin", MkAccount "secret" "admin")] eq_refl eq_refl) "admin" A)).
Defined.
