(* ===== verification/ConfigUi.v ===== *)
(** * The configuration pages (src/xedge/api/config_ui.py)

    The tree of forms over the YAML file: core sections, drivers, their tag
    groups and tags, assets and their parameters, the broker's users, bulk tag
    import and the raw editor.  Every route loads the file, changes the tree it
    got and hands it to the one save path, [save_full_config].  The loaded
    document is a tree: a node the source changes in place is put back where it
    was found. *)

From Stdlib Require Import Ascii Floats.SpecFloat.
From S2P Require Import Prelude PyText PyCsv PyFloat PyDict PyTime Connectivity Pipeline Alarms Assets Supervisor AuditLog Config ApiAuth RestApi SchemaForms WebUi.
Local Open Scope string_scope.
Local Open Scope list_scope.
Local Open Scope Z_scope.

Definition KNOWN_DRIVER_TYPES : list string :=
  ["modbus_tcp"; "modbus_rtu_tcp"; "modbus_rtu_serial"; "opcua_client"; "bacnet_ip"; "bacnet_mstp"; "ethernet_ip"; "mqtt_subscriber";
   "snmp_client"; "snmp_trap_receiver"; "loopback"].
Definition SKIP_ID : list string := ["id"].
Definition SKIP_ID_AND_TAGS : list string := ["id"; "tags"].
Definition SKIP_ID_AND_PARAMETERS : list string := ["id"; "parameters"].
Definition CORE_SECTIONS : dict string :=
  [("logging", "Logging"); ("watchdog", "Watchdog"); ("northbound", "Northbound (MQTT)"); ("opcua_server", "OPC UA Server");
   ("mqtt_broker", "MQTT Broker"); ("smtp", "SMTP"); ("snmp_agent", "SNMP Agent"); ("snmp_notify", "SNMP TRAP/INFORM");
   ("store", "Store & Forward"); ("config_management", "Config Management"); ("api", "REST API / Web UI"); ("tls", "TLS");
   ("tracing", "Tracing"); ("metrics", "Metrics"); ("rate_limit", "Rate Limiting"); ("fleet", "Fleet Management"); ("alarms", "Alarms")].
Definition core_section_skip (section : string) : list string :=
  if String.eqb section "mqtt_broker" then ["users"; "publish_acl"; "subscribe_acl"]
  else if String.eqb section "smtp" then ["alarm_notifications"; "scheduled_reports"]
  else if String.eqb section "snmp_notify" then ["destinations"]
  else if String.eqb section "alarms" then ["rules"]
  else [].

(** ** Nodes of the document *)

(** Mapping operations on a value of unknown shape. *)
Definition as_dict (j : json) : res (dict json) := match j with JDict d => Ok d | _ => Raise AttributeError end.
Definition append_to (j x : json) : res json := match j with JList l => Ok (JList (l ++ [x])) | _ => Raise AttributeError end.
Definition setdefault (k : string) (v : json) (d : dict json) : dict json := match dict_get k d with Some _ => d | None => d ++ [(k, v)] end.
Definition item (k : string) (d : dict json) : res json := match dict_get k d with Some v => Ok v | None => Raise KeyError end.
Definition get_or (k : string) (dflt : json) (d : dict json) : json := default dflt (dict_get k d).
(** [any(x.get(key) == value for x in l)] and [[x for x in l if x.get(key) != value]] *)
Fixpoint any_is (key value : string) (l : list json) : res bool :=
  match l with
  | [] => Ok false
  | x :: t => let* v := json_get key JNull x in if json_is_str v value then Ok true else any_is key value t
  end.
Fixpoint reject (key value : string) (l : list json) : res (list json) :=
  match l with
  | [] => Ok []
  | x :: t => let* v := json_get key JNull x in let* r := reject key value t in Ok (if json_is_str v value then r else x :: r)
  end.
(** Where the first entry with the id is, and the entry. *)
Fixpoint find_id (id : string) (l : list json) (i : nat) : res (nat * dict json) :=
  match l with
  | [] => Raise ConfigNotFoundError
  | e :: t =>
      let* v := json_get "id" JNull e in
      if json_is_str v id then let* d := as_dict e in Ok (i, d) else find_id id t (S i)
  end.
Definition find_child (key id : string) (parent : dict json) : res (nat * dict json) :=
  let* l := json_iter (get_or key (JList []) parent) in find_id id l 0.
Definition find_driver (config : dict json) (driver_id : string) := find_child "drivers" driver_id config.
Definition find_tag_group (driver_entry : dict json) (group_id : string) := find_child "tag_groups" group_id driver_entry.
Definition find_tag (group_entry : dict json) (tag_id : string) := find_child "tags" tag_id group_entry.
Definition find_asset (config : dict json) (asset_id : string) := find_child "assets" asset_id config.
(** The parent after its child at [i] was changed in place. *)
Definition put_child (key : string) (i : nat) (e parent : dict json) : dict json :=
  match dict_get key parent with Some (JList l) => dict_set key (JList (<[i := JDict e]> l)) parent | _ => parent end.
(** A driver and one of its tag groups. *)
Definition find_group_in (config : dict json) (driver_id group_id : string) : res ((nat * dict json) * (nat * dict json)) :=
  let* d := find_driver config driver_id in let* g := find_tag_group (snd d) group_id in Ok (d, g).
Definition put_group (config : dict json) (d : nat * dict json) (j : nat) (group : dict json) : dict json :=
  put_child "drivers" (fst d) (put_child "tag_groups" j group (snd d)) config.

(** ** Saving form data *)

Fixpoint contains (needle s : string) : bool :=
  match strip_prefix needle s with
  | Some _ => true
  | None => match s with EmptyString => false | String _ t => contains needle t end
  end.
(** [key in j] for a string key *)
Definition json_in (key : string) (j : json) : res bool :=
  match j with
  | JDict d => Ok (dict_mem key d)
  | JList l => Ok (existsb (fun x => json_is_str x key) l)
  | JStr s => Ok (contains key s)
  | _ => Raise TypeError
  end.
Definition merge_loop (merge : schema -> json -> dict json -> res (dict json)) (prior_value : json) :=
  fix go (props : list (string * schema)) (new_value : dict json) : res (dict json) :=
    match props with
    | [] => Ok new_value
    | (n, p) :: t =>
        if is_object p then
          let* nested_prior := json_get n JNull prior_value in
          match nested_prior, dict_get n new_value with
          | JDict _, Some (JDict nested_new) => let* m := merge p nested_prior nested_new in go t (dict_set n (JDict m) new_value)
          | _, _ => go t new_value
          end
        else if s_secret p && negb (dict_mem n new_value) then
          let* present := json_in n prior_value in
          if (present : bool) then let* v := json_item n prior_value in go t (dict_set n v new_value) else go t new_value
        else go t new_value
    end.
Fixpoint merge_preserving_absent_secrets (s : schema) (prior_value : json) (new_value : dict json) : res (dict json) :=
  merge_loop merge_preserving_absent_secrets prior_value (s_properties s) new_value.
Definition replace_editable_fields (target : dict json) (s : schema) (new_fields : dict json) (skip : list string) : dict json :=
  dict_update (fold_left (fun t n => if bool_decide (n ∈ skip) then t else dict_del n t) (map fst (s_properties s)) target) new_fields.

(** [schema["properties"][name]] and [schema["items"]] *)
Definition prop (n : string) (s : schema) : res schema :=
  match find (fun np => String.eqb n (fst np)) (s_properties s) with Some np => Ok (snd np) | None => Raise KeyError end.
Definition items (s : schema) : res schema := match s_items s with Some i => Ok i | None => Raise KeyError end.

(** ** Bulk import: tags keyed by id *)

(** Equality of two dictionary keys; a list or mapping is no key. *)
Definition float_is_int (f : pfloat) (z : Z) : bool :=
  match f with
  | S754_zero _ => z =? 0
  | S754_finite neg m e =>
      let m := if neg then Zneg m else Zpos m in if 0 <=? e then m * 2 ^ e =? z else m =? z * 2 ^ (- e)
  | _ => false
  end.
Definition num_of_key (j : json) : option num :=
  match j with JNum n => Some n | JBool b => Some (NInt (if b then 1 else 0)) | _ => None end.
Definition key_eq (a b : json) : bool :=
  match a, b with
  | JStr x, JStr y => String.eqb x y
  | JNull, JNull => true
  | _, _ =>
      match num_of_key a, num_of_key b with
      | Some (NInt x), Some (NInt y) => x =? y
      | Some (NInt x), Some (NFloat f) | Some (NFloat f), Some (NInt x) => float_is_int f x
      | Some (NFloat f), Some (NFloat g) => feqb f g
      | _, _ => false
      end
  end.
Definition hashable (j : json) : bool := match j with JList _ | JDict _ => false | _ => true end.
Fixpoint by_id_set (k t : json) (m : list (json * json)) : list (json * json) :=
  match m with [] => [(k, t)] | (k', t') :: r => if key_eq k k' then (k', t) :: r else (k', t') :: by_id_set k t r end.
Fixpoint by_id_add (id_of : json -> res json) (l : list json) (m : list (json * json)) : res (list (json * json)) :=
  match l with
  | [] => Ok m
  | t :: r =>
      let* k := id_of t in
      raise_if negb (hashable k) with TypeError; by_id_add id_of r (by_id_set k t m)
  end.
Definition upsert_tags (current : json) (new_tags : list json) : res (list json) :=
  let* l := json_iter current in
  let* m := by_id_add (json_get "id" JNull) l [] in
  let* m := by_id_add (json_item "id") new_tags m in Ok (map snd m).

(** ** Replies *)

Inductive ui_error := Invalid (e : exn) | Exists_ (id : string) | UnknownType (t : string) | UnknownSection (s : string) | NotAMapping.
Inductive config_body :=
  | BRoot
  | BSection (section label : string) (fields : list FieldDescriptor)
  | BBrokerUsers (usernames : list json)
  | BDriverNew (driver_types : list string) (id_value type_value : string)
  | BDriverEdit (driver_id : string) (driver_type enabled : json) (fields : list FieldDescriptor) (tag_groups : json)
  | BTagGroupNew (driver_id id_value : string)
  | BTagGroupEdit (driver_id : string) (group_id : json) (fields : list FieldDescriptor) (tags : json)
  | BTagNew (driver_id group_id id_value : string)
  | BTagEdit (driver_id group_id : string) (tag_id : json) (fields : list FieldDescriptor)
  | BAssetNew (id_value name_value : string)
  | BAssetEdit (asset_id : string) (fields : list FieldDescriptor) (parameters : json)
  | BParameterNew (asset_id : string) (available_tag_refs : list string)
  | BAdvanced (document : dict json + string).
Inductive config_web :=
  | CRedirect (url : string)
  | CPage (drivers assets : json) (can_manage_users can_view_audit_log : bool) (error : option ui_error) (success : bool) (b : config_body)
  | CValidation (status_code : Z) (valid : bool) (error : option ui_error)
  | CCsv (filename text : string).

Section Pages.
(** The schema files, and the JSON and YAML parsers. *)
Context `{Host} (core_schema : schema) (driver_type_schema : string -> res schema) (parse_json parse_yaml : string -> res json).
Local Abbreviation M := (SR api).

Definition full_config (s : api) : res (dict json) :=
  match a_config s with
  | None => Ok empty_config
  | Some doc => let* loaded := doc in Ok (match loaded with JDict d => d | _ => empty_config end)
  end.
Definition load_config : M (dict json) := let! s := sget id in slift (full_config s).
Definition require_read (c : caller) (v : Env) : M (option string) := require_permission_redirect "config:read" c v.
Definition require_write (c : caller) (v : Env) : M (option string) := require_permission_redirect "config:write" c v.
Definition config_nav (c : caller) (v : Env) : M (bool * bool) :=
  let! session := resolve_session c v in
  let! role := match session with Some (_, u) => on_users (get_role u) | None => sret None end in
  sret (has_permission role "user:manage", has_permission role "audit:read").
Definition render (c : caller) (v : Env) (error : option ui_error) (success : bool) (b : config_body) : M config_web :=
  let! current := load_config in
  let! n := config_nav c v in
  sret (CPage (get_or "drivers" (JList []) current) (get_or "assets" (JList []) current) (fst n) (snd n) error success b).

(** [try: m except exc as e: return str(e)], for the errors that are pages. *)
Definition catching (caught : exn) (r : res unit) : M (option ui_error) := fun s =>
  (s, match r with Ok _ => Ok None | Raise e => if decide (e = caught) then Ok (Some (Invalid e)) else Raise e end).
(** Validate, write the file, record the write. *)
Definition save_full_config (new_config : dict json) (c : caller) (v : Env) : M (option ui_error) :=
  let! error := catching ConfigValidationError (Config.validate h_schema_errors h_py_str new_config) in
  match error with
  | Some e => sret (Some e)
  | None =>
      let! _ := smodify (set_config (Some (Ok (JDict new_config)))) in
      let! session := resolve_session c v in
      let! _ := match session with Some (_, u) => audit_append v u "config.write" None | None => sret tt end in
      sret None
  end.
Definition type_text (ty : json) : string := match ty with JStr n => n | _ => h_py_str ty end.
Definition validate_driver_section (ty : json) (config tag_groups : json) : res (option ui_error) :=
  if negb (h_has_schema (type_text ty)) then Ok (Some (UnknownType (type_text ty))) else
  let* _ := driver_type_schema (type_text ty) in
  Ok (if bool_decide (h_section_errors (type_text ty) config tag_groups = []) then None else Some (Invalid ConfigValidationError)).
(** [error = validate(...); if error is None: error = save(...)] *)
Definition validate_then_save (ty config tag_groups : json) (new_config : dict json) (c : caller) (v : Env) : M (option ui_error) :=
  let! error := slift (validate_driver_section ty config tag_groups) in
  match error with Some e => sret (Some e) | None => save_full_config new_config c v end.
Definition is_none {A} (o : option A) : bool := match o with None => true | Some _ => false end.

(** The checks every route starts with. *)
Definition reading (c : caller) (v : Env) (k : M config_web) : M config_web :=
  let! r := require_read c v in match r with Some url => sret (CRedirect url) | None => k end.
Definition writing (c : caller) (v : Env) (k : M config_web) : M config_web :=
  let! r := require_write c v in match r with Some url => sret (CRedirect url) | None => k end.
(** [try: r except ConfigNotFoundError: return render(root, error)] *)
Definition or_not_found {A} (c : caller) (v : Env) (r : res A) (k : A -> M config_web) : M config_web :=
  match r with
  | Ok a => k a
  | Raise e => if decide (e = ConfigNotFoundError) then render c v (Some (Invalid e)) false BRoot else sraise e
  end.

(** ** Core sections *)

Definition config_root (c : caller) (v : Env) : M config_web := reading c v (render c v None false BRoot).
Definition core_section_form (section : string) (c : caller) (v : Env) : M config_web :=
  reading c v (
    match dict_get section CORE_SECTIONS with
    | None => render c v (Some (UnknownSection section)) false BRoot
    | Some label =>
        let! section_schema := slift (prop section core_schema) in
        let! current := load_config in
        let! fields := slift (build_object_fields section_schema (get_or section (JDict []) current) (core_section_skip section) "") in
        render c v None false (BSection section label fields)
    end).
Definition core_section_save (section : string) (form : dict string) (c : caller) (v : Env) : M config_web :=
  writing c v (
    let! section_schema := slift (prop section core_schema) in
    let! current := load_config in
    let skip := core_section_skip section in
    let! new_section := slift (unflatten h_parse_float section_schema form skip) in
    let! new_section := slift (merge_preserving_absent_secrets section_schema (get_or section (JDict []) current) new_section) in
    let! target := slift (as_dict (get_or section (JDict []) current)) in
    let current := dict_set section (JDict (replace_editable_fields target section_schema new_section skip)) current in
    let! error := save_full_config current c v in
    let! label := slift (match dict_get section CORE_SECTIONS with Some l => Ok l | None => Raise KeyError end) in
    let! fields := slift (build_object_fields section_schema (JDict new_section) skip "") in
    render c v error (is_none error) (BSection section label fields)).

(** ** Broker users *)

Definition usernames (l : list json) : res (list json) := mapM_res (json_get "username" JNull) l.
Definition mqtt_broker_users_page (c : caller) (v : Env) : M config_web :=
  reading c v (
    let! current := load_config in
    let! broker := slift (as_dict (get_or "mqtt_broker" (JDict []) current)) in
    let! names := slift (let* l := json_iter (get_or "users" (JList []) broker) in usernames l) in
    render c v None false (BBrokerUsers names)).
Definition mqtt_broker_users_create (username password : string) (c : caller) (v : Env) : M config_web :=
  writing c v (
    let! current := load_config in
    let! broker := slift (as_dict (get_or "mqtt_broker" (JDict []) current)) in
    let users := get_or "users" (JList []) broker in
    let! l := slift (json_iter users) in
    let! taken := slift (any_is "username" username l) in
    if (taken : bool) then let! names := slift (usernames l) in render c v (Some (Exists_ username)) false (BBrokerUsers names) else
    let! users' := slift (append_to users (JDict [("username", JStr username); ("password", JStr password)])) in
    let! error := save_full_config (dict_set "mqtt_broker" (JDict (dict_set "users" users' broker)) current) c v in
    match error with
    | Some e => let! names := slift (usernames l) in render c v (Some e) false (BBrokerUsers names)
    | None => sret (CRedirect "/ui/config/mqtt-broker/users")
    end).
Definition mqtt_broker_users_delete (username : string) (c : caller) (v : Env) : M config_web :=
  writing c v (
    let! current := load_config in
    let! broker := slift (as_dict (get_or "mqtt_broker" (JDict []) current)) in
    let! l := slift (let* l := json_iter (get_or "users" (JList []) broker) in reject "username" username l) in
    let! _ := save_full_config (dict_set "mqtt_broker" (JDict (dict_set "users" (JList l) broker)) current) c v in
    sret (CRedirect "/ui/config/mqtt-broker/users")).

(** ** Drivers *)

Definition config_schema_of (entry : dict json) : res schema :=
  let* ty := item "type" entry in let* t := driver_type_schema (type_text ty) in prop "config" t.
Definition driver_new_form (c : caller) (v : Env) : M config_web :=
  reading c v (render c v None false (BDriverNew KNOWN_DRIVER_TYPES "" "")).
Definition new_driver (id type : string) : json :=
  JDict [("id", JStr id); ("type", JStr type); ("enabled", JBool true); ("config", JDict []); ("tag_groups", JList [])].
Definition driver_new_submit (id type : string) (c : caller) (v : Env) : M config_web :=
  writing c v (
    let! current := load_config in
    let drivers := get_or "drivers" (JList []) current in
    let! l := slift (json_iter drivers) in
    let! taken := slift (any_is "id" id l) in
    let again := fun e => render c v (Some e) false (BDriverNew KNOWN_DRIVER_TYPES id type) in
    if (taken : bool) then again (Exists_ id) else
    if negb (bool_decide (type ∈ KNOWN_DRIVER_TYPES)) then again (UnknownType type) else
    let! drivers' := slift (append_to drivers (new_driver id type)) in
    let! error := save_full_config (dict_set "drivers" drivers' current) c v in
    match error with Some e => again e | None => sret (CRedirect ("/ui/config/drivers/" ++ id)) end).
Definition driver_page (driver_id : string) (entry : dict json) (enabled : json) (config : json) (error : option ui_error) (success : bool)
    (c : caller) (v : Env) : M config_web :=
  let! ty := slift (item "type" entry) in
  let! config_schema := slift (config_schema_of entry) in
  let! fields := slift (build_object_fields config_schema config [] "") in
  render c v error success (BDriverEdit driver_id ty enabled fields (get_or "tag_groups" (JList []) entry)).
Definition driver_form (driver_id : string) (c : caller) (v : Env) : M config_web :=
  reading c v (
    let! current := load_config in
    or_not_found c v (find_driver current driver_id) (fun d =>
      let entry := snd d in
      driver_page driver_id entry (get_or "enabled" (JBool true) entry) (get_or "config" (JDict []) entry) None false c v)).
(** The driver's settings the form describes. *)
Definition form_config (entry : dict json) (form : dict string) : res (dict json) :=
  let* config_schema := config_schema_of entry in
  let* new_config := unflatten h_parse_float config_schema form [] in
  merge_preserving_absent_secrets config_schema (get_or "config" (JDict []) entry) new_config.
Definition driver_save (driver_id : string) (form : dict string) (c : caller) (v : Env) : M config_web :=
  writing c v (
    let! current := load_config in
    or_not_found c v (find_driver current driver_id) (fun d =>
      let '(i, entry) := d in
      let! new_config := slift (form_config entry form) in
      let enabled := JBool (dict_mem "enabled" form) in
      let entry' := dict_set "config" (JDict new_config) (dict_set "enabled" enabled entry) in
      let! ty := slift (item "type" entry) in
      let! error := validate_then_save ty (JDict new_config) (get_or "tag_groups" (JList []) entry')
                      (put_child "drivers" i entry' current) c v in
      driver_page driver_id entry' enabled (JDict new_config) error (is_none error) c v)).
Definition driver_validate (driver_id : string) (form : dict string) (c : caller) (v : Env) : M config_web :=
  let! r := require_read c v in
  match r with
  | Some _ => sret (CValidation 403 false (Some (Invalid PermissionError)))
  | None =>
      let! current := load_config in
      match find_driver current driver_id with
      | Raise e => if decide (e = ConfigNotFoundError) then sret (CValidation 404 false (Some (Invalid e))) else sraise e
      | Ok (_, entry) =>
          let! new_config := slift (form_config entry form) in
          let! ty := slift (item "type" entry) in
          let! error := slift (validate_driver_section ty (JDict new_config) (get_or "tag_groups" (JList []) entry)) in
          sret (CValidation 200 (is_none error) error)
      end
  end.
Definition driver_delete (driver_id : string) (c : caller) (v : Env) : M config_web :=
  writing c v (
    let! current := load_config in
    or_not_found c v (find_driver current driver_id) (fun d =>
      let entry := snd d in
      let! l := slift (let* l := json_iter (get_or "drivers" (JList []) current) in reject "id" driver_id l) in
      let! error := save_full_config (dict_set "drivers" (JList l) current) c v in
      match error with
      | Some e => driver_page driver_id entry (get_or "enabled" (JBool true) entry) (get_or "config" (JDict []) entry) (Some e) false c v
      | None => sret (CRedirect "/ui/config")
      end)).

(** ** Tag groups *)

Definition group_schema_of (entry : dict json) : res schema :=
  let* ty := item "type" entry in let* t := driver_type_schema (type_text ty) in let* g := prop "tag_groups" t in items g.
Definition tag_schema_of (entry : dict json) : res schema :=
  let* g := group_schema_of entry in let* t := prop "tags" g in items t.
Definition group_page (driver_id : string) (group_id : json) (entry group : dict json) (error : option ui_error) (success : bool)
    (c : caller) (v : Env) : M config_web :=
  let! group_schema := slift (group_schema_of entry) in
  let! fields := slift (build_object_fields group_schema (JDict group) SKIP_ID_AND_TAGS "") in
  render c v error success (BTagGroupEdit driver_id group_id fields (get_or "tags" (JList []) group)).
Definition tag_group_new_form (driver_id : string) (c : caller) (v : Env) : M config_web :=
  reading c v (render c v None false (BTagGroupNew driver_id "")).
Definition new_group (id : string) : json := JDict [("id", JStr id); ("scan_rate_ms", JNum (NInt 1000)); ("tags", JList [])].
Definition tag_group_new_submit (driver_id id : string) (c : caller) (v : Env) : M config_web :=
  writing c v (
    let! current := load_config in
    or_not_found c v (find_driver current driver_id) (fun d =>
      let '(i, entry) := d in
      let groups := get_or "tag_groups" (JList []) entry in
      let! l := slift (json_iter groups) in
      let! taken := slift (any_is "id" id l) in
      if (taken : bool) then render c v (Some (Exists_ id)) false (BTagGroupNew driver_id id) else
      let! groups' := slift (append_to groups (new_group id)) in
      let! _ := save_full_config (put_child "drivers" i (dict_set "tag_groups" groups' entry) current) c v in
      sret (CRedirect ("/ui/config/drivers/" ++ driver_id ++ "/tag-groups/" ++ id)))).
Definition tag_group_form (driver_id group_id : string) (c : caller) (v : Env) : M config_web :=
  reading c v (
    let! current := load_config in
    or_not_found c v (find_group_in current driver_id group_id) (fun dg =>
      group_page driver_id (JStr group_id) (snd (fst dg)) (snd (snd dg)) None false c v)).
Definition tag_group_save (driver_id group_id : string) (form : dict string) (c : caller) (v : Env) : M config_web :=
  writing c v (
    let! current := load_config in
    or_not_found c v (find_group_in current driver_id group_id) (fun dg =>
      let '((i, entry), (j, group)) := dg in
      let! group_schema := slift (group_schema_of entry) in
      let! new_fields := slift (unflatten h_parse_float group_schema form SKIP_ID_AND_TAGS) in
      let group' := replace_editable_fields group group_schema new_fields SKIP_ID_AND_TAGS in
      let entry' := put_child "tag_groups" j group' entry in
      let! ty := slift (item "type" entry) in
      let! error := validate_then_save ty (get_or "config" (JDict []) entry') (get_or "tag_groups" (JList []) entry')
                      (put_child "drivers" i entry' current) c v in
      group_page driver_id (get_or "id" (JStr group_id) group') entry' group' error (is_none error) c v)).
Definition tag_group_delete (driver_id group_id : string) (c : caller) (v : Env) : M config_web :=
  writing c v (
    let! current := load_config in
    or_not_found c v (find_driver current driver_id) (fun d =>
      let '(i, entry) := d in
      let original := get_or "tag_groups" (JList []) entry in
      let! l := slift (let* l := json_iter original in reject "id" group_id l) in
      let! error := save_full_config (put_child "drivers" i (dict_set "tag_groups" (JList l) entry) current) c v in
      match error with
      | Some e =>
          let entry' := dict_set "tag_groups" original entry in
          driver_page driver_id entry' (get_or "enabled" (JBool true) entry') (get_or "config" (JDict []) entry') (Some e) false c v
      | None => sret (CRedirect ("/ui/config/drivers/" ++ driver_id))
      end)).

(** ** Tags *)

Definition tags_export_csv (driver_id group_id : string) (c : caller) (v : Env) : M config_web :=
  reading c v (
    let! current := load_config in
    or_not_found c v (find_group_in current driver_id group_id) (fun dg =>
      let! tag_schema := slift (tag_schema_of (snd (fst dg))) in
      let! tags := slift (json_iter (get_or "tags" (JList []) (snd (snd dg)))) in
      let! text := slift (tags_to_csv h_float_repr h_py_str tags tag_schema) in
      sret (CCsv (driver_id ++ "_" ++ group_id ++ "_tags.csv") text))).
(** [filename.lower().endswith(".json")] *)
Definition is_json_name (filename : string) : bool :=
  match rpartition "." (lower filename) with Some (_, ext) => String.eqb ext "json" | None => false end.
(** The uploaded file as tags, or the message that it is malformed. *)
Definition parse_upload (filename : string) (content : res string) (tag_schema : schema) : res (list json + ui_error) :=
  let r := let* text := content in
           if is_json_name filename then tags_from_json (parse_json text)
           else rmap (map JDict) (tags_from_csv h_parse_float text tag_schema) in
  match r with
  | Ok l => Ok (inl l)
  | Raise e => if decide (e = TagBulkParseError \/ e = UnicodeDecodeError) then Ok (inr (Invalid e)) else Raise e
  end.
Definition tags_import_submit (driver_id group_id filename : string) (content : res string) (c : caller) (v : Env) : M config_web :=
  writing c v (
    let! current := load_config in
    or_not_found c v (find_group_in current driver_id group_id) (fun dg =>
      let '((i, entry), (j, group)) := dg in
      let! tag_schema := slift (tag_schema_of entry) in
      let! parsed := slift (parse_upload filename content tag_schema) in
      match parsed with
      | inr e => group_page driver_id (get_or "id" (JStr group_id) group) entry group (Some e) false c v
      | inl new_tags =>
          let! candidate := slift (upsert_tags (get_or "tags" (JList []) group) new_tags) in
          let group' := dict_set "tags" (JList candidate) group in
          let entry' := put_child "tag_groups" j group' entry in
          let! ty := slift (item "type" entry) in
          let! invalid := slift (validate_driver_section ty (get_or "config" (JDict []) entry) (get_or "tag_groups" (JList []) entry')) in
          match invalid with
          | Some e => group_page driver_id (get_or "id" (JStr group_id) group) entry group (Some e) false c v
          | None =>
              let! error := save_full_config (put_child "drivers" i entry' current) c v in
              group_page driver_id (get_or "id" (JStr group_id) group') entry' group' error (is_none error) c v
          end
      end)).
Definition tag_new_form (driver_id group_id : string) (c : caller) (v : Env) : M config_web :=
  reading c v (render c v None false (BTagNew driver_id group_id "")).
Definition tag_new_submit (driver_id group_id id : string) (c : caller) (v : Env) : M config_web :=
  writing c v (
    let! current := load_config in
    or_not_found c v (find_group_in current driver_id group_id) (fun dg =>
      let '((i, entry), (j, group)) := dg in
      let tags := get_or "tags" (JList []) group in
      let! l := slift (json_iter tags) in
      let! taken := slift (any_is "id" id l) in
      if (taken : bool) then render c v (Some (Exists_ id)) false (BTagNew driver_id group_id id) else
      let! tags' := slift (append_to tags (JDict [("id", JStr id)])) in
      let! _ := save_full_config (put_group current (i, entry) j (dict_set "tags" tags' group)) c v in
      sret (CRedirect ("/ui/config/drivers/" ++ driver_id ++ "/tag-groups/" ++ group_id ++ "/tags/" ++ id)))).
Definition tag_page (driver_id group_id : string) (tag_id : json) (entry tag : dict json) (error : option ui_error) (success : bool)
    (c : caller) (v : Env) : M config_web :=
  let! tag_schema := slift (tag_schema_of entry) in
  let! fields := slift (build_object_fields tag_schema (JDict tag) SKIP_ID "") in
  render c v error success (BTagEdit driver_id group_id tag_id fields).
Definition find_tag_in (config : dict json) (driver_id group_id tag_id : string) :=
  let* dg := find_group_in config driver_id group_id in let* t := find_tag (snd (snd dg)) tag_id in Ok (dg, t).
Definition tag_form (driver_id group_id tag_id : string) (c : caller) (v : Env) : M config_web :=
  reading c v (
    let! current := load_config in
    or_not_found c v (find_tag_in current driver_id group_id tag_id) (fun dgt =>
      tag_page driver_id group_id (JStr tag_id) (snd (fst (fst dgt))) (snd (snd dgt)) None false c v)).
Definition tag_save (driver_id group_id tag_id : string) (form : dict string) (c : caller) (v : Env) : M config_web :=
  writing c v (
    let! current := load_config in
    or_not_found c v (find_tag_in current driver_id group_id tag_id) (fun dgt =>
      let '(((i, entry), (j, group)), (k, tag)) := dgt in
      let! tag_schema := slift (tag_schema_of entry) in
      let! new_fields := slift (unflatten h_parse_float tag_schema form SKIP_ID) in
      let tag' := replace_editable_fields tag tag_schema new_fields SKIP_ID in
      let entry' := put_child "tag_groups" j (put_child "tags" k tag' group) entry in
      let! ty := slift (item "type" entry) in
      let! error := validate_then_save ty (get_or "config" (JDict []) entry') (get_or "tag_groups" (JList []) entry')
                      (put_child "drivers" i entry' current) c v in
      tag_page driver_id group_id (get_or "id" (JStr tag_id) tag') entry' tag' error (is_none error) c v)).
Definition tag_delete (driver_id group_id tag_id : string) (c : caller) (v : Env) : M config_web :=
  writing c v (
    let! current := load_config in
    or_not_found c v (find_group_in current driver_id group_id) (fun dg =>
      let '((i, entry), (j, group)) := dg in
      let original := get_or "tags" (JList []) group in
      let! l := slift (let* l := json_iter original in reject "id" tag_id l) in
      let! error := save_full_config (put_group current (i, entry) j (dict_set "tags" (JList l) group)) c v in
      match error with
      | Some e =>
          let group' := dict_set "tags" original group in
          group_page driver_id (JStr group_id) (put_child "tag_groups" j group' entry) group' (Some e) false c v
      | None => sret (CRedirect ("/ui/config/drivers/" ++ driver_id ++ "/tag-groups/" ++ group_id))
      end)).

(** ** Assets *)

Definition asset_entry_schema : res schema := let* a := prop "assets" core_schema in items a.
Definition asset_new_form (c : caller) (v : Env) : M config_web := reading c v (render c v None false (BAssetNew "" "")).
Definition new_asset (id name : string) : json :=
  JDict [("id", JStr id); ("name", JStr name); ("enabled", JBool true); ("parameters", JList [])].
Definition asset_new_submit (id name : string) (c : caller) (v : Env) : M config_web :=
  writing c v (
    let! current := load_config in
    let assets := get_or "assets" (JList []) current in
    let! l := slift (json_iter assets) in
    let! taken := slift (any_is "id" id l) in
    if (taken : bool) then render c v (Some (Exists_ id)) false (BAssetNew id name) else
    let! assets' := slift (append_to assets (new_asset id name)) in
    let! error := save_full_config (dict_set "assets" assets' current) c v in
    match error with
    | Some e => render c v (Some e) false (BAssetNew id name)
    | None => sret (CRedirect ("/ui/config/assets/" ++ id))
    end).
Definition asset_page (asset_id : string) (entry : dict json) (error : option ui_error) (success : bool) (c : caller) (v : Env) : M config_web :=
  let! s := slift asset_entry_schema in
  let! fields := slift (build_object_fields s (JDict entry) SKIP_ID_AND_PARAMETERS "") in
  render c v error success (BAssetEdit asset_id fields (get_or "parameters" (JList []) entry)).
Definition asset_form (asset_id : string) (c : caller) (v : Env) : M config_web :=
  reading c v (
    let! current := load_config in
    or_not_found c v (find_asset current asset_id) (fun a => asset_page asset_id (snd a) None false c v)).
Definition asset_save (asset_id : string) (form : dict string) (c : caller) (v : Env) : M config_web :=
  writing c v (
    let! current := load_config in
    or_not_found c v (find_asset current asset_id) (fun a =>
      let '(i, entry) := a in
      let! s := slift asset_entry_schema in
      let! new_fields := slift (unflatten h_parse_float s form SKIP_ID_AND_PARAMETERS) in
      let entry' := replace_editable_fields entry s new_fields SKIP_ID_AND_PARAMETERS in
      let! error := save_full_config (put_child "assets" i entry' current) c v in
      asset_page asset_id entry' error (is_none error) c v)).
Definition asset_delete (asset_id : string) (c : caller) (v : Env) : M config_web :=
  writing c v (
    let! current := load_config in
    let! l := slift (let* l := json_iter (get_or "assets" (JList []) current) in reject "id" asset_id l) in
    let! _ := save_full_config (dict_set "assets" (JList l) current) c v in
    sret (CRedirect "/ui/config")).
(** The tags the asset does not reference yet, sorted. *)
Definition available_tag_refs (current : dict json) (parameters : list json) : res (list string) :=
  let* referenced := mapM_res (json_get "tag_ref" JNull) parameters in
  raise_if negb (forallb hashable referenced) with TypeError;
  let* refs := json_tag_refs h_py_str (get_or "drivers" (JList []) current) in
  Ok (py_sorted String.leb (List.filter (fun r => negb (existsb (fun j => json_is_str j r) referenced)) (remove_dups refs))).
Definition asset_parameter_new_form (asset_id : string) (c : caller) (v : Env) : M config_web :=
  reading c v (
    let! current := load_config in
    or_not_found c v (find_asset current asset_id) (fun a =>
      let! ps := slift (json_iter (get_or "parameters" (JList []) (snd a))) in
      let! refs := slift (available_tag_refs current ps) in
      render c v None false (BParameterNew asset_id refs))).
Definition new_parameter (form : dict string) : json :=
  let given := fun k => match dict_get k form with Some (String _ _ as x) => [(k, JStr x)] | _ => [] end in
  JDict ([("tag_ref", JStr (default "" (dict_get "tag_ref" form))); ("store", JBool (dict_mem "store" form))] ++ given "alias" ++ given "unit").
Definition asset_parameter_new_submit (asset_id : string) (form : dict string) (c : caller) (v : Env) : M config_web :=
  writing c v (
    let! current := load_config in
    or_not_found c v (find_asset current asset_id) (fun a =>
      let '(i, entry) := a in
      let tag_ref := default "" (dict_get "tag_ref" form) in
      let parameters := get_or "parameters" (JList []) entry in
      let! l := slift (json_iter parameters) in
      let! taken := slift (any_is "tag_ref" tag_ref l) in
      let again := fun e => let! refs := slift (available_tag_refs current l) in render c v (Some e) false (BParameterNew asset_id refs) in
      if (taken : bool) then again (Exists_ tag_ref) else
      let! parameters' := slift (append_to parameters (new_parameter form)) in
      let! error := save_full_config (put_child "assets" i (dict_set "parameters" parameters' entry) current) c v in
      match error with Some e => again e | None => sret (CRedirect ("/ui/config/assets/" ++ asset_id)) end)).
Definition asset_parameter_delete (asset_id tag_ref : string) (c : caller) (v : Env) : M config_web :=
  writing c v (
    let! current := load_config in
    or_not_found c v (find_asset current asset_id) (fun a =>
      let '(i, entry) := a in
      let! l := slift (let* l := json_iter (get_or "parameters" (JList []) entry) in reject "tag_ref" tag_ref l) in
      let! _ := save_full_config (put_child "assets" i (dict_set "parameters" (JList l) entry) current) c v in
      sret (CRedirect ("/ui/config/assets/" ++ asset_id)))).

(** ** The raw editor *)

Definition advanced_editor (c : caller) (v : Env) : M config_web :=
  reading c v (let! current := load_config in render c v None false (BAdvanced (inl current))).
Definition advanced_editor_submit (yaml_text : string) (c : caller) (v : Env) : M config_web :=
  writing c v (
    match parse_yaml yaml_text with
    | Raise e => if decide (e = YAMLError) then render c v (Some (Invalid e)) false (BAdvanced (inr yaml_text)) else sraise e
    | Ok (JDict new_config) =>
        let! error := save_full_config new_config c v in
        render c v error (is_none error) (BAdvanced (inr yaml_text))
    | Ok _ => render c v (Some NotAMapping) false (BAdvanced (inr yaml_text))
    end).

(** ** Dispatch *)

Inductive config_request :=
  | CRoot | CSectionForm (section : string) | CSectionSave (section : string) (form : dict string)
  | CBrokerUsers | CBrokerUserCreate (username password : string) | CBrokerUserDelete (username : string)
  | CDriverNew | CDriverCreate (id type : string) | CDriverForm (driver_id : string) | CDriverSave (driver_id : string) (form : dict string)
  | CDriverValidate (driver_id : string) (form : dict string) | CDriverDelete (driver_id : string)
  | CGroupNew (driver_id : string) | CGroupCreate (driver_id id : string) | CGroupForm (driver_id group_id : string)
  | CGroupSave (driver_id group_id : string) (form : dict string) | CGroupDelete (driver_id group_id : string)
  | CTagsExport (driver_id group_id : string) | CTagsImport (driver_id group_id filename : string) (content : res string)
  | CTagNew (driver_id group_id : string) | CTagCreate (driver_id group_id id : string) | CTagForm (driver_id group_id tag_id : string)
  | CTagSave (driver_id group_id tag_id : string) (form : dict string) | CTagDelete (driver_id group_id tag_id : string)
  | CAssetNew | CAssetCreate (id name : string) | CAssetForm (asset_id : string) | CAssetSave (asset_id : string) (form : dict string)
  | CAssetDelete (asset_id : string) | CParameterNew (asset_id : string) | CParameterCreate (asset_id : string) (form : dict string)
  | CParameterDelete (asset_id tag_ref : string) | CAdvanced | CAdvancedSave (yaml_text : string).
Definition config_page (q : config_request) (c : caller) (v : Env) : M config_web :=
  match q with
  | CRoot => config_root c v
  | CSectionForm x => core_section_form x c v
  | CSectionSave x f => core_section_save x f c v
  | CBrokerUsers => mqtt_broker_users_page c v
  | CBrokerUserCreate u p => mqtt_broker_users_create u p c v
  | CBrokerUserDelete u => mqtt_broker_users_delete u c v
  | CDriverNew => driver_new_form c v
  | CDriverCreate i t => driver_new_submit i t c v
  | CDriverForm d => driver_form d c v
  | CDriverSave d f => driver_save d f c v
  | CDriverValidate d f => driver_validate d f c v
  | CDriverDelete d => driver_delete d c v
  | CGroupNew d => tag_group_new_form d c v
  | CGroupCreate d i => tag_group_new_submit d i c v
  | CGroupForm d g => tag_group_form d g c v
  | CGroupSave d g f => tag_group_save d g f c v
  | CGroupDelete d g => tag_group_delete d g c v
  | CTagsExport d g => tags_export_csv d g c v
  | CTagsImport d g n x => tags_import_submit d g n x c v
  | CTagNew d g => tag_new_form d g c v
  | CTagCreate d g i => tag_new_submit d g i c v
  | CTagForm d g t => tag_form d g t c v
  | CTagSave d g t f => tag_save d g t f c v
  | CTagDelete d g t => tag_delete d g t c v
  | CAssetNew => asset_new_form c v
  | CAssetCreate i n => asset_new_submit i n c v
  | CAssetForm a => asset_form a c v
  | CAssetSave a f => asset_save a f c v
  | CAssetDelete a => asset_delete a c v
  | CParameterNew a => asset_parameter_new_form a c v
  | CParameterCreate a f => asset_parameter_new_submit a f c v
  | CParameterDelete a t => asset_parameter_delete a t c v
  | CAdvanced => advanced_editor c v
  | CAdvancedSave y => advanced_editor_submit y c v
  end.

(** ** One write path *)

#[local] Existing Instance only_loads_preorder.
Local Abbreviation reads := (preserves only_loads).
(** The one effect of a save: the file and one audit entry. *)
Definition saved (c : caller) (v : Env) (new_config : dict json) (s s' : api) : Prop :=
  Config.validate h_schema_errors h_py_str new_config = Ok tt /\
  s' = fst ((let! _ := smodify (set_config (Some (Ok (JDict new_config)))) in
             let! session := resolve_session c v in
             match session with Some (_, u) => audit_append v u "config.write" None | None => sret tt end) s).
(** At most one save, of [new] with [P new], and reads around it. *)
Definition once (c : caller) (v : Env) (P : dict json -> Prop) {A} (m : M A) : Prop := forall s,
  only_loads s (fst (m s)) \/
  exists s1 s2 new, only_loads s s1 /\ saved c v new s1 s2 /\ P new /\ only_loads s2 (fst (m s)).

Lemma once_reads c v P {A} (m : M A) : reads m -> once c v P m.
Proof. intros R s. left. apply R. Qed.
Lemma once_after c v P {A B} (m : M A) (k : A -> M B) : reads m -> (forall a, once c v P (k a)) -> once c v P (sbind m k).
Proof.
  intros R K s. specialize (R s). unfold sbind. destruct (m s) as [s1 [a|e]]; simpl in R; [|by left].
  destruct (K a s1) as [O|(s2 & s3 & new & O & S & HP & O')]; [left; by etransitivity|].
  right. exists s2, s3, new. split; [by etransitivity|done].
Qed.
Lemma once_then c v P {A B} (m : M A) (k : A -> M B) : once c v P m -> (forall a, reads (k a)) -> once c v P (sbind m k).
Proof.
  intros O K s. specialize (O s). unfold sbind. destruct (m s) as [s1 [a|e]]; simpl in *; [|done].
  specialize (K a s1). destruct O as [O|(s2 & s3 & new & O & S & HP & O')]; [left; by etransitivity|].
  right. exists s2, s3, new. split; [done|]. split; [done|]. split; [done|]. by etransitivity.
Qed.
(** A continuation that only runs on what a pure step returned. *)
Lemma once_lift c v P {A B} (r : res A) (k : A -> M B) : (forall a, r = Ok a -> once c v P (k a)) -> once c v P (let! a := slift r in k a).
Proof. intros K. destruct r as [a|e]; [exact (K a eq_refl)|]. intros s. by left. Qed.
Lemma once_save c v (P : dict json -> Prop) new : P new -> once c v P (save_full_config new c v).
Proof.
  intros HP s. unfold save_full_config, catching, sbind at 1.
  destruct (Config.validate h_schema_errors h_py_str new) as [[]|e] eqn:V.
  - right. eexists s, _, new. split; [done|]. split; [split; [done|reflexivity]|]. split; [done|].
    unfold sbind at 1 4. simpl. unfold sbind. destruct (resolve_session c v _) as [s1 [[[t u]|]|e]]; simpl; [|by left|by left].
    destruct (audit_append v u "config.write" None s1) as [s2 [[]|e]]; by left.
  - destruct (decide (e = ConfigValidationError)); by left.
Qed.
Lemma once_validate_then_save c v (P : dict json -> Prop) ty cfg groups new : P new -> once c v P (validate_then_save ty cfg groups new c v).
Proof.
  intros HP. unfold validate_then_save. apply once_lift. intros [e|] _; [apply once_reads, pres_ret, _|by apply once_save].
Qed.

Lemma reads_role u : reads (on_users (get_role u)).
Proof.
  intros st. unfold on_users, get_role, sbind. destruct (load_users (a_users st)) as [f [us|e]] eqn:F; right; simpl; by rewrite F.
Qed.
Lemma reads_redirect p c v : reads (require_permission_redirect p c v).
Proof. unfold require_permission_redirect. pres_tac. apply reads_role. Qed.
Lemma reads_render c v e ok b : reads (render c v e ok b).
Proof. unfold render, load_config, config_nav. pres_tac. apply reads_role. Qed.
Ltac reads_tac := unfold or_not_found, driver_page, group_page, tag_page, asset_page, load_config;
  repeat first [apply reads_render | apply reads_redirect | pres_step].
Ltac once_tac := repeat first
  [ solve [apply once_reads; reads_tac]
  | apply once_lift; intros ? ?
  | apply once_then; [first [apply once_save | apply once_validate_then_save]|intros ?; solve [reads_tac]]
  | apply once_after; [solve [reads_tac]|intros ?]
  | match goal with |- once _ _ _ (match ?x with _ => _ end) => destruct x end ].

Lemma reads_tag_page d g t entry tag e ok c v : reads (tag_page d g t entry tag e ok c v).
Proof. reads_tac. Qed.
Lemma reads_driver_page d entry en cfg e ok c v : reads (driver_page d entry en cfg e ok c v).
Proof. reads_tac. Qed.

(** The requests that only show. *)
Definition only_shows (q : config_request) : bool :=
  match q with
  | CRoot | CSectionForm _ | CBrokerUsers | CDriverNew | CDriverForm _ | CDriverValidate _ _ | CGroupNew _ | CGroupForm _ _ | CTagsExport _ _
  | CTagNew _ _ | CTagForm _ _ _ | CAssetNew | CAssetForm _ | CParameterNew _ | CAdvanced => true
  | _ => false
  end.
Lemma show_reads q c v : only_shows q = true -> reads (config_page q c v).
Proof.
  destruct q; intros [=]; simpl.
  - unfold config_root, reading. reads_tac.
  - unfold core_section_form, reading. reads_tac.
  - unfold mqtt_broker_users_page, reading. reads_tac.
  - unfold driver_new_form, reading. reads_tac.
  - unfold driver_form, reading. reads_tac.
  - unfold driver_validate. reads_tac.
  - unfold tag_group_new_form, reading. reads_tac.
  - unfold tag_group_form, reading. reads_tac.
  - unfold tags_export_csv, reading. reads_tac.
  - unfold tag_new_form, reading. reads_tac.
  - unfold tag_form, reading. reads_tac.
  - unfold asset_new_form, reading. reads_tac.
  - unfold asset_form, reading. reads_tac.
  - unfold asset_parameter_new_form, reading. reads_tac.
  - unfold advanced_editor, reading. reads_tac.
Qed.
(** What the other requests do once the check let them in. *)
Definition write_body (q : config_request) (c : caller) (v : Env) (k : M config_web) : Prop := config_page q c v = writing c v k.
Lemma save_once q c v : only_shows q = false -> exists k, write_body q c v k /\ once c v (fun _ => True) k.
Proof.
  destruct q; intros [=]; simpl; (eexists; split; [reflexivity|]); unfold or_not_found; once_tac; done.
Qed.

Local Abbreviation in_step_ := (in_step h_sha256_hex h_canonical_json).
Lemma writing_cases c v P k s u us :
  session_user c v = Ok u -> snd (load_users (a_users s)) = Ok us -> once c v P k ->
  only_loads s (fst (writing c v k s)) \/
  exists user s1 s2 new, authorised s c v "config:write" user /\ u = Some user /\ only_loads s s1 /\ saved c v new s1 s2 /\ P new /\
    only_loads s2 (fst (writing c v k s)).
Proof.
  intros U L K. unfold writing, require_write.
  destruct (redirect_cases "config:write" c v s u us U L) as [(user & A & -> & R)|(s' & url & R & _ & O & _)].
  - rewrite (sbind_ok _ _ _ _ _ R). destruct (K (set_users (fst (load_users (a_users s))) s)) as [O|(s1 & s2 & new & O & S & HP & O')].
    + left. etransitivity; [right; reflexivity|done].
    + right. exists user, s1, s2, new. split_and!; try done. etransitivity; [right; reflexivity|done].
  - left. by rewrite (sbind_ok _ _ _ _ _ R).
Qed.
(** What a save leaves: the new file, one audit entry, nothing else. *)
Definition wrote (user : string) (new_config : dict json) (s s' : api) (n : Z) (es : list (string * string * dict json)) : Prop :=
  Config.validate h_schema_errors h_py_str new_config = Ok tt /\
  in_step_ (a_audit s') (n + 1) (es ++ [(user, "config.write", [])]) /\
  exists u, only_loads s (set_users u s) /\ s' = set_audit (a_audit s') (set_config (Some (Ok (JDict new_config))) (set_users u s)).
Lemma only_loads_users s s' : only_loads s s' -> exists u, only_loads s (set_users u s) /\ s' = set_users u s.
Proof. intros [-> | ->]; [exists (a_users s); split; [left|]; by destruct s|]. eexists. split; [right|]; reflexivity. Qed.

Lemma saved_wrote c v user new s s1 s2 s' n es :
  session_user c v = Ok (Some user) -> in_step_ (a_audit s) n es -> only_loads s s1 -> saved c v new s1 s2 -> only_loads s2 s' ->
  wrote user new s s' n es.
Proof.
  intros U I O [V E] O'. destruct (only_loads_users _ _ O) as (u1 & O1 & ->).
  pose proof (session_resolves c v _ (set_config (Some (Ok (JDict new))) (set_users u1 s)) U) as R.
  destruct (audit_append_step v user "config.write" None (set_config (Some (Ok (JDict new))) (set_users u1 s)) n es I) as (l & A & I').
  assert (E2 : s2 = set_audit l (set_config (Some (Ok (JDict new))) (set_users u1 s))).
  { rewrite E. unfold sbind at 1. simpl. unfold sbind. rewrite R. simpl. by rewrite A. }
  clear E. subst s2. split; [done|]. destruct O' as [-> | ->]; [split; [done|]; by exists u1|]. split; [done|].
  exists (fst (load_users u1)). split; [|by destruct s].
  destruct O1 as [O1|O1]; [|right; injection O1 as ->; by rewrite load_idem].
  right. apply (f_equal a_users) in O1. simpl in O1. by rewrite O1.
Qed.

(** C31: The pages change the configuration in one way only: whatever request
    arrives, either the gateway is as before, or the caller is a live session's
    user whose role may write the configuration, the file is a configuration
    that passed the validation, the log has one new entry naming that user, and
    nothing else changed.  The pages that show never write. *)
Theorem config_pages_write_discipline q c v s s' r n es u us :
  in_step_ (a_audit s) n es -> session_user c v = Ok u -> snd (load_users (a_users s)) = Ok us ->
  config_page q c v s = (s', r) ->
  only_loads s s' \/
  (only_shows q = false /\ exists user new_config, authorised s c v "config:write" user /\ wrote user new_config s s' n es).
Proof.
  intros I U L E. destruct (only_shows q) eqn:Q; [left; pose proof (show_reads q c v Q s) as R; by rewrite E in R|].
  destruct (save_once q c v Q) as (k & W & K). rewrite W in E.
  destruct (writing_cases c v _ k s u us U L K) as [O|(user & s1 & s2 & new & A & -> & O & S & _ & O')]; rewrite E in *; [by left|].
  right. split; [done|]. exists user, new. split; [done|]. by eapply saved_wrote.
Qed.
End Pages.

(** ** Nodes are edited in place *)

Definition is_id (id : string) (d : dict json) : bool := json_is_str (get_value "id" d) id.
Lemma find_id_spec id l : forall i j d,
  find_id id l i = Ok (j, d) <->
  exists pre post, l = pre ++ JDict d :: post /\ j = (i + length pre)%nat /\ is_id id d = true /\
    Forall (fun e => exists x, e = JDict x /\ is_id id x = false) pre.
Proof.
  induction l as [|e l IH]; intros i j d; cbn [find_id].
  { split; [done|]. intros (pre & post & E & _). by destruct pre. }
  destruct e as [| | | | |x]; cbn [json_get rbind];
    try (split; [done|]; intros (pre & post & E & _ & _ & F); destruct pre as [|y pre]; simpl in E; simplify_eq; apply Forall_cons in F as [(? & ? & _) _]; done).
  change (default JNull (dict_get "id" x)) with (get_value "id" x). fold (is_id id x). destruct (is_id id x) eqn:X; simpl.
  - split.
    + intros [= <- <-]. exists [], l. split_and!; auto with lia. 
    + intros (pre & post & E & -> & D & F). destruct pre as [|y pre]; simpl in E; simplify_eq; [simpl; by rewrite Nat.add_0_r|].
      apply Forall_cons in F as [(y & [= <-] & Y) _]. congruence.
  - rewrite IH. split.
    + intros (pre & post & -> & -> & D & F). exists (JDict x :: pre), post. split_and!; [done|simpl; lia|done|]. constructor; eauto.
    + intros (pre & post & E & -> & D & F). destruct pre as [|y pre]; simpl in E; simplify_eq; [congruence|]. apply Forall_cons in F as [_ F].
      exists pre, post. split_and!; [done|simpl; lia|done|done].
Qed.
Lemma find_id_skip id pre d e post : is_id id d = false -> is_id id e = false ->
  forall i, find_id id (pre ++ JDict d :: post) i = find_id id (pre ++ JDict e :: post) i.
Proof.
  intros D E. induction pre as [|x pre IH]; intros i; cbn [find_id app].
  - cbn [json_get rbind]. change (default JNull (dict_get "id" ?y)) with (get_value "id" y). fold (is_id id d). fold (is_id id e).
    by rewrite D, E.
  - destruct (json_get "id" JNull x); [|done]. simpl. destruct (json_is_str a id); [done|]. apply IH.
Qed.
Lemma find_id_items id l i j d : find_id id (map JStr l) i = Ok (j, d) -> False.
Proof. by destruct l. Qed.
Lemma find_child_spec key id p j d :
  find_child key id p = Ok (j, d) -> exists pre post, dict_get key p = Some (JList (pre ++ JDict d :: post)) /\ j = length pre /\ is_id id d = true /\
    Forall (fun e => exists x, e = JDict x /\ is_id id x = false) pre.
Proof.
  unfold find_child, get_or. destruct (dict_get key p) as [c|]; [|done]. simpl.
  destruct c as [| | |s|l|c]; simpl; try done.
  - intros E. exfalso. rewrite <- (map_map (fun c => String c "") JStr) in E. by eapply find_id_items.
  - intros (pre & post & -> & -> & D & F)%find_id_spec. by exists pre, post.
  - intros E. exfalso. by eapply find_id_items.
Qed.
Lemma is_id_unique id id' d : is_id id d = true -> is_id id' d = true -> id = id'.
Proof. unfold is_id, json_is_str. destruct (get_value "id" d); try done. intros ->%String.eqb_eq. by intros ->%String.eqb_eq. Qed.
Lemma is_id_other id id' d : is_id id d = true -> id' <> id -> is_id id' d = false.
Proof. intros D N. destruct (is_id id' d) eqn:E; [|done]. by destruct N; eapply is_id_unique. Qed.

(** A node put back under the same id is found there, and no other lookup changes. *)
Lemma find_put key id p j d e : find_child key id p = Ok (j, d) -> is_id id e = true ->
  find_child key id (put_child key j e p) = Ok (j, e) /\
  (forall id', id' <> id -> find_child key id' (put_child key j e p) = find_child key id' p) /\
  (forall k, k <> key -> dict_get k (put_child key j e p) = dict_get k p).
Proof.
  intros (pre & post & G & -> & D & F)%find_child_spec E. unfold put_child. rewrite G.
  assert (I : <[length pre := JDict e]> (pre ++ JDict d :: post) = pre ++ JDict e :: post).
  { replace (length pre) with (length pre + 0)%nat by lia. rewrite insert_app_r. done. }
  rewrite I. split; [|split].
  - unfold find_child, get_or. rewrite dict_get_set_eq. simpl. apply find_id_spec. by exists pre, post.
  - intros id' N. unfold find_child, get_or. rewrite dict_get_set_eq, G. simpl. apply find_id_skip; by eapply is_id_other.
  - intros k N. by apply dict_get_set_ne.
Qed.
Lemma is_id_get id d e : dict_get "id" e = dict_get "id" d -> is_id id e = is_id id d.
Proof. unfold is_id, get_value. by intros ->. Qed.

(** ** Form fields *)

Lemma dict_get_update {A} k (e : dict A) : forall d, dict_wf e ->
  dict_get k (dict_update d e) = match dict_get k e with Some v => Some v | None => dict_get k d end.
Proof.
  unfold dict_update, dict_wf. induction e as [|[j v] e IH]; intros d W; [done|]. simpl in *. apply NoDup_cons in W as [N W].
  rewrite IH by done. rewrite dict_get_set. destruct (decide (k = j)) as [->|]; [|done]. by rewrite (proj2 (dict_get_none j e) N).
Qed.
Lemma collect_wf value_of skip ps : forall result r, dict_wf result -> collect value_of skip ps result = Ok r -> dict_wf r.
Proof.
  induction ps as [|[n p] ps IH]; intros result r W; cbn [collect]; [by intros [= <-]|].
  case_bool_decide; [by apply IH|]. intros (v & _ & E)%rbind_ok. eapply IH; [|exact E]. destruct v; auto with xedge.
Qed.
Lemma unflatten_wf pf s form skip r : unflatten pf s form skip = Ok r -> dict_wf r.
Proof. destruct s. apply collect_wf, dict_wf_nil. Qed.
Definition editable (s : schema) (skip : list string) (k : string) : bool := bool_decide (k ∈ map fst (s_properties s)) && negb (bool_decide (k ∈ skip)).
Lemma get_pop_all (skip : list string) k (ns : list string) : forall target : dict json, dict_wf target ->
  dict_get k (fold_left (fun t n => if bool_decide (n ∈ skip) then t else dict_del n t) ns target) =
  if bool_decide (k ∈ ns) && negb (bool_decide (k ∈ skip)) then None else dict_get k target.
Proof.
  induction ns as [|n ns IH]; intros target W; simpl; [done|].
  rewrite IH by (destruct (bool_decide (n ∈ skip)); auto with xedge).
  destruct (decide (k = n)) as [->|N].
  - rewrite (bool_decide_eq_true_2 (n ∈ n :: ns)) by by left. simpl. destruct (bool_decide (n ∈ skip)); simpl; [by rewrite andb_false_r|].
    rewrite andb_true_r. destruct (bool_decide (n ∈ ns)); [done|]. rewrite dict_get_del by done. by rewrite decide_True.
  - replace (bool_decide (k ∈ n :: ns)) with (bool_decide (k ∈ ns)) by (apply bool_decide_ext; set_solver).
    destruct (bool_decide (k ∈ ns) && _); [done|]. destruct (bool_decide (n ∈ skip)); [done|]. rewrite dict_get_del by done. by rewrite decide_False.
Qed.
(** A save replaces exactly the editable fields, by what the form says. *)
Lemma replace_editable_get pf s form skip new_fields target k :
  dict_wf target -> unflatten pf s form skip = Ok new_fields ->
  dict_get k (replace_editable_fields target s new_fields skip) = if editable s skip k then dict_get k new_fields else dict_get k target.
Proof.
  intros W U. unfold replace_editable_fields. rewrite dict_get_update by by eapply unflatten_wf. rewrite get_pop_all by done.
  unfold editable. destruct (dict_get k new_fields) as [x|] eqn:G; [|by destruct (_ && _)].
  destruct (unflatten_keys pf s form skip new_fields k U) as [K1 K2]; [apply dict_get_elem; by eexists|].
  by rewrite bool_decide_eq_true_2, bool_decide_eq_false_2.
Qed.

(** ** Saving one node *)

Section Locality.
Context `{Host} (core_schema : schema) (driver_type_schema : string -> res schema) (parse_json parse_yaml : string -> res json).
#[local] Existing Instance only_loads_preorder.
Local Abbreviation in_step_ := (in_step h_sha256_hex h_canonical_json).

Lemma full_config_users u s : full_config (set_users u s) = full_config s.
Proof. done. Qed.
(** The file a handler loads is the one it found. *)
Lemma writing_load_cases c v P k s u us :
  session_user c v = Ok u -> snd (load_users (a_users s)) = Ok us ->
  (forall current, full_config s = Ok current -> once c v P (k current)) ->
  let m := writing c v (let! current := load_config in k current) in
  only_loads s (fst (m s)) \/
  exists user s1 s2 new, authorised s c v "config:write" user /\ u = Some user /\ only_loads s s1 /\ saved c v new s1 s2 /\ P new /\
    only_loads s2 (fst (m s)).
Proof.
  intros U L K. unfold writing, require_write.
  destruct (redirect_cases "config:write" c v s u us U L) as [(user & A & -> & R)|(s' & url & R & _ & O & _)].
  - simpl. rewrite (sbind_ok _ _ _ _ _ R). unfold load_config, sbind, sget, slift. simpl. rewrite full_config_users.
    destruct (full_config s) as [current|e]; [|left; by right].
    destruct (K current eq_refl (set_users (fst (load_users (a_users s))) s)) as [O|(s1 & s2 & new & O & S & HP & O')].
    + left. etransitivity; [right; reflexivity|done].
    + right. exists user, s1, s2, new. split_and!; try done. etransitivity; [right; reflexivity|done].
  - left. simpl. by rewrite (sbind_ok _ _ _ _ _ R).
Qed.
Lemma once_not_found c v P {A} (r : res A) (k : A -> SR api config_web) :
  (forall a, r = Ok a -> once c v P (k a)) -> once c v P (or_not_found c v r k).
Proof.
  intros K. destruct r as [a|e]; [by apply K|]. apply once_reads. unfold or_not_found.
  destruct (decide _); [apply reads_render|apply pres_raise, _].
Qed.
Lemma wrote_config user new s s' n es : wrote user new s s' n es -> full_config s' = Ok new.
Proof. intros (_ & _ & u & _ & ->). done. Qed.

Definition lookup_tag (config : dict json) (driver_id group_id tag_id : string) : res (dict json) :=
  rmap (fun dgt => snd (snd dgt)) (find_tag_in config driver_id group_id tag_id).
(** The tag under the ids replaced, in its group, in its driver. *)
Definition with_tag (cur : dict json) (i : nat) (entry : dict json) (j : nat) (group : dict json) (k : nat) (tag : dict json) : dict json :=
  put_child "drivers" i (put_child "tag_groups" j (put_child "tags" k tag group) entry) cur.

Lemma with_tag_local cur d g t i entry j group k tag tag' :
  find_tag_in cur d g t = Ok (((i, entry), (j, group)), (k, tag)) -> dict_get "id" tag' = dict_get "id" tag ->
  let new := with_tag cur i entry j group k tag' in
  lookup_tag new d g t = Ok tag' /\
  (forall d' g' t', (d', g', t') <> (d, g, t) -> lookup_tag new d' g' t' = lookup_tag cur d' g' t') /\
  (forall key, key <> "drivers" -> dict_get key new = dict_get key cur).
Proof.
  intros F Eid new. unfold find_tag_in, find_group_in in F.
  apply rbind_ok in F as ([[i0 entry0] [j0 group0]] & F & [t0 [FT E]]%rbind_ok).
  apply rbind_ok in F as ([i1 entry1] & FD & ([j1 group1] & FG & E')%rbind_ok). injection E' as -> -> -> ->. injection E as -> -> -> -> ->.
  cbn [fst snd] in *. unfold find_driver, find_tag_group, find_tag in *.
  pose proof (find_child_spec _ _ _ _ _ FT) as (_ & _ & _ & _ & IT & _). pose proof (find_child_spec _ _ _ _ _ FG) as (_ & _ & _ & _ & IG & _).
  pose proof (find_child_spec _ _ _ _ _ FD) as (_ & _ & _ & _ & ID & _).
  assert (IT' : is_id t tag' = true) by by rewrite (is_id_get t tag tag').
  destruct (find_put _ _ _ _ _ tag' FT IT') as (T1 & T2 & T3). set (group' := put_child "tags" k tag' group) in *.
  assert (IG' : is_id g group' = true) by by rewrite (is_id_get g group group') by by apply T3.
  destruct (find_put _ _ _ _ _ group' FG IG') as (G1 & G2 & G3). set (entry' := put_child "tag_groups" j group' entry) in *.
  assert (ID' : is_id d entry' = true) by by rewrite (is_id_get d entry entry') by by apply G3.
  destruct (find_put _ _ _ _ _ entry' FD ID') as (D1 & D2 & D3).
  unfold new, with_tag. fold group' entry'. unfold lookup_tag, find_tag_in, find_group_in, find_driver, find_tag_group, find_tag.
  split; [|split; [|done]].
  - rewrite D1. cbn [rbind snd]. rewrite G1. cbn [rbind snd]. by rewrite T1.
  - intros d' g' t' N. destruct (decide (d' = d)) as [->|Nd]; [|by rewrite D2].
    rewrite D1, FD. cbn [rbind snd]. destruct (decide (g' = g)) as [->|Ng].
    + rewrite G1, FG. cbn [rbind snd]. rewrite T2, ?FT by (intros ->; done).
      by destruct (find_child "tags" t' group) as [[]|].
    + rewrite G2 by done. destruct (find_child "tag_groups" g' entry) as [[m x]|]; [|done]. cbn [rbind snd].
      by destruct (find_child "tags" t' x) as [[]|].
Qed.

(** Saving a tag's form changes that tag and nothing else: if the file is
    written at all, the tag under the three ids has the form's values in its
    editable fields and its other fields, the id among them, as they were; every
    other tag is found as before and every other section is the same. *)
Theorem tag_save_local driver_id group_id tag_id form c v s s' r n es u us :
  in_step_ (a_audit s) n es -> session_user c v = Ok u -> snd (load_users (a_users s)) = Ok us ->
  (forall cur t, full_config s = Ok cur -> lookup_tag cur driver_id group_id tag_id = Ok t -> dict_wf t) ->
  tag_save driver_type_schema driver_id group_id tag_id form c v s = (s', r) ->
  only_loads s s' \/
  exists cur new tag tag' tag_schema fields,
    full_config s = Ok cur /\ full_config s' = Ok new /\
    lookup_tag cur driver_id group_id tag_id = Ok tag /\ lookup_tag new driver_id group_id tag_id = Ok tag' /\
    unflatten h_parse_float tag_schema form SKIP_ID = Ok fields /\
    (forall k, dict_get k tag' = if editable tag_schema SKIP_ID k then dict_get k fields else dict_get k tag) /\
    dict_get "id" tag' = dict_get "id" tag /\
    (forall d g t, (d, g, t) <> (driver_id, group_id, tag_id) -> lookup_tag new d g t = lookup_tag cur d g t) /\
    (forall k, k <> "drivers" -> dict_get k new = dict_get k cur).
Proof.
  intros I U L W E. unfold tag_save in E.
  set (P := fun new => exists cur i entry j group k tag ts fields, full_config s = Ok cur /\
    find_tag_in cur driver_id group_id tag_id = Ok (((i, entry), (j, group)), (k, tag)) /\
    unflatten h_parse_float ts form SKIP_ID = Ok fields /\
    new = with_tag cur i entry j group k (replace_editable_fields tag ts fields SKIP_ID)).
  match type of E with writing c v (let! x := load_config in @?k x) s = _ =>
    destruct (writing_load_cases c v P k s u us U L) as [O|(user & s1 & s2 & new & A & -> & O & S & HP & O')] end.
  - intros cur C. apply once_not_found. intros [[[i entry] [j group]] [k tag]] F. apply once_lift. intros ts HS. apply once_lift. intros fields HU.
    apply once_lift. intros ty HT. apply once_then; [|intros e; apply reads_tag_page].
    apply once_validate_then_save. exists cur, i, entry, j, group, k, tag, ts, fields. done.
  - left. by rewrite E in O.
  - right. rewrite E in O'. cbn [fst] in O'. pose proof (wrote_config _ _ _ _ _ _ (saved_wrote _ _ _ _ _ _ _ _ _ _ U I O S O')) as FC.
    destruct HP as (cur & i & entry & j & group & k & tag & ts & fields & C & F & HU & ->).
    assert (LT : lookup_tag cur driver_id group_id tag_id = Ok tag) by (unfold lookup_tag; by rewrite F).
    pose proof (replace_editable_get h_parse_float ts form SKIP_ID fields tag) as G. specialize (fun k => G k (W _ _ C LT) HU).
    assert (Gid : dict_get "id" (replace_editable_fields tag ts fields SKIP_ID) = dict_get "id" tag).
    { rewrite G. unfold editable. by rewrite andb_false_r. }
    destruct (with_tag_local cur _ _ _ _ _ _ _ _ _ _ F Gid) as (T1 & T2 & T3).
    exists cur, (with_tag cur i entry j group k (replace_editable_fields tag ts fields SKIP_ID)), tag.
    exists (replace_editable_fields tag ts fields SKIP_ID), ts, fields. split_and!; done.
Qed.
End Locality.

(** ** Secrets *)

Definition prop_named (n : string) (s : schema) : option schema := snd <$> find (fun np => String.eqb n (fst np)) (s_properties s).
(** The path leads to a secret property through object properties. *)
Fixpoint secret_at (path : list string) (s : schema) : bool :=
  match path with
  | [] => false
  | n :: rest =>
      match prop_named n s with
      | None => false
      | Some p => match rest with [] => negb (is_object p) && s_secret p | _ => is_object p && secret_at rest p end
      end
  end.
(** The submitted data has the mappings on the way but no value at the end. *)
Fixpoint blank_at (path : list string) (d : dict json) : bool :=
  match path with
  | [] => false
  | [n] => negb (dict_mem n d)
  | n :: rest => match dict_get n d with Some (JDict e) => blank_at rest e | _ => false end
  end.

Lemma prop_named_in n s p : prop_named n s = Some p -> (n, p) ∈ s_properties s.
Proof.
  unfold prop_named. destruct (find _ _) as [[m q]|] eqn:F; [|done]. intros [= <-]. apply find_some in F as [I E].
  apply String.eqb_eq in E. simpl in *. subst. by apply list_elem_of_In.
Qed.
Lemma merge_eq s prior new : merge_preserving_absent_secrets s prior new = merge_loop merge_preserving_absent_secrets prior (s_properties s) new.
Proof. by destruct s. Qed.
Lemma merge_loop_other f prior ps : forall new m n, n ∉ map fst ps -> merge_loop f prior ps new = Ok m -> dict_get n m = dict_get n new.
Proof.
  induction ps as [|[k p] ps IH]; intros new m n N E; cbn [merge_loop] in E; [by injection E as <-|]. simpl in N.
  assert (Nk : n <> k) by set_solver. assert (Nr : n ∉ map fst ps) by set_solver.
  destruct (is_object p).
  - apply rbind_ok in E as (np & _ & E). destruct np; try (by eapply IH). destruct (dict_get k new) as [[]|]; try (by eapply IH).
    apply rbind_ok in E as (x & _ & E). rewrite (IH _ _ _ Nr E). by apply dict_get_set_ne.
  - destruct (s_secret p && _); [|by eapply IH]. apply rbind_ok in E as ([] & _ & E); [|by eapply IH].
    apply rbind_ok in E as (x & _ & E). rewrite (IH _ _ _ Nr E). by apply dict_get_set_ne.
Qed.
(** What the merge leaves under one property. *)
Definition merged_value (p : schema) (prior : option json) (new : option json) (m : option json) : Prop :=
  if is_object p then
    match prior, new with
    | Some (JDict pd), Some (JDict nd) => exists x, merge_preserving_absent_secrets p (JDict pd) nd = Ok x /\ m = Some (JDict x)
    | _, _ => m = new
    end
  else m = match new with Some v => Some v | None => if s_secret p then prior else None end.
Lemma merge_loop_at pd ps : forall new m n p, NoDup (map fst ps) -> (n, p) ∈ ps ->
  merge_loop merge_preserving_absent_secrets (JDict pd) ps new = Ok m -> merged_value p (dict_get n pd) (dict_get n new) (dict_get n m).
Proof.
  induction ps as [|[k q] ps IH]; intros new m n p ND I E; [by inversion I|]. simpl in ND. apply NoDup_cons in ND as [N1 N2].
  apply elem_of_cons in I as [[= -> ->]|I].
  - unfold merged_value. cbn [merge_loop] in E. cbn [json_get json_in json_item rbind] in E. destruct (is_object q) eqn:O.
    + destruct (dict_get k pd) as [[]|] eqn:PV; simpl in E; try (by apply (merge_loop_other _ _ _ _ _ k N1) in E).
      destruct (dict_get k new) as [[]|] eqn:NV; try (apply (merge_loop_other _ _ _ _ _ k N1) in E; by rewrite E, NV).
      apply rbind_ok in E as (x & M & E). exists x. split; [done|]. rewrite (merge_loop_other _ _ _ _ _ k N1 E). by rewrite dict_get_set_eq.
    + destruct (s_secret q) eqn:S; simpl in E; [|apply (merge_loop_other _ _ _ _ _ k N1) in E; rewrite E; by destruct (dict_get k new)].
      unfold dict_mem in E. destruct (dict_get k new) eqn:NV; simpl in E; [apply (merge_loop_other _ _ _ _ _ k N1) in E; by rewrite E|].
      destruct (dict_get k pd) as [w|] eqn:PV; simpl in E; apply (merge_loop_other _ _ _ _ _ k N1) in E; rewrite E; [by rewrite dict_get_set_eq|done].
  - assert (Nk : n <> k) by (intros ->; apply N1, list_elem_of_fmap; by exists (k, p)).
    cbn [merge_loop] in E. cbn [json_get json_in json_item rbind] in E.
    assert (Set_ : forall x m', merge_loop merge_preserving_absent_secrets (JDict pd) ps (dict_set k x new) = Ok m' ->
      merged_value p (dict_get n pd) (dict_get n new) (dict_get n m')).
    { intros x m' E'. specialize (IH _ _ _ _ N2 I E'). by rewrite dict_get_set_ne in IH. }
    destruct (is_object q).
    + destruct (default JNull (dict_get k pd)); try (by eapply IH). destruct (dict_get k new) as [[]|]; try (by eapply IH).
      apply rbind_ok in E as (x & _ & E). by eapply Set_.
    + destruct (s_secret q && _); [|by eapply IH]. destruct (dict_mem k pd); [|by eapply IH].
      apply rbind_ok in E as (x & _ & E). by eapply Set_.
Qed.
Lemma merge_at s pd new m n p : wf_schema s = true -> prop_named n s = Some p ->
  merge_preserving_absent_secrets s (JDict pd) new = Ok m -> merged_value p (dict_get n pd) (dict_get n new) (dict_get n m).
Proof. rewrite merge_eq. intros W P. apply merge_loop_at; [by apply wf_schema_names|by apply prop_named_in]. Qed.

(** Leaving a password field blank keeps the stored secret: wherever a schema
    has a secret property, if the data read from the form has the mappings on
    the way to it and no value for it, the merged settings have the value the
    stored settings have; and a value the form does give is never replaced. *)
Theorem absent_secrets_kept path : forall s pd new m,
  wf_schema s = true -> merge_preserving_absent_secrets s (JDict pd) new = Ok m -> secret_at path s = true ->
  (blank_at path new = true -> forall w, get_path path (JDict pd) = Some w -> get_path path (JDict m) = Some w) /\
  (forall w, get_path path (JDict new) = Some w -> get_path path (JDict m) = Some w).
Proof.
  induction path as [|n rest IH]; intros s pd new m W M S; [done|]. cbn [secret_at] in S.
  destruct (prop_named n s) as [p|] eqn:PN; [|done]. pose proof (merge_at s pd new m n p W PN M) as V. unfold merged_value in V.
  destruct (wf_schema_prop s n p W (prop_named_in _ _ _ PN)) as [_ Wp]. cbn [get_path].
  destruct rest as [|k rest].
  - apply andb_true_iff in S as [O Sec]. apply negb_true_iff in O. rewrite O in V. rewrite V, Sec. cbn [blank_at get_path]. unfold dict_mem. split.
    + destruct (dict_get n new); [done|]. intros _ w. by destruct (dict_get n pd).
    + by destruct (dict_get n new).
  - apply andb_true_iff in S as [O S]. rewrite O in V.
    change (blank_at (n :: k :: rest) new) with (match dict_get n new with Some (JDict e) => blank_at (k :: rest) e | _ => false end).
    destruct (dict_get n new) as [[| | | | |nd]|] eqn:NV;
      try (split; [done|]; destruct (dict_get n pd) as [[]|]; rewrite V; done).
    destruct (dict_get n pd) as [[| | | | |pd']|] eqn:PV;
      try (split; [by cbn [get_path]; intros|by rewrite V]).
    destruct V as (x & Mx & ->). exact (IH p pd' nd x Wp Mx S).
Qed.

(** ** A gateway to try them on *)

#[local] Instance demo_config_host : Host := demo_host.
Definition array (s : schema) : schema := Schema (JStr "array") None None false None None JNull None JNull None [] [] (Some s).
Definition demo_driver_schema : schema :=
  object [] [("config", object [] [("auth", object [] [("user", leaf (JStr "string")); ("password", demo_secret_leaf)])]);
             ("tag_groups", array (object ["id"] [("id", leaf (JStr "string")); ("tags", array demo_tag_schema)]))].
Definition demo_types (t : string) : res schema := if String.eqb t "loopback" then Ok demo_driver_schema else Raise FileNotFoundError.
Definition demo_no_parser (t : string) : res json := Raise YAMLError.
Definition demo_tree (tag : dict json) : dict json :=
  [("schema_version", JStr "0.1");
   ("drivers", JList [JDict [("id", JStr "a"); ("type", JStr "loopback"); ("config", JDict []);
      ("tag_groups", JList [JDict [("id", JStr "g"); ("tags", JList [JDict [("id", JStr "u")]; JDict tag])]])]])].
Definition demo_old_tag : dict json := [("id", JStr "t"); ("address", JNum (NInt 1)); ("note", JStr "kept")].
Definition demo_ui : api := set_config (Some (Ok (JDict (demo_tree demo_old_tag)))) demo_api.
Definition demo_form : dict string := [("address", "7"); ("id", "evil"); ("scaling.scale", "")].
Definition demo_saved : api := Eval vm_compute in
  (tag_save (H := demo_host) demo_types "a" "g" "t" demo_form as_admin demo_env demo_ui).1.

Lemma config_pages_write_discipline_witness :
  only_loads demo_ui demo_saved \/
  (only_shows (CTagSave "a" "g" "t" demo_form) = false /\
   exists user new_config, authorised demo_ui as_admin demo_env "config:write" user /\ wrote user new_config demo_ui demo_saved 0 []).
Proof.
  eapply (config_pages_write_discipline (object [] []) demo_types demo_no_parser demo_no_parser (CTagSave "a" "g" "t" demo_form) as_admin demo_env
    demo_ui demo_saved _ 0 [] (Some "admin") [("admin", MkAccount "secret" "admin")]);
    [apply fresh_log_in_step|reflexivity|reflexivity|vm_compute; reflexivity].
Defined.
Lemma tag_save_local_witness :
  only_loads demo_ui demo_saved \/
  exists cur new, full_config demo_ui = Ok cur /\ full_config demo_saved = Ok new /\
    (forall d g t, (d, g, t) <> ("a", "g", "t") -> lookup_tag new d g t = lookup_tag cur d g t).
Proof.
  destruct (tag_save_local demo_types "a" "g" "t" demo_form as_admin demo_env demo_ui demo_saved
    (tag_save demo_types "a" "g" "t" demo_form as_admin demo_env demo_ui).2 0 [] (Some "admin")
    [("admin", MkAccount "secret" "admin")]) as [O|(cur & new & tag & tag' & ts & fs & C & N & _ & _ & _ & _ & _ & L & _)];
    [apply fresh_log_in_step|reflexivity|reflexivity| |vm_compute; reflexivity|by left|right; by exists cur, new].
  intros cur t [= <-] E. vm_compute in E. injection E as <-. apply (bool_decide_unpack _). by vm_compute.
Defined.
(** The form set the address; the id it also sent and the blank field were not used. *)
Example tag_save_example : full_config demo_saved = Ok (demo_tree [("id", JStr "t"); ("note", JStr "kept"); ("address", JNum (NInt 7))]).
Proof. by vm_compute. Qed.

Definition demo_config_schema : schema :=
  object [] [("auth", object [] [("user", leaf (JStr "string")); ("password", demo_secret_leaf)]); ("token", demo_secret_leaf)].
Definition demo_stored : dict json := [("auth", JDict [("user", JStr "u"); ("password", JStr "pw")]); ("token", JStr "tk")].
Lemma absent_secrets_kept_witness :
  get_path ["auth"; "password"] (JDict [("auth", JDict [("user", JStr "w"); ("password", JStr "pw")]); ("token", JStr "tk")]) = Some (JStr "pw").
Proof.
  apply (proj1 (absent_secrets_kept ["auth"; "password"] demo_config_schema demo_stored [("auth", JDict [("user", JStr "w")])]
    [("auth", JDict [("user", JStr "w"); ("password", JStr "pw")]); ("token", JStr "tk")] eq_refl eq_refl eq_refl) eq_refl). by vm_compute.
Defined.

(** Clearing the other fields of a nested object drops the object, and the
    secret in it with it, although its password field was left blank. *)
Example nested_secret_lost :
  (let* new := unflatten (fun _ => Raise ValueError) demo_config_schema [("auth.user", ""); ("auth.password", ""); ("token", "")] [] in
   merge_preserving_absent_secrets demo_config_schema (JDict demo_stored) new) = Ok [("token", JStr "tk")].
Proof. by vm_compute. Qed.
(** A form with text in a number field is a server error, and so is a section
    the schema does not have; neither writes. *)
Example bad_number_is_error :
  let '(s', r) := tag_save demo_types "a" "g" "t" [("address", "seven")] as_admin demo_env demo_ui in
  r = Raise ValueError /\ full_config s' = full_config demo_ui.
Proof. by vm_compute. Qed.
(** Posting to a section the navigation does not list saves it, and then fails. *)
Example unlisted_section_saved :
  let '(s', r) := core_section_save (object [] [("sntp", object [] [("server", leaf (JStr "string"))])]) "sntp" [("server", "pool")] as_admin demo_env demo_ui in
  r = Raise KeyError /\ full_config s' = Ok (demo_tree demo_old_tag ++ [("sntp", JDict [("server", JStr "pool")])]).
Proof. by vm_compute. Qed.
