(* ===== verification/FleetAgent.v ===== *)
(** * Fleet agent (src/xedge/fleet/agent.py)

    The device's side of fleet management: enrolment, heartbeats that pick up
    pushed configurations, and certificate rotation, and its composition with
    the manager's device port (FleetManager).  HTTP is an oracle for what each
    request came to; key generation, certificate parsing and the TLS context
    are parameters. *)

From Stdlib Require Import Ascii.
From S2P Require Import Prelude PyText PyFloat PyDict PyTime Config AuditLog FleetDb FleetRegistry FleetPush FleetAuth FleetManager.
Local Open Scope string_scope.
Local Open Scope list_scope.
Local Open Scope Z_scope.

(** The outcome of a request: a 2xx answer with what [response.json()] gives, a
    status [raise_for_status] rejects, or a transport failure. *)
Inductive http_outcome := Answered (body : res json) | Rejected (code : Z) | Unreachable.
(** [httpx.HTTPStatusError] is [HTTPException], other [httpx.HTTPError]s are
    [ConnectionError] here; [except (httpx.HTTPError, OSError)]. *)
Definition is_transport_error (e : exn) : bool :=
  match e with HTTPException _ | ConnectionError | OSError | TimeoutError | FileNotFoundError | PermissionError => true | _ => false end.
Definition response (o : http_outcome) : res json :=
  match o with Answered body => body | Rejected c => Raise (HTTPException c) | Unreachable => Raise ConnectionError end.

Record AgentConfig := MkAgentConfig {
  g_device_id : string;
  g_join_token : string;
  g_display_name : option string;
  g_heartbeat_interval : pfloat;
  (** [timedelta(days=cert_rotation_threshold_days)] *)
  g_rotation_threshold : res Z }.
(** [FleetAgentPaths]: what the four files hold. *)
Record AgentFiles := MkFiles { f_token : option string; f_cert : option string; f_key : option string; f_ca : option string }.
Record FleetAgentStatus := MkAgentStatus {
  s_registered : bool;
  s_heartbeat_interval : pfloat;
  s_last_heartbeat_at : option datetime;
  s_last_heartbeat_ok : option bool;
  s_last_error : option exn;
  s_last_config_apply : option (dict json);
  s_cert_not_after : option datetime }.
(** The agent: its files, the config file it writes, the shared status, the
    report owed to the manager and the identity of its TLS context. *)
Record agent := MkAgent {
  ag_files : AgentFiles;
  ag_config_file : option (res json);
  ag_status : FleetAgentStatus;
  ag_report : option (dict json);
  ag_identity : option (string * string * string) }.
Definition set_files (x : AgentFiles) (a : agent) : agent := MkAgent x (ag_config_file a) (ag_status a) (ag_report a) (ag_identity a).
Definition set_config_file (x : option (res json)) (a : agent) : agent := MkAgent (ag_files a) x (ag_status a) (ag_report a) (ag_identity a).
Definition set_status (x : FleetAgentStatus) (a : agent) : agent := MkAgent (ag_files a) (ag_config_file a) x (ag_report a) (ag_identity a).
Definition set_report (x : option (dict json)) (a : agent) : agent := MkAgent (ag_files a) (ag_config_file a) (ag_status a) x (ag_identity a).
Definition set_identity (x : option (string * string * string)) (a : agent) : agent := MkAgent (ag_files a) (ag_config_file a) (ag_status a) (ag_report a) x.
Definition write_key (x : string) (a : agent) : agent := set_files (MkFiles (f_token (ag_files a)) (f_cert (ag_files a)) (Some x) (f_ca (ag_files a))) a.
Definition write_cert (x : string) (a : agent) : agent := set_files (MkFiles (f_token (ag_files a)) (Some x) (f_key (ag_files a)) (f_ca (ag_files a))) a.
Definition write_ca (x : string) (a : agent) : agent := set_files (MkFiles (f_token (ag_files a)) (f_cert (ag_files a)) (f_key (ag_files a)) (Some x)) a.
Definition write_token (x : string) (a : agent) : agent := set_files (MkFiles (Some x) (f_cert (ag_files a)) (f_key (ag_files a)) (f_ca (ag_files a))) a.
Definition set_registered (s : FleetAgentStatus) : FleetAgentStatus :=
  MkAgentStatus true (s_heartbeat_interval s) (s_last_heartbeat_at s) (s_last_heartbeat_ok s) (s_last_error s) (s_last_config_apply s) (s_cert_not_after s).
Definition set_not_after (t : datetime) (s : FleetAgentStatus) : FleetAgentStatus :=
  MkAgentStatus (s_registered s) (s_heartbeat_interval s) (s_last_heartbeat_at s) (s_last_heartbeat_ok s) (s_last_error s) (s_last_config_apply s) (Some t).
Definition heartbeat_succeeded (now : datetime) (s : FleetAgentStatus) : FleetAgentStatus :=
  MkAgentStatus (s_registered s) (s_heartbeat_interval s) (Some now) (Some true) None (s_last_config_apply s) (s_cert_not_after s).
Definition heartbeat_failed (e : exn) (s : FleetAgentStatus) : FleetAgentStatus :=
  MkAgentStatus (s_registered s) (s_heartbeat_interval s) (s_last_heartbeat_at s) (Some false) (Some e) (s_last_config_apply s) (s_cert_not_after s).
Definition applied_config (r : dict json) (s : FleetAgentStatus) : FleetAgentStatus :=
  MkAgentStatus (s_registered s) (s_heartbeat_interval s) (s_last_heartbeat_at s) (s_last_heartbeat_ok s) (s_last_error s) (Some r) (s_cert_not_after s).
(** [FleetAgentStatus.connection_state] *)
Definition own_connection_state (now : datetime) (s : FleetAgentStatus) : res GatewayConnectionState :=
  classify_connection_state (s_last_heartbeat_at s) (s_heartbeat_interval s) now.

Class AgentHost := {
  (** [not_valid_after_utc] of a certificate, [build_mtls_client_context] *)
  not_valid_after : string -> res datetime;
  mtls_context : string -> string -> string -> res unit;
  (** the config validator, and the text of its errors *)
  agent_validate : dict json -> res unit;
  (** [config_path.write_text] *)
  write_config_file : dict json -> res unit;
  agent_error_text : exn -> string }.

(** [body[key]] as text *)
Definition str_item (key : string) (body : json) : res string :=
  let* v := json_item key body in match v with JStr t => Ok t | _ => Raise TypeError end.

Section Agent.
Context `{AgentHost} (config : AgentConfig).
Local Abbreviation M := (SR agent).

Definition already_enrolled (f : AgentFiles) : bool :=
  bool_decide (is_Some (f_token f)) && bool_decide (is_Some (f_cert f)) && bool_decide (is_Some (f_key f)) && bool_decide (is_Some (f_ca f)).
(** [_enroll] with the key pair [key] *)
Definition agent_enroll (key : string) (o : http_outcome) : M unit :=
  let! body := slift (response o) in
  let! _ := smodify (write_key key) in
  let! cert := slift (str_item "certificate_pem" body) in
  let! _ := smodify (write_cert cert) in
  let! ca := slift (str_item "ca_certificate_pem" body) in
  let! _ := smodify (write_ca ca) in
  let! token := slift (str_item "device_token" body) in
  smodify (write_token token).
(** [_ensure_enrolled] over the attempts made so far: [None] while it retries. *)
Fixpoint ensure_enrolled_loop (attempts : list (string * http_outcome)) : M (option unit) :=
  match attempts with
  | [] => sret None
  | (key, o) :: rest =>
      scatch (let! _ := agent_enroll key o in sret (Some tt))
        (fun e => if is_transport_error e then ensure_enrolled_loop rest else sraise e)
  end.
Definition ensure_enrolled (attempts : list (string * http_outcome)) : M (option unit) :=
  let! f := sget ag_files in if already_enrolled f then sret (Some tt) else ensure_enrolled_loop attempts.

Definition build_identity (f : AgentFiles) : res (string * string * string) :=
  match f_cert f, f_key f, f_ca f with
  | Some c, Some k, Some ca => let* _ := mtls_context c k ca in Ok (c, k, ca)
  | _, _, _ => Raise FileNotFoundError
  end.
(** [_read_text_if_present] *)
Definition read_text_if_present (file : option string) : option string :=
  match file with
  | None => None
  | Some text => if String.eqb (strip text) "" then None else Some (strip text)
  end.
(** [fleet_heartbeat_loop] between enrolment and the loop. *)
Definition start_session : M string :=
  let! _ := smodify (fun a => set_status (set_registered (ag_status a)) a) in
  let! f := sget ag_files in
  match read_text_if_present (f_token f) with
  | None => sraise RuntimeError
  | Some token =>
      let! t := slift (match f_cert f with Some c => not_valid_after c | None => Raise FileNotFoundError end) in
      let! _ := smodify (fun a => set_status (set_not_after t (ag_status a)) a) in
      let! i := slift (build_identity f) in
      let! _ := smodify (set_identity (Some i)) in
      sret token
  end.

Definition apply_report (version : json) (success : bool) (error : json) : dict json :=
  [("version", version); ("success", JBool success); ("error", error)].
(** [_apply_pending_config] *)
Definition apply_pending_config (pending_config : dict json) (version : json) : M (dict json) := fun a =>
  match agent_validate pending_config with
  | Ok _ =>
      match write_config_file pending_config with
      | Ok _ => (set_config_file (Some (Ok (JDict pending_config))) a, Ok (apply_report version true JNull))
      | Raise e => (a, Raise e)
      end
  | Raise ConfigValidationError => (a, Ok (apply_report version false (JStr (agent_error_text ConfigValidationError))))
  | Raise e => (a, Raise e)
  end.
(** What a heartbeat does with the body of a 2xx answer. *)
Definition heartbeat_body (body : res json) : M unit :=
  let! body := slift body in
  let! pending := slift (json_get "pending_config" JNull body) in
  match pending with
  | JNull => sret tt
  | JDict pending_config =>
      let! version := slift (json_item "pending_config_version" body) in
      let! report := apply_pending_config pending_config version in
      smodify (fun a => set_status (applied_config report (ag_status a)) (set_report (Some report) a))
  | _ => sraise AttributeError
  end.
(** [except (httpx.HTTPError, OSError)] around the heartbeat *)
Definition note_failure (e : exn) : M unit :=
  if is_transport_error e then smodify (fun a => set_status (heartbeat_failed e (ag_status a)) a) else sraise e.
(** The [try] of one heartbeat whose request came to [o]: [heartbeat_ok]. *)
Definition heartbeat_attempt (o : http_outcome) (now : datetime) : M bool :=
  match o with
  | Answered body =>
      let! _ := smodify (fun a => set_status (heartbeat_succeeded now (ag_status a)) (set_report None a)) in
      let! _ := scatch (heartbeat_body body) note_failure in sret true
  | Rejected code => let! _ := note_failure (HTTPException code) in sret false
  | Unreachable => let! _ := note_failure ConnectionError in sret false
  end.
Definition cert_needs_rotation (not_after now : datetime) : res bool :=
  let* threshold := g_rotation_threshold config in Ok (not_after - now <? threshold).
(** [_rotate_certificate] *)
Definition agent_rotate_certificate (key : string) (o : http_outcome) : M datetime :=
  let! body := slift (response o) in
  let! cert := slift (str_item "certificate_pem" body) in
  let! _ := smodify (write_key key) in
  let! _ := smodify (write_cert cert) in
  slift (not_valid_after cert).
(** The rotation of the certificate with the key [key], whose request came to [ro]. *)
Definition rotation (key : string) (ro : http_outcome) : M unit :=
  scatch (let! t := agent_rotate_certificate key ro in
          let! _ := smodify (fun a => set_status (set_not_after t (ag_status a)) a) in
          let! f := sget ag_files in
          let! i := slift (build_identity f) in
          smodify (set_identity (Some i)))
    (fun e => if is_transport_error e then sret tt else sraise e).
(** One iteration of the loop: the heartbeat came to [o], a rotation with the
    key [key], if it is due, to [ro]. *)
Definition heartbeat_iteration (o : http_outcome) (key : string) (ro : http_outcome) (now : datetime) : M unit :=
  let! ok := heartbeat_attempt o now in
  let! t := sget (fun a => s_cert_not_after (ag_status a)) in
  match t with
  | Some not_after =>
      let! due := slift (if (ok : bool) then cert_needs_rotation not_after now else Ok false) in
      if (due : bool) then rotation key ro else sret tt
  | None => sret tt
  end.
End Agent.

(** ** Agent and manager together *)

Definition heartbeat_reply (p : option (dict json * Z)) : json :=
  match p with
  | None => JDict [("pending_config", JNull); ("pending_config_version", JNull)]
  | Some (c, v) => JDict [("pending_config", JDict c); ("pending_config_version", JNum (NInt v))]
  end.
(** What the client sees of the manager's answer. *)
Definition over_http (r : res reply) : http_outcome :=
  match r with
  | Ok (RHeartbeat p) => Answered (Ok (heartbeat_reply p))
  | Ok (REnrolled token cert ca) =>
      Answered (Ok (JDict [("device_token", JStr token); ("certificate_pem", JStr cert); ("ca_certificate_pem", JStr ca)]))
  | Ok (RCertificate cert) => Answered (Ok (JDict [("certificate_pem", JStr cert)]))
  | Ok _ => Answered (Ok JNull)
  | Raise (HTTPException code) => Rejected code
  | Raise _ => Rejected 500
  end.

Section Exchange.
Context `{Database} `{TokenHash} `{Bcrypt} `{Authority} `{AgentHost} (config : AgentConfig).
(** One heartbeat of a device holding [token], answered by the manager; a
    rotation, if it is due, is made with the key and comes to the outcome [rot]. *)
Definition exchange (token version : string) (count : Z) (uptime : pfloat) (rot : string * http_outcome) (v : Env) (st : Manager * agent)
    : (Manager * agent) * res unit :=
  let '(m, a) := st in
  let '(m, r) := device_heartbeat (g_device_id config) ("Bearer " ++ token) (Some version) (Some count) (Some uptime) (ag_report a) v m in
  let '(a, x) := heartbeat_iteration config (over_http r) rot.1 rot.2 (e_now v) a in
  ((m, a), x).
(** A rotation that does not end the loop: it fails, or gives a certificate. *)
Definition settles (rot : string * http_outcome) : Prop := forall a, snd (rotation rot.1 rot.2 a) = Ok tt.
Lemma settles_unreachable key : settles (key, Unreachable).
Proof. by intros a. Qed.
Lemma settles_rotated key cert t : not_valid_after cert = Ok t -> (forall k ca, mtls_context cert k ca = Ok tt) ->
  settles (key, over_http (Ok (RCertificate cert))).
Proof.
  intros T C a. unfold rotation, scatch, agent_rotate_certificate, sbind, slift, smodify, sget, build_identity. simpl. rewrite T. simpl.
  destruct (f_ca (ag_files a)); simpl; [by rewrite C|done].
Qed.
Lemma rotation_keeps key ro a : let a' := fst (rotation key ro a) in
  ag_config_file a' = ag_config_file a /\ ag_report a' = ag_report a /\
  s_last_heartbeat_at (ag_status a') = s_last_heartbeat_at (ag_status a) /\ s_last_heartbeat_ok (ag_status a') = s_last_heartbeat_ok (ag_status a).
Proof.
  unfold rotation, scatch, agent_rotate_certificate, sbind, slift, smodify, sget, sret, sraise.
  destruct (response ro); [|by destruct (is_transport_error _)]. destruct (str_item _ _); [|by destruct (is_transport_error _)].
  destruct (not_valid_after _); [|by destruct (is_transport_error _)]. simpl. destruct (build_identity _); [done|by destruct (is_transport_error _)].
Qed.

Lemma substring_all s : String.substring 0 (String.length s) s = s.
Proof. induction s as [|c s IH]; [done|]. cbn [String.length String.substring]. by rewrite IH. Qed.
Lemma substring_app p s : String.substring (String.length p) (String.length (p ++ s) - String.length p) (p ++ s) = s /\ String.prefix p (p ++ s) = true.
Proof.
  induction p as [|c p [IH1 IH2]]; cbn [String.length String.append].
  - rewrite Nat.sub_0_r. split; [apply substring_all|by destruct s].
  - split; [exact IH1|]. simpl. by destruct (ascii_dec c c).
Qed.
Lemma bearer_value_token token : bearer_value ("Bearer " ++ token) = token.
Proof. unfold bearer_value. destruct (substring_app bearer_prefix token) as [S P]. unfold bearer_prefix in *. by rewrite P, S. Qed.
Lemma one_history_row db k d v :
  registry_ok db -> devices db !! k = Some d -> (length (List.filter (same_version k v) (config_history db)) <= 1)%nat.
Proof.
  intros OK L. destruct (ok_pending _ OK _ _ L) as (_ & S & _). unfold device_pushes, pushes_in in S.
  assert (NoDup (map ch_config_version (List.filter (fun h => String.eqb (ch_device_id h) k) (config_history db)))) as N.
  { rewrite map_map in S. match type of S with _ = ?r => replace (map ch_config_version _) with r by (by rewrite <- S) end. apply NoDup_seqZ. }
  clear S. induction (config_history db) as [|h l IH]; simpl in *; [lia|]. unfold same_version at 1.
  destruct (String.eqb_spec (ch_device_id h) k) as [E|E]; simpl; [|by apply IH]. simpl in N. apply NoDup_cons in N as [N1 N2].
  destruct (Z.eqb_spec (ch_config_version h) v) as [V|V]; simpl; [|by apply IH].
  assert (List.filter (same_version k v) l = []) as ->; [|simpl; lia].
  destruct (List.filter (same_version k v) l) as [|x t] eqn:F; [done|]. exfalso. apply N1.
  assert (In x (List.filter (same_version k v) l)) as [I X]%List.filter_In by (rewrite F; by left).
  unfold same_version in X. apply andb_true_iff in X as [X1 X2%Z.eqb_eq]. rewrite V, <- X2.
  apply list_elem_of_In, in_map, List.filter_In. by split.
Qed.

(** A report the agent may owe: none, or one with an integer version. *)
Definition report_ok (r : option (dict json)) : Prop :=
  match r with None => True | Some x => exists z, dict_get "version" x = Some (JNum (NInt z)) end.
Context (commits : forall a b, commit a b = Ok tt) (ints : forall z, bind_int (JNum (NInt z)) = Ok z).

Lemma report_applied_ok db k d r now :
  registry_ok db -> devices db !! k = Some d -> report_ok r ->
  exists w, match r with Some a => report_applied k a now db | None => Ok Ok end = Ok w /\
    forall db1, exists db2, w db1 = Ok db2 /\ devices db2 = devices db1.
Proof.
  intros OK L R. destruct r as [x|]; [|by exists Ok; split; [done|]; eauto]. destruct R as [z Z0]. unfold report_applied. rewrite Z0. simpl.
  rewrite ints. simpl. pose proof (one_history_row db k d z OK L) as One.
  destruct (List.filter _ _) as [|row [|? ?]]; simpl in One; [| |lia]; eexists; (split; [reflexivity|]); by eauto.
Qed.
Lemma exec_tmap {A B} (f : A -> B) (t : Tx A) db db' a : exec t db = (db', Ok a) -> exec (tmap f t) db = (db', Ok (f a)).
Proof. intros (w & T & W & C)%exec_ok. unfold exec, apply_writes, tmap. rewrite T. simpl. rewrite W. simpl. by rewrite C. Qed.
(** One heartbeat at the manager: the report is recorded, the pending config is
    handed over and cleared. *)
Lemma device_heartbeat_spec k token d r ver count uptime v db lo :
  registry_ok db -> devices db !! k = Some d -> verify_token k token db = Ok true -> report_ok r ->
  exists db' d', device_heartbeat k ("Bearer " ++ token) ver count uptime r v (MkManager db lo) =
      (MkManager db' lo, Ok (RHeartbeat ((fun c => (c, pending_config_version d)) <$> pending_config_json d))) /\
    registry_ok db' /\ devices db' !! k = Some d' /\ verify_token k token db' = Ok true /\ pending_config_json d' = None /\
    last_config_apply_json d' = match r with Some x => Some x | None => last_config_apply_json d end.
Proof.
  intros OK L T R. unfold device_heartbeat, require_device_token, run_query, ensure. unfold sbind at 1, sbind at 1. rewrite bearer_value_token. simpl. rewrite T. simpl.
  destruct (report_applied_ok db k d r (e_now v) OK L R) as (w & W & Wd).
  set (d1 := with_heartbeat (e_now v) ver count uptime r d). set (db1 := set_devices (<[k := d1]> (devices db)) db).
  destruct (Wd db1) as (db2 & W2 & D2).
  assert (exec (heartbeat k ver count uptime r (e_now v)) db = (db2, Ok tt)) as E1.
  { unfold exec, apply_writes, heartbeat. rewrite L, W. simpl. unfold update_device. rewrite L. simpl. fold d1 db1. rewrite W2. simpl. by rewrite commits. }
  assert (registry_ok db2) as OK2.
  { eapply (registry_ok_step (CHeartbeat k ver count uptime r (e_now v)) db db2 (Ok AUnit)); [done|]. exact (exec_tmap (fun _ => AUnit) _ _ _ _ E1). }
  assert (devices db2 !! k = Some d1) as L2 by (rewrite D2; apply lookup_insert_eq).
  set (d' := with_pending None (pending_config_version d) d1).
  unfold run_tx, sbind. simpl. rewrite E1. simpl.
  assert (verify_token k token db2 = Ok true) as T2.
  { revert T. unfold verify_token. by rewrite L, L2. }
  destruct (pending_config_json d) as [c|] eqn:P.
  - assert (exec (take_pending_config k) db2 = (set_devices (<[k := d']> (devices db2)) db2, Ok (Some (c, pending_config_version d)))) as E2.
    { unfold exec, apply_writes, take_pending_config. rewrite L2. simpl. rewrite P. unfold update_device. rewrite L2. simpl. by rewrite commits. }
    rewrite E2. eexists _, d'. split; [done|]. split; [|split; [apply lookup_insert_eq|split; [|split; [done|]]]].
    + eapply (registry_ok_step (CTakePendingConfig k)); [exact OK2|]. exact (exec_tmap AConfig _ _ _ _ E2).
    + revert T2. unfold verify_token. rewrite L2. simpl. by rewrite lookup_insert_eq.
    + by destruct r.
  - assert (exec (take_pending_config k) db2 = (db2, Ok None)) as E2.
    { unfold exec, apply_writes, take_pending_config. rewrite L2. simpl. rewrite P. simpl. by rewrite commits. }
    rewrite E2. exists db2, d1. split; [done|]. split; [done|]. split; [done|]. split; [done|]. split; [done|]. by destruct r.
Qed.

(** What a device whose validator answers [verdict] makes of a config. *)
Definition pushed_report (version : Z) (verdict : res unit) : dict json :=
  match verdict with
  | Ok _ => apply_report (JNum (NInt version)) true JNull
  | Raise e => apply_report (JNum (NInt version)) false (JStr (agent_error_text e))
  end.

(** One exchange on the agent's side, from what the manager answers. *)
Lemma exchange_spec token version count uptime rot v db lo a d th : settles rot ->
  registry_ok db -> devices db !! g_device_id config = Some d -> verify_token (g_device_id config) token db = Ok true ->
  report_ok (ag_report a) -> g_rotation_threshold config = Ok th ->
  (forall c, pending_config_json d = Some c ->
     (agent_validate c = Ok tt /\ write_config_file c = Ok tt) \/ agent_validate c = Raise ConfigValidationError) ->
  exists db' d' a', exchange token version count uptime rot v (MkManager db lo, a) = ((MkManager db' lo, a'), Ok tt) /\
    registry_ok db' /\ devices db' !! g_device_id config = Some d' /\ verify_token (g_device_id config) token db' = Ok true /\
    pending_config_json d' = None /\
    last_config_apply_json d' = match ag_report a with Some x => Some x | None => last_config_apply_json d end /\
    s_last_heartbeat_at (ag_status a') = Some (e_now v) /\ s_last_heartbeat_ok (ag_status a') = Some true /\
    ag_report a' = (fun c => pushed_report (pending_config_version d) (agent_validate c)) <$> pending_config_json d /\
    ag_config_file a' =
      match pending_config_json d with
      | Some c => match agent_validate c with Ok _ => Some (Ok (JDict c)) | Raise _ => ag_config_file a end
      | None => ag_config_file a
      end.
Proof.
  intros Rot OK L T R TH V. destruct (device_heartbeat_spec _ token d (ag_report a) (Some version) (Some count) (Some uptime) v db lo OK L T R)
    as (db' & d' & E & OK' & L' & T' & P' & A'). unfold exchange. rewrite E. simpl.
  unfold heartbeat_iteration, sbind, heartbeat_attempt, heartbeat_body, sbind, scatch, slift, smodify, sget, sret, cert_needs_rotation.
  rewrite TH. unfold apply_pending_config. exists db', d'.
  destruct (pending_config_json d) as [c|] eqn:P; simpl; [destruct (V c eq_refl) as [[V1 V2]|V1]; rewrite V1, ?V2; simpl|];
    (destruct (s_cert_not_after (ag_status a)) as [t|]; [destruct (t - e_now v <? th)|]); try (by eexists);
    match goal with |- context [rotation ?k ?o ?a1] =>
      pose proof (Rot a1) as E1; destruct (rotation_keeps k o a1) as (K1 & K2 & K3 & K4); destruct (rotation k o a1) as [a2 x] end;
    simpl in *; subst x; exists a2; by rewrite K1, K2, K3, K4.
Qed.

(** C16: A configuration pushed to a device of the operator's tenant reaches it
    in its next heartbeat: a valid one becomes the device's config file, one
    the device's validator rejects leaves the file as it was, and the heartbeat
    after that records the device's verdict, under the version the operator
    was given, at the manager; whether or not a rotation of the device's
    certificate was due in between. *)
Theorem pushed_config_reaches_device db lo a t d c who token ver n up rot1 rot2 v0 v1 v2 th :
  settles rot1 -> settles rot2 ->
  registry_ok db -> own_device t (g_device_id config) db = Some d -> verify_token (g_device_id config) token db = Ok true ->
  report_ok (ag_report a) -> g_rotation_threshold config = Ok th ->
  (agent_validate c = Ok tt /\ write_config_file c = Ok tt) \/ agent_validate c = Raise ConfigValidationError ->
  exists db1 st2 st3 version row,
    exec (queue_config t (g_device_id config) c who (e_now v0)) db = (db1, Ok version) /\
    exchange token ver n up rot1 v1 (MkManager db1 lo, a) = (st2, Ok tt) /\
    exchange token ver n up rot2 v2 st2 = (st3, Ok tt) /\
    ag_config_file (snd st3) = (match agent_validate c with Ok _ => Some (Ok (JDict c)) | Raise _ => ag_config_file a end) /\
    ag_report (snd st3) = None /\
    devices (m_db (fst st3)) !! g_device_id config = Some row /\ pending_config_json row = None /\
    last_config_apply_json row = Some (pushed_report version (agent_validate c)).
Proof.
  intros S1 S2 OK O T R TH V. destruct (queue_config_effect db t _ d c who (e_now v0) OK O commits) as (db1 & Q & OK1 & L1).
  apply own_device_some in O as [L _].
  assert (verify_token (g_device_id config) token db1 = Ok true) as T1 by (revert T; unfold verify_token; by rewrite L, L1).
  destruct (exchange_spec token ver n up rot1 v1 db1 lo a _ th S1 OK1 L1 T1 R TH) as (db2 & d2 & a2 & X2 & OK2 & L2 & T2 & P2 & _ & _ & _ & R2 & F2).
  { by intros c' [= <-]. }
  simpl in R2, F2.
  destruct (exchange_spec token ver n up rot2 v2 db2 lo a2 _ th S2 OK2 L2 T2) as (db3 & d3 & a3 & X3 & _ & L3 & _ & P3 & A3 & _ & _ & R3 & F3).
  { rewrite R2. destruct (agent_validate c); eexists; reflexivity. }
  { done. }
  { by rewrite P2. }
  rewrite P2 in R3, F3. rewrite R2 in A3. rewrite F2 in F3. by eexists db1, _, _, _, d3.
Qed.
End Exchange.

(** ** A concrete fleet *)
Section Examples.
#[local] Existing Instance open_database.
#[local] Existing Instance hex_tokens.
#[local] Existing Instance plain_passwords.
#[local] Existing Instance test_authority.
(** A device that accepts configs with a [drivers] section. *)
#[local] Instance test_host : AgentHost :=
  {| not_valid_after _ := Ok 1000; mtls_context _ _ _ := Ok tt;
     agent_validate c := match dict_get "drivers" c with Some _ => Ok tt | None => Raise ConfigValidationError end;
     write_config_file _ := Ok tt; agent_error_text _ := "invalid" |}.
Definition dev_config : AgentConfig := MkAgentConfig "dev" "secret" None sixty (Ok 10).
Definition new_status : FleetAgentStatus := MkAgentStatus false sixty None None None None None.
Definition new_agent : agent := MkAgent (MkFiles None None None None) None new_status None None.
Definition drivers_config : dict json := [("drivers", JDict [])].
Definition an_hour : pfloat := float_of_Z_raw 3600.

Lemma pushed_config_reaches_device_witness :
  exists st2 st3 version, exchange dev_config "tok" "1.0" 0 an_hour ("", Unreachable) env0 (MkManager (fst (exec (queue_config 1 "dev" drivers_config "op" 5) registered)) (m_lockout fresh_manager), new_agent) = (st2, Ok tt) /\
    exchange dev_config "tok" "1.0" 0 an_hour ("", Unreachable) env0 st2 = (st3, Ok tt) /\ ag_config_file (snd st3) = Some (Ok (JDict drivers_config)) /\
    exists row, devices (m_db (fst st3)) !! "dev" = Some row /\ last_config_apply_json row = Some (apply_report (JNum (NInt version)) true JNull).
Proof.
  destruct (own_device 1 "dev" registered) as [d|] eqn:E; [|vm_compute in E; discriminate E].
  destruct (pushed_config_reaches_device dev_config ltac:(done) ltac:(done) registered (m_lockout fresh_manager) new_agent 1 d drivers_config "op"
    "tok" "1.0" 0 an_hour ("", Unreachable) ("", Unreachable) env0 env0 env0 10 (settles_unreachable "") (settles_unreachable "")) as (db1 & st2 & st3 & version & row & Q & X2 & X3 & F & _ & L & _ & A).
  - eapply registry_ok_step; [apply empty_registry_ok|]. apply surjective_pairing.
  - exact E.
  - vm_compute. reflexivity.
  - exact I.
  - reflexivity.
  - left. split; reflexivity.
  - exists st2, st3, version. 
    rewrite (Q : exec (queue_config 1 "dev" drivers_config "op" 5) registered = _). split; [exact X2|split; [exact X3|split; [exact F|]]]. by exists row.
Defined.

Definition pushed_once : Manager := MkManager (fst (exec (queue_config 1 "dev" drivers_config "op" 5) registered)) (m_lockout fresh_manager).
Definition beat (m : Manager) (r : option (dict json)) := device_heartbeat "dev" "Bearer tok" None (Some 0) (Some an_hour) r env0 m.
(** A heartbeat whose answer is lost on the way takes the pending config with
    it: the manager cleared it, the next heartbeat gets none. *)
Example lost_answer_loses_config :
  snd (beat pushed_once None) = Ok (RHeartbeat (Some (drivers_config, 1))) /\
  snd (beat (fst (beat pushed_once None)) None) = Ok (RHeartbeat None).
Proof. vm_compute. split; reflexivity. Qed.
(** An answer that is not a JSON object ends the loop. *)
Example malformed_answer_ends_loop :
  snd (heartbeat_iteration dev_config (Answered (Raise ValueError)) "" Unreachable 5 new_agent) = Raise ValueError /\
  snd (heartbeat_iteration dev_config (Answered (Ok (JList []))) "" Unreachable 5 new_agent) = Raise AttributeError.
Proof. vm_compute. split; reflexivity. Qed.
End Examples.

Section Unwritable.
#[local] Instance read_only_host : AgentHost :=
  {| not_valid_after _ := Ok 1000; mtls_context _ _ _ := Ok tt; agent_validate _ := Ok tt;
     write_config_file _ := Raise OSError; agent_error_text _ := "" |}.
(** A config the device cannot write is dropped without a report. *)
Example unwritable_config_unreported :
  let '(a, r) := heartbeat_iteration dev_config (Answered (Ok (heartbeat_reply (Some (drivers_config, 1))))) "" Unreachable 5 new_agent in
  r = Ok tt /\ ag_report a = None /\ ag_config_file a = None /\ s_last_heartbeat_ok (ag_status a) = Some false.
Proof. vm_compute. repeat split; reflexivity. Qed.
End Unwritable.
