(* ===== verification/Sntp.v ===== *)
(** * SNTP client (src/xedge/core/sntp.py)

    The packet codec and offset computation of one exchange, and the loop that
    tries the configured servers in order.  What the network answers to a
    request is an oracle; [time.time()] is a binary64 float. *)

From Stdlib Require Import Ascii Floats.SpecFloat.
From S2P Require Import Prelude PyText PyBytes PyFloat PyFloatExact PyTime.
Local Open Scope string_scope.
Local Open Scope list_scope.
Local Open Scope Z_scope.

Definition NTP_PORT : Z := 123.
Definition NTP_PACKET_LENGTH : Z := 48.
Definition NTP_UNIX_EPOCH_DELTA : Z := 2208988800.
Definition CLIENT_REQUEST_FIRST_BYTE : Z := 35.

(** ** Timestamps *)

(** [_to_ntp_timestamp] *)
Definition to_ntp_timestamp (unix_time : pfloat) : res (list Z) :=
  let ntp_time := fadd unix_time (float_of_Z_raw NTP_UNIX_EPOCH_DELTA) in
  let* seconds := trunc ntp_time in
  let* fseconds := float_of_Z seconds in
  let* fraction := trunc (fmul (fsub ntp_time fseconds) two32) in
  pack_be [(fmt_I, seconds); (fmt_I, fraction)].
(** [_from_ntp_timestamp] *)
Definition from_ntp_timestamp (data : list Z) : res pfloat :=
  let* fields := unpack_be [fmt_I; fmt_I] data in
  match fields with
  | [seconds; fraction] =>
      let* whole := float_of_Z (seconds - NTP_UNIX_EPOCH_DELTA) in Ok (fadd whole (int_truediv fraction (2 ^ 32)))
  | _ => Raise StructError
  end.

(** The epoch offset brings dates between 1968 and 2036 into one binade, with
    steps of 2^-21 s. *)
Lemma binade31 f u : valid f -> funits f = Some u -> 2 ^ 1105 <= u < 2 ^ 1106 -> exists m, u = m * 2 ^ 1053 /\ 2 ^ 52 <= m < 2 ^ 53.
Proof.
  intros V U B. destruct f as [| | |s m e]; try done; simpl in U; injection U as <-; [lia|].
  pose proof (valid_range _ _ _ V) as R. assert (0 < 2 ^ (e + 1074)) by (apply Z.pow_pos_nonneg; lia).
  destruct s; [cbn [cond_Zopp] in B; nia|]. cbn [cond_Zopp] in *. pose proof (digits2_pos_bounds m) as D.
  assert (Zpos m < 2 ^ 53) as M.
  { simpl in V. apply bounded64 in V as [F _]. rewrite fexp64 in F. eapply Z.lt_le_trans; [apply D|]. apply Z.pow_le_mono_r; lia. }
  assert (- 1074 < e) as E0.
  { destruct (Z.eq_dec e (- 1074)) as [->|]; [|lia]. change (2 ^ (-1074 + 1074)) with 1 in B. lia. }
  rewrite (normal_digits _ _ _ V E0) in D. change (53 - 1) with 52 in D.
  assert (e = -21) as ->; [|by exists (Zpos m)].
  destruct (Z.lt_trichotomy e (-21)) as [L|[->|L]]; [|done|].
  - assert (2 ^ (e + 1074) <= 2 ^ 1052) by (apply Z.pow_le_mono_r; lia). change (2 ^ 1105) with (2 ^ 53 * 2 ^ 1052) in B. nia.
  - assert (2 ^ 1054 <= 2 ^ (e + 1074)) by (apply Z.pow_le_mono_r; lia). change (2 ^ 1106) with (2 ^ 52 * 2 ^ 1054) in B. nia.
Qed.

Lemma scale_fraction g r : valid g -> funits g = Some (r * 2 ^ 1053) -> 0 <= r < 2 ^ 21 -> trunc (fmul g two32) = Ok (r * 2 ^ 11).
Proof.
  intros V U R. destruct (Z.eq_dec r 0) as [->|R0].
  - destruct g as [| | |s m e]; try done; simpl in U. injection U as U. apply valid_range in V.
    assert (0 < 2 ^ (e + 1074)) by (apply Z.pow_pos_nonneg; lia). destruct s; cbn [cond_Zopp] in U; nia.
  - destruct g as [| | |s m e]; try done; simpl in U; injection U as U; [lia|]. pose proof (valid_range _ _ _ V) as E.
    assert (0 < 2 ^ (e + 1074)) by (apply Z.pow_pos_nonneg; lia). destruct s; [cbn [cond_Zopp] in U; nia|]. cbn [cond_Zopp] in U.
    assert (Zpos m < 2 ^ 53) as M.
    { pose proof (digits2_pos_bounds m) as D. pose proof V as V'. simpl in V'. apply bounded64 in V' as [F _]. rewrite fexp64 in F.
      eapply Z.lt_le_trans; [apply D|]. apply Z.pow_le_mono_r; lia. }
    assert (1000 < e + 1074 < 1075) as Ee.
    { split.
      - destruct (Z.lt_ge_cases 1000 (e + 1074)) as [|L]; [done|]. exfalso. assert (2 ^ (e + 1074) <= 2 ^ 1000) by (apply Z.pow_le_mono_r; lia).
        change (2 ^ 1053) with (2 ^ 53 * 2 ^ 1000) in U. nia.
      - destruct (Z.lt_ge_cases (e + 1074) 1075) as [|L]; [done|]. exfalso. assert (2 ^ 1075 <= 2 ^ (e + 1074)) by (apply Z.pow_le_mono_r; lia).
        change (2 ^ 1075) with (2 ^ 22 * 2 ^ 1053) in *. nia. }
    rewrite fmul_two32 by (done || lia). rewrite (trunc_units _ (r * 2 ^ 1085)).
    + change (2 ^ 1085) with (2 ^ 11 * 2 ^ 1074). by rewrite Z.mul_assoc, Z.div_mul by lia.
    + simpl. apply bounded64. rewrite fexp64, (normal_digits _ _ _ V) by lia. lia.
    + cbn [funits cond_Zopp]. f_equal. replace (e + 32 + 1074) with (e + 1074 + 32) by lia. rewrite Z.pow_add_r, Z.mul_assoc, U by lia.
      change (2 ^ 1085) with (2 ^ 1053 * 2 ^ 32). ring.
    + lia.
Qed.

(** A request sent between 1968 and 2036 carries a timestamp, and what the
    server echoes decodes to the very time that was sent, once the addition of
    the epoch offset has rounded it to 2^-21 s (u is the sum, in units of
    2^-1074 s). *)
Theorem echoed_timestamp_exact unix_time u :
  let ntp_time := fadd unix_time (float_of_Z_raw NTP_UNIX_EPOCH_DELTA) in
  valid ntp_time -> funits ntp_time = Some u -> 2 ^ 31 * 2 ^ 1074 <= u < 2 ^ 32 * 2 ^ 1074 ->
  exists data t1, to_ntp_timestamp unix_time = Ok data /\ length data = 8%nat /\
    from_ntp_timestamp data = Ok t1 /\ funits t1 = Some (u - NTP_UNIX_EPOCH_DELTA * 2 ^ 1074).
Proof.
  intros ntp_time V U B. destruct (binade31 _ _ V U B) as (m & -> & M).
  pose proof (Z.div_mod m (2 ^ 21) ltac:(lia)) as DM. pose proof (Z.mod_pos_bound m (2 ^ 21) ltac:(lia)) as R.
  set (sec := m / 2 ^ 21) in *. set (r := m mod 2 ^ 21) in *.
  assert (2 ^ 31 <= sec < 2 ^ 32) as S by lia. unfold to_ntp_timestamp. fold ntp_time.
  rewrite (trunc_units _ _ V U) by lia. cbn [rbind].
  assert (m * 2 ^ 1053 / 2 ^ 1074 = sec) as ->.
  { change (2 ^ 1074) with (2 ^ 21 * 2 ^ 1053). by rewrite Z.div_mul_cancel_r by lia. }
  destruct (float_of_Z_units sec) as (fs & -> & _ & Vs & Us); [lia|]. cbn [rbind].
  destruct (fsub_exact ntp_time fs _ _ r 1053 V Vs U Us) as [Vg Ug]; [|lia..|].
  { change (2 ^ 1074) with (2 ^ 21 * 2 ^ 1053). rewrite DM. ring. }
  rewrite (scale_fraction _ r Vg); [|rewrite Ug; f_equal|done]. 2:{ change (2 ^ 1074) with (2 ^ 21 * 2 ^ 1053). rewrite DM at 1. ring. }
  cbn [rbind].
  destruct (pack_be_ok [(fmt_I, sec); (fmt_I, r * 2 ^ 11)]) as [data P].
  { assert (forall z, 0 <= z < 2 ^ 32 -> fmt_in_range fmt_I z = true) as IR.
    { intros z Hz. unfold fmt_in_range. cbn [fmt_signed fmt_I]. by apply in_ub_spec. }
    repeat (apply List.Forall_cons; [apply IR; simpl; lia|]). apply List.Forall_nil. }
  destruct (float_of_Z_units (sec - NTP_UNIX_EPOCH_DELTA)) as (fw & Fw & _ & Vw & Uw); [unfold NTP_UNIX_EPOCH_DELTA; lia|].
  destruct (truediv_two32 (r * 2 ^ 11)) as [Vf Uf]; [lia|].
  destruct (fadd_exact fw _ _ _ (m - NTP_UNIX_EPOCH_DELTA * 2 ^ 21) 1053 Vw Vf Uw Uf) as [_ Ut]; [|lia|unfold NTP_UNIX_EPOCH_DELTA; lia|].
  { change (2 ^ 1074) with (2 ^ 21 * 2 ^ 1053). change (2 ^ 1053) with (2 ^ 11 * 2 ^ 1042). rewrite DM. ring. }
  exists data. eexists. split; [done|]. split; [exact (pack_be_length _ _ P)|]. unfold from_ntp_timestamp.
  assert (unpack_be [fmt_I; fmt_I] data = Ok [sec; r * 2 ^ 11]) as ->.
  { apply (unpack_pack_be [(fmt_I, sec); (fmt_I, r * 2 ^ 11)]); [|done]. by repeat (apply List.Forall_cons; [simpl; lia|]). }
  cbn [rbind]. rewrite Fw. split; [done|]. rewrite Ut. f_equal.
  change (2 ^ 1074) with (2 ^ 21 * 2 ^ 1053). change (2 ^ 1053) with (2 ^ 11 * 2 ^ 1042). rewrite DM. ring.
Qed.

(** ** One exchange *)

(** [_parse_server] *)
Definition parse_server (server : string) : res (string * Z) :=
  match rpartition ":" server with
  | None => Ok (server, NTP_PORT)
  | Some (host, port_str) => let* port := int_text port_str in Ok (host, port)
  end.

Record SntpQueryResult := MkResult {
  q_server : string;
  offset_seconds : pfloat;
  round_trip_delay_seconds : pfloat;
  stratum : Z;
  received_at : Z }.

(** What happens on the socket before the timeout, in order, with
    [_SntpClientProtocol]: the first event completes the future. *)
Inductive event := DatagramReceived (data : list Z) (at_time : pfloat) | ErrorReceived (e : exn).
Definition protocol_step (on_response : option (res (list Z * pfloat))) (ev : event) : option (res (list Z * pfloat)) :=
  match on_response, ev with
  | Some _, _ => on_response
  | None, DatagramReceived data t => Some (Ok (data, t))
  | None, ErrorReceived e => Some (Raise e)
  end.
(** An exchange: opening the socket, the clock, the events. *)
Record Exchange := MkExchange { x_endpoint : res unit; x_clock : pfloat; x_events : list event }.

Definition build_request (originate : pfloat) : res (list Z) :=
  let* ts := to_ntp_timestamp originate in
  Ok ([CLIENT_REQUEST_FIRST_BYTE] ++ repeat 0 39 ++ ts).
Definition read_response (server : string) (data : list Z) (t4 : pfloat) : res SntpQueryResult :=
  raise_if zlen data <? NTP_PACKET_LENGTH with SntpProtocolError;
  let* s := index data 1 in
  raise_if s =? 0 with SntpProtocolError;
  let* t1 := from_ntp_timestamp (slice data 24 32) in
  let* t2 := from_ntp_timestamp (slice data 32 40) in
  let* t3 := from_ntp_timestamp (slice data 40 48) in
  let* offset := fdiv (fadd (fsub t2 t1) (fsub t3 t4)) (float_of_Z_raw 2) in
  let raw := fsub (fsub t4 t1) (fsub t3 t2) in
  let delay := if fltb fzero raw then raw else fzero in
  let* at_time := from_timestamp t4 in
  Ok (MkResult server offset delay s at_time).
(** [query_sntp] *)
Definition query_sntp (server : string) (port : Z) (x : Exchange) : res SntpQueryResult :=
  let* _ := x_endpoint x in
  let* _ := build_request (x_clock x) in
  match fold_left protocol_step (x_events x) None with
  | None => Raise TimeoutError
  | Some r => let* p := r in read_response server p.1 p.2
  end.

(** ** The loop *)

Record SntpConfig := MkConfig { c_servers : list string; sync_interval_seconds : num; timezone : string; c_stale_after : num }.
Record SntpSyncStatus := MkStatus {
  enabled : bool;
  st_servers : list string;
  st_interval : option num;
  st_timezone : string;
  stale_after_seconds : num;
  last_sync_at : option Z;
  last_sync_server : option string;
  st_offset : option pfloat;
  st_delay : option pfloat;
  consecutive_failures : Z;
  last_error : option (string * exn) }.
(** [is_stale] *)
Definition is_stale (now : Z) (s : SntpSyncStatus) : bool :=
  match last_sync_at s with
  | None => true
  | Some t => float_gt_num (total_seconds (now - t)) (stale_after_seconds s)
  end.
(** [sntp_sync_loop] before its loop *)
Definition start_sync (c : SntpConfig) (s : SntpSyncStatus) : SntpSyncStatus :=
  MkStatus true (c_servers c) (Some (sync_interval_seconds c)) (timezone c) (c_stale_after c)
    (last_sync_at s) (last_sync_server s) (st_offset s) (st_delay s) (consecutive_failures s) (last_error s).
Definition caught (e : exn) : bool :=
  match e with OSError | ConnectionError | FileNotFoundError | PermissionError | TimeoutError | SntpProtocolError => true | _ => false end.

(** The [for] loop over the servers, each with what its exchange comes to: the
    first answer, or the last error. *)
Fixpoint try_servers (trials : list (string * Exchange)) (last : option (string * exn)) :
    res (option (string * SntpQueryResult) * option (string * exn)) :=
  match trials with
  | [] => Ok (None, last)
  | (server, x) :: rest =>
      let* address := parse_server server in
      match query_sntp address.1 address.2 x with
      | Ok r => Ok (Some (server, r), last)
      | Raise e => if caught e then try_servers rest (Some (server, e)) else Raise e
      end
  end.
Definition synced (server : string) (r : SntpQueryResult) (s : SntpSyncStatus) : SntpSyncStatus :=
  MkStatus (enabled s) (st_servers s) (st_interval s) (st_timezone s) (stale_after_seconds s)
    (Some (received_at r)) (Some server) (Some (offset_seconds r)) (Some (round_trip_delay_seconds r)) 0 None.
Definition sync_failed (e : option (string * exn)) (s : SntpSyncStatus) : SntpSyncStatus :=
  MkStatus (enabled s) (st_servers s) (st_interval s) (st_timezone s) (stale_after_seconds s)
    (last_sync_at s) (last_sync_server s) (st_offset s) (st_delay s) (consecutive_failures s + 1) e.
(** One iteration of [while True] *)
Definition sync_cycle (trials : list (string * Exchange)) : SR SntpSyncStatus unit :=
  let! outcome := slift (try_servers trials None) in
  match outcome with
  | (Some (server, r), _) => smodify (synced server r)
  | (None, e) => smodify (sync_failed e)
  end.
Fixpoint sync_cycles (cycles : list (list (string * Exchange))) : SR SntpSyncStatus unit :=
  match cycles with [] => sret tt | c :: rest => let! _ := sync_cycle c in sync_cycles rest end.

(** ** What the status says *)

(** The server that answers in a cycle: the first whose exchange succeeds. *)
Definition answer_of (trial : string * Exchange) : option (string * SntpQueryResult) :=
  match (let* address := parse_server trial.1 in query_sntp address.1 address.2 trial.2) with
  | Ok r => Some (trial.1, r)
  | Raise _ => None
  end.
Definition first_answer (trials : list (string * Exchange)) : option (string * SntpQueryResult) := head (omap answer_of trials).

(** An exchange within the range of the clocks: the server entry is well
    formed, the request is encodable, and what arrives is bytes, at a time
    [datetime] has, or one of the socket's errors. *)
Definition event_ok (ev : event) : Prop :=
  match ev with DatagramReceived data t => bytes_ok data /\ is_ok (from_timestamp t) = true | ErrorReceived e => caught e = true end.
Definition trial_ok (trial : string * Exchange) : Prop :=
  is_ok (parse_server trial.1) = true /\ (forall e, x_endpoint trial.2 = Raise e -> caught e = true) /\
  is_ok (to_ntp_timestamp (x_clock trial.2)) = true /\ Forall event_ok (x_events trial.2).

Lemma is_ok_inv {A} (r : res A) : is_ok r = true -> exists a, r = Ok a.
Proof. destruct r; [eauto|done]. Qed.
Lemma from_ntp_total data : length data = 8%nat -> bytes_ok data -> exists t, from_ntp_timestamp data = Ok t.
Proof.
  intros L B. do 9 (destruct data as [|? data]; try done). unfold from_ntp_timestamp, unpack_be. simpl.
  destruct (float_of_Z_units (be_Z [z; z0; z1; z2] - NTP_UNIX_EPOCH_DELTA)) as (f & -> & _); [|by eexists].
  assert (bytes_ok [z; z0; z1; z2]) as B4 by (by apply (Forall_take _ 4) in B).
  pose proof (be_Z_bound _ B4). unfold NTP_UNIX_EPOCH_DELTA. simpl length in *. change (2 ^ (8 * Z.of_nat 4)) with (2 ^ 32) in *. lia.
Qed.
Lemma read_response_cases server data t4 :
  bytes_ok data -> is_ok (from_timestamp t4) = true ->
  (exists r, read_response server data t4 = Ok r) \/ read_response server data t4 = Raise SntpProtocolError.
Proof.
  intros B [at_time T]%is_ok_inv. unfold read_response. destruct (Z.ltb_spec (zlen data) NTP_PACKET_LENGTH) as [|L]; [by right|].
  unfold NTP_PACKET_LENGTH in L. cbn [guard_raise].
  assert (forall a, 0 <= a <= 40 -> exists t, from_ntp_timestamp (slice data a (a + 8)) = Ok t) as X.
  { intros a Ha. apply from_ntp_total; [|by apply Forall_take, Forall_drop]. pose proof (slice_length data a (a + 8)). unfold zlen in *. lia. }
  destruct (X 24) as [t1 E1]; [lia|]. destruct (X 32) as [t2 E2]; [lia|]. destruct (X 40) as [t3 E3]; [lia|].
  destruct (index data 1) as [s|e] eqn:I; cbn [rbind].
  - destruct (s =? 0); [by right|]. cbn [guard_raise]. change (24 + 8) with 32 in E1. change (32 + 8) with 40 in E2. change (40 + 8) with 48 in E3.
    rewrite E1, E2, E3, T. left. by eexists.
  - exfalso. unfold index in I. simpl in I. destruct (data !! Z.to_nat 1) eqn:E; [done|]. apply lookup_ge_None in E. unfold zlen in L. lia.
Qed.
Lemma first_event evs ev : Forall event_ok evs -> fold_left protocol_step evs None = Some ev ->
  match ev with Ok (data, t) => bytes_ok data /\ is_ok (from_timestamp t) = true | Raise e => caught e = true end.
Proof.
  intros F. destruct evs as [|[data t|e] rest]; [done|..]; simpl; apply Forall_cons in F as [E _];
    (assert (forall l r, fold_left protocol_step l (Some r) = Some r) as ->; [by intros l; induction l|]); by intros [= <-].
Qed.
Lemma query_cases entry host port x : trial_ok (entry, x) ->
  (exists r, query_sntp host port x = Ok r) \/ exists e, query_sntp host port x = Raise e /\ caught e = true.
Proof.
  intros (_ & E & [ts T]%is_ok_inv & F). simpl in *. unfold query_sntp, build_request.
  destruct (x_endpoint x) as [[]|e]; [|right; eauto]. cbn [rbind]. rewrite T. cbn [rbind].
  destruct (fold_left protocol_step (x_events x) None) as [[[data t]|e]|] eqn:P; [| |right; by exists TimeoutError].
  - apply (first_event _ _ F) in P as [B A]. cbn [rbind fst snd]. destruct (read_response_cases host data t B A) as [[r ->]| ->]; eauto.
  - apply (first_event _ _ F) in P. right. eauto.
Qed.
Lemma try_servers_first trials last : Forall trial_ok trials ->
  exists e, try_servers trials last = Ok (first_answer trials, e).
Proof.
  intros F. revert last. induction F as [|[server x] rest T _ IH]; intros last; simpl; [by eexists|].
  unfold first_answer. cbn [omap list_omap]. unfold answer_of at 1. simpl. pose proof T as ([[host port] P]%is_ok_inv & _). simpl in P. rewrite P. cbn [rbind fst snd].
  destruct (query_cases server host port x T) as [[r ->]|(e & -> & ->)]; [by eexists|]. apply IH.
Qed.

Lemma sync_cycle_spec trials s : Forall trial_ok trials -> exists s', sync_cycle trials s = (s', Ok tt) /\
  match first_answer trials with
  | Some (server, r) => s' = synced server r s
  | None => exists e, s' = sync_failed e s
  end.
Proof.
  intros F. unfold sync_cycle, sbind, slift. destruct (try_servers_first trials None F) as [e ->].
  destruct (first_answer trials) as [[server r]|]; eauto.
Qed.
Lemma sync_cycles_snoc cycles c s s' : sync_cycles cycles s = (s', Ok tt) -> sync_cycles (cycles ++ [c]) s = sync_cycle c s'.
Proof.
  revert s. induction cycles as [|d rest IH]; intros s; simpl.
  - intros [= ->]. unfold sbind, sret. by destruct (sync_cycle c s') as [? [[]|]].
  - unfold sbind. destruct (sync_cycle d s) as [s1 [[]|]]; [apply IH|done].
Qed.

(** With well-formed server entries and clocks in range no cycle raises, and
    the status reports the history: the last cycle in which a server answered,
    with the first server that did, and the number of failed cycles since. *)
Theorem sntp_status_of_history cycles s0 : Forall (Forall trial_ok) cycles ->
  exists s, sync_cycles cycles s0 = (s, Ok tt) /\
    let answers := map first_answer cycles in
    match last (omap id answers) with
    | Some (server, r) =>
        last_sync_at s = Some (received_at r) /\ last_sync_server s = Some server /\ st_offset s = Some (offset_seconds r) /\
        st_delay s = Some (round_trip_delay_seconds r) /\ consecutive_failures s = trailing false (map (fun a => bool_decide (is_Some a)) answers)
    | None =>
        last_sync_at s = last_sync_at s0 /\ last_sync_server s = last_sync_server s0 /\ st_offset s = st_offset s0 /\
        st_delay s = st_delay s0 /\ consecutive_failures s = consecutive_failures s0 + zlen cycles
    end.
Proof.
  intros F. induction cycles as [|c cycles IH] using rev_ind; [exists s0; split; [done|]; simpl; rewrite zlen_nil; repeat split; lia|].
  apply Forall_app in F as [F [Fc _]%Forall_cons]. destruct (IH F) as (s & R & S). destruct (sync_cycle_spec c s Fc) as (s' & C & S').
  exists s'. rewrite (sync_cycles_snoc _ _ _ _ R). split; [done|]. cbn zeta in *. rewrite !map_app, omap_app. simpl. rewrite trailing_snoc.
  destruct (first_answer c) as [[server r]|]; simpl.
  - subst s'. rewrite last_snoc. done.
  - destruct S' as [e ->]. rewrite app_nil_r. destruct (last _) as [[server r]|]; simpl; destruct S as (-> & -> & -> & -> & ->); repeat split;
      [lia|autorewrite with zlen; lia].
Qed.

(** ** Concrete exchanges *)

Definition at_second (n : Z) : pfloat := float_of_Z_raw n.
Definition ts (n : Z) : list Z := be_bytes 4 (n + NTP_UNIX_EPOCH_DELTA) ++ be_bytes 4 0.
(** A reply of stratum [s] to a request of second [t1], served at [t2]. *)
Definition reply (s t1 t2 : Z) : list Z := [36; s] ++ repeat 0 22 ++ ts t1 ++ ts t2 ++ ts t2.
Definition now0 : Z := 1700000000.
Definition answered (s : Z) : Exchange := MkExchange (Ok tt) (at_second now0) [DatagramReceived (reply s now0 (now0 + 5)) (at_second (now0 + 1))].
Definition unanswered : Exchange := MkExchange (Ok tt) (at_second now0) [].
Definition fresh : SntpSyncStatus := MkStatus false [] None "UTC" (NInt 7200) None None None None 0 None.

Example offset_of_reply :
  query_sntp "ntp" NTP_PORT (answered 2) = Ok (MkResult "ntp" (S754_finite false 5066549580791808 (-50)) (at_second 1) 2 ((now0 + 1) * us_per_second)).
Proof. vm_compute. reflexivity. Qed.

Lemma unix_seconds_units n : - 2 ^ 52 < n < 2 ^ 52 ->
  let f := fadd (at_second n) (float_of_Z_raw NTP_UNIX_EPOCH_DELTA) in valid f /\ funits f = Some ((n + NTP_UNIX_EPOCH_DELTA) * 2 ^ 1074).
Proof.
  intros N. destruct (float_of_Z_units n) as (x & _ & X & Vx & Ux); [lia|].
  destruct (float_of_Z_units NTP_UNIX_EPOCH_DELTA) as (y & _ & Y & Vy & Uy); [unfold NTP_UNIX_EPOCH_DELTA; lia|].
  unfold at_second. rewrite X, Y. rewrite Z.mul_add_distr_r. apply (fadd_exact x y _ _ (n + NTP_UNIX_EPOCH_DELTA) 1074); try done; try lia.
  unfold NTP_UNIX_EPOCH_DELTA. lia.
Qed.
Lemma echoed_timestamp_exact_witness :
  exists data t1, to_ntp_timestamp (at_second now0) = Ok data /\ from_ntp_timestamp data = Ok t1 /\ funits t1 = Some (now0 * 2 ^ 1074).
Proof.
  destruct (unix_seconds_units now0) as [V U]; [unfold now0; lia|].
  destruct (echoed_timestamp_exact (at_second now0) _ V U) as (data & t1 & T & _ & F & E).
  - unfold now0, NTP_UNIX_EPOCH_DELTA. lia.
  - exists data, t1. split; [exact T|]. split; [exact F|]. rewrite E. reflexivity.
Defined.

Definition two_cycles : list (list (string * Exchange)) :=
  [[("dead", unanswered); ("ntp:1123", answered 2); ("spare", answered 1)]; [("dead", unanswered); ("ntp:1123", answered 0)]].
Lemma sntp_status_of_history_witness :
  exists s, sync_cycles two_cycles fresh = (s, Ok tt) /\ last_sync_server s = Some "ntp:1123" /\
    last_sync_at s = Some ((now0 + 1) * us_per_second) /\ consecutive_failures s = 1.
Proof.
  destruct (sntp_status_of_history two_cycles fresh) as (s & R & S).
  - assert (forall n, bytes_ok (reply n now0 (now0 + 5)) <-> u8 n) as B.
    { intros n. unfold bytes_ok, reply, ts. split; [intros X; apply Forall_cons in X as [_ X]; by apply Forall_cons in X as [X _]|].
      intros X. repeat (apply Forall_cons; split; [done|]). repeat (apply Forall_app; split); try apply be_bytes_ok.
      repeat (apply List.Forall_cons; [done|]). apply List.Forall_nil. }
    assert (forall name s, is_ok (parse_server name) = true -> u8 s -> trial_ok (name, answered s)) as A.
    { intros name n P U. split; [exact P|]. split; [done|]. split; [vm_compute; reflexivity|].
      apply List.Forall_cons; [|apply List.Forall_nil]. split; [by apply B|vm_compute; reflexivity]. }
    assert (trial_ok ("dead", unanswered)) by (split; [done|split; [done|split; [vm_compute; reflexivity|apply List.Forall_nil]]]).
    repeat first [apply List.Forall_nil | apply List.Forall_cons]; first [assumption | apply A; [reflexivity|by split]].
  - exists s. split; [exact R|]. vm_compute in S. destruct S as (A & B & _ & _ & C). split; [exact B|split; [exact A|exact C]].
Defined.

(** From 2036-02-07T06:28:16Z on the request cannot be encoded, and a server
    entry with a bad port is never tried: both end the loop, not the cycle. *)
Example era_rollover_ends_loop :
  snd (sync_cycle [("ntp", MkExchange (Ok tt) (at_second 2085978496) [])] fresh) = Raise StructError.
Proof. vm_compute. reflexivity. Qed.
Example bad_port_ends_loop : snd (sync_cycle [("ntp:", answered 2)] fresh) = Raise ValueError.
Proof. vm_compute. reflexivity. Qed.
