(* ===== verification/SystemTags.v ===== *)
(** * System tags (src/xedge/core/system_tags.py)

    Per-instance health tags: read rates over sliding windows, the ten tags of
    an instance, and one tick of the publish loop into the latest-value store
    and the ring buffers (no OPC UA server attached). *)

From Stdlib Require Import Ascii Floats.SpecFloat.
From S2P Require Import Prelude PyText PyBytes PyFloat PyDict PyTime Pipeline Connectivity RingBuffer Supervisor MainPipeline.
Local Open Scope string_scope.
Local Open Scope list_scope.
Local Open Scope Z_scope.

Definition ONE_HOUR_SECONDS : num := Eval vm_compute in NFloat (float_of_Z_raw 3600).

(** ** Read rates *)

(** A deque of (time, cumulative count), oldest first, per instance. *)
Abbreviation history := (list (Z * Z)).
Abbreviation ReadRateTracker := (dict history).

Fixpoint prune (cutoff : Z) (h : history) : history :=
  match h with
  | x :: ((_ :: _) as t) => if x.1 <? cutoff then prune cutoff t else h
  | _ => h
  end.
(** The [for] loop of [_rate_over]. *)
Fixpoint find_reference (cutoff : Z) (h : history) (reference : Z * Z) : Z * Z :=
  match h with
  | [] => reference
  | s :: t => if s.1 <=? cutoff then find_reference cutoff t s else reference
  end.
(** [(newest - reference) / elapsed], zero without elapsed time *)
Definition rate_since (newest now : Z) (reference : Z * Z) : res pfloat :=
  let elapsed := total_seconds (now - reference.1) in
  if fleb elapsed fzero then Ok fzero else let* delta := float_of_Z (newest - reference.2) in fdiv delta elapsed.
(** [_rate_over] *)
Definition rate_over (h : history) (now : Z) (window_seconds : num) : res pfloat :=
  let* d := timedelta_seconds window_seconds in
  let* cutoff := datetime_add now (- d) in
  let* oldest := index h 0 in
  let reference := find_reference cutoff h oldest in
  match last h with Some newest => rate_since newest.2 now reference | None => Raise IndexError end.
Definition rate_windows : list (string * num) := Eval vm_compute in
  [("reads_per_second", NFloat (float_of_Z_raw 1)); ("reads_per_minute", NFloat (float_of_Z_raw 60)); ("reads_per_hour", ONE_HOUR_SECONDS)].
(** [sample] of a tracker that keeps [history_seconds] *)
Definition sample (history_seconds : num) (instance_id : string) (count now : Z) : SR ReadRateTracker (dict pfloat) := fun t =>
  let h := default [] (dict_get instance_id t) ++ [(now, count)] in
  let t := dict_set instance_id h t in
  match (let* d := timedelta_seconds history_seconds in datetime_add now (- d)) with
  | Raise e => (t, Raise e)
  | Ok cutoff =>
      let h := prune cutoff h in
      (dict_set instance_id h t, mapM_res (fun uw => let* r := rate_over h now uw.2 in Ok (uw.1, r)) rate_windows)
  end.

(** ** The tags of an instance *)

Definition state_value (s : DriverState) : string :=
  match s with
  | STOPPED => "stopped" | STARTING => "starting" | RUNNING => "running"
  | BACKOFF => "backoff" | FAILED => "failed" | DISABLED => "disabled"
  end.
Definition connectivity_value (c : ConnectivityState) : string :=
  match c with UNKNOWN => "unknown" | CONNECTED => "connected" | DEGRADED => "degraded" | NOT_CONNECTED => "not_connected" end.
Definition data_type_name (v : TagValue) : string :=
  match v with VBool _ => "BOOL" | VInt _ => "INT64" | VFloat _ => "FLOAT64" | VStr _ | VBytes _ => "STRING" end.

Definition system_values (status : DriverInstanceStatus) (rates : dict pfloat) (now : Z) : dict TagValue :=
  let uptime_seconds := if decide (st_state status = RUNNING) then total_seconds (now - state_changed_at status) else fzero in
  foldl (fun vs (r : string * pfloat) => dict_set r.1 (VFloat r.2) vs)
    [("status", VStr (state_value (st_state status))); ("status_time", VStr (isoformat (state_changed_at status)));
     ("tag_count", VInt (tag_count status)); ("error_count", VInt (error_count (st_metrics status)));
     ("consecutive_failures", VInt (Supervisor.consecutive_failures status)); ("uptime_seconds", VFloat uptime_seconds);
     ("connectivity_state", VStr (connectivity_value (connectivity_state status)))] rates.
Definition system_tag (status : DriverInstanceStatus) (now : Z) (name : string) (v : TagValue) : UnifiedTag :=
  {| tag_id := system_tag_id (st_instance_id status) name; timestamp := now; value := v; data_type := data_type_name v;
     quality := GOOD; source_driver := st_instance_id status; source_address := name; engineering_unit := None;
     is_alarm := false; metadata := [] |}.
Definition build_system_tags (status : DriverInstanceStatus) (rates : dict pfloat) (now : Z) : res (list UnifiedTag) :=
  let values := system_values status rates now in
  mapM_res (fun name => match dict_get name values with Some v => Ok (system_tag status now name v) | None => Raise KeyError end) SYSTEM_TAG_NAMES.

(** ** The publish loop *)

Section Publish.
Context {S : Type} (on_evict : option (string -> UnifiedTag -> S -> S * res unit)).
Record publisher := MkPublisher { pb_tracker : ReadRateTracker; pb_latest : LatestValueStore; pb_ring : RingBufferManager; pb_cold : S }.

(** One tag into the latest values and the instance's stream. *)
Definition publish_tag (instance_id : string) (tag : UnifiedTag) : SR publisher unit := fun p =>
  let '(ring, cold, r) := mgr_push on_evict (pb_ring p) instance_id tag false (pb_cold p) in
  (MkPublisher (pb_tracker p) (latest_update tag (pb_latest p)) ring cold, r).
Definition publish_instance (now : Z) (status : DriverInstanceStatus) : SR publisher unit :=
  let! rates := fun p =>
    let '(t, r) := sample ONE_HOUR_SECONDS (st_instance_id status) (tag_read_count (st_metrics status)) now (pb_tracker p) in
    (MkPublisher t (pb_latest p) (pb_ring p) (pb_cold p), r) in
  let! tags := slift (build_system_tags status rates now) in
  let! _ := smapM (publish_tag (st_instance_id status)) tags in sret tt.
(** One tick of [system_tag_publish_loop] over [all_status().values()] *)
Definition publish_tick (now : Z) (all : list DriverInstanceStatus) : SR publisher unit :=
  let! _ := smapM (publish_instance now) all in sret tt.
End Publish.

(** ** The rates are those of a sliding window *)

Definition hour_us : Z := 3600 * us_per_second.
Definition windows_us : list (string * Z) :=
  [("reads_per_second", us_per_second); ("reads_per_minute", 60 * us_per_second); ("reads_per_hour", hour_us)].
Abbreviation by_time := (StronglySorted (fun a b : Z * Z => a.1 <= b.1)).
(** Samples of the last hour, and the latest of them at least [w] old, or the
    oldest one. *)
Definition within_hour (now : Z) (h : history) : history := List.filter (fun s => now - hour_us <=? s.1) h.
Definition window_reference (now w : Z) (h : history) : option (Z * Z) :=
  match last (List.filter (fun s => s.1 <=? now - w) h) with Some s => Some s | None => head h end.
Definition windowed_rate (now w : Z) (h : history) (newest : Z) : res pfloat :=
  match window_reference now w h with Some s => rate_since newest now s | None => Raise IndexError end.

Lemma find_reference_last cutoff h r : by_time h ->
  find_reference cutoff h r = default r (last (List.filter (fun s => s.1 <=? cutoff) h)).
Proof.
  intros S. revert r. induction S as [|s t _ IH F]; intros r; simpl; [done|]. destruct (Z.leb_spec s.1 cutoff) as [L|L].
  - rewrite IH, last_cons. by destruct (last _).
  - assert (List.filter (fun s => s.1 <=? cutoff) t = []) as ->; [|done].
    clear IH. induction F as [|x t X _ IH]; simpl; [done|]. rewrite (proj2 (Z.leb_gt _ _)) by lia. exact IH.
Qed.
Lemma filter_all {A} (f : A -> bool) l : Forall (fun x => f x = true) l -> List.filter f l = l.
Proof. induction 1 as [|x t X _ IH]; simpl; [done|]. by rewrite X, IH. Qed.
Lemma prune_filter cutoff h x : by_time (h ++ [x]) -> cutoff <= x.1 -> prune cutoff (h ++ [x]) = List.filter (fun s => cutoff <=? s.1) (h ++ [x]).
Proof.
  intros S L. induction h as [|s t IH]; simpl in *; [by rewrite (proj2 (Z.leb_le _ _) L)|].
  inversion S as [|? ? S' F]; subst. destruct (t ++ [x]) as [|y u] eqn:E; [by destruct t|]. rewrite <- E in *.
  destruct (Z.ltb_spec s.1 cutoff) as [L'|L'].
  - rewrite (proj2 (Z.leb_gt _ _)) by lia. by apply IH.
  - rewrite (proj2 (Z.leb_le _ _) L'), filter_all; [done|]. eapply Forall_impl; [exact F|]. simpl. intros. apply Z.leb_le. lia.
Qed.
Lemma within_hour_twice now now' h x : now <= now' -> within_hour now' (within_hour now h ++ [x]) = within_hour now' (h ++ [x]).
Proof.
  intros L. unfold within_hour. rewrite !List.filter_app. f_equal. induction h as [|s t IH]; simpl; [done|].
  destruct (Z.leb_spec (now - hour_us) s.1); simpl; [by rewrite IH|]. by rewrite (proj2 (Z.leb_gt (now' - hour_us) s.1)) by lia.
Qed.
Lemma within_hour_snoc now h x : now - hour_us <= x.1 -> within_hour now h ++ [x] = within_hour now (h ++ [x]).
Proof. intros L. unfold within_hour. rewrite List.filter_app. simpl. by rewrite (proj2 (Z.leb_le _ _) L). Qed.
Lemma by_time_filter f h : by_time h -> by_time (List.filter f h).
Proof.
  induction 1 as [|s t _ IH F]; simpl; [constructor|]. destruct (f s); [|done]. constructor; [done|].
  apply List.Forall_forall. intros y [I _]%List.filter_In. by eapply List.Forall_forall in F.
Qed.
Lemma filter_last {A} (f : A -> bool) l x : f x = true -> last (List.filter f (l ++ [x])) = Some x.
Proof. intros F. rewrite List.filter_app. simpl. rewrite F. apply last_snoc. Qed.

(** Times from which an hour can be subtracted. *)
Definition time_ok (now : Z) : Prop := datetime_min + hour_us <= now <= datetime_max.
Lemma cutoff_ok now w : time_ok now -> 0 <= w <= hour_us -> datetime_add now (- w) = Ok (now - w).
Proof. unfold time_ok, datetime_add. intros. rewrite (proj2 (Z.ltb_ge _ _)), (proj2 (Z.ltb_ge _ _)) by lia. done. Qed.
Lemma rate_over_windowed now w wn h count : timedelta_seconds wn = Ok w -> time_ok now -> 0 <= w <= hour_us -> by_time (h ++ [(now, count)]) ->
  rate_over (h ++ [(now, count)]) now wn = windowed_rate now w (h ++ [(now, count)]) count.
Proof.
  intros W T B S. unfold rate_over, windowed_rate, window_reference. rewrite W. cbn [rbind]. rewrite cutoff_ok by done. cbn [rbind].
  destruct (index (h ++ [(now, count)]) 0) as [o|e] eqn:I; cbn [rbind].
  - apply index_ok in I as [_ I]. rewrite last_snoc, find_reference_last by done. destruct (last (List.filter _ _)); [done|]. simpl.
    change (Z.to_nat 0) with 0%nat in I. by rewrite head_lookup, I.
  - by destruct h.
Qed.

(** What the tracker holds for each instance after some samples. *)
Definition own (id : string) (ss : list (string * Z * Z)) : history :=
  omap (fun s => if String.eqb s.1.1 id then Some (s.2, s.1.2) else None) ss.
Definition tracks_samples (ss : list (string * Z * Z)) (t : ReadRateTracker) : Prop :=
  forall id, default [] (dict_get id t) = match last (own id ss) with Some s => within_hour s.1 (own id ss) | None => [] end.
Definition samples_ok (ss : list (string * Z * Z)) : Prop :=
  StronglySorted (fun a b => a.2 <= b.2) ss /\ Forall (fun s => time_ok s.2) ss.

Lemma own_snoc id ss i c now : own id (ss ++ [(i, c, now)]) = if String.eqb i id then own id ss ++ [(now, c)] else own id ss.
Proof. unfold own. rewrite omap_app. simpl. destruct (String.eqb i id); [done|apply app_nil_r]. Qed.
Lemma own_by_time id ss : StronglySorted (fun a b : string * Z * Z => a.2 <= b.2) ss -> by_time (own id ss).
Proof.
  induction 1 as [|s t _ IH F]; simpl; [constructor|]. destruct (String.eqb s.1.1 id); [|done]. constructor; [done|].
  apply Forall_forall. intros y I. apply list_elem_of_omap in I as (z & I & E). rewrite Forall_forall in F.
  destruct (String.eqb z.1.1 id); [|done]. injection E as <-. by apply (F z).
Qed.
Lemma samples_ok_snoc ss i c now : samples_ok (ss ++ [(i, c, now)]) -> samples_ok ss /\ time_ok now.
Proof.
  intros [(_ & S & _)%StronglySorted_app F]. apply Forall_app in F as [F1 [F2 _]%Forall_cons]. by split.
Qed.

(** The sample of an instance, given what the tracker holds for it. *)
Lemma sample_windowed ss i c now t :
  samples_ok (ss ++ [(i, c, now)]) -> tracks_samples ss t ->
  let recent := within_hour now (own i (ss ++ [(i, c, now)])) in
  let '(t', r) := sample ONE_HOUR_SECONDS i c now t in
  tracks_samples (ss ++ [(i, c, now)]) t' /\
  r = mapM_res (fun uw => let* r := windowed_rate now uw.2 recent c in Ok (uw.1, r)) windows_us.
Proof.
  intros OK T recent. pose proof (samples_ok_snoc _ _ _ _ OK) as [_ Tn]. pose proof (own_by_time i _ (proj1 OK)) as S.
  subst recent. rewrite own_snoc, String.eqb_refl in *. unfold sample. change (timedelta_seconds ONE_HOUR_SECONDS) with (Ok hour_us).
  cbn [rbind]. rewrite cutoff_ok by (done || unfold hour_us, us_per_second; lia).
  assert (prune (now - hour_us) (default [] (dict_get i t) ++ [(now, c)]) = within_hour now (own i ss ++ [(now, c)])) as ->.
  { rewrite (T i). assert (now - hour_us <= now) by (unfold hour_us, us_per_second; lia).
    destruct (last (own i ss)) as [s|] eqn:L.
    - assert (s.1 <= now) as Le.
      { apply last_Some in L as [l E]. rewrite E in S. apply StronglySorted_app in S as (S & _).
        apply (S s (now, c)); [apply elem_of_app; right|]; apply list_elem_of_singleton; done. }
      rewrite prune_filter; [by apply within_hour_twice| |done].
      rewrite within_hour_snoc by (simpl; lia). by apply by_time_filter.
    - apply last_None in L. rewrite L. simpl. unfold within_hour. simpl. by rewrite (proj2 (Z.leb_le (now - hour_us) now)) by lia. }
  split.
  - intros id. rewrite own_snoc, !dict_get_set. destruct (String.eqb_spec i id) as [<-|N].
    + rewrite decide_True by done. simpl. by rewrite last_snoc.
    + rewrite !decide_False by done. apply T.
  - assert (now - hour_us <= now) by (unfold hour_us, us_per_second; lia). rewrite <- within_hour_snoc by done.
    assert (by_time (within_hour now (own i ss) ++ [(now, c)])) as Sh by (rewrite within_hour_snoc by done; by apply by_time_filter).
    unfold rate_windows, windows_us. cbn [mapM_res snd fst].
    rewrite (rate_over_windowed now us_per_second), (rate_over_windowed now (60 * us_per_second)), (rate_over_windowed now hour_us);
      try done; unfold hour_us, us_per_second; lia.
Qed.

Definition after (ss : list (string * Z * Z)) : ReadRateTracker :=
  fold_left (fun t s => fst (sample ONE_HOUR_SECONDS s.1.1 s.1.2 s.2 t)) ss [].
Lemma after_tracks ss : samples_ok ss -> tracks_samples ss (after ss).
Proof.
  induction ss as [|[[i c] now] ss IH] using rev_ind; intros OK; [by intros id|].
  pose proof (samples_ok_snoc _ _ _ _ OK) as [OK' _]. unfold after. rewrite fold_left_app. simpl. fold (after ss).
  pose proof (sample_windowed ss i c now (after ss) OK (IH OK')) as W. cbn zeta in W.
  by destruct (sample ONE_HOUR_SECONDS i c now (after ss)) as [t' r]; destruct W.
Qed.
(** Whatever instances were sampled before, a sample reports for each window
    the increase of the read count since the latest of the instance's own
    samples of the last hour that is at least a window old (the oldest one when
    there is none), divided by the seconds since then; pruning the history and
    stopping the scan early change nothing. *)
Theorem read_rates_windowed ss i c now :
  samples_ok (ss ++ [(i, c, now)]) ->
  snd (sample ONE_HOUR_SECONDS i c now (after ss)) =
    mapM_res (fun uw => let* r := windowed_rate now uw.2 (within_hour now (own i (ss ++ [(i, c, now)]))) c in Ok (uw.1, r)) windows_us.
Proof.
  intros OK. pose proof (samples_ok_snoc _ _ _ _ OK) as [OK' _].
  pose proof (sample_windowed ss i c now (after ss) OK (after_tracks ss OK')) as W. cbn zeta in W.
  by destruct (sample ONE_HOUR_SECONDS i c now (after ss)) as [t' r]; destruct W.
Qed.

(** ** Every tick publishes every tag *)

Definition count_ok (c : Z) : Prop := 0 <= c < 2 ^ 53.
Lemma rate_since_ok newest now s : count_ok newest -> count_ok s.2 -> exists r, rate_since newest now s = Ok r.
Proof.
  intros N C. unfold rate_since. destruct (fleb (total_seconds (now - s.1)) fzero) eqn:E; [by eexists|].
  destruct (float_of_Z_exact (newest - s.2)) as (d & -> & _); [unfold count_ok in *; lia|]. cbn [rbind]. unfold fdiv.
  destruct (total_seconds (now - s.1)) as [[]| | |]; try done; by eexists.
Qed.
Lemma windowed_rate_ok now w h x : Forall (fun s => count_ok s.2) (h ++ [x]) -> exists r, windowed_rate now w (h ++ [x]) x.2 = Ok r.
Proof.
  intros F. unfold windowed_rate. destruct (window_reference now w (h ++ [x])) as [s|] eqn:R.
  - apply rate_since_ok; [by apply Forall_app in F as [_ [? _]%Forall_cons]|]. rewrite List.Forall_forall in F. apply F.
    unfold window_reference in R. destruct (last (List.filter _ _)) as [y|] eqn:L.
    + injection R as <-. apply last_Some in L as [l E]. apply (List.filter_In (fun s => s.1 <=? now - w)). rewrite E. apply in_or_app. right. by left.
    + destruct (h ++ [x]); [done|]. injection R as <-. by left.
  - unfold window_reference in R. destruct (last (List.filter _ _)); [done|]. by destruct h.
Qed.

(** The tracker after samples at or before [now]. *)
Definition tracker_ok (now : Z) (t : ReadRateTracker) : Prop :=
  exists ss, samples_ok ss /\ Forall (fun s => count_ok s.1.2 /\ s.2 <= now) ss /\ tracks_samples ss t.
Lemma sample_total now t i c : tracker_ok now t -> time_ok now -> count_ok c ->
  exists t' a b h, sample ONE_HOUR_SECONDS i c now t = (t', Ok [("reads_per_second", a); ("reads_per_minute", b); ("reads_per_hour", h)]) /\
    tracker_ok now t'.
Proof.
  intros (ss & OK & F & T) Tn C.
  assert (samples_ok (ss ++ [(i, c, now)])) as OK'.
  { destruct OK as [S B]. split; [|apply Forall_app; split; [done|by apply Forall_singleton]].
    apply StronglySorted_app_2; [|done|by repeat constructor]. intros x y Hx ->%list_elem_of_singleton. rewrite Forall_forall in F. by apply F in Hx as [_ Hx]. }
  pose proof (sample_windowed ss i c now t OK' T) as W. cbn zeta in W. destruct (sample ONE_HOUR_SECONDS i c now t) as [t' r]. destruct W as [T' ->].
  assert (forall w, exists r, windowed_rate now w (within_hour now (own i (ss ++ [(i, c, now)]))) c = Ok r) as R.
  { intros w. rewrite own_snoc, String.eqb_refl, <- within_hour_snoc by (simpl; unfold hour_us, us_per_second; lia).
    apply (windowed_rate_ok now w _ (now, c)). apply Forall_app. split; [|by apply Forall_singleton].
    apply List.Forall_forall. intros s [I _]%List.filter_In. apply list_elem_of_In, list_elem_of_omap in I as (z & I & E).
    destruct (String.eqb z.1.1 i); [|done]. injection E as <-. rewrite Forall_forall in F. simpl. by apply F in I as [? _]. }
  destruct (R us_per_second) as [a Ra], (R (60 * us_per_second)) as [b Rb], (R hour_us) as [h Rh]. exists t', a, b, h. split.
  - unfold windows_us. cbn [mapM_res fst snd]. by rewrite Ra, Rb, Rh.
  - exists (ss ++ [(i, c, now)]). split; [done|]. split; [|done]. apply Forall_app. split; [done|]. apply Forall_singleton. by split; [|simpl; lia].
Qed.

(** The last [d] elements of a list. *)
Definition lastn {A} (d : Z) (l : list A) : list A := drop (Z.to_nat (zlen l - d)) l.
Lemma lastn_short {A} d (l : list A) : zlen l <= d -> lastn d l = l.
Proof. intros L. unfold lastn. by replace (Z.to_nat (zlen l - d)) with 0%nat by lia. Qed.
Lemma lastn_lastn {A} d (l : list A) k : 0 <= d -> lastn d (lastn d l ++ k) = lastn d (l ++ k).
Proof.
  intros D. unfold lastn, zlen. rewrite !length_app, length_drop. rewrite !drop_app, drop_drop, length_drop. f_equal; f_equal; lia.
Qed.

Definition stream (m : RingBufferManager) (k : string) : list UnifiedTag := default [] (buffer <$> dict_get k (buffers m)).
(** A stream the system tags go to: not of the alarm tier, within its depth. *)
Definition stream_ok (m : RingBufferManager) (k : string) : Prop :=
  1 <= mgr_max_depth m /\ forall b, dict_get k (buffers m) = Some b ->
    is_alarm_stream b = false /\ max_depth b = mgr_max_depth m /\ zlen (buffer b) <= mgr_max_depth m.

Section PublishAll.
Context {S : Type} (on_evict : option (string -> UnifiedTag -> S -> S * res unit)).
Context (evicts : forall f k tag st, on_evict = Some f -> snd (f k tag st) = Ok tt).

Lemma mgr_push_stream m k tag st : stream_ok m k ->
  exists m' st', mgr_push on_evict m k tag false st = (m', st', Ok tt) /\ mgr_max_depth m' = mgr_max_depth m /\
    stream m' k = lastn (mgr_max_depth m) (stream m k ++ [tag]) /\ stream_ok m' k /\
    forall k', k' <> k -> dict_get k' (buffers m') = dict_get k' (buffers m).
Proof.
  intros [D B]. unfold mgr_push, stream, stream_ok.
  set (b := match dict_get k (buffers m) with Some b => b | None => make_buffer (mgr_max_depth m) false end).
  assert (is_alarm_stream b = false /\ max_depth b = mgr_max_depth m /\ zlen (buffer b) <= mgr_max_depth m /\
          default [] (buffer <$> dict_get k (buffers m)) = buffer b) as (A & M & Z & E).
  { subst b. destruct (dict_get k (buffers m)) as [b|]; [destruct (B b eq_refl) as (? & ? & ?); auto|]. simpl. rewrite zlen_nil. repeat split; lia. }
  rewrite E. unfold push. rewrite M. destruct (Z.leb_spec (mgr_max_depth m) (zlen (buffer b))) as [L|L].
  - rewrite A. destruct (buffer b) as [|e rest] eqn:Eb; [rewrite zlen_nil in L; lia|]. rewrite zlen_cons in *.
    assert (exists st', match match on_evict with Some f => Some (f k) | None => None end with
                        | Some f => f e st | None => (st, Ok tt) end = (st', Ok tt)) as [st' ->].
    { destruct on_evict as [f|]; [|by eexists]. pose proof (evicts f k e st eq_refl) as X. destruct (f k e st). simpl in X. subst. by eexists. }
    eexists _, _. split; [done|]. split; [done|]. simpl. rewrite dict_get_set_eq. split; [|split; [split; [done|]|]].
    + simpl. unfold lastn. rewrite zlen_cons, zlen_app. replace (Z.to_nat _) with 1%nat by (rewrite zlen_cons, zlen_nil; lia). done.
    + intros b' [= <-]. simpl. rewrite zlen_app, zlen_cons, zlen_nil. repeat split; [done|done|lia].
    + intros k' N. by apply dict_get_set_ne.
  - eexists _, _. split; [done|]. split; [done|]. simpl. rewrite dict_get_set_eq. split; [|split; [split; [done|]|]].
    + simpl. rewrite lastn_short; [done|]. rewrite zlen_app, zlen_cons, zlen_nil. lia.
    + intros b' [= <-]. simpl. rewrite zlen_app, zlen_cons, zlen_nil. repeat split; [done|done|lia].
    + intros k' N. by apply dict_get_set_ne.
Qed.

Lemma publish_tags k tags p : stream_ok (pb_ring p) k ->
  exists p', smapM (publish_tag on_evict k) tags p = (p', Ok (map (fun _ => tt) tags)) /\ pb_tracker p' = pb_tracker p /\
    pb_latest p' = foldl (fun d tag => latest_update tag d) (pb_latest p) tags /\
    mgr_max_depth (pb_ring p') = mgr_max_depth (pb_ring p) /\
    stream (pb_ring p') k = lastn (mgr_max_depth (pb_ring p)) (stream (pb_ring p) k ++ tags) /\ stream_ok (pb_ring p') k /\
    forall k', k' <> k -> dict_get k' (buffers (pb_ring p')) = dict_get k' (buffers (pb_ring p)).
Proof.
  revert p. induction tags as [|tag tags IH]; intros p OK.
  - exists p. do 4 (split; [done|]). split; [|done]. rewrite app_nil_r, lastn_short; [done|]. unfold stream. destruct OK as [D B].
    destruct (dict_get k _) as [b|]; simpl; [by apply B|rewrite zlen_nil; lia].
  - destruct (mgr_push_stream (pb_ring p) k tag (pb_cold p) OK) as (m' & st' & P & D & St & OK' & F).
    destruct (IH (MkPublisher (pb_tracker p) (latest_update tag (pb_latest p)) m' st') OK') as (p' & Q & T & L & D' & St' & OK'' & F').
    simpl in *. exists p'. unfold sbind, publish_tag at 1. rewrite P, Q. split; [done|]. split; [done|]. split; [done|]. split; [congruence|].
    split; [|split; [done|intros k' N; rewrite F', F by done; done]].
    rewrite St', St, D, lastn_lastn, <- app_assoc; [done|]. destruct OK. lia.
Qed.

(** A tag id names one instance and one system tag. *)
Lemma system_tag_id_inj i1 n1 i2 n2 : n1 ∈ SYSTEM_TAG_NAMES -> n2 ∈ SYSTEM_TAG_NAMES ->
  system_tag_id i1 n1 = system_tag_id i2 n2 -> i1 = i2 /\ n1 = n2.
Proof.
  assert (forall n, n ∈ SYSTEM_TAG_NAMES -> count_char "/"%char n = 0%nat) as C.
  { intros n I. repeat (apply elem_of_cons in I as [->|I]; [done|]). by apply elem_of_nil in I. }
  intros I1 I2 E. apply (f_equal (rpartition "/"%char)) in E. unfold system_tag_id in E.
  assert (forall i n : string, (i ++ "/_system/" ++ n)%string = ((i ++ "/_system") ++ String "/"%char n)%string) as A.
  { intros i n. change ("/_system/" ++ n)%string with ("/_system" ++ String "/"%char n)%string. apply append_assoc. }
  rewrite !A, !rpartition_app in E by auto. injection E as E ->. split; [|done].
  apply (f_equal (rpartition "/"%char)) in E. rewrite !(rpartition_app "/"%char _ "_system") in E by done. by injection E.
Qed.
Lemma sample_frame hs i c now t j : j <> i -> dict_get j (fst (sample hs i c now t)) = dict_get j t.
Proof. intros N. unfold sample. destruct (let* _ := _ in _); simpl; by rewrite ?dict_get_set_ne. Qed.
Lemma sample_local hs i c now t t' : dict_get i t = dict_get i t' -> snd (sample hs i c now t) = snd (sample hs i c now t').
Proof. intros E. unfold sample. rewrite E. by destruct (let* _ := _ in _). Qed.
Lemma build_total status a b h now :
  exists tags, build_system_tags status [("reads_per_second", a); ("reads_per_minute", b); ("reads_per_hour", h)] now = Ok tags /\
    map tag_id tags = map (system_tag_id (st_instance_id status)) SYSTEM_TAG_NAMES.
Proof. by eexists. Qed.
Lemma latest_all tags d : NoDup (map tag_id tags) ->
  Forall (fun tag => latest_get (tag_id tag) (foldl (fun d tag => latest_update tag d) d tags) = Some tag) tags /\
  forall tid, tid ∉ map tag_id tags -> latest_get tid (foldl (fun d tag => latest_update tag d) d tags) = latest_get tid d.
Proof.
  unfold latest_get, latest_update. revert d. induction tags as [|t tags IH]; intros d N; [done|]. apply NoDup_cons in N as [N1 N2].
  destruct (IH (dict_set (tag_id t) t d) N2) as [F G]. simpl. split.
  - constructor; [by rewrite G, dict_get_set_eq|done].
  - intros tid [N3 N4]%not_elem_of_cons. rewrite G by done. by apply dict_get_set_ne.
Qed.
Lemma names_nodup i : NoDup (map (system_tag_id i) SYSTEM_TAG_NAMES).
Proof.
  apply NoDup_fmap_2_strong; [|by apply (bool_decide_unpack _)]. intros x y X Y E. by apply system_tag_id_inj in E as [_ ->].
Qed.

(** What one instance gets in a tick. *)
Record published (now : Z) (p p' : publisher (S := S)) (status : DriverInstanceStatus) (tags : list UnifiedTag) (rates : dict pfloat) : Prop := {
  pub_rates : snd (sample ONE_HOUR_SECONDS (st_instance_id status) (tag_read_count (st_metrics status)) now (pb_tracker p)) = Ok rates;
  pub_tags : build_system_tags status rates now = Ok tags;
  pub_names : map tag_id tags = map (system_tag_id (st_instance_id status)) SYSTEM_TAG_NAMES;
  pub_latest : Forall (fun tag => latest_get (tag_id tag) (pb_latest p') = Some tag) tags;
  pub_stream : stream (pb_ring p') (st_instance_id status) =
    lastn (mgr_max_depth (pb_ring p)) (stream (pb_ring p) (st_instance_id status) ++ tags) }.

Definition system_id_of (all : list DriverInstanceStatus) (tid : string) : Prop :=
  exists status name, status ∈ all /\ name ∈ SYSTEM_TAG_NAMES /\ tid = system_tag_id (st_instance_id status) name.
Lemma publish_instance_total now status p :
  time_ok now -> tracker_ok now (pb_tracker p) -> count_ok (tag_read_count (st_metrics status)) -> stream_ok (pb_ring p) (st_instance_id status) ->
  exists p' tags rates, publish_instance on_evict now status p = (p', Ok tt) /\ published now p p' status tags rates /\
    tracker_ok now (pb_tracker p') /\ mgr_max_depth (pb_ring p') = mgr_max_depth (pb_ring p) /\
    (forall tid, ~ system_id_of [status] tid -> latest_get tid (pb_latest p') = latest_get tid (pb_latest p)) /\
    forall k, k <> st_instance_id status ->
      dict_get k (buffers (pb_ring p')) = dict_get k (buffers (pb_ring p)) /\ dict_get k (pb_tracker p') = dict_get k (pb_tracker p).
Proof.
  intros T K C R. destruct (sample_total now (pb_tracker p) (st_instance_id status) _ K T C) as (t' & a & b & h & E & K').
  destruct (build_total status a b h now) as (tags & B & N). set (p1 := MkPublisher t' (pb_latest p) (pb_ring p) (pb_cold p)).
  destruct (publish_tags (st_instance_id status) tags p1 R) as (p' & P & T' & L & D & St & _ & F).
  unfold p1 in T', L, D, St, F. cbn [pb_tracker pb_latest pb_ring] in T', L, D, St, F.
  destruct (latest_all tags (pb_latest p)) as [LF LG]; [rewrite N; apply names_nodup|].
  exists p', tags, [("reads_per_second", a); ("reads_per_minute", b); ("reads_per_hour", h)].
  unfold publish_instance, sbind. rewrite E. fold p1. unfold slift. rewrite B, P. split; [done|].
  split; [split; try done; [by rewrite E|by rewrite L]|]. split; [by rewrite T'|]. split; [done|]. split.
  - intros tid X. rewrite L. apply LG. rewrite N. intros (name & <- & I)%list_elem_of_In%in_map_iff. apply X. exists status, name.
    split; [by apply list_elem_of_singleton|]. split; [by apply list_elem_of_In|done].
  - intros k Nk. rewrite T', F by done. split; [done|]. pose proof (sample_frame ONE_HOUR_SECONDS (st_instance_id status)
      (tag_read_count (st_metrics status)) now (pb_tracker p) k Nk) as X. by rewrite E in X.
Qed.

(** Another instance's tags leave an instance's alone. *)
Lemma published_later now p p1 p' s tags rates rest :
  published now p p1 s tags rates -> st_instance_id s ∉ map st_instance_id rest ->
  (forall tid, ~ system_id_of rest tid -> latest_get tid (pb_latest p') = latest_get tid (pb_latest p1)) ->
  dict_get (st_instance_id s) (buffers (pb_ring p')) = dict_get (st_instance_id s) (buffers (pb_ring p1)) ->
  published now p p' s tags rates.
Proof.
  intros [R B N L St] Ni F D. split; try done; [|unfold stream in *; by rewrite D]. rewrite List.Forall_forall in *. intros tag I.
  rewrite F; [by apply L|]. intros (s' & name' & I' & N' & E). apply (in_map tag_id) in I. rewrite N, E in I.
  apply in_map_iff in I as (name & E' & I). apply list_elem_of_In in I. apply system_tag_id_inj in E' as [E' _]; [|done..].
  apply Ni. rewrite E'. by apply list_elem_of_In, in_map, list_elem_of_In.
Qed.
Lemma published_earlier now p p1 p' s tags rates :
  published now p1 p' s tags rates ->
  dict_get (st_instance_id s) (pb_tracker p1) = dict_get (st_instance_id s) (pb_tracker p) ->
  dict_get (st_instance_id s) (buffers (pb_ring p1)) = dict_get (st_instance_id s) (buffers (pb_ring p)) ->
  mgr_max_depth (pb_ring p1) = mgr_max_depth (pb_ring p) -> published now p p' s tags rates.
Proof.
  intros [R B N L St] T D M. split; try done; [|by rewrite St, M; unfold stream; rewrite D].
  rewrite <- R. apply sample_local. by rewrite T.
Qed.
Lemma publish_all now all p :
  time_ok now -> tracker_ok now (pb_tracker p) -> NoDup (map st_instance_id all) ->
  Forall (fun s => count_ok (tag_read_count (st_metrics s)) /\ stream_ok (pb_ring p) (st_instance_id s)) all ->
  exists p', smapM (publish_instance on_evict now) all p = (p', Ok (map (fun _ => tt) all)) /\ tracker_ok now (pb_tracker p') /\
    Forall (fun s => exists tags rates, published now p p' s tags rates) all /\
    (forall tid, ~ system_id_of all tid -> latest_get tid (pb_latest p') = latest_get tid (pb_latest p)) /\
    forall k, k ∉ map st_instance_id all -> dict_get k (buffers (pb_ring p')) = dict_get k (buffers (pb_ring p)).
Proof.
  intros T. revert p. induction all as [|s rest IH]; intros p K N F; [by exists p|].
  apply NoDup_cons in N as [Ni N]. apply Forall_cons in F as [[C R] F].
  destruct (publish_instance_total now s p T K C R) as (p1 & tags & rates & E & P & K1 & M & L & D).
  assert (forall s', s' ∈ rest -> st_instance_id s' <> st_instance_id s) as Ne.
  { intros s' I X. apply Ni. rewrite <- X. by apply list_elem_of_In, in_map, list_elem_of_In. }
  destruct (IH p1 K1 N) as (p' & E' & K' & P' & L' & D').
  { rewrite Forall_forall in *. intros s' I. destruct (F s' I) as [C' R']. split; [done|]. unfold stream_ok. rewrite M, (proj1 (D _ (Ne s' I))). done. }
  exists p'. cbn [smapM]. unfold sbind, sret. rewrite E, E'. split; [done|]. split; [done|]. split; [|split].
  - constructor; [exists tags, rates; by eapply published_later; eauto|]. rewrite Forall_forall in *. intros s' I.
    destruct (P' s' I) as (ts & rs & X). exists ts, rs. destruct (D _ (Ne s' I)) as [D1 D2]. by eapply published_earlier.
  - intros tid X. rewrite L', L; [done|..].
    + intros (s' & n & ->%list_elem_of_singleton & I). apply X. exists s, n. split; [by left|done].
    + intros (s' & n & I & I'). apply X. exists s', n. split; [by right|done].
  - intros k [X1 X2]%not_elem_of_cons. rewrite D', (proj1 (D k X1)); done.
Qed.

(** Every tick of the publish loop, with the instances' streams in order,
    gives every instance all ten tags: their values are those of its status
    and of its own read rates, the latest-value store holds exactly them under
    the instance's reserved ids and changes nowhere else, and they are appended
    in order to the instance's stream, which keeps its newest samples. *)
Theorem tick_publishes_system_tags now all p :
  time_ok now -> tracker_ok now (pb_tracker p) -> NoDup (map st_instance_id all) ->
  Forall (fun s => count_ok (tag_read_count (st_metrics s)) /\ stream_ok (pb_ring p) (st_instance_id s)) all ->
  exists p', publish_tick on_evict now all p = (p', Ok tt) /\ tracker_ok now (pb_tracker p') /\
    Forall (fun s => exists tags rates, published now p p' s tags rates) all /\
    forall tid, ~ system_id_of all tid -> latest_get tid (pb_latest p') = latest_get tid (pb_latest p).
Proof.
  intros T K N F. destruct (publish_all now all p T K N F) as (p' & E & K' & P & L & _). exists p'.
  unfold publish_tick, sbind. by rewrite E.
Qed.
End PublishAll.

(** ** Concrete ticks *)

Definition t0 : Z := 1700000000 * us_per_second.
Definition earlier : list (string * Z * Z) := [("a", 0, t0); ("b", 7, t0); ("a", 300, t0 + 30 * us_per_second)].
Lemma read_rates_windowed_witness :
  samples_ok (earlier ++ [("a", 600, t0 + 60 * us_per_second)]) /\
  snd (sample ONE_HOUR_SECONDS "a" 600 (t0 + 60 * us_per_second) (after earlier)) =
    mapM_res (fun uw => let* r := windowed_rate (t0 + 60 * us_per_second) uw.2
      [(t0, 0); (t0 + 30 * us_per_second, 300); (t0 + 60 * us_per_second, 600)] 600 in Ok (uw.1, r)) windows_us.
Proof.
  assert (samples_ok (earlier ++ [("a", 600, t0 + 60 * us_per_second)])) as OK.
  { split; [repeat constructor; simpl; unfold t0, us_per_second; lia|].
    repeat constructor; simpl; unfold time_ok, t0, datetime_min, datetime_max, hour_us, us_per_second; lia. }
  split; [exact OK|]. exact (read_rates_windowed earlier "a" 600 (t0 + 60 * us_per_second) OK).
Defined.

(** 600 reads in a minute are reported as ten reads per second, per minute and
    per hour alike; a driver restarted with a fresh counter shows a negative
    rate. *)
Definition ten : pfloat := Eval vm_compute in float_of_Z_raw 10.
Example rates_are_per_second :
  snd (sample ONE_HOUR_SECONDS "a" 600 (t0 + 60 * us_per_second) (after earlier)) =
    Ok [("reads_per_second", ten); ("reads_per_minute", ten); ("reads_per_hour", ten)].
Proof. vm_compute. reflexivity. Qed.
Example restart_gives_negative_rate :
  rmap (map (fun r => fltb r.2 fzero)) (snd (sample ONE_HOUR_SECONDS "a" 5 (t0 + 60 * us_per_second) (after earlier))) = Ok [true; false; false].
Proof. vm_compute. reflexivity. Qed.

Definition idle_status (i : string) (reads : Z) : DriverInstanceStatus :=
  {| st_instance_id := i; st_driver_type := "modbus_tcp"; st_state := RUNNING; Supervisor.consecutive_failures := 0;
     Supervisor.last_error := None;
     st_metrics := {| tag_read_count := reads; error_count := 2; reconnect_count := 0; last_successful_read := None |};
     tag_count := 5; state_changed_at := t0; connectivity_state := CONNECTED |}.
Definition two_instances : list DriverInstanceStatus := [idle_status "a" 600; idle_status "b" 9].
Definition publisher0 : publisher (S := unit) := MkPublisher (after earlier) [] (make_manager 100) tt.
Lemma tick_publishes_system_tags_witness :
  exists p', publish_tick None (t0 + 60 * us_per_second) two_instances publisher0 = (p', Ok tt) /\
    exists tags rates, published (t0 + 60 * us_per_second) publisher0 p' (idle_status "b" 9) tags rates.
Proof.
  destruct (tick_publishes_system_tags (S := unit) None ltac:(done) (t0 + 60 * us_per_second) two_instances publisher0) as (p' & E & _ & F & _).
  - unfold time_ok, t0, datetime_min, datetime_max, hour_us, us_per_second. lia.
  - exists earlier. assert (samples_ok earlier) as OK.
    { split; [repeat constructor; simpl; unfold t0, us_per_second; lia|].
      repeat constructor; simpl; unfold time_ok, t0, datetime_min, datetime_max, hour_us, us_per_second; lia. }
    split; [exact OK|split; [|by apply after_tracks]]. repeat constructor; simpl; unfold t0, us_per_second; lia.
  - by apply (bool_decide_unpack _).
  - repeat constructor; simpl; try lia; done.
  - exists p'. split; [exact E|]. apply Forall_cons in F as [_ F]. apply Forall_cons in F as [F _]. exact F.
Defined.
