(* ===== verification/SnmpDriver.v ===== *)
(** * SNMP manager driver (src/xedge/drivers/snmp/client.py, asn1types.py)

    The SNMP library and the device behind it are an [SnmpNetwork]: what a
    command comes to, and which values a constructor accepts.  [wall i] is what
    the [i]-th [datetime.now(UTC)] returns.  Error messages in write results
    are dropped as elsewhere. *)

From Stdlib Require Import Floats.SpecFloat.
From stdpp Require Import pretty.
From S2P Require Import Prelude PyBytes PyFloat PyDict Connectivity Pipeline ModbusPlanner.
Local Open Scope string_scope.
Local Open Scope list_scope.
Local Open Scope Z_scope.

(** A response value: one of [_NUMERIC_TYPES], one of
    [_EXCEPTION_VALUE_TYPES], or anything else, with its class name and
    [prettyPrint()]. *)
Inductive asn1 := Numeric (type_name : string) (z : Z) | Missing (type_name pretty_print : string) | Textual (type_name pretty_print : string).
(** What a command came to: an exception of the library, an [errorIndication],
    a nonzero [errorStatus] at an index, or variable bindings. *)
Inductive snmp_outcome :=
  | Failed (text : string)
  | ErrorIndication (text : string)
  | ErrorStatus (text : string) (index : Z)
  | VarBinds (values : list asn1).
Inductive snmp_op := GetCmd | NextCmd | BulkCmd.

Class SnmpNetwork (T : Type) := {
  command : snmp_op -> list string -> T -> T * snmp_outcome;
  (** an ASN.1 value of a type, from text or from an integer *)
  set_value : Type;
  construct : string -> string + Z -> res set_value;
  set_command : string -> set_value -> T -> T * snmp_outcome;
  create_target : T -> T * res unit;
  (** Python's [str(v)], and [float]/[int] of text and bytes *)
  str_of : TagValue -> string;
  float_of_text : TagValue -> res pfloat;
  int_of_text : TagValue -> res Z }.

Definition ACCESS_READ_WRITE : string := "read_write".
Definition ACCESS_READ_ONLY : string := "read_only".
Definition ACCESS_WRITE_ONLY : string := "write_only".
Definition AUTH_PROTOCOLS : list string := ["none"; "md5"; "sha"; "sha224"; "sha256"; "sha384"; "sha512"].
Definition PRIV_PROTOCOLS : list string := ["none"; "des"; "3des"; "aes128"; "aes192"; "aes256"].
Definition ENCODERS : list string :=
  ["integer"; "octet_string"; "counter32"; "counter64"; "gauge32"; "timeticks"; "ip_address"; "unsigned32"; "object_identifier"].

Record SnmpTag := MkTag {
  sn_id : string;
  sn_oid : string;
  sn_access : option string;
  sn_data_type : option string;
  sn_scaling : option RawScaling;
  sn_operation : option string }.
Record SnmpGroup := MkGroup { sg_id : string; sg_tags : list SnmpTag; sg_use_bulk : bool }.
Record SnmpConfig := MkSnmpConfig {
  sc_version : string;
  sc_community : option string;
  sc_username : option string;
  sc_auth_password : option string;
  sc_priv_password : option string;
  sc_auth_protocol : option string;
  sc_priv_protocol : option string;
  sc_failure_threshold : option Z;
  sc_recovery_threshold : option Z }.
Record SnmpDriverConfig := MkDriverConfig { sd_instance_id : string; sd_cfg : SnmpConfig; sd_groups : list SnmpGroup }.
Inductive auth_data := CommunityData (name : string) (mp_model : Z)
  | UsmUserData (name : string) (auth_key priv_key : option string) (auth_protocol priv_protocol : string).

Record snmp_driver (T : Type) := MkDriver {
  v_config : option SnmpDriverConfig;
  v_metrics : DriverMetrics;
  v_tags_by_id : dict SnmpTag;
  v_connectivity : ConnectivityTracker;
  v_engine : bool;
  v_auth : option auth_data;
  v_target : bool;
  v_net : T;
  v_clock : nat }.
Arguments MkDriver {T}. Arguments v_config {T}. Arguments v_metrics {T}. Arguments v_tags_by_id {T}. Arguments v_connectivity {T}.
Arguments v_engine {T}. Arguments v_auth {T}. Arguments v_target {T}. Arguments v_net {T}. Arguments v_clock {T}.

(** [cfg.get(key) or None] and its truth *)
Definition nonempty (o : option string) : option string := match o with Some EmptyString => None | _ => o end.
Definition tag_access (tag : SnmpTag) : string := default ACCESS_READ_WRITE (sn_access tag).
(** [_build_auth_data] *)
Definition build_auth_data (cfg : SnmpConfig) : res auth_data :=
  if bool_decide (sc_version cfg ∈ ["v1"; "v2c"]) then
    match nonempty (sc_community cfg) with
    | None => Raise SnmpConfigError
    | Some c => Ok (CommunityData c (if String.eqb (sc_version cfg) "v1" then 0 else 1))
    end
  else
    match nonempty (sc_username cfg) with
    | None => Raise SnmpConfigError
    | Some user =>
        let auth := default "none" (sc_auth_protocol cfg) in
        let priv := default "none" (sc_priv_protocol cfg) in
        raise_if negb (String.eqb priv "none") && String.eqb auth "none" with SnmpConfigError;
        raise_if negb (bool_decide (auth ∈ AUTH_PROTOCOLS)) || negb (bool_decide (priv ∈ PRIV_PROTOCOLS)) with KeyError;
        Ok (UsmUserData user (nonempty (sc_auth_password cfg)) (nonempty (sc_priv_password cfg)) auth priv)
    end.

Section Driver.
Context {T : Type} `{SnmpNetwork T} (wall : nat -> Z).
Local Abbreviation M := (SR (snmp_driver T)).

Definition with_metrics (f : DriverMetrics -> DriverMetrics) (d : snmp_driver T) : snmp_driver T :=
  MkDriver (v_config d) (f (v_metrics d)) (v_tags_by_id d) (v_connectivity d) (v_engine d) (v_auth d) (v_target d) (v_net d) (v_clock d).
Definition with_connectivity (f : ConnectivityTracker -> ConnectivityTracker) (d : snmp_driver T) : snmp_driver T :=
  MkDriver (v_config d) (v_metrics d) (v_tags_by_id d) (f (v_connectivity d)) (v_engine d) (v_auth d) (v_target d) (v_net d) (v_clock d).
Definition with_session (engine : bool) (auth : option auth_data) (target : bool) (d : snmp_driver T) : snmp_driver T :=
  MkDriver (v_config d) (v_metrics d) (v_tags_by_id d) (v_connectivity d) engine auth target (v_net d) (v_clock d).
Definition now_utc : M Z := fun d =>
  (MkDriver (v_config d) (v_metrics d) (v_tags_by_id d) (v_connectivity d) (v_engine d) (v_auth d) (v_target d) (v_net d) (S (v_clock d)),
   Ok (wall (v_clock d))).
Definition on_net {A} (f : T -> T * A) : M A := fun d =>
  let '(t, a) := f (v_net d) in
  (MkDriver (v_config d) (v_metrics d) (v_tags_by_id d) (v_connectivity d) (v_engine d) (v_auth d) (v_target d) t (v_clock d), Ok a).

Definition require_config : M SnmpDriverConfig := fun d =>
  match v_config d with Some c => (d, Ok c) | None => (d, Raise SnmpDriverStateError) end.
Definition require_session : M unit := fun d =>
  if v_engine d && bool_decide (is_Some (v_auth d)) && v_target d then (d, Ok tt) else (d, Raise SnmpDriverStateError).

(** [configure] *)
Definition configure (config : SnmpDriverConfig) : M unit :=
  let! _ := smodify (fun d => MkDriver (Some config) (v_metrics d)
    (fold_left (fun m t => dict_set (sn_id t) t m) (concat (map sg_tags (sd_groups config))) [])
    (v_connectivity d) (v_engine d) (v_auth d) (v_target d) (v_net d) (v_clock d)) in
  let! clock := now_utc in
  let! tracker := slift (make_tracker clock (default DEFAULT_FAILURE_THRESHOLD (sc_failure_threshold (sd_cfg config)))
                           (default DEFAULT_RECOVERY_THRESHOLD (sc_recovery_threshold (sd_cfg config)))) in
  smodify (with_connectivity (fun _ => tracker)).
(** [connect] *)
Definition connect : M unit :=
  let! config := require_config in
  let cfg := sd_cfg config in
  if String.eqb (sc_version cfg) "v1" && existsb sg_use_bulk (sd_groups config) then sraise SnmpConfigError
  else
    let! auth := slift (build_auth_data cfg) in
    let! _ := smodify (fun d => with_session (v_engine d) (Some auth) (v_target d) d) in
    let! created := on_net create_target in
    match created with
    | Ok _ => smodify (fun d => with_session true (v_auth d) true d)
    | Raise PySnmpError => sraise DriverConnectionError
    | Raise e => sraise e
    end.
(** [disconnect] *)
Definition disconnect : M unit := smodify (with_session false None false).

(** ** Writing *)

(** [_inverse_scale] *)
Definition as_float (v : TagValue) : res pfloat := match v with VStr _ | VBytes _ => float_of_text v | _ => value_float v end.
Definition inverse_scale (v : TagValue) (scaling : option RawScaling) : res TagValue :=
  match scaling with
  | None | Some {| raw_scale := None; raw_offset := None |} => Ok v
  | Some sc =>
      let* x := as_float v in
      let* o := num_float (default (NFloat fzero) (raw_offset sc)) in
      let* s := num_float (default (NInt 1) (raw_scale sc)) in
      let* r := fdiv (fsub x o) s in Ok (VFloat r)
  end.
(** [asn1types.encode] *)
Definition as_int (v : TagValue) : res Z :=
  match v with VBool b => Ok (bool_int b) | VInt z => Ok z | VFloat f => trunc f | _ => int_of_text v end.
Definition encode (data_type : string) (v : TagValue) : res set_value :=
  raise_if negb (bool_decide (data_type ∈ ENCODERS)) with KeyError;
  if bool_decide (data_type ∈ ["octet_string"; "ip_address"; "object_identifier"]) then construct data_type (inl (str_of v))
  else let* z := as_int v in construct data_type (inr z).
Definition add_errors (n : Z) (m : DriverMetrics) : DriverMetrics :=
  {| tag_read_count := tag_read_count m; error_count := error_count m + n; reconnect_count := reconnect_count m;
     last_successful_read := last_successful_read m |}.
Definition refused (tag_id : string) (e : exn) : WriteResult := {| wr_success := false; wr_tag_id := tag_id; wr_error := Some e |}.
(** [write] *)
Definition write (tag_id : string) (v : TagValue) : M WriteResult :=
  let! tag := sget (fun d => dict_get tag_id (v_tags_by_id d)) in
  match tag with
  | None => sret (refused tag_id ValueError)
  | Some tag =>
      if String.eqb (tag_access tag) ACCESS_READ_ONLY then sret (refused tag_id PermissionError) else
      match sn_data_type tag with
      | None => sret (refused tag_id TypeError)
      | Some data_type =>
          let! _ := require_session in
          let! raw := slift (inverse_scale v (sn_scaling tag)) in
          let! x := slift (encode data_type raw) in
          let! o := on_net (set_command (sn_oid tag) x) in
          match o with
          | VarBinds _ => sret {| wr_success := true; wr_tag_id := tag_id; wr_error := None |}
          | _ => let! _ := smodify (with_metrics (add_errors 1)) in sret (refused tag_id PySnmpError)
          end
      end
  end.

(** ** Reading *)

Definition full_id (iid : string) (tag : SnmpTag) : string := iid ++ "/" ++ sn_id tag.
Definition snmp_update (iid : string) (tag : SnmpTag) (now : Z) (v : TagValue) (q : Quality) (meta : string * string) : TagUpdate :=
  {| tu_tag_id := full_id iid tag; tu_timestamp := now; tu_value := v; tu_quality := q; tu_source_driver := iid;
     tu_source_address := sn_oid tag; tu_source_timestamp := None; tu_metadata := [(meta.1, JStr meta.2)] |}.
(** [_all_bad] *)
Definition all_bad (iid : string) (tags : list SnmpTag) (error : string) (connectivity_failure : bool) : M (list TagUpdate) :=
  let! _ := (if connectivity_failure then
               let! clock := now_utc in smodify (with_connectivity (record_failure clock None (Some error)))
             else sret tt) in
  let! _ := smodify (with_metrics (add_errors (zlen tags))) in
  let! now := now_utc in
  sret (map (fun tag => snmp_update iid tag now (VInt 0) BAD ("snmp_error", error)) tags).
(** [asn1types.decode] of a value that is not an exception *)
Definition read_metrics (now : Z) (m : DriverMetrics) : DriverMetrics :=
  {| tag_read_count := tag_read_count m + 1; error_count := error_count m; reconnect_count := reconnect_count m;
     last_successful_read := Some now |}.
(** [_build_update] *)
Definition build_update (iid : string) (now : Z) (tag : SnmpTag) (value : asn1) : M TagUpdate :=
  match value with
  | Missing _ text =>
      let! _ := smodify (with_metrics (add_errors 1)) in sret (snmp_update iid tag now (VInt 0) BAD ("snmp_error", text))
  | Numeric ty z =>
      let! _ := smodify (with_metrics (read_metrics now)) in sret (snmp_update iid tag now (VInt z) GOOD ("snmp_type", ty))
  | Textual ty text =>
      let! _ := smodify (with_metrics (read_metrics now)) in sret (snmp_update iid tag now (VStr text) GOOD ("snmp_type", ty))
  end.
(** The comprehension over [zip(tags, result_binds, strict=True)]. *)
Fixpoint build_updates (iid : string) (now : Z) (tags : list SnmpTag) (values : list asn1) : M (list TagUpdate) :=
  match tags, values with
  | [], [] => sret []
  | tag :: tags, v :: values =>
      let! u := build_update iid now tag v in let! us := build_updates iid now tags values in sret (u :: us)
  | _, _ => sraise ValueError
  end.
(** [_request] *)
Definition request (iid : string) (tags : list SnmpTag) (bulk next_op : bool) : M (list TagUpdate) :=
  let! _ := require_session in
  let! o := on_net (command (if bulk then BulkCmd else if next_op then NextCmd else GetCmd) (map sn_oid tags)) in
  match o with
  | Failed text | ErrorIndication text => all_bad iid tags text true
  | ErrorStatus text i => all_bad iid tags (text ++ " at index " ++ pretty i) false
  | VarBinds values =>
      let! clock := now_utc in
      let! _ := smodify (with_connectivity (record_success clock None)) in
      let! now := now_utc in
      build_updates iid now tags values
  end.
Definition is_next (tag : SnmpTag) : bool := String.eqb (default "get" (sn_operation tag)) "get_next".
(** [_read_tags] *)
Definition read_tags (iid : string) (tags : list SnmpTag) (use_bulk : bool) : M (list TagUpdate) :=
  let get_tags := List.filter (fun t => negb (is_next t)) tags in
  let next_tags := List.filter is_next tags in
  let! us1 := match get_tags with [] => sret [] | _ => request iid get_tags false false end in
  let! us2 := match next_tags with [] => sret [] | _ => request iid next_tags use_bulk true end in
  sret (us1 ++ us2).
(** One iteration of [_poll_group], and the updates it puts on the queue. *)
Definition poll_group (group : SnmpGroup) : M (list TagUpdate) :=
  let! iid := sget (fun d => match v_config d with Some c => sd_instance_id c | None => "snmp" end) in
  let tags := List.filter (fun t => negb (String.eqb (tag_access t) ACCESS_WRITE_ONLY)) (sg_tags group) in
  match tags with [] => sret [] | _ => read_tags iid tags (sg_use_bulk group) end.
(** [get_connectivity_state] *)
Definition connectivity_state_of (d : snmp_driver T) : ConnectivityState := state (v_connectivity d).
End Driver.

(** ** What a poll cycle reports *)

Section Reports.
Context {T : Type} `{SnmpNetwork T} (wall : nat -> Z).

(** The update a tag gets for the value the device returned. *)
Definition update_of (iid : string) (now : Z) (tag : SnmpTag) (v : asn1) : TagUpdate :=
  match v with
  | Numeric ty z => snmp_update iid tag now (VInt z) GOOD ("snmp_type", ty)
  | Textual ty text => snmp_update iid tag now (VStr text) GOOD ("snmp_type", ty)
  | Missing _ text => snmp_update iid tag now (VInt 0) BAD ("snmp_error", text)
  end.
Definition outcome_error (o : snmp_outcome) : string :=
  match o with Failed text | ErrorIndication text => text | ErrorStatus text i => text ++ " at index " ++ pretty i | VarBinds _ => "" end.
(** The updates of the tags of one request. *)
Definition outcome_updates (iid : string) (now : Z) (tags : list SnmpTag) (o : option snmp_outcome) : list TagUpdate :=
  match o with
  | None => []
  | Some (VarBinds values) => zip_with (update_of iid now) tags values
  | Some o => map (fun tag => snmp_update iid tag now (VInt 0) BAD ("snmp_error", outcome_error o)) tags
  end.
(** The result recorded by the connectivity tracker: an answered request is a
    success, an unanswered one a failure, a refused one neither. *)
Definition outcome_track (clock : Z) (o : option snmp_outcome) (t : ConnectivityTracker) : ConnectivityTracker :=
  match o with
  | Some (VarBinds _) => record_success clock None t
  | Some (Failed text) | Some (ErrorIndication text) => record_failure clock None (Some text) t
  | _ => t
  end.
(** One request for all the tags, none when there are no tags. *)
Definition ask (op : snmp_op) (tags : list SnmpTag) (t : T) : T * option snmp_outcome :=
  match tags with [] => (t, None) | _ => let '(t, o) := command op (map sn_oid tags) t in (t, Some o) end.

(** Documented of the library: a response binds one value per requested OID. *)
Definition one_value_per_oid : Prop :=
  forall op oids t values, snd (command op oids t) = VarBinds values -> length values = length oids.
Definition has_session (d : snmp_driver T) : Prop := v_engine d = true /\ is_Some (v_auth d) /\ v_target d = true.
(** Between the two requests of a cycle: the session stays, counters move by
    the updates built. *)
Record accounted (d d' : snmp_driver T) (us : list TagUpdate) : Prop := {
  acc_config : v_config d' = v_config d;
  acc_session : has_session d -> has_session d';
  acc_errors : error_count (v_metrics d') = error_count (v_metrics d) + quality_count BAD us;
  acc_reads : tag_read_count (v_metrics d') = tag_read_count (v_metrics d) + quality_count GOOD us }.

Lemma all_bad_counts iid now error tags :
  let us := map (fun tag => snmp_update iid tag now (VInt 0) BAD ("snmp_error", error)) tags in
  quality_count BAD us = zlen tags /\ quality_count GOOD us = 0.
Proof. induction tags as [|t tags [IH1 IH2]]; [done|]. cbn [map] in *. rewrite !quality_count_cons, IH1, IH2. autorewrite with zlen. simpl. lia. Qed.
Lemma accounted_refl d : accounted d d [].
Proof. split; try done; unfold quality_count, count_if; simpl; rewrite zlen_nil; lia. Qed.
Lemma accounted_trans d1 d2 d3 us1 us2 : accounted d1 d2 us1 -> accounted d2 d3 us2 -> accounted d1 d3 (us1 ++ us2).
Proof. intros [] []. split; rewrite ?quality_count_app; try lia; [congruence|auto]. Qed.

Lemma build_updates_spec iid now tags values d : length values = length tags ->
  exists d', build_updates iid now tags values d = (d', Ok (zip_with (update_of iid now) tags values)) /\
    accounted d d' (zip_with (update_of iid now) tags values) /\ v_connectivity d' = v_connectivity d /\ v_net d' = v_net d.
Proof.
  revert values d. induction tags as [|tag tags IH]; intros [|v values] d L; try done; [exists d; split; [done|split; [apply accounted_refl|done]]|].
  assert (exists d1, build_update iid now tag v d = (d1, Ok (update_of iid now tag v)) /\ accounted d d1 [update_of iid now tag v] /\
            v_connectivity d1 = v_connectivity d /\ v_net d1 = v_net d) as (d1 & E & A & C & N).
  { destruct v; (eexists; split; [reflexivity|]); (split; [split; try done; simpl; unfold quality_count, count_if; simpl; autorewrite with zlen; lia|done]). }
  destruct (IH values d1) as (d2 & E2 & A2 & C2 & N2); [by injection L|]. exists d2. cbn [build_updates zip_with].
  unfold sbind. rewrite E, E2. split; [done|]. split; [exact (accounted_trans _ _ _ _ _ A A2)|]. split; congruence.
Qed.
Lemma request_spec iid tags (bulk next : bool) d : one_value_per_oid -> has_session d -> tags <> [] ->
  exists d' now clock, let '(t, o) := ask (if bulk then BulkCmd else if next then NextCmd else GetCmd) tags (v_net d) in
    request wall iid tags bulk next d = (d', Ok (outcome_updates iid now tags o)) /\
    accounted d d' (outcome_updates iid now tags o) /\ v_connectivity d' = outcome_track clock o (v_connectivity d) /\ v_net d' = t.
Proof.
  intros One (E & [a A] & G) Ne. unfold request, require_session, on_net, sbind. rewrite E, A, G. simpl.
  unfold ask. destruct tags as [|tag0 tags0] eqn:Et; [done|]. rewrite <- Et in *. clear Et Ne tag0 tags0.
  pose proof (One (if bulk then BulkCmd else if next then NextCmd else GetCmd) (map sn_oid tags) (v_net d)) as L.
  destruct (command _ (map sn_oid tags) (v_net d)) as [t o]. simpl in L.
  destruct o as [text|text|text i|values].
  1,2: eexists _, (wall (S (v_clock d))), (wall (v_clock d)); split; [reflexivity|split; [|done]];
    destruct (all_bad_counts iid (wall (S (v_clock d))) text tags) as [B1 B2]; split; [done|done|..]; simpl; rewrite ?B1, ?B2; lia.
  - eexists _, (wall (v_clock d)), 0. split; [reflexivity|split; [|done]].
    destruct (all_bad_counts iid (wall (v_clock d)) (text ++ " at index " ++ pretty i)%string tags) as [B1 B2].
    split; [done|done|..]; simpl; rewrite ?B1, ?B2; lia.
  - specialize (L values eq_refl). rewrite length_map in L. unfold now_utc, smodify. simpl.
    match goal with |- context [build_updates iid ?n tags values ?d0] =>
      destruct (build_updates_spec iid n tags values d0 L) as (d' & B & [Ac1 Ac2 Ac3 Ac4] & C & N) end.
    exists d', (wall (S (v_clock d))), (wall (v_clock d)). rewrite B. split; [done|]. split; [split; done|]. by rewrite C, N.
Qed.

Lemma connect_opens_session d d' : connect d = (d', Ok tt) -> has_session d' /\ v_config d' = v_config d /\ is_Some (v_config d).
Proof.
  unfold connect, require_config, sbind. destruct (v_config d) as [c|] eqn:C; [|done]. simpl. destruct (_ && _); [done|].
  unfold slift. destruct (build_auth_data _) as [a|]; [|done]. unfold smodify, on_net. simpl. destruct (create_target _) as [t [u|e]]; simpl.
  - intros [= <-]. unfold has_session. simpl. by rewrite C.
  - by destruct e.
Qed.

Definition polled_tags (group : SnmpGroup) : list SnmpTag :=
  List.filter (fun t => negb (String.eqb (tag_access t) ACCESS_WRITE_ONLY)) (sg_tags group).
Definition get_tags (group : SnmpGroup) : list SnmpTag := List.filter (fun t => negb (is_next t)) (polled_tags group).
Definition next_tags (group : SnmpGroup) : list SnmpTag := List.filter is_next (polled_tags group).
Lemma ask_reports iid tags (bulk next : bool) d : one_value_per_oid -> has_session d ->
  exists d' now clock, let '(t, o) := ask (if bulk then BulkCmd else if next then NextCmd else GetCmd) tags (v_net d) in
    match tags with [] => sret [] | _ => request wall iid tags bulk next end d = (d', Ok (outcome_updates iid now tags o)) /\
    accounted d d' (outcome_updates iid now tags o) /\ v_connectivity d' = outcome_track clock o (v_connectivity d) /\ v_net d' = t.
Proof.
  intros One S. destruct tags as [|tag tags]; [|by apply request_spec]. exists d, 0, 0. simpl. split; [done|]. split; [apply accounted_refl|done].
Qed.
Lemma partition_perm {A} (f : A -> bool) (l : list A) : List.filter (fun x => negb (f x)) l ++ List.filter f l ≡ₚ l.
Proof.
  induction l as [|x l IH]; simpl; [done|]. destruct (f x); simpl; [|by rewrite IH]. by rewrite <- Permutation_middle, IH.
Qed.

(** After a successful connect, a poll cycle issues at most one request for
    the tags read by OID and one for those read by successor, and reports every
    readable tag of the group exactly once: with the device's value, or Bad
    when its value is missing or its request failed.  The error and read
    counters move by the Bad and Good updates, and connectivity by the
    requests answered and unanswered. *)
Theorem snmp_poll_reports d0 d group c :
  one_value_per_oid -> connect d0 = (d, Ok tt) -> v_config d = Some c ->
  exists d' now1 now2 clock1 clock2,
    let '(t1, o1) := ask GetCmd (get_tags group) (v_net d) in
    let '(t2, o2) := ask (if sg_use_bulk group then BulkCmd else NextCmd) (next_tags group) t1 in
    let us := outcome_updates (sd_instance_id c) now1 (get_tags group) o1 ++ outcome_updates (sd_instance_id c) now2 (next_tags group) o2 in
    poll_group wall group d = (d', Ok us) /\ accounted d d' us /\
    map tu_tag_id us ≡ₚ map (full_id (sd_instance_id c)) (polled_tags group) /\
    v_connectivity d' = outcome_track clock2 o2 (outcome_track clock1 o1 (v_connectivity d)) /\ v_net d' = t2.
Proof.
  intros One S C. apply connect_opens_session in S as [S _].
  assert (forall now tags op t, map tu_tag_id (outcome_updates (sd_instance_id c) now tags (snd (ask op tags t))) = map (full_id (sd_instance_id c)) tags) as Ids.
  { intros now tags op t. unfold ask. destruct tags as [|tag tags]; [done|]. pose proof (One op (map sn_oid (tag :: tags)) t) as L.
    destruct (command _ _ t) as [t' [text|text|text i|values]]; simpl; try by rewrite !map_map.
    specialize (L values eq_refl). rewrite length_map in L. clear - L. change (map tu_tag_id (zip_with (update_of (sd_instance_id c) now) (tag :: tags) values) =
      map (full_id (sd_instance_id c)) (tag :: tags)). revert values L. induction (tag :: tags) as [|x l IH]; intros [|v values] L; try done.
    simpl. rewrite IH by (by injection L). by destruct v. }
  destruct (ask_reports (sd_instance_id c) (get_tags group) false false d One S) as (d1 & now1 & clock1 & R1).
  pose proof (Ids now1 (get_tags group) GetCmd (v_net d)) as I1. destruct (ask GetCmd (get_tags group) (v_net d)) as [t1 o1].
  destruct R1 as (P1 & A1 & C1 & N1).
  destruct (ask_reports (sd_instance_id c) (next_tags group) (sg_use_bulk group) true d1 One (acc_session _ _ _ A1 S)) as (d2 & now2 & clock2 & R2).
  rewrite N1 in R2. pose proof (Ids now2 (next_tags group) (if sg_use_bulk group then BulkCmd else NextCmd) t1) as I2.
  exists d2, now1, now2, clock1, clock2. destruct (ask _ (next_tags group) t1) as [t2 o2]. destruct R2 as (P2 & A2 & C2 & N2). simpl in I1, I2.
  split; [|split; [exact (accounted_trans _ _ _ _ _ A1 A2)|split; [|split; [by rewrite C2, C1|done]]]].
  - unfold poll_group, sbind, sget. rewrite C. fold (polled_tags group). destruct (polled_tags group) as [|x l] eqn:Pt.
    + unfold get_tags, next_tags in *. rewrite Pt in *. simpl in *. injection P1 as -> <-. injection P2 as -> <-. done.
    + rewrite <- Pt. unfold read_tags, sbind. fold (get_tags group) (next_tags group). rewrite P1, P2. done.
  - rewrite map_app, I1, I2, <- map_app. apply Permutation_map, partition_perm.
Qed.
End Reports.

(** ** A concrete agent: a table of values *)
Section Example.
Definition mib (oid : string) : asn1 :=
  if String.eqb oid "1.3.6.1.2.1.1.3.0" then Numeric "TimeTicks" 4711
  else if String.eqb oid "1.3.6.1.2.1.1.5.0" then Textual "DisplayString" "gw" else Missing "NoSuchObject" "No Such Object".
#[local] Instance table_agent : SnmpNetwork unit :=
  {| command _ oids t := (t, VarBinds (map mib oids)); set_value := string + Z; construct _ v := Ok v;
     set_command _ _ t := (t, VarBinds []); create_target t := (t, Ok tt);
     str_of _ := ""; float_of_text _ := Raise ValueError; int_of_text _ := Raise ValueError |}.
Definition tag (id oid : string) (op : option string) : SnmpTag := MkTag id oid None None None op.
Definition sys_group : SnmpGroup :=
  MkGroup "g" [tag "up" "1.3.6.1.2.1.1.3.0" None; tag "nx" "1.3.6.1.2.1.1.5.0" (Some "get_next"); tag "gone" "9" None] true.
Definition v2c : SnmpConfig := MkSnmpConfig "v2c" (Some "public") None None None None None None None.
Definition new_driver : snmp_driver unit :=
  MkDriver None {| tag_read_count := 0; error_count := 0; reconnect_count := 0; last_successful_read := None |} []
    {| failure_threshold := 3; recovery_threshold := 3; state := UNKNOWN; Connectivity.consecutive_failures := 0;
       consecutive_successes := 0; last_failure_reason := None; changed_at := 0 |} false None false tt 0.
Definition configured : snmp_driver unit := fst (configure Z.of_nat (MkDriverConfig "snmp1" v2c [sys_group]) new_driver).

Lemma snmp_poll_reports_witness :
  exists d' us, poll_group Z.of_nat sys_group (fst (connect configured)) = (d', Ok us) /\
    map (fun u => (tu_tag_id u, tu_value u, tu_quality u)) us =
      [("snmp1/up", VInt 4711, GOOD); ("snmp1/gone", VInt 0, BAD); ("snmp1/nx", VStr "gw", GOOD)] /\
    error_count (v_metrics d') = 1 /\ tag_read_count (v_metrics d') = 2.
Proof.
  destruct (snmp_poll_reports Z.of_nat configured (fst (connect configured)) sys_group (MkDriverConfig "snmp1" v2c [sys_group]))
    as (d' & now1 & now2 & clock1 & clock2 & P).
  - intros op oids t values [= <-]. apply length_map.
  - reflexivity.
  - reflexivity.
  - simpl in P. destruct P as (P & [_ _ E R] & _). exists d'. eexists. split; [exact P|]. split; [reflexivity|]. split; [exact E|exact R].
Defined.

(** A text that is no number, written to a numeric tag, raises out of [write]
    instead of a failed result. *)
Example unconvertible_write_raises :
  let d := fst (configure Z.of_nat (MkDriverConfig "snmp1" v2c [MkGroup "g" [MkTag "sp" "1" None (Some "integer") None None] false]) new_driver) in
  snd (write "sp" (VStr "high") (fst (connect d))) = Raise ValueError.
Proof. vm_compute. reflexivity. Qed.
(** v1 has no GETBULK, and privacy needs authentication. *)
Example v1_bulk_refused :
  let cfg := MkSnmpConfig "v1" (Some "public") None None None None None None None in
  snd (connect (fst (configure Z.of_nat (MkDriverConfig "snmp1" cfg [sys_group]) new_driver))) = Raise SnmpConfigError.
Proof. vm_compute. reflexivity. Qed.
Example privacy_needs_authentication :
  build_auth_data (MkSnmpConfig "v3" None (Some "u") None (Some "pw") None (Some "aes128") None None) = Raise SnmpConfigError.
Proof. vm_compute. reflexivity. Qed.
End Example.
