(* ===== verification/EtherNetIpDriver.v ===== *)
(** * EtherNet/IP driver (src/xedge/drivers/ethernet_ip/client.py)

    Polled explicit messaging over a CIP library, which with the controller
    behind it is a [CipSession].  Calls run in a worker thread; a call's outcome
    is a value or one of the library's exceptions ([CommError] is a
    [PycommError] that means the connection is lost). *)

From Stdlib Require Import Floats.SpecFloat.
From stdpp Require Import pretty.
From S2P Require Import Prelude PyBytes PyFloat PyDict Pipeline ModbusPlanner.
Local Open Scope string_scope.
Local Open Scope list_scope.
Local Open Scope Z_scope.

(** A value the library returns: a scalar, or anything else with its [str]. *)
Inductive cip_value := Scalar (v : TagValue) | Compound (text : string).
(** [pycomm3.Tag]: its value, type and error, and its truth. *)
Record PycommTag := MkPycommTag { pt_value : cip_value; pt_type : json; pt_error : option string; pt_truth : bool }.
(** [read] of one name returns the tag itself, of several a list. *)
Inductive read_result := OneTag (t : PycommTag) | TagList (ts : list PycommTag).

Class CipSession (T : Type) := {
  cip_open : string -> pfloat -> T -> T * res bool;
  cip_close : T -> T * res unit;
  cip_read : list string -> T -> T * res read_result;
  cip_write : string -> TagValue -> T -> T * res PycommTag;
  error_text : exn -> string;
  (** [float] of text and bytes *)
  float_of_text : TagValue -> res pfloat }.

Definition DEFAULT_PORT : Z := 44818.
Definition DEFAULT_SLOT : Z := 0.
Definition DEFAULT_CONNECT_TIMEOUT_SECONDS : Z := 5.
Definition ACCESS_READ_WRITE : string := "read_write".
Definition ACCESS_READ_ONLY : string := "read_only".
Definition ACCESS_WRITE_ONLY : string := "write_only".

Record CipTag := MkTag { ct_id : string; ct_name : string; ct_access : option string; ct_scaling : option RawScaling }.
Record CipGroup := MkGroup { cg_id : string; cg_tags : list CipTag }.
Record CipConfig := MkCipConfig { cc_host : string; cc_port : option Z; cc_slot : option Z; cc_timeout : option num }.
Record CipDriverConfig := MkDriverConfig { cd_instance_id : string; cd_cfg : CipConfig; cd_groups : list CipGroup }.
Record cip_driver (T : Type) := MkDriver {
  p_config : option CipDriverConfig;
  p_open : bool;
  p_metrics : DriverMetrics;
  p_tags_by_id : dict CipTag;
  p_session : T;
  p_clock : nat }.
Arguments MkDriver {T}. Arguments p_config {T}. Arguments p_open {T}. Arguments p_metrics {T}. Arguments p_tags_by_id {T}.
Arguments p_session {T}. Arguments p_clock {T}.

Definition tag_access (tag : CipTag) : string := default ACCESS_READ_WRITE (ct_access tag).
Definition is_pycomm_error (e : exn) : bool := match e with PycommError | CommError => true | _ => false end.

Section Driver.
Context {T : Type} `{CipSession T} (wall : nat -> Z).
Local Abbreviation M := (SR (cip_driver T)).

Definition with_metrics (f : DriverMetrics -> DriverMetrics) (d : cip_driver T) : cip_driver T :=
  MkDriver (p_config d) (p_open d) (f (p_metrics d)) (p_tags_by_id d) (p_session d) (p_clock d).
Definition with_open (b : bool) (d : cip_driver T) : cip_driver T :=
  MkDriver (p_config d) b (p_metrics d) (p_tags_by_id d) (p_session d) (p_clock d).
Definition now_utc : M Z := fun d =>
  (MkDriver (p_config d) (p_open d) (p_metrics d) (p_tags_by_id d) (p_session d) (S (p_clock d)), Ok (wall (p_clock d))).
(** [await asyncio.to_thread(f)] *)
Definition to_thread {A} (f : T -> T * res A) : M A := fun d =>
  let '(t, r) := f (p_session d) in (MkDriver (p_config d) (p_open d) (p_metrics d) (p_tags_by_id d) t (p_clock d), r).
Definition require_config : M CipDriverConfig := fun d =>
  match p_config d with Some c => (d, Ok c) | None => (d, Raise EtherNetIpDriverStateError) end.
Definition require_driver : M unit := fun d => if p_open d then (d, Ok tt) else (d, Raise EtherNetIpDriverStateError).

(** [_connection_path] *)
Definition connection_path (cfg : CipConfig) : string :=
  cc_host cfg ++ ":" ++ pretty (default DEFAULT_PORT (cc_port cfg)) ++ "/" ++ pretty (default DEFAULT_SLOT (cc_slot cfg)).
(** [configure] *)
Definition configure (config : CipDriverConfig) : M unit :=
  smodify (fun d => MkDriver (Some config) (p_open d) (p_metrics d)
    (fold_left (fun m t => dict_set (ct_id t) t m) (concat (map cg_tags (cd_groups config))) []) (p_session d) (p_clock d)).
(** [connect] *)
Definition connect : M unit :=
  let! config := require_config in
  let cfg := cd_cfg config in
  let! timeout := slift (num_float (default (NInt DEFAULT_CONNECT_TIMEOUT_SECONDS) (cc_timeout cfg))) in
  let! opened := scatch (to_thread (cip_open (connection_path cfg) timeout))
    (fun e => if is_pycomm_error e then sraise DriverConnectionError else sraise e) in
  if (opened : bool) then smodify (with_open true) else sraise DriverConnectionError.
(** [disconnect] *)
Definition disconnect : M unit :=
  let! opened := sget p_open in
  if (opened : bool) then
    let! _ := scatch (to_thread cip_close) (fun e => if is_pycomm_error e then sret tt else sraise e) in
    smodify (with_open false)
  else sret tt.

(** [_inverse_scale] *)
Definition as_float (v : TagValue) : res pfloat := match v with VStr _ | VBytes _ => float_of_text v | _ => value_float v end.
Definition inverse_scale (v : TagValue) (scaling : option RawScaling) : res TagValue :=
  match scaling with
  | None | Some {| raw_scale := None; raw_offset := None |} => Ok v
  | Some sc =>
      let* x := as_float v in
      let* o := num_float (default (NFloat fzero) (raw_offset sc)) in
      let* s := num_float (default (NInt 1) (raw_scale sc)) in
      let* r := fdiv (fsub x o) s in Ok (VFloat r)
  end.
Definition add_errors (n : Z) (m : DriverMetrics) : DriverMetrics :=
  {| tag_read_count := tag_read_count m; error_count := error_count m + n; reconnect_count := reconnect_count m;
     last_successful_read := last_successful_read m |}.
Definition refused (tag_id : string) (e : exn) : WriteResult := {| wr_success := false; wr_tag_id := tag_id; wr_error := Some e |}.
(** [write] *)
Definition write (tag_id : string) (v : TagValue) : M WriteResult :=
  let! tag := sget (fun d => dict_get tag_id (p_tags_by_id d)) in
  match tag with
  | None => sret (refused tag_id ValueError)
  | Some tag =>
      if String.eqb (tag_access tag) ACCESS_READ_ONLY then sret (refused tag_id PermissionError) else
      let! _ := require_driver in
      let! raw := slift (inverse_scale v (ct_scaling tag)) in
      scatch
        (let! result := to_thread (cip_write (ct_name tag) raw) in
         if pt_truth result then sret {| wr_success := true; wr_tag_id := tag_id; wr_error := None |}
         else let! _ := smodify (with_metrics (add_errors 1)) in sret (refused tag_id PycommError))
        (fun e => match e with
           | PycommError => let! _ := smodify (with_metrics (add_errors 1)) in sret (refused tag_id PycommError)
           | _ => sraise e
           end)
  end.

(** ** Reading *)

(** [_coerce_value] *)
Definition coerce_value (v : cip_value) : TagValue := match v with Scalar v => v | Compound text => VStr text end.
Definition full_id (iid : string) (tag : CipTag) : string := iid ++ "/" ++ ct_id tag.
(** [_bad_update] *)
Definition bad_update (iid : string) (error : string) (now : Z) (tag : CipTag) : TagUpdate :=
  {| tu_tag_id := full_id iid tag; tu_timestamp := now; tu_value := VInt 0; tu_quality := BAD; tu_source_driver := iid;
     tu_source_address := ct_name tag; tu_source_timestamp := None; tu_metadata := [("ethernet_ip_error", JStr error)] |}.
Definition good_update (iid : string) (now : Z) (tag : CipTag) (r : PycommTag) : TagUpdate :=
  {| tu_tag_id := full_id iid tag; tu_timestamp := now; tu_value := coerce_value (pt_value r); tu_quality := GOOD; tu_source_driver := iid;
     tu_source_address := ct_name tag; tu_source_timestamp := None; tu_metadata := [("ethernet_ip_type", pt_type r)] |}.
(** [result.error or "read failed"] *)
Definition read_error (r : PycommTag) : string := match pt_error r with None | Some EmptyString => "read failed" | Some e => e end.
(** [_build_update] *)
Definition build_update (iid : string) (now : Z) (tag : CipTag) (r : PycommTag) : M TagUpdate :=
  if pt_truth r then
    let! _ := smodify (with_metrics (fun m =>
      {| tag_read_count := tag_read_count m + 1; error_count := error_count m; reconnect_count := reconnect_count m;
         last_successful_read := Some now |})) in
    sret (good_update iid now tag r)
  else let! _ := smodify (with_metrics (add_errors 1)) in sret (bad_update iid (read_error r) now tag).
Fixpoint build_updates (iid : string) (now : Z) (tags : list CipTag) (rs : list PycommTag) : M (list TagUpdate) :=
  match tags, rs with
  | [], [] => sret []
  | tag :: tags, r :: rs =>
      let! u := build_update iid now tag r in let! us := build_updates iid now tags rs in sret (u :: us)
  | _, _ => sraise ValueError
  end.
(** [raw_results if isinstance(raw_results, list) else [raw_results]] *)
Definition result_list (r : read_result) : list PycommTag := match r with OneTag r => [r] | TagList rs => rs end.
(** [_read_tags]; the group's cycle stops on [CommError]. *)
Definition read_tags (iid : string) (tags : list CipTag) : M (list TagUpdate) :=
  let! _ := require_driver in
  let! raw := scatch (let! r := to_thread (cip_read (map ct_name tags)) in sret (inl r))
    (fun e => match e with PycommError => sret (inr e) | _ => sraise e end) in
  match raw with
  | inr e =>
      let! _ := smodify (with_metrics (add_errors (zlen tags))) in
      let! now := now_utc in sret (map (bad_update iid (error_text e) now) tags)
  | inl results =>
      let! now := now_utc in
      build_updates iid now tags (result_list results)
  end.
(** One iteration of [_poll_group], and the updates it puts on the queue. *)
Definition poll_group (group : CipGroup) : M (list TagUpdate) :=
  let! iid := sget (fun d => match p_config d with Some c => cd_instance_id c | None => "ethernet_ip" end) in
  let tags := List.filter (fun t => negb (String.eqb (tag_access t) ACCESS_WRITE_ONLY)) (cg_tags group) in
  match tags with [] => sret [] | _ => read_tags iid tags end.
End Driver.

(** ** What a poll cycle reports *)
Section Reports.
Context {T : Type} `{CipSession T} (wall : nat -> Z).

(** Documented of the library: as many results as names. *)
Definition one_result_per_name : Prop := forall names t r, snd (cip_read names t) = Ok r -> length (result_list r) = length names.
Definition update_of (iid : string) (now : Z) (tag : CipTag) (r : PycommTag) : TagUpdate :=
  if pt_truth r then good_update iid now tag r else bad_update iid (read_error r) now tag.
Definition polled_tags (group : CipGroup) : list CipTag :=
  List.filter (fun t => negb (String.eqb (tag_access t) ACCESS_WRITE_ONLY)) (cg_tags group).
Record accounted (d d' : cip_driver T) (us : list TagUpdate) : Prop := {
  acc_config : p_config d' = p_config d;
  acc_open : p_open d' = p_open d;
  acc_errors : error_count (p_metrics d') = error_count (p_metrics d) + quality_count BAD us;
  acc_reads : tag_read_count (p_metrics d') = tag_read_count (p_metrics d) + quality_count GOOD us }.

Lemma cip_all_bad_counts iid error now tags :
  quality_count BAD (map (bad_update iid error now) tags) = zlen tags /\ quality_count GOOD (map (bad_update iid error now) tags) = 0.
Proof. induction tags as [|t tags [IH1 IH2]]; [done|]. cbn [map]. rewrite !quality_count_cons, IH1, IH2. autorewrite with zlen. simpl. lia. Qed.
Lemma cip_build_updates_spec iid now tags rs d : length rs = length tags ->
  exists d', build_updates iid now tags rs d = (d', Ok (zip_with (update_of iid now) tags rs)) /\
    accounted d d' (zip_with (update_of iid now) tags rs) /\ p_session d' = p_session d.
Proof.
  revert rs d. induction tags as [|tag tags IH]; intros [|r rs] d L; try done.
  - exists d. split; [done|]. split; [|done]. split; try done; unfold quality_count, count_if; simpl; rewrite zlen_nil; lia.
  - assert (exists d1, build_update iid now tag r d = (d1, Ok (update_of iid now tag r)) /\ accounted d d1 [update_of iid now tag r] /\
              p_session d1 = p_session d) as (d1 & E & [A1 A2 A3 A4] & S).
    { unfold build_update, update_of. destruct (pt_truth r); (eexists; split; [reflexivity|]);
        (split; [split; try done; simpl; unfold quality_count, count_if; simpl; autorewrite with zlen; lia|done]). }
    destruct (IH rs d1) as (d2 & E2 & [B1 B2 B3 B4] & S2); [by injection L|]. exists d2. cbn [build_updates zip_with].
    unfold sbind. rewrite E, E2. split; [done|]. split; [|congruence]. rewrite !quality_count_cons in *.
    change (quality_count BAD []) with 0 in *. change (quality_count GOOD []) with 0 in *.
    split; rewrite ?quality_count_cons; try congruence; lia.
Qed.

(** On an open session a poll cycle makes one read for all readable tags of
    the group.  A lost connection is raised to the supervisor and counts
    nothing; any other failure makes every tag Bad; otherwise every tag is
    reported once, in order, with the controller's value or Bad with its own
    error.  The counters move by the Bad and Good updates. *)
Theorem cip_poll_reports d c group :
  one_result_per_name -> p_open d = true -> p_config d = Some c -> polled_tags group <> [] ->
  let tags := polled_tags group in
  let '(t, outcome) := cip_read (map ct_name tags) (p_session d) in
  match outcome with
  | Ok r => exists d' now, poll_group wall group d = (d', Ok (zip_with (update_of (cd_instance_id c) now) tags (result_list r))) /\
      accounted d d' (zip_with (update_of (cd_instance_id c) now) tags (result_list r)) /\ p_session d' = t
  | Raise PycommError => exists d' now, poll_group wall group d = (d', Ok (map (bad_update (cd_instance_id c) (error_text PycommError) now) tags)) /\
      accounted d d' (map (bad_update (cd_instance_id c) (error_text PycommError) now) tags) /\ p_session d' = t
  | Raise e => exists d', poll_group wall group d = (d', Raise e) /\ p_metrics d' = p_metrics d /\ p_session d' = t
  end.
Proof.
  intros One O C Ne tags. pose proof (One (map ct_name tags) (p_session d)) as L.
  destruct (cip_read (map ct_name tags) (p_session d)) as [t outcome] eqn:R. simpl in L.
  assert (poll_group wall group d = read_tags wall (cd_instance_id c) tags d) as ->.
  { unfold poll_group, sbind, sget. rewrite C. fold (polled_tags group). subst tags. by destruct (polled_tags group). }
  unfold read_tags, require_driver, sbind, scatch, to_thread. rewrite O. cbn beta iota. rewrite R.
  destruct outcome as [r|e].
  - specialize (L r eq_refl). rewrite length_map in L. simpl. unfold sbind, now_utc. simpl.
    match goal with |- context [build_updates _ ?n _ _ ?d0] => destruct (cip_build_updates_spec (cd_instance_id c) n tags (result_list r) d0 L) as (d' & B & [A1 A2 A3 A4] & S) end.
    exists d', (wall (p_clock d)). rewrite B. split; [done|]. by split; [split|].
  - destruct e; try (eexists; split; [reflexivity|done]).
    eexists _, (wall (p_clock d)). split; [reflexivity|]. split; [|done].
    destruct (cip_all_bad_counts (cd_instance_id c) (error_text PycommError) (wall (p_clock d)) tags) as [B1 B2].
    split; [done|done|..]; simpl; rewrite ?B1, ?B2; lia.
Qed.
End Reports.

(** ** A concrete controller *)
Section Example.
Definition plc (name : string) : PycommTag :=
  if String.eqb name "Level" then MkPycommTag (Scalar (VInt 42)) (JStr "DINT") None true
  else MkPycommTag (Compound "None") JNull (Some "Tag doesn't exist") false.
#[local] Instance table_plc : CipSession unit :=
  {| cip_open _ _ t := (t, Ok true); cip_close t := (t, Ok tt);
     cip_read names t := (t, match names with [n] => Ok (OneTag (plc n)) | _ => Ok (TagList (map plc names)) end);
     cip_write _ _ t := (t, Raise CommError); error_text _ := ""; float_of_text _ := Raise ValueError |}.
Definition cip_group : CipGroup :=
  MkGroup "g" [MkTag "level" "Level" None None; MkTag "cmd" "Cmd" (Some "write_only") None; MkTag "gone" "Gone" None None].
Definition cip_config : CipDriverConfig := MkDriverConfig "eip1" (MkCipConfig "10.0.0.1" None None None) [cip_group].
Definition new_driver : cip_driver unit :=
  MkDriver None false {| tag_read_count := 0; error_count := 0; reconnect_count := 0; last_successful_read := None |} [] tt 0.
Definition connected : cip_driver unit := fst (connect (fst (configure cip_config new_driver))).
Lemma cip_poll_reports_witness :
  exists d' us, poll_group Z.of_nat cip_group connected = (d', Ok us) /\
    map (fun u => (tu_tag_id u, tu_value u, tu_quality u)) us = [("eip1/level", VInt 42, GOOD); ("eip1/gone", VInt 0, BAD)] /\
    error_count (p_metrics d') = 1 /\ tag_read_count (p_metrics d') = 1.
Proof.
  assert (one_result_per_name (T := unit)) as One.
  { intros names t r. simpl. destruct names as [|n [|n' names]]; intros [= <-]; simpl; by rewrite ?length_map. }
  pose proof (cip_poll_reports Z.of_nat connected cip_config cip_group One eq_refl eq_refl ltac:(discriminate)) as P.
  simpl in P. destruct P as (d' & now & P & [_ _ E R] & _). exists d'. eexists. split; [exact P|]. split; [reflexivity|]. split; [exact E|exact R].
Defined.
(** A write over a lost connection raises, so that the instance restarts. *)
Example lost_connection_write_raises : snd (write "cmd" (VInt 1) connected) = Raise CommError.
Proof. vm_compute. reflexivity. Qed.
Example path_of_defaults : connection_path (cd_cfg cip_config) = "10.0.0.1:44818/0".
Proof. vm_compute. reflexivity. Qed.
End Example.
