(* ===== verification/GenericMqtt.v ===== *)
(** * Generic MQTT publisher (src/xedge/northbound/generic_mqtt.py)

    Plain JSON over MQTT behind the connector interface.  The MQTT library is
    an oracle as for the Sparkplug connector ([connect_answer],
    [publish_answer]); the text [json.dumps] gives and replacement fields other
    than [{tag_id}] of [str.format] are parameters. *)

From Stdlib Require Import Ascii Floats.SpecFloat.
From S2P Require Import Prelude PyText PyBytes PyFloat PyDict PyTime Pipeline ColdStore SparkplugConnector.
Local Open Scope string_scope.
Local Open Scope list_scope.
Local Open Scope Z_scope.

Record GenericMqttPublisherConfig := MkConfig {
  g_qos : Z;
  g_retain : bool;
  (** building the TLS context, when enabled *)
  g_tls : res unit;
  topic_template : string;
  payload_mode : string;
  include_timestamp : bool;
  include_quality : bool;
  field_names : dict string }.
Record mqtt_message := MkMessage { mm_topic : string; mm_payload : list Z; mm_qos : Z; mm_retain : bool }.
(** The connector, with the messages handed to the library so far. *)
Record GenericMqttPublisher := MkPublisher {
  g_config : GenericMqttPublisherConfig;
  g_client : bool;
  g_metrics : ConnectorMetrics;
  g_sent : list mqtt_message }.
Definition set_client (b : bool) (k : GenericMqttPublisher) : GenericMqttPublisher := MkPublisher (g_config k) b (g_metrics k) (g_sent k).
Definition set_metrics (m : ConnectorMetrics) (k : GenericMqttPublisher) : GenericMqttPublisher := MkPublisher (g_config k) (g_client k) m (g_sent k).
Definition push_message (m : mqtt_message) (k : GenericMqttPublisher) : GenericMqttPublisher :=
  MkPublisher (g_config k) (g_client k) (g_metrics k) (g_sent k ++ [m]).

Class JsonText := {
  dumps : json -> list Z;
  (** [str.format]'s text of a replacement field other than [tag_id] *)
  other_field : string -> string -> res string }.

(** ["{tag_id}" in template] *)
Fixpoint contains (needle s : string) : bool :=
  match strip_prefix needle s, s with
  | Some _, _ => true
  | None, EmptyString => false
  | None, String _ t => contains needle t
  end.
(** [GenericMqttPublisher.__init__] *)
Definition new_publisher (config : GenericMqttPublisherConfig) : res GenericMqttPublisher :=
  raise_if negb (bool_decide (payload_mode config ∈ ["per_tag"; "batch"])) with ValueError;
  raise_if String.eqb (payload_mode config) "batch" && contains "{tag_id}" (topic_template config) with ValueError;
  Ok (MkPublisher config false {| published_count := 0; cm_error_count := 0; last_successful_publish := None |} []).

Section Publisher.
Context `{JsonText}.
Local Abbreviation M := (SR GenericMqttPublisher).

(** [connect]: a [client.connect] that raises leaves the client in place. *)
Definition connect (conn : connect_answer) : M unit := fun k =>
  match g_tls (g_config k) with
  | Raise e => (k, Raise e)
  | Ok _ =>
      match conn with
      | CRaise e => (set_client true k, Raise e)
      | CTimeout | CNoAck => (set_client false k, Raise TimeoutError)
      | CRefused => (set_client false k, Raise ConnectionError)
      | CAccepted => (set_client true k, Ok tt)
      end
  end.
Definition disconnect (ans : res unit) : M unit := fun k =>
  if g_client k then match ans with Raise e => (k, Raise e) | Ok _ => (set_client false k, Ok tt) end else (k, Ok tt).

(** ** Payloads *)

(** A value as [json.dumps] takes it; [bytes] is not serialisable. *)
Definition json_value (v : TagValue) : res json :=
  match v with
  | VBool b => Ok (JBool b)
  | VInt z => Ok (JNum (NInt z))
  | VFloat f => Ok (JNum (NFloat f))
  | VStr s => Ok (JStr s)
  | VBytes _ => Raise TypeError
  end.
(** [names.get(key, key)] *)
Definition field_name (config : GenericMqttPublisherConfig) (key : string) : string := default key (dict_get key (field_names config)).
(** [_tag_to_dict], then what [json.dumps] makes of its value *)
Definition tag_to_dict (tag : UnifiedTag) (config : GenericMqttPublisherConfig) : res json :=
  let* v := if decide (quality tag = BAD) then Ok JNull else json_value (value tag) in
  let record := dict_set (field_name config "value") v (dict_set (field_name config "tag_id") (JStr (tag_id tag)) []) in
  let record := if include_timestamp config then dict_set (field_name config "timestamp") (JStr (isoformat (timestamp tag))) record else record in
  let record := if include_quality config then dict_set (field_name config "quality") (JStr (quality_value (quality tag))) record else record in
  Ok (JDict record).
Definition encode_one (tag : UnifiedTag) (config : GenericMqttPublisherConfig) : res (list Z) := rmap dumps (tag_to_dict tag config).
Definition encode_batch (batch : list UnifiedTag) (config : GenericMqttPublisherConfig) : res (list Z) :=
  let* records := mapM_res (fun tag => tag_to_dict tag config) batch in Ok (dumps (JList records)).
(** [template.format(tag_id=tag)]: doubled braces are literal, a lone brace is
    an error. *)
Fixpoint format_topic (fuel : nat) (template tag : string) : res string :=
  match fuel with
  | O => Ok ""
  | S fuel =>
      match template with
      | EmptyString => Ok ""
      | String c t =>
          if Ascii.eqb c "{" then
            match strip_prefix "{" t, partition "}" t with
            | Some t', _ => rmap (String "{") (format_topic fuel t' tag)
            | None, None => Raise ValueError
            | None, Some (name, rest) =>
                let* text := if String.eqb name "tag_id" then Ok tag else other_field name tag in
                rmap (String.append text) (format_topic fuel rest tag)
            end
          else if Ascii.eqb c "}" then
            match strip_prefix "}" t with Some t' => rmap (String "}") (format_topic fuel t' tag) | None => Raise ValueError end
          else rmap (String c) (format_topic fuel t tag)
      end
  end.
Definition topic_of (config : GenericMqttPublisherConfig) (tag : UnifiedTag) : res string :=
  format_topic (S (String.length (topic_template config))) (topic_template config) (tag_id tag).

(** ** Publishing *)

(** [_publish_raw] *)
Definition publish_raw (ans : publish_answer) (topic : string) (payload : list Z) : M unit := fun k =>
  if negb (g_client k) then (k, Raise RuntimeError) else
  match pa_publish ans with
  | Raise e => (k, Raise e)
  | Ok _ =>
      (push_message (MkMessage topic payload (g_qos (g_config k)) (g_retain (g_config k))) k,
       if 0 <? g_qos (g_config k) then let* _ := pa_wait ans in raise_if negb (pa_published ans) with TimeoutError; Ok tt else Ok tt)
  end.
(** The loop over the tags, with the answers the library gives in turn. *)
Fixpoint publish_each (answers : nat -> publish_answer) (n : nat) (batch : list UnifiedTag) : M unit :=
  match batch with
  | [] => sret tt
  | tag :: rest =>
      let! config := sget g_config in
      let! topic := slift (topic_of config tag) in
      let! payload := slift (encode_one tag config) in
      let! _ := publish_raw (answers n) topic payload in
      publish_each answers (S n) rest
  end.
Definition publish_batch (answers : nat -> publish_answer) (batch : list UnifiedTag) : M unit :=
  let! config := sget g_config in
  if String.eqb (payload_mode config) "batch" then
    let! payload := slift (encode_batch batch config) in publish_raw (answers 0%nat) (topic_template config) payload
  else publish_each answers 0 batch.
(** [publish] *)
Definition publish (now : Z) (answers : nat -> publish_answer) (batch : list UnifiedTag) : M PublishResult := fun k =>
  if negb (g_client k) then (k, Ok {| pr_success := false; pr_count := 0 |}) else
  match batch with
  | [] => (k, Ok {| pr_success := true; pr_count := 0 |})
  | _ =>
      match publish_batch answers batch k with
      | (k, Ok _) =>
          (set_metrics {| published_count := published_count (g_metrics k) + zlen batch; cm_error_count := cm_error_count (g_metrics k);
                          last_successful_publish := Some now |} k, Ok {| pr_success := true; pr_count := zlen batch |})
      | (k, Raise _) =>
          (set_metrics {| published_count := published_count (g_metrics k); cm_error_count := cm_error_count (g_metrics k) + 1;
                          last_successful_publish := last_successful_publish (g_metrics k) |} k, Ok {| pr_success := false; pr_count := 0 |})
      end
  end.
End Publisher.

(** ** What a publish delivers *)
Section Delivery.
Context `{JsonText}.

(** Any fuel above the template's length gives the same topic. *)
Lemma partition_shorter c s a b : partition c s = Some (a, b) -> (String.length b < String.length s)%nat.
Proof.
  revert a. induction s as [|d s IH]; intros a; simpl; [done|]. destruct (Ascii.eqb c d); [intros [= <- <-]; lia|].
  destruct (partition c s) as [[x y]|]; [|done]. intros [= <- <-]. specialize (IH x eq_refl). lia.
Qed.
Lemma strip_prefix_shorter p s t : strip_prefix p s = Some t -> (String.length t <= String.length s)%nat.
Proof.
  revert s. induction p as [|a p IH]; intros s; simpl; [intros [= <-]; lia|]. destruct s as [|b s]; [done|].
  destruct (Ascii.eqb a b); [|done]. intros E%IH. simpl. lia.
Qed.
Lemma format_topic_fuel n m template tag : (String.length template < n)%nat -> (String.length template < m)%nat ->
  format_topic n template tag = format_topic m template tag.
Proof.
  revert m template. induction n as [|n IH]; intros [|m] template Ln Lm; [lia..|]. cbn [format_topic].
  destruct template as [|c t]; [done|]. simpl in Ln, Lm.
  assert (forall t', (String.length t' <= String.length t)%nat -> format_topic n t' tag = format_topic m t' tag) as R by (intros; apply IH; lia).
  destruct (Ascii.eqb c "{").
  - destruct (strip_prefix "{" t) as [t'|] eqn:S; [by rewrite R by (by eapply strip_prefix_shorter)|].
    destruct (partition "}" t) as [[name rest]|] eqn:P; [|done]. apply partition_shorter in P. by rewrite R by lia.
  - destruct (Ascii.eqb c "}"); [|by rewrite R]. destruct (strip_prefix "}" t) as [t'|] eqn:S; [|done].
    by rewrite R by (by eapply strip_prefix_shorter).
Qed.

(** The messages of a batch, where they can be built. *)
Definition tag_message (config : GenericMqttPublisherConfig) (tag : UnifiedTag) : res mqtt_message :=
  let* topic := topic_of config tag in
  let* payload := encode_one tag config in Ok (MkMessage topic payload (g_qos config) (g_retain config)).
Definition batch_messages (config : GenericMqttPublisherConfig) (batch : list UnifiedTag) : res (list mqtt_message) :=
  if String.eqb (payload_mode config) "batch" then
    let* payload := encode_batch batch config in Ok [MkMessage (topic_template config) payload (g_qos config) (g_retain config)]
  else mapM_res (tag_message config) batch.
Definition confirmed (config : GenericMqttPublisherConfig) (ans : publish_answer) : bool :=
  is_ok (pa_publish ans) && (negb (0 <? g_qos config) || (is_ok (pa_wait ans) && pa_published ans)).

Lemma generic_publish_raw_spec ans topic payload k : g_client k = true ->
  let m := MkMessage topic payload (g_qos (g_config k)) (g_retain (g_config k)) in
  if confirmed (g_config k) ans then publish_raw ans topic payload k = (push_message m k, Ok tt)
  else exists e, publish_raw ans topic payload k = (k, Raise e) \/ publish_raw ans topic payload k = (push_message m k, Raise e).
Proof.
  intros C. unfold publish_raw, confirmed. rewrite C. cbn [negb]. destruct (pa_publish ans) as [u|e]; simpl; [|eauto].
  destruct (0 <? g_qos (g_config k)); simpl; [|done]. destruct (pa_wait ans) as [u'|e]; simpl; [|eauto]. destruct (pa_published ans); simpl; eauto.
Qed.
Definition pushed (ms : list mqtt_message) (k : GenericMqttPublisher) : GenericMqttPublisher :=
  MkPublisher (g_config k) (g_client k) (g_metrics k) (g_sent k ++ ms).
Lemma pushed_nil k : pushed [] k = k.
Proof. destruct k. unfold pushed. simpl. by rewrite app_nil_r. Qed.
Lemma pushed_pushed ms ms' k : pushed ms' (pushed ms k) = pushed (ms ++ ms') k.
Proof. unfold pushed. simpl. by rewrite app_assoc. Qed.

Lemma publish_each_cons answers n tag rest k :
  publish_each answers n (tag :: rest) k =
  match tag_message (g_config k) tag with
  | Raise e => (k, Raise e)
  | Ok m =>
      match publish_raw (answers n) (mm_topic m) (mm_payload m) k with
      | (k', Ok _) => publish_each answers (S n) rest k'
      | (k', Raise e) => (k', Raise e)
      end
  end.
Proof.
  cbn [publish_each]. unfold sbind, sget, slift, tag_message. destruct (topic_of (g_config k) tag) as [topic|e]; [|done]. cbn [rbind].
  by destruct (encode_one tag (g_config k)).
Qed.
(** The loop sends the messages of a prefix of the batch, of all of it exactly
    when every message can be built and is confirmed. *)
Lemma publish_each_spec answers batch : forall n k, g_client k = true ->
  (exists ms, mapM_res (tag_message (g_config k)) batch = Ok ms /\ length ms = length batch /\
     forallb (fun i => confirmed (g_config k) (answers i)) (seq n (length ms)) = true /\ publish_each answers n batch k = (pushed ms k, Ok tt)) \/
  (exists e ms sent rest, publish_each answers n batch k = (pushed ms k, Raise e) /\ batch = sent ++ rest /\
     mapM_res (tag_message (g_config k)) sent = Ok ms /\
     forall all, mapM_res (tag_message (g_config k)) batch = Ok all -> forallb (fun i => confirmed (g_config k) (answers i)) (seq n (length all)) = false).
Proof.
  induction batch as [|tag rest IH]; intros n k C; [left; exists []; by rewrite pushed_nil|].
  rewrite publish_each_cons. cbn [mapM_res]. destruct (tag_message (g_config k) tag) as [m|e] eqn:Tm; cbn [rbind].
  2:{ right. exists e, [], [], (tag :: rest). rewrite pushed_nil. do 3 (split; [done|]). intros all A. inv_ok. }
  assert (exists topic payload, m = MkMessage topic payload (g_qos (g_config k)) (g_retain (g_config k))) as (topic & payload & ->)
    by (unfold tag_message in Tm; inv_ok; eauto).
  set (m := MkMessage topic payload _ _) in *.
  pose proof (generic_publish_raw_spec (answers n) topic payload k C) as R. cbn zeta in R. fold m in R.
  change (push_message m k) with (pushed [m] k) in R. cbn [mm_topic mm_payload m]. destruct (confirmed (g_config k) (answers n)) eqn:Cf.
  - rewrite R. destruct (IH (S n) (pushed [m] k) C) as [(ms & M & L & F & E)|(e & ms & sent & rest' & E & B & M & N)]; simpl g_config in *.
    + left. exists (m :: ms). rewrite M, E, pushed_pushed. split; [done|]. split; [simpl; by f_equal|]. split; [simpl; by rewrite Cf|done].
    + right. exists e, (m :: ms), (tag :: sent), rest'. rewrite E, pushed_pushed. split; [done|]. split; [by rewrite B|].
      split; [cbn [mapM_res]; by rewrite Tm, M|]. intros all A. inv_ok. simpl. rewrite (N _ H0). apply andb_false_r.
  - right. destruct R as [e [R|R]]; rewrite R.
    + exists e, [], [], (tag :: rest). rewrite pushed_nil. split; [done|]. do 2 (split; [done|]). intros all A. inv_ok. simpl. by rewrite Cf.
    + exists e, [m], [tag], rest. split; [done|]. split; [done|]. split; [cbn [mapM_res]; by rewrite Tm|]. intros all A. inv_ok. simpl. by rewrite Cf.
Qed.

(** Every message of the batch can be built and is confirmed. *)
Definition deliverable (config : GenericMqttPublisherConfig) (answers : nat -> publish_answer) (batch : list UnifiedTag) : bool :=
  match batch_messages config batch with
  | Ok ms => forallb (fun i => confirmed config (answers i)) (seq 0 (length ms))
  | Raise _ => false
  end.
Lemma publish_batch_spec answers batch k : g_client k = true ->
  if deliverable (g_config k) answers batch
  then exists ms, batch_messages (g_config k) batch = Ok ms /\ publish_batch answers batch k = (pushed ms k, Ok tt)
  else exists e ms sent rest, publish_batch answers batch k = (pushed ms k, Raise e) /\ batch = sent ++ rest /\
         (ms = [] \/ batch_messages (g_config k) sent = Ok ms).
Proof.
  intros C. unfold deliverable, batch_messages, publish_batch, sbind at 1 3, sget. destruct (String.eqb (payload_mode (g_config k)) "batch").
  - unfold sbind, slift. destruct (encode_batch batch (g_config k)) as [payload|e] eqn:P; cbn [rbind].
    + pose proof (generic_publish_raw_spec (answers 0%nat) (topic_template (g_config k)) payload k C) as R. simpl. rewrite andb_true_r.
      destruct (confirmed (g_config k) (answers 0%nat)); [eexists; split; [done|exact R]|].
      destruct R as [e [R|R]]; rewrite R.
      * exists e, [], batch, []. rewrite pushed_nil, app_nil_r. auto.
      * exists e. eexists _, batch, []. rewrite app_nil_r, P. split; [reflexivity|]. auto.
    + exists e, [], [], batch. rewrite pushed_nil. auto.
  - destruct (publish_each_spec answers batch 0 k C) as [(ms & M & _ & F & E)|(e & ms & sent & rest & E & B & M & N)].
    + rewrite M, F. eauto.
    + destruct (mapM_res (tag_message (g_config k)) batch) as [all|] eqn:A; [rewrite (N all eq_refl)|]; exists e, ms, sent, rest; auto.
Qed.

(** Publishing on a connected client never raises.  When every message can
    be built and is confirmed, exactly the messages of the batch go out in
    order and the whole batch is reported delivered; otherwise the result is a
    failure that delivers nothing, counted once, and at most the messages of a
    prefix of the batch went out. *)
Theorem generic_publish_outcome now answers batch k :
  g_client k = true -> batch <> [] ->
  exists k', let m := g_metrics k in let m' := g_metrics k' in
  if deliverable (g_config k) answers batch then
    publish now answers batch k = (k', Ok {| pr_success := true; pr_count := zlen batch |}) /\
    (exists ms, batch_messages (g_config k) batch = Ok ms /\ g_sent k' = g_sent k ++ ms) /\
    published_count m' = published_count m + zlen batch /\ cm_error_count m' = cm_error_count m /\ last_successful_publish m' = Some now
  else
    publish now answers batch k = (k', Ok {| pr_success := false; pr_count := 0 |}) /\
    (exists ms sent rest, g_sent k' = g_sent k ++ ms /\ batch = sent ++ rest /\ (ms = [] \/ batch_messages (g_config k) sent = Ok ms)) /\
    published_count m' = published_count m /\ cm_error_count m' = cm_error_count m + 1 /\ last_successful_publish m' = last_successful_publish m.
Proof.
  intros C Ne. pose proof (publish_batch_spec answers batch k C) as P. unfold publish. rewrite C. cbn [negb].
  destruct batch as [|tag rest]; [done|]. destruct (deliverable _ _ _).
  - destruct P as (ms & B & E). rewrite E. eexists. cbn zeta. split; [reflexivity|]. split; [exists ms; by split|done].
  - destruct P as (e & ms & sent & rest' & E & B & M). rewrite E. eexists. cbn zeta. split; [reflexivity|]. split; [|done].
    exists ms, sent, rest'. by split.
Qed.
End Delivery.

(** ** Concrete publishers *)
Section Example.
(** Keys only, for examples. *)
#[local] Instance key_text : JsonText :=
  {| dumps j := match j with JDict d => [zlen d] | _ => [] end; other_field _ _ := Raise KeyError |}.
Definition per_tag_config : GenericMqttPublisherConfig := MkConfig 1 false (Ok tt) "plant/{tag_id}/v" "per_tag" true true [].
Definition reading (id : string) (v : TagValue) : UnifiedTag :=
  {| tag_id := id; timestamp := 0; value := v; data_type := "INT64"; quality := GOOD; source_driver := "d"; source_address := "a";
     engineering_unit := None; is_alarm := false; metadata := [] |}.
Definition online : GenericMqttPublisher :=
  MkPublisher per_tag_config true {| published_count := 0; cm_error_count := 0; last_successful_publish := None |} [].
Definition acked (_ : nat) : publish_answer := ack.
Lemma generic_publish_outcome_witness :
  exists k', publish 9 acked [reading "a/x" (VInt 1); reading "a/y" (VInt 2)] online = (k', Ok {| pr_success := true; pr_count := 2 |}) /\
    map mm_topic (g_sent k') = ["plant/a/x/v"; "plant/a/y/v"] /\ published_count (g_metrics k') = 2.
Proof.
  destruct (generic_publish_outcome 9 acked [reading "a/x" (VInt 1); reading "a/y" (VInt 2)] online eq_refl ltac:(discriminate)) as (k' & P).
  exists k'. assert (deliverable (g_config online) acked [reading "a/x" (VInt 1); reading "a/y" (VInt 2)] = true) as D by (vm_compute; reflexivity).
  cbn zeta in P. rewrite D in P. destruct P as (P & (ms & B & S) & C & _). split; [exact P|]. split; [|exact C].
  vm_compute in B. injection B as <-. rewrite S. reflexivity.
Defined.

(** One reading of bytes makes its batch undeliverable: every attempt fails,
    and sends the readings before it again. *)
Example bytes_reading_blocks_batch :
  let batch := [reading "a/x" (VInt 1); reading "a/raw" (VBytes [1; 2]); reading "a/y" (VInt 2)] in
  let '(k1, r1) := publish 9 acked batch online in
  let '(k2, r2) := publish 10 acked batch k1 in
  r1 = Ok {| pr_success := false; pr_count := 0 |} /\ r2 = r1 /\ map mm_topic (g_sent k2) = ["plant/a/x/v"; "plant/a/x/v"].
Proof. vm_compute. repeat split; reflexivity. Qed.
(** A refused connection leaves a client behind, on which publishing goes on. *)
Example failed_connect_keeps_client :
  g_client (fst (connect (CRaise ConnectionError) (set_client false online))) = true.
Proof. vm_compute. reflexivity. Qed.
Example batch_template_checked :
  new_publisher (MkConfig 0 false (Ok tt) "all/{tag_id}" "batch" true true []) = Raise ValueError.
Proof. vm_compute. reflexivity. Qed.
End Example.
