(* ===== verification/InboundDrivers.v ===== *)
(** * Drivers that are written to (src/xedge/drivers/loopback/driver.py,
    src/xedge/drivers/mqtt_subscriber/client.py, src/xedge/drivers/snmp/receiver.py)

    The loopback driver echoes what was written to it; the MQTT subscriber and
    the SNMP trap receiver turn messages into tag updates.  Topic matching,
    UTF-8 and JSON parsing and [float] of text are parameters. *)

From Stdlib Require Import Ascii Floats.SpecFloat.
From S2P Require Import Prelude PyText PyBytes PyFloat PyDict Pipeline SnmpDriver.
Local Open Scope string_scope.
Local Open Scope list_scope.
Local Open Scope Z_scope.

Definition count_read (now : Z) (m : DriverMetrics) : DriverMetrics :=
  {| tag_read_count := tag_read_count m + 1; error_count := error_count m; reconnect_count := reconnect_count m;
     last_successful_read := Some now |}.
Definition count_error (m : DriverMetrics) : DriverMetrics :=
  {| tag_read_count := tag_read_count m; error_count := error_count m + 1; reconnect_count := reconnect_count m;
     last_successful_read := last_successful_read m |}.

Module Loopback.
Record LoopbackTag := MkTag { lt_id : string; lt_initial_value : option TagValue }.
Record LoopbackConfig := MkConfig { lb_instance_id : string; lb_groups : list (list LoopbackTag) }.
Record driver := MkDriver { lb_config : option LoopbackConfig; lb_metrics : DriverMetrics; lb_values : dict TagValue }.

Definition configure (config : LoopbackConfig) (d : driver) : driver :=
  MkDriver (Some config) (lb_metrics d)
    (fold_left (fun vs t => dict_set (lt_id t) (default (VInt 0) (lt_initial_value t)) vs) (concat (lb_groups config)) (lb_values d)).
Definition write (tag_id : string) (v : TagValue) (d : driver) : driver * WriteResult :=
  if dict_mem tag_id (lb_values d)
  then (MkDriver (lb_config d) (lb_metrics d) (dict_set tag_id v (lb_values d)), {| wr_success := true; wr_tag_id := tag_id; wr_error := None |})
  else (d, {| wr_success := false; wr_tag_id := tag_id; wr_error := Some ValueError |}).
(** One tag of [_poll_group]: [t1] and [t2] are its two clock readings. *)
Definition poll_tag (iid : string) (t1 t2 : Z) (tag : LoopbackTag) : SR driver TagUpdate :=
  let! _ := smodify (fun d => MkDriver (lb_config d) (count_read t1 (lb_metrics d)) (lb_values d)) in
  let! v := sget (fun d => dict_get (lt_id tag) (lb_values d)) in
  match v with
  | None => sraise KeyError
  | Some v => sret {| tu_tag_id := iid ++ "/" ++ lt_id tag; tu_timestamp := t2; tu_value := v; tu_quality := GOOD;
                      tu_source_driver := iid; tu_source_address := lt_id tag; tu_source_timestamp := None; tu_metadata := [] |}
  end.
(** One pass over a group, without writes in between. *)
Definition poll_group (iid : string) (now : Z) (tags : list LoopbackTag) : SR driver (list TagUpdate) := smapM (poll_tag iid now now) tags.

(** Every configured tag has a value. *)
Definition ready (tags : list LoopbackTag) (d : driver) : Prop := Forall (fun t => is_Some (dict_get (lt_id t) (lb_values d))) tags.
Lemma configure_ready config d : ready (concat (lb_groups config)) (configure config d).
Proof.
  unfold ready, configure. simpl. generalize (lb_values d). induction (concat (lb_groups config)) as [|t l IH] using rev_ind; intros vs; [done|].
  rewrite fold_left_app. simpl. apply Forall_app. split; [|by apply Forall_singleton; rewrite dict_get_set_eq].
  eapply Forall_impl; [apply IH|]. simpl. intros x X. rewrite dict_get_set. by destruct (decide _).
Qed.
Lemma poll_group_spec iid now tags d : ready tags d ->
  exists d' us, poll_group iid now tags d = (d', Ok us) /\ lb_values d' = lb_values d /\
    Forall2 (fun t u => tu_tag_id u = (iid ++ "/" ++ lt_id t)%string /\ tu_quality u = GOOD /\ dict_get (lt_id t) (lb_values d) = Some (tu_value u)) tags us /\
    tag_read_count (lb_metrics d') = tag_read_count (lb_metrics d) + zlen tags.
Proof.
  unfold poll_group. revert d. induction tags as [|t tags IH]; intros d R.
  - exists d, []. rewrite zlen_nil. repeat split; [constructor|lia].
  - apply Forall_cons in R as [[v V] R].
    destruct (IH (MkDriver (lb_config d) (count_read now (lb_metrics d)) (lb_values d)) R) as (d' & us & E & Vs & F & C).
    assert (exists u, poll_tag iid now now t d = (MkDriver (lb_config d) (count_read now (lb_metrics d)) (lb_values d), Ok u) /\
              tu_tag_id u = (iid ++ "/" ++ lt_id t)%string /\ tu_quality u = GOOD /\ dict_get (lt_id t) (lb_values d) = Some (tu_value u)) as (u & P & Q).
    { unfold poll_tag, sbind, smodify, sget. simpl. rewrite V. by eexists. }
    exists d', (u :: us). cbn [smapM]. unfold sbind, sret. rewrite P, E. simpl in Vs, C.
    split; [reflexivity|]. split; [done|]. split; [constructor; [done|exact F]|]. autorewrite with zlen. lia.
Qed.
(** A value written to a configured tag is what the next poll of its group
    reports for it. *)
Theorem loopback_echo config d id v iid now tags : (exists t, t ∈ tags /\ lt_id t = id) -> tags ∈ lb_groups config ->
  let '(d1, r) := write id v (configure config d) in
  wr_success r = true /\ exists d2 us, poll_group iid now tags d1 = (d2, Ok us) /\
    exists u, u ∈ us /\ tu_tag_id u = (iid ++ "/" ++ id)%string /\ tu_value u = v.
Proof.
  intros (t & It & <-) Ig. unfold write. set (d0 := configure config d).
  assert (ready tags d0) as R.
  { pose proof (configure_ready config d) as R. unfold ready in *. rewrite List.Forall_forall in *. intros x Ix. apply R.
    apply in_concat. exists tags. split; [by apply list_elem_of_In|done]. }
  assert (dict_mem (lt_id t) (lb_values d0) = true) as M.
  { unfold dict_mem. unfold ready in R. rewrite Forall_forall in R. destruct (R t It) as [w ->]. done. }
  rewrite M. split; [done|].
  destruct (poll_group_spec iid now tags (MkDriver (lb_config d0) (lb_metrics d0) (dict_set (lt_id t) v (lb_values d0)))) as (d2 & us & E & _ & F & _).
  { unfold ready in *. simpl. eapply Forall_impl; [exact R|]. simpl. intros x X. rewrite dict_get_set. by destruct (decide _). }
  exists d2, us. split; [done|]. apply list_elem_of_lookup in It as [i Li]. eapply Forall2_lookup_l in F as (u & Lu & Id & _ & V); [|exact Li].
  exists u. split; [by eapply list_elem_of_lookup_2|]. split; [done|]. simpl in V. rewrite dict_get_set_eq in V. by injection V.
Qed.
End Loopback.

Module MqttSubscriber.
Definition RECEIVED_QUEUE_MAXSIZE : Z := 1000.
Record RawTag := MkTag { rt_id : string; rt_topic : string; rt_qos : option Z; rt_format : option string; rt_json_path : option string;
                         rt_scale : option num; rt_offset : option num }.
Record TopicMapping := MkMapping {
  tm_tag_id : string; tm_topic : string; tm_qos : Z; payload_format : string; json_path : option string; tm_scale : num; tm_offset : num }.
Record driver := MkDriver {
  ms_instance : option string; ms_mappings : dict TopicMapping; ms_received : list (string * list Z); ms_metrics : DriverMetrics }.

Class MessageText := {
  utf8 : list Z -> res string;
  loads : string -> res json;
  float_of_text : string -> res pfloat;
  topic_matches_sub : string -> string -> bool }.

(** [configure]: later tags replace earlier ones of the same topic. *)
Definition mapping_of (iid : string) (t : RawTag) : TopicMapping :=
  MkMapping (iid ++ "/" ++ rt_id t) (rt_topic t) (default 0 (rt_qos t)) (default "raw" (rt_format t)) (rt_json_path t)
    (default (NFloat (float_of_Z_raw 1)) (rt_scale t)) (default (NFloat fzero) (rt_offset t)).
Definition configure (iid : string) (groups : list (list RawTag)) (d : driver) : driver :=
  MkDriver (Some iid) (fold_left (fun ms t => dict_set (rt_topic t) (mapping_of iid t) ms) (concat groups) []) (ms_received d) (ms_metrics d).
(** The topics [_on_connect] subscribes to. *)
Definition subscriptions (d : driver) : list (string * Z) := map (fun m => (tm_topic m, tm_qos m)) (dict_values (ms_mappings d)).
(** [_on_message], as run by the event loop: a full queue loses the message
    ([QueueFull] is [RuntimeError] here). *)
Definition on_message (topic : string) (payload : list Z) (d : driver) : driver * res unit :=
  if RECEIVED_QUEUE_MAXSIZE <=? zlen (ms_received d) then (d, Raise RuntimeError)
  else (MkDriver (ms_instance d) (ms_mappings d) (ms_received d ++ [(topic, payload)]) (ms_metrics d), Ok tt).

Section Decode.
Context `{MessageText}.

(** [_find_mapping] *)
Definition find_mapping (ms : dict TopicMapping) (concrete_topic : string) : option TopicMapping :=
  match dict_get concrete_topic ms with
  | Some m => Some m
  | None => List.find (fun m => topic_matches_sub (tm_topic m) concrete_topic) (dict_values ms)
  end.
(** [l[i]] for any index: negative ones count from the end. *)
Definition py_index {A} (l : list A) (i : Z) : res A := if i <? 0 then index l (i + zlen l) else index l i.
(** [path.split(".")] *)
Fixpoint split (fuel : nat) (sep : ascii) (s : string) : list string :=
  match fuel, partition sep s with
  | S fuel, Some (a, b) => a :: split fuel sep b
  | _, _ => [s]
  end.
(** [_extract_json_path]; [PayloadDecodeError] is [ValueError] here, the one
    handler treats both alike. *)
Fixpoint follow (keys : list string) (current : json) : res json :=
  match keys with
  | [] => Ok current
  | key :: rest =>
      match current with
      | JDict d => match dict_get key d with Some v => follow rest v | None => Raise ValueError end
      | JList l => let* i := int_text key in let* v := py_index l i in follow rest v
      | _ => Raise ValueError
      end
  end.
Definition extract_json_path (data : json) (path : string) : res json := follow (split (String.length path) "." path) data.
(** [_coerce_json_value] *)
Definition coerce_json_value (v : json) : res TagValue :=
  match v with
  | JBool b => Ok (VBool b)
  | JNum (NInt z) => Ok (VInt z)
  | JNum (NFloat f) => Ok (VFloat f)
  | JStr s => Ok (VStr s)
  | _ => Raise ValueError
  end.
(** [s.lower()] of an ASCII string *)
Fixpoint lower (s : string) : string :=
  match s with
  | EmptyString => s
  | String c t => let n := nat_of_ascii c in String (if ((65 <=? n) && (n <=? 90))%nat then ascii_of_nat (n + 32) else c) (lower t)
  end.
(** [_coerce_raw_text] *)
Definition coerce_raw_text (text : string) : res TagValue :=
  let stripped := strip text in
  if bool_decide (lower stripped ∈ ["true"; "false"]) then Ok (VBool (String.eqb (lower stripped) "true")) else
  match int_text stripped with
  | Ok z => Ok (VInt z)
  | Raise ValueError =>
      match float_of_text stripped with
      | Ok f => Ok (VFloat f)
      | Raise ValueError => Ok (VStr stripped)
      | Raise e => Raise e
      end
  | Raise e => Raise e
  end.
(** [_extract_value] *)
Definition extract_value (m : TopicMapping) (payload : list Z) : res TagValue :=
  let* text := utf8 payload in
  if String.eqb (payload_format m) "json" then
    let* data := loads text in
    let* v := match json_path m with None | Some EmptyString => Ok data | Some path => extract_json_path data path end in
    coerce_json_value v
  else coerce_raw_text text.
(** Python's [x * y] and [x + y] on numbers *)
Definition num_op (fi : Z -> Z -> Z) (ff : pfloat -> pfloat -> pfloat) (x y : num) : res num :=
  match x, y with
  | NInt a, NInt b => Ok (NInt (fi a b))
  | _, _ => let* a := num_float x in let* b := num_float y in Ok (NFloat (ff a b))
  end.
Definition scaled (x : num) (m : TopicMapping) : res num :=
  let* p := num_op Z.mul fmul x (tm_scale m) in num_op Z.add fadd p (tm_offset m).
Definition num_value (n : num) : TagValue := match n with NInt z => VInt z | NFloat f => VFloat f end.
(** [_decode_message]: only the listed exceptions become Bad updates. *)
Definition decode_value (m : TopicMapping) (payload : list Z) : res TagValue :=
  let* v := extract_value m payload in
  match v with
  | VInt z => rmap num_value (scaled (NInt z) m)
  | VFloat f => rmap num_value (scaled (NFloat f) m)
  | _ => Ok v
  end.
Definition decode_error (e : exn) : bool := match e with ValueError | KeyError | IndexError | UnicodeDecodeError => true | _ => false end.
Definition update_of (iid : string) (m : TopicMapping) (now : Z) (v : TagValue) (q : Quality) (meta : dict json) : TagUpdate :=
  {| tu_tag_id := tm_tag_id m; tu_timestamp := now; tu_value := v; tu_quality := q; tu_source_driver := iid;
     tu_source_address := tm_topic m; tu_source_timestamp := None; tu_metadata := meta |}.
Definition decode_message (iid : string) (m : TopicMapping) (now : Z) (error_text : exn -> string) (payload : list Z) : res TagUpdate :=
  match decode_value m payload with
  | Ok v => Ok (update_of iid m now v GOOD [])
  | Raise e => if decode_error e then Ok (update_of iid m now (VInt 0) BAD [("decode_error", JStr (error_text e))]) else Raise e
  end.
(** One iteration of [run]: [None] when the queue is empty or the topic has no
    mapping. *)
Definition run_once (now : Z) (error_text : exn -> string) : SR driver (option TagUpdate) := fun d =>
  match ms_instance d with
  | None => (d, Raise MqttSubscriberStateError)
  | Some iid =>
      match ms_received d with
      | [] => (d, Ok None)
      | (topic, payload) :: rest =>
          let d := MkDriver (ms_instance d) (ms_mappings d) rest (ms_metrics d) in
          match find_mapping (ms_mappings d) topic with
          | None => (d, Ok None)
          | Some m =>
              match decode_message iid m now error_text payload with
              | Raise e => (d, Raise e)
              | Ok u =>
                  let metrics := count_read now (ms_metrics d) in
                  (MkDriver (ms_instance d) (ms_mappings d) rest
                     (if decide (tu_quality u = BAD) then count_error metrics else metrics), Ok (Some u))
              end
          end
      end
  end.
End Decode.

Section Facts.
Context `{MessageText}.
(** Documented of the parsers: they raise only [ValueError] and its subclass. *)
Definition parse_error (e : exn) : Prop := e = ValueError \/ e = UnicodeDecodeError.
Context (utf8_raises : forall bs e, utf8 bs = Raise e -> parse_error e) (loads_raises : forall t e, loads t = Raise e -> parse_error e)
        (float_raises : forall t e, float_of_text t = Raise e -> e = ValueError).

(** The fuel of [split] is enough: no piece has a separator left. *)
Lemma split_pieces n sep s : (count_char sep s <= n)%nat -> Forall (fun p => count_char sep p = 0%nat) (split n sep s).
Proof.
  revert s. induction n as [|n IH]; intros s L; simpl.
  - apply Forall_singleton. lia.
  - destruct (partition sep s) as [[a b]|] eqn:P; [|apply Forall_singleton; by apply partition_none_inv].
    apply partition_some in P as [-> A]. constructor; [done|]. apply IH. rewrite count_char_app in L. simpl in L. rewrite Ascii.eqb_refl in L. lia.
Qed.
Lemma int_digits_raises s acc n b e : int_digits s acc n b = Raise e -> e = ValueError.
Proof.
  revert acc n b. induction s as [|c t IH]; intros acc n b; simpl; [unfold guard_raise; destruct (_ || _); by intros [=]|].
  destruct (Ascii.eqb c "_"); [destruct (negb b); [by intros [=]|apply IH]|]. destruct (digit c); [apply IH|by intros [=]].
Qed.
Lemma int_text_raises s e : int_text s = Raise e -> e = ValueError.
Proof.
  unfold int_text. destruct (strip s) as [|c t]; [apply int_digits_raises|].
  assert (forall x, rmap Z.opp (int_digits x 0 0 false) = Raise e -> e = ValueError) as N.
  { intros x. destruct (int_digits x 0 0 false) eqn:E; simpl; [done|]. intros [= <-]. by eapply int_digits_raises. }
  destruct c as [[] [] [] [] [] [] [] []]; eauto using int_digits_raises.
Qed.
Lemma follow_raises keys j e : follow keys j = Raise e -> decode_error e = true.
Proof.
  revert j. induction keys as [|k keys IH]; intros j; simpl; [done|]. destruct j as [| | | |l|d]; try (by intros [= <-]).
  - destruct (int_text k) as [z|x] eqn:I; simpl; [|intros [= <-]; by rewrite (int_text_raises _ _ I)].
    unfold py_index. assert (forall i, match index l i with Raise x => decode_error x = true | _ => True end) as Ix.
    { intros i. unfold index. destruct (i <? 0); [done|]. by destruct (l !! _). }
    destruct (z <? 0); [specialize (Ix (z + zlen l)); destruct (index l (z + zlen l))|specialize (Ix z); destruct (index l z)]; simpl; eauto;
      intros [= <-]; done.
  - destruct (dict_get k d); [apply IH|by intros [= <-]].
Qed.
Lemma extract_raises m payload e : extract_value m payload = Raise e -> decode_error e = true.
Proof.
  unfold extract_value. destruct (utf8 payload) as [t|x] eqn:U; simpl; [|intros [= <-]; by destruct (utf8_raises _ _ U) as [->| ->]].
  destruct (String.eqb _ "json").
  - destruct (loads t) as [j|x] eqn:L; simpl; [|intros [= <-]; by destruct (loads_raises _ _ L) as [->| ->]].
    assert (forall v, coerce_json_value v = Raise e -> decode_error e = true) as C by (intros [| |[]| | |]; by intros [= <-]).
    destruct (json_path m) as [[|c p]|]; simpl; eauto. destruct (extract_json_path j (String c p)) eqn:E; simpl; eauto.
    intros [= <-]. by apply follow_raises in E.
  - unfold coerce_raw_text. destruct (bool_decide _); [done|]. destruct (int_text (strip t)) as [z|x] eqn:I; [done|].
    rewrite (int_text_raises _ _ I). destruct (float_of_text (strip t)) as [f|x'] eqn:F; [done|]. by rewrite (float_raises _ _ F).
Qed.
Lemma num_op_raises fi ff x y e : num_op fi ff x y = Raise e -> e = OverflowError.
Proof.
  assert (forall n e, num_float n = Raise e -> e = OverflowError) as N.
  { intros [z|f] e0; simpl; [|done]. unfold float_of_Z. by destruct (float_of_Z_raw z); intros [= <-]. }
  assert ((let* a := num_float x in let* b := num_float y in Ok (NFloat (ff a b))) = Raise e -> e = OverflowError) as G.
  { destruct (num_float x) as [a|e1] eqn:E1; simpl; [|intros [= <-]; by eapply N].
    destruct (num_float y) as [b|e2] eqn:E2; simpl; [done|intros [= <-]; by eapply N]. }
  destruct x, y; [done|exact G..].
Qed.

(** A message on a mapped topic becomes exactly one update of the mapping's
    tag: Good with the scaled value, or Bad when it cannot be decoded; both
    counters follow.  The one exception that ends the driver's loop is a number
    too large for a float. *)
Theorem subscriber_update_per_message now text iid ms topic payload rest metrics m :
  find_mapping ms topic = Some m ->
  let d := MkDriver (Some iid) ms ((topic, payload) :: rest) metrics in
  let '(d', r) := run_once now text d in
  ms_received d' = rest /\
  match decode_value m payload with
  | Ok v => r = Ok (Some (update_of iid m now v GOOD [])) /\ error_count (ms_metrics d') = error_count metrics /\
      tag_read_count (ms_metrics d') = tag_read_count metrics + 1
  | Raise OverflowError => r = Raise OverflowError /\ ms_metrics d' = metrics
  | Raise e => r = Ok (Some (update_of iid m now (VInt 0) BAD [("decode_error", JStr (text e))])) /\
      error_count (ms_metrics d') = error_count metrics + 1 /\ tag_read_count (ms_metrics d') = tag_read_count metrics + 1
  end.
Proof.
  intros F. unfold run_once, decode_message. simpl. rewrite F.
  destruct (decode_value m payload) as [v|e] eqn:D; [done|].
  assert (decode_error e = true \/ e = OverflowError) as [E| ->]; [| |done].
  - unfold decode_value in D. destruct (extract_value m payload) as [v|x] eqn:X; simpl in D; [|injection D as <-; left; by eapply extract_raises].
    assert (forall n, rmap num_value (scaled n m) = Raise e -> e = OverflowError) as S.
    { intros n. unfold scaled. destruct (num_op Z.mul fmul n (tm_scale m)) as [p|x] eqn:E; simpl; [|intros [= <-]; by eapply num_op_raises].
      destruct (num_op Z.add fadd p (tm_offset m)) as [q|x] eqn:E'; simpl; [done|intros [= <-]; by eapply num_op_raises]. }
    right. destruct v; try done; by eapply S.
  - rewrite E. destruct e; done.
Qed.
End Facts.
End MqttSubscriber.

Module TrapReceiver.
Record TrapTag := MkTag { tt_id : string; trap_oid : string }.
Record driver := MkDriver {
  tr_instance : option string; tr_tags_by_oid : dict TrapTag; tr_metrics : DriverMetrics;
  (** the output queue while [run] is active, and its capacity *)
  tr_output : option (list TagUpdate); tr_capacity : option Z }.
Definition configure (iid : string) (groups : list (list TrapTag)) (d : driver) : driver :=
  MkDriver (Some iid) (fold_left (fun m t => dict_set (trap_oid t) t m) (concat groups) []) (tr_metrics d) (tr_output d) (tr_capacity d).
(** [asn1types.decode] and the class name of a value. *)
Definition decode (v : asn1) : TagValue * string :=
  match v with Numeric ty z => (VInt z, ty) | Textual ty text | Missing ty text => (VStr text, ty) end.
Definition queue_full (d : driver) : bool :=
  match tr_output d, tr_capacity d with Some q, Some n => (0 <? n) && (n <=? zlen q) | _, _ => false end.
(** One binding of [_on_notification] *)
Definition on_binding (now : Z) (d : driver) (binding : string * asn1) : driver :=
  let '(oid, v) := binding in
  match dict_get oid (tr_tags_by_oid d) with
  | None => d
  | Some tag =>
      let iid := default "snmp_trap_receiver" (tr_instance d) in
      let d := MkDriver (tr_instance d) (tr_tags_by_oid d) (count_read now (tr_metrics d)) (tr_output d) (tr_capacity d) in
      let update := {| tu_tag_id := iid ++ "/" ++ tt_id tag; tu_timestamp := now; tu_value := fst (decode v); tu_quality := GOOD;
                       tu_source_driver := iid; tu_source_address := oid; tu_source_timestamp := None;
                       tu_metadata := [("snmp_type", JStr (snd (decode v)))] |} in
      match tr_output d with
      | None => d
      | Some q =>
          if queue_full d
          then MkDriver (tr_instance d) (tr_tags_by_oid d) (count_error (tr_metrics d)) (tr_output d) (tr_capacity d)
          else MkDriver (tr_instance d) (tr_tags_by_oid d) (tr_metrics d) (Some (q ++ [update])) (tr_capacity d)
      end
  end.
Definition on_notification (now : Z) (var_binds : list (string * asn1)) (d : driver) : driver := fold_left (on_binding now) var_binds d.
Definition write (tag_id : string) (v : TagValue) (d : driver) : WriteResult := {| wr_success := false; wr_tag_id := tag_id; wr_error := Some RuntimeError |}.

Definition trap_update (now : Z) (iid : string) (tags : dict TrapTag) (binding : string * asn1) : option TagUpdate :=
  (fun tag => {| tu_tag_id := (iid ++ "/" ++ tt_id tag)%string; tu_timestamp := now; tu_value := fst (decode binding.2); tu_quality := GOOD;
                 tu_source_driver := iid; tu_source_address := binding.1; tu_source_timestamp := None;
                 tu_metadata := [("snmp_type", JStr (snd (decode binding.2)))] |}) <$> dict_get binding.1 tags.
Lemma on_binding_running now iid tags metrics q cap b :
  on_binding now (MkDriver (Some iid) tags metrics (Some q) cap) b =
  match trap_update now iid tags b with
  | None => MkDriver (Some iid) tags metrics (Some q) cap
  | Some u =>
      if match cap with Some n => (0 <? n) && (n <=? zlen q) | None => false end
      then MkDriver (Some iid) tags (count_error (count_read now metrics)) (Some q) cap
      else MkDriver (Some iid) tags (count_read now metrics) (Some (q ++ [u])) cap
  end.
Proof. destruct b as [oid v]. unfold on_binding, trap_update. simpl. by destruct (dict_get oid tags). Qed.
(** The places left in the output queue for [n] updates. *)
Definition room (cap : option Z) (q : list TagUpdate) (n : Z) : Z :=
  match cap with Some c => if 0 <? c then Z.max 0 (c - zlen q) else n | None => n end.
(** A notification received while the driver runs queues one update for each
    binding of a configured OID, in order, as long as there is room; what does
    not fit is counted as an error. *)
Theorem trap_updates_queued now var_binds iid tags metrics q cap :
  let d' := on_notification now var_binds (MkDriver (Some iid) tags metrics (Some q) cap) in
  let updates := omap (trap_update now iid tags) var_binds in
  tr_output d' = Some (q ++ take (Z.to_nat (room cap q (zlen updates))) updates) /\
  tag_read_count (tr_metrics d') = tag_read_count metrics + zlen updates /\
  error_count (tr_metrics d') = error_count metrics + Z.max 0 (zlen updates - room cap q (zlen updates)).
Proof.
  unfold on_notification. cbn zeta. revert metrics q. induction var_binds as [|b rest IH]; intros metrics q.
  - simpl. rewrite take_nil, app_nil_r, zlen_nil. unfold room. pose proof (zlen_nonneg q).
    split; [done|]. destruct cap as [n|]; [destruct (Z.ltb_spec 0 n)|]; split; lia.
  - cbn [fold_left omap list_omap]. rewrite on_binding_running. destruct (trap_update now iid tags b) as [u|]; [|apply IH].
    rewrite zlen_cons. set (us := omap (trap_update now iid tags) rest). pose proof (zlen_nonneg us). pose proof (zlen_nonneg q).
    destruct (match cap with Some n => _ | None => false end) eqn:Full.
    + destruct (IH (count_error (count_read now metrics)) q) as (-> & -> & ->). fold us.
      assert (room cap q (1 + zlen us) = 0 /\ room cap q (zlen us) = 0) as [-> ->].
      { unfold room. destruct cap as [n|]; [|done]. bool_simpl. rewrite (proj2 (Z.ltb_lt _ _)) by done. lia. }
      simpl. repeat split; lia.
    + destruct (IH (count_read now metrics) (q ++ [u])) as (-> & -> & ->). fold us.
      assert (room cap q (1 + zlen us) = 1 + room cap (q ++ [u]) (zlen us) /\ 0 <= room cap (q ++ [u]) (zlen us)) as [-> R].
      { unfold room. destruct cap as [n|]; [|lia]. destruct (Z.ltb_spec 0 n) as [P|]; [|lia]. simpl in Full. apply Z.leb_gt in Full.
        autorewrite with zlen. lia. }
      rewrite Z2Nat.inj_add by lia. simpl. rewrite <- app_assoc. repeat split; lia.
Qed.
End TrapReceiver.

(** ** Concrete messages *)
Section Examples.
Import MqttSubscriber.
(** Bytes are their own text; numbers of one to three digits. *)
#[local] Instance ascii_text : MessageText :=
  {| utf8 bs := Ok (string_of_list_ascii (map (fun z => ascii_of_nat (Z.to_nat z)) bs));
     loads t := rmap (fun z => JNum (NInt z)) (int_text t); float_of_text _ := Raise ValueError; topic_matches_sub _ _ := false |}.
Definition plain : RawTag := MkTag "t" "plant/t" None None None (Some (NInt 2)) (Some (NInt 0)).
Definition subscriber : driver :=
  configure "mq" [[plain]] (MkDriver None [] [] {| tag_read_count := 0; error_count := 0; reconnect_count := 0; last_successful_read := None |}).
Definition text_of (_ : exn) : string := "".
Definition ten : list Z := [49; 48].

Lemma subscriber_update_per_message_witness :
  let '(d', r) := run_once 5 text_of (MkDriver (Some "mq") (ms_mappings subscriber) [("plant/t", ten)] (ms_metrics subscriber)) in
  ms_received d' = [] /\ r = Ok (Some (update_of "mq" (mapping_of "mq" plain) 5 (VInt 20) GOOD [])) /\ tag_read_count (ms_metrics d') = 1.
Proof.
  assert (forall bs e, utf8 bs = Raise e -> parse_error e) as U by (intros bs e E; discriminate E).
  assert (forall t e, loads t = Raise e -> parse_error e) as L.
  { intros t e. simpl. destruct (int_text t) eqn:E; [by intros [=]|]. intros [= <-]. left. by eapply int_text_raises. }
  assert (forall t e, float_of_text t = Raise e -> e = ValueError) as F by (intros t e E; by injection E).
  pose proof (subscriber_update_per_message U L F 5 text_of "mq" (ms_mappings subscriber) "plant/t" ten [] (ms_metrics subscriber) (mapping_of "mq" plain) eq_refl) as P.
  cbn zeta in P. assert (decode_value (mapping_of "mq" plain) ten = Ok (VInt 20)) as D by (vm_compute; reflexivity). rewrite D in P.
  destruct (run_once _ _ _) as [d' r]. destruct P as (R & E & _ & C). split; [exact R|split; [exact E|exact C]].
Defined.

(** The driver scales a value, and the pipeline, configured from the same tag
    entry, scales it again: 10 with a scale of 2 is stored as 40. *)
Example scaled_twice :
  let u := update_of "mq" (mapping_of "mq" plain) 5 (VInt 20) GOOD [] in
  decode_value (mapping_of "mq" plain) ten = Ok (VInt 20) /\
  rmap value (normalize u (Some {| pc_scaling := Some {| scale := NInt 2; offset := NInt 0 |}; pc_deadband := None; pc_engineering_unit := None |})) =
    Ok (VFloat (float_of_Z_raw 40)).
Proof. vm_compute. split; reflexivity. Qed.
(** An integer beyond the range of a float ends the driver's loop. *)
Example huge_number_ends_loop :
  let m := mapping_of "mq" (MkTag "t" "plant/t" None None None None None) in
  decode_message "mq" m 5 text_of (49 :: repeat 48 309) = Raise OverflowError.
Proof. vm_compute. reflexivity. Qed.

Lemma loopback_echo_witness :
  exists d2 us, Loopback.poll_group "lb" 3 [Loopback.MkTag "echo" None]
    (fst (Loopback.write "echo" (VInt 9) (Loopback.configure (Loopback.MkConfig "lb" [[Loopback.MkTag "echo" None]])
       (Loopback.MkDriver None (ms_metrics subscriber) [])))) = (d2, Ok us) /\ exists u, u ∈ us /\ tu_tag_id u = "lb/echo" /\ tu_value u = VInt 9.
Proof.
  pose proof (Loopback.loopback_echo (Loopback.MkConfig "lb" [[Loopback.MkTag "echo" None]]) (Loopback.MkDriver None (ms_metrics subscriber) []) "echo" (VInt 9) "lb" 3
    [Loopback.MkTag "echo" None]) as P.
  destruct (Loopback.write _ _ _) as [d1 r] eqn:W. destruct P as [_ P].
  - exists (Loopback.MkTag "echo" None). split; [by left|done].
  - by left.
  - exact P.
Defined.
End Examples.
