(* ===== verification/Notifications.v ===== *)
(** * Alarm notifications and the watchdog
    (src/xedge/core/smtp.py, src/xedge/core/snmp_notify.py, src/xedge/core/watchdog.py)

    Two loops poll the alarm engine and tell recipients when a tag becomes
    abnormal or normal again, by e-mail and by SNMP notification; scheduled
    reports summarise alarms and values; the watchdog loop kicks systemd.  What
    a server answers is a function of everything sent to it so far, so that an
    outcome may depend on the history; the history is the state. *)

From Stdlib Require Import Ascii.
From S2P Require Import Prelude PyText PyCsv PyFloat PyDict PyTime Pipeline Alarms Assets Config MainPipeline ColdStore ModbusTransports SnmpDriver.
Local Open Scope string_scope.
Local Open Scope list_scope.
Local Open Scope Z_scope.

(** ** E-mail transport *)

Record SmtpConfig := MkSmtp {
  sm_enabled : bool; sm_host : string; sm_port : Z; sm_tls_mode : string; sm_username : option string; sm_password : option string;
  sm_from : string; sm_connect_timeout : num; sm_ca_certs : option string }.
(** The section's keys; a missing one is [None]. *)
Record RawSmtp := MkRawSmtp {
  rs_enabled : option bool; rs_host : option string; rs_port : option Z; rs_tls_mode : option string; rs_username : option string;
  rs_password : option string; rs_from : option string; rs_connect_timeout : option num; rs_ca_certs : option string }.
Definition build_smtp_config (r : RawSmtp) : SmtpConfig :=
  MkSmtp (default false (rs_enabled r)) (default "" (rs_host r)) (default 587 (rs_port r)) (default "starttls" (rs_tls_mode r))
    (rs_username r) (rs_password r) (default "" (rs_from r)) (default (NInt 10) (rs_connect_timeout r)) (rs_ca_certs r).

Record email := MkEmail { em_subject : string; em_from : string; em_to : string; em_body : string }.
(** What is done with the mail library, in order. *)
Inductive smtp_op :=
  | STlsContext (cafile : option string)
  | SConnect (ssl : bool) (host : string) (port : Z)
  | SStartTls
  | SLogin (user password : string)
  | SSend (m : email).
Definition has_crlf (s : string) : bool := any_char is_crnl s.
Fixpoint join_with (sep : string) (l : list string) : string :=
  match l with [] => "" | [x] => x | x :: t => x ++ sep ++ join_with sep t end.
Definition truthy_text (o : option string) : option string := match o with Some (String _ _ as s) => Some s | _ => None end.

Section Mail.
(** How an operation ends after the ones before it. *)
Context (server : list smtp_op -> smtp_op -> res unit).
Definition perform (op : smtp_op) : SR (list smtp_op) unit := fun done => (done ++ [op], server done op).
(** A header holds no line break. *)
Definition build_message (cfg : SmtpConfig) (to_addresses : list string) (subject body : string) : res email :=
  let to := join_with ", " to_addresses in
  raise_if has_crlf subject || has_crlf (sm_from cfg) || has_crlf to with ValueError; Ok (MkEmail subject (sm_from cfg) to body).
Definition login (cfg : SmtpConfig) : SR (list smtp_op) unit :=
  match truthy_text (sm_username cfg) with
  | Some u => perform (SLogin u (default "" (sm_password cfg)))
  | None => sret tt
  end.
Definition send_email_sync (cfg : SmtpConfig) (to_addresses : list string) (subject body : string) : SR (list smtp_op) unit :=
  let! m := slift (build_message cfg to_addresses subject body) in
  if String.eqb (sm_tls_mode cfg) "smtps" then
    let! _ := perform (STlsContext (sm_ca_certs cfg)) in
    let! _ := perform (SConnect true (sm_host cfg) (sm_port cfg)) in
    let! _ := login cfg in perform (SSend m)
  else
    let! _ := perform (SConnect false (sm_host cfg) (sm_port cfg)) in
    let! _ := if String.eqb (sm_tls_mode cfg) "starttls"
              then let! _ := perform (STlsContext (sm_ca_certs cfg)) in perform SStartTls else sret tt in
    let! _ := login cfg in perform (SSend m).

Record SmtpStatus := MkSmtpStatus {
  ss_enabled : bool; ss_last_send_at : option Z; ss_last_send_ok : option bool; ss_last_error : option exn; ss_emails_sent : Z }.
Record mailer := MkMailer { ml_ops : list smtp_op; ml_status : SmtpStatus }.
(** [send_email]: the status says how it went; an error that is no [OSError]
    ([smtplib]'s are) passes through. *)
Definition send_email (cfg : SmtpConfig) (to_addresses : list string) (subject body : string) (now : Z) : SR mailer unit := fun w =>
  let '(ops, r) := send_email_sync cfg to_addresses subject body (ml_ops w) in
  let st := ml_status w in
  match r with
  | Ok _ => (MkMailer ops (MkSmtpStatus (ss_enabled st) (Some now) (Some true) None (ss_emails_sent st + 1)), Ok tt)
  | Raise e =>
      if is_os_error e then (MkMailer ops (MkSmtpStatus (ss_enabled st) (Some now) (Some false) (Some e) (ss_emails_sent st)), Ok tt)
      else (MkMailer ops st, Raise e)
  end.
End Mail.

(** ** Watching the alarms *)

Definition is_alarming (s : AlarmState) : bool := negb (bool_decide (s = NORMAL)).
Definition is_shelved (a : AlarmStatus) (now : Z) : bool := match shelved_until a with Some u => now <? u | None => false end.
(** The states a loop remembers. *)
Abbreviation seen_states := (dict AlarmState).

Section AlarmMail.
Context (server : list smtp_op -> smtp_op -> res unit) (value_repr : option TagValue -> string) (iso : Z -> string).
Definition NEWLINE : string := String LF "".
Definition format_alarm_notification (tag_id : string) (a : AlarmStatus) (raised : bool) : string * string :=
  ("[xEdge] " ++ (if raised then "ALARM" else "CLEARED") ++ ": " ++ tag_id,
   join_with NEWLINE (["Tag: " ++ tag_id;
     "Condition: " ++ default "normal" (truthy_text (as_condition a)); "Value: " ++ value_repr (last_value a)] ++
     match raised, active_since a with true, Some t => ["Active since: " ++ iso t] | _, _ => [] end))%string.
(** One pass of [alarm_notification_loop]: [items] are the statuses as the
    pass reads them, [send_at] the clock after a delivery. *)
Fixpoint alarm_mail_pass (cfg : SmtpConfig) (recipients : list string) (now send_at : Z) (items : list (string * AlarmStatus)) :
    SR (seen_states * mailer) unit :=
  match items with
  | [] => sret tt
  | (tag_id, a) :: rest =>
      let next := alarm_mail_pass cfg recipients now send_at rest in
      let! previous := sget fst in
      let prior_state := default NORMAL (dict_get tag_id previous) in
      let! _ := smodify (fun w => (dict_set tag_id (as_state a) (fst w), snd w)) in
      if bool_decide (as_state a = prior_state) then next else
      if Bool.eqb (is_alarming (as_state a)) (is_alarming prior_state) then next else
      if is_shelved a now then next else
      let '(subject, body) := format_alarm_notification tag_id a (is_alarming (as_state a)) in
      let! _ := match recipients with
                | [] => sret tt
                | _ => fun w => let '(m, r) := send_email server cfg recipients subject body send_at (snd w) in ((fst w, m), r)
                end in
      next
  end.
End AlarmMail.

(** ** Scheduled reports *)

Record ScheduledReportConfig := MkReport {
  rp_id : string; rp_enabled : bool; rp_recipients : list string; rp_interval : num; rp_tag_ids : list string; rp_asset_ids : list string }.
Record RawReport := MkRawReport {
  rr_id : option string; rr_enabled : option bool; rr_recipients : option (list string); rr_interval : option num;
  rr_tag_ids : option (list string); rr_asset_ids : option (list string) }.
Definition build_scheduled_report_configs (entries : list RawReport) : res (list ScheduledReportConfig) :=
  mapM_res (fun e =>
    let* i := required (rr_id e) in
    Ok (MkReport i (default true (rr_enabled e)) (default [] (rr_recipients e)) (default (NInt 86400) (rr_interval e))
      (default [] (rr_tag_ids e)) (default [] (rr_asset_ids e))))
    (List.filter (fun e => default true (rr_enabled e)) entries).
Record AlarmNotificationConfig := MkNotify { an_enabled : bool; an_recipients : list string }.
Definition build_alarm_notification_config (enabled : option bool) (recipients : option (list string)) : AlarmNotificationConfig :=
  MkNotify (default false enabled) (default [] recipients).

Definition resolve_report_tag_ids (r : ScheduledReportConfig) (assets_config : list RawAsset) : res (list string) :=
  match rp_asset_ids r with
  | [] => Ok (rp_tag_ids r)
  | ids =>
      let* assets := parse_assets assets_config in
      let by_id := fold_left (fun d a => dict_set (asset_id a) a d) assets [] in
      Ok (rp_tag_ids r ++ flat_map (fun i => match dict_get i by_id with Some a => map tag_ref (parameters a) | None => [] end) ids)
  end.
Section Reports.
Context (server : list smtp_op -> smtp_op -> res unit) (value_repr : option TagValue -> string).
Definition alarm_line (s : string * AlarmStatus) : string :=
  ("  " ++ fst s ++ ": " ++ default "None" (as_condition (snd s)) ++ " (value=" ++ value_repr (last_value (snd s)) ++ ")")%string.
Definition value_line (latest_values : LatestValueStore) (tag_id : string) : string :=
  ("  " ++ tag_id ++ ": " ++
   match latest_get tag_id latest_values with
   | None => "(no data)"
   | Some t => value_repr (Some (value t)) ++ " (" ++ quality_value (quality t) ++ ")"
   end)%string.
Definition report_lines (r : ScheduledReportConfig) (statuses : option (list (string * AlarmStatus))) (latest_values : LatestValueStore)
    (assets_config : list RawAsset) : res (list string) :=
  let active := py_sorted (fun x y => String.leb (fst x) (fst y)) (List.filter (fun s => is_alarming (as_state (snd s))) (default [] statuses)) in
  let* tag_ids := resolve_report_tag_ids r assets_config in
  Ok ([("xEdge scheduled report: " ++ rp_id r)%string; ""; "Active alarms:"]
      ++ (match active with [] => ["  (none)"] | _ => map alarm_line active end)
      ++ [""; "Tag values:"]
      ++ (match tag_ids with [] => ["  (none configured)"] | _ => map (value_line latest_values) tag_ids end)).
Definition format_report_body (r : ScheduledReportConfig) (statuses : option (list (string * AlarmStatus))) (latest_values : LatestValueStore)
    (assets_config : list RawAsset) : res string := rmap (join_with NEWLINE) (report_lines r statuses latest_values assets_config).
(** One turn of [scheduled_report_loop], after its sleep. *)
Definition report_turn (r : ScheduledReportConfig) (cfg : SmtpConfig) (assets_config : list RawAsset) (statuses : option (list (string * AlarmStatus)))
    (latest_values : LatestValueStore) (now : Z) : SR mailer unit :=
  match rp_recipients r with
  | [] => sret tt
  | recipients =>
      let! body := slift (format_report_body r statuses latest_values assets_config) in
      send_email server cfg recipients ("[xEdge] Scheduled report: " ++ rp_id r) body now
  end.
End Reports.

(** ** SNMP notifications *)

Definition PLACEHOLDER_ENTERPRISE_OID : string := "1.3.6.1.4.1.999999".
Definition NOTIFY_TYPE_RAISED_OID : string := PLACEHOLDER_ENTERPRISE_OID ++ ".3.1".
Definition NOTIFY_TYPE_CLEARED_OID : string := PLACEHOLDER_ENTERPRISE_OID ++ ".3.2".
Definition VARBIND_TAG_ID_OID : string := PLACEHOLDER_ENTERPRISE_OID ++ ".4.1".
Definition VARBIND_CONDITION_OID : string := PLACEHOLDER_ENTERPRISE_OID ++ ".4.2".
Definition VARBIND_VALUE_OID : string := PLACEHOLDER_ENTERPRISE_OID ++ ".4.3".
Definition VARBIND_STATE_OID : string := PLACEHOLDER_ENTERPRISE_OID ++ ".4.4".
Definition DEFAULT_TRAP_PORT : Z := 162.
Record SnmpTrapDestination := MkTrap {
  td_host : string; td_port : Z; td_version : string; td_community : string; td_username : option string; td_auth_protocol : string;
  td_auth_password : option string; td_priv_protocol : string; td_priv_password : option string; td_notify_type : string }.
Record RawTrap := MkRawTrap {
  rt_host : option string; rt_port : option Z; rt_version : option string; rt_community : option string; rt_username : option string;
  rt_auth_protocol : option string; rt_auth_password : option string; rt_priv_protocol : option string; rt_priv_password : option string;
  rt_notify_type : option string }.
Definition build_destination (d : RawTrap) : res SnmpTrapDestination :=
  let* h := required (rt_host d) in
  Ok (MkTrap h (default DEFAULT_TRAP_PORT (rt_port d)) (default "v2c" (rt_version d)) (default "public" (rt_community d)) (rt_username d)
    (default "none" (rt_auth_protocol d)) (rt_auth_password d) (default "none" (rt_priv_protocol d)) (rt_priv_password d)
    (default "trap" (rt_notify_type d))).
Record SnmpNotifyConfig := MkNotifyConfig { sn_enabled : bool; sn_destinations : list SnmpTrapDestination }.
Definition build_snmp_notify_config (enabled : option bool) (destinations : list RawTrap) : res SnmpNotifyConfig :=
  let* ds := mapM_res build_destination destinations in Ok (MkNotifyConfig (default false enabled) ds).
Definition trap_auth_data (dest : SnmpTrapDestination) : res auth_data :=
  if String.eqb (td_version dest) "v1" || String.eqb (td_version dest) "v2c" then
    raise_if String.eqb (td_community dest) "" with SnmpConfigError;
    Ok (CommunityData (td_community dest) (if String.eqb (td_version dest) "v1" then 0 else 1))
  else
    match truthy_text (td_username dest) with
    | None => Raise SnmpConfigError
    | Some user =>
        raise_if negb (String.eqb (td_priv_protocol dest) "none") && String.eqb (td_auth_protocol dest) "none" with SnmpConfigError;
        raise_if negb (bool_decide (td_auth_protocol dest ∈ AUTH_PROTOCOLS)) || negb (bool_decide (td_priv_protocol dest ∈ PRIV_PROTOCOLS)) with KeyError;
        Ok (UsmUserData user (truthy_text (td_auth_password dest)) (truthy_text (td_priv_password dest)) (td_auth_protocol dest) (td_priv_protocol dest))
    end.
(** A notification as it is sent: its type and variable bindings. *)
Record trap := MkTrapMessage {
  tm_host : string; tm_port : Z; tm_auth : auth_data; tm_kind : string; tm_oid : string; tm_varbinds : list (string * string) }.
Record SnmpNotifyStatus := MkNotifyStatus {
  ns_enabled : bool; ns_last_send_at : option Z; ns_last_send_ok : option bool; ns_last_error : option exn; ns_sent : Z }.
Record notifier := MkNotifier { nt_traps : list trap; nt_status : SnmpNotifyStatus }.
Definition alarm_state_value (s : AlarmState) : string :=
  match s with NORMAL => "normal" | ACTIVE => "active" | ACTIVE_ACKED => "active_acked" end.

Section Traps.
(** How pysnmp's [create] and [send_notification] end, after the ones before. *)
Context (network : list trap -> trap -> res unit) (value_repr : option TagValue -> string).
Definition send_one (d : SnmpTrapDestination) (tag_id : string) (a : AlarmStatus) (raised : bool) : SR (list trap) unit :=
  let! auth := slift (trap_auth_data d) in
  fun sent =>
    let m := MkTrapMessage (td_host d) (td_port d) auth (td_notify_type d) (if raised then NOTIFY_TYPE_RAISED_OID else NOTIFY_TYPE_CLEARED_OID)
      [(VARBIND_TAG_ID_OID, tag_id); (VARBIND_CONDITION_OID, default "normal" (truthy_text (as_condition a)));
       (VARBIND_VALUE_OID, value_repr (last_value a)); (VARBIND_STATE_OID, alarm_state_value (as_state a))] in
    (sent ++ [m], network sent m).
Definition with_last_error (e : exn) (st : SnmpNotifyStatus) : SnmpNotifyStatus :=
  MkNotifyStatus (ns_enabled st) (ns_last_send_at st) (ns_last_send_ok st) (Some e) (ns_sent st).
(** The destinations in turn, whether one failed; what is no [PySnmpError] passes through. *)
Fixpoint send_each (ds : list SnmpTrapDestination) (tag_id : string) (a : AlarmStatus) (raised any_failed : bool) : SR notifier bool :=
  match ds with
  | [] => sret any_failed
  | d :: rest => fun w =>
      let '(sent, r) := send_one d tag_id a raised (nt_traps w) in
      match r with
      | Ok _ => send_each rest tag_id a raised any_failed (MkNotifier sent (nt_status w))
      | Raise e =>
          if decide (e = PySnmpError) then send_each rest tag_id a raised true (MkNotifier sent (with_last_error e (nt_status w)))
          else (MkNotifier sent (nt_status w), Raise e)
      end
  end.
Definition send_alarm_notification (cfg : SnmpNotifyConfig) (tag_id : string) (a : AlarmStatus) (raised : bool) (now : Z) : SR notifier unit :=
  let! any_failed := send_each (sn_destinations cfg) tag_id a raised false in
  smodify (fun w => let st := nt_status w in
    MkNotifier (nt_traps w) (MkNotifyStatus (ns_enabled st) (Some now) (Some (negb any_failed)) (ns_last_error st)
      (if (any_failed : bool) then ns_sent st else ns_sent st + 1))).
(** One pass of [snmp_alarm_notification_loop]. *)
Fixpoint alarm_trap_pass (cfg : SnmpNotifyConfig) (now send_at : Z) (items : list (string * AlarmStatus)) : SR (seen_states * notifier) unit :=
  match items with
  | [] => sret tt
  | (tag_id, a) :: rest =>
      let next := alarm_trap_pass cfg now send_at rest in
      let! previous := sget fst in
      let prior_state := default NORMAL (dict_get tag_id previous) in
      let! _ := smodify (fun w => (dict_set tag_id (as_state a) (fst w), snd w)) in
      if bool_decide (as_state a = prior_state) then next else
      if Bool.eqb (is_alarming (as_state a)) (is_alarming prior_state) then next else
      if is_shelved a now then next else
      let! _ := match sn_destinations cfg with
                | [] => sret tt
                | _ => fun w => let '(m, r) := send_alarm_notification cfg tag_id a (is_alarming (as_state a)) send_at (snd w) in ((fst w, m), r)
                end in
      next
  end.
End Traps.

(** ** Watchdog *)

Section Watchdog.
(** How a datagram to the address ends, after the ones before. *)
Context (notify_socket : option string) (socket : list (string * string) -> string * string -> res unit).
Definition notify (message : string) : SR (list (string * string)) bool :=
  match notify_socket with
  | None | Some EmptyString => sret false
  | Some (String c rest as address) =>
      let address := if Ascii.eqb c "@" then String "000" rest else address in
      fun sent => match socket sent (address, message) with
                  | Ok _ => (sent ++ [(address, message)], Ok true)
                  | Raise e => (sent, Raise e)
                  end
  end.
Fixpoint kicks (n : nat) : SR (list (string * string)) unit :=
  match n with O => sret tt | S n => let! _ := notify "WATCHDOG=1" in kicks n end.
(** The loop up to its [n]th sleep. *)
Definition watchdog_run (enabled : bool) (n : nat) : SR (list (string * string)) unit :=
  if negb enabled then sret tt else let! _ := notify "READY=1" in kicks n.
End Watchdog.

(** ** Credentials *)

Definition secure (op : smtp_op) : bool := match op with SConnect true _ _ | SStartTls => true | _ => false end.
(** Every login of the trace comes after a step that secured the connection and succeeded. *)
Definition protected_logins (server : list smtp_op -> smtp_op -> res unit) (start : list smtp_op) (trace : list smtp_op) : Prop :=
  forall pre u p post, trace = pre ++ SLogin u p :: post -> (length start <= length pre)%nat ->
  exists pre1 op pre2, pre = pre1 ++ op :: pre2 /\ (length start <= length pre1)%nat /\ secure op = true /\ server pre1 op = Ok tt.
Lemma app_split_at {A} (a b c d : list A) x : a ++ b = c ++ x :: d -> (length a <= length c)%nat ->
  exists c', c = a ++ c' /\ b = c' ++ x :: d.
Proof.
  revert c. induction a as [|y a IH]; intros c E L; simpl in *; [by exists c|]. destruct c as [|z c]; simpl in *; [lia|].
  injection E as -> E. destruct (IH c E) as (c' & -> & ->); [lia|]. by exists c'.
Qed.

Definition is_login (op : smtp_op) : bool := match op with SLogin _ _ => true | _ => false end.
Lemma protected_none server start ops : forallb (fun op => negb (is_login op)) ops = true -> protected_logins server start (start ++ ops).
Proof.
  intros F pre u p post E L. destruct (app_split_at _ _ _ _ _ E L) as (c & -> & ->). rewrite forallb_app in F.
  by apply andb_true_iff in F as [_ F].
Qed.
Lemma protected_after server start a op rest :
  forallb (fun op => negb (is_login op)) (a ++ [op]) = true -> secure op = true -> server (start ++ a) op = Ok tt ->
  protected_logins server start (start ++ a ++ op :: rest).
Proof.
  intros F S O pre u p post E L. destruct (app_split_at _ _ _ _ _ E L) as (c & -> & E').
  destruct (decide (length a < length c)%nat) as [Lc|Lc].
  - replace (a ++ op :: rest) with ((a ++ [op]) ++ rest) in E' by by rewrite <- app_assoc.
    destruct (app_split_at _ _ _ _ _ E') as (c' & -> & _); [rewrite length_app; simpl; lia|].
    exists (start ++ a), op, c'. split_and!; [by rewrite <- !app_assoc|rewrite length_app; lia|done|done].
  - exfalso. assert (E2 : (a ++ [op]) !! length c = Some (SLogin u p)).
    { assert ((a ++ op :: rest) !! length c = Some (SLogin u p)) as G by (rewrite E'; by apply list_lookup_middle).
      replace (a ++ op :: rest) with ((a ++ [op]) ++ rest) in G by by rewrite <- app_assoc.
      rewrite lookup_app_l in G; [done|]. rewrite length_app. simpl. lia. }
    apply list_elem_of_lookup_2 in E2. rewrite forallb_forall in F. apply list_elem_of_In in E2. by apply F in E2.
Qed.
(** What follows the secured connection: a login if there is a user, the message. *)
Lemma rest_ops server cfg m done : exists ops, fst ((let! _ := login server cfg in perform server (SSend m)) done) = done ++ ops.
Proof.
  unfold login, sbind, perform. destruct (truthy_text (sm_username cfg)) as [u|]; simpl; [|by eexists].
  destruct (server done _); simpl; [rewrite <- app_assoc|]; by eexists.
Qed.

(** A password is never sent in the clear when TLS is configured: whatever the
    mail server answers, a login is only attempted after a step of the same
    delivery secured the connection, an implicit TLS connection or a STARTTLS
    the server accepted. *)
Theorem credentials_only_over_tls server cfg to subject body start :
  sm_tls_mode cfg = "smtps" \/ sm_tls_mode cfg = "starttls" ->
  protected_logins server start (fst (send_email_sync server cfg to subject body start)).
Proof.
  intros T. unfold send_email_sync. destruct (build_message cfg to subject body) as [m|e]; cbn [sbind slift fst];
    [|rewrite <- (app_nil_r start) at 2; by apply protected_none].
  unfold sbind at 1. cbn [slift]. destruct T as [-> | ->]; cbn [String.eqb Ascii.eqb Bool.eqb]; unfold sbind at 1; unfold perform at 1.
  - destruct (server start _) as [[]|] eqn:E1; [|by apply protected_none]. unfold sbind at 1. unfold perform at 1.
    destruct (server (start ++ _) _) as [[]|] eqn:E2; [|rewrite <- app_assoc; by apply protected_none].
    cbv beta. destruct (rest_ops server cfg m ((start ++ [STlsContext (sm_ca_certs cfg)]) ++ [SConnect true (sm_host cfg) (sm_port cfg)])) as [ops R].
    unfold sbind in R |- *. rewrite R.
    rewrite <- !app_assoc. by apply (protected_after server start [STlsContext (sm_ca_certs cfg)]).
  - destruct (server start _) as [[]|] eqn:E1; [|by apply protected_none]. unfold sbind at 1. unfold sbind at 1. unfold perform at 1.
    destruct (server (start ++ _) (STlsContext _)) as [[]|] eqn:E2; [|rewrite <- app_assoc; by apply protected_none].
    unfold perform at 1. destruct (server (_ ++ _) SStartTls) as [[]|] eqn:E3; [|rewrite <- !app_assoc; by apply protected_none].
    cbv beta. destruct (rest_ops server cfg m (((start ++ [SConnect false (sm_host cfg) (sm_port cfg)]) ++ [STlsContext (sm_ca_certs cfg)]) ++ [SStartTls])) as [ops R].
    unfold sbind in R |- *. rewrite R.
    rewrite <- !app_assoc. rewrite <- app_assoc in E3.
    by apply (protected_after server start [SConnect false (sm_host cfg) (sm_port cfg); STlsContext (sm_ca_certs cfg)]).
Qed.

(** ** What the two loops announce *)

(** The pass both loops make, over a way of delivering. *)
Fixpoint watch {D} (deliver : string -> AlarmStatus -> bool -> SR D unit) (now : Z) (items : list (string * AlarmStatus)) : SR (seen_states * D) unit :=
  match items with
  | [] => sret tt
  | (tag_id, a) :: rest => fun w =>
      let prior := default NORMAL (dict_get tag_id (fst w)) in
      let seen := dict_set tag_id (as_state a) (fst w) in
      if Bool.eqb (is_alarming (as_state a)) (is_alarming prior) || is_shelved a now then watch deliver now rest (seen, snd w)
      else match deliver tag_id a (is_alarming (as_state a)) (snd w) with
           | (d, Ok _) => watch deliver now rest (seen, d)
           | (d, Raise e) => ((seen, d), Raise e)
           end
  end.
Definition mail_delivery server value_repr iso cfg recipients send_at tag_id a raised : SR mailer unit :=
  match recipients with
  | [] => sret tt
  | _ => let '(subject, body) := format_alarm_notification value_repr iso tag_id a raised in send_email server cfg recipients subject body send_at
  end.
Definition trap_delivery network value_repr cfg send_at tag_id a raised : SR notifier unit :=
  match sn_destinations cfg with [] => sret tt | _ => send_alarm_notification network value_repr cfg tag_id a raised send_at end.
Lemma same_state_same_alarm a b : bool_decide (a = b) = true -> Bool.eqb (is_alarming a) (is_alarming b) = true.
Proof. intros ->%bool_decide_eq_true. apply Bool.eqb_reflx. Qed.
Lemma mail_pass_watch server value_repr iso cfg recipients now send_at items : forall w,
  alarm_mail_pass server value_repr iso cfg recipients now send_at items w = watch (mail_delivery server value_repr iso cfg recipients send_at) now items w.
Proof.
  induction items as [|[t a] items IH]; intros [seen m]; [done|]. cbn [alarm_mail_pass watch]. unfold sbind at 1 2, sget, smodify. cbn [fst snd].
  destruct (bool_decide _) eqn:S; [rewrite (same_state_same_alarm _ _ S); apply IH|].
  destruct (Bool.eqb _ _); [apply IH|]. destruct (is_shelved a now); [apply IH|]. cbn [orb]. unfold mail_delivery at 1.
  destruct (format_alarm_notification value_repr iso t a (is_alarming (as_state a))) as [subject body].
  destruct recipients as [|r rs]; [apply IH|]. unfold sbind. cbn [snd].
  destruct (send_email _ _ _ _ _ _ m) as [m' [[]|e]]; [apply IH|done].
Qed.
Lemma trap_pass_watch network value_repr cfg now send_at items : forall w,
  alarm_trap_pass network value_repr cfg now send_at items w = watch (trap_delivery network value_repr cfg send_at) now items w.
Proof.
  induction items as [|[t a] items IH]; intros [seen m]; [done|]. cbn [alarm_trap_pass watch]. unfold sbind at 1 2, sget, smodify. cbn [fst snd].
  destruct (bool_decide _) eqn:S; [rewrite (same_state_same_alarm _ _ S); apply IH|].
  destruct (Bool.eqb _ _); [apply IH|]. destruct (is_shelved a now); [apply IH|]. cbn [orb]. unfold trap_delivery at 1.
  destruct (sn_destinations cfg) as [|d ds] eqn:Ds; [apply IH|]. unfold sbind at 1. cbn [snd].
  destruct (send_alarm_notification _ _ _ _ _ _ _ m) as [m' [[]|e]]; [apply IH|done].
Qed.

(** The announcements of a pass, and the states it leaves remembered. *)
Fixpoint announce (seen : seen_states) (now : Z) (items : list (string * AlarmStatus)) : list (string * AlarmStatus * bool) :=
  match items with
  | [] => []
  | (t, a) :: rest =>
      (if Bool.eqb (is_alarming (as_state a)) (is_alarming (default NORMAL (dict_get t seen))) || is_shelved a now then []
       else [(t, a, is_alarming (as_state a))]) ++ announce (dict_set t (as_state a) seen) now rest
  end.
Definition seen_after (seen : seen_states) (items : list (string * AlarmStatus)) : seen_states :=
  fold_left (fun s ta => dict_set (fst ta) (as_state (snd ta)) s) items seen.
Definition deliver_all {D} (deliver : string -> AlarmStatus -> bool -> SR D unit) (l : list (string * AlarmStatus * bool)) (d : D) : D :=
  fold_left (fun d x => fst (deliver x.1.1 x.1.2 x.2 d)) l d.
Lemma watch_announces {D} (deliver : string -> AlarmStatus -> bool -> SR D unit) now items : forall seen d,
  (forall t a b d, (t, a) ∈ items -> snd (deliver t a b d) = Ok tt) ->
  watch deliver now items (seen, d) = ((seen_after seen items, deliver_all deliver (announce seen now items) d), Ok tt).
Proof.
  induction items as [|[t a] items IH]; intros seen d H; [done|]. cbn [watch announce fst snd].
  assert (H' : forall t a b d, (t, a) ∈ items -> snd (deliver t a b d) = Ok tt) by (intros; apply H; by right).
  destruct (_ || _); [by apply IH|]. specialize (H t a (is_alarming (as_state a)) d ltac:(by left)).
  destruct (deliver t a _ d) as [d' r] eqn:E. simpl in H. subst r. rewrite IH by done. unfold deliver_all. simpl. by rewrite E.
Qed.

(** One tag over a run of passes. *)
Record alarm_pass := MkPass { ap_now : Z; ap_send_at : Z; ap_items : list (string * AlarmStatus) }.
Fixpoint announcements (seen : seen_states) (passes : list alarm_pass) : list (string * AlarmStatus * bool) :=
  match passes with [] => [] | p :: rest => announce seen (ap_now p) (ap_items p) ++ announcements (seen_after seen (ap_items p)) rest end.
Definition of_tag (t : string) (l : list (string * AlarmStatus * bool)) : list bool := map snd (List.filter (fun x => String.eqb t x.1.1) l).
Definition readings (t : string) (passes : list alarm_pass) : list AlarmStatus := omap (fun p => dict_get t (ap_items p)) passes.
(** The changes in a sequence of truth values. *)
Fixpoint changes (prior : bool) (l : list bool) : list bool :=
  match l with [] => [] | b :: l => if Bool.eqb b prior then changes prior l else b :: changes b l end.

Lemma of_tag_app t a b : of_tag t (a ++ b) = of_tag t a ++ of_tag t b.
Proof. unfold of_tag. by rewrite List.filter_app, map_app. Qed.
Lemma announce_absent t now items : forall seen, dict_get t items = None -> of_tag t (announce seen now items) = [].
Proof.
  induction items as [|[k a] items IH]; intros seen G; [done|]. cbn [announce dict_get] in *. case_decide as D; [done|].
  rewrite of_tag_app, IH by done. destruct (_ || _); [done|]. unfold of_tag. simpl. by rewrite (proj2 (String.eqb_neq t k) D).
Qed.
Lemma announce_present t a now items : forall seen, dict_wf items -> dict_get t items = Some a -> is_shelved a now = false ->
  of_tag t (announce seen now items) = changes (is_alarming (default NORMAL (dict_get t seen))) [is_alarming (as_state a)].
Proof.
  unfold dict_wf. induction items as [|[k b] items IH]; intros seen W G S; [done|]. cbn [announce dict_get dict_keys map fst] in *.
  apply NoDup_cons in W as [N W]. rewrite of_tag_app. case_decide as D.
  - subst k. injection G as ->. rewrite S, orb_false_r. rewrite announce_absent by by apply dict_get_none. rewrite app_nil_r. simpl.
    destruct (Bool.eqb _ _); [done|]. unfold of_tag. simpl. by rewrite String.eqb_refl.
  - rewrite IH by done. rewrite dict_get_set_ne by done. destruct (_ || _); [done|]. unfold of_tag. simpl. by rewrite (proj2 (String.eqb_neq t k) D).
Qed.
Lemma seen_after_get t items : forall seen, dict_wf items ->
  dict_get t (seen_after seen items) = match dict_get t items with Some a => Some (as_state a) | None => dict_get t seen end.
Proof.
  unfold dict_wf, seen_after. induction items as [|[k b] items IH]; intros seen W; [done|]. simpl in *. apply NoDup_cons in W as [N W].
  rewrite IH by done. rewrite dict_get_set. destruct (decide (t = k)) as [->|]; [|done]. by rewrite (proj2 (dict_get_none k items) N).
Qed.
Lemma announcements_changes t passes : forall seen,
  Forall (fun p => dict_wf (ap_items p) /\ forall a, dict_get t (ap_items p) = Some a -> is_shelved a (ap_now p) = false) passes ->
  of_tag t (announcements seen passes) =
  changes (is_alarming (default NORMAL (dict_get t seen))) (map (fun a => is_alarming (as_state a)) (readings t passes)).
Proof.
  induction passes as [|p passes IH]; intros seen F; [done|]. apply Forall_cons in F as [[W S] F]. cbn [announcements].
  rewrite of_tag_app, IH, seen_after_get by done. unfold readings. cbn [omap list_omap]. destruct (dict_get t (ap_items p)) as [a|] eqn:G.
  - rewrite (announce_present t a) by auto. simpl. destruct (Bool.eqb _ _) eqn:E; [|done]. apply Bool.eqb_prop in E. by rewrite E.
  - by rewrite announce_absent.
Qed.

(** The passes of the e-mail loop one after the other. *)
Fixpoint mail_loop server value_repr iso (cfg : SmtpConfig) (recipients : list string) (passes : list alarm_pass) : SR (seen_states * mailer) unit :=
  match passes with
  | [] => sret tt
  | p :: rest =>
      let! _ := alarm_mail_pass server value_repr iso cfg recipients (ap_now p) (ap_send_at p) (ap_items p) in
      mail_loop server value_repr iso cfg recipients rest
  end.
Fixpoint trap_loop network value_repr (cfg : SnmpNotifyConfig) (passes : list alarm_pass) : SR (seen_states * notifier) unit :=
  match passes with
  | [] => sret tt
  | p :: rest =>
      let! _ := alarm_trap_pass network value_repr cfg (ap_now p) (ap_send_at p) (ap_items p) in trap_loop network value_repr cfg rest
  end.

(** What is delivered over the passes, each with the clock of its pass. *)
Fixpoint events (seen : seen_states) (passes : list alarm_pass) : list (Z * (string * AlarmStatus * bool)) :=
  match passes with
  | [] => []
  | p :: rest => map (pair (ap_send_at p)) (announce seen (ap_now p) (ap_items p)) ++ events (seen_after seen (ap_items p)) rest
  end.
Lemma events_announcements passes : forall seen, map snd (events seen passes) = announcements seen passes.
Proof. induction passes as [|p passes IH]; intros seen; simpl; [done|]. rewrite map_app, map_map, IH. simpl. by rewrite map_id. Qed.
Definition deliver_events {D} (deliver : Z -> string -> AlarmStatus -> bool -> SR D unit) (l : list (Z * (string * AlarmStatus * bool))) (d : D) : D :=
  fold_left (fun d x => fst (deliver x.1 x.2.1.1 x.2.1.2 x.2.2 d)) l d.
Lemma deliver_events_app {D} (deliver : Z -> string -> AlarmStatus -> bool -> SR D unit) at_ l rest d :
  deliver_events deliver (map (pair at_) l ++ rest) d = deliver_events deliver rest (deliver_all (deliver at_) l d).
Proof. unfold deliver_events, deliver_all. rewrite fold_left_app. f_equal. revert d. induction l as [|x l IH]; intros d; simpl; [done|apply IH]. Qed.

Section Announced.
Context (server : list smtp_op -> smtp_op -> res unit) (network : list trap -> trap -> res unit) (value_repr : option TagValue -> string) (iso : Z -> string).
Context (cfg : SmtpConfig) (recipients : list string) (notify_cfg : SnmpNotifyConfig).
Local Abbreviation mail := (mail_delivery server value_repr iso cfg recipients).
Local Abbreviation trap_ := (trap_delivery network value_repr notify_cfg).

Lemma any_char_app q a b : any_char q (a ++ b) = any_char q a || any_char q b.
Proof. induction a as [|c a IH]; [done|]. rewrite append_cons. simpl. by rewrite IH, orb_assoc. Qed.
(** The mail server fails only the way [smtplib] does, and nothing in the headers breaks a line. *)
Definition mail_sane (items : list (string * AlarmStatus)) : Prop :=
  (forall l op e, server l op = Raise e -> is_os_error e = true) /\
  has_crlf (sm_from cfg) = false /\ has_crlf (join_with ", " recipients) = false /\ Forall (fun ta => has_crlf (fst ta) = false) items.
(** Every destination's settings make credentials, and pysnmp fails only with its own error. *)
Definition traps_sane : Prop :=
  (forall l m e, network l m = Raise e -> e = PySnmpError) /\ Forall (fun d => is_ok (trap_auth_data d) = true) (sn_destinations notify_cfg).

Lemma sync_os_error to subject body m : build_message cfg to subject body = Ok m -> (forall l op e, server l op = Raise e -> is_os_error e = true) ->
  forall ops e, snd (send_email_sync server cfg to subject body ops) = Raise e -> is_os_error e = true.
Proof.
  intros B S ops e. unfold send_email_sync. rewrite B. unfold sbind, slift, login, perform.
  repeat match goal with
    | |- context [server ?l ?o] => destruct (server l o) as [[]|] eqn:?; simpl
    | |- context [if ?b then _ else _] => destruct b; simpl
    | |- context [truthy_text ?o] => destruct (truthy_text o); simpl
    end; try done; intros [= <-]; eauto.
Qed.
Lemma mail_never_raises items at_ t a b d : mail_sane items -> (t, a) ∈ items -> snd (mail at_ t a b d) = Ok tt.
Proof.
  intros (S & F & R & I) E. rewrite Forall_forall in I. specialize (I _ E). simpl in I.
  unfold mail_delivery. destruct recipients as [|r rs] eqn:Rc; [done|]. rewrite <- Rc in *.
  unfold format_alarm_notification. unfold send_email.
  match goal with |- context [send_email_sync server cfg ?rc ?sub ?bd] => assert (B : exists m, build_message cfg rc sub bd = Ok m) end.
  { unfold build_message. rewrite F, R. unfold has_crlf in *. rewrite !any_char_app, I. destruct b; simpl; by eexists. }
  destruct B as [m B]. pose proof (sync_os_error _ _ _ _ B S (ml_ops d)) as K.
  destruct (send_email_sync _ _ _ _ _ _) as [ops [[]|e]]; [done|]. simpl in K. by rewrite K.
Qed.
Lemma send_each_ok ds t a b : (forall l m e, network l m = Raise e -> e = PySnmpError) -> Forall (fun d => is_ok (trap_auth_data d) = true) ds ->
  forall f w, is_ok (snd (send_each network value_repr ds t a b f w)) = true.
Proof.
  intros N. induction ds as [|d ds IH]; intros F f w; [done|]. apply Forall_cons in F as [A F]. cbn [send_each].
  unfold send_one, sbind, slift. destruct (trap_auth_data d) as [auth|]; [|done]. cbn [fst snd].
  destruct (network _ _) as [[]|e] eqn:E; [by apply IH|]. apply N in E as ->. rewrite decide_True by done. by apply IH.
Qed.
Lemma trap_never_raises at_ t a b d : traps_sane -> snd (trap_ at_ t a b d) = Ok tt.
Proof.
  intros [N F]. unfold trap_delivery. destruct (sn_destinations notify_cfg) eqn:D; [done|]. unfold send_alarm_notification, sbind.
  rewrite D. pose proof (send_each_ok _ t a b N F false d) as K. by destruct (send_each _ _ _ _ _ _ _ d) as [w [|]].
Qed.

Definition seen_run (seen : seen_states) (passes : list alarm_pass) : seen_states := fold_left (fun s p => seen_after s (ap_items p)) passes seen.

(** C34: Each change is announced once, by both loops alike: over any passes the
    loops deliver the same events, one per tag that a pass finds abnormal after
    it was normal, or normal after it was abnormal, as far as it was not
    shelved then; so the messages about a tag that is not shelved alternate
    between raised and cleared, exactly as its state changed.  Servers that
    fail do not stop the loops. *)
Theorem alarm_changes_announced passes m w :
  Forall (fun p => mail_sane (ap_items p)) passes -> traps_sane ->
  mail_loop server value_repr iso cfg recipients passes ([], m) = ((seen_run [] passes, deliver_events mail (events [] passes) m), Ok tt) /\
  trap_loop network value_repr notify_cfg passes ([], w) = ((seen_run [] passes, deliver_events trap_ (events [] passes) w), Ok tt) /\
  (forall t, Forall (fun p => dict_wf (ap_items p) /\ forall a, dict_get t (ap_items p) = Some a -> is_shelved a (ap_now p) = false) passes ->
     of_tag t (map snd (events [] passes)) = changes false (map (fun a => is_alarming (as_state a)) (readings t passes))).
Proof.
  intros MS TS. split; [|split].
  - generalize (@nil (string * AlarmState)) as seen. revert m. induction passes as [|p passes IH]; intros m seen; [done|].
    apply Forall_cons in MS as [S MS]. cbn [mail_loop events]. unfold sbind. rewrite mail_pass_watch, watch_announces.
    + rewrite IH by done. by rewrite deliver_events_app.
    + intros t a b d E. by eapply mail_never_raises.
  - generalize (@nil (string * AlarmState)) as seen. revert w. clear MS. induction passes as [|p passes IH]; intros w seen; [done|].
    cbn [trap_loop events]. unfold sbind. rewrite trap_pass_watch, watch_announces.
    + rewrite IH by done. by rewrite deliver_events_app.
    + intros t a b d E. by apply trap_never_raises.
  - intros t F. rewrite events_announcements. by apply (announcements_changes t passes []).
Qed.
End Announced.

(** ** Examples *)

Definition demo_mail_server : list smtp_op -> smtp_op -> res unit := fun _ op => match op with SStartTls => Raise OSError | _ => Ok tt end.
Definition demo_smtp : SmtpConfig := build_smtp_config (MkRawSmtp (Some true) (Some "mail") None None (Some "u") (Some "p") (Some "edge@plant") None None).
Definition demo_mailer : mailer := MkMailer [] (MkSmtpStatus true None None None 0).
Definition demo_alarm (s : AlarmState) (shelved : option Z) : AlarmStatus :=
  {| as_state := s; as_condition := Some "high"; active_since := Some 5; acknowledged_by := None; acknowledged_at := None;
     shelved_until := shelved; last_value := Some (VInt 91); last_rate_per_second := None |}.
Definition demo_trap (version : string) : SnmpTrapDestination := MkTrap "nms" 162 version "public" None "none" None "none" None "trap".
Definition demo_notifier : notifier := MkNotifier [] (MkNotifyStatus true None None None 0).
Definition demo_passes : list alarm_pass :=
  [MkPass 10 11 [("t1", demo_alarm ACTIVE None); ("t2", demo_alarm NORMAL None)]; MkPass 20 21 [("t1", demo_alarm ACTIVE_ACKED None); ("t2", demo_alarm ACTIVE None)];
   MkPass 30 31 [("t1", demo_alarm NORMAL None); ("t2", demo_alarm ACTIVE None)]].
Definition no_repr : option TagValue -> string := fun _ => "91".
Definition no_iso : Z -> string := fun _ => "2024".

(** A refused STARTTLS ends the delivery before the login. *)
Example refused_starttls :
  send_email_sync demo_mail_server demo_smtp ["op@plant"] "s" "b" [] =
  ([SConnect false "mail" 587; STlsContext None; SStartTls], Raise OSError).
Proof. reflexivity. Qed.
(** An alarm raised while shelved and cleared after the shelving is announced
    only as cleared. *)
Example shelved_raise_cleared :
  map snd (events [] [MkPass 10 11 [("t1", demo_alarm ACTIVE (Some 15))]; MkPass 20 21 [("t1", demo_alarm ACTIVE (Some 15))];
    MkPass 30 31 [("t1", demo_alarm NORMAL (Some 15))]]) = [("t1", demo_alarm NORMAL (Some 15), false)].
Proof. reflexivity. Qed.
(** A destination whose settings make no credentials raises past the
    [PySnmpError] handler: the destinations after it get nothing, the status is
    not updated, and the loop ends. *)
Example bad_destination_stops_loop :
  alarm_trap_pass (fun _ _ => Ok tt) no_repr (MkNotifyConfig true [demo_trap "v3"; demo_trap "v2c"]) 10 11 [("t1", demo_alarm ACTIVE None)] ([], demo_notifier) =
  (([("t1", ACTIVE)], demo_notifier), Raise SnmpConfigError).
Proof. reflexivity. Qed.
(** So does a line break in a tag id for the e-mail loop. *)
Example line_break_stops_loop :
  alarm_mail_pass (fun _ _ => Ok tt) no_repr no_iso demo_smtp ["op@plant"] 10 11 [(String LF "t1", demo_alarm ACTIVE None)] ([], demo_mailer) =
  (([(String LF "t1", ACTIVE)], demo_mailer), Raise ValueError).
Proof. reflexivity. Qed.
(** A watchdog datagram that cannot be sent ends the watchdog loop. *)
Example watchdog_stops_on_error :
  watchdog_run (Some "/run/notify") (fun sent _ => match sent with [_] => Raise OSError | _ => Ok tt end) true 3 [] =
  ([("/run/notify", "READY=1")], Raise OSError).
Proof. reflexivity. Qed.

Lemma credentials_only_over_tls_witness :
  sm_tls_mode demo_smtp = "starttls" /\
  protected_logins (fun _ _ => Ok tt) [] (fst (send_email_sync (fun _ _ => Ok tt) demo_smtp ["op@plant"] "s" "b" [])).
Proof. split; [reflexivity|]. apply credentials_only_over_tls. right. reflexivity. Defined.

Lemma alarm_changes_announced_witness :
  trap_loop (fun _ _ => Raise PySnmpError) no_repr (MkNotifyConfig true [demo_trap "v2c"]) demo_passes ([], demo_notifier) =
    ((seen_run [] demo_passes, deliver_events (trap_delivery (fun _ _ => Raise PySnmpError) no_repr (MkNotifyConfig true [demo_trap "v2c"])) (events [] demo_passes) demo_notifier), Ok tt) /\
  of_tag "t1" (map snd (events [] demo_passes)) = [true; false].
Proof.
  destruct (alarm_changes_announced demo_mail_server (fun _ _ => Raise PySnmpError) no_repr no_iso demo_smtp ["op@plant"] (MkNotifyConfig true [demo_trap "v2c"])
    demo_passes demo_mailer demo_notifier) as (M & T & C).
  - repeat (apply List.Forall_cons; [split; [intros l op e; destruct op; simpl; congruence || (intros [= <-]; reflexivity)|split; [reflexivity|split; [reflexivity|repeat constructor]]]|]). apply List.Forall_nil.
  - split; [intros l m e [= <-]; reflexivity|repeat constructor].
  - split; [exact T|]. rewrite C; [reflexivity|].
    repeat (apply List.Forall_cons; [split; [apply (bool_decide_unpack _); vm_compute; exact I|intros a [= <-]; reflexivity]|]). apply List.Forall_nil.
Defined.
