(* ===== verification/LogBuffer.v ===== *)
(** * The log ring buffer (src/xedge/observability/logging.py)

    The bounded buffer of recent log events behind the log viewer and the
    [driver logs] command: entries numbered as they are appended, read by
    pollers that ask for what came after the last number they saw. *)

From S2P Require Import Prelude PyText PyFloat PyDict AuditLog.
Local Open Scope string_scope.
Local Open Scope list_scope.
Local Open Scope Z_scope.

(** [==] on decoded JSON: numbers and booleans compare as numbers, objects
    without regard to order. *)
Definition num_view (j : json) : option num :=
  match j with JBool b => Some (NInt (if b then 1 else 0)) | JNum n => Some n | _ => None end.
Definition num_same (a b : num) : bool :=
  match a, b with
  | NInt x, NInt y => x =? y
  | NFloat f, NFloat g => feqb f g
  | NInt x, NFloat f | NFloat f, NInt x => int_float_eqb x f
  end.
Fixpoint json_same (a b : json) {struct a} : bool :=
  match a, b with
  | JNull, JNull => true
  | JStr x, JStr y => String.eqb x y
  | JList x, JList y =>
      (fix same x y := match x, y with [], [] => true | p :: x, q :: y => json_same p q && same x y | _, _ => false end) x y
  | JDict x, JDict y =>
      Nat.eqb (length x) (length y) &&
      (fix all x := match x with [] => true | (k, v) :: x => match dict_get k y with Some w => json_same v w | None => false end && all x end) x
  | _, _ => match num_view a, num_view b with Some x, Some y => num_same x y | _, _ => false end
  end.

Definition DEFAULT_LOG_BUFFER_SIZE : Z := 2000.
Record LogRingBuffer := MkLogs { log_max_size : Z; log_entries : list (dict json); next_log_seq : Z }.
Definition new_logs (max_size : Z) : LogRingBuffer := MkLogs max_size [] 1.
(** A deque of bounded length drops from its left end. *)
Definition deque_push {A} (max_size : Z) (x : A) (l : list A) : list A :=
  let l := l ++ [x] in drop (length l - Z.to_nat max_size) l.
Definition numbered_entry (event_dict : dict json) (seq : Z) : dict json := dict_set "seq" (JNum (NInt seq)) event_dict.
Definition log_event (event_dict : dict json) (b : LogRingBuffer) : LogRingBuffer :=
  MkLogs (log_max_size b) (deque_push (log_max_size b) (numbered_entry event_dict (next_log_seq b)) (log_entries b)) (next_log_seq b + 1).

Section Tail.
(** [str] of a field that is no string. *)
Context (py_str : json -> string).
Definition text_field (j : json) : string := match j with JStr s => s | _ => py_str j end.
Definition entry_match (since_seq : Z) (instance_id : option json) (source : option string) (entry : dict json) : res bool :=
  let* seq := json_item "seq" (JDict entry) in
  let* old := json_le seq since_seq in
  Ok (negb old
      && match instance_id with None => true | Some i => json_same (default JNull (dict_get "instance_id" entry)) i end
      && match source with None => true | Some s => String.prefix (s ++ ".") (text_field (default (JStr "") (dict_get "event" entry))) end).
Fixpoint filter_res {A} (f : A -> res bool) (l : list A) : res (list A) :=
  match l with [] => Ok [] | x :: t => let* b := f x in let* r := filter_res f t in Ok (if (b : bool) then x :: r else r) end.
Definition logs_tail (since_seq : Z) (instance_id : option json) (source : option string) (limit : option Z) (b : LogRingBuffer) : res (list (dict json)) :=
  let* matches := filter_res (entry_match since_seq instance_id source) (log_entries b) in
  Ok (match limit with Some n => if n <? zlen matches then last_items n matches else matches | None => matches end).

(** The logging pipeline's processors. *)
Definition capture_to_ring_buffer (event_dict : dict json) (b : LogRingBuffer) : LogRingBuffer * dict json := (log_event event_dict b, event_dict).
End Tail.

(** ** What pollers see *)

Definition logged (max_size : Z) (events : list (dict json)) : LogRingBuffer := fold_left (fun b e => log_event e b) events (new_logs max_size).
(** The events with their numbers. *)
Fixpoint indexed (from : Z) (es : list (dict json)) : list (Z * dict json) :=
  match es with [] => [] | e :: es => (from, e) :: indexed (from + 1) es end.
Definition as_entry (p : Z * dict json) : dict json := numbered_entry p.2 p.1.
Lemma indexed_length from es : length (indexed from es) = length es.
Proof. revert from. induction es as [|e es IH]; intros from; simpl; [done|by rewrite IH]. Qed.
Lemma indexed_app from a b : indexed from (a ++ b) = indexed from a ++ indexed (from + zlen a) b.
Proof.
  revert from. induction a as [|e a IH]; intros from; simpl; [by rewrite zlen_nil, Z.add_0_r|]. rewrite IH, zlen_cons. by replace (from + (1 + zlen a)) with (from + 1 + zlen a) by lia.
Qed.
Lemma indexed_drop es : forall from k, drop k (indexed from es) = indexed (from + Z.of_nat k) (drop k es).
Proof.
  induction es as [|e es IH]; intros from [|k]; simpl; [done|done|by rewrite Z.add_0_r|]. rewrite IH. f_equal. lia.
Qed.
Lemma deque_push_drop {A} (m : nat) (l : list A) x : deque_push (Z.of_nat m) x (drop (length l - m) l) = drop (length (l ++ [x]) - m) (l ++ [x]).
Proof.
  unfold deque_push. rewrite Nat2Z.id, !length_app, length_drop. simpl. destruct (decide (m = 0%nat)) as [->|].
  { rewrite !drop_ge; [done| |]; rewrite ?length_app, ?length_drop; simpl; lia. }
  rewrite !drop_app, drop_drop. f_equal; [f_equal; lia|f_equal; rewrite length_drop; lia].
Qed.
Lemma logged_entries m es : logged (Z.of_nat m) es =
  MkLogs (Z.of_nat m) (drop (length es - m) (map as_entry (indexed 1 es))) (zlen es + 1).
Proof.
  induction es as [|e es IH] using rev_ind; [by unfold logged, zlen|].
  unfold logged in *. rewrite fold_left_app. simpl. rewrite IH. unfold log_event. simpl.
  assert (length (map as_entry (indexed 1 es)) = length es) as L by by rewrite length_map, indexed_length.
  rewrite indexed_app, map_app, Z.add_comm. cbn [indexed map]. change (as_entry (1 + zlen es, e)) with (numbered_entry e (1 + zlen es)).
  revert L. generalize (map as_entry (indexed 1 es)) as l. intros l L.
  replace (length es - m)%nat with (length l - m)%nat by lia. rewrite deque_push_drop, !length_app, L. f_equal. autorewrite with zlen. lia.
Qed.

(** Whether the filters let an event through. *)
Definition event_match py_str (instance_id : option json) (source : option string) (e : dict json) : bool :=
  match instance_id with None => true | Some i => json_same (default JNull (dict_get "instance_id" e)) i end
  && match source with None => true | Some s => String.prefix (s ++ ".") (text_field py_str (default (JStr "") (dict_get "event" e))) end.
Lemma entry_match_numbered py_str since i src p :
  entry_match py_str since i src (as_entry p) = Ok ((since <? p.1) && event_match py_str i src p.2).
Proof.
  unfold entry_match, as_entry, numbered_entry, event_match, json_item. rewrite dict_get_set_eq. simpl.
  rewrite !dict_get_set_ne by done. rewrite <- andb_assoc. do 2 f_equal. by rewrite Z.leb_antisym, negb_involutive.
Qed.
Lemma filter_entries py_str since i src l :
  filter_res (entry_match py_str since i src) (map as_entry l) =
  Ok (map as_entry (List.filter (fun p => (since <? p.1) && event_match py_str i src p.2) l)).
Proof. induction l as [|p l IH]; [done|]. cbn [map filter_res]. rewrite entry_match_numbered, IH. simpl. by destruct (_ && _). Qed.
Lemma filter_since (q : dict json -> bool) es : forall from since,
  List.filter (fun p => (since <? p.1) && q p.2) (indexed from es) =
  List.filter (fun p => q p.2) (drop (Z.to_nat (since + 1 - from)) (indexed from es)).
Proof.
  induction es as [|e es IH]; intros from since; [by destruct (Z.to_nat _)|]. simpl. rewrite IH. destruct (since <? from) eqn:L.
  - apply Z.ltb_lt in L. replace (Z.to_nat (since + 1 - from)) with 0%nat by lia. replace (Z.to_nat (since + 1 - (from + 1))) with 0%nat by lia.
    by destruct es.
  - apply Z.ltb_ge in L. replace (Z.to_nat (since + 1 - from)) with (S (Z.to_nat (since + 1 - (from + 1)))) by lia. done.
Qed.

(** A poller that asks for what came after the last number it saw gets exactly
    the newer events that pass its filters, in order and each once, as far
    back as the buffer reaches; if no more than the buffer's size were logged
    since, it misses none. *)
Theorem log_tail_since py_str m es k i src :
  logs_tail py_str (Z.of_nat k) i src None (logged (Z.of_nat m) es) =
  Ok (map as_entry (List.filter (fun p => event_match py_str i src p.2) (drop (k `max` (length es - m)) (indexed 1 es)))).
Proof.
  rewrite logged_entries. unfold logs_tail. cbn [log_entries]. rewrite List.skipn_map. rewrite filter_entries. simpl. do 2 f_equal.
  rewrite indexed_drop, filter_since, indexed_drop, drop_drop, indexed_drop. f_equal. f_equal; [lia|f_equal; lia].
Qed.

(** A limit of zero keeps everything: [matches[-0:]]. *)
Example zero_limit_is_no_limit : logs_tail (fun _ => "") 0 None None (Some 0) (logged 3 [[("event", JStr "a")]; [("event", JStr "b")]]) =
  Ok [[("event", JStr "a"); ("seq", JNum (NInt 1))]; [("event", JStr "b"); ("seq", JNum (NInt 2))]].
Proof. reflexivity. Qed.
