(* ===== verification/Diagnostics.v ===== *)
(** * Live diagnostics (src/xedge/api/diagnostics.py)

    The commands of the diagnostics socket over the gateway of [RestApi], the
    ring buffers, the cold store and the log buffer.  A message is handled up
    to its reply, or up to the wait for a driver to stop ([Suspended]), which
    [on_stopped] resumes.  An exception of a handler ends the connection. *)

From Stdlib Require Import Ascii Floats.SpecFloat.
From S2P Require Import Prelude PyText PyFloat PyDict PyTime Connectivity Pipeline Alarms Assets RingBuffer ColdStore Supervisor AuditLog WriteRouter Config MainPipeline ApiAuth RestApi SparkplugConnector LogBuffer InboundDrivers.
Local Open Scope string_scope.
Local Open Scope list_scope.
Local Open Scope Z_scope.

Definition SELFTEST_STREAM_KEY : string := "__selftest__".

(** ** What a command needs *)

Definition is_cmd (j : json) (s : string) : bool := json_is_str j s.
(** [args[0] if args else None] of the arguments, which need not be a list. *)
Definition first_arg (args : json) : res (option json) :=
  if negb (truthy args) then Ok None else
  match args with
  | JList (x :: _) => Ok (Some x)
  | JStr (String c _) => Ok (Some (JStr (String c "")))
  | JDict _ => Raise KeyError
  | _ => Raise TypeError
  end.
Definition first_is (names : list string) (permission : string) (args : json) : res (option string) :=
  let* sub := first_arg args in
  Ok (match sub with Some j => if existsb (is_cmd j) names then Some permission else None | None => None end).
Definition required_permission (command args : json) : res (option string) :=
  if is_cmd command "status" then Ok (Some "tag:read")
  else if is_cmd command "driver" then
    let* sub := first_arg args in
    let sub := default JNull sub in
    Ok (if is_cmd sub "restart" then Some "driver:restart" else if is_cmd sub "list" || is_cmd sub "logs" then Some "tag:read" else None)
  else if is_cmd command "tag" then first_is ["read"] "tag:read" args
  else if is_cmd command "store-forward" then first_is ["status"] "tag:read" args
  else if is_cmd command "network" then first_is ["check"] "tag:read" args
  else if is_cmd command "config" then first_is ["show"; "validate"] "config:read" args
  else if is_cmd command "self-test" then Ok (Some "diagnostics:run")
  else if is_cmd command "compliance" then first_is ["cip-007"] "audit:read" args
  else Ok None.

(** ** The gateway a socket works on *)

Record diag := MkDiag {
  dg_api : api; dg_rings : RingBufferManager; dg_cold : option SqliteColdStore; dg_logs : LogRingBuffer;
  (** the connector's counters and liveness, behind the dispatcher if there is one *)
  dg_link : ConnectorMetrics * bool }.
Definition set_api (a : api) (d : diag) : diag := MkDiag a (dg_rings d) (dg_cold d) (dg_logs d) (dg_link d).
Definition set_stores (r : RingBufferManager) (c : option SqliteColdStore) (d : diag) : diag := MkDiag (dg_api d) r c (dg_logs d) (dg_link d).

Record stream_status := MkStream { sst_depth : Z; sst_max_depth : Z; sst_evicted_count : Z; sst_cold_backlog : option Z }.
Inductive store_report := StoreFailed | HotTierOnly | BothTiers.
Inductive result :=
  | DStatus (driver_count : Z) (northbound_connected : option bool)
  | DDrivers (l : gmap string DriverInstanceStatus)
  | DLogs (l : list (dict json))
  | DRestarted (instance_id : string)
  | DTag (t : UnifiedTag)
  | DStreams (streams : dict stream_status) (northbound : option (bool * ConnectorMetrics))
  | DNetwork (drivers : gmap string (DriverState * Z)) (northbound : option (bool * bool))
  | DConfig (c : dict json)
  (** which entries failed: the core ([None]) or a driver's id *)
  | DValidation (errors : list (option json))
  | DCompliance (failed_logins successful_logins : list json) (versions : dict (option string))
  | DSelfTest (passed loopback : bool) (store : store_report) (northbound : option (bool * bool)).

(** The clock, the log's stamp and the salt; whether the loopback driver's
    queue answered in time; the installed packages. *)
Record probe := MkProbe { pr_env : Env; pr_timely : bool * bool; pr_version : string -> option string }.

Section Commands.
Context `{Host}.
(** The ring buffers' eviction callback. *)
Context (on_evict : option (string -> UnifiedTag -> option SqliteColdStore -> option SqliteColdStore * res unit)).
Local Abbreviation M := (SR diag).

Definition on_api {A} (m : SR api A) : M A := fun d => let '(a, r) := m (dg_api d) in (set_api a d, r).
Definition command_error {A} : M A := sraise DiagnosticCommandError.
(** A JSON value as a dictionary key: lists and objects are not hashable, and
    only a string equals one of the keys. *)
Definition as_key (j : json) : res (option string) :=
  match j with JStr s => Ok (Some s) | JList _ | JDict _ => Raise TypeError | _ => Ok None end.
(** [int(j)] *)
Definition json_int (j : json) : res Z :=
  match j with
  | JBool b => Ok (if b then 1 else 0)
  | JNum (NInt z) => Ok z
  | JNum (NFloat f) => trunc f
  | JStr s => int_text s
  | _ => Raise TypeError
  end.

Definition diag_status : M result :=
  let! s := sget dg_api in
  sret (DStatus (Z.of_nat (size (all_status (a_supervisor s)))) (fst <$> a_dispatcher s)).
Definition driver_list : M result := let! s := sget dg_api in sret (DDrivers (all_status (a_supervisor s))).
Definition driver_logs (args : list json) : M result :=
  match args with
  | [] => command_error
  | instance_id :: rest =>
      let! limit := slift (match rest with [] => Ok 200 | n :: _ => json_int n end) in
      let! logs := sget dg_logs in
      let! l := slift (logs_tail h_py_str 0 (match instance_id with JNull => None | _ => Some instance_id end) None (Some limit) logs) in
      sret (DLogs l)
  end.
Definition diag_driver_entry (instance_id : string) : M json :=
  let! s := sget dg_api in
  let! config := slift (full_driver_config s) in
  let! l := slift (json_iter (default (JList []) (dict_get "drivers" config))) in
  let! e := slift (search_entry instance_id l) in
  match e with Some e => sret e | None => command_error end.
(** The driver waited for, its task and the configuration to start it with. *)
Record waiting := MkWaiting { wt_instance_id : string; wt_task : nat; wt_config : DriverConfig }.
Definition start_again (instance_id : string) (dc : DriverConfig) (v : Env) : M (result + waiting) :=
  let! _ := fun d => let '(sup, r) := start_driver (e_now v) dc (a_supervisor (dg_api d)) in (set_api (set_supervisor sup (dg_api d)) d, r) in
  sret (inl (DRestarted instance_id)).
Definition driver_restart (args : list json) (v : Env) : M (result + waiting) :=
  match args with
  | [] => command_error
  | j :: _ =>
      let! key := slift (as_key j) in
      let! s := sget dg_api in
      match key with
      | None => command_error
      | Some instance_id =>
          match all_status (a_supervisor s) !! instance_id with
          | None => command_error
          | Some _ =>
              let! entry := diag_driver_entry instance_id in
              let! dc := scatch (slift (build_entry entry)) (fun e => match e with ConfigValidationError => command_error | _ => sraise e end) in
              let! task := fun d => let '(task, sup) := stop_begin instance_id (a_supervisor (dg_api d)) in
                                    (set_api (set_supervisor sup (dg_api d)) d, Ok task) in
              match task with None => start_again instance_id dc v | Some tid => sret (inr (MkWaiting instance_id tid dc)) end
          end
      end
  end.
(** The end of [await supervisor.stop]; [None] while the task still runs. *)
Definition await_stop (w : waiting) (v : Env) (d : diag) : option (diag * res unit) :=
  (fun sr => (set_api (set_supervisor (fst sr) (dg_api d)) d, snd sr)) <$> stop_end (e_now v) (wt_instance_id w) (wt_task w) (a_supervisor (dg_api d)).
Definition tag_read (args : list json) : M result :=
  match args with
  | [] => command_error
  | j :: _ =>
      let! key := slift (as_key j) in
      let! s := sget dg_api in
      match match key with Some k => latest_get k (a_latest s) | None => None end with
      | None => command_error
      | Some t => sret (DTag t)
      end
  end.
(** [cold_store.count] opens the stream's database. *)
Definition cold_count (key : string) : M (option Z) := fun d =>
  match dg_cold d with
  | None => (d, Ok None)
  | Some c => let '(c, n) := count key c in (set_stores (dg_rings d) (Some c) d, Ok (Some n))
  end.
Definition stream_report (key : string) : M (string * stream_status) :=
  let! rings := sget dg_rings in
  let! backlog := cold_count key in
  sret (key, match mgr_metrics rings key with
             | Some m => MkStream (m_depth m) (m_max_depth m) (m_evicted_count m) backlog
             | None => MkStream 0 0 0 backlog
             end).
Definition store_forward_status : M result :=
  let! rings := sget dg_rings in
  let! l := smapM stream_report (RingBuffer.stream_keys rings) in
  let! d := sget id in
  sret (DStreams (fold_left (fun acc kv => dict_set kv.1 kv.2 acc) l []) ((fun c => (fst c, fst (dg_link d))) <$> a_dispatcher (dg_api d))).
Definition network_check : M result :=
  let! d := sget id in
  sret (DNetwork ((fun st => (st_state st, consecutive_failures st)) <$> all_status (a_supervisor (dg_api d)))
          ((fun c => (fst c, snd (dg_link d))) <$> a_dispatcher (dg_api d))).
Definition config_show : M result :=
  let! s := sget dg_api in
  match last (list_versions (a_versions s)) with
  | None => sret (DConfig [])
  | Some i => let! c := slift (load_version i (a_versions s)) in sret (DConfig c)
  end.
(** [ConfigValidationError] is a reported error, anything else is not caught. *)
Definition reported {A} (who : option json) (r : res A) : res (list (option json)) :=
  match r with Ok _ => Ok [] | Raise ConfigValidationError => Ok [who] | Raise e => Raise e end.
Fixpoint driver_errors (entries : list json) : res (list (option json)) :=
  match entries with
  | [] => Ok []
  | e :: t =>
      let* here := match build_entry e with
                   | Ok _ => Ok []
                   | Raise ConfigValidationError => let* i := json_get "id" (JStr "?") e in Ok [Some i]
                   | Raise x => Raise x
                   end in
      let* rest := driver_errors t in Ok (here ++ rest)
  end.
Definition config_validate : M result :=
  let! s := sget dg_api in
  let! config := slift (full_driver_config s) in
  let! core := slift (reported None (Config.validate h_schema_errors h_py_str config)) in
  let! entries := slift (json_iter (default (JList []) (dict_get "drivers" config))) in
  let! errors := slift (driver_errors entries) in
  sret (DValidation (core ++ errors)).
Definition COMPLIANCE_PACKAGES : list string := ["fastapi"; "uvicorn"; "cryptography"; "bcrypt"; "jsonschema"; "pyyaml"].
Definition compliance_cip_007 (p : probe) : M result :=
  let! s := sget dg_api in
  let! failed := slift (log_tail h_py_str 1000 None (Some "auth.login_failure") 0 (a_audit s)) in
  let! ok := slift (log_tail h_py_str 1000 None (Some "auth.login_success") 0 (a_audit s)) in
  sret (DCompliance failed ok (map (fun k => (k, pr_version p k)) COMPLIANCE_PACKAGES)).

(** ** The self-test *)

Definition selftest_tags : list Loopback.LoopbackTag := [Loopback.MkTag "echo" (Some (VInt 1))].
(** [driver.run] polls the group; each wait for its queue may time out. *)
Definition self_test_loopback (p : probe) : bool :=
  let now := e_now (pr_env p) in
  let driver := Loopback.configure (Loopback.MkConfig "selftest" [selftest_tags]) (Loopback.MkDriver None no_metrics []) in
  match Loopback.poll_group "selftest" now selftest_tags driver with
  | (driver, Ok (first :: _)) =>
      if negb (pr_timely p).1 then false
      else if negb (bool_decide (tu_value first = VInt 1)) then false else
      let '(driver, w) := Loopback.write "echo" (VInt 2) driver in
      if negb (wr_success w) then false else
      match Loopback.poll_group "selftest" now selftest_tags driver with
      | (_, Ok (second :: _)) => (pr_timely p).2 && bool_decide (tu_value second = VInt 2)
      | _ => false
      end
  | _ => false
  end.
Definition selftest_tag (now : Z) : UnifiedTag :=
  {| tag_id := SELFTEST_STREAM_KEY ++ "/probe"; timestamp := now; value := VInt 1; data_type := "int"; quality := GOOD;
     source_driver := SELFTEST_STREAM_KEY; source_address := "probe"; engineering_unit := None; is_alarm := false; metadata := [] |}.
Definition on_cold {A} (f : SqliteColdStore -> SqliteColdStore * res A) : M A := fun d =>
  match dg_cold d with
  | None => (d, Raise AttributeError)
  | Some c => let '(c, r) := f c in (set_stores (dg_rings d) (Some c) d, r)
  end.
Definition self_test_store (now : Z) : M store_report :=
  let tag := selftest_tag now in
  let same t := String.eqb (tag_id t) (tag_id tag) in
  let! _ := fun d => let '(rings, cold, r) := mgr_push on_evict (dg_rings d) SELFTEST_STREAM_KEY tag false (dg_cold d) in (set_stores rings cold d, r) in
  let! drained := fun d => let '(out, rings) := mgr_drain (dg_rings d) SELFTEST_STREAM_KEY (Some 1) in (set_stores rings (dg_cold d) d, Ok out) in
  match drained with
  | [] => sret StoreFailed
  | t :: _ =>
      if negb (same t) then sret StoreFailed else
      let! cold := sget dg_cold in
      match cold with
      | None => sret HotTierOnly
      | Some _ =>
          let! _ := on_cold (append SELFTEST_STREAM_KEY tag) in
          let! rows := on_cold (peek SELFTEST_STREAM_KEY 1) in
          match rows with
          | [] => sret StoreFailed
          | (i, t) :: _ =>
              if negb (same t) then sret StoreFailed else
              let! _ := on_cold (fun c => (delete_ids SELFTEST_STREAM_KEY [i] c, Ok tt)) in
              sret BothTiers
          end
      end
  end.
(** [northbound] has no ["passed"], so the verdict does not depend on it. *)
Definition self_test (p : probe) : M result :=
  let loopback := self_test_loopback p in
  let! store := self_test_store (e_now (pr_env p)) in
  let! d := sget id in
  let northbound := (fun c => (fst c, snd (dg_link d))) <$> a_dispatcher (dg_api d) in
  sret (DSelfTest (loopback && match store with StoreFailed => false | _ => true end) loopback store northbound).

(** ** Dispatch and the socket *)

Definition done (m : M result) : M (result + waiting) := let! r := m in sret (inl r).
Definition dispatch (command : json) (args : json) (p : probe) : M (result + waiting) :=
  let l := match args with JList l => l | _ => [] end in
  let sub := match l with j :: _ => j | [] => JNull end in
  if is_cmd command "status" then done diag_status
  else if is_cmd command "driver" && is_cmd sub "list" then done driver_list
  else if is_cmd command "driver" && is_cmd sub "logs" then done (driver_logs (tail l))
  else if is_cmd command "driver" && is_cmd sub "restart" then driver_restart (tail l) (pr_env p)
  else if is_cmd command "tag" then done (tag_read (tail l))
  else if is_cmd command "store-forward" then done store_forward_status
  else if is_cmd command "network" then done network_check
  else if is_cmd command "config" && is_cmd sub "show" then done config_show
  else if is_cmd command "config" && is_cmd sub "validate" then done config_validate
  else if is_cmd command "self-test" then done (self_test p)
  else if is_cmd command "compliance" && is_cmd sub "cip-007" then done (compliance_cip_007 p)
  else command_error.

(** What the socket knows since it was accepted. *)
Record session := MkSession { ws_username : string; ws_role : option string; ws_session_id : string }.
Inductive problem := MalformedJson | UnknownCommand | InsufficientPermission | CommandFailed.
Inductive outcome := Replied (r : result) | Refused (p : problem) | Suspended (command args : json) (w : waiting).
Inductive incoming := NotJson | Message (j : json).

(** [None]: closed with 1008 before it was accepted. *)
Definition accept_socket (c : caller) (v : Env) (session_id : string) : M (option session) :=
  let! s := on_api (resolve_session c v) in
  match s with
  | None => sret None
  | Some (_, username) =>
      let! role := on_api (on_users (get_role username)) in
      sret (Some (MkSession username role session_id))
  end.
Definition command_entry (s : session) (command args : json) (verdict : string) : dict json :=
  [("session_id", JStr (ws_session_id s)); ("command", command); ("args", args); ("result", JStr verdict)].
Definition record_command (s : session) (command args : json) (verdict : string) (v : Env) : M unit :=
  on_api (audit_append v (ws_username s) "diagnostic.command" (Some (command_entry s command args verdict))).
(** The [try] around [_dispatch] and the entry that follows it. *)
Definition conclude (s : session) (command args : json) (v : Env) (m : M (result + waiting)) : M outcome := fun d =>
  match m d with
  | (d, Ok (inl r)) => (let! _ := record_command s command args "ok" v in sret (Replied r)) d
  | (d, Ok (inr w)) => (d, Ok (Suspended command args w))
  | (d, Raise DiagnosticCommandError) => (let! _ := record_command s command args "error" v in sret (Refused CommandFailed)) d
  | (d, Raise e) => (d, Raise e)
  end.
Definition on_message (s : session) (m : incoming) (p : probe) : M outcome :=
  match m with
  | NotJson => sret (Refused MalformedJson)
  | Message message =>
      let! command := slift (json_get "command" (JStr "") message) in
      let! a := slift (json_get "args" (JList []) message) in
      let args := if truthy a then a else JList [] in
      let! permission := slift (required_permission command args) in
      match permission with
      | None => sret (Refused UnknownCommand)
      | Some permission =>
          if negb (has_permission (ws_role s) permission) then
            let! _ := record_command s command args "denied" (pr_env p) in sret (Refused InsufficientPermission)
          else conclude s command args (pr_env p) (dispatch command args p)
      end
  end.
(** The resumed handler; [None] while the driver's task still runs. *)
Definition on_stopped (s : session) (command args : json) (w : waiting) (v : Env) : M (option outcome) := fun d =>
  match await_stop w v d with
  | None => (d, Ok None)
  | Some stopped =>
      (let! o := conclude s command args v (let! _ := fun _ => stopped in start_again (wt_instance_id w) (wt_config w) v) in sret (Some o)) d
  end.

(** The log viewer's route of the REST API reads the same buffer. *)
Definition get_logs (since_seq : Z) (instance_id source : option string) (limit : Z) (c : caller) (v : Env) : M (list (dict json)) :=
  let! _ := on_api (require_permission "tag:read" c v) in
  let! logs := sget dg_logs in
  slift (logs_tail h_py_str since_seq (JStr <$> instance_id) source (Some limit) logs).
End Commands.

(** ** What a command may change *)

Definition cold_of (c : option SqliteColdStore) (k : string) : list UnifiedTag := match c with Some c => contents c k | None => [] end.
Definition buffered (d : diag) (k : string) : list UnifiedTag := match dict_get k (buffers (dg_rings d)) with Some b => buffer b | None => [] end.
(** Nothing but cold databases opened. *)
Definition reads (d d' : diag) : Prop := exists c, d' = set_stores (dg_rings d) c d /\ forall k, cold_of c k = cold_of (dg_cold d) k.
(** Only the supervisor. *)
Definition restarts (d d' : diag) : Prop := exists sup, d' = set_api (set_supervisor sup (dg_api d)) d.
(** Only the self-test's stream. *)
Definition tests (d d' : diag) : Prop := exists r c, d' = set_stores r c d /\
  (forall k, k <> SELFTEST_STREAM_KEY -> dict_get k (buffers r) = dict_get k (buffers (dg_rings d))) /\
  (forall k, safe_filename k <> safe_filename SELFTEST_STREAM_KEY -> cold_of c k = cold_of (dg_cold d) k).
#[local] Instance reads_preorder : PreOrder reads.
Proof.
  split.
  - intros d. exists (dg_cold d). split; [by destruct d|done].
  - intros d1 d2 d3 (c & -> & E) (c' & -> & E'). exists c'. split; [done|]. intros k. by rewrite E'.
Qed.
#[local] Instance restarts_preorder : PreOrder restarts.
Proof.
  split.
  - intros d. exists (a_supervisor (dg_api d)). destruct d as [a]. by destruct a.
  - intros d1 d2 d3 (c & ->) (c' & ->). by exists c'.
Qed.
#[local] Instance tests_preorder : PreOrder tests.
Proof.
  split.
  - intros d. exists (dg_rings d), (dg_cold d). split; [by destruct d|done].
  - intros d1 d2 d3 (r & c & -> & B & C) (r' & c' & -> & B' & C'). exists r', c'. split; [done|].
    split; intros k N; [by rewrite B', B|by rewrite C', C].
Qed.
Definition confined (permission : string) : relation diag :=
  if String.eqb permission "driver:restart" then restarts else if String.eqb permission "diagnostics:run" then tests else reads.
Lemma confined_audit permission d d' : confined permission d d' -> a_audit (dg_api d') = a_audit (dg_api d).
Proof. unfold confined. destruct (String.eqb _ _); [by intros (sup & ->)|]. destruct (String.eqb _ _); [by intros (r & c & -> & _)|by intros (c & -> & _)]. Qed.

Section Confined.
Context `{Host} (on_evict : option (string -> UnifiedTag -> option SqliteColdStore -> option SqliteColdStore * res unit)).
(** An evicted sample goes to its own stream's database. *)
Definition evicts_locally : Prop :=
  match on_evict with
  | None => True
  | Some f => forall k t c k', safe_filename k' <> safe_filename k -> cold_of (fst (f k t c)) k' = cold_of c k'
  end.

Lemma pres_catch {S A} (R : relation S) `{!PreOrder R} (m : SR S A) (h : exn -> SR S A) :
  preserves R m -> (forall e, preserves R (h e)) -> preserves R (scatch m h).
Proof. intros Hm Hh s. specialize (Hm s). unfold scatch. destruct (m s) as [s' [a|e]]; simpl in *; [done|]. etrans; [exact Hm|apply Hh]. Qed.
Lemma pres_map {S A B} (R : relation S) `{!PreOrder R} (f : A -> SR S B) l : (forall x, preserves R (f x)) -> preserves R (smapM f l).
Proof. intros F. induction l as [|x l IH]; simpl; pres_tac; auto. Qed.
Lemma connection_keeps k c c' db k' : connection k c = (c', db) -> contents c' k' = contents c k'.
Proof.
  unfold connection. case_decide; intros [= <- _]; [done|]. unfold contents. simpl. destruct (decide (safe_filename k = safe_filename k')) as [->|].
  - rewrite lookup_insert_eq. by destruct (ColdStore.files c !! safe_filename k').
  - by rewrite lookup_insert_ne.
Qed.
Lemma reads_count k : preserves reads (cold_count k).
Proof.
  intros d. unfold cold_count. destruct (dg_cold d) as [c|] eqn:C; [|done]. unfold count. destruct (connection k c) as [c' db] eqn:E. simpl.
  exists (Some c'). split; [done|]. intros k'. rewrite C. simpl. by eapply connection_keeps.
Qed.
Lemma reads_store_forward : preserves reads store_forward_status.
Proof. unfold store_forward_status, stream_report. pres_tac. apply pres_map; [apply _|]. intros k. pres_tac. apply reads_count. Qed.
Lemma restarts_start i dc v : preserves restarts (start_again i dc v).
Proof. unfold start_again. pres_tac. intros d. destruct (start_driver _ _ _) as [sup r]. by exists sup. Qed.
Lemma restarts_restart args v : preserves restarts (driver_restart args v).
Proof.
  unfold driver_restart, diag_driver_entry, command_error. pres_tac.
  - apply pres_catch; [apply _|pres_tac|]. intros e. destruct e; apply pres_raise; apply _.
  - intros d0. destruct (stop_begin _ _) as [t sup]. by exists sup.
  - apply restarts_start.
Qed.
Lemma restarts_after w v d stopped : await_stop w v d = Some stopped ->
  restarts d (fst ((let! _ := fun _ => stopped in start_again (wt_instance_id w) (wt_config w) v) d)).
Proof.
  unfold await_stop. destruct (stop_end _ _ _ _) as [[sup r]|]; [|done]. intros [= <-]. unfold sbind. simpl.
  destruct r; [|by exists sup]. etrans; [by exists sup|]. apply restarts_start.
Qed.
Lemma tests_cold {A} (f : SqliteColdStore -> SqliteColdStore * res A) :
  (forall c k, safe_filename k <> safe_filename SELFTEST_STREAM_KEY -> contents (fst (f c)) k = contents c k) -> preserves tests (on_cold f).
Proof.
  intros F d. unfold on_cold. destruct (dg_cold d) as [c|] eqn:C; [|done]. specialize (F c). destruct (f c) as [c' r]. simpl in *.
  exists (dg_rings d), (Some c'). split; [done|]. split; [done|]. rewrite C. exact F.
Qed.
Lemma put_elsewhere key db c k : safe_filename k <> safe_filename key -> contents (put_db (safe_filename key) db c) k = contents c k.
Proof. intros N. unfold contents. simpl. by rewrite lookup_insert_ne. Qed.
Lemma push_store {S} (cb : option (UnifiedTag -> S -> S * res unit)) b t st b' st' r : push cb b t st = (b', st', r) ->
  st' = st \/ exists f e, cb = Some f /\ st' = fst (f e st).
Proof.
  unfold push. destruct (_ <=? _); [|intros [= _ <- _]; by left]. destruct (is_alarm_stream b); [intros [= _ <- _]; by left|].
  destruct (buffer b) as [|e rest]; [intros [= _ <- _]; by left|]. destruct cb as [f|]; [|intros [= _ <- _]; by left].
  destruct (f e st) as [s [[]|x]] eqn:F; intros [= _ <- _]; right; exists f, e; by rewrite F.
Qed.
Lemma tests_push tag : evicts_locally -> preserves tests
  (fun d => let '(rings, cold, r) := mgr_push on_evict (dg_rings d) SELFTEST_STREAM_KEY tag false (dg_cold d) in (set_stores rings cold d, r)).
Proof.
  intros L d. unfold mgr_push. destruct (push _ _ _ _) as [[b c] r'] eqn:Q. simpl. eexists _, c. split; [done|].
  split; [intros k N; simpl; by rewrite dict_get_set_ne|]. intros k N. apply push_store in Q as [->|(f & e & F & ->)]; [done|].
  unfold evicts_locally in L. destruct on_evict as [g|]; [|done]. injection F as <-. by apply L.
Qed.
Lemma tests_drain : preserves tests
  (fun d => let '(out, rings) := mgr_drain (dg_rings d) SELFTEST_STREAM_KEY (Some 1) in (set_stores rings (dg_cold d) d, Ok out)).
Proof.
  intros d. unfold mgr_drain. destruct (dict_get SELFTEST_STREAM_KEY _) as [b|]; [|by eexists _, _].
  destruct (RingBuffer.drain _ _). simpl. eexists _, _. split; [done|]. split; [|done]. intros k N. simpl. by rewrite dict_get_set_ne.
Qed.
Lemma tests_store now : evicts_locally -> preserves tests (self_test_store on_evict now).
Proof.
  intros L. unfold self_test_store. pres_tac; try (by apply tests_push); try apply tests_drain; apply tests_cold; intros c k N.
  - unfold append. destruct (connection _ c) as [c' db] eqn:E. rewrite <- (connection_keeps _ _ _ _ k E).
    destruct (tag_to_row _); [|done]. cbn [fst]. by apply put_elsewhere.
  - unfold peek. destruct (connection _ c) as [c' db] eqn:E. by rewrite <- (connection_keeps _ _ _ _ k E).
  - unfold delete_ids. destruct (connection _ c) as [c' db] eqn:E. rewrite <- (connection_keeps _ _ _ _ k E). cbn [fst]. by apply put_elsewhere.
Qed.
Lemma is_cmd_true j s : is_cmd j s = true -> j = JStr s.
Proof. destruct j; try done. simpl. by intros ->%String.eqb_eq. Qed.
Lemma first_is_spec names perm args p : first_is names perm args = Ok (Some p) -> p = perm.
Proof. unfold first_is. destruct (first_arg args) as [[j|]|]; simpl; try done. destruct (existsb _ _); congruence. Qed.
#[local] Instance confined_preorder permission : PreOrder (confined permission).
Proof. unfold confined. destruct (String.eqb _ _); [apply _|]. destruct (String.eqb _ _); apply _. Qed.
Definition head_arg (args : json) : json := match args with JList (j :: _) => j | _ => JNull end.
Lemma head_arg_first args sub : first_arg args = Ok sub -> head_arg args = default JNull sub \/ head_arg args = JNull.
Proof.
  unfold first_arg, head_arg. destruct args as [| | | |[|j l]|]; try (by right). simpl. intros [= <-]. by left.
Qed.
(** A command changes no more than its permission stands for. *)
Ltac cmd E := apply is_cmd_true in E as ->; cbn [is_cmd json_is_str String.eqb Ascii.eqb Bool.eqb andb].
Lemma dispatch_confined command args p permission : evicts_locally ->
  required_permission command args = Ok (Some permission) -> preserves (confined permission) (dispatch on_evict command args p).
Proof.
  intros L.
  assert (forall m, preserves reads m -> preserves reads (done m)) as D by (intros m P; unfold done; by pres_tac).
  assert (forall names perm, perm <> "driver:restart" -> perm <> "diagnostics:run" ->
    first_is names perm args = Ok (Some permission) -> confined permission = reads) as FI.
  { intros names perm N1 N2 ->%first_is_spec. unfold confined. by rewrite (proj2 (String.eqb_neq _ _) N1), (proj2 (String.eqb_neq _ _) N2). }
  unfold required_permission, dispatch.
  assert (match match args with JList l => l | _ => [] end with j :: _ => j | [] => JNull end = head_arg args) as -> by (by destruct args as [| | | |[]|]).
  generalize (tail match args with JList l => l | _ => [] end) as rest. intros rest. unfold command_error.
  destruct (is_cmd command "status") eqn:E1; [intros [= <-]; apply D; unfold diag_status; by pres_tac|].
  destruct (is_cmd command "driver") eqn:E2.
  { cmd E2. destruct (first_arg args) as [sub|] eqn:F; [|done]. cbn [rbind]. intros [= R].
    destruct (head_arg_first _ _ F) as [-> | ->]; [|by apply pres_raise; apply _]. destruct (default JNull sub) as [| | |c| |]; try done.
    cbn [is_cmd json_is_str] in *. destruct (String.eqb c "restart") eqn:C.
    - injection R as <-. apply String.eqb_eq in C as ->. apply restarts_restart.
    - destruct (String.eqb c "list"); [injection R as <-; apply D; unfold driver_list; by pres_tac|].
      destruct (String.eqb c "logs"); [injection R as <-; apply D; unfold driver_logs, command_error; by pres_tac|done]. }
  cbn [andb]. destruct (is_cmd command "tag") eqn:E3; [intros ->%FI; [apply D; unfold tag_read, command_error; by pres_tac|done..]|].
  destruct (is_cmd command "store-forward") eqn:E4; [intros ->%FI; [apply D; apply reads_store_forward|done..]|].
  destruct (is_cmd command "network") eqn:E5; [intros ->%FI; [apply D; unfold network_check; by pres_tac|done..]|].
  destruct (is_cmd command "config") eqn:E6.
  { intros ->%FI; [|done..]. cbn [andb]. destruct (is_cmd (head_arg args) "show"); [apply D; unfold config_show; by pres_tac|].
    destruct (is_cmd (head_arg args) "validate"); [apply D; unfold config_validate; by pres_tac|]. cmd E6. by pres_tac. }
  cbn [andb]. destruct (is_cmd command "self-test") eqn:E7.
  { intros [= <-]. change (confined "diagnostics:run") with tests. unfold done, self_test. pres_tac. by apply tests_store. }
  destruct (is_cmd command "compliance") eqn:E8; [|done]. intros ->%FI; [|done..]. cbn [andb].
  destruct (is_cmd (head_arg args) _); [apply D; unfold compliance_cip_007; by pres_tac|by pres_tac].
Qed.

(** ** Every command is accounted for *)

Local Abbreviation in_step_ := (in_step h_sha256_hex h_canonical_json).
(** What the permission allows, then one entry for the command with the verdict. *)
Definition entered (s : session) (n : Z) (es : list (string * string * dict json)) (permission : string) (command args : json) (verdict : string)
    (d d' : diag) : Prop :=
  exists d1 l, confined permission d d1 /\ d' = set_api (set_audit l (dg_api d1)) d1 /\
    in_step_ l (n + 1) (es ++ [(ws_username s, "diagnostic.command", command_entry s command args verdict)]).
(** The answer of a permitted command, and what it leaves.  The handler of a
    restart that waits for the driver's task keeps the command to record. *)
Definition answered (s : session) (n : Z) (es : list (string * string * dict json)) (permission : string) (command args : json) (d d' : diag)
    (o : outcome) : Prop :=
  match o with
  | Replied _ => entered s n es permission command args "ok" d d'
  | Refused e => e = CommandFailed /\ entered s n es permission command args "error" d d'
  | Suspended c a _ => c = command /\ a = args /\ confined permission d d'
  end.
Lemma record_command_step s command args verdict v d n es : in_step_ (a_audit (dg_api d)) n es ->
  exists l, record_command s command args verdict v d = (set_api (set_audit l (dg_api d)) d, Ok tt) /\
    in_step_ l (n + 1) (es ++ [(ws_username s, "diagnostic.command", command_entry s command args verdict)]).
Proof.
  intros I. unfold record_command, on_api.
  destruct (audit_append_step v (ws_username s) "diagnostic.command" (Some (command_entry s command args verdict)) (dg_api d) n es I) as (l & -> & J).
  by exists l.
Qed.
Lemma conclude_answered s command args v m permission d d' r n es :
  in_step_ (a_audit (dg_api d)) n es -> confined permission d (fst (m d)) -> conclude s command args v m d = (d', r) ->
  match r with Ok o => answered s n es permission command args d d' o | Raise _ => confined permission d d' end.
Proof.
  intros I P. unfold conclude. destruct (m d) as [d1 x]. simpl in P.
  assert (in_step_ (a_audit (dg_api d1)) n es) as I1 by by rewrite (confined_audit _ _ _ P).
  assert (forall verdict (a : outcome) d' r, (let! _ := record_command s command args verdict v in sret a) d1 = (d', r) ->
    r = Ok a /\ entered s n es permission command args verdict d d') as K.
  { intros verdict a d2 r2 E. destruct (record_command_step s command args verdict v d1 n es I1) as (l & R & J).
    rewrite (sbind_ok _ _ _ _ _ R) in E. injection E as <- <-. split; [done|]. by exists d1, l. }
  destruct x as [[a|w]|e]; [by intros [-> E]%K|by intros [= <- <-]|]. destruct e; try (by intros [= <- <-]). by intros [-> E]%K.
Qed.
End Confined.

(** The command and the arguments of a message, as the handler reads them. *)
Definition asks (message command args : json) : Prop :=
  json_get "command" (JStr "") message = Ok command /\
  exists a, json_get "args" (JList []) message = Ok a /\ args = if truthy a then a else JList [].

(** C35: Every known command that is answered is accounted for and stays within
    its permission.  If the connection's role does not allow it, it is refused,
    leaves one entry "denied" and changes nothing else.  If it does, the answer
    leaves exactly one entry, "ok" or "error", also when it waits for a driver to
    stop; besides the log, a restart may change the supervisor, a self-test its
    own stream, and any other command nothing.  The entry names the user, the
    session and the very command and arguments of the message.  (A command whose
    handler raises is not answered: [unhandled_commands].) *)
Theorem diagnostic_commands_accounted `{Host} on_evict s n es d :
  evicts_locally on_evict -> in_step h_sha256_hex h_canonical_json (a_audit (dg_api d)) n es ->
  (forall message command args permission p d' o,
     asks message command args -> required_permission command args = Ok (Some permission) ->
     on_message on_evict s (Message message) p d = (d', Ok o) ->
     if has_permission (ws_role s) permission then answered s n es permission command args d d' o
     else o = Refused InsufficientPermission /\ exists l, d' = set_api (set_audit l (dg_api d)) d /\
       in_step h_sha256_hex h_canonical_json l (n + 1) (es ++ [(ws_username s, "diagnostic.command", command_entry s command args "denied")])) /\
  (forall command args w v d' o, on_stopped s command args w v d = (d', Ok (Some o)) ->
     answered s n es "driver:restart" command args d d' o).
Proof.
  intros L I. split.
  - intros message command args permission p d' o (C & a & A & ->) R E. cbn [on_message] in E. unfold sbind, slift in E. rewrite C, A in E. rewrite R in E.
    destruct (has_permission _ _); cbn [negb] in E.
    + apply (conclude_answered _ _ _ _ _ permission _ _ (Ok o) n es) in E; [done|exact I|]. by apply dispatch_confined.
    + set (args := if truthy a then a else JList []) in *.
      destruct (record_command_step s command args "denied" (pr_env p) d n es I) as (l & RC & J). rewrite RC in E. injection E as <- <-.
      split; [done|]. by exists l.
  - intros command args w v d' o E. unfold on_stopped in E. destruct (await_stop w v d) as [stopped|] eqn:A; [|done].
    apply restarts_after in A. unfold sbind in E at 1.
    destruct (conclude _ _ _ _ _ d) as [d1 [x|e]] eqn:C; [|done]. injection E as <- <-.
    exact (conclude_answered _ _ _ _ _ "driver:restart" _ _ _ n es I A C).
Qed.
(** A message that is no known command changes nothing, and leaves no entry. *)
Lemma unknown_command_ignored `{Host} on_evict s message command args p d :
  asks message command args -> required_permission command args = Ok None ->
  on_message on_evict s (Message message) p d = (d, Ok (Refused UnknownCommand)).
Proof. intros (C & a & A & ->) R. cbn [on_message]. unfold sbind, slift. by rewrite C, A, R. Qed.

(** ** The self-test *)

Section SelfTest.
Context `{Host} (on_evict : option (string -> UnifiedTag -> option SqliteColdStore -> option SqliteColdStore * res unit)).
Lemma loopback_passes p : pr_timely p = (true, true) -> self_test_loopback p = true.
Proof. intros T. unfold self_test_loopback. by rewrite T. Qed.
Lemma selftest_row now : timestamp_storable now ->
  exists r, tag_to_row (selftest_tag now) = Ok r /\ row_to_tag r = Ok (selftest_tag now).
Proof.
  unfold timestamp_storable, tag_to_row. simpl. destruct (timestamp_ns now) as [ns|]; [|done]. simpl. intros T.
  eexists. split; [reflexivity|]. unfold row_to_tag. cbn [r_timestamp_ns]. by rewrite T.
Qed.
(** A stream whose queue is empty: what is appended is peeked and confirmed. *)
Lemma cold_probe c k tag r : store_ok c -> contents c k = [] -> tag_to_row tag = Ok r -> row_to_tag r = Ok tag ->
  exists c1 c2 i, append k tag c = (c1, Ok tt) /\ peek k 1 c1 = (c2, Ok [(i, tag)]) /\
    store_ok (delete_ids k [i] c2) /\ contents (delete_ids k [i] c2) k = [] /\
    forall f, f <> safe_filename k -> ColdStore.files (delete_ids k [i] c2) !! f = ColdStore.files c !! f.
Proof.
  intros S E T R. destruct (append_row_spec k tag r c S T R) as (c1 & A & S1 & C1 & O1). rewrite E in C1. simpl in C1.
  destruct (peek_spec k 1 c1 S1) as (c2 & m & db & l & P & S2 & F & K & M & Lim & Fst & Snd & C2 & D & O2).
  rewrite C1 in Snd, C2, D. assert (length l = 1%nat) as L1.
  { rewrite <- (length_map fst), Fst, length_map, <- Lim. unfold sql_limit. simpl. unfold db_tags in D. by destruct (rows db). }
  destruct l as [|[i t] [|]]; try done. simpl in M. subst m. injection Snd as ->.
  destruct (delete_peeked k c2 db [(i, tag)] 1 S2 K F Fst) as (S3 & C3 & O3). rewrite C2 in C3. exists c1, c2, i. split_and!; try done.
  intros f N. change (map fst [(i, tag)]) with [i] in O3. rewrite O3, O2, O1 by done. done.
Qed.
Definition selftest_ready (now : Z) (d : diag) : Prop :=
  1 <= mgr_max_depth (dg_rings d) /\
  (forall b, dict_get SELFTEST_STREAM_KEY (buffers (dg_rings d)) = Some b -> buffer b = [] /\ 1 <= max_depth b) /\
  (forall c, dg_cold d = Some c -> store_ok c /\ contents c SELFTEST_STREAM_KEY = [] /\ timestamp_storable now).
Definition unchanged_samples (d d' : diag) : Prop :=
  (forall k, buffered d' k = buffered d k) /\ (forall k, cold_of (dg_cold d') k = cold_of (dg_cold d) k).
(** The probe through the ring buffers. *)
Definition selftest_buffer (r : RingBufferManager) : RingBuffer :=
  match dict_get SELFTEST_STREAM_KEY (buffers r) with Some b => b | None => make_buffer (mgr_max_depth r) false end.
Definition selftest_holds (r : RingBufferManager) (l : list UnifiedTag) : RingBufferManager :=
  with_buffers r (dict_set SELFTEST_STREAM_KEY (with_buffer (selftest_buffer r) l (evicted_count (selftest_buffer r))) (buffers r)).
Lemma dict_set_twice {A} k (v w : A) d : dict_set k v (dict_set k w d) = dict_set k v d.
Proof. induction d as [|[k' x] d IH]; simpl; [by rewrite decide_True|]. case_decide; simpl; [by rewrite decide_True|]. by rewrite decide_False, IH. Qed.
Lemma ring_probe tag (r : RingBufferManager) (cold : option SqliteColdStore) : buffer (selftest_buffer r) = [] -> 1 <= max_depth (selftest_buffer r) ->
  mgr_push on_evict r SELFTEST_STREAM_KEY tag false cold = (selftest_holds r [tag], cold, Ok tt) /\
  mgr_drain (selftest_holds r [tag]) SELFTEST_STREAM_KEY (Some 1) = ([tag], selftest_holds r []).
Proof.
  intros B0 B1. split.
  - unfold mgr_push. fold (selftest_buffer r). unfold push. rewrite B0, (proj2 (Z.leb_gt _ _)) by (rewrite zlen_nil; lia). done.
  - unfold mgr_drain, selftest_holds at 1. cbn [buffers with_buffers]. rewrite dict_get_set_eq. unfold RingBuffer.drain. cbn. unfold selftest_holds, with_buffers. cbn. by rewrite dict_set_twice.
Qed.
Lemma store_passes now d : selftest_ready now d ->
  exists d', self_test_store on_evict now d = (d', Ok (match dg_cold d with Some _ => BothTiers | None => HotTierOnly end)) /\
    unchanged_samples d d' /\ exists r c, d' = set_stores r c d.
Proof.
  intros (Dep & Ring & Cold). set (tag := selftest_tag now).
  assert (buffer (selftest_buffer (dg_rings d)) = [] /\ 1 <= max_depth (selftest_buffer (dg_rings d))) as [B0 B1]
    by (unfold selftest_buffer; destruct (dict_get SELFTEST_STREAM_KEY _) as [b|]; [by apply Ring|done]).
  destruct (ring_probe tag _ (dg_cold d) B0 B1) as [Push Drain]. set (rings := selftest_holds (dg_rings d) []) in *.
  assert (forall c, (forall k, cold_of c k = cold_of (dg_cold d) k) -> unchanged_samples d (set_stores rings c d)) as Clean.
  { intros c C. split; [|done]. intros k. unfold buffered. cbn [dg_rings set_stores]. unfold rings, selftest_holds. cbn [buffers with_buffers]. rewrite dict_get_set.
    destruct (decide (k = SELFTEST_STREAM_KEY)) as [->|]; [|done]. cbn [buffer with_buffer].
    destruct (dict_get SELFTEST_STREAM_KEY _) as [b|]; [|done]. by destruct (Ring b eq_refl) as [-> _]. }
  unfold self_test_store. fold tag. unfold sbind at 1. rewrite Push. unfold sbind at 1. cbn [dg_rings set_stores dg_cold]. rewrite Drain.
  rewrite String.eqb_refl. cbn [negb]. unfold sbind at 1, sget. cbn [dg_cold set_stores].
  destruct (dg_cold d) as [c|] eqn:Dc; [|eexists; split; [reflexivity|]; split; [by apply Clean|by eexists _, _]].
  destruct (Cold c eq_refl) as (S & E & TS). destruct (selftest_row now TS) as (r & R1 & R2).
  destruct (cold_probe c SELFTEST_STREAM_KEY tag r S E R1 R2) as (c1 & c2 & i & A & P & S3 & C3 & O3).
  unfold sbind at 1, on_cold at 1. cbn [dg_cold set_stores]. rewrite A. unfold sbind at 1, on_cold at 1. cbn [dg_cold set_stores]. rewrite P.
  rewrite String.eqb_refl. cbn [negb]. unfold sbind, on_cold. cbn [dg_cold set_stores]. eexists. split; [reflexivity|].
  split; [|by eexists _, _]. apply Clean. intros k. cbn [cold_of]. destruct (decide (safe_filename k = safe_filename SELFTEST_STREAM_KEY)) as [Q|N].
  - unfold contents in C3, E |- *. rewrite Q. congruence.
  - unfold contents. by rewrite O3.
Qed.
(** The self-test passes on a healthy gateway, and leaves no trace: every
    stream's ring buffer and database hold what they held. *)
Theorem self_test_clean p d :
  pr_timely p = (true, true) -> selftest_ready (e_now (pr_env p)) d ->
  exists d' northbound,
    self_test on_evict p d = (d', Ok (DSelfTest true true (match dg_cold d with Some _ => BothTiers | None => HotTierOnly end) northbound)) /\
    unchanged_samples d d' /\ dg_api d' = dg_api d /\ dg_logs d' = dg_logs d.
Proof.
  intros T R. destruct (store_passes _ _ R) as (d' & E & U & r & c & ->). unfold self_test. rewrite loopback_passes by done.
  rewrite (sbind_ok _ _ _ _ _ E). unfold sbind, sget. eexists _, _. split; [|done]. by destruct (dg_cold d).
Qed.
End SelfTest.

(** ** Examples *)

#[local] Existing Instance demo_host.
Definition demo_probe : probe := MkProbe demo_env (true, true) (fun _ => None).
Definition demo_cold_store : SqliteColdStore := Eval vm_compute in (append "plc" (demo_sample (VInt 5) GOOD false) empty_store).1.
Definition demo_diag : diag :=
  MkDiag demo_api (make_manager 10) (Some demo_cold_store) (new_logs 10)
    ({| published_count := 0; cm_error_count := 0; last_successful_publish := None |}, true).
Definition admin_socket : session := MkSession "admin" (Some "admin") "0123".
Definition say (command : string) (args : list json) : incoming := Message (JDict [("command", JStr command); ("args", JList args)]).

(** Text where [driver logs] expects a number, a message that is no object, and
    a driver entry without a type end the connection without an entry in the
    audit log. *)
Example unhandled_commands :
  let run m := snd (on_message None admin_socket m demo_probe demo_diag) in
  run (say "driver" [JStr "logs"; JStr "plc"; JStr "many"]) = Raise ValueError /\
  run (Message (JList [])) = Raise AttributeError /\
  snd (on_message None admin_socket (say "config" [JStr "validate"]) demo_probe
    (set_api (set_config (Some (Ok (JDict [("drivers", JList [JDict [("id", JStr "x")]])]))) demo_api) demo_diag)) = Raise KeyError.
Proof. split_and!; reflexivity. Qed.
(** A driver that is started by someone else while a restart waits for it to
    stop ends the connection; the restart is not recorded. *)
Definition restarting : diag :=
  let d := set_api (set_supervisor (start_driver 0 {| dc_instance_id := "a"; dc_driver_type := "loopback"; dc_tag_groups := [] |} (a_supervisor demo_api)).1 demo_api) demo_diag in
  (on_message None admin_socket (say "driver" [JStr "restart"; JStr "a"]) demo_probe d).1.
Definition started_meanwhile : diag :=
  let sup := a_supervisor (dg_api restarting) in
  let sup := match pool sup !! 1%nat with Some t => task_step 1 fzero OCancel 1 t sup | None => sup end in
  let sup := (start_driver 2 {| dc_instance_id := "a"; dc_driver_type := "loopback"; dc_tag_groups := [] |} sup).1 in
  set_api (set_supervisor sup (dg_api restarting)) restarting.
Example restart_races_enable :
  snd (on_stopped admin_socket (JStr "driver") (JList []) (MkWaiting "a" 1 {| dc_instance_id := "a"; dc_driver_type := "loopback"; dc_tag_groups := [] |})
    demo_env started_meanwhile) = Raise ValueError.
Proof. vm_compute. reflexivity. Qed.
(** The role is the one found at connect time: a socket of a user who was
    removed meanwhile still restarts drivers. *)
Example stale_role :
  let s := MkSession "gone" (Some "admin") "0123" in
  snd (on_message None s (say "self-test" []) demo_probe demo_diag) = Ok (Replied (DSelfTest true true BothTiers None)).
Proof. vm_compute. reflexivity. Qed.

Lemma demo_cold_store_ok : store_ok demo_cold_store.
Proof.
  destruct (append_spec "plc" (demo_sample (VInt 5) GOOD false) empty_store empty_store_ok demo_tag_storable) as (s & E & S & _).
  change demo_cold_store with (append "plc" (demo_sample (VInt 5) GOOD false) empty_store).1. by rewrite E.
Qed.
Definition self_test_message : json := JDict [("command", JStr "self-test"); ("args", JList [])].
Lemma diagnostic_commands_accounted_witness :
  answered admin_socket 0 [] "diagnostics:run" (JStr "self-test") (JList []) demo_diag
    (fst (on_message None admin_socket (Message self_test_message) demo_probe demo_diag)) (Replied (DSelfTest true true BothTiers None)).
Proof.
  destruct (@diagnostic_commands_accounted demo_host None admin_socket 0 [] demo_diag I (fresh_log_in_step _ _)) as [A _].
  apply (A self_test_message (JStr "self-test") (JList []) "diagnostics:run" demo_probe).
  - split; [reflexivity|]. exists (JList []). split; reflexivity.
  - reflexivity.
  - vm_compute. reflexivity.
Defined.
Lemma self_test_clean_witness :
  exists d' northbound,
    self_test None demo_probe demo_diag = (d', Ok (DSelfTest true true BothTiers northbound)) /\
    unchanged_samples demo_diag d' /\ dg_api d' = dg_api demo_diag /\ dg_logs d' = dg_logs demo_diag.
Proof.
  apply (@self_test_clean None demo_probe demo_diag); [reflexivity|]. split; [simpl; lia|]. split; [intros b [=]|].
  intros c [= <-]. split; [exact demo_cold_store_ok|]. split; [reflexivity|vm_compute; reflexivity].
Defined.
