(* ===== verification/FieldDrivers.v ===== *)
(** * Field drivers over client libraries (src/xedge/drivers/bacnet/client.py,
    src/xedge/drivers/bacnet/mstp_client.py, src/xedge/drivers/opcua/client.py)

    The BACnet/IP and OPC UA drivers ask a client library tag by tag; the
    BACnet MS/TP driver asks a daemon over a socket, one line out and one line
    back.  What a library or the daemon answers may depend on everything asked
    before.  A pass is one turn of [_poll_group]; [now] is the clock of its
    readings. *)

From Stdlib Require Import Ascii.
From stdpp Require Import pretty.
From S2P Require Import Prelude PyText PyFloat PyDict Pipeline ModbusTransports InboundDrivers.
Local Open Scope string_scope.
Local Open Scope list_scope.
Local Open Scope Z_scope.

(** ** What the drivers share *)

Definition good_update (instance_id tag_id address : string) (now : Z) (v : TagValue) (q : Quality) (source : option Z) (md : dict json) : TagUpdate :=
  {| tu_tag_id := instance_id ++ "/" ++ tag_id; tu_timestamp := now; tu_value := v; tu_quality := q; tu_source_driver := instance_id;
     tu_source_address := address; tu_source_timestamp := source; tu_metadata := md |}.
Definition bad_update (instance_id tag_id address : string) (now : Z) (md : dict json) : TagUpdate :=
  good_update instance_id tag_id address now (VInt 0) BAD None md.
(** [s.isdigit()] of a nonempty ASCII string *)
Definition all_digits (s : string) : bool := forallb (fun c => match digit c with Some _ => true | None => false end) (list_ascii_of_string s).
Definition write_unsupported (tag_id : string) : WriteResult := {| wr_success := false; wr_tag_id := tag_id; wr_error := Some RuntimeError |}.

(** A pass over tags each of which is one question to a library that may
    remember the questions before. *)
Section Polled.
Context {T Q V D : Type} (question : T -> Q) (ask : list Q -> Q -> res V) (report : T -> res V -> TagUpdate) (read : T -> SR D TagUpdate)
  (asked : D -> list Q) (metrics : D -> DriverMetrics) (ready : D -> Prop) (caught : exn -> bool).
Fixpoint answers (before : list Q) (qs : list Q) : list (res V) :=
  match qs with [] => [] | q :: qs => ask before q :: answers (before ++ [q]) qs end.
Definition tolerable (r : res V) : bool := match r with Ok _ => true | Raise e => caught e end.
Definition counted (m m' : DriverMetrics) (rs : list (res V)) : Prop :=
  tag_read_count m' = tag_read_count m + count_if (@is_ok V) rs /\ error_count m' = error_count m + count_if (fun r => negb (is_ok r)) rs /\
  reconnect_count m' = reconnect_count m.
Hypothesis read_spec : forall t d, ready d -> tolerable (ask (asked d) (question t)) = true ->
  exists d', read t d = (d', Ok (report t (ask (asked d) (question t)))) /\ ready d' /\ asked d' = asked d ++ [question t] /\
    counted (metrics d) (metrics d') [ask (asked d) (question t)].
Lemma pass_reports tags : forall d, ready d -> forallb tolerable (answers (asked d) (map question tags)) = true ->
  exists d', smapM read tags d = (d', Ok (zip_with report tags (answers (asked d) (map question tags)))) /\ ready d' /\
    asked d' = asked d ++ map question tags /\ counted (metrics d) (metrics d') (answers (asked d) (map question tags)).
Proof.
  induction tags as [|t tags IH]; intros d R F.
  - exists d. unfold counted, count_if. simpl. rewrite app_nil_r. autorewrite with zlen. split_and!; done || lia.
  - simpl in F. apply andb_true_iff in F as [F1 F]. destruct (read_spec t d R F1) as (d1 & E1 & R1 & A1 & C1).
    rewrite <- A1 in F. destruct (IH d1 R1 F) as (d2 & E2 & R2 & A2 & C2). exists d2. cbn [smapM].
    rewrite (sbind_ok _ _ _ _ _ E1), (sbind_ok _ _ _ _ _ E2). simpl. rewrite A1. split; [done|]. split; [done|].
    split; [rewrite A2, A1, <- app_assoc; done|]. destruct C1 as (X1 & Y1 & Z1), C2 as (X2 & Y2 & Z2). rewrite A1 in X2, Y2.
    unfold counted, count_if in *. simpl in *. destruct (is_ok (ask (asked d) (question t))); simpl in *; autorewrite with zlen in *; split_and!; try lia; congruence.
Qed.
End Polled.
Lemma counted_one {V} m now (r : res V) : counted m (if is_ok r then count_read now m else count_error m) [r].
Proof. unfold counted, count_if. destruct r; simpl; autorewrite with zlen; split_and!; lia. Qed.

(** ** BACnet/IP *)

Module BacnetIp.
Record BacnetTag := MkTag { bt_id : string; bt_device_address : string; bt_object_identifier : string; bt_property_identifier : option string }.
Record BacnetConfig := MkConfig {
  bc_instance_id : string; bc_local_address : option string; bc_device_instance : option Z; bc_groups : list (list BacnetTag) }.
Definition DEFAULT_PROPERTY_IDENTIFIER : string := "present-value".
(** A primitive of bacpypes3, as it is or inside an [AnyAtomic]. *)
Inductive bac_value := BBinary (z : Z) | BBool (b : bool) | BInt (z : Z) | BFloat (f : pfloat) | BOther (text : string).
Inductive raw_value := Plain (v : bac_value) | AnyAtomic (v : bac_value).
Definition coerce_value (v : bac_value) : TagValue :=
  match v with
  | BBinary z => VBool (negb (z =? 0))
  | BBool b => VBool b
  | BInt z => VInt z
  | BFloat f => VFloat f
  | BOther t => VStr t
  end.
Record request := MkRequest { rq_device : string; rq_object : string; rq_property : string }.
Record driver := MkDriver { bd_config : option BacnetConfig; bd_app : bool; bd_metrics : DriverMetrics; bd_asked : list request }.

Section Driver.
(** [read_property] with its time limit; the socket's [bind]; the
    application's construction and [close]; the text of an error. *)
Context (read_property : list request -> request -> res raw_value) (bind : string -> Z -> res unit) (start_app : string -> Z -> string -> res unit)
  (close_app : res unit) (error_text : exn -> string).
Local Abbreviation M := (SR driver).
Definition require_config : M BacnetConfig :=
  let! c := sget bd_config in match c with Some c => sret c | None => sraise BacnetDriverStateError end.
Definition configure (c : BacnetConfig) : M unit := smodify (fun d => MkDriver (Some c) (bd_app d) (bd_metrics d) (bd_asked d)).
Definition check_local_address_available (local_address : string) : res unit :=
  match rpartition ":" local_address with
  | None => Raise DriverConnectionError
  | Some (host, port_str) =>
      raise_if String.eqb host "" || String.eqb port_str "" || negb (all_digits port_str) with DriverConnectionError;
      let* port := int_text port_str in
      match bind host port with Raise e => if is_os_error e then Raise DriverConnectionError else Raise e | Ok _ => Ok tt end
  end.
Definition set_app (a : bool) (d : driver) : driver := MkDriver (bd_config d) a (bd_metrics d) (bd_asked d).
Definition connect : M unit :=
  let! c := require_config in
  let! local_address := slift (match bc_local_address c with Some a => Ok a | None => Raise KeyError end) in
  let! _ := slift (check_local_address_available local_address) in
  let! device := slift (match bc_device_instance c with Some i => Ok i | None => Raise KeyError end) in
  let! _ := slift (match start_app local_address device ("xedge-" ++ bc_instance_id c) with Ok _ => Ok tt | Raise _ => Raise DriverConnectionError end) in
  smodify (set_app true).
Definition disconnect : M unit := smodify (set_app false).
Definition write (tag_id : string) (v : TagValue) : M WriteResult := sret (write_unsupported tag_id).
Definition unwrap (v : raw_value) : bac_value := match v with Plain v | AnyAtomic v => v end.
Definition request_of (t : BacnetTag) : request :=
  MkRequest (bt_device_address t) (bt_object_identifier t) (default DEFAULT_PROPERTY_IDENTIFIER (bt_property_identifier t)).
Definition source_of (t : BacnetTag) : string := bt_device_address t ++ "/" ++ bt_object_identifier t.
Definition caught (e : exn) : bool := match e with ErrorRejectAbortNack => true | _ => is_os_error e end.
Definition read_tag (instance_id : string) (now : Z) (t : BacnetTag) : M TagUpdate := fun d =>
  if negb (bd_app d) then (d, Raise BacnetDriverStateError) else
  let asked := bd_asked d ++ [request_of t] in
  match read_property (bd_asked d) (request_of t) with
  | Ok raw => (MkDriver (bd_config d) true (count_read now (bd_metrics d)) asked,
               Ok (good_update instance_id (bt_id t) (source_of t) now (coerce_value (unwrap raw)) GOOD None []))
  | Raise e =>
      if caught e then (MkDriver (bd_config d) true (count_error (bd_metrics d)) asked,
                        Ok (bad_update instance_id (bt_id t) (source_of t) now [("bacnet_error", JStr (error_text e))]))
      else (MkDriver (bd_config d) true (bd_metrics d) asked, Raise e)
  end.
Definition poll_pass (now : Z) (tags : list BacnetTag) : M (list TagUpdate) :=
  let! c := sget bd_config in
  smapM (read_tag (match c with Some c => bc_instance_id c | None => "bacnet" end) now) tags.

(** ** What a pass reports *)
Definition report (instance_id : string) (now : Z) (t : BacnetTag) (r : res raw_value) : TagUpdate :=
  match r with
  | Ok raw => good_update instance_id (bt_id t) (source_of t) now (coerce_value (unwrap raw)) GOOD None []
  | Raise e => bad_update instance_id (bt_id t) (source_of t) now [("bacnet_error", JStr (error_text e))]
  end.
(** Once connected, a pass reports every tag of the group in order, with the
    value the library read or Bad if the read was refused or timed out, and
    counts it as read or as error; the tags after a failing one are not
    affected. *)
Theorem bacnet_poll_reports now tags c d (rs := answers read_property (bd_asked d) (map request_of tags)) :
  bd_config d = Some c -> bd_app d = true -> forallb (tolerable caught) rs = true ->
  exists d', poll_pass now tags d = (d', Ok (zip_with (report (bc_instance_id c) now) tags rs)) /\
    bd_app d' = true /\ counted (bd_metrics d) (bd_metrics d') rs.
Proof.
  intros C A F. unfold poll_pass, sbind, sget. rewrite C.
  destruct (pass_reports request_of read_property (report (bc_instance_id c) now) (read_tag (bc_instance_id c) now) bd_asked bd_metrics (fun d => bd_app d = true) caught) with (tags := tags) (d := d)
    as (d' & E & R & _ & K); [|done|done|by exists d'].
  clear d C A F rs. intros t d A F. unfold read_tag. rewrite A. cbn [negb]. destruct (read_property _ _) as [v|e]; simpl in F; [|rewrite F].
  - eexists. split; [done|]. split; [done|]. split; [done|]. apply (counted_one _ now (Ok v)).
  - eexists. split; [done|]. split; [done|]. split; [done|]. apply (counted_one _ now (Raise e)).
Qed.
End Driver.
End BacnetIp.

(** ** BACnet MS/TP *)

Module BacnetMstp.
Record MstpTag := MkTag {
  mt_id : string; mt_device_instance : Z; mt_mac_address : Z; mt_object_type : string; mt_object_instance : Z; mt_property_id : option string }.
Record MstpConfig := MkConfig {
  mc_instance_id : string; mc_port : option string; mc_mac_address : option Z; mc_device_instance : option Z; mc_daemon_path : option string;
  mc_baud_rate : option Z; mc_max_info_frames : option Z; mc_max_master : option Z; mc_groups : list (list MstpTag) }.
Definition DEFAULT_PROPERTY_ID : string := "present-value".
Definition DEFAULT_BAUD_RATE : Z := 38400.
Definition DEFAULT_MAX_INFO_FRAMES : Z := 1.
Definition DEFAULT_MAX_MASTER : Z := 127.
Definition DEFAULT_DAEMON_PATH : string := "xedge-bacnet-mstp-daemon".
Definition BINARY_OBJECT_TYPES : list string := ["binary-input"; "binary-output"; "binary-value"].

Record request := MkRequest { rq_device_instance : Z; rq_mac : Z; rq_object_type : string; rq_object_instance : Z; rq_property_id : string }.
Definition request_of (t : MstpTag) : request :=
  MkRequest (mt_device_instance t) (mt_mac_address t) (mt_object_type t) (mt_object_instance t) (default DEFAULT_PROPERTY_ID (mt_property_id t)).
(** A line from the daemon: closed connection, no JSON, or the object. *)
Inductive answer_line := Closed | NoJson | Object (d : dict json).
(** [bool(int(v))] of a JSON number. *)
Definition number_truth (n : num) : res bool :=
  match n with NInt z => Ok (negb (z =? 0)) | NFloat f => let* z := trunc f in Ok (negb (z =? 0)) end.
Definition coerce_value (text_of : json -> string) (v : json) (object_type : string) (property_id : option string) : res TagValue :=
  let property := match property_id with Some (String _ _ as p) => p | _ => DEFAULT_PROPERTY_ID end in
  let is_binary_present_value := bool_decide (object_type ∈ BINARY_OBJECT_TYPES) && String.eqb property "present-value" in
  match v with
  | JNum n => if is_binary_present_value then rmap VBool (number_truth n) else Ok (match n with NInt z => VInt z | NFloat f => VFloat f end)
  | JBool b => Ok (VBool b)
  | JStr s => Ok (VStr s)
  | _ => Ok (VStr (text_of v))
  end.

(** The child process, and the socket: the requests written to it and how many
    answers were read from it. *)
Inductive process := Running | Exited.
Record socket := MkSocket { sk_written : list request; sk_read : nat }.
Record driver := MkDriver {
  md_config : option MstpConfig; md_process : option process; md_socket : option socket; md_socket_path : option string; md_metrics : DriverMetrics;
  (** how often a child was sent a signal that ends it *)
  md_signals : nat }.
Definition set_process (p : option process) (n : nat) (d : driver) : driver :=
  MkDriver (md_config d) p (md_socket d) (md_socket_path d) (md_metrics d) (md_signals d + n).
Definition set_socket (s : option socket) (d : driver) : driver :=
  MkDriver (md_config d) (md_process d) s (md_socket_path d) (md_metrics d) (md_signals d).
Definition set_path (p : option string) (d : driver) : driver :=
  MkDriver (md_config d) (md_process d) (md_socket d) p (md_metrics d) (md_signals d).
Definition set_metrics (f : DriverMetrics -> DriverMetrics) (d : driver) : driver :=
  MkDriver (md_config d) (md_process d) (md_socket d) (md_socket_path d) (f (md_metrics d)) (md_signals d).

Section Driver.
(** The daemon's answer to a request after the ones before it; texts. *)
Context (daemon : list request -> request -> answer_line) (text_of : json -> string) (error_text : exn -> string).
Local Abbreviation M := (SR driver).
Definition require_config : M MstpConfig :=
  let! c := sget md_config in match c with Some c => sret c | None => sraise BacnetMstpDriverStateError end.
Definition configure (c : MstpConfig) : M unit :=
  smodify (fun d => MkDriver (Some c) (md_process d) (md_socket d) (md_socket_path d) (md_metrics d) (md_signals d)).
(** [terminate], and [kill] if the child does not end in time. *)
Definition kill_process (ends_in_time : bool) : M unit := smodify (fun d =>
  match md_process d with
  | None => d
  | Some Running => set_process None (if ends_in_time then 1 else 2) d
  | Some Exited => set_process None 0 d
  end).
Definition daemon_args (c : MstpConfig) (port : string) (mac device_instance : Z) (socket_path : string) : list string :=
  ["--iface"; port; "--mac"; pretty mac; "--baud"; pretty (default DEFAULT_BAUD_RATE (mc_baud_rate c));
   "--max-info-frames"; pretty (default DEFAULT_MAX_INFO_FRAMES (mc_max_info_frames c));
   "--max-master"; pretty (default DEFAULT_MAX_MASTER (mc_max_master c)); "--device-instance"; pretty device_instance; "--socket"; socket_path].
(** What a look at the start-up shows: the socket file, the child's end, the deadline. *)
Record look := MkLook { lk_exists : bool; lk_exited : bool; lk_late : bool }.
(** [None]: still waiting after these looks. *)
Fixpoint await_socket (looks : list look) (ends_in_time : bool) : M (option unit) :=
  match looks with
  | [] => sret None
  | l :: rest =>
      if lk_exists l then sret (Some tt)
      else if lk_exited l then let! _ := smodify (fun d => set_process (Some Exited) 0 d) in sraise DriverConnectionError
      else if lk_late l then let! _ := kill_process ends_in_time in sraise DriverConnectionError
      else await_socket rest ends_in_time
  end.
Definition field {A} (o : option A) : res A := match o with Some a => Ok a | None => Raise KeyError end.
Definition connect (spawn : string -> list string -> res unit) (socket_path : string) (looks : list look) (opened : res unit) (ends_in_time : bool) : M (option unit) :=
  let! c := require_config in
  let! port := slift (field (mc_port c)) in
  let! mac := slift (field (mc_mac_address c)) in
  let! _ := smodify (set_path (Some socket_path)) in
  let! device := slift (field (mc_device_instance c)) in
  let! _ := slift (match spawn (default DEFAULT_DAEMON_PATH (mc_daemon_path c)) (daemon_args c port mac device socket_path) with
                   | Ok _ => Ok tt
                   | Raise e => if is_os_error e then Raise DriverConnectionError else Raise e
                   end) in
  let! _ := smodify (set_process (Some Running) 0) in
  let! ready := await_socket looks ends_in_time in
  match ready with
  | None => sret None
  | Some _ =>
      match opened with
      | Ok _ => let! _ := smodify (set_socket (Some (MkSocket [] 0))) in sret (Some tt)
      | Raise e => if is_os_error e then let! _ := kill_process ends_in_time in sraise DriverConnectionError else sraise e
      end
  end.
Definition disconnect (ends_in_time : bool) : M unit :=
  let! _ := smodify (set_socket None) in
  let! _ := kill_process ends_in_time in
  smodify (set_path None).
Definition write (tag_id : string) (v : TagValue) : M WriteResult := sret (write_unsupported tag_id).

(** How a request ends: with a line in time, or with the time limit before or
    after the request went out, or with an error of the socket. *)
Inductive wait := LineInTime | LateBeforeWrite | LateAfterWrite | SocketError.
Definition send_request (t : MstpTag) (w : wait) : M (dict json) := fun d =>
  match md_socket d with
  | None => (d, Raise DriverConnectionError)
  | Some s =>
      let written := sk_written s ++ [request_of t] in
      match w with
      | LateBeforeWrite => (d, Raise TimeoutError)
      | SocketError => (set_socket (Some (MkSocket written (sk_read s))) d, Raise OSError)
      | LateAfterWrite => (set_socket (Some (MkSocket written (sk_read s))) d, Raise TimeoutError)
      | LineInTime =>
          match written !! sk_read s with
          | None => (d, Raise DriverConnectionError)
          | Some q =>
              let d := set_socket (Some (MkSocket written (S (sk_read s)))) d in
              match daemon (take (sk_read s) written) q with
              | Closed => (d, Raise DriverConnectionError)
              | NoJson => (d, Raise JSONDecodeError)
              | Object o => (d, Ok o)
              end
          end
      end
  end.
Definition value_of (t : MstpTag) (response : dict json) : res TagValue :=
  raise_if negb (truthy (default JNull (dict_get "ok" response))) with BacnetMstpRequestError;
  let* v := field (dict_get "value" response) in
  coerce_value text_of v (mt_object_type t) (mt_property_id t).
Definition caught (e : exn) : bool := match e with BacnetMstpRequestError | JSONDecodeError => true | _ => is_os_error e end.
Definition source_of (t : MstpTag) : string := pretty (mt_device_instance t) ++ "/" ++ mt_object_type t ++ ":" ++ pretty (mt_object_instance t).
Definition read_tag (instance_id : string) (now : Z) (t : MstpTag) (w : wait) : M TagUpdate := fun d =>
  match (let! response := send_request t w in slift (value_of t response)) d with
  | (d, Ok v) => (set_metrics (count_read now) d, Ok (good_update instance_id (mt_id t) (source_of t) now v GOOD None []))
  | (d, Raise e) =>
      if caught e then (set_metrics count_error d, Ok (bad_update instance_id (mt_id t) (source_of t) now [("bacnet_mstp_error", JStr (error_text e))]))
      else (d, Raise e)
  end.
Fixpoint reads (instance_id : string) (now : Z) (l : list (MstpTag * wait)) : M (list TagUpdate) :=
  match l with [] => sret [] | (t, w) :: l => let! u := read_tag instance_id now t w in let! us := reads instance_id now l in sret (u :: us) end.
Definition poll_pass (now : Z) (l : list (MstpTag * wait)) : M (list TagUpdate) :=
  let! c := require_config in reads (mc_instance_id c) now l.

(** ** Whose answer is read *)

Definition line_value (t : MstpTag) (a : answer_line) : res TagValue :=
  match a with Closed => Raise DriverConnectionError | NoJson => Raise JSONDecodeError | Object o => value_of t o end.
Definition report (instance_id : string) (now : Z) (t : MstpTag) (r : res TagValue) : TagUpdate :=
  match r with
  | Ok v => good_update instance_id (mt_id t) (source_of t) now v GOOD None []
  | Raise e => bad_update instance_id (mt_id t) (source_of t) now [("bacnet_mstp_error", JStr (error_text e))]
  end.
(** How many answers are still to come when a request goes out. *)
Definition lag (d : driver) : option nat := (fun s => length (sk_written s) - sk_read s)%nat <$> md_socket d.
Definition caught_up (d : driver) : Prop := exists s, md_socket d = Some s /\ (sk_read s <= length (sk_written s))%nat.
(** The daemon keeps to its protocol: it does not close, and what it says about
    a tag is a value or an error. *)
Definition daemon_tolerable (t : MstpTag) : Prop :=
  forall before q, match line_value t (daemon before q) with Ok _ => True | Raise e => caught e = true end.

Lemma read_in_time instance_id now t d s q : md_socket d = Some s -> (sk_written s ++ [request_of t]) !! sk_read s = Some q -> daemon_tolerable t ->
  exists d', read_tag instance_id now t LineInTime d =
      (d', Ok (report instance_id now t (line_value t (daemon (take (sk_read s) (sk_written s ++ [request_of t])) q)))) /\
    md_socket d' = Some (MkSocket (sk_written s ++ [request_of t]) (S (sk_read s))).
Proof.
  intros S Q T. specialize (T (take (sk_read s) (sk_written s ++ [request_of t])) q). unfold read_tag, send_request, sbind. rewrite S, Q.
  destruct (daemon _ _) as [| |o]; simpl in T |- *; [done|by eexists|].
  destruct (value_of t o) as [v|e]; [by eexists|]. simpl. rewrite T. by eexists.
Qed.
Lemma lagging_lookup {A} (l l' : list A) i x : l !! i = Some x -> (l ++ l') !! i = Some x.
Proof. intros E. by rewrite lookup_app, E. Qed.
(** The passes after a connect: each answer read belongs to the request sent as
    many requests earlier as requests timed out since then.  While none did, a
    tag's update is the daemon's answer to that tag's own request; once one
    did, every later tag is reported with the answer to another one, and no
    pass catches up. *)
Theorem mstp_answers_lag instance_id now tags d s :
  md_socket d = Some s -> (sk_read s <= length (sk_written s))%nat -> Forall daemon_tolerable tags ->
  let requests := sk_written s ++ map request_of tags in
  exists d' us, reads instance_id now (map (fun t => (t, LineInTime)) tags) d = (d', Ok us) /\ lag d' = lag d /\ length us = length tags /\
    (forall i t u, tags !! i = Some t -> us !! i = Some u ->
       exists q, requests !! (sk_read s + i)%nat = Some q /\ u = report instance_id now t (line_value t (daemon (take (sk_read s + i) requests) q)) /\
         (lag d = Some 0%nat -> q = request_of t)) /\
    (forall t, lag (fst (read_tag instance_id now t LateAfterWrite d)) = S <$> lag d).
Proof.
  intros S L F requests. assert (forall t, lag (fst (read_tag instance_id now t LateAfterWrite d)) = Datatypes.S <$> lag d) as Late.
  { intros t. unfold read_tag, send_request, sbind. rewrite S. simpl. unfold lag. simpl. rewrite S. simpl. rewrite length_app. simpl. f_equal. lia. }
  cut (exists d' us, reads instance_id now (map (fun t => (t, LineInTime)) tags) d = (d', Ok us) /\ lag d' = lag d /\ length us = length tags /\
    (forall i t u, tags !! i = Some t -> us !! i = Some u ->
       exists q, requests !! (sk_read s + i)%nat = Some q /\ u = report instance_id now t (line_value t (daemon (take (sk_read s + i) requests) q)))).
  { intros (d' & us & E & G & N & R). exists d', us. split_and!; try done. intros i t u Ti Ui. destruct (R i t u Ti Ui) as (q & Q & U).
    exists q. split; [done|]. split; [done|]. unfold lag. rewrite S. simpl. intros [= Z]. unfold requests in Q.
    rewrite lookup_app_r in Q by lia. rewrite list_lookup_fmap in Q. replace (sk_read s + i - length (sk_written s))%nat with i in Q by lia.
    rewrite Ti in Q. by injection Q. }
  clear Late. revert d s S L requests. induction tags as [|t tags IH]; intros d s S L requests.
  { exists d, []. split; [done|]. split; [done|]. split; [done|]. intros i t u E. by rewrite lookup_nil in E. }
  apply Forall_cons in F as [T F]. specialize (IH F).
  destruct ((sk_written s ++ [request_of t]) !! sk_read s) as [q|] eqn:Q;
    [|apply lookup_ge_None_1 in Q; rewrite length_app in Q; simpl in Q; lia].
  destruct (read_in_time instance_id now t d s q S Q T) as (d1 & E1 & S1).
  destruct (IH d1 _ S1) as (d2 & us & E2 & G & N & R); [simpl; rewrite length_app; simpl; lia|]. simpl in R.
  assert ((sk_written s ++ [request_of t]) ++ map request_of tags = requests) as W by (unfold requests; simpl; by rewrite <- app_assoc).
  rewrite W in R. exists d2. eexists (_ :: us). cbn [map reads]. rewrite (sbind_ok _ _ _ _ _ E1), (sbind_ok _ _ _ _ _ E2).
  split; [reflexivity|]. split.
  { rewrite G. unfold lag. rewrite S, S1. simpl. rewrite length_app. simpl. f_equal. lia. }
  split; [simpl; by rewrite N|]. intros [|i] t' u; simpl.
  - intros [= <-] [= <-]. rewrite Nat.add_0_r. exists q. rewrite <- W. split; [by apply lagging_lookup|]. rewrite (take_app_le (_ ++ _)); [done|].
    rewrite length_app. lia.
  - intros Ti Ui. rewrite Nat.add_succ_r. by apply R.
Qed.
(** Whatever a connect came to, a disconnect leaves no child, socket or path
    behind, and a child still running was told to end. *)
Theorem mstp_disconnect_cleans ends d : let d' := fst (disconnect ends d) in
  md_process d' = None /\ md_socket d' = None /\ md_socket_path d' = None /\ (md_process d = Some Running -> md_signals d < md_signals d')%nat.
Proof.
  unfold disconnect, kill_process, sbind, smodify. simpl. destruct (md_process d) as [[]|] eqn:P; simpl; rewrite ?P; split_and!; try done. destruct ends; lia.
Qed.
End Driver.
End BacnetMstp.

(** ** OPC UA *)

Module OpcUa.
Record OpcUaTag := MkTag { ot_id : string; ot_node_id : string }.
Record OpcUaConfig := MkConfig {
  oc_instance_id : string; oc_endpoint_url : option string; oc_username : option string; oc_password : option string; oc_groups : list (list OpcUaTag) }.
Inductive severity := SevGood | SevUncertain | SevBad.
Record status_code := MkStatus { sc_severity : severity; sc_name : string }.
(** A value of a node: what [TagValue] holds, or something else, as text. *)
Inductive ua_value := UaPlain (v : TagValue) | UaOther (text : string).
Record data_value := MkDataValue { dv_status : option status_code; dv_value : option ua_value; dv_source_timestamp : option Z }.
Record driver := MkDriver { od_config : option OpcUaConfig; od_client : bool; od_metrics : DriverMetrics; od_asked : list string }.
Definition map_status_code (s : status_code) : Quality := match sc_severity s with SevGood => GOOD | SevUncertain => UNCERTAIN | SevBad => BAD end.
Definition coerce_value (v : ua_value) : TagValue := match v with UaPlain v => v | UaOther t => VStr t end.
Definition BAD_STATUS : status_code := MkStatus SevBad "Bad".

Section Driver.
(** The client's [read_data_value], [get_node], [connect] with its
    credentials, and [disconnect]. *)
Context (read_node : list string -> string -> res data_value) (get_node : string -> res unit)
  (client_connect : string -> option (string * option string) -> res unit) (client_disconnect : res unit) (error_text : exn -> string).
Local Abbreviation M := (SR driver).
Definition set_client (b : bool) (d : driver) : driver := MkDriver (od_config d) b (od_metrics d) (od_asked d).
Definition configure (c : OpcUaConfig) : M unit := smodify (fun d => MkDriver (Some c) (od_client d) (od_metrics d) (od_asked d)).
Definition connect : M unit :=
  let! c := sget od_config in
  match c with
  | None => sraise OpcUaDriverStateError
  | Some c =>
      let! url := slift (match oc_endpoint_url c with Some u => Ok u | None => Raise KeyError end) in
      let credentials := match oc_username c with
                         | Some (String _ _ as u) => Some (u, match oc_password c with Some (String _ _ as p) => Some p | _ => None end)
                         | _ => None
                         end in
      let! _ := slift (client_connect url credentials) in
      smodify (set_client true)
  end.
Definition disconnect : M unit := fun d =>
  if od_client d then
    match client_disconnect with
    | Raise e => if is_os_error e then (set_client false d, Ok tt) else (d, Raise e)
    | Ok _ => (set_client false d, Ok tt)
    end
  else (d, Ok tt).
Definition write (tag_id : string) (v : TagValue) : M WriteResult := sret (write_unsupported tag_id).
Definition caught (e : exn) : bool := match e with UaError => true | _ => is_os_error e end.
Definition read_tag (instance_id : string) (now : Z) (t : OpcUaTag) : M TagUpdate := fun d =>
  let asked := od_asked d ++ [ot_node_id t] in
  match read_node (od_asked d) (ot_node_id t) with
  | Ok dv =>
      let status := default BAD_STATUS (dv_status dv) in
      let v := match dv_value dv with Some v => coerce_value v | None => VInt 0 end in
      (MkDriver (od_config d) (od_client d) (count_read now (od_metrics d)) asked,
       Ok (good_update instance_id (ot_id t) (ot_node_id t) now v (map_status_code status) (dv_source_timestamp dv)
             [("opcua_status_code", JStr (sc_name status))]))
  | Raise e =>
      if caught e then (MkDriver (od_config d) (od_client d) (count_error (od_metrics d)) asked,
        Ok (bad_update instance_id (ot_id t) (ot_node_id t) now [("opcua_status_code", JNull); ("opcua_error", JStr (error_text e))]))
      else (MkDriver (od_config d) (od_client d) (od_metrics d) asked, Raise e)
  end.
(** Before its first pass a group resolves its nodes. *)
Definition open_group (tags : list OpcUaTag) : M unit :=
  let! c := sget od_client in
  if negb c then sraise OpcUaDriverStateError else slift (rmap (fun _ => tt) (mapM_res (fun t => get_node (ot_node_id t)) tags)).
Definition poll_pass (now : Z) (tags : list OpcUaTag) : M (list TagUpdate) :=
  let! c := sget od_config in
  smapM (read_tag (match c with Some c => oc_instance_id c | None => "opcua" end) now) tags.

Definition report (instance_id : string) (now : Z) (t : OpcUaTag) (r : res data_value) : TagUpdate :=
  match r with
  | Ok dv =>
      let status := default BAD_STATUS (dv_status dv) in
      good_update instance_id (ot_id t) (ot_node_id t) now (match dv_value dv with Some v => coerce_value v | None => VInt 0 end)
        (map_status_code status) (dv_source_timestamp dv) [("opcua_status_code", JStr (sc_name status))]
  | Raise e => bad_update instance_id (ot_id t) (ot_node_id t) now [("opcua_status_code", JNull); ("opcua_error", JStr (error_text e))]
  end.
(** A pass reports every tag of the group in order, with the value, the source
    time and the quality its status code stands for, or Bad if the read
    failed. *)
Theorem opcua_poll_reports now tags c d (rs := answers read_node (od_asked d) (map ot_node_id tags)) :
  od_config d = Some c -> forallb (tolerable caught) rs = true ->
  exists d', poll_pass now tags d = (d', Ok (zip_with (report (oc_instance_id c) now) tags rs)) /\ counted (od_metrics d) (od_metrics d') rs.
Proof.
  intros C F. unfold poll_pass, sbind, sget. rewrite C.
  destruct (pass_reports ot_node_id read_node (report (oc_instance_id c) now) (read_tag (oc_instance_id c) now) od_asked od_metrics (fun _ => True) caught) with (tags := tags) (d := d)
    as (d' & E & R & _ & K); [|done|done|by exists d'].
  clear d C F rs. intros t d _ F. unfold read_tag. destruct (read_node _ _) as [v|e]; simpl in F; [|rewrite F].
  - eexists. split; [done|]. split; [done|]. split; [done|]. apply (counted_one _ now (Ok v)).
  - eexists. split; [done|]. split; [done|]. split; [done|]. apply (counted_one _ now (Raise e)).
Qed.
End Driver.
End OpcUa.

(** ** Examples *)

Module Demo.
Definition zero : DriverMetrics := {| tag_read_count := 0; error_count := 0; reconnect_count := 0; last_successful_read := None |}.
Definition no_text : exn -> string := fun _ => "".

Import BacnetMstp.
Definition tag (n : Z) : MstpTag := MkTag ("t" ++ pretty n) 260001 1 "analog-input" n None.
(** A daemon that answers with the number of the object asked for. *)
Definition daemon : list request -> request -> answer_line := fun _ q => Object [("ok", JBool true); ("value", JNum (NInt (rq_object_instance q)))].
Definition config : MstpConfig := BacnetMstp.MkConfig "bus" (Some "/dev/ttyUSB0") (Some 3) (Some 4194302) None None None None [[tag 1; tag 2; tag 3]].
Definition fresh : driver := BacnetMstp.MkDriver (Some config) None None None zero 0.
Definition connected : driver :=
  fst (connect (fun _ _ => Ok tt) "/tmp/x.sock" [MkLook false false false; MkLook true false false] (Ok tt) true fresh).
(** After one request that timed out, every tag gets the value of the one
    before it, with quality Good, in this pass and in the next. *)
Example late_answer_shifts_values :
  let '(d, us1) := poll_pass daemon (fun _ => "") no_text 5 [(tag 1, LateAfterWrite); (tag 2, LineInTime); (tag 3, LineInTime)] connected in
  let '(_, us2) := poll_pass daemon (fun _ => "") no_text 6 [(tag 1, LineInTime); (tag 2, LineInTime); (tag 3, LineInTime)] d in
  let show us := map (fun u => (tu_tag_id u, tu_value u, tu_quality u)) us in
  rmap show us1 = Ok [("bus/t1", VInt 0, BAD); ("bus/t2", VInt 1, GOOD); ("bus/t3", VInt 2, GOOD)] /\
  rmap show us2 = Ok [("bus/t1", VInt 3, GOOD); ("bus/t2", VInt 1, GOOD); ("bus/t3", VInt 2, GOOD)].
Proof. vm_compute. split; reflexivity. Qed.
Example daemon_exits_during_startup :
  let '(d, r) := connect (fun _ _ => Ok tt) "/tmp/x.sock" [MkLook false false false; MkLook false true false] (Ok tt) true fresh in
  r = Raise DriverConnectionError /\ md_process d = Some Exited /\ md_socket_path (fst (disconnect true d)) = None.
Proof. split_and!; reflexivity. Qed.
Lemma mstp_answers_lag_witness :
  exists d' us, reads daemon (fun _ => "") no_text "bus" 5 [(tag 1, LineInTime); (tag 2, LineInTime)] connected = (d', Ok us) /\
    lag d' = Some 0%nat /\ forall i t u, [tag 1; tag 2] !! i = Some t -> us !! i = Some u ->
      u = report no_text "bus" 5 t (line_value (fun _ => "") t (daemon (take i [request_of (tag 1); request_of (tag 2)]) (request_of t))).
Proof.
  destruct (mstp_answers_lag daemon (fun _ => "") no_text "bus" 5 [tag 1; tag 2] connected (MkSocket [] 0)) as (d' & us & E & L & _ & R & _).
  - reflexivity.
  - simpl. lia.
  - repeat constructor; intros before q; exact I.
  - exists d', us. split; [exact E|]. split; [exact L|]. intros i t u T U. destruct (R i t u T U) as (q & _ & -> & Q). rewrite (Q eq_refl). reflexivity.
Defined.

Import OpcUa.
Definition plant : OpcUaConfig := OpcUa.MkConfig "ua" (Some "opc.tcp://plc") None None [[OpcUa.MkTag "a" "ns=2;s=A"; OpcUa.MkTag "b" "ns=2;s=B"]].
Definition polling : OpcUa.driver := OpcUa.MkDriver (Some plant) true zero [].
Definition plc : list string -> string -> res data_value := fun before node =>
  if String.eqb node "ns=2;s=B" then Raise UaError else Ok (MkDataValue (Some (MkStatus SevUncertain "UncertainLastUsableValue")) (Some (UaPlain (VInt 7))) (Some 3)).
(** A session that is gone is reported tag by tag, pass after pass: nothing
    reaches the supervisor that would reconnect it. *)
Fixpoint passes (n : nat) (d : OpcUa.driver) : res nat :=
  match n with
  | O => Ok O
  | S n => match OpcUa.poll_pass (fun _ _ => Raise ConnectionError) no_text 1 [OpcUa.MkTag "a" "ns=2;s=A"] d with
           | (d, Ok us) => rmap (Nat.add (length us)) (passes n d)
           | (_, Raise e) => Raise e
           end
  end.
Example dead_session_never_reconnected : passes 100 polling = Ok 100%nat.
Proof. vm_compute. reflexivity. Qed.
(** A node id that does not parse ends [run] for every group. *)
Example bad_node_id_ends_run : snd (open_group (fun n => if String.eqb n "?" then Raise UaError else Ok tt) [OpcUa.MkTag "a" "ns=2;s=A"; OpcUa.MkTag "b" "?"] polling) = Raise UaError.
Proof. reflexivity. Qed.
Lemma opcua_poll_reports_witness :
  exists d', OpcUa.poll_pass plc no_text 5 [OpcUa.MkTag "a" "ns=2;s=A"; OpcUa.MkTag "b" "ns=2;s=B"] polling =
      (d', Ok [good_update "ua" "a" "ns=2;s=A" 5 (VInt 7) UNCERTAIN (Some 3) [("opcua_status_code", JStr "UncertainLastUsableValue")];
               bad_update "ua" "b" "ns=2;s=B" 5 [("opcua_status_code", JNull); ("opcua_error", JStr "")]]) /\
    tag_read_count (od_metrics d') = 1 /\ error_count (od_metrics d') = 1.
Proof.
  destruct (opcua_poll_reports plc no_text 5 [OpcUa.MkTag "a" "ns=2;s=A"; OpcUa.MkTag "b" "ns=2;s=B"] plant polling) as (d' & E & (R & X & _)); [reflexivity|reflexivity|].
  exists d'. split; [exact E|]. split; [exact R|exact X].
Defined.
Import BacnetIp.
Definition building : BacnetConfig := BacnetIp.MkConfig "bms" (Some "10.0.0.5:47808") (Some 7) [].
Definition bound : BacnetIp.driver := fst (BacnetIp.connect (fun _ _ => Ok tt) (fun _ _ _ => Ok tt) (BacnetIp.MkDriver (Some building) false zero [])).
Definition stack : list BacnetIp.request -> BacnetIp.request -> res raw_value := fun before q =>
  if String.eqb (rq_object q) "binary-input,1" then Ok (AnyAtomic (BBinary 1)) else Raise ErrorRejectAbortNack.
Lemma bacnet_poll_reports_witness :
  exists d', BacnetIp.poll_pass stack no_text 5 [BacnetIp.MkTag "x" "10.0.0.9" "analog-input,1" None; BacnetIp.MkTag "y" "10.0.0.9" "binary-input,1" None] bound =
      (d', Ok [bad_update "bms" "x" "10.0.0.9/analog-input,1" 5 [("bacnet_error", JStr "")];
               good_update "bms" "y" "10.0.0.9/binary-input,1" 5 (VBool true) GOOD None []]) /\
    tag_read_count (bd_metrics d') = 1 /\ error_count (bd_metrics d') = 1.
Proof.
  destruct (bacnet_poll_reports stack no_text 5 [BacnetIp.MkTag "x" "10.0.0.9" "analog-input,1" None; BacnetIp.MkTag "y" "10.0.0.9" "binary-input,1" None] building bound)
    as (d' & E & _ & (R & X & _)); [reflexivity|reflexivity|reflexivity|].
  exists d'. split; [exact E|]. split; [exact R|exact X].
Defined.
End Demo.
