(* ===== verification/NorthboundServers.v ===== *)
(** * Servers of the gateway (src/xedge/northbound/opcua_server.py,
    src/xedge/northbound/snmp_agent.py, src/xedge/northbound/mqtt_broker.py)

    The OPC UA server mirrors the tags the pipeline processes, the SNMP agent
    mirrors the supervisor and the alarm engine, and the MQTT broker is amqtt
    started with a configuration built here.  The libraries' own failures are
    parameters that may depend on what was done before. *)

From Stdlib Require Import Ascii.
From S2P Require Import Prelude PyText PyFloat PyDict Connectivity Pipeline Alarms RingBuffer Supervisor MainPipeline.
Local Open Scope string_scope.
Local Open Scope list_scope.
Local Open Scope Z_scope.

(** ** OPC UA server *)

Module OpcUaServer.
Record OpcUaServerConfig := MkConfig { endpoint_url : string; server_name : string; tag_ids : list string; initial_values : dict TagValue }.
(** asyncua takes a node's type from the first value and refuses others. *)
Inductive variant := Boolean | Int64 | Double | Text | ByteString.
#[export] Instance variant_eq_dec : EqDecision variant.
Proof. solve_decision. Defined.
Definition variant_of (v : TagValue) : variant :=
  match v with VBool _ => Boolean | VInt _ => Int64 | VFloat _ => Double | VStr _ => Text | VBytes _ => ByteString end.
Inductive status := StatusGood | StatusUncertain | StatusBad.
Definition quality_to_status_code (q : Quality) : status := match q with GOOD => StatusGood | UNCERTAIN => StatusUncertain | BAD => StatusBad end.
Record node := MkNode { nd_folder : string; nd_name : string; nd_type : variant; nd_value : TagValue; nd_status : status; nd_source_timestamp : option Z }.
(** What is asked of asyncua. *)
Inductive op := Init | AddFolder (name : string) | AddVariable (folder name : string) | WriteValue (tag_id : string) | StartServer | StopServer.
Record server := MkServer {
  sv_config : OpcUaServerConfig; sv_running : bool; sv_nodes : dict node; sv_folders : list string;
  (** whether the namespace and the xEdge folder exist *)
  sv_root : bool; sv_done : list op }.
Definition new_server (c : OpcUaServerConfig) : server := MkServer c false [] [] false [].
Definition known_tag_id (c : OpcUaServerConfig) (tag_id : string) : bool :=
  bool_decide (tag_id ∈ tag_ids c) || dict_mem tag_id (initial_values c).
Definition set_node (tag_id : string) (n : node) (s : server) : server :=
  MkServer (sv_config s) (sv_running s) (dict_set tag_id n (sv_nodes s)) (sv_folders s) (sv_root s) (sv_done s).
Definition add_folder (f : string) (s : server) : server :=
  MkServer (sv_config s) (sv_running s) (sv_nodes s) (sv_folders s ++ [f]) (sv_root s) (sv_done s).
Definition set_root (s : server) : server := MkServer (sv_config s) (sv_running s) (sv_nodes s) (sv_folders s) true (sv_done s).
Definition set_running (b : bool) (s : server) : server := MkServer (sv_config s) b (sv_nodes s) (sv_folders s) (sv_root s) (sv_done s).

Section Server.
Context (library : list op -> op -> res unit).
Local Abbreviation M := (SR server).
Definition perform (o : op) : M unit := fun s =>
  (MkServer (sv_config s) (sv_running s) (sv_nodes s) (sv_folders s) (sv_root s) (sv_done s ++ [o]), library (sv_done s) o).
(** The folder and the name of a tag's node. *)
Definition place (tag_id : string) : string * string :=
  match PyText.partition "/" tag_id with
  | Some (driver_id, EmptyString) => (driver_id, tag_id)
  | Some (driver_id, tag_name) => (driver_id, tag_name)
  | None => (tag_id, tag_id)
  end.
Definition create_node (tag_id : string) (v : TagValue) : M node :=
  let! root := sget sv_root in
  if negb root then sraise OpcUaServerStateError else
  let '(driver_id, name) := place tag_id in
  let! folders := sget sv_folders in
  let! _ := if bool_decide (driver_id ∈ folders) then sret tt
            else let! _ := perform (AddFolder driver_id) in smodify (add_folder driver_id) in
  let! _ := perform (AddVariable driver_id name) in
  let n := MkNode driver_id name (variant_of v) v StatusGood None in
  let! _ := smodify (set_node tag_id n) in
  sret n.
Fixpoint create_nodes (l : dict TagValue) : M unit :=
  match l with [] => sret tt | (tag_id, v) :: l => let! _ := create_node tag_id v in create_nodes l end.
Definition start : M unit :=
  let! c := sget sv_config in
  let! _ := perform Init in
  let! _ := perform (AddFolder "xEdge") in
  let! _ := smodify set_root in
  let! _ := create_nodes (initial_values c) in
  let! _ := perform StartServer in
  smodify (set_running true).
Definition stop : M unit :=
  let! running := sget sv_running in
  if negb running then sret tt else let! _ := perform StopServer in smodify (set_running false).
Definition update_tag (tag : UnifiedTag) : M unit :=
  let! s := sget id in
  if negb (sv_running s) then sraise OpcUaServerStateError else
  let write (n : node) : M unit :=
    let! _ := perform (WriteValue (tag_id tag)) in
    if bool_decide (variant_of (value tag) = nd_type n)
    then smodify (set_node (tag_id tag) (MkNode (nd_folder n) (nd_name n) (nd_type n) (value tag) (quality_to_status_code (quality tag)) (Some (timestamp tag))))
    else sraise UaError in
  match dict_get (tag_id tag) (sv_nodes s) with
  | Some n => write n
  | None => if known_tag_id (sv_config s) (tag_id tag) then let! n := create_node (tag_id tag) (value tag) in write n else sret tt
  end.
Fixpoint update_tags (tags : list UnifiedTag) : M unit :=
  match tags with [] => sret tt | t :: ts => let! _ := update_tag t in update_tags ts end.
End Server.

(** ** What a client of the server sees *)

Lemma find_app {A} (f : A -> bool) l l' : List.find f (l ++ l') = match List.find f l with Some x => Some x | None => List.find f l' end.
Proof. induction l as [|x l IH]; simpl; [done|]. by destruct (f x). Qed.

(** The type a tag's node has once it exists. *)
Definition first_type (s : server) (tags : list UnifiedTag) (k : string) : option variant :=
  match dict_get k (sv_nodes s) with
  | Some n => Some (nd_type n)
  | None => variant_of <$> (value <$> List.find (fun t => String.eqb (tag_id t) k) tags)
  end.
(** Every update of a known tag has the type of its node. *)
Definition well_typed (s : server) (tags : list UnifiedTag) : Prop :=
  forall t, t ∈ tags -> known_tag_id (sv_config s) (tag_id t) = true -> first_type s tags (tag_id t) = Some (variant_of (value t)).
Definition shown (n : node) : TagValue * status * option Z := (nd_value n, nd_status n, nd_source_timestamp n).
Definition last_update (k : string) (tags : list UnifiedTag) : option UnifiedTag := List.find (fun t => String.eqb (tag_id t) k) (rev tags).
Definition serving (s : server) : Prop :=
  sv_running s = true /\ sv_root s = true /\ forall k, is_Some (dict_get k (sv_nodes s)) -> known_tag_id (sv_config s) k = true.
Definition reliable (library : list op -> op -> res unit) : Prop := forall l o, library l o = Ok tt.

Lemma create_node_spec library k v s : reliable library -> sv_root s = true ->
  exists s', create_node library k v s = (s', Ok (MkNode (place k).1 (place k).2 (variant_of v) v StatusGood None)) /\
    sv_config s' = sv_config s /\ sv_running s' = sv_running s /\ sv_root s' = true /\
    sv_nodes s' = dict_set k (MkNode (place k).1 (place k).2 (variant_of v) v StatusGood None) (sv_nodes s).
Proof.
  intros L R. unfold create_node. unfold sbind, sget, perform, smodify, sret. rewrite R. cbn [negb]. destruct (place k) as [f n]. cbn [fst snd].
  case_bool_decide; rewrite !L; eexists; by split_and!.
Qed.
Lemma update_tag_spec library t s : reliable library -> serving s -> 
  (known_tag_id (sv_config s) (tag_id t) = true -> first_type s [t] (tag_id t) = Some (variant_of (value t))) ->
  exists s', update_tag library t s = (s', Ok tt) /\ serving s' /\ sv_config s' = sv_config s /\
    (forall k, k <> tag_id t -> dict_get k (sv_nodes s') = dict_get k (sv_nodes s)) /\
    (if known_tag_id (sv_config s) (tag_id t)
     then exists n, dict_get (tag_id t) (sv_nodes s') = Some n /\ shown n = (value t, quality_to_status_code (quality t), Some (timestamp t)) /\
            nd_type n = variant_of (value t)
     else sv_nodes s' = sv_nodes s).
Proof.
  intros L (R & Root & Known) T. unfold update_tag. unfold sbind at 1. cbn [sget id]. rewrite R. cbn [negb].
  assert (forall s1 n, sv_config s1 = sv_config s -> sv_running s1 = true -> sv_root s1 = true -> nd_type n = variant_of (value t) ->
    known_tag_id (sv_config s) (tag_id t) = true ->
    (forall k, k <> tag_id t -> dict_get k (sv_nodes s1) = dict_get k (sv_nodes s)) ->
    exists s', (let! _ := perform library (WriteValue (tag_id t)) in
      if bool_decide (variant_of (value t) = nd_type n)
      then smodify (set_node (tag_id t) (MkNode (nd_folder n) (nd_name n) (nd_type n) (value t) (quality_to_status_code (quality t)) (Some (timestamp t))))
      else sraise UaError) s1 = (s', Ok tt) /\ serving s' /\ sv_config s' = sv_config s /\
      (forall k, k <> tag_id t -> dict_get k (sv_nodes s') = dict_get k (sv_nodes s)) /\
      exists n, dict_get (tag_id t) (sv_nodes s') = Some n /\ shown n = (value t, quality_to_status_code (quality t), Some (timestamp t)) /\
            nd_type n = variant_of (value t)) as W.
  { intros s1 n C1 R1 Rt1 N K O. unfold sbind, perform. rewrite L, N, bool_decide_eq_true_2 by done. eexists. split; [done|]. simpl.
    split; [split; [done|]; split; [done|]|]; simpl.
    - intros k. rewrite dict_get_set. rewrite C1. destruct (decide (k = tag_id t)) as [->|]; [done|]. rewrite O by done. apply Known.
    - split; [done|]. split; [intros k Nk; rewrite dict_get_set_ne by done; by apply O|]. rewrite dict_get_set_eq. by eexists. }
  unfold first_type in T. destruct (dict_get (tag_id t) (sv_nodes s)) as [n|] eqn:G.
  - assert (known_tag_id (sv_config s) (tag_id t) = true) as K by (apply Known; rewrite G; by eexists). specialize (T K). injection T as T.
    rewrite K. by apply W.
  - simpl in T. destruct (known_tag_id (sv_config s) (tag_id t)) eqn:K; [|eexists; split; [done|]; split; [done|done]].
    destruct (create_node_spec library (tag_id t) (value t) s L Root) as (s1 & E & C1 & R1 & Rt1 & N1). unfold sbind at 1. rewrite E.
    apply W; try done; [by rewrite R1|]. intros k Nk. by rewrite N1, dict_get_set_ne.
Qed.

(** C37: The server mirrors the pipeline: over any updates whose types agree with
    their nodes, every write succeeds, each configured tag shows the value,
    status and source time of its last update, other nodes are untouched, and
    a tag outside the configured set never gets a node. *)
Theorem opcua_server_mirrors library tags s : reliable library -> serving s -> well_typed s tags ->
  exists s', update_tags library tags s = (s', Ok tt) /\ serving s' /\
    forall k, match last_update k tags with
              | Some t => if known_tag_id (sv_config s) k
                          then exists n, dict_get k (sv_nodes s') = Some n /\ shown n = (value t, quality_to_status_code (quality t), Some (timestamp t))
                          else dict_get k (sv_nodes s') = None
              | None => dict_get k (sv_nodes s') = dict_get k (sv_nodes s)
              end.
Proof.
  intros L. revert s. induction tags as [|t tags IH]; intros s S T; [by exists s|].
  destruct (update_tag_spec library t s L S) as (s1 & E & S1 & C1 & O & N).
  { intros K. specialize (T t ltac:(by left) K). unfold first_type in *. destruct (dict_get _ _); [done|]. simpl in *. by rewrite String.eqb_refl in *. }
  assert (well_typed s1 tags) as T1.
  { intros t' I K. rewrite C1 in K. pose proof (T t' ltac:(by right) K) as T'. unfold first_type in *. destruct (decide (tag_id t' = tag_id t)) as [Q|Q].
    - rewrite Q in *. rewrite K in N. destruct N as (n & -> & _ & ->). rewrite <- T'. symmetry. apply T; [by left|done].
    - rewrite O by done. destruct (dict_get (tag_id t') (sv_nodes s)); [done|]. simpl in T'. by rewrite (proj2 (String.eqb_neq (tag_id t) (tag_id t'))) in T'. }
  destruct (IH s1 S1 T1) as (s' & E' & S' & R). exists s'. cbn [update_tags]. rewrite (sbind_ok _ _ _ _ _ E). split; [done|]. split; [done|].
  intros k. specialize (R k). rewrite C1 in R. unfold last_update in *. cbn [rev]. rewrite find_app.
  destruct (List.find _ (rev tags)) as [x|]; [exact R|]. simpl. destruct (String.eqb (tag_id t) k) eqn:Q.
  - apply String.eqb_eq in Q as <-. rewrite R. destruct (known_tag_id (sv_config s) (tag_id t)) eqn:K.
    + destruct N as (n & G & H & _). by exists n.
    + rewrite N. destruct S as (_ & _ & Known). destruct (dict_get (tag_id t) (sv_nodes s)) eqn:G; [|done].
      rewrite Known in K; [done|]. rewrite G. by eexists.
  - apply String.eqb_neq in Q. by rewrite R, O.
Qed.
End OpcUaServer.

(** ** The pipeline with a server *)

Section Served.
Context {S : Type} (tag_configs : dict TagPipelineConfig) (library : list OpcUaServer.op -> OpcUaServer.op -> res unit).
(** [_pipeline_to_buffer] writes to the server after the alarm engine and
    before anything else; what the server raises ends the consumer. *)
Definition process_served (update : TagUpdate) (sc : OpcUaServer.server * consumer (S := S)) : OpcUaServer.server * consumer :=
  let '(sv, c) := sc in
  match normalize update (dict_get (tu_tag_id update) tag_configs) with
  | Raise e => (sv, die e c)
  | Ok tag =>
      let '(alarms, r) := match p_alarms c with None => (None, Ok tag) | Some a => let '(a, r) := evaluate a tag in (Some a, r) end in
      match r with
      | Raise e => (sv, process tag_configs update c)
      | Ok tag =>
          match OpcUaServer.update_tag library tag sv with
          | (sv, Ok _) => (sv, process tag_configs update c)
          | (sv, Raise e) =>
              (sv, die e {| p_filter := p_filter c; p_alarms := alarms; p_latest := p_latest c; p_ring := p_ring c; p_cold := p_cold c;
                            p_pending := None; p_dead := p_dead c |})
          end
      end
  end.
End Served.

(** ** SNMP agent *)

Module SnmpAgent.
Record SnmpAgentConfig := MkConfig { ag_enabled : bool; ag_host : string; ag_port : Z; ag_community : string }.
Definition DEFAULT_PORT : Z := 161.
(** A row of the driver table: type, state and connectivity. *)
Record row := MkRow { row_type : string; row_state : DriverState; row_connectivity : ConnectivityState }.
Definition row_of (s : DriverInstanceStatus) : row := MkRow (st_driver_type s) (st_state s) (connectivity_state s).
(** The agent's MIB: the active rows and the alarm counters; the number of
    writes made so far. *)
Record agent := MkAgent {
  ag_running : bool; ag_known : gset string; ag_rows : gmap string row; ag_counts : AlarmState -> Z; ag_writes : nat }.
Definition new_agent : agent := MkAgent false ∅ ∅ (fun _ => 0) 0.
Definition alarm_states : list AlarmState := [NORMAL; ACTIVE; ACTIVE_ACKED].

Section Agent.
(** How pysnmp ends a write besides the row status machine, and the order in
    which a set is iterated. *)
Context (mib : nat -> string -> res unit) (order : gset string -> list string).
Local Abbreviation M := (SR agent).
Definition write_variables (instance_id : string) (change : gmap string row -> res (gmap string row)) : M unit := fun a =>
  let a := MkAgent (ag_running a) (ag_known a) (ag_rows a) (ag_counts a) (S (ag_writes a)) in
  match mib (ag_writes a) instance_id with
  | Raise e => (a, Raise e)
  | Ok _ => match change (ag_rows a) with
            | Raise e => (a, Raise e)
            | Ok rows => (MkAgent (ag_running a) (ag_known a) rows (ag_counts a) (ag_writes a), Ok tt)
            end
  end.
(** [createAndGo] is no transition of a row that exists (RFC 2579). *)
Definition create_driver_row (i : string) (s : DriverInstanceStatus) : M unit :=
  write_variables i (fun rows => match rows !! i with Some _ => Raise InconsistentValueError | None => Ok (<[i := row_of s]> rows) end).
Definition update_driver_row (i : string) (s : DriverInstanceStatus) : M unit := write_variables i (fun rows => Ok (<[i := row_of s]> rows)).
Definition remove_driver_row (i : string) : M unit := write_variables i (fun rows => Ok (delete i rows)).
Fixpoint each (f : string -> M unit) (l : list string) : M unit :=
  match l with [] => sret tt | x :: l => let! _ := f x in each f l end.
Definition on_status (current : gmap string DriverInstanceStatus) (f : string -> DriverInstanceStatus -> M unit) (i : string) : M unit :=
  match current !! i with Some s => f i s | None => sraise KeyError end.
Definition count_state (statuses : list AlarmStatus) (s : AlarmState) : Z := zlen (List.filter (fun a => bool_decide (as_state a = s)) statuses).
Definition sync_alarm_counts (statuses : list AlarmStatus) : M unit :=
  smodify (fun a => MkAgent (ag_running a) (ag_known a) (ag_rows a) (count_state statuses) (ag_writes a)).
Definition sync_once (current : gmap string DriverInstanceStatus) (alarms : list AlarmStatus) : M unit :=
  let current_ids : gset string := dom current in
  let! known := sget ag_known in
  let! _ := each (on_status current create_driver_row) (order (current_ids ∖ known)) in
  let! _ := each (on_status current update_driver_row) (order (current_ids ∩ known)) in
  let! _ := each remove_driver_row (order (known ∖ current_ids)) in
  let! _ := smodify (fun a => MkAgent (ag_running a) current_ids (ag_rows a) (ag_counts a) (ag_writes a)) in
  sync_alarm_counts alarms.
(** A turn of [_sync_loop]: a failure is logged. *)
Definition sync_turn (current : gmap string DriverInstanceStatus) (alarms : list AlarmStatus) (a : agent) : agent := fst (sync_once current alarms a).
(** [start] registers new objects, without rows and with all counters at 0;
    the instance ids known so far stay. *)
Definition start (opened : res unit) : M unit :=
  let! running := sget ag_running in
  if (running : bool) then sraise SnmpAgentStateError else
  let! _ := slift opened in
  smodify (fun a => MkAgent true (ag_known a) ∅ (fun _ => 0) (ag_writes a)).
Definition stop : M unit := smodify (fun a => MkAgent false (ag_known a) (ag_rows a) (ag_counts a) (ag_writes a)).
End Agent.

(** ** The table follows the supervisor *)

Section Follows.
Context (mib : nat -> string -> res unit) (order : gset string -> list string).
Definition with_rows (rows : gmap string row) (n : nat) (a : agent) : agent := MkAgent (ag_running a) (ag_known a) rows (ag_counts a) n.
(** A step that sets one row, given that row as it was. *)
Lemma each_sets (f : string -> SR agent unit) (new : string -> option row) l : NoDup l -> forall a,
  (forall x b, x ∈ l -> ag_rows b !! x = ag_rows a !! x ->
     exists n rows, f x b = (with_rows rows n b, Ok tt) /\ rows !! x = new x /\ forall k, k <> x -> rows !! k = ag_rows b !! k) ->
  exists n rows, each f l a = (with_rows rows n a, Ok tt) /\ forall k, rows !! k = if decide (k ∈ l) then new k else ag_rows a !! k.
Proof.
  induction 1 as [|x l N D IH]; intros a F; [exists (ag_writes a), (ag_rows a); split; [by destruct a|done]|].
  destruct (F x a) as (n1 & rows1 & E1 & X & O); [by left|done|].
  destruct (IH (with_rows rows1 n1 a)) as (n & rows & E & R).
  { intros y b Y G. apply F; [by right|]. rewrite G. simpl. apply O. by intros ->. }
  exists n, rows. cbn [each]. rewrite (sbind_ok _ _ _ _ _ E1). split; [exact E|]. intros k. rewrite R. simpl.
  destruct (decide (k = x)) as [->|Nk]; [by rewrite decide_False, decide_True by (done || by left)|].
  destruct (decide (k ∈ l)); [rewrite decide_True by (by right); done|]. rewrite decide_False by (rewrite elem_of_cons; naive_solver). by apply O.
Qed.
Hypothesis mib_ok : forall n i, mib n i = Ok tt.
Hypothesis order_perm : forall s, order s ≡ₚ elements s.
Lemma order_nodup s : NoDup (order s).
Proof. rewrite order_perm. apply NoDup_elements. Qed.
Lemma order_elem s k : k ∈ order s <-> k ∈ s.
Proof. by rewrite order_perm, elem_of_elements. Qed.
(** The agent mirrors the gateway: after a turn whose writes succeed, the table
    holds one row per driver instance, with its type, state and connectivity
    as the supervisor reports them, the counters count the alarms in each
    state, and the agent knows the rows it has, so the next turn starts
    likewise. *)
Theorem agent_follows_supervisor current alarms a : ag_known a = dom (ag_rows a) ->
  exists a', sync_once mib order current alarms a = (a', Ok tt) /\
    ag_rows a' = row_of <$> current /\ ag_known a' = dom (ag_rows a') /\ forall s, ag_counts a' s = count_state alarms s.
Proof.
  intros K. unfold sync_once. unfold sbind at 1, sget.
  destruct (each_sets (on_status current (create_driver_row mib)) (fun k => row_of <$> current !! k) (order (dom current ∖ ag_known a)) (order_nodup _) a) as (n1 & rows1 & E1 & R1).
  { intros x b X G. apply order_elem in X as [X Y]%elem_of_difference. apply elem_of_dom in X as [st St]. rewrite K in Y. apply not_elem_of_dom in Y. rewrite Y in G.
    unfold on_status. rewrite St. unfold create_driver_row, write_variables. simpl. rewrite mib_ok, G. eexists _, _. split; [done|].
    split; [by rewrite lookup_insert_eq|]. intros k N. by rewrite lookup_insert_ne. }
  rewrite (sbind_ok _ _ _ _ _ E1).
  destruct (each_sets (on_status current (update_driver_row mib)) (fun k => row_of <$> current !! k) (order (dom current ∩ ag_known a)) (order_nodup _) (with_rows rows1 n1 a)) as (n2 & rows2 & E2 & R2).
  { intros x b X _. apply order_elem in X as [X Y]%elem_of_intersection. apply elem_of_dom in X as [st St].
    unfold on_status. rewrite St. unfold update_driver_row, write_variables. simpl. rewrite mib_ok. eexists _, _. split; [done|].
    split; [by rewrite lookup_insert_eq|]. intros k N. by rewrite lookup_insert_ne. }
  rewrite (sbind_ok _ _ _ _ _ E2).
  destruct (each_sets (remove_driver_row mib) (fun _ => None) (order (ag_known a ∖ dom current)) (order_nodup _) (with_rows rows2 n2 (with_rows rows1 n1 a))) as (n3 & rows3 & E3 & R3).
  { intros x b X _. unfold remove_driver_row, write_variables. simpl. rewrite mib_ok. eexists _, _. split; [done|].
    split; [by rewrite lookup_delete_eq|]. intros k N. by rewrite lookup_delete_ne. }
  rewrite (sbind_ok _ _ _ _ _ E3). eexists. split; [reflexivity|]. simpl.
  assert (rows3 = row_of <$> current) as ->; [|split; [done|]; split; [by rewrite dom_fmap_L|done]].
  apply map_eq. intros k. rewrite R3. simpl. rewrite R2. simpl. rewrite R1, lookup_fmap.
  assert (forall s (x y : option row), (if decide (k ∈ order s) then x else y) = if decide (k ∈ s) then x else y) as DE by (intros; apply decide_ext, order_elem).
  rewrite !DE.
  destruct (current !! k) as [st|] eqn:C.
  - assert (k ∈ dom current) as D by by apply elem_of_dom_2 in C. rewrite decide_False by set_solver.
    destruct (decide (k ∈ ag_known a)); [by rewrite decide_True by set_solver|]. by rewrite decide_False, decide_True by set_solver.
  - apply not_elem_of_dom in C. destruct (decide (k ∈ ag_known a)) as [Y|Y]; [by rewrite decide_True by set_solver|].
    rewrite !decide_False by set_solver. rewrite K in Y. by apply not_elem_of_dom in Y.
Qed.
End Follows.
End SnmpAgent.

(** ** MQTT broker *)

Module MqttBroker.
Record BrokerUserCredential := MkUser { username : string; password : string }.
Record MqttBrokerConfig := MkConfig {
  mb_host : string; mb_port : Z; mb_tls_enabled : bool; mb_tls_certfile_path : option string; mb_tls_keyfile_path : option string;
  mb_allow_anonymous : bool; mb_users : list BrokerUserCredential; mb_publish_acl : dict (list string); mb_subscribe_acl : dict (list string) }.
(** The plugins and the listener amqtt is started with. *)
Inductive plugin :=
  | EventLogger
  | BrokerSys (sys_interval : Z)
  | AnonymousAuth (allow_anonymous : bool)
  | FileAuth (password_file : string)
  | TopicAcl (publish_acl acl : dict (list string)).
Record listener := MkListener { ls_bind : string; ls_ssl : option (string * string) }.
Definition BASE_PLUGINS : list plugin := [EventLogger; BrokerSys 20].
(** The service: whether a broker runs, the password file's lines, and what the
    running broker was started with. *)
Record service := MkService {
  bs_config : MqttBrokerConfig; bs_password_file_path : string; bs_broker : option (listener * list plugin); bs_file : option (list string) }.
Definition new_service (c : MqttBrokerConfig) (path : string) : service := MkService c path None None.
Definition set_broker (b : option (listener * list plugin)) (s : service) : service := MkService (bs_config s) (bs_password_file_path s) b (bs_file s).

Section Service.
(** passlib's hash, amqtt's start, and whether its shutdown ends in time. *)
Context (hash : string -> string) (port_text : Z -> string) (broker_start : listener -> list plugin -> res unit).
Local Abbreviation M := (SR service).
Definition user_line (u : BrokerUserCredential) : string := username u ++ ":" ++ hash (password u).
Definition write_password_file (users : list BrokerUserCredential) : M unit :=
  smodify (fun s => MkService (bs_config s) (bs_password_file_path s) (bs_broker s) (Some (map user_line users))).
Definition nonempty (o : option string) : option string := match o with Some (String _ _ as s) => Some s | _ => None end.
Definition build_listener (c : MqttBrokerConfig) : res listener :=
  let bind := (mb_host c ++ ":" ++ port_text (mb_port c))%string in
  if mb_tls_enabled c then
    match nonempty (mb_tls_certfile_path c), nonempty (mb_tls_keyfile_path c) with
    | Some cert, Some key => Ok (MkListener bind (Some (cert, key)))
    | _, _ => Raise ValueError
    end
  else Ok (MkListener bind None).
Definition is_nil {A} (l : list A) : bool := match l with [] => true | _ => false end.
Definition acl_plugins (c : MqttBrokerConfig) : list plugin :=
  if is_nil (mb_publish_acl c) && is_nil (mb_subscribe_acl c) then [] else [TopicAcl (mb_publish_acl c) (mb_subscribe_acl c)].
Definition start : M unit :=
  let! s := sget id in
  match bs_broker s with
  | Some _ => sraise MqttBrokerStateError
  | None =>
      let c := bs_config s in
      let! l := slift (build_listener c) in
      let! auth := if mb_allow_anonymous c then sret (AnonymousAuth true)
                   else let! _ := write_password_file (mb_users c) in sret (FileAuth (bs_password_file_path s)) in
      let plugins := BASE_PLUGINS ++ [auth] ++ acl_plugins c in
      let! _ := slift (broker_start l plugins) in
      smodify (set_broker (Some (l, plugins)))
  end.
(** A shutdown that hangs is given up on; another error passes through. *)
Definition stop (shutdown : res unit) : M unit :=
  let! b := sget bs_broker in
  match b with
  | None => sret tt
  | Some _ => let! _ := slift (match shutdown with Raise TimeoutError => Ok tt | r => r end) in smodify (set_broker None)
  end.
Definition is_running (s : service) : bool := match bs_broker s with Some _ => true | None => false end.

(** Whoever connects to a broker that runs was checked: exactly one
    authentication plugin is loaded, the anonymous one only if the
    configuration asks for it, otherwise the file of hashed passwords, which
    holds one line per configured user; with TLS the listener has a
    certificate and a key. *)
Theorem broker_authenticates s s' r : bs_broker s = None -> start s = (s', r) ->
  (forall b, bs_broker s' = Some b ->
     r = Ok tt /\
     List.filter (fun p => match p with AnonymousAuth _ | FileAuth _ => true | _ => false end) (snd b) =
       [if mb_allow_anonymous (bs_config s) then AnonymousAuth true else FileAuth (bs_password_file_path s)] /\
     (mb_allow_anonymous (bs_config s) = false -> bs_file s' = Some (map user_line (mb_users (bs_config s)))) /\
     (mb_tls_enabled (bs_config s) = true -> is_Some (ls_ssl (fst b)))) /\
  (is_running s' = false -> exists e, r = Raise e).
Proof.
  intros B. unfold start. unfold sbind at 1, sget. cbn [id]. rewrite B. unfold sbind at 1, slift.
  destruct (build_listener (bs_config s)) as [l|e] eqn:L; [|intros [= <- <-]; rewrite B; split; [done|by eexists]].
  assert (mb_tls_enabled (bs_config s) = true -> is_Some (ls_ssl l)) as TLS.
  { intros T. unfold build_listener in L. rewrite T in L. repeat (case_match; try done). injection L as <-. by eexists. }
  assert (forall a, List.filter (fun p => match p with AnonymousAuth _ | FileAuth _ => true | _ => false end) (BASE_PLUGINS ++ [a] ++ acl_plugins (bs_config s)) =
    (match a with AnonymousAuth _ | FileAuth _ => [a] | _ => [] end)) as Auth.
  { intros a. rewrite !List.filter_app. unfold acl_plugins. destruct (_ && _); destruct a; done. }
  unfold sbind, sret, write_password_file, smodify. destruct (mb_allow_anonymous (bs_config s)) eqn:A.
  - destruct (broker_start l _) as [[]|e] eqn:S; intros [= <- <-]; simpl; [|rewrite B; split; [done|by eexists]]. split; [|done]. intros b [= <-]. split_and!; try done. apply (Auth (AnonymousAuth true)).
  - destruct (broker_start l _) as [[]|e] eqn:S; intros [= <- <-]; simpl; [|rewrite B; split; [done|by eexists]]. split; [|done]. intros b [= <-]. split_and!; try done. apply (Auth (FileAuth (bs_password_file_path s))).
Qed.
End Service.
End MqttBroker.

(** ** Examples *)

Module ServerDemo.
Definition works : list OpcUaServer.op -> OpcUaServer.op -> res unit := fun _ _ => Ok tt.
Definition entries : list DriverEntry :=
  [{| de_id := "plc"; de_type := Some "modbus_tcp";
      de_tag_groups := Some [Some [{| mt_id := "flow"; mt_function_code := Some "read_holding_registers"; mt_scaled := false |}]] |};
   {| de_id := "ua"; de_type := Some "opcua_client"; de_tag_groups := Some [Some [{| mt_id := "x"; mt_function_code := None; mt_scaled := false |}]] |}].
Definition server0 : OpcUaServer.server :=
  fst (OpcUaServer.start works (OpcUaServer.new_server (OpcUaServer.MkConfig "opc.tcp://0.0.0.0:4840" "xEdge" (elements (all_tag_ids entries)) (infer_tag_initial_values entries)))).
Definition update (driver name : string) (v : TagValue) (q : Quality) : TagUpdate :=
  {| tu_tag_id := driver ++ "/" ++ name; tu_timestamp := 1; tu_value := v; tu_quality := q; tu_source_driver := driver; tu_source_address := "0";
     tu_source_timestamp := None; tu_metadata := [] |}.
Definition idle : consumer (S := unit) :=
  {| p_filter := ∅; p_alarms := None; p_latest := []; p_ring := make_manager 10; p_cold := tt; p_pending := None; p_dead := None |}.
(** An unscaled floating-point register is given an integer node: its first
    reading is refused by the server and ends the consumer of every driver. *)
Example float_register_ends_pipeline :
  p_dead (snd (process_served [] works (update "plc" "flow" (VFloat fzero) GOOD) (server0, idle))) = Some UaError.
Proof. vm_compute. reflexivity. Qed.
(** So does a Bad reading of a tag that is no integer, for the drivers that
    report [0] for it. *)
Example bad_reading_ends_pipeline :
  let sc := process_served [] works (update "ua" "x" (VFloat fzero) GOOD) (server0, idle) in
  p_dead (snd sc) = None /\ p_dead (snd (process_served [] works (update "ua" "x" (VInt 0) BAD) sc)) = Some UaError.
Proof. vm_compute. split; reflexivity. Qed.

Definition sample (k : string) (v : TagValue) (q : Quality) (t : Z) : UnifiedTag :=
  {| tag_id := k; timestamp := t; value := v; data_type := data_type_name v; quality := q; source_driver := "plc"; source_address := "0";
     engineering_unit := None; is_alarm := false; metadata := [] |}.
Definition samples : list UnifiedTag := [sample "plc/flow" (VInt 1) GOOD 1; sample "nobody/x" (VInt 2) GOOD 2; sample "plc/flow" (VInt 3) BAD 3].
Lemma opcua_server_mirrors_witness :
  exists s', OpcUaServer.update_tags works samples server0 = (s', Ok tt) /\
    (exists n, dict_get "plc/flow" (OpcUaServer.sv_nodes s') = Some n /\ OpcUaServer.shown n = (VInt 3, OpcUaServer.StatusBad, Some 3)) /\
    dict_get "nobody/x" (OpcUaServer.sv_nodes s') = None.
Proof.
  destruct (OpcUaServer.opcua_server_mirrors works samples server0) as (s' & E & _ & R).
  - intros l o. reflexivity.
  - split; [reflexivity|]. split; [reflexivity|]. intros k [n G].
    assert (k ∈ dict_keys (OpcUaServer.sv_nodes server0)) as I by (destruct (decide (k ∈ dict_keys (OpcUaServer.sv_nodes server0))) as [I|N]; [exact I|apply dict_get_none in N; congruence]).
    change (dict_keys (OpcUaServer.sv_nodes server0)) with (dict_keys (infer_tag_initial_values entries)) in I.
    unfold OpcUaServer.known_tag_id. apply orb_true_iff. right. unfold dict_mem.
    change (OpcUaServer.initial_values (OpcUaServer.sv_config server0)) with (infer_tag_initial_values entries).
    destruct (dict_get k (infer_tag_initial_values entries)) eqn:D; [reflexivity|]. apply dict_get_none in D. contradiction.
  - intros t I K. unfold samples in I. repeat (apply elem_of_cons in I as [-> | I]; [vm_compute; vm_compute in K; congruence || reflexivity|]).
    apply elem_of_nil in I. contradiction.
  - exists s'. split; [exact E|]. split; [exact (R "plc/flow")|exact (R "nobody/x")].
Defined.

Definition status_of (i : string) : DriverInstanceStatus :=
  {| st_instance_id := i; st_driver_type := "loopback"; st_state := RUNNING; Supervisor.consecutive_failures := 0; last_error := None; st_metrics := no_metrics;
     tag_count := 1; state_changed_at := 0; connectivity_state := UNKNOWN |}.
Definition drivers : gmap string DriverInstanceStatus := {["a" := status_of "a"; "b" := status_of "b"]}.
Fixpoint turns (mib : nat -> string -> res unit) (n : nat) (a : SnmpAgent.agent) : SnmpAgent.agent :=
  match n with O => a | S n => turns mib n (SnmpAgent.sync_turn mib elements drivers [] a) end.
(** A single write that fails while rows are created stops the table for good:
    the rows created before it are not remembered, and creating them again is
    refused on every later turn, before any row or counter is updated. *)
Example one_failed_write_stops_agent :
  let once n (_ : string) := if Nat.eqb n 2 then Raise PySnmpError else Ok tt in
  let a := turns once 1 SnmpAgent.new_agent in
  size (SnmpAgent.ag_rows a) = 1%nat /\ SnmpAgent.ag_known a = ∅ /\
  snd (SnmpAgent.sync_once once elements drivers [] (turns once 10 a)) = Raise InconsistentValueError /\
  SnmpAgent.ag_rows (turns once 10 a) = SnmpAgent.ag_rows a.
Proof. vm_compute. split_and!; reflexivity. Qed.
Lemma agent_follows_supervisor_witness :
  exists a', SnmpAgent.sync_once (fun _ _ => Ok tt) elements drivers [fresh_status] SnmpAgent.new_agent = (a', Ok tt) /\
    SnmpAgent.ag_rows a' = SnmpAgent.row_of <$> drivers /\ SnmpAgent.ag_known a' = dom (SnmpAgent.ag_rows a') /\
    forall s, SnmpAgent.ag_counts a' s = SnmpAgent.count_state [fresh_status] s.
Proof.
  apply (SnmpAgent.agent_follows_supervisor (fun _ _ => Ok tt) elements); [intros n i; reflexivity|intros s; reflexivity|].
  symmetry. apply dom_empty_L.
Defined.

Definition broker : MqttBroker.service :=
  MqttBroker.new_service (MqttBroker.MkConfig "0.0.0.0" 1883 false None None false [MqttBroker.MkUser "scada" "pw"] [] []) "/data/mqtt-broker/passwords".
Lemma broker_authenticates_witness :
  let s' := fst (MqttBroker.start (fun _ => "$6$") (fun _ => "1883") (fun _ _ => Ok tt) broker) in
  MqttBroker.is_running s' = true /\ MqttBroker.bs_file s' = Some ["scada:$6$"].
Proof.
  intros s'. destruct (MqttBroker.broker_authenticates (fun _ => "$6$") (fun _ => "1883") (fun _ _ => Ok tt) broker s' (Ok tt) eq_refl eq_refl) as [A _].
  split; [reflexivity|]. destruct (A _ eq_refl) as (_ & _ & F & _). exact (F eq_refl).
Defined.
End ServerDemo.
