(* ===== verification/AppMain.v ===== *)
(** * The gateway process (src/xedge/core/main.py)

    What each optional part is built from, which tasks and services
    [async_main] starts, and how it takes them down.  A configuration section
    is a record of its keys, a missing one [None]; the parts themselves are
    modelled in their own files, and the process as the list of its actions. *)

From Stdlib Require Import Ascii.
From S2P Require Import Prelude PyText PyFloat PyDict Pipeline Assets MainPipeline Notifications NorthboundServers.
Local Open Scope string_scope.
Local Open Scope list_scope.
Local Open Scope Z_scope.

(** ** Paths *)

Definition DEFAULT_DATA_DIR : string := "/data".
Definition under (dir name : string) : string := dir ++ "/" ++ name.
Record DataPaths := MkPaths { data_dir : string; store_dir : string; config_history : string; webui : string; fleet_dir : string }.
Definition make_paths (data_dir : string) (store_directory history_directory : option string) : DataPaths :=
  MkPaths data_dir (default (under data_dir "store") store_directory) (default (under data_dir "config-history") history_directory)
    (under data_dir "webui") (under data_dir "fleet").
Definition fleet_device_token (p : DataPaths) : string := under (fleet_dir p) "device_token".
Definition fleet_device_cert (p : DataPaths) : string := under (fleet_dir p) "device-cert.pem".
Definition fleet_device_key (p : DataPaths) : string := under (fleet_dir p) "device-key.pem".
Definition fleet_ca_certificate (p : DataPaths) : string := under (fleet_dir p) "ca.pem".
Definition mqtt_broker_password_file (p : DataPaths) : string := under (under (data_dir p) "mqtt-broker") "passwords".
Definition paths_from_config (data_dir store_directory history_directory : option string) : DataPaths :=
  make_paths (default DEFAULT_DATA_DIR data_dir) (truthy_text store_directory) (truthy_text history_directory).

(** ** The optional parts *)

Record RawOpcUaServer := MkRawOpcUa { ro_enabled : option bool; ro_endpoint_url : option string; ro_server_name : option string }.
Definition build_opcua_server (r : RawOpcUaServer) (drivers : list DriverEntry) : option OpcUaServer.server :=
  if negb (default false (ro_enabled r)) then None else
  match truthy_text (ro_endpoint_url r) with
  | None => None
  | Some url => Some (OpcUaServer.new_server (OpcUaServer.MkConfig url (default "xEdge" (ro_server_name r)) (elements (all_tag_ids drivers))
                        (infer_tag_initial_values drivers)))
  end.

Record RawBrokerUser := MkRawUser { ru_username : option string; ru_password : option string }.
Record RawBroker := MkRawBroker {
  rb_enabled : option bool; rb_host : option string; rb_port : option Z; rb_tls_enabled : option bool; rb_tls_certfile_path : option string;
  rb_tls_keyfile_path : option string; rb_allow_anonymous : option bool; rb_users : option (list RawBrokerUser);
  rb_publish_acl : option (dict (list string)); rb_subscribe_acl : option (dict (list string)) }.
Definition build_broker_user (u : RawBrokerUser) : res MqttBroker.BrokerUserCredential :=
  let* n := required (ru_username u) in let* p := required (ru_password u) in Ok (MqttBroker.MkUser n p).
Definition build_mqtt_broker (r : RawBroker) (password_file_path : string) : res (option MqttBroker.service) :=
  if negb (default false (rb_enabled r)) then Ok None else
  let* users := mapM_res build_broker_user (default [] (rb_users r)) in
  Ok (Some (MqttBroker.new_service
    (MqttBroker.MkConfig (default "0.0.0.0" (rb_host r)) (default 1883 (rb_port r)) (default false (rb_tls_enabled r)) (rb_tls_certfile_path r)
       (rb_tls_keyfile_path r) (default false (rb_allow_anonymous r)) users (default [] (rb_publish_acl r)) (default [] (rb_subscribe_acl r)))
    password_file_path)).

Record RawSnmpAgent := MkRawAgent { ra_enabled : option bool; ra_host : option string; ra_port : option Z; ra_community : option string }.
Definition build_snmp_agent (r : RawSnmpAgent) : option SnmpAgent.SnmpAgentConfig :=
  if negb (default false (ra_enabled r)) then None
  else Some (SnmpAgent.MkConfig true (default "0.0.0.0" (ra_host r)) (default 161 (ra_port r)) (default "public" (ra_community r))).

Record FleetAgentConfig := MkFleet {
  fa_manager_url : string; fa_device_manager_url : string; fa_device_id : string; fa_join_token : string; fa_display_name : option string;
  fa_heartbeat_interval : num; fa_verify_tls : bool; fa_cert_rotation_threshold_days : num }.
Record RawFleet := MkRawFleet {
  rf_enabled : option bool; rf_manager_url : option string; rf_device_manager_url : option string; rf_device_id : option string;
  rf_join_token : option string; rf_display_name : option string; rf_heartbeat_interval : option num; rf_verify_tls : option bool;
  rf_cert_rotation_threshold_days : option num }.
(** An incomplete section is logged and leaves the agent off. *)
Definition build_fleet_agent_config (r : RawFleet) : option FleetAgentConfig :=
  if negb (default false (rf_enabled r)) then None else
  match truthy_text (rf_manager_url r), truthy_text (rf_device_manager_url r), truthy_text (rf_device_id r), truthy_text (rf_join_token r) with
  | Some url, Some device_url, Some device_id, Some token =>
      Some (MkFleet url device_url device_id token (rf_display_name r) (default (NInt 60) (rf_heartbeat_interval r)) (default true (rf_verify_tls r))
              (default (NInt 30) (rf_cert_rotation_threshold_days r)))
  | _, _, _, _ => None
  end.

(** What the two MQTT connectors share. *)
Record MqttSettings := MkMqtt {
  mq_host : string; mq_port : Z; mq_client_id : string; mq_keepalive_seconds : num; mq_connect_timeout_seconds : num; mq_qos : Z;
  mq_username : option string; mq_password : option string; mq_tls_enabled : bool; mq_tls_ca_certs_path : option string;
  mq_tls_certfile_path : option string; mq_tls_keyfile_path : option string; mq_tls_insecure : bool }.
Record RawMqtt := MkRawMqtt {
  rm_publisher_type : option string; rm_host : option string; rm_port : option Z; rm_client_id : option string; rm_keepalive_seconds : option num;
  rm_connect_timeout_seconds : option num; rm_qos : option Z; rm_username : option string; rm_password : option string; rm_tls_enabled : option bool;
  rm_tls_ca_certs_path : option string; rm_tls_certfile_path : option string; rm_tls_keyfile_path : option string; rm_tls_insecure : option bool;
  rm_group_id : option string; rm_edge_node_id : option string; rm_generic_json_retain : option bool; rm_generic_json_topic_template : option string;
  rm_generic_json_payload_mode : option string; rm_generic_json_include_timestamp : option bool; rm_generic_json_include_quality : option bool;
  rm_generic_json_field_names : option (dict string) }.
Definition mqtt_settings (r : RawMqtt) : res MqttSettings :=
  let* host := required (rm_host r) in
  Ok (MkMqtt host (default 1883 (rm_port r)) (default "" (rm_client_id r)) (default (NInt 60) (rm_keepalive_seconds r))
    (default (NInt 10) (rm_connect_timeout_seconds r)) (default 1 (rm_qos r)) (rm_username r) (rm_password r) (default false (rm_tls_enabled r))
    (rm_tls_ca_certs_path r) (rm_tls_certfile_path r) (rm_tls_keyfile_path r) (default false (rm_tls_insecure r))).
(** The generic publisher's [field_names] are its own default when [None]; the
    Sparkplug connector is given the write router. *)
Inductive connector :=
  | GenericMqttPublisher (s : MqttSettings) (retain : bool) (topic_template payload_mode : string) (include_timestamp include_quality : bool)
      (field_names : option (dict string))
  | MqttSparkplugConnector (s : MqttSettings) (group_id edge_node_id : string).
Definition build_northbound_connector (r : RawMqtt) : res connector :=
  let* s := mqtt_settings r in
  if String.eqb (default "sparkplug_b" (rm_publisher_type r)) "generic_json" then
    Ok (GenericMqttPublisher s (default false (rm_generic_json_retain r)) (default "xedge/{tag_id}" (rm_generic_json_topic_template r))
      (default "per_tag" (rm_generic_json_payload_mode r)) (default true (rm_generic_json_include_timestamp r))
      (default true (rm_generic_json_include_quality r)) (match rm_generic_json_field_names r with Some (_ :: _ as d) => Some d | _ => None end))
  else Ok (MqttSparkplugConnector s (default "xedge" (rm_group_id r)) (default "edge01" (rm_edge_node_id r))).
Record RawNorthbound := MkRawNorthbound { rn_enabled : option bool; rn_mqtt : option RawMqtt; rn_publish_interval_seconds : option num }.
(** An absent or empty [mqtt] section is [None]. *)
Definition build_northbound_dispatcher (r : RawNorthbound) : res (option (connector * num)) :=
  if negb (default true (rn_enabled r)) then Ok None else
  match rn_mqtt r with
  | None => Ok None
  | Some m => let* c := build_northbound_connector m in Ok (Some (c, default (NInt 1) (rn_publish_interval_seconds r)))
  end.
(** [_run_api_server]: however serving ends, the process goes on. *)
Inductive served := Served | SystemExit (code : Z) | Failed (e : exn).
Definition run_api_server (r : served) : res unit := match r with Served | SystemExit _ | Failed _ => Ok tt end.

(** ** Start-up and shutdown *)

Inductive task := Watchdog | ConfigWatch | PipelineToBuffer | Purge | SystemTags | Dispatch | FleetHeartbeat | SntpSync | AlarmMail | Report (id : string)
  | AlarmTraps | ApiServer.
Inductive service := OpcUa | Broker | Agent.
Inductive action :=
  | StartDrivers | StartService (s : service) | Spawn (t : task) | ConfigureMetrics | Ready
  | Cancel (t : task) | AskToExit | Await (l : list task) | StopDispatcher | StopService (s : service) | StopAllDrivers | CloseColdStore.
Record Settings := MkSettings {
  s_hot_reload_enabled : option bool; s_opcua_server : RawOpcUaServer; s_mqtt_broker : RawBroker; s_alarms_enabled : option bool;
  s_system_tags_enabled : option bool; s_northbound : RawNorthbound; s_fleet : RawFleet; s_sntp_enabled : option bool; s_smtp : RawSmtp;
  s_smtp_alarm_notifications : option bool * option (list string); s_smtp_reports : list RawReport; s_snmp_notify : option bool * list RawTrap;
  s_snmp_agent : RawSnmpAgent; s_metrics_enabled : option bool; s_api_enabled : option bool }.
(** What [async_main] holds on to. *)
Record running := MkRunning {
  r_watch : bool; r_opcua : bool; r_broker : bool; r_system_tags : bool; r_dispatcher : bool; r_fleet : bool; r_sntp : bool; r_smtp : list task;
  r_snmp_notify : bool; r_agent : bool; r_api : bool }.

Section Process.
(** How starting the drivers and a service ends, and stopping a service. *)
Context (drivers : list DriverEntry) (start_drivers : res unit) (start_service stop_service : service -> res unit) (stop_dispatcher stop_drivers : res unit)
  (password_file : string).
Local Abbreviation M := (SR (list action)).
Definition act (a : action) : M unit := smodify (fun tr => tr ++ [a]).
Definition when (b : bool) (m : M unit) : M unit := if b then m else sret tt.
Definition attempt_ (a : action) (r : res unit) : M unit := let! _ := act a in slift r.
Fixpoint acts (l : list action) : M unit := match l with [] => sret tt | a :: l => let! _ := act a in acts l end.
Definition if_ {A} (b : bool) (l : list A) : list A := if b then l else [].
Definition alarm_mail (s : Settings) (alarm_engine : bool) : bool :=
  sm_enabled (build_smtp_config (s_smtp s)) &&
  an_enabled (build_alarm_notification_config (fst (s_smtp_alarm_notifications s)) (snd (s_smtp_alarm_notifications s))) && alarm_engine.
Definition report_tasks (s : Settings) : res (list task) :=
  if sm_enabled (build_smtp_config (s_smtp s)) then rmap (map (fun r => Report (rp_id r))) (build_scheduled_report_configs (s_smtp_reports s)) else Ok [].
(** The watchdog, the drivers, hot reload and the two listening servers. *)
Definition start_core (s : Settings) : M (bool * bool * bool) :=
  let! _ := act (Spawn Watchdog) in
  let! _ := attempt_ StartDrivers start_drivers in
  let watch := default true (s_hot_reload_enabled s) in
  let! _ := when watch (act (Spawn ConfigWatch)) in
  let opcua := match build_opcua_server (s_opcua_server s) drivers with Some _ => true | None => false end in
  let! _ := when opcua (attempt_ (StartService OpcUa) (start_service OpcUa)) in
  let! broker := slift (build_mqtt_broker (s_mqtt_broker s) password_file) in
  let broker := match broker with Some _ => true | None => false end in
  let! _ := when broker (attempt_ (StartService Broker) (start_service Broker)) in
  sret (watch, opcua, broker).
(** The pipeline's consumer, the purge, the system tags and the dispatcher. *)
Definition start_data (s : Settings) : M (bool * bool) :=
  let! _ := act (Spawn PipelineToBuffer) in
  let! _ := act (Spawn Purge) in
  let system_tags := default true (s_system_tags_enabled s) in
  let! _ := when system_tags (act (Spawn SystemTags)) in
  let! dispatcher := slift (build_northbound_dispatcher (s_northbound s)) in
  let dispatcher := match dispatcher with Some _ => true | None => false end in
  let! _ := when dispatcher (act (Spawn Dispatch)) in
  sret (system_tags, dispatcher).
Definition start_remote (s : Settings) : M (bool * bool) :=
  let fleet := match build_fleet_agent_config (s_fleet s) with Some _ => true | None => false end in
  let! _ := when fleet (act (Spawn FleetHeartbeat)) in
  let sntp := default false (s_sntp_enabled s) in
  let! _ := when sntp (act (Spawn SntpSync)) in
  sret (fleet, sntp).
(** Notifying about alarms needs the alarm engine. *)
Definition start_notifications (s : Settings) (alarm_engine : bool) : M (list task * bool) :=
  let! _ := when (alarm_mail s alarm_engine) (act (Spawn AlarmMail)) in
  let! reports := slift (report_tasks s) in
  let! _ := acts (map Spawn reports) in
  let! notify := slift (build_snmp_notify_config (fst (s_snmp_notify s)) (snd (s_snmp_notify s))) in
  let snmp_notify := sn_enabled notify && alarm_engine in
  let! _ := when snmp_notify (act (Spawn AlarmTraps)) in
  sret (if_ (alarm_mail s alarm_engine) [AlarmMail] ++ reports, snmp_notify).
Definition start_monitoring (s : Settings) : M bool :=
  let agent := match build_snmp_agent (s_snmp_agent s) with Some _ => true | None => false end in
  let! _ := when agent (attempt_ (StartService Agent) (start_service Agent)) in
  let! _ := when (default true (s_metrics_enabled s)) (act ConfigureMetrics) in
  sret agent.
Definition start_up (s : Settings) : M running :=
  let! (watch, opcua, broker) := start_core s in
  let! (system_tags, dispatcher) := start_data s in
  let! (fleet, sntp) := start_remote s in
  let! (smtp, snmp_notify) := start_notifications s (default false (s_alarms_enabled s)) in
  let! agent := start_monitoring s in
  let api := default true (s_api_enabled s) in
  let! _ := when api (act (Spawn ApiServer)) in
  let! _ := act Ready in
  sret (MkRunning watch opcua broker system_tags dispatcher fleet sntp smtp snmp_notify agent api).
(** The tasks cancelled one after the other, and the order they are awaited in. *)
Definition cancelled_later (r : running) : list task :=
  if_ (r_system_tags r) [SystemTags] ++ if_ (r_dispatcher r) [Dispatch] ++ if_ (r_watch r) [ConfigWatch] ++ if_ (r_fleet r) [FleetHeartbeat] ++
  if_ (r_sntp r) [SntpSync] ++ r_smtp r ++ if_ (r_snmp_notify r) [AlarmTraps].
Definition tasks_to_await (r : running) : list task := [Watchdog; PipelineToBuffer; Purge] ++ cancelled_later r ++ if_ (r_api r) [ApiServer].
Definition shut_down (r : running) : M unit :=
  let! _ := acts (map Cancel ([Watchdog; PipelineToBuffer; Purge] ++ cancelled_later r)) in
  let! _ := when (r_api r) (act AskToExit) in
  let! _ := act (Await (tasks_to_await r)) in
  let! _ := when (r_dispatcher r) (attempt_ StopDispatcher stop_dispatcher) in
  let! _ := when (r_opcua r) (attempt_ (StopService OpcUa) (stop_service OpcUa)) in
  let! _ := when (r_broker r) (attempt_ (StopService Broker) (stop_service Broker)) in
  let! _ := when (r_agent r) (attempt_ (StopService Agent) (stop_service Agent)) in
  let! _ := attempt_ StopAllDrivers stop_drivers in
  act CloseColdStore.
(** From the loaded configuration to the exit code. *)
Definition async_main (s : Settings) : M Z :=
  let! r := start_up s in
  let! _ := shut_down r in
  sret 0.

(** ** Nothing is left running *)

Lemma acts_app l tr : acts l tr = (tr ++ l, Ok tt).
Proof.
  revert tr. induction l as [|a l IH]; intros tr; [by rewrite app_nil_r|]. cbn [acts]. unfold sbind, act, smodify. rewrite IH. by rewrite <- app_assoc.
Qed.
Lemma then_act {A} a (k : unit -> M A) tr : sbind (act a) k tr = k tt (tr ++ [a]).
Proof. done. Qed.
Lemma then_when_act {A} b a (k : unit -> M A) tr : sbind (when b (act a)) k tr = k tt (tr ++ if_ b [a]).
Proof. destruct b; [done|]. unfold sbind. simpl. by rewrite app_nil_r. Qed.
Lemma then_attempt {A} a r (k : unit -> M A) tr tr' x : sbind (attempt_ a r) k tr = (tr', Ok x) -> k tt (tr ++ [a]) = (tr', Ok x).
Proof. unfold sbind, attempt_, act, smodify, slift. by destruct r as [[]|]. Qed.
Lemma then_when_attempt {A} b a r (k : unit -> M A) tr tr' x : sbind (when b (attempt_ a r)) k tr = (tr', Ok x) -> k tt (tr ++ if_ b [a]) = (tr', Ok x).
Proof. destruct b; [apply then_attempt|]. unfold sbind. simpl. by rewrite app_nil_r. Qed.
Lemma then_lift {A B} (r : res B) (k : B -> M A) tr tr' x : sbind (slift r) k tr = (tr', Ok x) -> exists b, r = Ok b /\ k b tr = (tr', Ok x).
Proof. unfold sbind, slift. destruct r as [b|]; [|done]. by exists b. Qed.
Lemma then_acts {A} l (k : unit -> M A) tr : sbind (acts l) k tr = k tt (tr ++ l).
Proof. unfold sbind. by rewrite acts_app. Qed.

Definition spawned (tr : list action) : list task := omap (fun a => match a with Spawn t => Some t | _ => None end) tr.
Definition started (tr : list action) : list service := omap (fun a => match a with StartService s => Some s | _ => None end) tr.
Definition stopped (tr : list action) : list service := omap (fun a => match a with StopService s => Some s | _ => None end) tr.
(** The tasks cancelled, and the API server asked to exit. *)
Definition ended (tr : list action) : list task := omap (fun a => match a with Cancel t => Some t | AskToExit => Some ApiServer | _ => None end) tr.
Definition services (r : running) : list service := if_ (r_opcua r) [OpcUa] ++ if_ (r_broker r) [Broker] ++ if_ (r_agent r) [Agent].
Lemma omap_if {A B} (f : A -> option B) b l : omap f (if_ b l) = if_ b (omap f l).
Proof. by destruct b. Qed.
Lemma if_nil {A} b : if_ b (@nil A) = [].
Proof. by destruct b. Qed.
Lemma omap_map_some {A B C} (f : A -> B) (g : B -> option C) h l : (forall x, g (f x) = h x) -> omap g (map f l) = omap h l.
Proof. intros E. induction l as [|x l IH]; csimpl; [done|]. by rewrite E, IH. Qed.
Lemma omap_none {A B} (l : list A) : omap (fun _ => @None B) l = [].
Proof. by induction l. Qed.
Lemma omap_all {A} (l : list A) : omap Some l = l.
Proof. induction l; csimpl; congruence. Qed.
Lemma then_then {A B C} (m : M A) (f : A -> M B) (k : B -> M C) tr : sbind (sbind m f) k tr = sbind m (fun x => sbind (f x) k) tr.
Proof. unfold sbind. by destruct (m tr) as [tr' [a|e]]. Qed.
Lemma then_ret {A B} (a : A) (k : A -> M B) tr : sbind (sret a) k tr = k a tr.
Proof. done. Qed.
Ltac walk :=
  repeat first
    [ rewrite then_then | rewrite then_ret | rewrite then_act | rewrite then_when_act | rewrite then_acts ].
Ltac traces := unfold spawned, started, stopped, ended; rewrite ?omap_app, ?omap_if; simpl; rewrite ?if_nil, ?app_nil_r; simpl.

Lemma spawned_map l : spawned (map Spawn l) = l /\ started (map Spawn l) = [].
Proof. unfold spawned, started. split; [rewrite (omap_map_some _ _ Some) by done; apply omap_all|rewrite (omap_map_some _ _ (fun _ => None)) by done; apply omap_none]. Qed.
Lemma traced_app a b : spawned (a ++ b) = spawned a ++ spawned b /\ started (a ++ b) = started a ++ started b.
Proof. unfold spawned, started. by rewrite !omap_app. Qed.
Lemma traced_if b l : spawned (if_ b l) = if_ b (spawned l) /\ started (if_ b l) = if_ b (started l).
Proof. by destruct b. Qed.
Ltac go E := cbv beta iota zeta in E; revert E; walk; cbv beta iota zeta; intros E.
Lemma start_up_spec s up r : start_up s [] = (up, Ok r) -> spawned up ≡ₚ tasks_to_await r /\ started up = services r.
Proof.
  unfold start_up, start_core, start_data, start_remote, start_notifications, start_monitoring. walk. intros E. apply then_attempt in E. go E. apply then_when_attempt in E. go E.
  apply then_lift in E as (broker & _ & E). go E. apply then_when_attempt in E. go E.
  apply then_lift in E as (dispatcher & _ & E). go E. apply then_lift in E as (reports & _ & E). go E.
  apply then_lift in E as (notify & _ & E). go E. apply then_when_attempt in E. go E.
  injection E as <- <-. unfold tasks_to_await, cancelled_later, services. cbn [r_watch r_opcua r_broker r_system_tags r_dispatcher r_fleet r_sntp r_smtp r_snmp_notify r_agent r_api].
  match goal with |- context [Spawn Watchdog :: StartDrivers :: ?x] => change (Spawn Watchdog :: StartDrivers :: x) with ([Spawn Watchdog; StartDrivers] ++ x) end.
  rewrite !(proj1 (traced_app _ _)), !(proj2 (traced_app _ _)), !(proj1 (traced_if _ _)), !(proj2 (traced_if _ _)), (proj1 (spawned_map _)), (proj2 (spawned_map _)).
  split; [|cbn; rewrite !if_nil; cbn; by rewrite ?app_nil_r, <- ?app_assoc].
  cbn. rewrite !if_nil. rewrite ?app_nil_r. solve_Permutation.
Qed.
Lemma shut_down_spec r up trace : shut_down r up = (trace, Ok tt) ->
  exists cancels stops, trace = up ++ (cancels ++ [Await (tasks_to_await r)] ++ stops ++ [StopAllDrivers; CloseColdStore]) /\
    ended cancels = tasks_to_await r /\ stopped stops = services r.
Proof.
  unfold shut_down. walk. intros E. apply then_when_attempt in E. go E. apply then_when_attempt in E. go E.
  apply then_when_attempt in E. go E. apply then_when_attempt in E. go E. apply then_attempt in E. cbv beta in E.
  unfold act, smodify in E. injection E as <-.
  exists (map Cancel ([Watchdog; PipelineToBuffer; Purge] ++ cancelled_later r) ++ if_ (r_api r) [AskToExit]).
  exists (if_ (r_dispatcher r) [StopDispatcher] ++ if_ (r_opcua r) [StopService OpcUa] ++ if_ (r_broker r) [StopService Broker] ++ if_ (r_agent r) [StopService Agent]).
  split; [by rewrite <- !app_assoc|]. unfold ended, stopped, services, tasks_to_await. rewrite !omap_app, !omap_if. simpl omap. rewrite !if_nil. split; [|done].
  rewrite (omap_map_some _ _ Some) by done. rewrite omap_all. by destruct (r_api r).
Qed.
(** C38: A gateway that stops in order leaves nothing behind: when [async_main]
    returns, every task it started was cancelled (the API server asked to
    exit) and then awaited, no other was; the services it started, and no
    others, were stopped after that, then all drivers, and the cold store was
    closed last. *)
Theorem orderly_shutdown s trace code : async_main s [] = (trace, Ok code) ->
  exists up cancels awaited stops,
    trace = up ++ (cancels ++ [Await awaited] ++ stops ++ [StopAllDrivers; CloseColdStore]) /\
    spawned up ≡ₚ awaited /\ ended cancels = awaited /\ stopped stops = started up /\ code = 0.
Proof.
  unfold async_main. unfold sbind at 1. destruct (start_up s []) as [up [r|e]] eqn:U; [|done]. apply start_up_spec in U as [Sp St].
  unfold sbind. destruct (shut_down r up) as [tr [[]|e]] eqn:D; [|done]. intros [= <- <-].
  destruct (shut_down_spec _ _ _ D) as (cancels & stops & -> & En & Sto). exists up, cancels, (tasks_to_await r), stops. split_and!; try done. congruence.
Qed.
End Process.

(** ** Examples *)

Definition no_opcua : RawOpcUaServer := MkRawOpcUa None None None.
Definition no_broker : RawBroker := MkRawBroker None None None None None None None None None None.
Definition no_mqtt : RawMqtt := MkRawMqtt None (Some "broker") None None None None None None None None None None None None None None None None None None None None.
Definition no_fleet : RawFleet := MkRawFleet None None None None None None None None None.
Definition no_smtp : RawSmtp := MkRawSmtp None None None None None None None None None.
Definition demo_settings (opcua : RawOpcUaServer) : Settings :=
  MkSettings None opcua no_broker (Some true) None (MkRawNorthbound None (Some no_mqtt) None) no_fleet None
    (MkRawSmtp (Some true) (Some "mail") None None None None None None None) (Some true, None)
    [MkRawReport (Some "daily") None None None None None; MkRawReport (Some "off") (Some false) None None None None] (None, [])
    (MkRawAgent (Some true) None None None) None None.
Definition demo_opcua : RawOpcUaServer := MkRawOpcUa (Some true) (Some "opc.tcp://0.0.0.0:4840") None.
Definition fine (_ : service) : res unit := Ok tt.
Example demo_tasks :
  spawned (fst (start_up [] (Ok tt) fine "/data/mqtt-broker/passwords" (demo_settings demo_opcua) [])) =
  [Watchdog; ConfigWatch; PipelineToBuffer; Purge; SystemTags; Dispatch; AlarmMail; Report "daily"; ApiServer].
Proof. reflexivity. Qed.
(** A server that cannot be started ends the process before the block that
    cleans up: the drivers already started are not stopped. *)
Example failed_start_cleans_nothing :
  async_main [] (Ok tt) (fun s => match s with OpcUa => Raise OSError | _ => Ok tt end) fine (Ok tt) (Ok tt) "p" (demo_settings demo_opcua) [] =
  ([Spawn Watchdog; StartDrivers; Spawn ConfigWatch; StartService OpcUa], Raise OSError).
Proof. reflexivity. Qed.
(** A server that fails to stop keeps the drivers and the cold store from being
    closed. *)
Example failed_stop_skips_the_rest :
  let '(tr, r) := async_main [] (Ok tt) fine (fun s => match s with OpcUa => Raise UaError | _ => Ok tt end) (Ok tt) (Ok tt) "p" (demo_settings demo_opcua) [] in
  r = Raise UaError /\ last tr = Some (StopService OpcUa).
Proof. split; reflexivity. Qed.
(** The anonymous access of the broker and the generic publisher are off unless
    asked for. *)
Example built_with_defaults :
  rmap (option_map (fun s => MqttBroker.mb_allow_anonymous (MqttBroker.bs_config s)))
    (build_mqtt_broker (MkRawBroker (Some true) None None None None None None None None None) "p") = Ok (Some false) /\
  build_northbound_connector no_mqtt =
    Ok (MqttSparkplugConnector (MkMqtt "broker" 1883 "" (NInt 60) (NInt 10) 1 None None false None None None false) "xedge" "edge01").
Proof. split; reflexivity. Qed.
Lemma orderly_shutdown_witness :
  exists up cancels awaited stops,
    fst (async_main [] (Ok tt) fine fine (Ok tt) (Ok tt) "p" (demo_settings demo_opcua) []) =
      up ++ (cancels ++ [Await awaited] ++ stops ++ [StopAllDrivers; CloseColdStore]) /\
    spawned up ≡ₚ awaited /\ ended cancels = awaited /\ stopped stops = started up /\ 0 = 0.
Proof.
  apply (orderly_shutdown [] (Ok tt) fine fine (Ok tt) (Ok tt) "p" (demo_settings demo_opcua)). reflexivity.
Defined.
