(* ===== verification/Certificates.v ===== *)
(** * Certificates (src/xedge/security/ca.py, csr.py, tls_context.py, src/xedge/api/tls.py)

    The fleet's certificate authority, the key pairs and signing requests of its
    clients, the self-signed certificate of the web server and the client side
    TLS contexts.  The cryptography library is the class [X509]: keys are opaque,
    a certificate is the data the builder was given together with the public key
    whose private half signed it.  The disk is a map from paths to contents. *)

From Stdlib Require Import Ascii.
From S2P Require Import Prelude PyTime.
Local Open Scope string_scope.
Local Open Scope list_scope.
Local Open Scope Z_scope.

(** ** Data *)

Inductive general_name := DNSName (name : string) | IPAddress (address : string).
Inductive key_use := KeyCertSign | CrlSign.
(** What a [CertificateBuilder] has been given.  [BasicConstraints] is the pair
    of [ca] and [path_length]. *)
Record Template (P : Type) := MkTemplate {
  subject : string;
  issuer : string;
  public_key : P;
  serial : Z;
  not_before : Z;
  not_after : Z;
  basic_constraints : option (bool * option Z);
  key_usage : option (list key_use);
  subject_alt_name : option (list general_name) }.
Record Certificate (P : Type) := MkCert { tbs : Template P; signed_by : P }.
Record Csr (P : Type) := MkCsr { csr_subject : string; csr_public_key : P; is_signature_valid : bool }.
Arguments MkTemplate {P}. Arguments MkCert {P}. Arguments MkCsr {P}.
Arguments subject {P}. Arguments issuer {P}. Arguments public_key {P}. Arguments serial {P}. Arguments not_before {P}. Arguments not_after {P}.
Arguments basic_constraints {P}. Arguments key_usage {P}. Arguments subject_alt_name {P}. Arguments tbs {P}. Arguments signed_by {P}.
Arguments csr_subject {P}. Arguments csr_public_key {P}. Arguments is_signature_valid {P}.

(** X.509 times have a resolution of one second. *)
Definition whole (t : Z) : Z := t / us_per_second * us_per_second.
Definition encoded {P} (t : Template P) : Template P :=
  MkTemplate (subject t) (issuer t) (public_key t) (serial t) (whole (not_before t)) (whole (not_after t))
    (basic_constraints t) (key_usage t) (subject_alt_name t).
Definition in_seconds {P} (c : Certificate P) : Prop := encoded (tbs c) = tbs c.

Lemma whole_idem t : whole (whole t) = whole t.
Proof. unfold whole. by rewrite Z.div_mul. Qed.
Lemma whole_bounds t : whole t <= t < whole t + us_per_second.
Proof.
  unfold whole. pose proof (Z.div_mod t us_per_second ltac:(done)). pose proof (Z.mod_pos_bound t us_per_second ltac:(done)). lia.
Qed.
Lemma whole_day n : whole (n * us_per_day) = n * us_per_day.
Proof. unfold whole, us_per_day. rewrite Z.mul_assoc, Z.div_mul; done. Qed.
Lemma whole_add_days t n : whole (t + n * us_per_day) = whole t + n * us_per_day.
Proof. unfold whole, us_per_day. rewrite Z.mul_assoc, Z.div_add; [lia|done]. Qed.

(** The library: RSA keys, their PEM texts, and what it refuses to build. *)
Class X509 := {
  PrivateKey : Type;
  PublicKey : Type;
  public_of : PrivateKey -> PublicKey;
  (** [load_pem_private_key]: [None] for a key that is not RSA *)
  load_private_key : string -> res (option PrivateKey);
  private_key_pem : PrivateKey -> string;
  load_certificate : string -> res (Certificate PublicKey);
  certificate_pem : Certificate PublicKey -> string;
  load_csr : string -> res (Csr PublicKey);
  csr_pem : Csr PublicKey -> string;
  (** [NameAttribute(COMMON_NAME, _)], and the builder's checks of dates and names *)
  name_check : string -> res unit;
  builder_check : Template PublicKey -> res unit;
  load_private_key_pem : forall k, load_private_key (private_key_pem k) = Ok (Some k);
  load_certificate_pem : forall c, in_seconds c -> load_certificate (certificate_pem c) = Ok c;
  load_csr_pem : forall r, load_csr (csr_pem r) = Ok r }.

(** Paths and contents, and whether the system lets a file be written. *)
Abbreviation fs := (gmap string string).
Class Disk := { make_parent : string -> res unit; may_write : string -> res unit }.
(** The clock, a new key pair and a random serial number. *)
Record Fresh `{X509} := MkFresh { now : Z; new_key : PrivateKey; random_serial : Z }.

Section Authority.
Context `{X509} `{Disk}.
Local Abbreviation M := (SR fs).

Definition is_file (p : string) (f : fs) : bool := bool_decide (is_Some (f !! p)).
Definition read_bytes (p : string) : M string := fun f =>
  (f, match f !! p with Some b => Ok b | None => Raise FileNotFoundError end).
Definition write_bytes (p content : string) : M unit :=
  let! _ := slift (may_write p) in smodify (insert p content).
(** [path.parent.mkdir(parents=True, exist_ok=True)] *)
Definition mkdir_parent (p : string) : M unit := slift (make_parent p).

(** [builder.sign(key, SHA256())] *)
Definition sign_template (t : Template PublicKey) (k : PrivateKey) : res (Certificate PublicKey) :=
  let* _ := builder_check t in Ok (MkCert (encoded t) (public_of k)).
(** [now + timedelta(days=validity_days)] *)
Definition expiry (v : Fresh) (validity_days : Z) : res Z :=
  let* d := check_timedelta (validity_days * us_per_day) in datetime_add (now v) d.

(** ** Signing requests *)

Definition generate_key_and_csr (common_name : string) (v : Fresh) : res (string * string) :=
  let* _ := name_check common_name in
  Ok (private_key_pem (new_key v), csr_pem (MkCsr common_name (public_of (new_key v)) true)).

(** ** The authority *)

Record CertificateAuthority := MkCA { ca_private_key : PrivateKey; ca_certificate : Certificate PublicKey }.
Definition ca_pem (ca : CertificateAuthority) : string := certificate_pem (ca_certificate ca).

Definition alt_names (dns ips : list string) : option (list general_name) :=
  match dns, ips with [], [] => None | _, _ => Some (map DNSName dns ++ map IPAddress ips) end.
Definition sign_csr (ca : CertificateAuthority) (pem common_name : string) (validity_days : Z) (dns ips : list string) (v : Fresh) : res string :=
  let* csr := load_csr pem in
  raise_if negb (is_signature_valid csr) with InvalidCsrError;
  let* _ := name_check common_name in
  let* until := expiry v validity_days in
  let* c := sign_template
    (MkTemplate common_name (subject (tbs (ca_certificate ca))) (csr_public_key csr) (random_serial v) (now v) until
       (Some (false, None)) None (alt_names dns ips))
    (ca_private_key ca) in
  Ok (certificate_pem c).

Definition issue_or_load_leaf_identity (ca : CertificateAuthority) (cert_path key_path common_name : string) (validity_days : Z)
    (dns ips : list string) (v : Fresh) : M unit :=
  let! present := sget (fun f => is_file cert_path f && is_file key_path f) in
  if present then sret tt else
  let! (key, request) := slift (generate_key_and_csr common_name v) in
  let! cert := slift (sign_csr ca request common_name validity_days dns ips v) in
  let! _ := mkdir_parent cert_path in
  let! _ := mkdir_parent key_path in
  let! _ := write_bytes cert_path cert in
  write_bytes key_path key.

Definition load_or_create_ca (cert_path key_path common_name : string) (validity_days : Z) (v : Fresh) : M CertificateAuthority :=
  let! present := sget (fun f => is_file cert_path f && is_file key_path f) in
  if present then
    let! text := read_bytes key_path in
    let! key := slift (load_private_key text) in
    let! k := match key with Some k => sret k | None => sraise TypeError end in
    let! text := read_bytes cert_path in
    let! c := slift (load_certificate text) in
    sret (MkCA k c)
  else
    let! _ := mkdir_parent cert_path in
    let! _ := mkdir_parent key_path in
    let! _ := slift (name_check common_name) in
    let! until := slift (expiry v validity_days) in
    let! c := slift (sign_template
      (MkTemplate common_name common_name (public_of (new_key v)) (random_serial v) (now v) until
         (Some (true, Some 0)) (Some [KeyCertSign; CrlSign]) None)
      (new_key v)) in
    let! _ := write_bytes cert_path (certificate_pem c) in
    let! _ := write_bytes key_path (private_key_pem (new_key v)) in
    sret (MkCA (new_key v) c).

(** ** The web server's certificate (api/tls.py) *)

Definition load_or_create_server_certificate (cert_path key_path common_name : string) (validity_days : Z) (v : Fresh) : M unit :=
  let! present := sget (fun f => is_file cert_path f && is_file key_path f) in
  if present then sret tt else
  let! _ := mkdir_parent cert_path in
  let! _ := mkdir_parent key_path in
  let! _ := slift (name_check common_name) in
  let! until := slift (expiry v validity_days) in
  let! c := slift (sign_template
    (MkTemplate common_name common_name (public_of (new_key v)) (random_serial v) (now v) until
       None None (Some [DNSName common_name; IPAddress "127.0.0.1"]))
    (new_key v)) in
  let! _ := write_bytes cert_path (certificate_pem c) in
  write_bytes key_path (private_key_pem (new_key v)).
End Authority.

(** ** Client side TLS contexts (security/tls_context.py) *)

(** [ssl.create_default_context] verifies the peer and its host name; the trust
    store is the system's ([None]) or a file's contents. *)
Record SSLContext := MkContext {
  trust_store : option string;
  client_chain : option (string * option string);
  verifies_peer : bool }.
Class Ssl := {
  load_ca_file : string -> res unit;
  (** [load_cert_chain] with the contents of the files *)
  check_chain : string -> option string -> res unit }.
Section Contexts.
Context `{Ssl}.
Definition read_optional (p : option string) : SR fs (option string) :=
  match p with None => sret None | Some p => let! b := read_bytes p in sret (Some b) end.
Definition build_client_tls_context (ca_certs_path certfile_path keyfile_path : option string) : SR fs SSLContext :=
  let! ca := read_optional ca_certs_path in
  let! _ := match ca with None => sret tt | Some b => slift (load_ca_file b) end in
  match certfile_path with
  | None => sret (MkContext ca None true)
  | Some p =>
      let! cert := read_bytes p in
      let! key := read_optional keyfile_path in
      let! _ := slift (check_chain cert key) in
      sret (MkContext ca (Some (cert, key)) true)
  end.
Definition build_mtls_client_context (cert_path key_path ca_cert_path : string) : SR fs SSLContext :=
  build_client_tls_context (Some ca_cert_path) (Some cert_path) (Some key_path).
End Contexts.

(** ** What a signature grants *)

(** A peer that trusts [anchor] accepts [c] at time [t]. *)
Definition trusts {P} (anchor c : Certificate P) (t : Z) : Prop :=
  (exists n, basic_constraints (tbs anchor) = Some (true, n)) /\ signed_by c = public_key (tbs anchor) /\
  issuer (tbs c) = subject (tbs anchor) /\ not_before (tbs c) <= t <= not_after (tbs c).

Section Facts.
Context `{X509} `{Disk}.

(** An authority whose certificate is its own: self-signed by the key it holds. *)
Record ca_ok (ca : CertificateAuthority) : Prop := {
  ca_holds_key : public_key (tbs (ca_certificate ca)) = public_of (ca_private_key ca);
  ca_self_signed : signed_by (ca_certificate ca) = public_of (ca_private_key ca);
  ca_self_issued : issuer (tbs (ca_certificate ca)) = subject (tbs (ca_certificate ca));
  ca_may_sign : basic_constraints (tbs (ca_certificate ca)) = Some (true, Some 0) }.
(** The certificate [c] that [ca] issued to the holder of [key]. *)
Record issued (ca : CertificateAuthority) (key : PublicKey) (common_name : string) (validity_days : Z) (dns ips : list string) (v : Fresh)
    (c : Certificate PublicKey) : Prop := {
  iss_subject : subject (tbs c) = common_name;
  iss_key : public_key (tbs c) = key;
  iss_serial : serial (tbs c) = random_serial v;
  iss_issuer : issuer (tbs c) = subject (tbs (ca_certificate ca));
  iss_signer : signed_by c = public_of (ca_private_key ca);
  iss_leaf : basic_constraints (tbs c) = Some (false, None);
  iss_names : subject_alt_name (tbs c) = alt_names dns ips;
  iss_from : not_before (tbs c) = whole (now v);
  iss_until : not_after (tbs c) = whole (now v) + validity_days * us_per_day }.

Lemma expiry_ok v d u : expiry v d = Ok u -> u = now v + d * us_per_day.
Proof.
  unfold expiry, check_timedelta, datetime_add, guard_raise. destruct (_ || _); simpl; [done|]. destruct (_ || _); by intros [= <-].
Qed.
Lemma sign_template_ok t k c :
  sign_template t k = Ok c -> c = MkCert (encoded t) (public_of k) /\ in_seconds c.
Proof.
  unfold sign_template. destruct (builder_check t); simpl; intros [= <-]. split; [done|].
  unfold in_seconds, encoded. simpl. by rewrite !whole_idem.
Qed.

Lemma sign_csr_issues ca pem cn d dns ips v out :
  sign_csr ca pem cn d dns ips v = Ok out ->
  exists csr c, load_csr pem = Ok csr /\ is_signature_valid csr = true /\ out = certificate_pem c /\ load_certificate out = Ok c /\
    issued ca (csr_public_key csr) cn d dns ips v c.
Proof.
  unfold sign_csr. destruct (load_csr pem) as [csr|]; simpl; [|done].
  destruct (is_signature_valid csr) eqn:V; simpl; [|done]. destruct (name_check cn); simpl; [|done].
  destruct (expiry v d) as [u|] eqn:X; simpl; [|done]. apply expiry_ok in X as ->.
  destruct (sign_template _ _) as [c|] eqn:S; simpl; [|done]. intros [= <-].
  apply sign_template_ok in S as [-> S]. exists csr. eexists. split_and!; [done..|by apply load_certificate_pem|].
  split; try done. simpl. apply whole_add_days.
Qed.
(** A certificate [ca] issued is accepted by those who trust [ca]. *)
Lemma issued_trusted ca key cn d dns ips v c t :
  ca_ok ca -> issued ca key cn d dns ips v c -> now v <= t < now v + d * us_per_day - us_per_second ->
  trusts (ca_certificate ca) c t.
Proof.
  intros [K _ _ B] [S _ _ I G _ _ F U] T. pose proof (whole_bounds (now v)). split_and!; [eauto|congruence|done|lia|lia].
Qed.
(** The name a request claims has no influence on what is issued. *)
Lemma csr_subject_ignored ca p q r s cn d dns ips v :
  load_csr p = Ok r -> load_csr q = Ok s -> csr_public_key r = csr_public_key s -> is_signature_valid r = is_signature_valid s ->
  sign_csr ca p cn d dns ips v = sign_csr ca q cn d dns ips v.
Proof. unfold sign_csr. intros -> -> E V. simpl. by rewrite E, V. Qed.

(** ** The files *)

Definition both_files (cp kp : string) (f : fs) : bool := is_file cp f && is_file kp f.
Lemma both_files_true cp kp f : both_files cp kp f = true <-> is_Some (f !! cp) /\ is_Some (f !! kp).
Proof. unfold both_files, is_file. by rewrite andb_true_iff, !bool_decide_eq_true. Qed.
Lemma write_bytes_ok p b f f' : write_bytes p b f = (f', Ok tt) -> f' = <[p := b]> f.
Proof. unfold write_bytes, slift, sbind, smodify. destruct (may_write p) as [[]|]; simpl; by intros [= <-]. Qed.
Lemma mkdir_parent_ok p f f' x : mkdir_parent p f = (f', Ok x) -> f' = f.
Proof. unfold mkdir_parent, slift. by intros [= <- _]. Qed.
(** Certificate first, then key: the pair is there afterwards. *)
Lemma write_pair_ok cp kp c k f f' :
  cp <> kp -> (let! _ := write_bytes cp c in write_bytes kp k) f = (f', Ok tt) ->
  f' = <[kp := k]> (<[cp := c]> f) /\ f' !! cp = Some c /\ f' !! kp = Some k.
Proof.
  intros N E. apply sbind_inv in E as (f1 & [] & W1%write_bytes_ok & W2%write_bytes_ok). subst.
  split; [done|]. rewrite lookup_insert_ne by done. by rewrite !lookup_insert_eq.
Qed.

(** The authority whose key and certificate the two files hold. *)
Definition ca_on_disk (cp kp : string) (ca : CertificateAuthority) (f : fs) : Prop :=
  exists ct kt, f !! cp = Some ct /\ f !! kp = Some kt /\
    load_private_key kt = Ok (Some (ca_private_key ca)) /\ load_certificate ct = Ok (ca_certificate ca).
Lemma load_present cp kp cn d v f ca : ca_on_disk cp kp ca f -> load_or_create_ca cp kp cn d v f = (f, Ok ca).
Proof.
  intros (ct & kt & C & K & LK & LC). unfold load_or_create_ca, sget, sbind at 1.
  assert (both_files cp kp f = true) as B by (apply both_files_true; eauto). unfold both_files in B. rewrite B.
  unfold sbind, read_bytes, slift. rewrite K. simpl. rewrite LK. simpl. rewrite C. simpl. rewrite LC. by destruct ca.
Qed.
Lemma load_present_inv cp kp cn d v f f' ca :
  both_files cp kp f = true -> load_or_create_ca cp kp cn d v f = (f', Ok ca) -> f' = f /\ ca_on_disk cp kp ca f.
Proof.
  intros B. pose proof B as [[ct C] [kt K]]%both_files_true. unfold both_files in B. unfold load_or_create_ca, sget, sbind at 1. rewrite B.
  unfold sbind, read_bytes, slift, sret, sraise. rewrite K. simpl. destruct (load_private_key kt) as [[k|]|] eqn:LK; simpl; [|done..].
  rewrite C. simpl. destruct (load_certificate ct) as [c|] eqn:LC; simpl; [|done]. intros [= <- <-]. split; [done|]. by exists ct, kt.
Qed.
Lemma create_ok cp kp cn d v f f' ca :
  cp <> kp -> both_files cp kp f = false -> load_or_create_ca cp kp cn d v f = (f', Ok ca) ->
  ca_ok ca /\ ca_on_disk cp kp ca f' /\ ca_private_key ca = new_key v /\
  subject (tbs (ca_certificate ca)) = cn /\ not_after (tbs (ca_certificate ca)) = whole (now v) + d * us_per_day.
Proof.
  intros N B E. unfold both_files in B. unfold load_or_create_ca, sget in E. unfold sbind at 1 in E. rewrite B in E. simpl in E.
  apply sbind_inv in E as (f1 & ? & ->%mkdir_parent_ok & E). apply sbind_inv in E as (f2 & ? & ->%mkdir_parent_ok & E).
  apply sbind_inv in E as (f3 & ? & [= -> _] & E). apply sbind_inv in E as (f4 & u & [= -> X%expiry_ok] & E).
  apply sbind_inv in E as (f5 & c & [= -> S%sign_template_ok] & E). destruct S as [S IS].
  apply sbind_inv in E as (f6 & [] & W1 & E). apply sbind_inv in E as (f7 & [] & W2 & [= -> <-]).
  destruct (write_pair_ok cp kp (certificate_pem c) (private_key_pem (new_key v)) f5 f') as (_ & C & K); [done| |].
  { unfold sbind at 1. by rewrite W1. }
  subst c u. split_and!; [split; done| |done|done|simpl; apply whole_add_days].
  eexists _, _. split_and!; [exact C|exact K|apply load_private_key_pem|by apply load_certificate_pem].
Qed.

(** What a file pair holds once an identity was issued. *)
Lemma leaf_present ca cp kp cn d dns ips v f :
  both_files cp kp f = true -> issue_or_load_leaf_identity ca cp kp cn d dns ips v f = (f, Ok tt).
Proof. unfold both_files. intros B. unfold issue_or_load_leaf_identity, sget, sbind at 1. by rewrite B. Qed.
Lemma leaf_issued ca cp kp cn d dns ips v f f' :
  cp <> kp -> both_files cp kp f = false -> issue_or_load_leaf_identity ca cp kp cn d dns ips v f = (f', Ok tt) ->
  exists c, f' = <[kp := private_key_pem (new_key v)]> (<[cp := certificate_pem c]> f) /\ load_certificate (certificate_pem c) = Ok c /\ both_files cp kp f' = true /\ issued ca (public_of (new_key v)) cn d dns ips v c.
Proof.
  intros N B E. unfold both_files in B. unfold issue_or_load_leaf_identity, sget in E. unfold sbind at 1 in E. rewrite B in E. simpl in E.
  unfold generate_key_and_csr in E. destruct (name_check cn) as [[]|]; simpl in E; [|done].
  apply sbind_inv in E as (f1 & [key request] & [= -> <- <-] & E).
  apply sbind_inv in E as (f2 & out & [= -> S] & E). apply sign_csr_issues in S as (csr & c & L & _ & -> & LC & I).
  rewrite load_csr_pem in L. injection L as <-. simpl in I.
  apply sbind_inv in E as (f3 & ? & ->%mkdir_parent_ok & E). apply sbind_inv in E as (f4 & ? & ->%mkdir_parent_ok & E).
  destruct (write_pair_ok _ _ _ _ _ _ N E) as (-> & C & K). exists c. split_and!; [done|done| |done]. apply both_files_true. eauto.
Qed.

(** A certificate is granted under the name the caller gives, to the key the
    request proves, by this authority, for the days asked for, and never as an
    authority itself; a request with another name in it gets the same. *)
Theorem authority_grants_only_what_is_asked ca pem cn d dns ips v out :
  sign_csr ca pem cn d dns ips v = Ok out ->
  exists csr c, load_csr pem = Ok csr /\ is_signature_valid csr = true /\ load_certificate out = Ok c /\
    issued ca (csr_public_key csr) cn d dns ips v c /\
    forall claimed, sign_csr ca (csr_pem (MkCsr claimed (csr_public_key csr) true)) cn d dns ips v = Ok out.
Proof.
  intros S. pose proof S as (csr & c & L & V & -> & LC & I)%sign_csr_issues. exists csr, c. split_and!; [done..|].
  intros claimed. rewrite <- S. eapply csr_subject_ignored; [apply load_csr_pem|done|done|by rewrite V].
Qed.

(** The authority a start-up returns is the one every later start-up returns,
    whatever it is asked for, with the files unchanged; files that were there
    are kept, and an authority made new holds the key of its certificate. *)
Theorem authority_survives_restart cp kp cn d v f f' ca :
  cp <> kp -> load_or_create_ca cp kp cn d v f = (f', Ok ca) ->
  (forall cn' d' v', load_or_create_ca cp kp cn' d' v' f' = (f', Ok ca)) /\
  (both_files cp kp f = true -> f' = f) /\ (both_files cp kp f = false -> ca_ok ca).
Proof.
  intros N E. destruct (both_files cp kp f) eqn:B.
  - destruct (load_present_inv _ _ _ _ _ _ _ _ B E) as [-> D]. split_and!; [|done..]. intros. by apply load_present.
  - destruct (create_ok _ _ _ _ _ _ _ _ N B E) as (OK & D & _). split_and!; [|done..]. intros. by apply load_present.
Qed.

(** The identity the manager issues to itself: the files hold a certificate and
    its key, every device that trusts the authority accepts it under the names
    it was issued for until it expires, and later start-ups leave it alone. *)
Theorem issued_identity_is_trusted ca cp kp cn d dns ips v f f' :
  ca_ok ca -> cp <> kp -> both_files cp kp f = false -> issue_or_load_leaf_identity ca cp kp cn d dns ips v f = (f', Ok tt) ->
  exists c k, load_certificate <$> f' !! cp = Some (Ok c) /\ load_private_key <$> f' !! kp = Some (Ok (Some k)) /\
    public_key (tbs c) = public_of k /\ subject_alt_name (tbs c) = alt_names dns ips /\
    (forall t, now v <= t < now v + d * us_per_day - us_per_second -> trusts (ca_certificate ca) c t) /\
    (forall ca' cn' d' dns' ips' v', issue_or_load_leaf_identity ca' cp kp cn' d' dns' ips' v' f' = (f', Ok tt)).
Proof.
  intros OK N B E. destruct (leaf_issued _ _ _ _ _ _ _ _ _ _ N B E) as (c & F & LC & B' & I). exists c, (new_key v).
  split_and!; [| |apply I|apply I|intros t T; by eapply issued_trusted|intros; by apply leaf_present].
  - rewrite F, lookup_insert_ne, lookup_insert_eq by done. simpl. by rewrite LC.
  - rewrite F, lookup_insert_eq. simpl. by rewrite load_private_key_pem.
Qed.
End Facts.

(** ** A library for examples *)

#[export] Instance general_name_eq : EqDecision general_name.
Proof. solve_decision. Defined.
#[export] Instance general_name_countable : Countable general_name.
Proof.
  refine (inj_countable' (fun n => match n with DNSName a => inl a | IPAddress a => inr a end)
    (fun x => match x with inl a => DNSName a | inr a => IPAddress a end) _). by intros [].
Defined.
#[export] Instance key_use_eq : EqDecision key_use.
Proof. solve_decision. Defined.
#[export] Instance key_use_countable : Countable key_use.
Proof.
  refine (inj_countable' (fun n => match n with KeyCertSign => true | CrlSign => false end) (fun x : bool => if x then KeyCertSign else CrlSign) _).
  by intros [].
Defined.
#[export] Instance certificate_eq : EqDecision (Certificate Z).
Proof. assert (EqDecision (Template Z)) by solve_decision. solve_decision. Defined.
#[export] Instance certificate_countable : Countable (Certificate Z).
Proof.
  refine (inj_countable' (fun c : Certificate Z => let t := tbs c in
      (((subject t, issuer t), (public_key t, serial t)), ((not_before t, not_after t), ((basic_constraints t, key_usage t), (subject_alt_name t, signed_by c)))))
    (fun '(((a, b), (c, d)), ((e, f), ((g, h), (i, j)))) => MkCert (MkTemplate a b c d e f g h i) j) _).
  by intros [[]].
Defined.
#[export] Instance csr_eq : EqDecision (Csr Z).
Proof. solve_decision. Defined.
#[export] Instance csr_countable : Countable (Csr Z).
Proof.
  refine (inj_countable' (fun c : Csr Z => (csr_subject c, csr_public_key c, is_signature_valid c)) (fun '(a, b, c) => MkCsr a b c) _).
  by intros [].
Defined.

(** A number written in binary, least digit first. *)
Fixpoint binary (p : positive) : string :=
  match p with xH => "1" | xO q => String "0"%char (binary q) | xI q => String "1"%char (binary q) end.
Fixpoint unbinary (s : string) : option positive :=
  match s with
  | EmptyString => None
  | String c EmptyString => if decide (c = "1"%char) then Some xH else None
  | String c t => (if decide (c = "1"%char) then xI else xO) <$> unbinary t
  end.
Lemma binary_cons p : exists c t, binary p = String c t.
Proof. destruct p; simpl; eauto. Qed.
Lemma unbinary_binary p : unbinary (binary p) = Some p.
Proof.
  induction p as [p IH|p IH|]; [| |done]; simpl; destruct (binary_cons p) as (c & t & E); rewrite E in *; simpl in *; by rewrite IH.
Qed.
Definition from_text {A} `{Countable A} (s : string) : res A :=
  match unbinary s with Some p => match decode p with Some a => Ok a | None => Raise ValueError end | None => Raise ValueError end.
Lemma from_text_encode {A} `{Countable A} (a : A) : from_text (binary (encode a)) = Ok a.
Proof. unfold from_text. by rewrite unbinary_binary, decode_encode. Qed.

(** Keys are numbers, texts are binary codes, names have at most 64 characters
    and a certificate must not end before it begins. *)
Program Definition toy_x509 : X509 := {|
  PrivateKey := Z; PublicKey := Z; public_of k := k + 1000;
  load_private_key s := (let* k := from_text s in Ok (Some k)); private_key_pem k := binary (encode k);
  load_certificate := from_text; certificate_pem c := binary (encode c);
  load_csr := from_text; csr_pem r := binary (encode r);
  name_check n := if (String.length n <=? 64)%nat then Ok tt else Raise ValueError;
  builder_check t := if not_before t <=? not_after t then Ok tt else Raise ValueError |}.
Next Obligation. intros k. cbv beta. rewrite (from_text_encode k). reflexivity. Qed.
Next Obligation. intros c _. apply from_text_encode. Qed.
Next Obligation. intros r. apply from_text_encode. Qed.
Definition open_disk : Disk := {| make_parent _ := Ok tt; may_write _ := Ok tt |}.

Section Examples.
#[local] Existing Instance toy_x509.
#[local] Existing Instance open_disk.
Definition first_boot : Fresh := MkFresh _ (1000 * us_per_day) (7 : Z) 1.
Definition later_boot : Fresh := MkFresh _ (2000 * us_per_day) (8 : Z) 2.
Definition make_ca (v : Fresh) : SR fs CertificateAuthority := load_or_create_ca "ca.pem" "ca.key" "ca" 3650 v.
Definition make_leaf (ca : CertificateAuthority) (v : Fresh) : SR fs unit :=
  issue_or_load_leaf_identity ca "m.pem" "m.key" "fm" 90 ["fm"] ["::1"] v.
Definition no_ca : CertificateAuthority := MkCA (0 : Z) (MkCert (MkTemplate "" "" 0 0 0 0 None None None) 0).
Definition value {A} (d : A) (r : fs * res A) : A := match r.2 with Ok a => a | Raise _ => d end.
Definition first_ca : CertificateAuthority := value no_ca (make_ca first_boot ∅).
Definition ca_files : fs := fst (make_ca first_boot ∅).
Definition leaf_files : fs := fst (make_leaf first_ca first_boot ca_files).
Definition returns {A} (r : fs * res A) : bool := match r.2 with Ok _ => true | Raise _ => false end.
Lemma returns_value {A} (d : A) (r : fs * res A) : returns r = true -> r = (r.1, Ok (value d r)).
Proof. destruct r as [f [a|e]]; done. Qed.
Lemma made_ca : make_ca first_boot ∅ = (ca_files, Ok first_ca).
Proof. apply returns_value. vm_compute. reflexivity. Qed.
Lemma made_leaf : make_leaf first_ca first_boot ca_files = (leaf_files, Ok tt).
Proof. rewrite (returns_value tt (make_leaf first_ca first_boot ca_files)) by (vm_compute; reflexivity). by destruct (value _ _). Qed.

Definition device_request : string := csr_pem (MkCsr "admin" (1042 : Z) true).
Lemma authority_grants_only_what_is_asked_witness :
  exists out, sign_csr first_ca device_request "dev" 90 [] [] first_boot = Ok out /\
  exists csr c, load_csr device_request = Ok csr /\ is_signature_valid csr = true /\ load_certificate out = Ok c /\
    issued first_ca (csr_public_key csr) "dev" 90 [] [] first_boot c /\
    forall claimed, sign_csr first_ca (csr_pem (MkCsr claimed (csr_public_key csr) true)) "dev" 90 [] [] first_boot = Ok out.
Proof.
  set (out := match sign_csr first_ca device_request "dev" 90 [] [] first_boot with Ok o => o | Raise _ => "" end).
  assert (sign_csr first_ca device_request "dev" 90 [] [] first_boot = Ok out) as E by (vm_compute; reflexivity).
  exists out. split; [exact E|]. exact (authority_grants_only_what_is_asked _ _ _ _ _ _ _ _ E).
Defined.
Lemma authority_survives_restart_witness :
  make_ca later_boot ca_files = (ca_files, Ok first_ca) /\ ca_ok first_ca.
Proof.
  destruct (authority_survives_restart "ca.pem" "ca.key" "ca" 3650 first_boot ∅ ca_files first_ca ltac:(done) made_ca) as (A & _ & B).
  split; [apply A|by apply B].
Defined.
Lemma issued_identity_is_trusted_witness : exists c,
  load_certificate <$> leaf_files !! "m.pem" = Some (Ok c) /\ subject_alt_name (tbs c) = Some [DNSName "fm"; IPAddress "::1"] /\
  trusts (ca_certificate first_ca) c (1001 * us_per_day).
Proof.
  destruct (issued_identity_is_trusted first_ca "m.pem" "m.key" "fm" 90 ["fm"] ["::1"]
    first_boot ca_files leaf_files ltac:(by split) ltac:(done) ltac:(vm_compute; reflexivity) made_leaf) as (c & k & C & _ & _ & S & T & _).
  exists c. split_and!; [exact C|exact S|]. apply T. vm_compute. split; [intros [=]|reflexivity].
Defined.

(** The manager's own identity is not renewed: a start-up long after it expired
    keeps presenting it. *)
Example expired_identity_kept :
  make_leaf first_ca later_boot leaf_files = (leaf_files, Ok tt) /\
  (not_after ∘ tbs <$> (leaf_files !! "m.pem" ≫= fun b => match load_certificate b with Ok c => Some c | _ => None end)) =
    Some (1090 * us_per_day).
Proof.
  split; [|vm_compute; reflexivity]. unfold make_leaf. apply (leaf_present first_ca "m.pem" "m.key" "fm" 90 ["fm"] ["::1"] later_boot leaf_files).
  vm_compute. reflexivity.
Qed.

(** If one of the authority's files is lost, a start-up makes a new authority
    but keeps the manager identity the old one signed, which nobody trusts. *)
Example lost_ca_key_orphans_identity :
  let f := delete "ca.key" leaf_files in
  let ca := value no_ca (make_ca later_boot f) in
  let f' := fst (make_leaf ca later_boot (fst (make_ca later_boot f))) in
  ca_private_key ca = 8 /\ f' !! "m.pem" = leaf_files !! "m.pem" /\
  match load_certificate <$> f' !! "m.pem" with
  | Some (Ok c) => signed_by c <> public_key (tbs (ca_certificate ca))
  | _ => False
  end.
Proof. vm_compute. split_and!; [reflexivity|reflexivity|intros [=]]. Qed.
End Examples.

(** A key file that exists but cannot be written: the new certificate is stored
    beside the old key, and the next start-up loads the pair that does not match. *)
Example mismatched_pair_loaded :
  let disk : Disk := {| make_parent _ := Ok tt; may_write p := if String.eqb p "ca.key" then Raise PermissionError else Ok tt |} in
  let old : fs := {[ "ca.key" := @private_key_pem toy_x509 (5 : Z) ]} in
  let r := @load_or_create_ca toy_x509 disk "ca.pem" "ca.key" "ca" 10 first_boot old in
  r.2 = Raise PermissionError /\
  match (@load_or_create_ca toy_x509 disk "ca.pem" "ca.key" "ca" 10 later_boot r.1).2 with
  | Ok ca => ca_private_key ca = 5 /\ public_key (tbs (ca_certificate ca)) = 1007
  | Raise _ => False
  end.
Proof. vm_compute. repeat split; reflexivity. Qed.
