(* ===== verification/FleetMigrations.v ===== *)
(** * Database migrations (src/xedge/fleet/migrations/versions, fleet/migrate.py)

    The three revisions as lists of schema operations, the schema that the
    declarative models of fleet/db_models.py describe, and the meaning PostgreSQL
    gives the operations: names must be free to be created and present to be
    dropped, a foreign key needs its target, a table another one refers to cannot
    be dropped, and dropping a table or a column drops the indexes on it.  Alembic
    is a parameter, assumed to run the pending revisions in order. *)

From S2P Require Import Prelude.
Local Open Scope string_scope.
Local Open Scope list_scope.

(** ** Schemas *)

Inductive col_type := UUID | Text | DateTimeTz | Float | Integer | JSONB | Boolean.
#[export] Instance col_type_eq : EqDecision col_type.
Proof. solve_decision. Defined.
Record column := MkColumn { ctype : col_type; nullable : bool; autoincrement : bool }.
#[export] Instance column_eq : EqDecision column.
Proof. solve_decision. Defined.
(** A foreign key on one column, as all of them are. *)
Record fkey := MkFk { fk_column : string; ref_table : string; ref_column : string; on_delete_cascade : bool }.
#[export] Instance fkey_eq : EqDecision fkey.
Proof. solve_decision. Defined.
#[export] Instance fkey_countable : Countable fkey.
Proof.
  refine (inj_countable' (fun f => (fk_column f, ref_table f, ref_column f, on_delete_cascade f)) (fun '(a, b, c, d) => MkFk a b c d) _).
  by intros [].
Defined.
(** Columns and constraints of a table have no order. *)
Record table := MkTable { columns : gmap string column; primary_key : list string; foreign_keys : gset fkey; uniques : gset (list string) }.
#[export] Instance table_eq : EqDecision table.
Proof. solve_decision. Defined.
Record index := MkIndex { ix_table : string; ix_columns : list string; ix_unique : bool }.
#[export] Instance index_eq : EqDecision index.
Proof. solve_decision. Defined.
Record schema := MkSchema { tables : gmap string table; indexes : gmap string index }.
#[export] Instance schema_eq : EqDecision schema.
Proof. solve_decision. Defined.
Definition empty_schema : schema := MkSchema ∅ ∅.

(** What [op.create_table] is given. *)
Inductive item :=
  | Column (name : string) (c : column)
  | PrimaryKeyConstraint (cols : list string)
  | ForeignKeyConstraint (f : fkey)
  | UniqueConstraint (cols : list string).
Inductive op :=
  | create_table (name : string) (items : list item)
  | create_index (name table : string) (cols : list string) (unique : bool)
  | add_column (table name : string) (c : column)
  | drop_column (table name : string)
  | drop_index (name table : string)
  | drop_table (name : string).

(** ** The meaning of the operations *)

Definition empty_table : table := MkTable ∅ [] ∅ ∅.
Definition add_item (t : table) (i : item) : res table :=
  match i with
  | Column n c =>
      raise_if bool_decide (is_Some (columns t !! n)) with ProgrammingError;
      Ok (MkTable (<[n := c]> (columns t)) (primary_key t) (foreign_keys t) (uniques t))
  | PrimaryKeyConstraint l => Ok (MkTable (columns t) l (foreign_keys t) (uniques t))
  | ForeignKeyConstraint f => Ok (MkTable (columns t) (primary_key t) ({[f]} ∪ foreign_keys t) (uniques t))
  | UniqueConstraint l => Ok (MkTable (columns t) (primary_key t) (foreign_keys t) ({[l]} ∪ uniques t))
  end.
Fixpoint build_table (t : table) (items : list item) : res table :=
  match items with [] => Ok t | i :: rest => let* t := add_item t i in build_table t rest end.

Definition has_column (t : table) (c : string) : Prop := is_Some (columns t !! c).
(** A foreign key refers to a column that is unique in its table. *)
Definition target_ok (ts : gmap string table) (f : fkey) : Prop :=
  match ts !! ref_table f with
  | Some t => has_column t (ref_column f) /\ (primary_key t = [ref_column f] \/ [ref_column f] ∈ uniques t)
  | None => False
  end.
#[export] Instance target_ok_dec ts f : Decision (target_ok ts f).
Proof. unfold target_ok, has_column. destruct (ts !! ref_table f); apply _. Defined.
(** The constraints of a table are about its columns, and its foreign keys
    have their targets. *)
Record table_ok (ts : gmap string table) (t : table) : Prop := {
  pk_columns : Forall (has_column t) (primary_key t);
  fk_columns : set_Forall (fun f => has_column t (fk_column f)) (foreign_keys t);
  unique_columns : set_Forall (Forall (has_column t)) (uniques t);
  fk_targets : set_Forall (target_ok ts) (foreign_keys t) }.
#[export] Instance table_ok_dec ts t : Decision (table_ok ts t).
Proof.
  destruct (decide (Forall (fun c => is_Some (columns t !! c)) (primary_key t) /\
    set_Forall (fun f => is_Some (columns t !! fk_column f)) (foreign_keys t) /\
    set_Forall (Forall (fun c => is_Some (columns t !! c))) (uniques t) /\ set_Forall (target_ok ts) (foreign_keys t)))
    as [(A & B & C & D)|N]; [left; by split | right; intros [A B C D]; by apply N].
Defined.
(** Whether a table other than [except] has a foreign key in [P]. *)
Definition referenced (P : fkey -> bool) (except : string) (ts : gmap string table) : bool :=
  existsb (fun '(n, t) => negb (String.eqb n except) && existsb P (elements (foreign_keys t))) (map_to_list ts).
Definition without_column (c : string) (t : table) : table :=
  MkTable (delete c (columns t)) (if decide (c ∈ primary_key t) then [] else primary_key t)
    (filter (fun f => fk_column f <> c) (foreign_keys t)) (filter (fun l => c ∉ l) (uniques t)).

Definition apply_op (o : op) (s : schema) : res schema :=
  match o with
  | create_table n items =>
      raise_if bool_decide (is_Some (tables s !! n)) with ProgrammingError;
      let* t := build_table empty_table items in
      let ts := <[n := t]> (tables s) in
      raise_if negb (bool_decide (table_ok ts t)) with ProgrammingError;
      Ok (MkSchema ts (indexes s))
  | create_index n tn cols u =>
      raise_if bool_decide (is_Some (indexes s !! n)) with ProgrammingError;
      match tables s !! tn with
      | None => Raise ProgrammingError
      | Some t =>
          raise_if negb (bool_decide (Forall (fun c => is_Some (columns t !! c)) cols)) with ProgrammingError;
          Ok (MkSchema (tables s) (<[n := MkIndex tn cols u]> (indexes s)))
      end
  | add_column tn c d =>
      match tables s !! tn with
      | None => Raise ProgrammingError
      | Some t =>
          raise_if bool_decide (is_Some (columns t !! c)) with ProgrammingError;
          Ok (MkSchema (<[tn := MkTable (<[c := d]> (columns t)) (primary_key t) (foreign_keys t) (uniques t)]> (tables s)) (indexes s))
      end
  | drop_column tn c =>
      match tables s !! tn with
      | None => Raise ProgrammingError
      | Some t =>
          raise_if negb (bool_decide (is_Some (columns t !! c))) with ProgrammingError;
          raise_if referenced (fun f => String.eqb (ref_table f) tn && String.eqb (ref_column f) c) tn (tables s) with ProgrammingError;
          Ok (MkSchema (<[tn := without_column c t]> (tables s))
                (filter (fun p => ~ (ix_table p.2 = tn /\ c ∈ ix_columns p.2)) (indexes s)))
      end
  | drop_index n tn =>
      raise_if negb (bool_decide (is_Some (indexes s !! n))) with ProgrammingError;
      Ok (MkSchema (tables s) (delete n (indexes s)))
  | drop_table n =>
      raise_if negb (bool_decide (is_Some (tables s !! n))) with ProgrammingError;
      raise_if referenced (fun f => String.eqb (ref_table f) n) n (tables s) with ProgrammingError;
      Ok (MkSchema (delete n (tables s)) (filter (fun p => ix_table p.2 <> n) (indexes s)))
  end.
Fixpoint apply_ops (l : list op) (s : schema) : res schema :=
  match l with [] => Ok s | o :: rest => let* s := apply_op o s in apply_ops rest s end.

(** ** The revisions *)

Definition upgrade_initial_schema : list op :=
  [ create_table "tenants"
      [Column "id" (MkColumn UUID false false);
       Column "name" (MkColumn Text false false);
       Column "created_at" (MkColumn DateTimeTz false false);
       PrimaryKeyConstraint ["id"];
       UniqueConstraint ["name"]];
    create_table "devices"
      [Column "device_id" (MkColumn Text false false);
       Column "tenant_id" (MkColumn UUID false false);
       Column "display_name" (MkColumn Text true false);
       Column "token_hash" (MkColumn Text false false);
       Column "registered_at" (MkColumn DateTimeTz false false);
       Column "agent_version" (MkColumn Text true false);
       Column "heartbeat_interval_seconds" (MkColumn Float false false);
       Column "last_seen_at" (MkColumn DateTimeTz true false);
       Column "driver_count" (MkColumn Integer true false);
       Column "uptime_seconds" (MkColumn Float true false);
       Column "last_config_apply_json" (MkColumn JSONB true false);
       Column "pending_config_json" (MkColumn JSONB true false);
       Column "pending_config_version" (MkColumn Integer false false);
       Column "cert_serial_number" (MkColumn Text true false);
       Column "cert_not_after" (MkColumn DateTimeTz true false);
       Column "serial_number" (MkColumn Text true false);
       Column "make" (MkColumn Text true false);
       Column "protocol" (MkColumn Text true false);
       Column "hardware_firmware_version" (MkColumn Text true false);
       ForeignKeyConstraint (MkFk "tenant_id" "tenants" "id" false);
       PrimaryKeyConstraint ["device_id"]];
    create_index "ix_devices_tenant_id" "devices" ["tenant_id"] false;
    create_table "join_tokens"
      [Column "token_hash" (MkColumn Text false false);
       Column "tenant_id" (MkColumn UUID false false);
       Column "device_id" (MkColumn Text false false);
       Column "created_at" (MkColumn DateTimeTz false false);
       Column "expires_at" (MkColumn DateTimeTz false false);
       Column "consumed_at" (MkColumn DateTimeTz true false);
       ForeignKeyConstraint (MkFk "tenant_id" "tenants" "id" false);
       PrimaryKeyConstraint ["token_hash"]];
    create_index "ix_join_tokens_tenant_id" "join_tokens" ["tenant_id"] false ].
Definition downgrade_initial_schema : list op :=
  [ drop_index "ix_join_tokens_tenant_id" "join_tokens";
    drop_table "join_tokens";
    drop_index "ix_devices_tenant_id" "devices";
    drop_table "devices";
    drop_table "tenants" ].
Definition upgrade_user_accounts : list op :=
  [ create_table "fleet_audit_log"
      [Column "id" (MkColumn Integer false true);
       Column "tenant_id" (MkColumn UUID false false);
       Column "created_at" (MkColumn DateTimeTz false false);
       Column "actor" (MkColumn Text false false);
       Column "event" (MkColumn Text false false);
       Column "details" (MkColumn JSONB false false);
       ForeignKeyConstraint (MkFk "tenant_id" "tenants" "id" false);
       PrimaryKeyConstraint ["id"]];
    create_index "ix_fleet_audit_log_tenant_id_created_at" "fleet_audit_log" ["tenant_id"; "created_at"] false;
    create_table "fleet_users"
      [Column "id" (MkColumn UUID false false);
       Column "tenant_id" (MkColumn UUID false false);
       Column "username" (MkColumn Text false false);
       Column "password_hash" (MkColumn Text false false);
       Column "role" (MkColumn Text false false);
       Column "created_at" (MkColumn DateTimeTz false false);
       ForeignKeyConstraint (MkFk "tenant_id" "tenants" "id" false);
       PrimaryKeyConstraint ["id"]];
    create_index "ix_fleet_users_tenant_id" "fleet_users" ["tenant_id"] false;
    create_index "ix_fleet_users_tenant_id_username" "fleet_users" ["tenant_id"; "username"] true;
    create_table "fleet_sessions"
      [Column "token_hash" (MkColumn Text false false);
       Column "user_id" (MkColumn UUID false false);
       Column "created_at" (MkColumn DateTimeTz false false);
       Column "expires_at" (MkColumn DateTimeTz false false);
       ForeignKeyConstraint (MkFk "user_id" "fleet_users" "id" true);
       PrimaryKeyConstraint ["token_hash"]];
    create_index "ix_fleet_sessions_expires_at" "fleet_sessions" ["expires_at"] false ].
Definition downgrade_user_accounts : list op :=
  [ drop_index "ix_fleet_sessions_expires_at" "fleet_sessions";
    drop_table "fleet_sessions";
    drop_index "ix_fleet_users_tenant_id_username" "fleet_users";
    drop_index "ix_fleet_users_tenant_id" "fleet_users";
    drop_table "fleet_users";
    drop_index "ix_fleet_audit_log_tenant_id_created_at" "fleet_audit_log";
    drop_table "fleet_audit_log" ].
Definition upgrade_revocation_and_history : list op :=
  [ create_table "device_certificate_history"
      [Column "id" (MkColumn Integer false true);
       Column "tenant_id" (MkColumn UUID false false);
       Column "device_id" (MkColumn Text false false);
       Column "serial_number" (MkColumn Text false false);
       Column "not_before" (MkColumn DateTimeTz false false);
       Column "not_after" (MkColumn DateTimeTz false false);
       Column "issued_at" (MkColumn DateTimeTz false false);
       Column "reason" (MkColumn Text false false);
       ForeignKeyConstraint (MkFk "device_id" "devices" "device_id" false);
       ForeignKeyConstraint (MkFk "tenant_id" "tenants" "id" false);
       PrimaryKeyConstraint ["id"]];
    create_index "ix_device_certificate_history_tenant_id_device_id" "device_certificate_history" ["tenant_id"; "device_id"] false;
    create_table "device_config_history"
      [Column "id" (MkColumn Integer false true);
       Column "tenant_id" (MkColumn UUID false false);
       Column "device_id" (MkColumn Text false false);
       Column "config_version" (MkColumn Integer false false);
       Column "config_json" (MkColumn JSONB false false);
       Column "pushed_at" (MkColumn DateTimeTz false false);
       Column "pushed_by" (MkColumn Text false false);
       Column "applied_at" (MkColumn DateTimeTz true false);
       Column "apply_success" (MkColumn Boolean true false);
       Column "apply_error" (MkColumn Text true false);
       ForeignKeyConstraint (MkFk "device_id" "devices" "device_id" false);
       ForeignKeyConstraint (MkFk "tenant_id" "tenants" "id" false);
       PrimaryKeyConstraint ["id"]];
    create_index "ix_device_config_history_device_id_version" "device_config_history" ["device_id"; "config_version"] true;
    create_index "ix_device_config_history_tenant_id_device_id" "device_config_history" ["tenant_id"; "device_id"] false;
    add_column "join_tokens" "revoked_at" (MkColumn DateTimeTz true false);
    add_column "join_tokens" "revoked_by" (MkColumn Text true false) ].
Definition downgrade_revocation_and_history : list op :=
  [ drop_column "join_tokens" "revoked_by";
    drop_column "join_tokens" "revoked_at";
    drop_index "ix_device_config_history_tenant_id_device_id" "device_config_history";
    drop_index "ix_device_config_history_device_id_version" "device_config_history";
    drop_table "device_config_history";
    drop_index "ix_device_certificate_history_tenant_id_device_id" "device_certificate_history";
    drop_table "device_certificate_history" ].

Record migration := MkMigration { revision : string; down_revision : option string; upgrade : list op; downgrade : list op }.
Definition initial_schema : migration := MkMigration "73f30b1f865d" None upgrade_initial_schema downgrade_initial_schema.
Definition user_accounts : migration := MkMigration "f4b009717dbc" (Some "73f30b1f865d") upgrade_user_accounts downgrade_user_accounts.
Definition revocation_and_history : migration :=
  MkMigration "25c58a9f802b" (Some "f4b009717dbc") upgrade_revocation_and_history downgrade_revocation_and_history.
Definition versions : list migration := [initial_schema; user_accounts; revocation_and_history].

(** ** The declarative models (fleet/db_models.py) *)

(** [Mapped[T]] with the options of its [mapped_column]; the column type follows
    from [T] by the type annotation map, nullable when [T] admits [None]. *)
Record mapped := MkMapped {
  mp_name : string; mp_type : col_type; mp_nullable : bool; mp_primary_key : bool; mp_unique : bool; mp_autoincrement : bool;
  mp_foreign_key : option (string * string * bool) }.
Definition required (n : string) (ty : col_type) : mapped := MkMapped n ty false false false false None.
Definition optional (n : string) (ty : col_type) : mapped := MkMapped n ty true false false false None.
Definition key (n : string) (ty : col_type) : mapped := MkMapped n ty false true false false None.
Definition serial (n : string) : mapped := MkMapped n Integer false true false true None.
Definition foreign (n : string) (ty : col_type) (t c : string) (cascade : bool) : mapped :=
  MkMapped n ty false false false false (Some (t, c, cascade)).
Record model := MkModel { tablename : string; fields : list mapped; table_args : list (string * (list string * bool)) }.

Definition Tenant : model :=
  MkModel "tenants" [key "id" UUID; MkMapped "name" Text false false true false None; required "created_at" DateTimeTz] [].
Definition Device : model :=
  MkModel "devices"
    [key "device_id" Text; foreign "tenant_id" UUID "tenants" "id" false; optional "display_name" Text; required "token_hash" Text;
     required "registered_at" DateTimeTz; optional "agent_version" Text; required "heartbeat_interval_seconds" Float;
     optional "last_seen_at" DateTimeTz; optional "driver_count" Integer; optional "uptime_seconds" Float;
     optional "last_config_apply_json" JSONB; optional "pending_config_json" JSONB; required "pending_config_version" Integer;
     optional "cert_serial_number" Text; optional "cert_not_after" DateTimeTz; optional "serial_number" Text; optional "make" Text;
     optional "protocol" Text; optional "hardware_firmware_version" Text]
    [("ix_devices_tenant_id", (["tenant_id"], false))].
Definition JoinToken : model :=
  MkModel "join_tokens"
    [key "token_hash" Text; foreign "tenant_id" UUID "tenants" "id" false; required "device_id" Text; required "created_at" DateTimeTz;
     required "expires_at" DateTimeTz; optional "consumed_at" DateTimeTz; optional "revoked_at" DateTimeTz; optional "revoked_by" Text]
    [("ix_join_tokens_tenant_id", (["tenant_id"], false))].
Definition FleetUser : model :=
  MkModel "fleet_users"
    [key "id" UUID; foreign "tenant_id" UUID "tenants" "id" false; required "username" Text; required "password_hash" Text;
     required "role" Text; required "created_at" DateTimeTz]
    [("ix_fleet_users_tenant_id", (["tenant_id"], false)); ("ix_fleet_users_tenant_id_username", (["tenant_id"; "username"], true))].
Definition FleetSession : model :=
  MkModel "fleet_sessions"
    [key "token_hash" Text; foreign "user_id" UUID "fleet_users" "id" true; required "created_at" DateTimeTz; required "expires_at" DateTimeTz]
    [("ix_fleet_sessions_expires_at", (["expires_at"], false))].
Definition FleetAuditLogEntry : model :=
  MkModel "fleet_audit_log"
    [serial "id"; foreign "tenant_id" UUID "tenants" "id" false; required "created_at" DateTimeTz; required "actor" Text;
     required "event" Text; required "details" JSONB]
    [("ix_fleet_audit_log_tenant_id_created_at", (["tenant_id"; "created_at"], false))].
Definition DeviceConfigHistory : model :=
  MkModel "device_config_history"
    [serial "id"; foreign "tenant_id" UUID "tenants" "id" false; foreign "device_id" Text "devices" "device_id" false;
     required "config_version" Integer; required "config_json" JSONB; required "pushed_at" DateTimeTz; required "pushed_by" Text;
     optional "applied_at" DateTimeTz; optional "apply_success" Boolean; optional "apply_error" Text]
    [("ix_device_config_history_tenant_id_device_id", (["tenant_id"; "device_id"], false));
     ("ix_device_config_history_device_id_version", (["device_id"; "config_version"], true))].
Definition DeviceCertificateHistory : model :=
  MkModel "device_certificate_history"
    [serial "id"; foreign "tenant_id" UUID "tenants" "id" false; foreign "device_id" Text "devices" "device_id" false;
     required "serial_number" Text; required "not_before" DateTimeTz; required "not_after" DateTimeTz; required "issued_at" DateTimeTz;
     required "reason" Text]
    [("ix_device_certificate_history_tenant_id_device_id", (["tenant_id"; "device_id"], false))].
Definition models : list model :=
  [Tenant; Device; JoinToken; FleetUser; FleetSession; FleetAuditLogEntry; DeviceConfigHistory; DeviceCertificateHistory].

(** The table a class declares, and [Base.metadata]. *)
Definition table_of (m : model) : table :=
  MkTable (list_to_map (map (fun f => (mp_name f, MkColumn (mp_type f) (mp_nullable f) (mp_autoincrement f))) (fields m)))
    (map mp_name (List.filter mp_primary_key (fields m)))
    (list_to_set (omap (fun f => (fun '(t, c, cas) => MkFk (mp_name f) t c cas) <$> mp_foreign_key f) (fields m)))
    (list_to_set (map (fun f => [mp_name f]) (List.filter mp_unique (fields m)))).
Definition indexes_of (m : model) : list (string * index) :=
  map (fun '(n, (cols, u)) => (n, MkIndex (tablename m) cols u)) (table_args m).
Definition Base_metadata : schema :=
  MkSchema (list_to_map (map (fun m => (tablename m, table_of m)) models)) (list_to_map (mjoin (map indexes_of models))).

(** ** Undoing an operation *)

Record schema_ok (s : schema) : Prop := {
  tables_ok : map_Forall (fun _ t => table_ok (tables s) t) (tables s);
  indexes_ok : map_Forall (fun _ i => exists t, tables s !! ix_table i = Some t /\ Forall (has_column t) (ix_columns i)) (indexes s) }.
Definition undo (o : op) : option op :=
  match o with
  | create_table n _ => Some (drop_table n)
  | create_index n t _ _ => Some (drop_index n t)
  | add_column t c _ => Some (drop_column t c)
  | _ => None
  end.

(** A table that has gained columns, and tables that have grown. *)
Definition widens (t t' : table) : Prop :=
  primary_key t' = primary_key t /\ uniques t' = uniques t /\ forall c, has_column t c -> has_column t' c.
Definition grows (ts ts' : gmap string table) : Prop :=
  forall n t, ts !! n = Some t -> exists t', ts' !! n = Some t' /\ widens t t'.
Lemma widens_refl t : widens t t.
Proof. done. Qed.
Lemma target_ok_grows ts ts' f : grows ts ts' -> target_ok ts f -> target_ok ts' f.
Proof.
  unfold target_ok. intros G. destruct (ts !! ref_table f) as [t|] eqn:E; [|done]. intros [C K].
  destruct (G _ _ E) as (t' & -> & P & U & W). rewrite P, U. auto.
Qed.
Lemma table_ok_grows ts ts' t t' :
  grows ts ts' -> widens t t' -> foreign_keys t' = foreign_keys t -> table_ok ts t -> table_ok ts' t'.
Proof.
  intros G (P & U & W) F [A B C D]. split; rewrite ?P, ?U, ?F.
  - eapply Forall_impl; [exact A|auto].
  - intros f Hf. apply W, (B f Hf).
  - intros l Hl. eapply Forall_impl; [exact (C l Hl)|auto].
  - intros f Hf. eapply target_ok_grows; [done|exact (D f Hf)].
Qed.
Lemma indexes_ok_grows s ts' : schema_ok s -> grows (tables s) ts' ->
  map_Forall (fun _ i => exists t, ts' !! ix_table i = Some t /\ Forall (has_column t) (ix_columns i)) (indexes s).
Proof.
  intros [_ I] G n i E. destruct (I n i E) as (t & T & C). destruct (G _ _ T) as (t' & T' & _ & _ & W).
  exists t'. split; [done|]. eapply Forall_impl; [exact C|auto].
Qed.
Lemma referenced_false P x ts :
  (forall n t f, ts !! n = Some t -> n <> x -> f ∈ foreign_keys t -> P f = false) -> referenced P x ts = false.
Proof.
  intros A. unfold referenced. apply not_true_iff_false. rewrite existsb_exists. intros ([n t] & I & E).
  apply list_elem_of_In, elem_of_map_to_list in I. apply andb_true_iff in E as [N E%existsb_exists].
  destruct E as (f & F & T). apply list_elem_of_In, elem_of_elements in F.
  rewrite (A n t f I) in T; [done| |done]. by apply negb_true_iff, String.eqb_neq in N.
Qed.
(** Foreign keys have their targets, so none refers to what is not there. *)
Lemma fk_target_present s n t f : schema_ok s -> tables s !! n = Some t -> f ∈ foreign_keys t ->
  exists t', tables s !! ref_table f = Some t' /\ has_column t' (ref_column f).
Proof.
  intros [T _] E F. pose proof (fk_targets _ _ (T n t E) f F) as K. unfold target_ok in K. revert K. destruct (tables s !! ref_table f) as [t'|]; [|done]. intros [K _]. by exists t'.
Qed.
Lemma map_filter_all {A} (P : string * A -> Prop) `{!forall x, Decision (P x)} (m : gmap string A) :
  (forall k x, m !! k = Some x -> P (k, x)) -> filter P m = m.
Proof. intros E. apply map_filter_id. exact E. Qed.
Lemma filter_all_set `{Countable A} (P : A -> Prop) `{!forall x, Decision (P x)} (X : gset A) : set_Forall P X -> filter P X = X.
Proof. intros E. apply set_eq. intros x. rewrite elem_of_filter. split; [by intros [_ ?]|]. intros I. split; [by apply E|done]. Qed.

Lemma undo_create_table n items s s' :
  schema_ok s -> apply_op (create_table n items) s = Ok s' -> schema_ok s' /\ apply_op (drop_table n) s' = Ok s.
Proof.
  intros OK. simpl. unfold guard_raise. case_bool_decide as N; [done|]. apply eq_None_not_Some in N.
  destruct (build_table _ _) as [t|]; simpl; [|done]. case_bool_decide as T; [|done]. simpl. intros [= <-].
  assert (grows (tables s) (<[n := t]> (tables s))) as G.
  { intros m u E. exists u. split; [|done]. apply lookup_insert_Some. right. split; [congruence|done]. }
  split.
  - split; simpl; [|by apply indexes_ok_grows].
    intros m u [[<- <-]|[_ E]]%lookup_insert_Some; [done|]. eapply table_ok_grows; [done|apply widens_refl|done|by apply (tables_ok s OK m)].
  - simpl. rewrite bool_decide_eq_true_2 by (rewrite lookup_insert_eq; eauto). simpl. rewrite referenced_false.
    + rewrite delete_insert_id by done. rewrite map_filter_all; [by destruct s|]. intros k i E X. simpl in X.
      destruct (indexes_ok s OK k i E) as (u & U & _). congruence.
    + intros m u f [[<- <-]|[_ E]]%lookup_insert_Some M F; [done|]. apply String.eqb_neq. intros R.
      destruct (fk_target_present s m u f OK E F) as (v & V & _). congruence.
Qed.
Lemma undo_create_index n tn cols u s s' :
  schema_ok s -> apply_op (create_index n tn cols u) s = Ok s' -> schema_ok s' /\ apply_op (drop_index n tn) s' = Ok s.
Proof.
  intros OK. simpl. unfold guard_raise. case_bool_decide as N; [done|]. apply eq_None_not_Some in N.
  destruct (tables s !! tn) as [t|] eqn:T; [|done]. case_bool_decide as C; [|done]. simpl. intros [= <-]. split.
  - split; simpl; [apply OK|]. intros m i [[<- <-]|[_ E]]%lookup_insert_Some; [by exists t|by apply (indexes_ok s OK m)].
  - simpl. rewrite bool_decide_eq_true_2 by (rewrite lookup_insert_eq; eauto). simpl. rewrite delete_insert_id by done. by destruct s.
Qed.
(** Dropping a column nothing mentions gives back the table. *)
Lemma without_new_column ts t c d :
  table_ok ts t -> columns t !! c = None ->
  without_column c (MkTable (<[c := d]> (columns t)) (primary_key t) (foreign_keys t) (uniques t)) = t.
Proof.
  intros [A B C _] N. unfold without_column. simpl. rewrite delete_insert_id by done.
  assert (forall x, has_column t x -> x <> c) as X by (intros x [? ?] ->; congruence).
  rewrite decide_False. 2:{ intros I. rewrite Forall_forall in A. by destruct (X _ (A _ I)). }
  rewrite (filter_all_set (fun f => fk_column f <> c)), (filter_all_set (fun l => c ∉ l)); [by destruct t| |].
  - intros l L I. specialize (C l L). rewrite Forall_forall in C. by destruct (X _ (C _ I)).
  - intros f F. apply X, (B f F).
Qed.
Lemma undo_add_column tn c d s s' :
  schema_ok s -> apply_op (add_column tn c d) s = Ok s' -> schema_ok s' /\ apply_op (drop_column tn c) s' = Ok s.
Proof.
  intros OK. simpl. destruct (tables s !! tn) as [t|] eqn:T; [|done]. unfold guard_raise. case_bool_decide as N; [done|].
  apply eq_None_not_Some in N. intros [= <-]. set (t' := MkTable (<[c := d]> (columns t)) _ _ _).
  assert (widens t t') as W.
  { split_and!; [done..|]. intros x X. unfold has_column. simpl. rewrite lookup_insert_is_Some'. auto. }
  assert (grows (tables s) (<[tn := t']> (tables s))) as G.
  { intros m u E. destruct (decide (m = tn)) as [->|M]; [|rewrite lookup_insert_ne by done; eauto using widens_refl].
    rewrite lookup_insert_eq. simplify_eq. eauto. }
  split.
  - split; simpl; [|by apply indexes_ok_grows]. intros m u [[<- <-]|[_ E]]%lookup_insert_Some.
    + eapply table_ok_grows; [done|exact W|done|by apply (tables_ok s OK tn)].
    + eapply table_ok_grows; [done|apply widens_refl|done|by apply (tables_ok s OK m)].
  - simpl. rewrite lookup_insert_eq. rewrite bool_decide_eq_true_2 by (simpl; rewrite lookup_insert_eq; eauto). simpl.
    rewrite referenced_false; [simpl|].
    + rewrite insert_insert_eq. unfold t'. rewrite (without_new_column (tables s)) by (done || by apply (tables_ok s OK tn)).
      rewrite insert_id by done. rewrite map_filter_all; [by destruct s|]. intros k i E [X I]. simpl in X, I.
      destruct (indexes_ok s OK k i E) as (u & U & F). rewrite Forall_forall in F. specialize (F c I) as [? ?]. congruence.
    + intros m u f [[<- <-]|[_ E]]%lookup_insert_Some M F; [done|]. apply andb_false_iff. rewrite !String.eqb_neq.
      destruct (fk_target_present s m u f OK E F) as (v & V & [? C]). destruct (decide (ref_table f = tn)) as [R|]; [right|by left].
      intros R'. congruence.
Qed.
Lemma undo_op o o' s s' :
  schema_ok s -> undo o = Some o' -> apply_op o s = Ok s' -> schema_ok s' /\ apply_op o' s' = Ok s.
Proof.
  intros OK. destruct o; intros [= <-]; [by apply undo_create_table|by apply undo_create_index|by apply undo_add_column].
Qed.
Lemma apply_ops_app l l' s : apply_ops (l ++ l') s = let* s := apply_ops l s in apply_ops l' s.
Proof. revert s. induction l as [|o l IH]; intros s; [done|]. simpl. destruct (apply_op o s); simpl; [apply IH|done]. Qed.
(** Undoing a sequence backwards. *)
Lemma undo_ops l l' s s' :
  schema_ok s -> mapM undo l = Some l' -> apply_ops l s = Ok s' -> schema_ok s' /\ apply_ops (reverse l') s' = Ok s.
Proof.
  revert l' s. induction l as [|o l IH]; intros l' s OK.
  { intros [= <-] [= <-]. done. }
  simpl. intros (o' & U & (k & K & [= <-])%bind_Some)%bind_Some E. destruct (apply_op o s) as [s1|] eqn:A; simpl in E; [|done].
  destruct (undo_op o o' s s1 OK U A) as [OK1 B]. destruct (IH k s1 OK1 K E) as [OK' C]. split; [done|].
  rewrite reverse_cons, apply_ops_app, C. simpl. by rewrite B.
Qed.
Lemma versions_reversible m : m ∈ versions -> exists l, mapM undo (upgrade m) = Some l /\ downgrade m = reverse l.
Proof.
  unfold versions. rewrite !elem_of_cons, elem_of_nil. intros [->|[->|[->|[]]]]; eexists; (split; [reflexivity|vm_compute; reflexivity]).
Qed.
Lemma empty_schema_ok : schema_ok empty_schema.
Proof. split; intros n x; simpl; by rewrite lookup_empty. Qed.

(** Every revision can be taken back: on any consistent schema to which its
    upgrade applies, the upgrade leaves a consistent schema from which its
    downgrade restores the original one. *)
Theorem downgrade_undoes_upgrade m s s' :
  m ∈ versions -> schema_ok s -> apply_ops (upgrade m) s = Ok s' ->
  schema_ok s' /\ apply_ops (downgrade m) s' = Ok s.
Proof. intros (l & U & ->)%versions_reversible OK E. by apply (undo_ops (upgrade m)). Qed.
Lemma downgrade_undoes_upgrade_witness : exists s',
  apply_ops (upgrade initial_schema) empty_schema = Ok s' /\ s' <> empty_schema /\ schema_ok s' /\
  apply_ops (downgrade initial_schema) s' = Ok empty_schema.
Proof.
  set (s' := match apply_ops (upgrade initial_schema) empty_schema with Ok s => s | Raise _ => empty_schema end).
  assert (apply_ops (upgrade initial_schema) empty_schema = Ok s') as E by (vm_compute; reflexivity).
  exists s'. split; [exact E|]. split; [vm_compute; intros [=]|].
  exact (downgrade_undoes_upgrade initial_schema empty_schema s' ltac:(left) empty_schema_ok E).
Defined.

(** ** Upgrading to the latest revision (fleet/migrate.py) *)

(** A database: its schema and the revision [alembic_version] records. *)
Record database := MkDatabase { db_schema : schema; db_version : option string }.
(** Revisions each of which follows the one before. *)
Fixpoint linked (prev : option string) (l : list migration) : bool :=
  match l with [] => true | m :: rest => bool_decide (down_revision m = prev) && linked (Some (revision m)) rest end.
Definition head_of (l : list migration) : option string := revision <$> last l.

Section Alembic.
(** [command.upgrade(config, "head")] with the revisions of the script
    directory, on the database at a URL *)
Context (command_upgrade : list migration -> database -> res database).
(** It runs the upgrades after the recorded revision in order, in one
    transaction, and records the last. *)
Hypothesis upgrade_runs_pending : forall done rest db,
  linked None (done ++ rest) = true -> NoDup (map revision (done ++ rest)) -> db_version db = head_of done ->
  command_upgrade (done ++ rest) db = let* s := apply_ops (mjoin (map upgrade rest)) (db_schema db) in Ok (MkDatabase s (head_of (done ++ rest))).

Definition run_migrations (db : database) : res database := command_upgrade versions db.

(** The database after the first [k] revisions. *)
Definition at_revision (k : nat) (db : database) : Prop :=
  apply_ops (mjoin (map upgrade (take k versions))) empty_schema = Ok (db_schema db) /\ db_version db = head_of (take k versions).
Lemma run_migrations_from k db s :
  db_version db = head_of (take k versions) -> apply_ops (mjoin (map upgrade (drop k versions))) (db_schema db) = Ok s ->
  run_migrations db = Ok (MkDatabase s (head_of versions)).
Proof.
  intros V E. unfold run_migrations. rewrite <- (take_drop k versions).
  rewrite (upgrade_runs_pending (take k versions) (drop k versions) db), E, ?take_drop; [done|rewrite take_drop; done| |done].
  rewrite take_drop. apply (bool_decide_unpack _). vm_compute. exact I.
Qed.

(** From whatever revision a database was left at, start-up brings it to the
    schema the models declare, and a further start-up changes nothing. *)
Theorem migrations_reach_models k db :
  at_revision k db ->
  run_migrations db = Ok (MkDatabase Base_metadata (head_of versions)) /\
  run_migrations (MkDatabase Base_metadata (head_of versions)) = Ok (MkDatabase Base_metadata (head_of versions)).
Proof.
  intros [S V].
  assert (apply_ops (mjoin (map upgrade versions)) empty_schema = Ok Base_metadata) as A by (vm_compute; reflexivity).
  split; [apply (run_migrations_from k); [done|]|by apply (run_migrations_from 3)].
  rewrite <- (take_drop k versions), map_app, join_app, apply_ops_app, S in A. exact A.
Qed.
End Alembic.

(** Alembic on a chain of revisions. *)
Fixpoint pending (version : option string) (l : list migration) : list migration :=
  match l with [] => [] | m :: rest => if decide (down_revision m = version) then l else pending version rest end.
Definition upgrade_chain (l : list migration) (db : database) : res database :=
  let* s := apply_ops (mjoin (map upgrade (pending (db_version db) l))) (db_schema db) in Ok (MkDatabase s (head_of l)).
Lemma pending_after p done rest :
  linked p (done ++ rest) = true -> NoDup (p :: map (Some ∘ revision) (done ++ rest)) ->
  pending (default p (Some ∘ revision <$> last done)) (done ++ rest) = rest.
Proof.
  revert p. induction done as [|m done IH]; intros p; simpl.
  { destruct rest as [|m rest]; [done|]. simpl. intros [D _]%andb_true_iff _. apply bool_decide_eq_true in D. by rewrite decide_True. }
  intros [D L]%andb_true_iff [P N]%NoDup_cons. apply bool_decide_eq_true in D. specialize (IH _ L N).
  assert (default p (Some ∘ revision <$> last (m :: done)) = default (Some (revision m)) (Some ∘ revision <$> last done)) as E.
  { rewrite last_cons. by destruct (last done). }
  simpl in E. rewrite E. rewrite decide_False; [exact IH|]. intros X. apply P. rewrite <- D, X.
  destruct (last done) as [x|] eqn:K; simpl; [|left]. right. apply list_elem_of_fmap. exists x. split; [done|].
  apply elem_of_app. left. by apply last_Some_elem_of.
Qed.
Lemma upgrade_chain_runs done rest db :
  linked None (done ++ rest) = true -> NoDup (map revision (done ++ rest)) -> db_version db = head_of done ->
  upgrade_chain (done ++ rest) db = let* s := apply_ops (mjoin (map upgrade rest)) (db_schema db) in Ok (MkDatabase s (head_of (done ++ rest))).
Proof.
  intros L N V. unfold upgrade_chain. rewrite V.
  assert (head_of done = default None (Some ∘ revision <$> last done)) as -> by (unfold head_of; by destruct (last done)).
  rewrite pending_after; [done|done|]. apply NoDup_cons. split.
  - rewrite list_elem_of_fmap. by intros (x & [=] & _).
  - change (map (Some ∘ revision) ?l) with ((Some ∘ revision) <$> l). rewrite list_fmap_compose. by apply NoDup_fmap_2; [apply _|].
Qed.
Lemma migrations_reach_models_witness :
  run_migrations upgrade_chain (MkDatabase empty_schema None) = Ok (MkDatabase Base_metadata (head_of versions)).
Proof. apply (migrations_reach_models upgrade_chain upgrade_chain_runs 0). split; reflexivity. Defined.
