(* ===== verification/CliClient.v ===== *)
(** * Command line client (src/xedge/cli/client.py)

    The one-shot diagnostic client: log in over HTTP, open the diagnostics socket
    with the session cookie, send one command, print the reply.  The HTTP and
    WebSocket libraries are the class [Network]; [gateway] connects the client
    to the API and the diagnostics socket of this library. *)

From Stdlib Require Import Ascii.
From S2P Require Import Prelude PyText PyFloat PyDict Pipeline ColdStore Supervisor Config AuditLog ApiAuth RestApi Diagnostics.
Local Open Scope string_scope.
Local Open Scope list_scope.
Local Open Scope Z_scope.

Definition DEFAULT_BASE_URL : string := "https://127.0.0.1:8080".

(** The transports.  [httpx.HTTPError] is [ConnectionError] and what the
    WebSocket library raises of its own is [WebSocketException]; a TLS connection
    says whether it verifies the certificate. *)
Class Network (W : Type) := {
  (** status code and session cookie of [POST /api/v1/auth/login] *)
  post_login : string -> bool -> string -> string -> SR W (Z * option string);
  (** connect with the cookie, send one message, receive one *)
  converse : string -> string -> option bool -> json -> SR W json }.

(** [base_url.split("://", 1)[1]] *)
Fixpoint after_scheme (s : string) : option string :=
  match strip_prefix "://" s with
  | Some rest => Some rest
  | None => match s with EmptyString => None | String _ t => after_scheme t end
  end.
Definition starts_with_https (s : string) : bool := match strip_prefix "https" s with Some _ => true | None => false end.

Section Client.
Context `{Network W}.
Local Abbreviation M := (SR W).

(** [command] is [nargs="+"]: its first word and the others. *)
Definition run_command (base_url username password command : string) (args : list string) (insecure : bool) : M json :=
  let! (status, cookie) := post_login base_url (negb insecure) username password in
  if negb (status =? 200) then sraise CliError else
  let! token := match cookie with Some t => if String.eqb t "" then sraise CliError else sret t | None => sraise CliError end in
  let secure := starts_with_https base_url in
  let! rest := match after_scheme base_url with Some r => sret r | None => sraise IndexError end in
  let ws_url := ((if secure then "wss" else "ws") ++ "://" ++ rest ++ "/ws/diagnostics")%string in
  converse ws_url token (if secure then Some (negb insecure) else None)
    (JDict [("command", JStr command); ("args", JList (map JStr args))]).

(** What the process prints and its exit status. *)
Inductive printed := PError (e : exn) | PResult (j : json).
(** [except (httpx.HTTPError, OSError, CliError)] *)
Definition reportable (e : exn) : bool :=
  match e with CliError | ConnectionError | OSError | TimeoutError | FileNotFoundError | PermissionError => true | _ => false end.
Definition main (base_url username password command : string) (args : list string) (insecure : bool) : M (printed * Z) :=
  let! result := scatch (let! j := run_command base_url username password command args insecure in sret (inl j))
    (fun e => if reportable e then sret (inr e) else sraise e) in
  match result with
  | inr e => sret (PError e, 1)
  | inl j => let! s := slift (json_get "status" JNull j) in sret (PResult j, if json_is_str s "ok" then 0 else 1)
  end.
End Client.

(** ** The client and the gateway *)

Section Gateway.
Context `{Host} (on_evict : option (string -> UnifiedTag -> option SqliteColdStore -> option SqliteColdStore * res unit)).
(** The clocks at the login and at the handshake, what the command finds, the id
    of the connection, the address the client calls from. *)
Context (login_env ws_env : RestApi.Env) (p : probe) (session_id : string) (ip : option string).
(** How a command that waits for a driver to stop ends, and the text of results and refusals. *)
Context (wait : session -> json -> json -> waiting -> SR diag outcome) (render : result -> json) (message : problem -> string).
Definition reply_of (o : outcome) : SR diag json :=
  match o with
  | Replied r => sret (JDict [("status", JStr "ok"); ("result", render r)])
  | Refused x => sret (JDict [("status", JStr "error"); ("message", JStr (message x))])
  | Suspended _ _ _ => sraise WebSocketException
  end.
Definition settle (s : session) (o : outcome) : SR diag outcome :=
  match o with Suspended command args w => wait s command args w | _ => sret o end.
Definition gateway : Network diag := {|
  post_login _ _ username password := fun d =>
    match on_api (auth_login username password (MkCaller ip None "/api/v1/auth/login") login_env) d with
    | (d, Ok (SetCookie t, _)) => (d, Ok (200, Some t))
    | (d, Ok (_, _)) => (d, Ok (200, None))
    | (d, Raise (HTTPException c)) => (d, Ok (c, None))
    | (d, Raise _) => (d, Ok (500, None))
    end;
  (** a refused handshake and a handler that fails both close the connection *)
  converse _ token _ request :=
    scatch
      (let! s := accept_socket (MkCaller ip (Some token) "/ws/diagnostics") ws_env session_id in
       match s with
       | None => sraise WebSocketException
       | Some s => let! o := on_message on_evict s (Message request) p in let! o := settle s o in reply_of o
       end)
      (fun _ => sraise WebSocketException) |}.

Definition login_call (username password : string) : SR diag (cookie_action * RestApi.reply) :=
  on_api (auth_login username password (MkCaller ip None "/api/v1/auth/login") login_env).
Definition request (command : string) (args : list string) : json := JDict [("command", JStr command); ("args", JList (map JStr args))].
(** The texts a token is made of keep clear of its separator. *)
Definition token_texts (username : string) : Prop :=
  username <> "" /\ count_char "|" username = 0%nat /\ count_char "|" (h_float_repr (e_time login_env)) = 0%nat /\
  h_parse_float (h_float_repr (e_time login_env)) = Ok (e_time login_env) /\
  forall t, count_char "|" (h_sign t) = 0%nat /\ is_ascii (h_sign t) = true.

Lemma scatch_ok {S A} (m : SR S A) h s s' a :
  scatch m h s = (s', Ok a) -> m s = (s', Ok a) \/ exists s1 e, m s = (s1, Raise e) /\ h e s1 = (s', Ok a).
Proof. unfold scatch. destruct (m s) as [s1 [x|e]]; [intros [= <- <-]; by left|]. right. eauto. Qed.
(** Exit status 0 comes with the reply of [run_command]. *)
Lemma main_zero `{Network W} base u pw command args insecure (d d' : W) out :
  main base u pw command args insecure d = (d', Ok (out, 0)) ->
  exists j, out = PResult j /\ run_command base u pw command args insecure d = (d', Ok j) /\ json_get "status" JNull j = Ok (JStr "ok").
Proof.
  unfold main. intros (d1 & r & E & K)%sbind_inv. destruct r as [j|e]; [|done].
  apply scatch_ok in E as [(d2 & j' & E & [= <- <-])%sbind_inv|(d2 & e & _ & E)]; [|by destruct (reportable e)].
  apply sbind_inv in K as (d3 & s & [= -> S] & [= <- <- O]). exists j'. split_and!; [done..|].
  destruct (json_is_str s "ok") eqn:Q; [|done]. rewrite S. f_equal. revert Q. unfold json_is_str. destruct s; try done. by intros ->%String.eqb_eq.
Qed.
Lemma login_cookie u pw d d1 t rep :
  login_call u pw d = (d1, Ok (SetCookie t, rep)) -> t = issue h_sign h_float_repr u (e_time login_env).
Proof.
  unfold login_call, on_api. destruct (auth_login _ _ _ _ _) as [a r] eqn:E. intros [= <- ->]. unfold auth_login in E.
  apply sbind_inv in E as (a1 & locked & _ & E). destruct locked; [done|]. apply sbind_inv in E as (a2 & ok & _ & E).
  destruct ok; apply sbind_inv in E as (a3 & [] & _ & E); apply sbind_inv in E as (a4 & [] & _ & E).
  - by injection E as _ -> _.
  - done.
Qed.
(** The handshake that follows a login is made by the user who logged in. *)
Lemma accepted_as_user u d d' s :
  token_texts u ->
  accept_socket (MkCaller ip (Some (issue h_sign h_float_repr u (e_time login_env))) "/ws/diagnostics") ws_env session_id d = (d', Ok (Some s)) ->
  exists role, s = MkSession u role session_id /\ on_api (on_users (get_role u)) d = (d', Ok role).
Proof.
  intros (N & U & R & P & S) E. unfold accept_socket in E. apply sbind_inv in E as (d1 & r & E1 & E2).
  unfold on_api, resolve_session, slift in E1. simpl in E1. unfold refresh_if_valid in E1.
  rewrite (validate_issued h_sign h_float_repr h_parse_float h_idle_timeout u (e_time login_env) (e_time ws_env)) in E1 by done.
  simpl in E1. destruct (fltb _ _); simpl in E1; injection E1 as <- <-; [done|].
  apply sbind_inv in E2 as (d2 & role & G & [= -> <-]). exists role. split; [done|].
  assert (set_api (dg_api d) d = d) as D by (by destruct d). by rewrite D in G.
Qed.

(** When the client exits with status 0, the gateway accepted the password, took
    the handshake for the user who had logged in, ran the very command given on
    the command line with that user's role, and reported success. *)
Theorem client_success_means_command_ran base u pw command args insecure d d' out :
  token_texts u -> @main diag gateway base u pw command args insecure d = (d', Ok (out, 0)) ->
  exists d1 t rep d2 role o d3 r,
    login_call u pw d = (d1, Ok (SetCookie t, rep)) /\ on_api (on_users (get_role u)) d1 = (d2, Ok role) /\
    on_message on_evict (MkSession u role session_id) (Message (request command args)) p d2 = (d3, Ok o) /\
    settle (MkSession u role session_id) o d3 = (d', Ok (Replied r)) /\
    out = PResult (JDict [("status", JStr "ok"); ("result", render r)]).
Proof.
  intros T (j & -> & E & S)%main_zero. unfold run_command in E.
  apply sbind_inv in E as (d1 & [status cookie] & L & E). simpl in L.
  fold (login_call u pw d) in L. destruct (login_call u pw d) as [dl [[k rep]|e]] eqn:LC.
  2:{ destruct (status =? 200) eqn:Q; [|done]. apply Z.eqb_eq in Q as ->. destruct e; simplify_eq/=. }
  destruct k as [|t|]; injection L as <- <- <-; cbn -[on_message accept_socket] in E; [done| |done].
  pose proof (login_cookie _ _ _ _ _ _ LC) as ->. apply sbind_inv in E as (d1 & t & E1 & E). destruct (String.eqb _ _); [done|].
  injection E1 as <- <-. apply sbind_inv in E as (d1 & rest & E1 & E).
  assert (d1 = dl) as -> by (destruct (after_scheme base); [by injection E1 as <- <-|done]).
  apply scatch_ok in E as [E|(? & ? & _ & E)]; [|done]. apply sbind_inv in E as (d2 & s & A & E). destruct s as [s|]; [|done].
  apply accepted_as_user in A as (role & -> & G); [|done]. apply sbind_inv in E as (d3 & o & O & E). apply sbind_inv in E as (d4 & o' & W & E).
  destruct o' as [r|x|]; [|injection E as <- <-; done|done]. injection E as <- <-. naive_solver.
Qed.
End Gateway.

(** ** Examples *)

#[local] Existing Instance demo_host.
Definition no_wait (s : session) (command args : json) (w : waiting) : SR diag outcome := sraise WebSocketException.
Definition demo_gateway (at_handshake : RestApi.Env) : Network diag :=
  gateway None demo_env at_handshake demo_probe "0123" None no_wait (fun _ => JNull) (fun _ => "").
Definition demo_main (at_handshake : RestApi.Env) (password command : string) : diag * res (printed * Z) :=
  @main diag (demo_gateway at_handshake) DEFAULT_BASE_URL "admin" password command [] false demo_diag.

Lemma client_success_means_command_ran_witness : exists d' d3 r,
  demo_main demo_env "secret" "status" = (d', Ok (PResult (JDict [("status", JStr "ok"); ("result", JNull)]), 0)) /\
  exists d1 t rep d2 role o, login_call demo_env None "admin" "secret" demo_diag = (d1, Ok (SetCookie t, rep)) /\
    on_message None (MkSession "admin" role "0123") (Message (request "status" [])) demo_probe d2 = (d3, Ok o) /\
    settle no_wait (MkSession "admin" role "0123") o d3 = (d', Ok (Replied r)).
Proof.
  assert (snd (demo_main demo_env "secret" "status") = Ok (PResult (JDict [("status", JStr "ok"); ("result", JNull)]), 0)) as R
    by (vm_compute; reflexivity).
  assert (demo_main demo_env "secret" "status" = (fst (demo_main demo_env "secret" "status"), Ok (PResult (JDict [("status", JStr "ok"); ("result", JNull)]), 0)))
    as E by (rewrite <- R; apply surjective_pairing).
  destruct (client_success_means_command_ran None demo_env demo_env demo_probe "0123" None no_wait (fun _ => JNull) (fun _ => "")
    DEFAULT_BASE_URL "admin" "secret" "status" [] false demo_diag _ _
    ltac:(split_and!; [done|reflexivity|reflexivity|reflexivity|intros t; simpl; unfold toy_sign; by destruct (String.eqb t _)]) E)
    as (d1 & t & rep & d2 & role & o & d3 & r & A & B & C & D & F).
  exists (fst (demo_main demo_env "secret" "status")), d3, r. split; [exact E|]. exists d1, t, rep, d2, role, o. split_and!; assumption.
Defined.

(** A wrong password is reported and gives exit status 1. *)
Example wrong_password_reported : snd (demo_main demo_env "wrong" "status") = Ok (PError CliError, 1).
Proof. vm_compute. reflexivity. Qed.
(** A handshake the gateway refuses is not among the errors the client reports:
    its exception ends the process. *)
Example refused_handshake_escapes :
  snd (demo_main (MkEnv (float_of_Z_raw 901) 0 "t" "s") "secret" "status") = Raise WebSocketException.
Proof. vm_compute. reflexivity. Qed.
