(* ===== verification/ConfigWatch.v ===== *)
(** * The configuration watch loop (src/xedge/core/hot_reload.py)

    [config_watch_loop] over the config engine ([Config]) and the reconciliation
    ([HotReload]): one step of the loop per poll of the file's modification time.
    An exception a step does not catch ends the loop. *)

From S2P Require Import Prelude PyDict Supervisor Config HotReload.
Local Open Scope string_scope.
Local Open Scope list_scope.
Local Open Scope Z_scope.

(** What the loop keeps and what it works on: the modification time last seen,
    the store and its history, the tracked entries, the running instances. *)
Record watch := MkWatch { last_mtime : option Z; engine : engine_state; current_drivers : dict entry; running_drivers : gmap string DriverConfig }.
(** What a poll finds: [stat().st_mtime] or its [OSError], and the files. *)
Record poll := MkPoll { p_mtime : res Z; p_files : files }.

Section Watch.
Context (schema_errors : dict json -> list string) (text_of : json -> string).
Context (env secret_file : string -> option string) (max_versions : Z).
Context (has_schema : string -> bool) (section_errors : entry -> list string).
(** The [drivers] section read as entries; a malformed one raises. *)
Context (entries_of : json -> res (list entry)).

(** [stat] before the loop starts *)
Definition watch_start (stat : res Z) (e : engine_state) (current : dict entry) (r : gmap string DriverConfig) : watch :=
  MkWatch (match stat with Ok m => Some m | Raise _ => None end) e current r.

(** The part of an iteration after a change was seen. *)
Definition reload_and_reconcile (f : files) (w : watch) : watch * res unit :=
  match reload schema_errors text_of env secret_file max_versions f (engine w) with
  | (e, Raise ConfigValidationError) => (MkWatch (last_mtime w) e (current_drivers w) (running_drivers w), Ok tt)
  | (e, Raise x) => (MkWatch (last_mtime w) e (current_drivers w) (running_drivers w), Raise x)
  | (e, Ok _) =>
      match entries_of (get_section "drivers" (JList []) (es_store e)) with
      | Raise x => (MkWatch (last_mtime w) e (current_drivers w) (running_drivers w), Raise x)
      | Ok new_drivers =>
          match apply_driver_changes has_schema section_errors new_drivers (current_drivers w) (running_drivers w) with
          | (r, Ok updated) => (MkWatch (last_mtime w) e updated r, Ok tt)
          | (r, Raise x) => (MkWatch (last_mtime w) e (current_drivers w) r, Raise x)
          end
      end
  end.
Definition watch_step (p : poll) (w : watch) : watch * res unit :=
  match p_mtime p with
  | Raise OSError | Raise FileNotFoundError | Raise PermissionError => (w, Ok tt)
  | Raise e => (w, Raise e)
  | Ok m =>
      if bool_decide (Some m = last_mtime w) then (w, Ok tt)
      else reload_and_reconcile (p_files p) (MkWatch (Some m) (engine w) (current_drivers w) (running_drivers w))
  end.
Fixpoint config_watch_loop (polls : list poll) (w : watch) : watch * res unit :=
  match polls with
  | [] => (w, Ok tt)
  | p :: rest => match watch_step p w with (w, Ok _) => config_watch_loop rest w | (w, Raise e) => (w, Raise e) end
  end.

(** ** Properties *)

(** A version that validation rejects: a document that is no mapping, or a
    configuration with errors ([ConfigValidationError]).  A file that cannot be
    parsed, or whose secrets cannot be resolved, is not rejected but ends the
    loop ([syntax_error_ends_the_loop]). *)
Definition fails_validation (f : files) : Prop :=
  match load_merged f with
  | Raise e => e = ConfigValidationError
  | Ok c => validate schema_errors text_of c = Raise ConfigValidationError
  end.
(** The configuration [d] the engine makes of a valid file. *)
Definition gives (f : files) (d : dict json) : Prop :=
  exists c, load_merged f = Ok c /\ validate schema_errors text_of c = Ok tt /\ resolve_config env secret_file c = Ok d.
(** The version can be added to the history. *)
Definition recordable (f : files) (w : watch) : Prop :=
  forall c, load_merged f = Ok c -> (save_version max_versions c (es_history (engine w))).2 = Ok tt.
(** The instances a list of drivers asks for, as far as it can be satisfied. *)
Definition follows (new_drivers : list entry) (before : dict entry) (r : gmap string DriverConfig) : Prop :=
  (forall i, (forall e, e ∈ new_drivers -> e_id e <> i) -> r !! i = None) /\
  (forall e, e ∈ new_drivers -> is_enabled e = false -> r !! e_id e = None) /\
  (forall e c, e ∈ new_drivers -> is_enabled e = true -> dict_get (e_id e) before <> Some e ->
     accepted has_schema section_errors new_drivers e c -> r !! e_id e = Some c).

Lemma rejected_step m f w :
  fails_validation f -> Some m <> last_mtime w ->
  watch_step (MkPoll (Ok m) f) w = (MkWatch (Some m) (engine w) (current_drivers w) (running_drivers w), Ok tt).
Proof.
  intros I N. unfold watch_step. simpl. rewrite bool_decide_eq_false_2 by done. unfold reload_and_reconcile, reload. simpl.
  unfold fails_validation in I. destruct (load_merged f) as [c|e]; [|by rewrite I]. unfold apply_config. by rewrite I.
Qed.
Lemma quiet_step m f w : last_mtime w = Some m -> watch_step (MkPoll (Ok m) f) w = (w, Ok tt).
Proof. intros E. unfold watch_step. simpl. by rewrite bool_decide_eq_true_2. Qed.
Lemma quiet_loop polls m w :
  last_mtime w = Some m -> Forall (fun p => p_mtime p = Ok m \/ p_mtime p = Raise FileNotFoundError) polls -> config_watch_loop polls w = (w, Ok tt).
Proof.
  intros E. induction 1 as [|[q f] polls Q _ IH]; [done|]. simpl in *. destruct Q as [-> | ->]; [|done]. by rewrite quiet_step.
Qed.
Lemma accepted_step m f w d new_drivers :
  Some m <> last_mtime w -> gives f d -> recordable f w ->
  entries_of (default (JList []) (dict_get "drivers" d)) = Ok new_drivers ->
  NoDup (map e_id new_drivers) -> tracks (current_drivers w) (running_drivers w) ->
  exists e current r, watch_step (MkPoll (Ok m) f) w = (MkWatch (Some m) e current r, Ok tt) /\ store_data (es_store e) = d /\ follows new_drivers (current_drivers w) r.
Proof.
  intros N (c & L & V & R) HH EN ND T. unfold watch_step. simpl. rewrite bool_decide_eq_false_2 by done.
  unfold reload_and_reconcile, reload. simpl. rewrite L. unfold apply_config. rewrite V. specialize (HH c L).
  destruct (save_version _ _ _) as [h s]. simpl in HH. subst s. rewrite R.
  cbn [es_store]. unfold get_section, replace. cbn [store_data]. rewrite EN.
  destruct (reconciled has_schema section_errors new_drivers _ _ ND T) as (r' & cur' & E & A & D & B). rewrite E.
  eexists _, cur', r'. split_and!; [done|done|]. split_and!.
  - intros i H. by destruct (A i H).
  - intros e He Hd. by destruct (D e He Hd).
  - intros e x He Hen U AC. destruct (B e He Hen) as [-> _]. unfold next_running.
    by rewrite (proj2 (decision_accepted _ _ new_drivers (current_drivers w) e x)).
Qed.
(** A poll that finds no file, or a version other than [m] that fails validation. *)
Definition passed_over (m : Z) (p : poll) : Prop :=
  p_mtime p = Raise FileNotFoundError \/ (exists m', p_mtime p = Ok m' /\ m' <> m) /\ fails_validation (p_files p).
(** Rejected versions only move the time last seen. *)
Lemma rejected_loop polls m w :
  Some m <> last_mtime w -> Forall (passed_over m) polls ->
  exists x, config_watch_loop polls w = (MkWatch x (engine w) (current_drivers w) (running_drivers w), Ok tt) /\ Some m <> x.
Proof.
  intros N B. revert w N. induction B as [|[q f] polls B _ IH]; intros w N; cbn [config_watch_loop].
  { exists (last_mtime w). by destruct w. }
  destruct B as [E|[(m' & E & M) I]]; simpl in *; subst q; [by apply IH|]. destruct (decide (Some m' = last_mtime w)) as [Q|Q]; [rewrite quiet_step by done; by apply IH|].
  rewrite rejected_step by done. destruct (IH (MkWatch (Some m') (engine w) (current_drivers w) (running_drivers w))) as (x & L & X); [simpl; congruence|].
  by exists x.
Qed.
Lemma config_watch_loop_app p q w :
  config_watch_loop (p ++ q) w = match config_watch_loop p w with (w, Ok _) => config_watch_loop q w | (w, Raise e) => (w, Raise e) end.
Proof. revert w. induction p as [|x p IH]; intros w; [done|]. simpl. destruct (watch_step x w) as [w1 [[]|e]]; [apply IH|done]. Qed.

(** C30: A valid version of the file that stays is applied by the first poll that
    sees it, whatever versions failed validation before it and whenever the file
    was missing, exactly as if those polls had never been made; it is then in the
    store, the running instances follow its driver list, and further polls change
    nothing.  (Only failed validation is passed over: a version that cannot be
    parsed ends the loop, [syntax_error_ends_the_loop].) *)
Theorem config_watch_catches_up m f d new_drivers rejected later w :
  Some m <> last_mtime w -> gives f d -> recordable f w ->
  entries_of (default (JList []) (dict_get "drivers" d)) = Ok new_drivers ->
  NoDup (map e_id new_drivers) -> tracks (current_drivers w) (running_drivers w) ->
  Forall (passed_over m) rejected ->
  Forall (fun p => p_mtime p = Ok m \/ p_mtime p = Raise FileNotFoundError) later ->
  exists w', config_watch_loop (rejected ++ MkPoll (Ok m) f :: later) w = (w', Ok tt) /\
    watch_step (MkPoll (Ok m) f) w = (w', Ok tt) /\
    store_data (es_store (engine w')) = d /\ follows new_drivers (current_drivers w) (running_drivers w').
Proof.
  intros N G RC EN ND T B Q. destruct (accepted_step m f w d new_drivers N G RC EN ND T) as (e & cur & r & S & D & F).
  exists (MkWatch (Some m) e cur r). split_and!; [|done..]. destruct (rejected_loop rejected m w N B) as (x & L & X).
  rewrite config_watch_loop_app, L. simpl.
  assert (watch_step (MkPoll (Ok m) f) (MkWatch x (engine w) (current_drivers w) (running_drivers w)) = (MkWatch (Some m) e cur r, Ok tt)) as ->.
  { rewrite <- S. unfold watch_step. simpl. by rewrite !bool_decide_eq_false_2. }
  by apply (quiet_loop later m).
Qed.
End Watch.

(** ** Examples *)

Section Examples.
Definition watch_loop_ := config_watch_loop (fun _ => []) (fun _ => "") (fun _ => None) (fun _ => None) 10 all_types no_errors.
Definition one_entry (j : json) : res (list entry) :=
  match j with JList [] => Ok [] | JList _ => Ok [demo_entry "a" "modbus_tcp" None 1 0] | _ => Raise TypeError end.
Definition doc (j : res json) : files := {| base_doc := j; environment_doc := None; overrides_doc := None |}.
Definition with_driver : files := doc (Ok (JDict [("drivers", JList [JNull])])).
Definition start_watch : watch := MkWatch (Some 1) {| es_store := {| store_data := []; notified := 0 |}; es_history := None |} [] ∅.

Lemma config_watch_catches_up_witness : exists w',
  watch_loop_ one_entry [MkPoll (Ok 2) (doc (Ok (JList []))); MkPoll (Ok 3) with_driver; MkPoll (Ok 3) with_driver] start_watch = (w', Ok tt) /\
  store_data (es_store (engine w')) = [("drivers", JList [JNull])] /\ running_drivers w' !! "a" = Some (Build_DriverConfig "a" "modbus_tcp" []).
Proof.
  destruct (config_watch_catches_up (fun _ => []) (fun _ => "") (fun _ => None) (fun _ => None) 10 all_types no_errors one_entry 3 with_driver
    [("drivers", JList [JNull])] [demo_entry "a" "modbus_tcp" None 1 0] [MkPoll (Ok 2) (doc (Ok (JList [])))] [MkPoll (Ok 3) with_driver] start_watch)
    as (w' & L & _ & D & F); [done|eexists; split_and!; reflexivity|by intros c _|reflexivity|
      apply (bool_decide_unpack _); vm_compute; exact I|intros i c E; simpl in E; by rewrite lookup_empty in E| | |].
  - apply Forall_singleton. right. split; [exists 2; done|reflexivity].
  - apply Forall_singleton. by left.
  - exists w'. split_and!; [exact L|exact D|]. destruct F as (_ & _ & F). apply (F (demo_entry "a" "modbus_tcp" None 1 0)); [by left|done|done|].
    split; [|reflexivity]. vm_compute. intros X. inversion X.
Defined.

(** A syntax error in the file, as while it is being saved, is not a validation
    error: it ends the loop, and the corrected file is never read. *)
Example syntax_error_ends_the_loop :
  let r := watch_loop_ one_entry [MkPoll (Ok 2) (doc (Raise YAMLError)); MkPoll (Ok 3) with_driver] start_watch in
  r.2 = Raise YAMLError /\ running_drivers r.1 = ∅ /\ store_data (es_store (engine r.1)) = [].
Proof. vm_compute. split_and!; reflexivity. Qed.
End Examples.
