(* ===== verification/PollLoop.v ===== *)
(** * Poll loops of the Modbus drivers (src/xedge/drivers/modbus/polling.py)

    The tasks [run] starts, one per tag group, as a machine over the driver of
    [ModbusPolling]: a step takes one task from one wait for its timer or its
    trigger to the next, and steps of the tasks interleave with [poll_now].  The
    read in between ([read_and_publish]) is one step, although the source also
    suspends inside it, at every block and put; it does not touch the triggers.
    The clock is the reading a step makes of it. *)

From Stdlib Require Import Floats.SpecFloat.
From S2P Require Import Prelude PyFloat PyDict Pipeline ModbusPlanner ModbusPolling.
Local Open Scope string_scope.
Local Open Scope list_scope.
Local Open Scope Z_scope.

Definition OVERRUN_LOG_INTERVAL_SECONDS : pfloat := float_of_Z_raw 10.

(** ** The fixed period of [_poll_continuously] *)

(** Its local variables. *)
Record timing := MkTiming { next_due : pfloat; overrunning : bool; last_overrun_log : pfloat }.
(** What follows a cycle: reading again at once, or sleeping. *)
Inductive pause := ReadAgain | SleepFor (seconds : pfloat).
(** The end of a cycle at [now]; the flag says whether an overrun was logged. *)
Definition cycle_end (interval now : pfloat) (t : timing) : timing * bool * pause :=
  let due := fadd (next_due t) interval in
  if fleb due now then
    let log := negb (overrunning t) || fleb OVERRUN_LOG_INTERVAL_SECONDS (fsub now (last_overrun_log t)) in
    (MkTiming now true (if log then now else last_overrun_log t), log, ReadAgain)
  else (MkTiming due false (last_overrun_log t), false, SleepFor (fsub due now)).
(** [group["scan_rate_ms"] / 1000] *)
Definition interval_seconds (g : TagGroup) : pfloat :=
  match tg_scan_rate_ms g with NInt z => int_truediv z 1000 | NFloat f => SFdiv prec64 emax64 f (float_of_Z_raw 1000) end.

(** Cycles that end at the given times. *)
Definition after_cycle (interval : pfloat) (t : timing) (now : pfloat) : timing := (cycle_end interval now t).1.1.
Definition after_cycles (interval : pfloat) (nows : list pfloat) (t : timing) : timing := fold_left (after_cycle interval) nows t.
(** The times at which an overrun was logged. *)
Fixpoint warnings (interval : pfloat) (nows : list pfloat) (t : timing) : list pfloat :=
  match nows with
  | [] => []
  | now :: rest => (if (cycle_end interval now t).1.2 then [now] else []) ++ warnings interval rest (after_cycle interval t now)
  end.
Definition deadline (interval : pfloat) (n : nat) (start : pfloat) : pfloat := Nat.iter n (fun x => fadd x interval) start.

Lemma deadline_succ interval n start : deadline interval (S n) start = deadline interval n (fadd start interval).
Proof. exact (Nat.iter_succ_r n (fun x => fadd x interval) start). Qed.

(** As long as every cycle ends before its deadline, the deadlines do not depend
    on how long the cycles took. *)
Lemma period_without_drift interval nows t :
  (forall k now, nows !! k = Some now -> fleb (deadline interval (S k) (next_due t)) now = false) ->
  next_due (after_cycles interval nows t) = deadline interval (length nows) (next_due t).
Proof.
  revert t. induction nows as [|now nows IH]; intros t F; [done|]. simpl. pose proof (F 0%nat now eq_refl) as F0. simpl in F0.
  assert (next_due (after_cycle interval t now) = fadd (next_due t) interval) as E.
  { unfold after_cycle, cycle_end. by rewrite F0. }
  rewrite IH; rewrite E.
  - symmetry. apply deadline_succ.
  - intros k n K. specialize (F (S k) n K). by rewrite deadline_succ in F.
Qed.

(** Times at least the logging interval apart. *)
Fixpoint spaced (last : pfloat) (l : list pfloat) : Prop :=
  match l with [] => True | x :: rest => fleb OVERRUN_LOG_INTERVAL_SECONDS (fsub x last) = true /\ spaced x rest end.
Definition overruns (interval : pfloat) (t : timing) (now : pfloat) : bool := fleb (fadd (next_due t) interval) now.
Fixpoint all_overrun (interval : pfloat) (nows : list pfloat) (t : timing) : Prop :=
  match nows with [] => True | now :: rest => overruns interval t now = true /\ all_overrun interval rest (after_cycle interval t now) end.
(** While a group overruns, its warnings are at least ten seconds apart. *)
Lemma warnings_spaced interval nows t :
  overrunning t = true -> all_overrun interval nows t -> spaced (last_overrun_log t) (warnings interval nows t).
Proof.
  revert t. induction nows as [|now nows IH]; intros t O; [done|]. simpl. unfold overruns, after_cycle, cycle_end.
  intros [D A]. rewrite D in *. rewrite O in *. simpl in *. apply IH in A; [|done]. rename A into B. simpl in B.
  destruct (fleb OVERRUN_LOG_INTERVAL_SECONDS _) eqn:L; simpl; [|done]. by split.
Qed.

(** ** The tasks *)

Inductive activity :=
  | Start
  | AwaitTrigger
  | ReadOnDemand
  | ReadScheduled (t : timing)
  | Sleeping (t : timing)
  | Returned.
Inductive observation := Begins (group : string) | Published (us : list TagUpdate) | Overran (group : string).
Inductive event := PollNow (group : string) | TaskRuns (group : string) (now : pfloat).

Section Loop.
Context {T : Type} `{ModbusTransport T} (wall : nat -> Z) (latency : nat -> pfloat).

(** The driver, its tasks by group, and the exception that ended [run]. *)
Record loop := MkLoop { lp_driver : driver T; lp_tasks : dict activity; lp_failed : option exn }.
Definition clear_trigger (g : string) (d : driver T) : driver T :=
  {| d_config := d_config d; d_metrics := d_metrics d; d_tags_by_id := d_tags_by_id d;
     d_blocks_by_group := d_blocks_by_group d; d_connectivity := d_connectivity d;
     d_triggers := dict_set g false (d_triggers d); d_transport := d_transport d; d_clock := d_clock d |}.

(** [run]: one task per group. *)
Definition start_tasks (groups : list TagGroup) (d : driver T) : loop :=
  MkLoop d (fold_left (fun m g => dict_set (tg_id g) Start m) groups []) None.
Definition polling_mode (g : TagGroup) : string := default POLLING_MODE_CONTINUOUS (tg_polling_mode g).
Definition instance_name (d : driver T) : string := match d_config d with Some c => instance_id c | None => "modbus" end.

(** A read, and what the task does next or the exception it ends with. *)
Definition read_group (g : string) (after : activity) (d : driver T) : driver T * res (activity * list observation) :=
  match read_and_publish wall latency (instance_name d) (default [] (dict_get g (d_blocks_by_group d))) d with
  | (d, Ok us) => (d, Ok (after, [Published us]))
  | (d, Raise e) => (d, Raise e)
  end.
Definition group_step (g : TagGroup) (now : pfloat) (a : activity) (d : driver T) : driver T * res (activity * list observation) :=
  match a with
  | Start =>
      if String.eqb (polling_mode g) POLLING_MODE_ON_CONNECT then read_group (tg_id g) Returned d
      else if String.eqb (polling_mode g) POLLING_MODE_ON_DEMAND then (d, Ok (AwaitTrigger, []))
      else (d, Ok (ReadScheduled (MkTiming now false fzero), []))
  | AwaitTrigger =>
      match dict_get (tg_id g) (d_triggers d) with
      | None => (d, Raise KeyError)
      | Some false => (d, Ok (AwaitTrigger, []))
      | Some true => (clear_trigger (tg_id g) d, Ok (ReadOnDemand, [Begins (tg_id g)]))
      end
  | ReadOnDemand => read_group (tg_id g) AwaitTrigger d
  | ReadScheduled t =>
      match read_group (tg_id g) Returned d with
      | (d, Ok (_, obs)) =>
          let '(t, logged, p) := cycle_end (interval_seconds g) now t in
          (d, Ok (match p with ReadAgain => ReadScheduled t | SleepFor _ => Sleeping t end,
                  obs ++ (if logged then [Overran (tg_id g)] else [])))
      | (d, Raise e) => (d, Raise e)
      end
  | Sleeping t => (d, Ok (ReadScheduled t, []))
  | Returned => (d, Ok (Returned, []))
  end.

(** One event.  Once a task has failed the others are cancelled. *)
Definition loop_step (groups : list TagGroup) (e : event) (l : loop) : loop * list observation :=
  match e with
  | PollNow k => (MkLoop (fst (poll_now k (lp_driver l))) (lp_tasks l) (lp_failed l), [])
  | TaskRuns k now =>
      match lp_failed l, List.find (fun g => String.eqb (tg_id g) k) groups, dict_get k (lp_tasks l) with
      | None, Some g, Some a =>
          match group_step g now a (lp_driver l) with
          | (d, Ok (a, obs)) => (MkLoop d (dict_set k a (lp_tasks l)) None, obs)
          | (d, Raise x) => (MkLoop d (lp_tasks l) (Some x), [])
          end
      | _, _, _ => (l, [])
      end
  end.
Fixpoint loop_run (groups : list TagGroup) (es : list event) (l : loop) : loop * list observation :=
  match es with
  | [] => (l, [])
  | e :: rest => let '(l, o) := loop_step groups e l in let '(l, o') := loop_run groups rest l in (l, o ++ o')
  end.
(** What [run] comes to: it goes on, returned because every task did, or raised. *)
Definition run_outcome (l : loop) : option (res unit) :=
  match lp_failed l with
  | Some e => Some (Raise e)
  | None => if forallb (fun '(_, a) => match a with Returned => true | _ => false end) (lp_tasks l) then Some (Ok tt) else None
  end.

(** ** Triggers *)

(** Reading does not touch the triggers. *)
Definition spares {A} (m : SR (driver T) A) : Prop := forall d, d_triggers (fst (m d)) = d_triggers d.
Lemma spares_bind {A B} (m : SR (driver T) A) (k : A -> SR (driver T) B) : spares m -> (forall a, spares (k a)) -> spares (sbind m k).
Proof. intros M K d. unfold sbind. specialize (M d). destruct (m d) as [d1 [a|e]]; simpl in *; [|done]. by rewrite K. Qed.
Lemma spares_catch {A} (m : SR (driver T) A) h : spares m -> (forall e, spares (h e)) -> spares (scatch m h).
Proof. intros M K d. unfold scatch. specialize (M d). destruct (m d) as [d1 [a|e]]; simpl in *; [done|]. by rewrite K. Qed.
Lemma spares_map {A B} (f : A -> SR (driver T) B) l : (forall x, spares (f x)) -> spares (smapM f l).
Proof. intros F. induction l as [|x l IH]; [done|]. simpl. apply spares_bind; [done|]. intros y. apply spares_bind; [done|done]. Qed.
Lemma spares_submit {A} (hook : SR T A) : spares (submit hook).
Proof. intros d. unfold submit. by destruct (hook (d_transport d)). Qed.
Lemma spares_outcome f : spares (record_outcome wall f).
Proof. done. Qed.
Lemma spares_attempts n retry block : spares (read_attempts n retry block).
Proof.
  induction n as [|n IH]; cbn [read_attempts]; (apply spares_catch; [apply spares_submit|intros e]); [done|].
  destruct (retryable retry e); [|done]. by apply spares_bind.
Qed.
Lemma spares_block fallback iid block : (forall b, spares (fallback b)) -> spares (read_one_block_with wall latency fallback iid block).
Proof.
  intros F d. unfold read_one_block_with.
  assert (spares (read_block_with_retries block)) as R.
  { unfold read_block_with_retries. apply spares_bind; [|intros c; apply spares_attempts]. intros d0. unfold require_config. by destruct (d_config d0). }
  specialize (R d). destruct (read_block_with_retries block d) as [d1 [vs|e]]; simpl in R; rewrite <- R; clear R.
  - apply spares_bind; [apply spares_outcome|intros _]. apply spares_bind; [done|intros lat]. apply spares_bind; [done|intros ts].
    apply spares_bind; [done|intros _]. apply spares_map. intros p. unfold good_update. apply spares_bind; [done|intros v]. by apply spares_bind.
  - destruct e; try done. apply spares_bind; [apply spares_outcome|intros _]. destruct (is_batched block); [done|].
    apply spares_bind; [done|intros _]. destruct (rb_tags block) as [|p l]; [done|]. apply spares_bind; [|done]. unfold bad_update. by apply spares_bind.
Qed.
Lemma spares_publish iid blocks : spares (read_and_publish wall latency iid blocks).
Proof.
  induction blocks as [|b bs IH]; [done|]. cbn [read_and_publish]. apply spares_bind.
  - apply spares_block. intros b'. unfold read_block_tag_by_tag. apply spares_bind; [|done]. apply spares_map. intros p. by apply spares_block.
  - intros us. by apply spares_bind.
Qed.
Lemma read_group_triggers g after d d' r : read_group g after d = (d', r) -> d_triggers d' = d_triggers d.
Proof.
  unfold read_group. pose proof (spares_publish (instance_name d) (default [] (dict_get g (d_blocks_by_group d))) d) as S.
  destruct (read_and_publish _ _ _ _ _) as [d1 [us|e]]; by intros [= <- _].
Qed.

Definition pending (k : string) (l : loop) : bool := default false (dict_get k (d_triggers (lp_driver l))).
Lemma read_group_activity g after d d' a obs : read_group g after d = (d', Ok (a, obs)) -> a = after /\ forall k, Begins k ∉ obs.
Proof.
  unfold read_group. destruct (read_and_publish _ _ _ _ _) as [d1 [us|e]]; intros [= <- <- <-]. split; [done|].
  intros k [=]%list_elem_of_singleton.
Qed.
(** A task takes its own trigger, when it starts a read for it, and no other. *)
Lemma group_step_trigger g now a d d' r :
  group_step g now a d = (d', r) ->
  d_triggers d' = d_triggers d /\ (forall a' obs k, r = Ok (a', obs) -> Begins k ∉ obs) \/
  a = AwaitTrigger /\ dict_get (tg_id g) (d_triggers d) = Some true /\ d_triggers d' = dict_set (tg_id g) false (d_triggers d) /\
    r = Ok (ReadOnDemand, [Begins (tg_id g)]).
Proof.
  unfold group_step. destruct a as [| | |t|t|].
  - destruct (String.eqb _ POLLING_MODE_ON_CONNECT).
    + intros E. left. split; [by eapply read_group_triggers|]. intros a' obs k ->. by eapply read_group_activity.
    + destruct (String.eqb _ _); intros [= <- <-]; left; (split; [done|]); intros ??? [= <- <-]; apply not_elem_of_nil.
  - destruct (dict_get _ _) as [[]|]; intros [= <- <-]; [by right|left; split; [done|]; intros ??? [= <- <-]; apply not_elem_of_nil|by left].
  - intros E. left. split; [by eapply read_group_triggers|]. intros a' obs k ->. by eapply read_group_activity.
  - destruct (read_group _ _ _) as [d1 [[x o]|e]] eqn:E; [|intros [= <- <-]; left; split; [by eapply read_group_triggers|done]].
    destruct (cycle_end _ _ _) as [[t' lg] p]. intros [= <- <-]. left. split; [by eapply read_group_triggers|].
    intros a' obs k [= <- <-]. apply read_group_activity in E as [_ N]. rewrite elem_of_app. intros [X|X]; [by apply (N k)|].
    destruct lg; [by apply list_elem_of_singleton in X|by apply elem_of_nil in X].
  - intros [= <- <-]. left. split; [done|]. intros ??? [= <- <-]. apply not_elem_of_nil.
  - intros [= <- <-]. left. split; [done|]. intros ??? [= <- <-]. apply not_elem_of_nil.
Qed.

Definition is_begin (k : string) (o : observation) : bool := match o with Begins j => String.eqb j k | _ => false end.
Definition is_poll (k : string) (e : event) : bool := match e with PollNow j => String.eqb j k | _ => false end.
Definition is_run (k : string) (e : event) : bool := match e with TaskRuns j _ => String.eqb j k | _ => false end.
Definition number {A} (f : A -> bool) (l : list A) : nat := length (List.filter f l).
Lemma number_app {A} (f : A -> bool) l l' : number f (l ++ l') = (number f l + number f l')%nat.
Proof. unfold number. by rewrite List.filter_app, length_app. Qed.
Lemma number_zero {A} (f : A -> bool) l : (forall x, x ∈ l -> f x = false) -> number f l = 0%nat.
Proof.
  induction l as [|x l IH]; [done|]. intros F. unfold number in *. simpl. rewrite F by left. apply IH. intros y Y. apply F. by right.
Qed.
Lemma poll_now_pending k j (d : driver T) : dict_get k (d_triggers (fst (poll_now j d))) =
  if decide (j = k) then (fun _ => true) <$> dict_get k (d_triggers d) else dict_get k (d_triggers d).
Proof.
  unfold poll_now. destruct (dict_get j (d_triggers d)) as [b|] eqn:E; simpl.
  - rewrite dict_get_set. case_decide as D; case_decide; subst; try done. by rewrite E.
  - case_decide as D; [subst; by rewrite E|done].
Qed.

(** One event adds to the pending trigger at most the poll it is, and takes
    from it the read that begins. *)
Lemma loop_step_balance groups e l l' obs k :
  loop_step groups e l = (l', obs) ->
  (number (is_begin k) obs + Nat.b2n (pending k l') <= number (is_poll k) [e] + Nat.b2n (pending k l))%nat.
Proof.
  unfold loop_step. destruct e as [j|j now].
  - intros [= <- <-]. unfold pending, number. simpl. rewrite poll_now_pending. unfold is_poll.
    destruct (String.eqb_spec j k) as [->|N]; [rewrite decide_True by done|rewrite decide_False by done; simpl; lia].
    simpl. destruct (dict_get k _) as [[]|]; simpl; lia.
  - destruct (lp_failed l); [intros [= <- <-]; unfold number; simpl; lia|].
    destruct (List.find _ groups) as [g|] eqn:F; [|intros [= <- <-]; unfold number; simpl; lia].
    destruct (dict_get j (lp_tasks l)) as [a|]; [|intros [= <- <-]; unfold number; simpl; lia].
    apply List.find_some in F as [_ F%String.eqb_eq].
    destruct (group_step g now a (lp_driver l)) as [d r] eqn:S. intros E.
    assert (lp_driver l' = d /\ obs = match r with Ok (_, o) => o | Raise _ => [] end) as [LD LO] by (destruct r as [[]|]; by injection E as <- <-).
    unfold pending. rewrite LD. clear E. apply group_step_trigger in S as [[-> N]|(-> & G & -> & ->)].
    + rewrite LO, number_zero; [unfold number; simpl; lia|]. intros o O. destruct r as [[a' obs']|]; [|by apply elem_of_nil in O].
      destruct o as [j'| |]; try done. simpl. destruct (String.eqb_spec j' k) as [->|]; [|done]. by destruct (N a' obs' k).
    + rewrite LO, dict_get_set. unfold number. simpl. destruct (String.eqb_spec (tg_id g) k) as [<-|D].
      * rewrite decide_True by done. rewrite G. simpl. lia.
      * rewrite decide_False by congruence. simpl. lia.
Qed.
Lemma loop_run_balance groups es l l' obs k :
  loop_run groups es l = (l', obs) ->
  (number (is_begin k) obs + Nat.b2n (pending k l') <= number (is_poll k) es + Nat.b2n (pending k l))%nat.
Proof.
  revert l obs. induction es as [|e es IH]; intros l obs; simpl; [intros [= <- <-]; unfold number; simpl; lia|].
  destruct (loop_step groups e l) as [l1 o] eqn:S. destruct (loop_run groups es l1) as [l2 o'] eqn:R. intros [= <- <-].
  apply (loop_step_balance _ _ _ _ _ k) in S. apply IH in R. rewrite number_app. change (e :: es) with ([e] ++ es). rewrite number_app. lia.
Qed.

(** How many steps the task of an on-demand group needs to begin a read that
    was asked for: it may still be starting or reading. *)
Definition steps_to_begin (a : activity) : nat := match a with AwaitTrigger => 1 | _ => 2 end.
Definition on_demand_activity (a : activity) : Prop := a = Start \/ a = AwaitTrigger \/ a = ReadOnDemand.
Lemma failed_stays groups es l l' obs : loop_run groups es l = (l', obs) -> is_Some (lp_failed l) -> is_Some (lp_failed l').
Proof.
  revert l obs. induction es as [|e es IH]; intros l obs; simpl; [by intros [= <- _]|].
  destruct (loop_step groups e l) as [l1 o] eqn:S. destruct (loop_run groups es l1) as [l2 o'] eqn:R. intros [= <- _] F.
  apply (IH _ _ R). unfold loop_step in S. destruct e as [j|j now]; [by injection S as <- _|].
  destruct (lp_failed l) eqn:E; [|by destruct F]. injection S as <- _. by rewrite E.
Qed.
Lemma on_demand_step g now a d d' a' obs :
  String.eqb (polling_mode g) POLLING_MODE_ON_DEMAND = true -> on_demand_activity a -> dict_get (tg_id g) (d_triggers d) = Some true ->
  group_step g now a d = (d', Ok (a', obs)) ->
  Begins (tg_id g) ∈ obs \/ a' = AwaitTrigger /\ a <> AwaitTrigger /\ dict_get (tg_id g) (d_triggers d') = Some true.
Proof.
  intros M%String.eqb_eq A P. unfold group_step. destruct A as [-> | [-> | ->]].
  - rewrite M. simpl. intros [= <- <- <-]. by right.
  - rewrite P. intros [= <- <- <-]. left. by left.
  - intros E. right. split_and!; [by apply read_group_activity in E as [-> _]|done|]. by rewrite (read_group_triggers _ _ _ _ _ E).
Qed.
Lemma pending_served groups g es l l' obs a :
  List.find (fun x => String.eqb (tg_id x) (tg_id g)) groups = Some g ->
  String.eqb (polling_mode g) POLLING_MODE_ON_DEMAND = true ->
  dict_get (tg_id g) (lp_tasks l) = Some a -> on_demand_activity a ->
  dict_get (tg_id g) (d_triggers (lp_driver l)) = Some true ->
  (steps_to_begin a <= number (is_run (tg_id g)) es)%nat -> loop_run groups es l = (l', obs) ->
  Begins (tg_id g) ∈ obs \/ is_Some (lp_failed l').
Proof.
  intros F M. revert l obs a. induction es as [|e es IH]; intros l obs a L A P N.
  { unfold number in N. simpl in N. destruct a; simpl in N; lia. }
  simpl. destruct (loop_step groups e l) as [l1 o] eqn:S. destruct (loop_run groups es l1) as [l2 o'] eqn:R. intros [= <- <-].
  destruct (decide (is_Some (lp_failed l1))) as [X|X]; [right; by eapply failed_stays|].
  change (e :: es) with ([e] ++ es) in N. rewrite number_app in N.
  assert (forall a1, dict_get (tg_id g) (lp_tasks l1) = Some a1 -> on_demand_activity a1 -> dict_get (tg_id g) (d_triggers (lp_driver l1)) = Some true ->
    (steps_to_begin a1 <= number (is_run (tg_id g)) es)%nat -> Begins (tg_id g) ∈ o ++ o' \/ is_Some (lp_failed l2)) as K.
  { intros a1 L1 A1 P1 N1. destruct (IH l1 o' a1 L1 A1 P1 N1 R) as [B|B]; [left; apply elem_of_app; by right|by right]. }
  unfold loop_step in S. destruct e as [j|j now].
  - injection S as <- <-. apply (K a); [done|done| |done]. simpl. rewrite poll_now_pending, P. by case_decide.
  - destruct (lp_failed l) eqn:LF; [injection S as <- <-; destruct X; by rewrite LF|].
    destruct (decide (j = tg_id g)) as [->|D].
    + rewrite F, L in S. destruct (group_step g now a (lp_driver l)) as [d [[a1 o1]|x]] eqn:TS; [|injection S as <- <-; by destruct X].
      injection S as <- <-. destruct (on_demand_step _ _ _ _ _ _ _ M A P TS) as [B|(-> & NA & P1)]; [left; apply elem_of_app; by left|].
      apply (K AwaitTrigger); simpl; [apply dict_get_set_eq|unfold on_demand_activity; auto|done|].
      unfold number in N at 1. simpl in N. rewrite String.eqb_refl in N. simpl in N. destruct a; simpl in N; try done; lia.
    + unfold number in N at 1. simpl in N. rewrite (proj2 (String.eqb_neq j (tg_id g))) in N by done. simpl in N.
      revert S. destruct (List.find (fun x => String.eqb (tg_id x) j) groups) as [g'|] eqn:F'; [|intros [= <- <-]; by apply (K a)].
      apply List.find_some in F' as [_ F'%String.eqb_eq].
      destruct (dict_get j (lp_tasks l)) as [b|]; [|intros [= <- <-]; by apply (K a)].
      destruct (group_step g' now b (lp_driver l)) as [d [[b1 o1]|x]] eqn:TS; intros [= <- <-]; [|by destruct X].
      apply (K a); simpl; [by rewrite dict_get_set_ne|done| |done].
      apply group_step_trigger in TS as [[-> _]|(_ & _ & -> & _)]; [done|]. rewrite dict_get_set_ne; [done|congruence].
Qed.

(** C36: A poll asked of an on-demand group is never lost: once the group's task has
    taken two more steps, in whatever order the tasks and further polls come, a
    read that began after the request is on its way, unless a failed task ended
    the driver's run; and reads begin only when asked for, several requests in
    a row being served by one. *)
Theorem on_demand_triggers_served groups g es l l' obs a :
  List.find (fun x => String.eqb (tg_id x) (tg_id g)) groups = Some g ->
  String.eqb (polling_mode g) POLLING_MODE_ON_DEMAND = true ->
  dict_get (tg_id g) (lp_tasks l) = Some a -> on_demand_activity a ->
  is_Some (dict_get (tg_id g) (d_triggers (lp_driver l))) ->
  (2 <= number (is_run (tg_id g)) es)%nat -> loop_run groups (PollNow (tg_id g) :: es) l = (l', obs) ->
  (Begins (tg_id g) ∈ obs \/ is_Some (lp_failed l')) /\
  (number (is_begin (tg_id g)) obs <= S (number (is_poll (tg_id g)) es) + Nat.b2n (pending (tg_id g) l))%nat.
Proof.
  intros F M L A P N R. split.
  - simpl in R. destruct (loop_run groups es _) as [l2 o] eqn:E. injection R as <- <-.
    eapply (pending_served groups g es (MkLoop (fst (poll_now (tg_id g) (lp_driver l))) (lp_tasks l) (lp_failed l)) l2 o a F M); [exact L|exact A| |destruct a; simpl; lia|exact E].
    simpl. rewrite poll_now_pending, decide_True by done. destruct P as [b ->]. done.
  - apply (loop_run_balance _ _ _ _ _ (tg_id g)) in R. unfold number in R at 2. simpl in R. rewrite String.eqb_refl in R. simpl in R.
    fold (number (is_poll (tg_id g)) es) in R. lia.
Qed.
End Loop.

(** ** Examples *)

Section Examples.
Definition demand_group : TagGroup :=
  {| tg_id := "g"; tg_tags := []; tg_max_block_size := None; tg_max_block_gap := None; tg_polling_mode := Some "on_demand"; tg_scan_rate_ms := NInt 1000 |}.
Definition connect_group : TagGroup :=
  {| tg_id := "c"; tg_tags := []; tg_max_block_size := None; tg_max_block_gap := None; tg_polling_mode := Some "on_connect"; tg_scan_rate_ms := NInt 1000 |}.
Definition two_groups : list TagGroup := [connect_group; demand_group].
Definition poll_config : DriverConfig := {| instance_id := "plc"; dc_config := dc_config demo_config; tag_groups := two_groups |}.
Definition polled_driver : driver memory := fst (configure (fun _ => 0) poll_config demo_driver).
Definition started_tasks : loop := start_tasks two_groups polled_driver.
Definition some_events : list event := [TaskRuns "c" fzero; TaskRuns "g" fzero; PollNow "g"; TaskRuns "g" fzero; TaskRuns "g" fzero].

Lemma on_demand_triggers_served_witness :
  let r := loop_run (fun _ => 0) (fun _ => fzero) two_groups (PollNow "g" :: some_events) started_tasks in
  Begins "g" ∈ r.2 /\ (number (is_begin "g") r.2 <= 2)%nat.
Proof.
  set (r := loop_run (fun _ => 0) (fun _ => fzero) two_groups (PollNow "g" :: some_events) started_tasks).
  destruct (on_demand_triggers_served (fun _ => 0) (fun _ => fzero) two_groups demand_group some_events started_tasks r.1 r.2 Start) as [[B|B] C];
    [reflexivity|reflexivity|reflexivity|by left|vm_compute; eauto|vm_compute; lia|apply surjective_pairing|..]; simpl tg_id in *.
  - split; [exact B|exact C].
  - exfalso. assert (lp_failed r.1 = None) as E by (vm_compute; reflexivity). rewrite E in B. by destruct B.
Defined.

(** If all groups are polled on connect only, [run] returns after the first
    reads, and the supervisor takes that for a request to stop the driver. *)
Example connect_only_run_returns :
  let l := fst (loop_run (fun _ => 0) (fun _ => fzero) [connect_group] [TaskRuns "c" fzero] (start_tasks [connect_group] polled_driver)) in
  run_outcome l = Some (Ok tt).
Proof. vm_compute. reflexivity. Qed.
End Examples.
