(* ===== verification/StatusRoutes.v ===== *)
(** * Status routes of the API (src/xedge/api/server.py)

    The routes that report the status objects of the fleet agent, the SNTP client
    and the mailer, and the serial ports of the host.  The objects belong to
    their loops ([FleetAgent], [Sntp], [Notifications]) and are read as they are. *)

From S2P Require Import Prelude PyFloat PyDict PyTime AuditLog ApiAuth RestApi.
From S2P Require FleetRegistry FleetAgent Sntp Notifications.
Local Open Scope string_scope.
Local Open Scope list_scope.
Local Open Scope Z_scope.

Definition json_opt {A} (f : A -> json) (o : option A) : json := match o with Some a => f a | None => JNull end.
Definition iso (t : Z) : json := JStr (isoformat t).
Definition connection_state_value (s : FleetRegistry.GatewayConnectionState) : string :=
  match s with
  | FleetRegistry.INACTIVE => "inactive"
  | FleetRegistry.ACTIVE => "active"
  | FleetRegistry.CONNECTED => "connected"
  | FleetRegistry.DISCONNECTED => "disconnected"
  end.

(** The status of the agent with what it was configured to contact. *)
Record fleet_view := MkFleetView { fv_enabled : bool; fv_manager_url : option string; fv_device_id : option string; fv_status : FleetAgent.FleetAgentStatus }.

Section Routes.
Context `{Host}.
Context (fleet_status : option fleet_view) (sntp_status : option Sntp.SntpSyncStatus) (smtp_status : option Notifications.SmtpStatus).
(** [list_ports.comports()] *)
Context (comports : list string).

Definition get_fleet_status (now : Z) : res json :=
  match fleet_status with
  | None => Ok (JDict [("enabled", JBool false)])
  | Some f =>
      let s := fv_status f in
      let* state := FleetAgent.own_connection_state now s in
      Ok (JDict [("enabled", JBool (fv_enabled f)); ("manager_url", json_opt JStr (fv_manager_url f)); ("device_id", json_opt JStr (fv_device_id f));
        ("registered", JBool (FleetAgent.s_registered s)); ("last_heartbeat_at", json_opt iso (FleetAgent.s_last_heartbeat_at s));
        ("last_heartbeat_ok", json_opt JBool (FleetAgent.s_last_heartbeat_ok s));
        ("last_error", json_opt (fun e => JStr (h_error_text e)) (FleetAgent.s_last_error s));
        ("last_config_apply", json_opt JDict (FleetAgent.s_last_config_apply s)); ("connection_state", JStr (connection_state_value state));
        ("cert_not_after", json_opt iso (FleetAgent.s_cert_not_after s))])
  end.
Definition get_sntp_status (now : Z) : json :=
  match sntp_status with
  | None => JDict [("enabled", JBool false)]
  | Some s =>
      JDict [("enabled", JBool (Sntp.enabled s)); ("servers", JList (map JStr (Sntp.st_servers s)));
        ("sync_interval_seconds", json_opt JNum (Sntp.st_interval s)); ("timezone", JStr (Sntp.st_timezone s));
        ("last_sync_at", json_opt iso (Sntp.last_sync_at s)); ("last_sync_server", json_opt JStr (Sntp.last_sync_server s));
        ("offset_seconds", json_opt (fun f => JNum (NFloat f)) (Sntp.st_offset s));
        ("round_trip_delay_seconds", json_opt (fun f => JNum (NFloat f)) (Sntp.st_delay s));
        ("consecutive_failures", JNum (NInt (Sntp.consecutive_failures s)));
        ("last_error", json_opt (fun '(server, e) => JStr (server ++ ": " ++ h_error_text e)) (Sntp.last_error s));
        ("stale", JBool (Sntp.is_stale now s))]
  end.
Definition get_smtp_status : json :=
  match smtp_status with
  | None => JDict [("enabled", JBool false)]
  | Some s =>
      JDict [("enabled", JBool (Notifications.ss_enabled s)); ("last_send_at", json_opt iso (Notifications.ss_last_send_at s));
        ("last_send_ok", json_opt JBool (Notifications.ss_last_send_ok s));
        ("last_error", json_opt (fun e => JStr (h_error_text e)) (Notifications.ss_last_error s));
        ("emails_sent", JNum (NInt (Notifications.ss_emails_sent s)))]
  end.
Definition get_serial_ports : json := JList (map JStr (py_sorted String.leb comports)).

Inductive status_route := FleetStatusRoute | SntpStatusRoute | SmtpStatusRoute | SerialPortsRoute.
Definition status_permission (q : status_route) : string := match q with SerialPortsRoute => "config:read" | _ => "tag:read" end.
Definition status_body (q : status_route) (now : Z) : res json :=
  match q with
  | FleetStatusRoute => get_fleet_status now
  | SntpStatusRoute => Ok (get_sntp_status now)
  | SmtpStatusRoute => Ok get_smtp_status
  | SerialPortsRoute => Ok get_serial_ports
  end.
Definition handle_status (q : status_route) (c : caller) (v : Env) : SR api (string * json) :=
  let! (_, token) := require_permission (status_permission q) c v in
  let! body := slift (status_body q (e_now v)) in
  sret (token, body).

(** A status is shown to a user with the permission of the route, with the
    session renewed and nothing of the gateway changed; anyone else is refused
    and changes nothing either. *)
Theorem status_routes_guarded q c v s n es u us :
  in_step h_sha256_hex h_canonical_json (a_audit s) n es -> session_user c v = Ok u -> snd (load_users (a_users s)) = Ok us ->
  (exists user s', authorised s c v (status_permission q) user /\ untouched s s' /\ a_audit s' = a_audit s /\
     handle_status q c v s = (s', let* body := status_body q (e_now v) in Ok (issue h_sign h_float_repr user (e_time v), body))) \/
  (exists s' code, handle_status q c v s = (s', Raise (HTTPException code)) /\ (code = 401 \/ code = 403) /\ untouched s s').
Proof.
  intros I U L.
  destruct (require_permission_cases (status_permission q) c v s n es u us I U L) as [(user & A & R)|(s' & code & R & C & N)].
  - left. exists user, (set_users (fst (load_users (a_users s))) s). split; [done|]. split; [split; [by right|done]|]. split; [done|].
    unfold handle_status. rewrite (sbind_ok _ _ _ _ _ R). unfold sbind, slift. by destruct (status_body q (e_now v)).
  - right. exists s', code. split; [|done]. unfold handle_status, sbind. by rewrite R.
Qed.
End Routes.

#[local] Existing Instance demo_host.
Lemma status_routes_guarded_witness : exists s',
  handle_status None None None ["/dev/ttyS1"; "/dev/ttyS0"] SerialPortsRoute as_admin demo_env demo_api =
    (s', Ok (issue h_sign h_float_repr "admin" fzero, JList [JStr "/dev/ttyS0"; JStr "/dev/ttyS1"])) /\ untouched demo_api s'.
Proof.
  destruct (@status_routes_guarded demo_host None None None ["/dev/ttyS1"; "/dev/ttyS0"] SerialPortsRoute as_admin demo_env demo_api 0 [] (Some "admin")
    [("admin", MkAccount "secret" "admin")] (fresh_log_in_step _ _) ltac:(vm_compute; reflexivity) ltac:(vm_compute; reflexivity)) as [(user & s' & [A _] & N & _ & E)|(s' & code & E & _)].
  - exists s'. assert (user = "admin") as -> by (vm_compute in A; congruence). split; [|exact N]. rewrite E. reflexivity.
  - exfalso. assert (snd (handle_status None None None ["/dev/ttyS1"; "/dev/ttyS0"] SerialPortsRoute as_admin demo_env demo_api) = Raise (HTTPException code)) as X
      by (by rewrite E). vm_compute in X. discriminate X.
Defined.
