(* ===== verification/SecretKey.v ===== *)
(** * The session key file (src/xedge/api/auth.py, [load_or_create_secret_key])

    The key that signs the web sessions is written to disk as hexadecimal text
    on the first start and read back on every later one, so that a session
    outlives the process that issued it.  Bytes are the characters of a string,
    as in the files of the disk of [Certificates]. *)

From Stdlib Require Import Ascii.
From S2P Require Import Prelude PyText PyFloat Certificates FleetRegistry ApiAuth.
Local Open Scope string_scope.
Local Open Scope list_scope.
Local Open Scope Z_scope.

(** [bytes.fromhex]: pairs of digits of either case, blanks between the pairs. *)
Definition hex_value (c : ascii) : option nat :=
  let n := nat_of_ascii c in
  if ((48 <=? n) && (n <=? 57))%nat then Some (n - 48)%nat
  else if ((97 <=? n) && (n <=? 102))%nat then Some (n - 87)%nat
  else if ((65 <=? n) && (n <=? 70))%nat then Some (n - 55)%nat
  else None.
Definition is_blank (c : ascii) : bool := let n := nat_of_ascii c in (((9 <=? n) && (n <=? 13)) || (n =? 32))%nat.
Fixpoint fromhex (s : string) : res string :=
  match s with
  | EmptyString => Ok ""
  | String c t =>
      if is_blank c then fromhex t else
      match t with
      | EmptyString => Raise ValueError
      | String d t =>
          match hex_value c, hex_value d with
          | Some hi, Some lo => let* rest := fromhex t in Ok (String (ascii_of_nat (16 * hi + lo)) rest)
          | _, _ => Raise ValueError
          end
      end
  end.

Section KeyFile.
Context `{Disk}.
(** [token] is what [secrets.token_bytes(32)] returns. *)
Definition load_or_create_secret_key (path token : string) : SR fs string :=
  let! present := sget (is_file path) in
  if present then let! text := read_bytes path in slift (fromhex (strip text))
  else
    let! _ := mkdir_parent path in
    let! _ := write_bytes path (hex token) in
    sret token.
End KeyFile.

(** ** Reading back what was written *)

Lemma hex_value_digit n : (n < 16)%nat -> hex_value (hex_digit n) = Some n.
Proof. intros L. do 16 (destruct n as [|n]; [done|]). lia. Qed.
Lemma hex_digit_visible n : (n < 16)%nat -> is_blank (hex_digit n) = false /\ is_space (hex_digit n) = false.
Proof. intros L. do 16 (destruct n as [|n]; [done|]). lia. Qed.
Lemma nibbles c : (nat_of_ascii c / 16 < 16)%nat /\ (nat_of_ascii c mod 16 < 16)%nat.
Proof. pose proof (nat_ascii_bounded c). split; [apply Nat.Div0.div_lt_upper_bound; lia|by apply Nat.mod_upper_bound]. Qed.
Lemma fromhex_hex s : fromhex (hex s) = Ok s.
Proof.
  induction s as [|c s IH]; [done|]. destruct (nibbles c) as [Hi Lo]. cbn [hex fromhex].
  rewrite (proj1 (hex_digit_visible _ Hi)), !hex_value_digit, IH by done. cbn [rbind].
  by rewrite <- (Nat.div_mod_eq (nat_of_ascii c) 16), ascii_nat_embedding.
Qed.
Lemma rstrip_hex s : rstrip (hex s) = hex s.
Proof.
  induction s as [|c s IH]; [done|]. destruct (nibbles c) as [Hi Lo]. cbn [hex rstrip]. rewrite IH.
  destruct (hex s); [|done]. by rewrite (proj2 (hex_digit_visible _ Lo)).
Qed.
Lemma strip_hex s : strip (hex s) = hex s.
Proof.
  unfold strip. rewrite <- rstrip_hex at 2. f_equal. destruct s as [|c s]; [done|]. cbn [hex lstrip].
  by rewrite (proj2 (hex_digit_visible _ (proj1 (nibbles c)))).
Qed.

Section Restart.
Context `{Disk} (path : string).

Lemma load_existing token f text : f !! path = Some text ->
  load_or_create_secret_key path token f = (f, fromhex (strip text)).
Proof.
  intros F. unfold load_or_create_secret_key, sbind, slift, sget, read_bytes, is_file. rewrite F.
  case_bool_decide as B; [by rewrite F|]. destruct B. by exists text.
Qed.
Lemma created_key token f f' key : f !! path = None -> load_or_create_secret_key path token f = (f', Ok key) ->
  key = token /\ f' = <[path := hex token]> f.
Proof.
  intros F. unfold load_or_create_secret_key, sbind at 1, sget, is_file. rewrite bool_decide_false by (rewrite F; by intros []).
  unfold mkdir_parent, write_bytes, sbind, slift, smodify, sret. destruct (make_parent path); [|done]. destruct (may_write path); [|done].
  intros E. by simplify_eq.
Qed.

(** A session outlives the process that issued it: the first start stores the
    key it drew; every later start, whatever it draws, finds that key as long as
    the file is left alone, does not touch the disk, and so accepts the tokens
    of the first process, as the same user, exactly until the idle timeout. *)
Theorem session_survives_restart (hmac : string -> string -> string) float_repr parse_float idle token token' f f1 f2 key u t0 now :
  f !! path = None -> load_or_create_secret_key path token f = (f1, Ok key) -> f2 !! path = f1 !! path ->
  u <> "" -> count_char "|" u = 0%nat -> count_char "|" (float_repr t0) = 0%nat -> parse_float (float_repr t0) = Ok t0 ->
  (forall k p, count_char "|" (hmac k p) = 0%nat /\ is_ascii (hmac k p) = true) ->
  load_or_create_secret_key path token' f2 = (f2, Ok key) /\
  validate (hmac key) parse_float idle (Some (issue (hmac token) float_repr u t0)) now =
    Ok (if fltb idle (fsub now t0) then None else Some u).
Proof.
  intros F L F2 U B R P S. destruct (created_key _ _ _ _ F L) as [-> ->]. split.
  - rewrite (load_existing token' f2 (hex token)) by (rewrite F2; apply lookup_insert_eq). by rewrite strip_hex, fromhex_hex.
  - by apply validate_issued.
Qed.
(** A key file that was truncated before the key was written (or holds blanks
    only) is not refused: the process signs its sessions with the empty key,
    under which any client can sign. *)
Theorem truncated_key_file_is_empty_key token f : f !! path = Some "" ->
  load_or_create_secret_key path token f = (f, Ok "").
Proof. apply load_existing. Qed.
(** A key file with an odd number of digits, or with any other character, stops the start. *)
Theorem damaged_key_file_raises token f text : f !! path = Some text -> fromhex (strip text) = Raise ValueError ->
  load_or_create_secret_key path token f = (f, Raise ValueError).
Proof. intros F E. by rewrite (load_existing _ _ _ F), E. Qed.
End Restart.

Section Examples.
#[local] Existing Instance open_disk.
Definition keyed_sign (key payload : string) : string := if String.eqb key "k1" then "5af1" else "0000".
Lemma session_survives_restart_witness :
  validate (keyed_sign "k1") toy_parse (float_of_Z_raw 900) (Some (issue (keyed_sign "k1") (fun _ => "0.0") "admin" fzero)) (float_of_Z_raw 900)
    = Ok (Some "admin").
Proof.
  refine (proj2 (session_survives_restart "session_key" keyed_sign (fun _ => "0.0") toy_parse (float_of_Z_raw 900) "k1" "k2" ∅
    {["session_key" := hex "k1"]} {["session_key" := hex "k1"]} "k1" "admin" fzero (float_of_Z_raw 900) _ _ _ _ _ _ _ _)); try done.
  intros k p. unfold keyed_sign. by destruct (String.eqb k _).
Defined.
Lemma damaged_key_file_raises_witness :
  snd (load_or_create_secret_key "session_key" "k2" {["session_key" := "6b3"]}) = Raise ValueError.
Proof. by rewrite (damaged_key_file_raises "session_key" "k2" {["session_key" := "6b3"]} "6b3"). Defined.
Example uppercase_key_read : fromhex "6B 31" = Ok "k1".
Proof. done. Qed.
End Examples.
