(* ===== verification/InboundConnect.v ===== *)
(** * Connections of the inbound drivers
    (src/xedge/drivers/mqtt_subscriber/client.py, src/xedge/drivers/snmp/receiver.py)

    [connect], [disconnect] and the life of [run] of the two drivers that wait
    for messages instead of polling.  paho's client is the record of what it was
    given and asked to do; which CONNACKs arrive is an input.  pysnmp's transport
    is the list of endpoints the process has bound and a parameter that says
    whether one more can be bound. *)

From Stdlib Require Import Ascii.
From S2P Require Import Prelude PyText PyFloat PyDict Pipeline Certificates SnmpDriver InboundDrivers.
Local Open Scope string_scope.
Local Open Scope list_scope.
Local Open Scope Z_scope.

(** ** MQTT subscriber *)

Module MqttConnect.
Import MqttSubscriber.
Record MqttConfig := MkConfig {
  mc_client_id : option string; mc_username : option string; mc_password : option string;
  mc_tls_enabled : option bool; mc_tls_ca_certs_path : option string; mc_tls_certfile_path : option string;
  mc_tls_keyfile_path : option string; mc_tls_insecure : option bool;
  mc_host : string; mc_port : option Z; mc_keepalive_seconds : option Z }.
(** A [mqtt.Client]: its settings, whether its socket is open and its network
    thread runs, and the subscriptions asked for since the last CONNACK (a
    client with a clean session starts each session without any). *)
Record Client := MkClient {
  cl_client_id : string; cl_credentials : option (string * option string); cl_tls : option SSLContext; cl_tls_insecure : bool;
  cl_peer : option (string * Z * Z); cl_looping : bool; cl_subscribed : list (string * Z) }.
Record subscriber := MkSubscriber { su_driver : driver; su_config : option MqttConfig; su_client : option Client; su_disk : fs }.
(** The reason code of a CONNACK: the text of a failure, or success. *)
Abbreviation connack := (option string).

Definition new_client (cfg : MqttConfig) : Client :=
  MkClient (default "" (mc_client_id cfg)) ((fun u => (u, mc_password cfg)) <$> (match mc_username cfg with Some "" => None | o => o end))
    None false None false [].
Definition tls_set_context (c : SSLContext) (insecure : bool) (cl : Client) : Client :=
  MkClient (cl_client_id cl) (cl_credentials cl) (Some c) insecure (cl_peer cl) (cl_looping cl) (cl_subscribed cl).
Definition set_peer (p : option (string * Z * Z)) (cl : Client) : Client :=
  MkClient (cl_client_id cl) (cl_credentials cl) (cl_tls cl) (cl_tls_insecure cl) p (cl_looping cl) (cl_subscribed cl).
Definition set_looping (b : bool) (cl : Client) : Client :=
  MkClient (cl_client_id cl) (cl_credentials cl) (cl_tls cl) (cl_tls_insecure cl) (cl_peer cl) b (cl_subscribed cl).
Definition set_subscribed (l : list (string * Z)) (cl : Client) : Client :=
  MkClient (cl_client_id cl) (cl_credentials cl) (cl_tls cl) (cl_tls_insecure cl) (cl_peer cl) (cl_looping cl) l.
Definition subscribe (cl : Client) (topic_qos : string * Z) : Client := set_subscribed (cl_subscribed cl ++ [topic_qos]) cl.
Definition set_client (c : option Client) (s : subscriber) : subscriber := MkSubscriber (su_driver s) (su_config s) c (su_disk s).

(** [_on_connect], at the start of a session: the client and the list
    [connect_failure] of its closure. *)
Definition on_connect (d : driver) (st : Client * list string) (reason_code : connack) : Client * list string :=
  let '(cl, connect_failure) := st in
  let cl := set_subscribed [] cl in
  match reason_code with
  | Some text => (cl, connect_failure ++ [text])
  | None => (fold_left subscribe (subscriptions d) cl, connect_failure)
  end.

Section Connect.
Context `{Ssl}.
Local Abbreviation M := (SR subscriber).
(** A computation on the disk. *)
Definition on_disk {A} (f : SR fs A) : M A := fun s =>
  let '(k, r) := f (su_disk s) in (MkSubscriber (su_driver s) (su_config s) (su_client s) k, r).
Definition configure_driver (iid : string) (cfg : MqttConfig) (groups : list (list RawTag)) (s : subscriber) : subscriber :=
  MkSubscriber (configure iid groups (su_driver s)) (Some cfg) (su_client s) (su_disk s).
Definition require_config : M MqttConfig :=
  let! c := sget su_config in match c with Some c => sret c | None => sraise MqttSubscriberStateError end.
(** The client [connect] sets up. *)
Definition make_client (cfg : MqttConfig) : M Client :=
  let client := new_client cfg in
  if default false (mc_tls_enabled cfg) then
    let! context := on_disk (build_client_tls_context (mc_tls_ca_certs_path cfg) (mc_tls_certfile_path cfg) (mc_tls_keyfile_path cfg)) in
    sret (tls_set_context context (default false (mc_tls_insecure cfg)) client)
  else sret client.
(** The wait for the first CONNACK: [acks] are the ones that [_on_connect] has
    handled when it ends, none if it timed out. *)
Definition await_connack (acks : list connack) (client : Client) : M unit :=
  match acks with
  | [] => let! _ := smodify (set_client None) in sraise TimeoutError
  | _ =>
      let! d := sget su_driver in
      let '(client, connect_failure) := fold_left (on_connect d) acks (client, []) in
      match connect_failure with
      | _ :: _ => let! _ := smodify (set_client None) in sraise DriverConnectionError
      | [] => smodify (set_client (Some client))
      end
  end.
(** [opened] is the outcome of [client.connect]. *)
Definition connect (opened : res unit) (acks : list connack) : M unit :=
  let! cfg := require_config in
  let! client := make_client cfg in
  let! _ := smodify (set_client (Some client)) in
  let! _ := slift opened in
  await_connack acks
    (set_looping true (set_peer (Some (mc_host cfg, default 1883 (mc_port cfg), default 60 (mc_keepalive_seconds cfg))) client)).
(** paho's thread reconnects on its own; [_on_connect] runs again. *)
Definition reconnected (acks : list connack) (s : subscriber) : subscriber :=
  set_client ((fun cl => fst (fold_left (on_connect (su_driver s)) acks (cl, []))) <$> su_client s) s.
Definition disconnect (s : subscriber) : subscriber := set_client None s.
End Connect.

(** *** What a session subscribes to *)

(** The tag that a topic filter stands for: the last one configured. *)
Definition tag_for (groups : list (list RawTag)) (topic : string) : option RawTag :=
  List.find (fun t => String.eqb (rt_topic t) topic) (rev (concat groups)).

Lemma subscribe_all l : forall cl, fold_left subscribe l cl = set_subscribed (cl_subscribed cl ++ l) cl.
Proof.
  induction l as [|x l IH]; intros cl; simpl; [rewrite app_nil_r; by destruct cl|]. rewrite IH. simpl. by rewrite <- app_assoc.
Qed.
Lemma on_connect_accepted d cl fs : on_connect d (cl, fs) None = (set_subscribed (subscriptions d) cl, fs).
Proof. simpl. by rewrite subscribe_all. Qed.
Lemma on_connect_snoc d acks st :
  (fold_left (on_connect d) (acks ++ [None]) st).1 = set_subscribed (subscriptions d) (fold_left (on_connect d) acks st).1.
Proof. rewrite fold_left_app. cbn [fold_left]. destruct (fold_left _ acks st) as [cl fs]. by rewrite on_connect_accepted. Qed.
Lemma on_connect_failures d acks : forall cl fs, (fold_left (on_connect d) acks (cl, fs)).2 = fs ++ omap id acks.
Proof.
  induction acks as [|[t|] acks IH]; intros cl fs; simpl; [by rewrite app_nil_r|rewrite IH; by rewrite <- app_assoc|]. by rewrite IH.
Qed.
Lemma on_connect_no_failure d acks cl : acks <> [] -> omap id acks = [] ->
  fold_left (on_connect d) acks (cl, []) = (set_subscribed (subscriptions d) cl, []).
Proof.
  revert cl. induction acks as [|[t|] acks IH]; intros cl N F; [done|done|]. cbn [fold_left]. rewrite on_connect_accepted.
  destruct acks as [|a acks]; [done|]. rewrite IH by done. by destruct cl.
Qed.
Definition mappings_of (iid : string) (tags : list RawTag) : dict TopicMapping :=
  fold_left (fun ms t => dict_set (rt_topic t) (mapping_of iid t) ms) tags [].
Lemma mappings_of_snoc iid tags t : mappings_of iid (tags ++ [t]) = dict_set (rt_topic t) (mapping_of iid t) (mappings_of iid tags).
Proof. unfold mappings_of. by rewrite fold_left_app. Qed.
Lemma mappings_of_wf iid tags : dict_wf (mappings_of iid tags).
Proof. induction tags as [|t tags IH] using rev_ind; [apply dict_wf_nil|]. rewrite mappings_of_snoc. by apply dict_wf_set. Qed.
Lemma mappings_of_get iid tags topic :
  dict_get topic (mappings_of iid tags) = mapping_of iid <$> List.find (fun t => String.eqb (rt_topic t) topic) (rev tags).
Proof.
  induction tags as [|t tags IH] using rev_ind; [done|]. rewrite mappings_of_snoc, dict_get_set, rev_app_distr. simpl.
  case_decide as E; destruct (String.eqb_spec (rt_topic t) topic); by subst.
Qed.
Lemma mappings_of_keys iid tags : Forall (fun e => tm_topic e.2 = e.1) (mappings_of iid tags).
Proof.
  apply Forall_forall. intros [k m] I. pose proof (proj2 (dict_get_wf _ _ _ (mappings_of_wf iid tags)) I) as G. rewrite mappings_of_get in G.
  apply fmap_Some in G as (t & F & ->). apply List.find_some in F as [_ E]. by apply String.eqb_eq in E.
Qed.
(** One subscription for each configured topic, with the quality of service of
    its last tag. *)
Definition covers (groups : list (list RawTag)) (l : list (string * Z)) : Prop :=
  NoDup l.*1 /\ forall topic qos, (topic, qos) ∈ l <-> exists t, tag_for groups topic = Some t /\ qos = default 0 (rt_qos t).
Lemma subscriptions_pairs ms : Forall (fun e => tm_topic e.2 = e.1) ms ->
  map (fun m => (tm_topic m, tm_qos m)) (dict_values ms) = map (fun e => (e.1, tm_qos e.2)) ms.
Proof. induction 1 as [|[k m] ms E F IH]; [done|]. unfold dict_values in *. simpl in *. by rewrite IH, E. Qed.
Lemma subscriptions_cover iid groups d : covers groups (subscriptions (configure iid groups d)).
Proof.
  unfold subscriptions. cbn [configure ms_mappings]. fold (mappings_of iid (concat groups)).
  rewrite subscriptions_pairs by apply mappings_of_keys. split.
  - rewrite <- list_fmap_compose. exact (mappings_of_wf iid (concat groups)).
  - intros topic qos. rewrite list_elem_of_fmap. split.
    + intros ([k m] & [= -> ->] & I). apply dict_get_wf in I; [|apply mappings_of_wf]. rewrite mappings_of_get in I.
      apply fmap_Some in I as (t & F & ->). by exists t.
    + intros (t & F & ->). exists (topic, mapping_of iid t). split; [done|]. apply dict_get_in. rewrite mappings_of_get.
      unfold tag_for in F. by rewrite F.
Qed.

Section ConnectFacts.
Context `{Ssl}.

Lemma context_disk ca cert key k : fst (build_client_tls_context ca cert key k) = k.
Proof.
  unfold build_client_tls_context, read_optional, read_bytes, sbind, slift, sret.
  destruct ca as [p|]; simpl; [destruct (k !! p) as [b|]; [|done]; destruct (load_ca_file b); [|done]|].
  all: destruct cert as [q|]; [|done]; destruct (k !! q) as [b'|]; [|done].
  all: destruct key as [z|]; [destruct (k !! z)|]; try done; by destruct (check_chain _ _).
Qed.
Lemma context_verifies ca cert key k k' c : build_client_tls_context ca cert key k = (k', Ok c) ->
  verifies_peer c = true /\ trust_store c = (ca ≫= (k !!.)).
Proof.
  unfold build_client_tls_context, read_optional, read_bytes, sbind, slift, sret.
  destruct ca as [p|]; simpl; [destruct (k !! p) as [b|]; [|done]; destruct (load_ca_file b); [|done]|].
  all: destruct cert as [q|]; [|intros ?; by simplify_eq]; destruct (k !! q) as [b'|]; [|done].
  all: destruct key as [z|]; [destruct (k !! z)|]; try done; (destruct (check_chain _ _); [|done]); intros ?; by simplify_eq.
Qed.
(** How the configuration secures a client. *)
Definition secured (k : fs) (cfg : MqttConfig) (cl : Client) : Prop :=
  if default false (mc_tls_enabled cfg)
  then exists c, cl_tls cl = Some c /\ verifies_peer c = true /\ trust_store c = (mc_tls_ca_certs_path cfg ≫= (k !!.)) /\
    cl_tls_insecure cl = default false (mc_tls_insecure cfg)
  else cl_tls cl = None.
Lemma make_client_spec cfg s : exists r, make_client cfg s = (s, r) /\
  forall cl, r = Ok cl -> cl_looping cl = false /\ secured (su_disk s) cfg cl.
Proof.
  unfold make_client, secured. destruct (default false (mc_tls_enabled cfg)); [|eexists; split; [done|]; by intros ? [= <-]].
  unfold sbind, on_disk. pose proof (context_disk (mc_tls_ca_certs_path cfg) (mc_tls_certfile_path cfg) (mc_tls_keyfile_path cfg) (su_disk s)) as D.
  destruct (build_client_tls_context _ _ _ _) as [k [c|e]] eqn:B; simpl in D; subst k; destruct s; (eexists; split; [done|]); [|done].
  apply context_verifies in B as [V T]. intros ? [= <-]. split; [done|]. by exists c.
Qed.
Lemma await_connack_spec acks cl s :
  await_connack acks cl s =
  if bool_decide (acks = []) then (set_client None s, Raise TimeoutError)
  else if bool_decide (omap id acks = []) then (set_client (Some (set_subscribed (subscriptions (su_driver s)) cl)) s, Ok tt)
  else (set_client None s, Raise DriverConnectionError).
Proof.
  unfold await_connack. destruct acks as [|a acks]; [done|]. rewrite bool_decide_false by done. unfold sbind, sget, smodify, sraise.
  case_bool_decide as F; [by rewrite on_connect_no_failure|].
  pose proof (on_connect_failures (su_driver s) (a :: acks) cl []) as E. destruct (fold_left _ _ _) as [c l]. simpl in E.
  by destruct l; [|].
Qed.

Lemma subscriber_connect_spec opened acks s :
  connect opened acks s =
  match su_config s with
  | None => (s, Raise MqttSubscriberStateError)
  | Some cfg =>
      match snd (make_client cfg s), opened with
      | Raise e, _ => (s, Raise e)
      | Ok cl, Raise e => (set_client (Some cl) s, Raise e)
      | Ok cl, Ok _ =>
          await_connack acks
            (set_looping true (set_peer (Some (mc_host cfg, default 1883 (mc_port cfg), default 60 (mc_keepalive_seconds cfg))) cl))
            (set_client (Some cl) s)
      end
  end.
Proof.
  unfold connect, require_config. unfold sbind at 1 2. cbn [sget]. destruct (su_config s) as [cfg|]; [|done]. cbn [sret].
  destruct (make_client_spec cfg s) as (r & E & _). unfold sbind. rewrite E. by destruct r; [destruct opened|].
Qed.
Lemma reconnected_accepted later s cl : su_client s = Some cl -> exists cl', su_client (reconnected (later ++ [None]) s) = Some cl' /\
  cl_looping cl' = cl_looping cl /\ cl_tls cl' = cl_tls cl /\ cl_tls_insecure cl' = cl_tls_insecure cl /\
  cl_subscribed cl' = subscriptions (su_driver s).
Proof.
  intros C. unfold reconnected. rewrite C. simpl. rewrite on_connect_snoc. eexists. split; [done|]. simpl.
  generalize (@nil string). clear C. revert cl. induction later as [|[t|] later IH]; intros cl l; cbn [fold_left]; [done| |].
  - cbn [on_connect]. by destruct (IH (set_subscribed [] cl) (l ++ [t])) as (-> & -> & -> & _).
  - rewrite on_connect_accepted. by destruct (IH (set_subscribed (subscriptions (su_driver s)) cl) l) as (-> & -> & -> & _).
Qed.

(** A connected subscriber listens to every configured tag: when [connect]
    returns, the client's network thread runs, its TLS settings are those of the
    configuration (the peer is verified against the configured authority), and
    its session has exactly one subscription for each configured topic; and the
    same holds again after any reconnections of paho that end with an accepted
    one, whatever refusals came before. *)
Theorem session_subscribes_every_tag iid groups d0 cfg s opened acks s' :
  su_driver s = configure iid groups d0 -> su_config s = Some cfg -> connect opened acks s = (s', Ok tt) ->
  (exists cl, su_client s' = Some cl /\ cl_looping cl = true /\ secured (su_disk s) cfg cl /\ covers groups (cl_subscribed cl)) /\
  (forall later, exists cl, su_client (reconnected (later ++ [None]) s') = Some cl /\ cl_looping cl = true /\ secured (su_disk s) cfg cl /\
     covers groups (cl_subscribed cl)).
Proof.
  intros D C. rewrite subscriber_connect_spec, C. destruct (make_client_spec cfg s) as (r & -> & B). cbn [snd].
  destruct r as [cl|]; [|done]. destruct (B cl eq_refl) as [_ S]. destruct opened; [|done]. rewrite await_connack_spec.
  case_bool_decide; [done|]. case_bool_decide; [|done]. intros [= <-]. split.
  - eexists. split_and!; [done..|]. cbn [cl_subscribed set_subscribed set_client su_driver]. rewrite D. apply subscriptions_cover.
  - intros later. match goal with |- context [reconnected _ ?s1] => destruct (reconnected_accepted later s1 _ eq_refl) as (cl' & E & L & T & I & Sub) end.
    exists cl'. split; [exact E|]. rewrite L, Sub. simpl.
    rewrite D. split_and!; [done| |apply subscriptions_cover]. unfold secured in *. by rewrite T, I.
Qed.
(** An attempt that fails leaves no network thread behind, unless one ran before
    and the attempt ended before it had built its own client; the disk, the
    configuration and the received messages are untouched. *)
Theorem failed_attempt_leaves_no_thread opened acks s s' e : connect opened acks s = (s', Raise e) ->
  su_driver s' = su_driver s /\ su_config s' = su_config s /\ su_disk s' = su_disk s /\
  (su_client s' = su_client s \/ forall cl, su_client s' = Some cl -> cl_looping cl = false).
Proof.
  rewrite subscriber_connect_spec. destruct (su_config s) as [cfg|] eqn:C; [|intros [= <- _]; auto].
  destruct (make_client_spec cfg s) as (r & -> & B). cbn [snd]. destruct r as [cl|]; [|intros [= <- _]; auto].
  destruct (B cl eq_refl) as [L _]. destruct opened; [|intros [= <- _]; split_and!; [done..|]; right; by intros ? [= <-]].
  rewrite await_connack_spec. repeat case_bool_decide; intros E; simplify_eq; (split_and!; [done..|by right]).
Qed.
End ConnectFacts.
End MqttConnect.

(** ** SNMP trap receiver *)

Module TrapConnect.
Import TrapReceiver.
Definition DEFAULT_PORT : Z := 162.
Record TrapConfig := MkConfig {
  tc_host : option string; tc_port : option Z; tc_version : string; tc_community : option string; tc_username : option string;
  tc_auth_protocol : option string; tc_priv_protocol : option string; tc_auth_password : option string; tc_priv_password : option string }.
Abbreviation endpoint := (string * Z)%type.
(** What [add_v1_system] or [add_v3_user] is given. *)
Inductive Security := V1System (name community : string)
  | V3User (user auth_protocol : string) (auth_key : option string) (priv_protocol : string) (priv_key : option string).
Record Engine := MkEngine { en_endpoint : endpoint; en_security : Security }.
(** The driver, its engine, and the endpoints the process has bound. *)
Record receiver := MkReceiver { rv_driver : driver; rv_config : option TrapConfig; rv_engine : option Engine; rv_bound : list endpoint }.

Definition endpoint_of (cfg : TrapConfig) : endpoint := (default "0.0.0.0" (tc_host cfg), default DEFAULT_PORT (tc_port cfg)).
Definition security_of (cfg : TrapConfig) : res Security :=
  if bool_decide (tc_version cfg ∈ ["v1"; "v2c"]) then
    match nonempty (tc_community cfg) with
    | None => Raise SnmpConfigError
    | Some community => Ok (V1System "xedge-trap-receiver" community)
    end
  else
    match nonempty (tc_username cfg) with
    | None => Raise SnmpConfigError
    | Some user =>
        let auth := default "none" (tc_auth_protocol cfg) in
        let priv := default "none" (tc_priv_protocol cfg) in
        raise_if negb (String.eqb priv "none") && String.eqb auth "none" with SnmpConfigError;
        raise_if negb (bool_decide (auth ∈ AUTH_PROTOCOLS)) || negb (bool_decide (priv ∈ PRIV_PROTOCOLS)) with KeyError;
        Ok (V3User user auth (nonempty (tc_auth_password cfg)) priv (nonempty (tc_priv_password cfg)))
    end.
Definition set_engine (e : option Engine) (r : receiver) : receiver := MkReceiver (rv_driver r) (rv_config r) e (rv_bound r).
Definition set_bound (l : list endpoint) (r : receiver) : receiver := MkReceiver (rv_driver r) (rv_config r) (rv_engine r) l.
Definition set_output (q : option (list TagUpdate)) (capacity : option Z) (r : receiver) : receiver :=
  let d := rv_driver r in
  MkReceiver (MkDriver (tr_instance d) (tr_tags_by_oid d) (tr_metrics d) q capacity) (rv_config r) (rv_engine r) (rv_bound r).
Fixpoint release (ep : endpoint) (l : list endpoint) : list endpoint :=
  match l with [] => [] | x :: l => if decide (x = ep) then l else x :: release ep l end.

Section Receiver.
(** Whether one more endpoint can be bound, and whether pysnmp takes the credentials. *)
Context (bind : list endpoint -> endpoint -> res unit) (install : Security -> res unit).
Local Abbreviation M := (SR receiver).
Definition configure_driver (iid : string) (cfg : TrapConfig) (groups : list (list TrapTag)) (r : receiver) : receiver :=
  MkReceiver (configure iid groups (rv_driver r)) (Some cfg) (rv_engine r) (rv_bound r).
Definition require_config : M TrapConfig :=
  let! c := sget rv_config in match c with Some c => sret c | None => sraise SnmpTrapReceiverStateError end.
(** [add_transport(open_server_mode(...))]: any failure is a connection error. *)
Definition open_server (ep : endpoint) : M unit :=
  let! bound := sget rv_bound in
  match bind bound ep with Ok _ => smodify (set_bound (ep :: bound)) | Raise _ => sraise DriverConnectionError end.
Definition connect : M unit :=
  let! cfg := require_config in
  let! _ := open_server (endpoint_of cfg) in
  let! security := slift (security_of cfg) in
  let! _ := slift (install security) in
  smodify (set_engine (Some (MkEngine (endpoint_of cfg) security))).
(** [close_dispatcher] closes the engine's transport. *)
Definition disconnect (r : receiver) : receiver :=
  match rv_engine r with
  | None => r
  | Some e => set_engine None (set_bound (release (en_endpoint e) (rv_bound r)) r)
  end.
(** [run]: the queue is the driver's until the task is cancelled; nothing sets
    the stop event. *)
Definition run_started (output : list TagUpdate) (capacity : option Z) : M unit :=
  let! _ := require_config in smodify (set_output (Some output) capacity).
Definition run_cancelled : receiver -> receiver := set_output None None.
End Receiver.

Lemma release_head ep l : release ep (ep :: l) = l.
Proof. simpl. by rewrite decide_True. Qed.

(** What an engine may be opened with. *)
Definition sound_security (s : Security) : Prop :=
  match s with
  | V1System _ community => community <> ""
  | V3User user auth _ priv _ => user <> "" /\ auth ∈ AUTH_PROTOCOLS /\ priv ∈ PRIV_PROTOCOLS /\ (priv <> "none" -> auth <> "none")
  end.
Lemma nonempty_some o x : nonempty o = Some x -> x <> "".
Proof. destruct o as [[]|]; simpl; congruence. Qed.
Lemma security_of_sound cfg s : security_of cfg = Ok s -> sound_security s.
Proof.
  unfold security_of. case_bool_decide.
  - destruct (nonempty (tc_community cfg)) eqn:N; intros E; simplify_eq. by apply nonempty_some in N.
  - destruct (nonempty (tc_username cfg)) eqn:N; [|done]. cbn zeta. intros E.
    destruct (negb _ && _) eqn:P; [done|]. destruct (negb _ || _) eqn:K; [done|]. simpl in E. simplify_eq. apply nonempty_some in N.
    apply orb_false_elim in K as [K1%negb_false_iff%bool_decide_eq_true K2%negb_false_iff%bool_decide_eq_true]. split_and!; [done..|].
    intros Priv Auth. apply andb_false_iff in P as [P%negb_false_iff%String.eqb_eq|P%String.eqb_neq]; done.
Qed.

Section ReceiverFacts.
Context (bind : list endpoint -> endpoint -> res unit) (install : Security -> res unit).
Abbreviation connect_ := (connect bind install).

Lemma receiver_connect_spec r cfg : rv_config r = Some cfg ->
  connect_ r =
  match bind (rv_bound r) (endpoint_of cfg) with
  | Raise _ => (r, Raise DriverConnectionError)
  | Ok _ =>
      let opened := set_bound (endpoint_of cfg :: rv_bound r) r in
      match security_of cfg with
      | Raise e => (opened, Raise e)
      | Ok s => match install s with Raise e => (opened, Raise e) | Ok _ => (set_engine (Some (MkEngine (endpoint_of cfg) s)) opened, Ok tt) end
      end
  end.
Proof.
  intros C. unfold connect, require_config, open_server, sbind, sget, slift, smodify, sret, sraise. rewrite C.
  destruct (bind _ _); [|done]. destruct (security_of cfg) as [s|]; [|done]. by destruct (install s).
Qed.

(** A receiver that connects has bound the configured endpoint and listens with
    the credentials of its configuration, never with an empty community or user
    name and never with privacy without authentication; disconnecting it gives
    back exactly what it bound. *)
Theorem receiver_connects_securely r r' cfg : rv_config r = Some cfg -> connect_ r = (r', Ok tt) ->
  (exists e, rv_engine r' = Some e /\ en_endpoint e = endpoint_of cfg /\ security_of cfg = Ok (en_security e) /\ sound_security (en_security e)) /\
  rv_bound r' = endpoint_of cfg :: rv_bound r /\ rv_bound (disconnect r') = rv_bound r /\ rv_engine (disconnect r') = None.
Proof.
  intros C. rewrite (receiver_connect_spec _ _ C). destruct (bind _ _); [|done]. cbn zeta.
  destruct (security_of cfg) as [s|] eqn:S; [|done]. destruct (install s); [|done]. intros [= <-]. split.
  - eexists. split_and!; [done..|]. by apply (security_of_sound cfg).
  - unfold disconnect. cbn [rv_engine set_engine rv_bound set_bound en_endpoint]. by rewrite release_head.
Qed.
(** A configuration with invalid credentials is refused only after the endpoint
    has been bound, and the transport is then forgotten: [disconnect] does not
    close it, and where the system lets an endpoint be bound once, every later
    attempt on it fails, with a corrected configuration too. *)
Theorem refused_credentials_leak_endpoint r cfg e : 
  (forall l ep, ep ∈ l -> exists x, bind l ep = Raise x) ->
  rv_config r = Some cfg -> rv_engine r = None -> bind (rv_bound r) (endpoint_of cfg) = Ok tt -> security_of cfg = Raise e ->
  exists r1, connect_ r = (r1, Raise e) /\ rv_bound (disconnect r1) = endpoint_of cfg :: rv_bound r /\
    forall iid cfg' groups, endpoint_of cfg' = endpoint_of cfg ->
      snd (connect_ (configure_driver iid cfg' groups (disconnect r1))) = Raise DriverConnectionError.
Proof.
  intros Once C N B S. rewrite (receiver_connect_spec _ _ C), B, S. eexists. split; [done|]. unfold disconnect. cbn [rv_engine set_bound]. rewrite N.
  split; [done|]. intros iid cfg' groups E. rewrite (receiver_connect_spec _ cfg') by done. cbn [rv_bound configure_driver set_bound]. rewrite E.
  destruct (Once (endpoint_of cfg :: rv_bound r) (endpoint_of cfg)) as (x & ->); [by left|done].
Qed.
End ReceiverFacts.
End TrapConnect.

(** ** Concrete connections *)

Module ConnectExamples.
Import MqttSubscriber MqttConnect.
Definition unused : DriverMetrics := {| tag_read_count := 0; error_count := 0; reconnect_count := 0; last_successful_read := None |}.
Definition plain_config : MqttConfig := MkConfig None (Some "edge") (Some "pw") (Some true) (Some "ca.pem") None None None "broker" (Some 8883) None.
Definition two_groups : list (list RawTag) :=
  [[MkTag "a" "plant/a" (Some 1) None None None None]; [MkTag "b" "plant/+" None None None None None; MkTag "a2" "plant/a" None None None None None]].
Definition any_ssl : Ssl := {| load_ca_file _ := Ok tt; check_chain _ _ := Ok tt |}.
Definition idle_subscriber : subscriber :=
  configure_driver "m" plain_config two_groups (MkSubscriber (MkDriver None [] [] unused) None None {["ca.pem" := "CA"]}).
Definition connect_plain := @connect any_ssl.
Example plain_session : cl_subscribed <$> su_client (fst (connect_plain (Ok tt) [None] idle_subscriber)) = Some [("plant/a", 0); ("plant/+", 0)].
Proof. by vm_compute. Qed.
Lemma session_subscribes_every_tag_witness :
  exists cl, su_client (reconnected [Some "not authorized"; None] (fst (connect_plain (Ok tt) [None] idle_subscriber))) = Some cl /\
    covers two_groups (cl_subscribed cl).
Proof.
  destruct (@session_subscribes_every_tag any_ssl "m" two_groups (MkDriver None [] [] unused) plain_config idle_subscriber (Ok tt) [None]
    (fst (connect_plain (Ok tt) [None] idle_subscriber))) as [_ L]; [done|done|by vm_compute|].
  destruct (L [Some "not authorized"]) as (cl & E & _ & _ & C). by exists cl.
Defined.
(** A broker that refuses the client, then one that does not answer. *)
Lemma failed_attempt_leaves_no_thread_witness :
  forall cl, su_client (fst (connect_plain (Ok tt) [Some "not authorized"] idle_subscriber)) = Some cl -> cl_looping cl = false.
Proof.
  destruct (@failed_attempt_leaves_no_thread any_ssl (Ok tt) [Some "not authorized"] idle_subscriber
    (fst (connect_plain (Ok tt) [Some "not authorized"] idle_subscriber)) DriverConnectionError) as (_ & _ & _ & [E|L]);
    [by vm_compute|rewrite E; done|exact L].
Defined.
Example silent_broker : snd (connect_plain (Ok tt) [] idle_subscriber) = Raise TimeoutError.
Proof. by vm_compute. Qed.

Import TrapConnect.
Definition bind_once (l : list endpoint) (ep : endpoint) : res unit := if decide (ep ∈ l) then Raise OSError else Ok tt.
Definition trap_config (version : string) (auth priv : option string) : TrapConfig :=
  TrapConnect.MkConfig None None version (Some "public") (Some "ops") auth priv (Some "authpass1") (Some "privpass1").
Definition idle_receiver (cfg : TrapConfig) : receiver :=
  TrapConnect.configure_driver "t" cfg [] (MkReceiver (TrapReceiver.MkDriver None [] unused None None) None None []).
Definition connect_receiver := TrapConnect.connect bind_once (fun _ => Ok tt).
Lemma receiver_connects_securely_witness :
  rv_bound (TrapConnect.disconnect (fst (connect_receiver (idle_receiver (trap_config "v3" (Some "sha256") (Some "aes128")))))) = [].
Proof.
  by destruct (receiver_connects_securely bind_once (fun _ => Ok tt) (idle_receiver (trap_config "v3" (Some "sha256") (Some "aes128")))
    (fst (connect_receiver (idle_receiver (trap_config "v3" (Some "sha256") (Some "aes128"))))) (trap_config "v3" (Some "sha256") (Some "aes128")))
    as (_ & _ & R & _).
Defined.
(** Privacy without authentication, then the configuration corrected. *)
Lemma refused_credentials_leak_endpoint_witness :
  let wrong := trap_config "v3" None (Some "aes128") in
  let r1 := fst (connect_receiver (idle_receiver wrong)) in
  snd (connect_receiver (idle_receiver wrong)) = Raise SnmpConfigError /\
  snd (connect_receiver (TrapConnect.configure_driver "t" (trap_config "v2c" None None) [] (TrapConnect.disconnect r1))) = Raise DriverConnectionError.
Proof.
  destruct (refused_credentials_leak_endpoint bind_once (fun _ => Ok tt) (idle_receiver (trap_config "v3" None (Some "aes128")))
    (trap_config "v3" None (Some "aes128")) SnmpConfigError) as (r1 & E & _ & L); [|done|done|done|done|].
  - intros l ep I. exists OSError. unfold bind_once. by rewrite decide_True.
  - unfold connect_receiver. rewrite E. split; [done|]. exact (L "t" (trap_config "v2c" None None) [] eq_refl).
Defined.
End ConnectExamples.
