(* ===== verification/AgentMib.v ===== *)
(** * The MIB of the SNMP agent (src/xedge/northbound/snmp_agent.py, [_register_mib_objects])

    The objects the agent exports, and what a network manager that polls it
    reads: one table of drivers and one counter for each alarm state.  How an
    instance id becomes the index part of an object identifier
    ([getInstIdFromIndices]) is pysnmp's. *)

From Stdlib Require Import Ascii.
From stdpp Require Import pretty.
From S2P Require Import Prelude PyText PyDict Connectivity Alarms Supervisor SystemTags NorthboundServers.
Import SnmpAgent.
Local Open Scope string_scope.
Local Open Scope list_scope.
Local Open Scope Z_scope.

Abbreviation oid := (list Z).
Definition PLACEHOLDER_ENTERPRISE_OID : oid := [1; 3; 6; 1; 4; 1; 999999].
Definition DRIVER_TABLE_OID : oid := PLACEHOLDER_ENTERPRISE_OID ++ [1].
Definition DRIVER_ENTRY_OID : oid := DRIVER_TABLE_OID ++ [1].
Definition ALARM_COUNT_BASE_OID : oid := PLACEHOLDER_ENTERPRISE_OID ++ [2].
(** The subtree [add_vacm_user] lets the community read. *)
Definition READ_SUBTREE : oid := [1; 3; 6; 1].

Inductive syntax := OctetString | RowStatus (initial : string) | Integer32 (initial : Z).
Inductive mib_object :=
  | MibTable (o : oid)
  | MibTableRow (o : oid) (index_names : list (Z * string * string))
  | MibTableColumn (o : oid) (s : syntax) (max_access : string)
  | MibScalar (o : oid) (s : syntax) (max_access : string)
  | MibScalarInstance (o : oid) (suffix : oid) (s : syntax).
(** The symbols of the two modules, the values of sysDescr and sysName, and the
    counter instance of each alarm state. *)
Record registration := MkRegistration {
  rg_sys_descr : string; rg_sys_name : string; rg_driver_mib : dict mib_object; rg_alarm_mib : dict mib_object;
  rg_alarm_count_instances : list (AlarmState * mib_object) }.

Definition supervisor_hostname : string := "xedge".
Definition read_only_column (k : Z) (s : syntax) : mib_object := MibTableColumn (DRIVER_ENTRY_OID ++ [k]) s "read-only".
Definition driver_objects : dict mib_object :=
  [("driverTable", MibTable DRIVER_TABLE_OID);
   ("driverEntry", MibTableRow DRIVER_ENTRY_OID [(0, "__XEDGE_AGENT_MIB", "driverInstanceId")]);
   ("driverInstanceId", read_only_column 1 OctetString);
   ("driverType", read_only_column 2 OctetString);
   ("driverState", read_only_column 3 OctetString);
   ("driverConnectivityState", read_only_column 4 OctetString);
   ("driverRowStatus", read_only_column 5 (RowStatus "notExists"))].
Definition alarm_oid (index : Z) : oid := ALARM_COUNT_BASE_OID ++ [index].
(** The loop over [enumerate(AlarmState, start=index)]. *)
Fixpoint alarm_objects (index : Z) (states : list AlarmState) : dict mib_object * list (AlarmState * mib_object) :=
  match states with
  | [] => ([], [])
  | state :: states =>
      let instance := MibScalarInstance (alarm_oid index) [0] (Integer32 0) in
      let '(symbols, instances) := alarm_objects (index + 1) states in
      (("alarmCountScalar" ++ pretty index, MibScalar (alarm_oid index) (Integer32 0) "read-only")%string ::
       ("alarmCountInstance" ++ pretty index, instance)%string :: symbols, (state, instance) :: instances)
  end.
Definition register_mib_objects : registration :=
  let '(symbols, instances) := alarm_objects 1 alarm_states in
  MkRegistration "xEdge IIoT Gateway" supervisor_hostname driver_objects symbols instances.

(** ** What a poll reads *)

Inductive variable_value := Text (s : string) | Status (s : string) | Count (n : Z).

Section Poll.
Context (inst_id : string -> oid).
(** [column.name + row_instance_id] *)
Definition cell (column : Z) (i : string) : oid := DRIVER_ENTRY_OID ++ [column] ++ inst_id i.
(** The cells [_create_driver_row] and [_update_driver_row] write; a created
    row is active.  (The index column is pysnmp's.) *)
Definition row_variables (e : string * row) : list (oid * variable_value) :=
  let '(i, r) := e in
  [(cell 2 i, Text (row_type r)); (cell 3 i, Text (state_value (row_state r)));
   (cell 4 i, Text (connectivity_value (row_connectivity r))); (cell 5 i, Status "active")].
Definition counter_variable (a : agent) (e : AlarmState * mib_object) : list (oid * variable_value) :=
  match e with (s, MibScalarInstance o suffix _) => [(o ++ suffix, Count (ag_counts a s))] | _ => [] end.
Definition variables (a : agent) : list (oid * variable_value) :=
  concat (map row_variables (map_to_list (ag_rows a))) ++
  concat (map (counter_variable a) (rg_alarm_count_instances register_mib_objects)).
Definition counter (s : AlarmState) : oid := alarm_oid (match s with NORMAL => 1 | ACTIVE => 2 | ACTIVE_ACKED => 3 end) ++ [0].
(** The value of column [c] of a row. *)
Definition column_value (r : row) (c : Z) : option variable_value :=
  if c =? 2 then Some (Text (row_type r)) else if c =? 3 then Some (Text (state_value (row_state r)))
  else if c =? 4 then Some (Text (connectivity_value (row_connectivity r))) else if c =? 5 then Some (Status "active") else None.

Lemma row_variables_elem i r o v : (o, v) ∈ row_variables (i, r) <-> exists c, o = cell c i /\ column_value r c = Some v.
Proof.
  unfold row_variables. rewrite !elem_of_cons, elem_of_nil. unfold column_value. split.
  - intros [E|[E|[E|[E|[]]]]]; injection E as -> ->; eauto.
  - intros (c & -> & E). revert E. destruct (Z.eqb_spec c 2) as [->|]; [intros [= <-]; tauto|].
    destruct (Z.eqb_spec c 3) as [->|]; [intros [= <-]; tauto|]. destruct (Z.eqb_spec c 4) as [->|]; [intros [= <-]; tauto|].
    destruct (Z.eqb_spec c 5) as [->|]; [intros [= <-]; tauto|done].
Qed.
Lemma counters_elem a o v :
  (o, v) ∈ concat (map (counter_variable a) (rg_alarm_count_instances register_mib_objects)) <-> exists s, o = counter s /\ v = Count (ag_counts a s).
Proof.
  simpl. rewrite !elem_of_cons, elem_of_nil. split.
  - intros [E|[E|[E|[]]]]; injection E as -> ->; [by exists NORMAL|by exists ACTIVE|by exists ACTIVE_ACKED].
  - intros ([] & -> & ->); auto.
Qed.
Lemma variables_elem a o v : (o, v) ∈ variables a <->
  (exists i r c, ag_rows a !! i = Some r /\ o = cell c i /\ column_value r c = Some v) \/ (exists s, o = counter s /\ v = Count (ag_counts a s)).
Proof.
  unfold variables. rewrite elem_of_app, counters_elem. f_equiv. rewrite list_elem_of_In, in_concat. split.
  - intros (l & (e & <- & I)%in_map_iff & J). apply list_elem_of_In in I, J. destruct e as [i r]. apply elem_of_map_to_list in I.
    apply row_variables_elem in J as (c & ? & ?). eauto 6.
  - intros (i & r & c & L & -> & V). exists (row_variables (i, r)). split; [|apply list_elem_of_In, row_variables_elem; eauto].
    apply in_map_iff. exists (i, r). split; [done|]. by apply list_elem_of_In, elem_of_map_to_list.
Qed.
Hypothesis inst_id_inj : forall i j, inst_id i = inst_id j -> i = j.
Lemma cell_inj c c' i i' : cell c i = cell c' i' -> c = c' /\ i = i'.
Proof. unfold cell. intros E%app_inv_head. injection E as -> E. split; [done|by apply inst_id_inj]. Qed.
Lemma cell_not_counter c i s : cell c i <> counter s.
Proof. by destruct s. Qed.
Lemma counter_inj s s' : counter s = counter s' -> s = s'.
Proof. by destruct s, s'. Qed.

(** What a network manager polls is the gateway: after a turn of the
    synchronisation whose writes succeed, the agent answers for every driver
    instance with the type, state and connectivity the supervisor reports and
    for every alarm state with the number of alarms in it; it answers for no
    other instance, no object identifier stands for two values, and all of them
    lie in the subtree the community may read. *)
Theorem poll_reads_gateway mib order current alarms a :
  (forall n i, mib n i = Ok tt) -> (forall s, order s ≡ₚ elements s) -> ag_known a = dom (ag_rows a) ->
  exists a', sync_once mib order current alarms a = (a', Ok tt) /\
    (forall i c v, (cell c i, v) ∈ variables a' <-> exists st, current !! i = Some st /\ column_value (row_of st) c = Some v) /\
    (forall s v, (counter s, v) ∈ variables a' <-> v = Count (count_state alarms s)) /\
    (forall o v v', (o, v) ∈ variables a' -> (o, v') ∈ variables a' -> v = v') /\
    (forall o v, (o, v) ∈ variables a' -> exists rest, o = READ_SUBTREE ++ rest).
Proof.
  intros Mib Order K. destruct (agent_follows_supervisor mib order Mib Order current alarms a K) as (a' & E & R & _ & C).
  exists a'. split; [done|].
  assert (forall i c v, (cell c i, v) ∈ variables a' <-> exists st, current !! i = Some st /\ column_value (row_of st) c = Some v) as Cells.
  { intros i c v. rewrite variables_elem, R. split.
    - intros [(j & r & c' & L & [-> ->]%cell_inj & V)|(s & E' & _)]; [|by apply cell_not_counter in E'].
      rewrite lookup_fmap in L. apply fmap_Some in L as (st & L & ->). eauto.
    - intros (st & L & V). left. exists i, (row_of st), c. by rewrite lookup_fmap, L. }
  assert (forall s v, (counter s, v) ∈ variables a' <-> v = Count (count_state alarms s)) as Counters.
  { intros s v. rewrite variables_elem. split.
    - intros [(j & r & c' & _ & E' & _)|(s' & ->%counter_inj & ->)]; [by apply eq_sym, cell_not_counter in E'|by rewrite C].
    - intros ->. right. exists s. by rewrite C. }
  split_and!; [done|done| |].
  - intros o v v' I J. pose proof I as [(i & r & c & _ & -> & _)|(s & -> & _)]%variables_elem.
    + apply Cells in I as (st & L & V), J as (st' & L' & V'). congruence.
    + apply Counters in I, J. congruence.
  - intros o v [(i & r & c & _ & -> & _)|(s & -> & _)]%variables_elem; [|destruct s]; by eexists.
Qed.
End Poll.

Section Examples.
(** A variable length index (RFC 2578): its length, then its octets. *)
Definition octets_index (s : string) : oid := Z.of_nat (String.length s) :: map (fun c => Z.of_nat (nat_of_ascii c)) (list_ascii_of_string s).
Lemma octets_index_inj i j : octets_index i = octets_index j -> i = j.
Proof.
  intros [= _ E]. rewrite <- (string_of_list_ascii_of_string i), <- (string_of_list_ascii_of_string j). f_equal. revert E.
  generalize (list_ascii_of_string i), (list_ascii_of_string j). intros l. induction l as [|c l IH]; intros [|d l'] [=]; [done|].
  f_equal; [|by apply IH]. rewrite <- (ascii_nat_embedding c), <- (ascii_nat_embedding d). f_equal. lia.
Qed.
Definition plc : DriverInstanceStatus :=
  {| st_instance_id := "plc"; st_driver_type := "modbus_tcp"; st_state := RUNNING; consecutive_failures := 0; last_error := None;
     st_metrics := no_metrics; tag_count := 0; state_changed_at := 0; connectivity_state := CONNECTED |}.
Example plc_state_oid : cell octets_index 3 "plc" = [1; 3; 6; 1; 4; 1; 999999; 1; 1; 3; 3; 112; 108; 99].
Proof. by vm_compute. Qed.
Lemma poll_reads_gateway_witness :
  exists a', sync_once (fun _ _ => Ok tt) elements {["plc" := plc]} [] new_agent = (a', Ok tt) /\
    (cell octets_index 3 "plc", Text "running") ∈ variables octets_index a' /\
    (counter ACTIVE, Count 0) ∈ variables octets_index a'.
Proof.
  destruct (poll_reads_gateway octets_index octets_index_inj (fun _ _ => Ok tt) elements {["plc" := plc]} [] new_agent)
    as (a' & E & Cells & Counters & _); [done|done|done|].
  exists a'. split; [done|]. split; [apply Cells; exists plc; split; [apply lookup_singleton_eq|done]|by apply Counters].
Defined.
End Examples.
