(* ===== verification/FleetDashboard.v ===== *)
(** * The dashboard of the fleet manager (src/xedge/fleet/manager_app.py, [_mount_dashboard])

    The manager serves the built web application next to its API.  A path is the
    list of its segments below the root; what the file system answers is the
    class [Files], symbolic links included. *)

From Stdlib Require Import Ascii.
From S2P Require Import Prelude PyText SchemaForms.
Local Open Scope string_scope.
Local Open Scope list_scope.
Local Open Scope Z_scope.

Abbreviation path := (list string).
Class Files := {
  (** where a link points (from the root or from its directory); [Raise] if the
      name is not one the system accepts *)
  readlink : path -> res (option (bool * path));
  is_dir : path -> bool;
  is_file : path -> bool }.

(** The segments [pathlib] keeps of a text, and [dir / text]. *)
Definition segments (text : string) : path := List.filter (fun s => negb (String.eqb s "") && negb (String.eqb s ".")) (split_on "/" text).
Definition is_absolute (text : string) : bool := match text with String c _ => Ascii.eqb c "/" | EmptyString => false end.
Definition join (dir : path) (text : string) : path := if is_absolute text then segments text else dir ++ segments text.

Section Dashboard.
Context `{Files}.
(** [resolve()]: [..] goes up, links are followed; more than [fuel] steps are a
    loop of links. *)
Fixpoint walk (fuel : nat) (done_ rest : path) : res path :=
  match rest with
  | [] => Ok done_
  | s :: rest =>
      match fuel with
      | O => Raise RuntimeError
      | S fuel =>
          if String.eqb s ".." then walk fuel (removelast done_) rest else
          let* link := readlink (done_ ++ [s]) in
          match link with
          | None => walk fuel (done_ ++ [s]) rest
          | Some (from_root, target) => walk fuel (if from_root : bool then [] else done_) (target ++ rest)
          end
      end
  end.
Definition resolve (fuel : nat) (p : path) : res path := walk fuel [] p.
Definition is_relative_to (root p : path) : bool := bool_decide (take (length root) p = root).

(** [serve_dashboard]: the file the response carries. *)
Definition serve_dashboard (fuel : nat) (dashboard_dir dashboard_root : path) (full_path : string) : res path :=
  let* requested := resolve fuel (join dashboard_dir full_path) in
  Ok (if is_relative_to dashboard_root requested && is_file requested then requested else join dashboard_dir "index.html").
(** The GET routes that follow those of the API. *)
Inductive route := StaticFiles (directory : path) | Dashboard (root : path).
Definition mount_dashboard (fuel : nat) (dashboard_dir : path) : res (list route) :=
  if negb (is_dir dashboard_dir) then Ok [] else
  raise_if negb (is_dir (join dashboard_dir "assets")) with RuntimeError;
  let* root := resolve fuel dashboard_dir in
  Ok [StaticFiles (join dashboard_dir "assets"); Dashboard root].

(** ** What is served *)

Definition unlinked (p : path) : Prop := forall n, (0 < n <= length p)%nat -> readlink (take n p) = Ok None.
Definition plain (p : path) : Prop := Forall (fun s => s <> "..") p.
Lemma walk_plain rest : forall done_ fuel, (length rest <= fuel)%nat -> plain rest ->
  (forall n, (0 < n <= length rest)%nat -> readlink (done_ ++ take n rest) = Ok None) -> walk fuel done_ rest = Ok (done_ ++ rest).
Proof.
  induction rest as [|s rest IH]; intros done_ fuel L P U; [simpl; by destruct fuel; rewrite app_nil_r|].
  destruct fuel as [|fuel]; simpl in L; [lia|]. apply Forall_cons in P as [N P]. cbn [walk].
  destruct (String.eqb_spec s "..") as [|_]; [done|]. pose proof (U 1%nat ltac:(simpl; lia)) as U1. cbn [take] in U1. rewrite take_0 in U1. rewrite U1. cbn [rbind].
  rewrite IH; [by rewrite <- app_assoc|lia|done|]. intros n B. rewrite <- app_assoc. apply (U (S n)). simpl. lia.
Qed.
Lemma resolve_plain fuel p : (length p <= fuel)%nat -> plain p -> unlinked p -> resolve fuel p = Ok p.
Proof. intros L P U. unfold resolve. by rewrite walk_plain. Qed.

(** Nothing outside the build leaves the server: whatever the requested path
    (with [..], absolute, or through links), a response carries a file below the
    resolved directory of the dashboard, or the page of the application. *)
Theorem dashboard_confined fuel dashboard_dir root full_path p :
  serve_dashboard fuel dashboard_dir root full_path = Ok p ->
  p = join dashboard_dir "index.html" \/ (exists below, p = root ++ below) /\ is_file p = true.
Proof.
  unfold serve_dashboard. destruct (resolve _ _) as [r|]; [|done]. cbn [rbind]. intros [= <-].
  destruct (is_relative_to root r && is_file r) eqn:E; [|by left]. apply andb_prop in E as [R%bool_decide_eq_true F]. right. split; [|done].
  exists (drop (length root) r). rewrite <- R at 1. by rewrite take_drop.
Qed.
(** Every file of the build is reachable under its own path, where neither it
    nor the directory is behind a link. *)
Theorem dashboard_serves_build fuel dashboard_dir text :
  is_absolute text = false -> plain (dashboard_dir ++ segments text) -> unlinked (dashboard_dir ++ segments text) ->
  is_file (dashboard_dir ++ segments text) = true -> (length (dashboard_dir ++ segments text) <= fuel)%nat ->
  serve_dashboard fuel dashboard_dir dashboard_dir text = Ok (dashboard_dir ++ segments text).
Proof.
  intros A P U F L. unfold serve_dashboard, join. rewrite A, resolve_plain by done. cbn [rbind]. rewrite F.
  unfold is_relative_to. rewrite take_app_length. by rewrite bool_decide_true.
Qed.
End Dashboard.

Section Examples.
Definition build : Files :=
  {| readlink p := Ok (if bool_decide (p = ["srv"; "out"]) then Some (true, ["etc"]) else None);
     is_dir p := bool_decide (p ∈ [["srv"]; ["srv"; "assets"]]);
     is_file p := bool_decide (p ∈ [["srv"; "index.html"]; ["srv"; "favicon.svg"]; ["etc"; "passwd"]]) |}.
#[local] Existing Instance build.
Definition served (text : string) : res path := serve_dashboard 9 ["srv"] ["srv"] text.
Example paths_served : map served ["favicon.svg"; "devices/dev1"; "../etc/passwd"; "/etc/passwd"; "out/passwd"; "x/../favicon.svg"] =
  [Ok ["srv"; "favicon.svg"]; Ok ["srv"; "index.html"]; Ok ["srv"; "index.html"]; Ok ["srv"; "index.html"]; Ok ["srv"; "index.html"];
   Ok ["srv"; "favicon.svg"]].
Proof. by vm_compute. Qed.
Lemma dashboard_confined_witness : (exists below, ["srv"; "favicon.svg"] = ["srv"] ++ below) /\ is_file ["srv"; "favicon.svg"] = true.
Proof. destruct (dashboard_confined 9 ["srv"] ["srv"] "favicon.svg" ["srv"; "favicon.svg"]) as [E|W]; [done|done|exact W]. Defined.
Lemma dashboard_serves_build_witness : served "./favicon.svg" = Ok ["srv"; "favicon.svg"].
Proof.
  apply (dashboard_serves_build 9 ["srv"] "./favicon.svg"); [done|by repeat constructor| |done|simpl; lia].
  intros n B. simpl in B. by destruct n as [|[|[|n]]]; [lia| | |lia].
Defined.
End Examples.
