(* ===== verification/Observability.v ===== *)
(** * Metrics, tracing and logging setup
    (src/xedge/observability/otel_metrics.py, tracing.py, logging.py)

    The instruments a Prometheus scrape reads, the trace exporter the
    configuration asks for, and the two logging systems [configure_logging] sets
    up: structlog, whose loggers keep the level they were first used with, and
    the standard library's root logger, which [basicConfig] configures once. *)

From Stdlib Require Import Ascii.
From stdpp Require Import pretty.
From S2P Require Import Prelude PyText PyDict Connectivity Pipeline RingBuffer Config Supervisor SparkplugConnector LogBuffer.
Local Open Scope string_scope.
Local Open Scope list_scope.
Local Open Scope Z_scope.

(** ** Metrics *)

Module Metrics.
Inductive instrument := ObservableCounter (name : string) | ObservableGauge (name : string).
Record Observation := Observe { ob_value : Z; ob_labels : list (string * string) }.
(** What the callbacks read: the statuses in the order of the supervisor's
    dict, the metrics of the dispatcher if there is one, the buffers. *)
Record Sources := MkSources {
  src_supervisor : DriverSupervisor; src_dispatcher : option ConnectorMetrics; src_ring_buffers : RingBufferManager }.

Definition driver_observations (count : DriverMetrics -> Z) (s : Sources) : list Observation :=
  map (fun e => Observe (count (st_metrics e.2)) [("instance_id", st_instance_id e.2)]) (map_to_list (all_status (src_supervisor s))).
Definition northbound_observations (count : ConnectorMetrics -> Z) (s : Sources) : list Observation :=
  match src_dispatcher s with Some m => [Observe (count m) []] | None => [] end.
Definition stream_observations (count : RingBufferMetrics -> Z) (s : Sources) : list Observation :=
  omap (fun k => (fun m => Observe (count m) [("stream_key", k)]) <$> mgr_metrics (src_ring_buffers s) k) (stream_keys (src_ring_buffers s)).

(** The instruments in the order they are created, with their callbacks. *)
Definition configure_metrics (has_dispatcher : bool) : list (instrument * (Sources -> list Observation)) :=
  [(ObservableCounter "xedge_driver_tag_reads_total", driver_observations tag_read_count);
   (ObservableCounter "xedge_driver_errors_total", driver_observations error_count);
   (ObservableCounter "xedge_driver_reconnects_total", driver_observations reconnect_count)] ++
  (if has_dispatcher
   then [(ObservableCounter "xedge_northbound_published_total", northbound_observations published_count);
         (ObservableCounter "xedge_northbound_errors_total", northbound_observations cm_error_count)]
   else []) ++
  [(ObservableGauge "xedge_ring_buffer_depth", stream_observations m_depth);
   (ObservableCounter "xedge_ring_buffer_evicted_total", stream_observations m_evicted_count)].

Definition total (l : list Observation) : Z := fold_right (fun o n => ob_value o + n) 0 l.

Lemma streams_exact count (d : dict RingBuffer) : dict_wf d ->
  omap (fun k => (fun m => Observe (count m) [("stream_key", k)]) <$> (buffer_metrics <$> dict_get k d)) (dict_keys d) =
  map (fun e => Observe (count (buffer_metrics e.2)) [("stream_key", e.1)]) d.
Proof.
  intros W. assert (forall l, (forall e, e ∈ l -> dict_get e.1 d = Some e.2) ->
    omap (fun k => (fun m => Observe (count m) [("stream_key", k)]) <$> (buffer_metrics <$> dict_get k d)) (map fst l) =
    map (fun e => Observe (count (buffer_metrics e.2)) [("stream_key", e.1)]) l) as L.
  { intros l. induction l as [|e l IH]; intros G; [done|]. simpl. rewrite (G e) by (by left). simpl. f_equal. apply IH. intros x X. apply G. by right. }
  apply L. intros [k b] I. by apply dict_get_wf.
Qed.
Lemma depths_total (d : dict RingBuffer) :
  total (map (fun e => Observe (m_depth (buffer_metrics e.2)) [("stream_key", e.1)]) d) = zlen (concat (map buffer (dict_values d))).
Proof.
  induction d as [|[k b] d IH]; [done|]. unfold dict_values in *. cbn [map total fold_right concat ob_value snd]. rewrite zlen_app.
  unfold total in IH. by rewrite IH.
Qed.

Lemma all_status_keyed s i st : sup_inv s -> all_status s !! i = Some st -> st_instance_id st = i.
Proof.
  intros I. unfold all_status. rewrite lookup_omap. destruct (statuses s !! i) as [r|] eqn:R; [|done]. simpl.
  destruct (i_stat s I i r R) as (st0 & -> & <-). simpl. intros [= <-]. unfold with_live_metrics. by destruct (drivers s !! _).
Qed.

(** A scrape shows the gateway as it is: one series for each driver instance,
    under its own id, with the live counts of its driver; one for each stream;
    the depths of the streams add up to the samples the hot tier holds, and none
    is above the configured depth. *)
Theorem scrape_exact reg count s : sup_reachable reg (src_supervisor s) -> mgr_ok (src_ring_buffers s) ->
  (forall i v, Observe v [("instance_id", i)] ∈ driver_observations count s <->
     exists st, all_status (src_supervisor s) !! i = Some st /\ v = count (st_metrics st)) /\
  NoDup (ob_labels <$> driver_observations count s) /\
  NoDup (ob_labels <$> stream_observations m_depth s) /\
  total (stream_observations m_depth s) = zlen (held (src_ring_buffers s)) /\
  Forall (fun o => 0 <= ob_value o <= mgr_max_depth (src_ring_buffers s)) (stream_observations m_depth s).
Proof.
  intros I%sup_reachable_inv [W F]. assert (forall i st, (i, st) ∈ map_to_list (all_status (src_supervisor s)) -> st_instance_id st = i) as Keyed.
  { intros i st M%elem_of_map_to_list. by apply all_status_keyed in M. }
  assert (stream_observations m_depth s =
    map (fun e => Observe (m_depth (buffer_metrics e.2)) [("stream_key", e.1)]) (buffers (src_ring_buffers s))) as Streams by by apply streams_exact.
  rewrite Streams. split_and!.
  - intros i v. unfold driver_observations. rewrite list_elem_of_fmap. split.
    + intros ([j st] & [= -> ->] & M). rewrite (Keyed _ _ M). apply elem_of_map_to_list in M. eauto.
    + intros (st & M & ->). exists (i, st). rewrite <- elem_of_map_to_list in M. simpl. by rewrite (Keyed _ _ M).
  - unfold driver_observations. rewrite <- list_fmap_compose.
    rewrite (list_fmap_ext _ (fun e => [("instance_id", e.1)])) by (intros n [i st] M%list_elem_of_lookup_2; simpl; by rewrite (Keyed _ _ M)).
    change (NoDup ((fun i => [("instance_id", i)]) ∘ fst <$> map_to_list (all_status (src_supervisor s)))). rewrite list_fmap_compose. apply NoDup_fmap_2; [|apply NoDup_fst_map_to_list]. by intros ? ? [= ->].
  - rewrite <- list_fmap_compose.
    change (NoDup ((fun e => [("stream_key", e)]) ∘ fst <$> buffers (src_ring_buffers s))). rewrite list_fmap_compose. apply NoDup_fmap_2; [|done].
    by intros ? ? [= ->].
  - apply depths_total.
  - apply Forall_map. eapply Forall_impl; [exact F|]. intros [k b] [_ B]. simpl. pose proof (zlen_nonneg (buffer b)). simpl in B. lia.
Qed.
End Metrics.

(** ** Tracing *)

Module Tracing.
Record TracingConfig := MkConfig { tr_enabled : option bool; tr_otlp_endpoint : option string; tr_device_id : option string }.
Inductive span_processor := BatchOtlp (endpoint : string) | SimpleConsole.
Record TracerProvider := MkProvider { tp_resource : dict json; tp_processors : list span_processor }.
Definition truthy (o : option string) : option string := match o with Some "" => None | _ => o end.
Definition configure_tracing (config : TracingConfig) (service_version : string) : TracerProvider :=
  MkProvider
    ([("service.name", JStr "xedge"); ("service.version", JStr service_version)] ++
     match truthy (tr_device_id config) with Some d => [("device.id", JStr d)] | None => [] end)
    (if default false (tr_enabled config)
     then [match truthy (tr_otlp_endpoint config) with Some e => BatchOtlp e | None => SimpleConsole end]
     else []).
End Tracing.

(** ** Logging *)

Module Logging.
(** The upper case integers of the module [logging]. *)
Definition levels : dict Z :=
  [("CRITICAL", 50); ("FATAL", 50); ("ERROR", 40); ("WARNING", 30); ("WARN", 30); ("INFO", 20); ("DEBUG", 10); ("NOTSET", 0)].
(** The root logger of the standard library; structlog's configuration; the
    level each logger was first used with; the log buffer. *)
Record system := MkSystem {
  configured : bool; root_handlers : bool; root_level : Z; structlog_level : option Z; first_used : gmap string Z; buffer_ : LogRingBuffer }.
(** An interpreter that has imported nothing yet. *)
Definition fresh_system : system := MkSystem false false 30 None ∅ (new_logs DEFAULT_LOG_BUFFER_SIZE).

(** [logging.basicConfig] does nothing to a root logger that has handlers. *)
Definition basic_config (level : Z) (s : system) : system :=
  if root_handlers s then s else MkSystem (configured s) true level (structlog_level s) (first_used s) (buffer_ s).
Definition structlog_configure (level : Z) (s : system) : system :=
  MkSystem true (root_handlers s) (root_level s) (Some level) (first_used s) (buffer_ s).
Definition configure_logging (level : string) : SR system unit :=
  match dict_get (upper level) levels with
  | None => sraise ValueError
  | Some n => let! _ := smodify (basic_config n) in smodify (structlog_configure n)
  end.
(** [get_logger]: a proxy that is bound when it is first used. *)
Definition get_logger : SR system unit :=
  let! c := sget configured in if (c : bool) then sret tt else configure_logging "INFO".

(** [format(n, "032x")] and [format(n, "016x")]: the ids have 128 and 64 bits. *)
Definition hex_char (n : Z) : ascii := ascii_of_nat (Z.to_nat (if n <? 10 then 48 + n else 87 + n)).
Fixpoint hex_fixed (width : nat) (n : Z) (acc : string) : string :=
  match width with O => acc | S w => hex_fixed w (n / 16) (String (hex_char (n mod 16)) acc) end.
(** [_inject_trace_context]: the current span, if its context is valid. *)
Definition inject_trace_context (span : option (Z * Z)) (event_dict : dict json) : dict json :=
  match span with
  | None => event_dict
  | Some (trace_id, span_id) =>
      dict_set "span_id" (JStr (hex_fixed 16 span_id "")) (dict_set "trace_id" (JStr (hex_fixed 32 trace_id "")) event_dict)
  end.

Section Log.
(** structlog's own processors: context variables, level, time stamp, exceptions. *)
Context (processors : dict json -> dict json).
(** A call of a method of [level] on the logger [name]; the lines printed. *)
Definition log (name : string) (level : Z) (span : option (Z * Z)) (event_dict : dict json) (s : system) : system * list (dict json) :=
  let threshold := default (default 0 (structlog_level s)) (first_used s !! name) in
  let used := <[name := threshold]> (first_used s) in
  let keep b := MkSystem (configured s) (root_handlers s) (root_level s) (structlog_level s) used b in
  if level <? threshold then (keep (buffer_ s), [])
  else let '(b, e) := capture_to_ring_buffer (inject_trace_context span (processors event_dict)) (buffer_ s) in (keep b, [e]).
End Log.

(** *** What the level governs *)

Definition try_level (s : system) (level : string) : system := fst (configure_logging level s).
Lemma try_level_spec level s :
  configure_logging level s =
  match dict_get (upper level) levels with None => (s, Raise ValueError) | Some n => (structlog_configure n (basic_config n s), Ok tt) end.
Proof. unfold configure_logging. by destruct (dict_get (upper level) levels). Qed.
Lemma try_level_keeps s level :
  first_used (try_level s level) = first_used s /\ buffer_ (try_level s level) = buffer_ s /\
  (root_handlers s = true -> root_handlers (try_level s level) = true /\ root_level (try_level s level) = root_level s).
Proof.
  unfold try_level. rewrite try_level_spec. destruct (dict_get (upper level) levels); [|done]. unfold basic_config. simpl.
  by destruct (root_handlers s) eqn:E.
Qed.
Lemma tried_keeps more : forall s,
  first_used (fold_left try_level more s) = first_used s /\ buffer_ (fold_left try_level more s) = buffer_ s /\
  (root_handlers s = true -> root_handlers (fold_left try_level more s) = true /\ root_level (fold_left try_level more s) = root_level s).
Proof.
  induction more as [|l more IH]; intros s; [done|]. cbn [fold_left]. destruct (IH (try_level s l)) as (-> & -> & R).
  destruct (try_level_keeps s l) as (-> & -> & R'). split_and!; [done..|]. intros H. destruct (R' H) as [H' <-]. by apply R.
Qed.
Lemma log_used processors name l span e s :
  first_used (fst (log processors name l span e s)) !! name = Some (default (default 0 (structlog_level s)) (first_used s !! name)) /\
  root_handlers (fst (log processors name l span e s)) = root_handlers s /\ root_level (fst (log processors name l span e s)) = root_level s.
Proof. unfold log. destruct (_ <? _); cbn [fst capture_to_ring_buffer first_used]; by rewrite lookup_insert_eq. Qed.
(** The start of the process: [main] and the modules it imports ask for their
    loggers, then the configured level is set. *)
Definition imported : system := fst (get_logger fresh_system).

(** The configured level governs the gateway's own loggers and nothing else: a
    logger first used after the start prints and captures exactly the events at
    or above the level of the configuration, and goes on to do so whatever is
    configured later; but the root logger, which the libraries log to, stays at
    the level INFO it was given while the modules were imported. *)
Theorem level_of_first_use processors level n more name l span e :
  dict_get (upper level) levels = Some n ->
  let started := try_level imported level in
  let used := fst (log processors name l span e started) in
  let later := fold_left try_level more used in
  (forall l' span' e', snd (log processors name l' span' e' later) =
     if l' <? n then [] else [inject_trace_context span' (processors e')]) /\
  (forall l' span' e', buffer_ (fst (log processors name l' span' e' later)) =
     if l' <? n then buffer_ later else log_event (inject_trace_context span' (processors e')) (buffer_ later)) /\
  root_level later = 20.
Proof.
  intros L started used later.
  assert (first_used used !! name = Some n /\ root_handlers used = true /\ root_level used = 20) as (U & H & R).
  { destruct (log_used processors name l span e started) as (U & H & R). fold used in U, H, R. rewrite U, H, R.
    unfold started, try_level. rewrite try_level_spec, L. cbn [fst]. split; [|done].
    assert (first_used (structlog_configure n (basic_config n imported)) !! name = None) as -> by apply lookup_empty. done. }
  destruct (tried_keeps more used) as (F & _ & K). fold later in F, K. destruct (K H) as [_ RL].
  split_and!; [intros l' span' e'..|by rewrite RL]; unfold log; rewrite F, U; simpl; by destruct (l' <? n).
Qed.
End Logging.

Section Examples.
Import Metrics Logging.
Definition one_stream : RingBufferManager := {| mgr_max_depth := 2; buffers := [("plc/a", with_buffer (make_buffer 2 false) [demo_tag_n 1] 4)] |}.
Definition demo_sources : Sources := MkSources demo_running None one_stream.
Lemma scrape_exact_witness :
  Observe 0 [("instance_id", "plc")] ∈ driver_observations tag_read_count demo_sources /\
  total (stream_observations m_depth demo_sources) = 1.
Proof.
  destruct (scrape_exact {["modbus_tcp"]} tag_read_count demo_sources) as (D & _ & _ & T & _).
  - apply demo_running_reachable.
  - split; [apply NoDup_singleton|]. by repeat constructor.
  - split; [|exact T]. apply D. by eexists.
Defined.
Lemma level_of_first_use_witness :
  let later := fold_left try_level ["debug"; "nonsense"] (fst (log id "xedge" 30 None [] (try_level imported "warning"))) in
  snd (log id "xedge" 20 None [("event", JStr "e")] later) = [] /\
  snd (log id "xedge" 40 (Some (171, 5)) [] later) =
    [[("trace_id", JStr "000000000000000000000000000000ab"); ("span_id", JStr "0000000000000005")]] /\
  root_level later = 20.
Proof.
  destruct (level_of_first_use id "warning" 30 ["debug"; "nonsense"] "xedge" 30 None [] eq_refl) as (P & _ & R).
  split_and!; [exact (P 20 None [("event", JStr "e")])|exact (P 40 (Some (171, 5)) [])|exact R].
Defined.
End Examples.
