(* ===== verification/GroupTasks.v ===== *)
(** * The group tasks of the polling drivers ([run] of src/xedge/drivers/)

    Every polling driver's [run] has the same shape: one task per tag group, a
    [gather] that waits for them, and a [finally] that cancels whatever is left
    and waits again.  The machine below is that code over the events of the
    event loop: a task ends, or the run itself is cancelled. *)

From S2P Require Import Prelude PyText PyDict Pipeline SnmpDriver EtherNetIpDriver FieldDrivers InboundDrivers.
Local Open Scope string_scope.
Local Open Scope list_scope.
Local Open Scope Z_scope.

Inductive ending := Returned | Raised (e : exn) | Cancelled.
(** A task polls until it ends; [cancel] may have been called on it. *)
Record task (G : Type) := MkTask { tk_group : G; tk_cancelled : bool; tk_end : option ending }.
Arguments MkTask {G}. Arguments tk_group {G}. Arguments tk_cancelled {G}. Arguments tk_end {G}.
(** [Gathering c]: inside the first [gather], [c] if the run was cancelled;
    [Cleaning r]: inside the second, with the result [r] to come; [Done r]. *)
Inductive phase := Gathering (cancel_requested : bool) | Cleaning (r : ending) | Done (r : ending).
Record run_state (G : Type) := MkRun { rs_tasks : list (task G); rs_phase : phase }.
Arguments MkRun {G}. Arguments rs_tasks {G}. Arguments rs_phase {G}.
Inductive event := TaskEnds (i : nat) (r : ending) | CancelRun.

Section Run.
Context {G : Type}.
Abbreviation tasks := (list (task G)).
Definition cancel (t : task G) : task G := match tk_end t with None => MkTask (tk_group t) true None | Some _ => t end.
Definition finish (r : ending) (t : task G) : task G := match tk_end t with None => MkTask (tk_group t) (tk_cancelled t) (Some r) | Some _ => t end.
Definition ended (t : task G) : bool := bool_decide (is_Some (tk_end t)).
Definition all_ended (l : tasks) : bool := forallb ended l.
(** The [finally]: cancel every task, wait for all. *)
Definition clean_up (r : ending) (l : tasks) : run_state G :=
  let l := map cancel l in MkRun l (if all_ended l then Done r else Cleaning r).
(** [gather] over no task is done at once. *)
Definition run_groups (groups : list G) : run_state G :=
  let l := map (fun g => MkTask g false None) groups in
  if all_ended l then clean_up Returned l else MkRun l (Gathering false).
(** The first task that fails or is cancelled decides what [gather] raises;
    otherwise it waits for the last one. *)
Definition gather_step (cancel_requested : bool) (r : ending) (l : tasks) : run_state G :=
  match r with
  | Returned => if all_ended l then clean_up (if cancel_requested then Cancelled else Returned) l else MkRun l (Gathering cancel_requested)
  | _ => clean_up r l
  end.
Definition step (e : event) (s : run_state G) : run_state G :=
  match rs_phase s, e with
  | Done _, _ => s
  | Gathering c, TaskEnds i r =>
      match rs_tasks s !! i with
      | Some t => if ended t then s else gather_step c r (<[i := finish r t]> (rs_tasks s))
      | None => s
      end
  | Gathering _, CancelRun => MkRun (map cancel (rs_tasks s)) (Gathering true)
  | Cleaning r0, TaskEnds i r =>
      match rs_tasks s !! i with
      | Some t => let l := <[i := finish r t]> (rs_tasks s) in MkRun l (if all_ended l then Done r0 else Cleaning r0)
      | None => s
      end
  | Cleaning _, CancelRun => MkRun (rs_tasks s) (Cleaning Cancelled)
  end.
Definition steps (es : list event) (s : run_state G) : run_state G := fold_left (fun s e => step e s) es s.

(** ** No task outlives its run *)

Record run_ok (s : run_state G) : Prop := {
  ro_done : forall r, rs_phase s = Done r -> all_ended (rs_tasks s) = true;
  ro_live : (forall r, rs_phase s <> Done r) -> all_ended (rs_tasks s) = false;
  (** while the first [gather] waits, every task that ended returned *)
  ro_gathering : forall c, rs_phase s = Gathering c -> Forall (fun t => tk_end t = None \/ tk_end t = Some Returned) (rs_tasks s);
  ro_cleaning : forall r, rs_phase s = Cleaning r -> Forall (fun t => tk_end t = None -> tk_cancelled t = true) (rs_tasks s);
  (** what the run comes to *)
  ro_returned : forall r, (rs_phase s = Cleaning r \/ rs_phase s = Done r) -> r = Returned -> Forall (fun t => tk_end t = Some Returned) (rs_tasks s);
  ro_raised : forall r e, (rs_phase s = Cleaning r \/ rs_phase s = Done r) -> r = Raised e -> Exists (fun t => tk_end t = Some (Raised e)) (rs_tasks s) }.

Lemma ended_finish r t : ended (finish r t) = true.
Proof. unfold ended, finish. apply bool_decide_eq_true. destruct (tk_end t) eqn:E; [by rewrite E|done]. Qed.
Lemma cancel_end t : tk_end (cancel t) = tk_end t.
Proof. unfold cancel. by destruct (tk_end t) eqn:E. Qed.
Lemma all_ended_cancel l : all_ended (map cancel l) = all_ended l.
Proof. unfold all_ended. induction l as [|t l IH]; [done|]. simpl. rewrite IH. unfold ended. by rewrite cancel_end. Qed.
Lemma cancel_ends (P : option ending -> Prop) l : Forall (fun t => P (tk_end t)) l -> Forall (fun t => P (tk_end t)) (map cancel l).
Proof. intros F. apply Forall_map. eapply Forall_impl; [exact F|]. intros t. simpl. by rewrite cancel_end. Qed.
Lemma cancelled_all l : Forall (fun t => tk_end t = None -> tk_cancelled t = true) (map cancel l).
Proof. apply Forall_map, Forall_forall. intros t _. unfold cancel. by destruct (tk_end t) eqn:E; [rewrite E|]. Qed.
Lemma clean_up_ok r l :
  (r = Returned -> Forall (fun t => tk_end t = Some Returned) l) -> (forall e, r = Raised e -> Exists (fun t => tk_end t = Some (Raised e)) l) ->
  run_ok (clean_up r l).
Proof.
  intros Ret Rai. unfold clean_up. split; cbn [rs_tasks rs_phase].
  - intros r'. by destruct (all_ended _).
  - intros N. destruct (all_ended _) eqn:E; [by destruct (N r)|done].
  - by destruct (all_ended _).
  - intros ? _. apply cancelled_all.
  - intros r' H ->. assert (r = Returned) by (destruct (all_ended _); naive_solver).
    by apply (cancel_ends (fun o => o = Some Returned)), Ret.
  - intros r' e H ->. assert (r = Raised e) as E by (destruct (all_ended _); naive_solver). apply Exists_exists.
    destruct (proj1 (Exists_exists _ _) (Rai e E)) as (t & I & T). exists (cancel t). split; [by apply list_elem_of_fmap_2|by rewrite cancel_end].
Qed.
Lemma run_groups_ok groups : run_ok (run_groups groups).
Proof.
  unfold run_groups. destruct groups as [|g groups]; [by apply clean_up_ok|].
  assert (all_ended (map (fun g => MkTask g false None) (g :: groups)) = false) as E by done.
  rewrite E. split; cbn [rs_tasks rs_phase]; try (intros; naive_solver).
  intros _ _. apply Forall_map, Forall_forall. intros ? _. by left.
Qed.
Definition so_far (l : tasks) : Prop := Forall (fun t => tk_end t = None \/ tk_end t = Some Returned) l.
Lemma gather_step_ok c r l : (r = Returned -> so_far l) -> (forall e, r = Raised e -> Exists (fun t => tk_end t = Some (Raised e)) l) ->
  run_ok (gather_step c r l).
Proof.
  intros Ret Rai. destruct r as [|e|]; [|by apply clean_up_ok; naive_solver|by apply clean_up_ok]. specialize (Ret eq_refl). cbn [gather_step].
  destruct (all_ended l) eqn:E; [|by split; cbn [rs_tasks rs_phase]; try (intros; naive_solver)].
  apply clean_up_ok; [|by destruct c]. intros _. unfold so_far in Ret. rewrite Forall_forall in Ret. apply Forall_forall. intros t I.
  destruct (Ret t I) as [N|]; [|done]. unfold all_ended in E. rewrite forallb_forall in E. specialize (E t (proj1 (list_elem_of_In _ _) I)).
  unfold ended in E. rewrite N in E. by apply bool_decide_eq_true, is_Some_None in E.
Qed.
Lemma cleaning_ok r0 l : Forall (fun t => tk_end t = None -> tk_cancelled t = true) l ->
  (r0 = Returned -> Forall (fun t => tk_end t = Some Returned) l) -> (forall e, r0 = Raised e -> Exists (fun t => tk_end t = Some (Raised e)) l) ->
  run_ok (MkRun l (if all_ended l then Done r0 else Cleaning r0)).
Proof.
  intros C Ret Rai. split; cbn [rs_tasks rs_phase]; destruct (all_ended l) eqn:E; try done; try (intros; naive_solver).
Qed.
Lemma finish_running r t : ended t = false -> tk_end t = None /\ tk_end (finish r t) = Some r.
Proof. unfold ended, finish. intros E%bool_decide_eq_false. destruct (tk_end t); [by destruct E|done]. Qed.
(** A task that ends keeps what another one ended with. *)
Lemma finish_exists r i t l (P : option ending -> Prop) : (P None -> False) -> l !! i = Some t ->
  Exists (fun t => P (tk_end t)) l -> Exists (fun t => P (tk_end t)) (<[i := finish r t]> l).
Proof.
  intros N T (u & I & Q)%Exists_exists. apply list_elem_of_lookup in I as [j J]. apply Exists_exists.
  destruct (decide (i = j)) as [->|Ne].
  - exists (finish r t). split; [eapply list_elem_of_lookup_2, list_lookup_insert_eq, lookup_lt_Some, T|]. rewrite J in T. injection T as ->.
    unfold finish. destruct (tk_end t) eqn:E; [by rewrite E|by destruct (N Q)].
  - exists u. split; [|done]. eapply list_elem_of_lookup_2. rewrite list_lookup_insert_ne by done. exact J.
Qed.
Lemma finish_forall r i t l (P : task G -> Prop) : P (finish r t) -> Forall P l -> Forall P (<[i := finish r t]> l).
Proof. intros Q F. by apply Forall_insert. Qed.
Lemma step_ok e s : run_ok s -> run_ok (step e s).
Proof.
  intros O. unfold step. destruct (rs_phase s) as [c|r0|r0] eqn:P; [| |done]; (destruct e as [i r|]; [destruct (rs_tasks s !! i) as [t|] eqn:T; [|done]|]).
  - pose proof (ro_gathering s O c P) as F. destruct (ended t) eqn:E; [done|]. destruct (finish_running r t E) as [N Fin]. apply gather_step_ok.
    + intros ->. apply finish_forall; [by right|done].
    + intros e ->. apply Exists_exists. exists (finish (Raised e) t). split; [|done].
      eapply list_elem_of_lookup_2, list_lookup_insert_eq, lookup_lt_Some, T.
  - split; cbn [rs_tasks rs_phase]; try (intros; naive_solver).
    + intros _. rewrite all_ended_cancel. apply (ro_live s O). intros r. by rewrite P.
    + intros _ _. apply (cancel_ends (fun o => o = None \/ o = Some Returned)). exact (ro_gathering s O c P).
  - pose proof (ro_cleaning s O r0 P) as C. apply cleaning_ok.
    + apply finish_forall; [|done]. intros N. pose proof (ended_finish r t) as E. unfold ended in E. rewrite N in E.
      by apply bool_decide_eq_true, is_Some_None in E.
    + intros ->. pose proof (ro_returned s O Returned (or_introl P) eq_refl) as F. apply finish_forall; [|done].
      rewrite Forall_forall in F. specialize (F t (list_elem_of_lookup_2 _ _ _ T)). unfold finish. by rewrite F.
    + intros e ->. by apply (finish_exists r i t _ (fun o => o = Some (Raised e))), (ro_raised s O (Raised e) e (or_introl P)).
  - pose proof (ro_cleaning s O r0 P) as C. pose proof (ro_live s O) as L. rewrite P in L. 
    split; cbn [rs_tasks rs_phase]; try (intros; naive_solver).
Qed.
Lemma steps_ok es : forall s, run_ok s -> run_ok (steps es s).
Proof. unfold steps. induction es as [|e es IH]; intros s O; [done|]. simpl. by apply IH, step_ok. Qed.
Lemma finish_ended r i t (l : tasks) n u : l !! i = Some t -> l !! n = Some u -> ended u = true ->
  exists v, <[i := finish r t]> l !! n = Some v /\ ended v = true.
Proof.
  intros T N E. destruct (decide (i = n)) as [->|Ne]; [|exists u; by rewrite list_lookup_insert_ne].
  exists (finish r t). split; [eapply list_lookup_insert_eq, lookup_lt_Some, T|apply ended_finish].
Qed.
Lemma cancel_ended (l : tasks) n u : l !! n = Some u -> ended u = true -> exists v, map cancel l !! n = Some v /\ ended v = true.
Proof. intros N E. exists (cancel u). split; [rewrite list_lookup_fmap; by rewrite N|]. unfold ended. by rewrite cancel_end. Qed.
Lemma gather_step_ended c r l n u : l !! n = Some u -> ended u = true -> exists v, rs_tasks (gather_step c r l) !! n = Some v /\ ended v = true.
Proof.
  intros N E. unfold gather_step, clean_up. destruct r; [destruct (all_ended l)|..]; cbn [rs_tasks]; try by apply (cancel_ended l n u). by exists u.
Qed.
(** Once ended, a task stays so, and the event of its end ends it. *)
Lemma step_ended e s n u : rs_tasks s !! n = Some u -> (ended u = true \/ exists r, e = TaskEnds n r) -> (forall r, rs_phase s <> Done r) ->
  exists v, rs_tasks (step e s) !! n = Some v /\ ended v = true.
Proof.
  intros N H D. unfold step. destruct (rs_phase s) as [c|r0|r0] eqn:P; [| |by destruct (D r0)].
  - destruct e as [i r|]; [|destruct H as [E|[r1 H]]; [by apply (cancel_ended _ n u)|done]].
    destruct (rs_tasks s !! i) as [t|] eqn:T.
    + destruct (ended t) eqn:Et; [exists u; split; [done|]; destruct H as [|[? [= -> _]]]; congruence|].
      assert (exists v, <[i := finish r t]> (rs_tasks s) !! n = Some v /\ ended v = true) as (v & V & Ev).
      { destruct H as [E|[r' [= -> ->]]]; [by apply (finish_ended r i t _ n u)|]. exists (finish r' t).
        split; [eapply list_lookup_insert_eq, lookup_lt_Some, T|apply ended_finish]. }
      by apply (gather_step_ended _ _ _ n v).
    + exists u. split; [done|]. destruct H as [|[? [= -> _]]]; congruence.
  - destruct e as [i r|]; [|destruct H as [E|[r1 H]]; [by exists u|done]]. destruct (rs_tasks s !! i) as [t|] eqn:T.
    + cbn [rs_tasks]. destruct H as [E|[r' [= -> ->]]]; [by apply (finish_ended r i t _ n u)|]. exists (finish r' t).
      split; [eapply list_lookup_insert_eq, lookup_lt_Some, T|apply ended_finish].
    + exists u. split; [done|]. destruct H as [|[? [= -> _]]]; congruence.
Qed.
Lemma steps_done es s r : rs_phase s = Done r -> steps es s = s.
Proof. intros D. unfold steps. induction es as [|e es IH]; [done|]. simpl. unfold step at 2. by rewrite D. Qed.
Lemma step_length e s : length (rs_tasks (step e s)) = length (rs_tasks s).
Proof.
  unfold step. destruct (rs_phase s) as [c|r0|r0]; [| |done]; (destruct e as [i r|]; [destruct (rs_tasks s !! i) as [t|]; [|done]|]); cbn [rs_tasks];
    rewrite ?length_insert, ?length_map; try done.
  destruct (ended t); [done|]. unfold gather_step, clean_up. destruct r; [destruct (all_ended _)|..]; cbn [rs_tasks]; by rewrite ?length_map, length_insert.
Qed.
Lemma steps_end es : forall s, run_ok s ->
  (forall n u, rs_tasks s !! n = Some u -> ended u = true \/ exists r, TaskEnds n r ∈ es) -> exists r, rs_phase (steps es s) = Done r.
Proof.
  induction es as [|e es IH]; intros s O H.
  - destruct (rs_phase s) as [c|r|r] eqn:P; [| |by exists r].
    all: assert (all_ended (rs_tasks s) = false) as A by (apply (ro_live s O); by rewrite P).
    all: exfalso; apply not_true_iff_false in A; apply A, forallb_forall; intros u (n & N)%list_elem_of_In%list_elem_of_lookup.
    all: destruct (H n u N) as [|(r' & []%elem_of_nil)]; done.
  - destruct (rs_phase s) as [c|r|r] eqn:P; [| |exists r; by rewrite (steps_done _ _ r)].
    all: apply (IH (step e s)); [by apply step_ok|]; intros n v V.
    all: assert (is_Some (rs_tasks s !! n)) as [u N] by (apply lookup_lt_is_Some_2; rewrite <- (step_length e s); by apply lookup_lt_Some in V).
    all: assert (forall r, rs_phase s <> Done r) as D by (by rewrite P).
    all: assert (ended u = true \/ (exists r', e = TaskEnds n r') -> ended v = true) as Step
      by (intros K; destruct (step_ended e s n u N K D) as (w & W & Ew); congruence).
    all: destruct (H n u N) as [E|(r' & [R|R]%elem_of_cons)]; [left; apply Step; by left|left; apply Step; right; by exists r'|right; by exists r'].
Qed.

(** The run of a polling driver: whatever happens to its tasks and to itself,
    once [run] is over no group is polled any more; it returns only if every
    group's task returned, and raises only what one of them raised.  One failed
    group cancels all the others, and when each task has ended (as cancelled
    ones do), the run is over. *)
Theorem run_leaves_no_task groups es :
  let s := steps es (run_groups groups) in
  (forall r, rs_phase s = Done r -> Forall (fun t => ended t = true) (rs_tasks s) /\
     match r with
     | Returned => Forall (fun t => tk_end t = Some Returned) (rs_tasks s)
     | Raised e => Exists (fun t => tk_end t = Some (Raised e)) (rs_tasks s)
     | Cancelled => True
     end) /\
  (forall t e, t ∈ rs_tasks s -> tk_end t = Some (Raised e) -> Forall (fun t => tk_end t = None -> tk_cancelled t = true) (rs_tasks s)) /\
  (forall more, (forall n, (n < length (rs_tasks s))%nat -> exists r, TaskEnds n r ∈ more) -> exists r, rs_phase (steps more s) = Done r).
Proof.
  intros s. assert (run_ok s) as O by apply steps_ok, run_groups_ok. split_and!.
  - intros r D. pose proof (ro_done s O r D) as A. split; [by apply Forall_forall; intros t I; revert A; unfold all_ended; rewrite forallb_forall; intros A; apply A, list_elem_of_In|].
    destruct r as [|e|]; [exact (ro_returned s O _ (or_intror D) eq_refl)|exact (ro_raised s O _ e (or_intror D) eq_refl)|done].
  - intros t e I E. destruct (rs_phase s) as [c|r|r] eqn:P; [|exact (ro_cleaning s O r P)|].
    + pose proof (ro_gathering s O c P) as F. rewrite Forall_forall in F. destruct (F t I); congruence.
    + pose proof (ro_done s O r P) as A. apply Forall_forall. intros u U N. unfold all_ended in A. rewrite forallb_forall in A.
      specialize (A u (proj1 (list_elem_of_In _ _) U)). unfold ended in A. rewrite N in A. by apply bool_decide_eq_true, is_Some_None in A.
  - intros more M. apply steps_end; [done|]. intros n u N%lookup_lt_Some. right. by apply M.
Qed.
End Run.

(** ** The drivers

    [run] of each driver: its configuration is required, then one task per tag
    group. *)

Definition require_groups {C G} (config : option C) (groups : C -> list G) (state_error : exn) : res (run_state G) :=
  match config with Some c => Ok (run_groups (groups c)) | None => Raise state_error end.
Definition snmp_run {T} (d : snmp_driver T) : res (run_state SnmpGroup) := require_groups (v_config d) sd_groups SnmpDriverStateError.
Definition ethernet_ip_run {T} (d : cip_driver T) : res (run_state CipGroup) := require_groups (p_config d) cd_groups EtherNetIpDriverStateError.
Definition bacnet_ip_run (d : BacnetIp.driver) : res (run_state (list BacnetIp.BacnetTag)) :=
  require_groups (BacnetIp.bd_config d) BacnetIp.bc_groups BacnetDriverStateError.
Definition bacnet_mstp_run (d : BacnetMstp.driver) : res (run_state (list BacnetMstp.MstpTag)) :=
  require_groups (BacnetMstp.md_config d) BacnetMstp.mc_groups BacnetMstpDriverStateError.
Definition opcua_run (d : OpcUa.driver) : res (run_state (list OpcUa.OpcUaTag)) :=
  require_groups (OpcUa.od_config d) OpcUa.oc_groups OpcUaDriverStateError.
Definition loopback_run (d : Loopback.driver) : res (run_state (list Loopback.LoopbackTag)) :=
  require_groups (Loopback.lb_config d) Loopback.lb_groups LoopbackDriverStateError.

(** The second of three groups fails; the others are cancelled and end. *)
Example one_group_fails :
  let s := run_groups ["a"; "b"; "c"] in
  let failed := steps [TaskEnds 1 (Raised ConnectionError)] s in
  map tk_cancelled (rs_tasks failed) = [true; false; true] /\ rs_phase failed = Cleaning (Raised ConnectionError) /\
  rs_phase (steps [TaskEnds 2 Cancelled; TaskEnds 0 Cancelled] failed) = Done (Raised ConnectionError).
Proof. done. Qed.
(** A driver without groups returns from [run] at once. *)
Example no_groups : rs_phase (run_groups ([] : list string)) = Done Returned.
Proof. done. Qed.
